(* ===== verification/_CoqProject ===== *)
-Q . S2P
Prelude.v
Params.v
State.v
Mem.v
Boot.v
Spinlock.v
Demo.v
Seg.v
Str.v
Cprintf.v
Apic.v
Kalloc.v
Vm.v
VmSpec.v
AddrSpace.v
UserMem.v
ThreadMem.v
GrowMem.v
Proc.v
Choice.v
ProcSpec.v
ProcRefine.v
Quiet.v
SleepWake.v
FsState.v
DemoFs.v
Sleeplock.v
SleeplockSpec.v
Ring.v
BlockDev.v
Ide.v
Memide.v
Bio.v
BioSpec.v
Log.v
LogSpec.v
TxSpec.v
Inode.v
BlockTx.v
Balloc.v
Console.v
Fs.v
FileSpec.v
RwSpec.v
FileIo.v
DirSpec.v
Directory.v
Mkfs.v
MkfsFile.v
MkfsSpec.v
Pipe.v
File.v
ProcLife.v
ProcOps.v
Fork.v
ThreadCreate.v
Reap.v
Exec.v
Syscall.v
ArgSpec.v
PipeSpec.v
Sysfile.v
Trap.v
FsFollows.v
KernelFollows.v
Ulib.v
Umalloc.v
Uproc.v
Ufiles.v
Grep.v
Sh.v
ShSpec.v
ShLine.v
ShRun.v
ShMeaning.v
ShSession.v
Sthread.v
