(* ===== verification/Prelude.v ===== *)
(** * xv6 with threads and scheduling policies: a verification library

    The program is xv6, a small multiprocessor UNIX for the PC, extended with
    kernel threads (thread_create, thread_join), five scheduling policies
    (round robin with one tick or a quantum, priority, multilevel, lottery),
    time statistics and system calls to choose among them.  This library
    translates the kernel's C code, routine by routine, and the user programs
    but for the tests, into executable functions and proves what makes them
    correct.

    ** The model

    A kernel routine is a state transformer [M S A] (below, "Kernel
    computations").  Its outcomes are those of the C code: it returns
    ([Done]), panics ([Panic]), spins on a lock another CPU holds ([Spin]),
    runs into undefined behaviour such as an access outside an array or
    through a null pointer ([Undef]), or gives the CPU away by [swtch] and
    waits, with its continuation, to be switched to ([Swtch]).  Integers are in
    [Z] and wrapped at their width wherever they are stored.  Pointers into
    static arrays are indices, pointers to pages are kernel virtual addresses.
    The state [kernel F] has the CPUs, locks, process table, physical memory
    by bytes, page allocator, devices and console (State.v); its parameter [F]
    is the state of the file system (FsState.v).

    The judgment [wp E m Q] (below) is total: [m] does not panic, spin or fail,
    every [swtch] gives the CPU away in a state the environment [E] accepts,
    and continues from any state [E] permits; other CPUs and processes act
    there.  [ends r Q C] (BioSpec.v) adds power failure: [C] holds of the disk
    wherever the machine may stop.

    A user program is a tree of system calls, [prog A] (Uproc.v); the kernel's
    replies select the branches.  [run] (Ufiles.v) interprets it over files and
    streams, [proc] (ShMeaning.v) follows it and its children through fork, exec
    and pipe with their descriptors.

    ** Which file models what

    - Prelude.v (this file): machine integers, the monad, [wp], automation.
      Params.v: param.h, memlayout.h, mmu.h, traps.h, fs.h, stat.h, fcntl.h.
    - Mem.v, Str.v: byte memory, string.c.  Boot.v: bootmain.c and the drive it
      reads the kernel from.
    - Spinlock.v: spinlock.c; mycpu, myproc of proc.c.  Sleeplock.v: sleeplock.c.
    - Seg.v: segments, address-space switches (vm.c) and the page walk of the
      MMU.  Kalloc.v: kalloc.c.  Vm.v: the rest of vm.c, with linkuvm,
      freethread, palloc and unmappages.
    - Cprintf.v, Console.v: console.c, uart.c, kbd.c.  Apic.v: lapic.c,
      ioapic.c, mp.c.
    - Proc.v: the scheduler, sched, yield, sleep, wakeup, policy, priority,
      tickets and times (proc.c).  ProcLife.v: allocproc, userinit, fork,
      thread_create, exit, diagwait, thread_join, kill (proc.c) and loaduvm.
    - BlockDev.v: the interface [BlockDev] of a disk driver; Ide.v (ide.c) and
      Memide.v (memide.c) implement it.  Bio.v: bio.c.  Log.v: log.c.
      Inode.v, Fs.v: fs.c.  Pipe.v: pipe.c.  File.v: file.c.
    - Exec.v: exec.c.  Syscall.v: syscall.c, sysproc.c.  Sysfile.v: sysfile.c
      and the table of system calls.  Trap.v: trap.c, main.c.
    - Ulib.v: ulib.c, printf.c.  Umalloc.v: umalloc.c.  Uproc.v: the system calls
      of user.h, cat.c, echo.c, init.c, kill.c, ln.c, ls.c, mkdir.c, rm.c, wc.c,
      zombie.c.  Grep.v: grep.c.  Sh.v: the parser of sh.c; ShRun.v: the rest of
      it.  Sthread.v: sthread.c.  Mkfs.v: mkfs.c, which makes the disk image on
      the host.
    - Demo.v, DemoFs.v: a small machine in which concrete instances of the
      theorems are evaluated.

    ** What the theorems show

    - The life of processes.  ProcSpec.v gives the process table as a
      transition system with its invariant [pinv] (the ticket count of the
      lottery is the sum over ready processes, time accounts add up, ids are
      distinct).  ProcRefine.v, FsFollows.v and KernelFollows.v show that the
      code refines it: every trap, with every system call under it, and the
      scheduler loop make only its transitions.  SleepWake.v adds the locks:
      which are held when a process sleeps, yields and returns.  ProcOps.v has
      the slots of the table on every branch; Fork.v and ThreadCreate.v what fork
      and thread_create make: the slot, the trap frame, the address space and the
      files of the child; Reap.v that wait takes all of a child back.
    - The scheduler's choice under each policy (Choice.v): which process, no
      starvation under round robin, and where the code falls short of it.
    - Memory.  Kalloc.v: the free list; VmSpec.v and AddrSpace.v: mappages,
      setupkvm and freevm against the translation of the MMU, no page leaked
      or freed twice.  UserMem.v, GrowMem.v, ThreadMem.v: an address space as its
      pages in order ([uspace]); copyuvm copies it, allocuvm adds to it, linkuvm
      makes that of a thread out of it, and what linkuvm does to the caller.
      ArgSpec.v: pointers and strings from user programs are checked so that the
      kernel touches only their memory.
    - Crash safety.  Ring.v, SleeplockSpec.v, BioSpec.v: the buffer cache shows
      a coherent disk.  LogSpec.v, TxSpec.v: a transaction reaches the disk
      whole or not at all whichever write is the last, and recovery, itself
      interrupted any number of times, restores it.
    - Files and directories, inside a transaction.  BlockTx.v: blocks read and
      changed under the log.  Balloc.v: the bitmap.  FileSpec.v: [bmap] and what
      an inode in memory says of the disk ([inode_ok], [complete], [baddr]).
      RwSpec.v, FileIo.v: [readi] and [writei] against the bytes of the file,
      the other files and inodes untouched.  DirSpec.v, Directory.v: a directory
      is a map from names to inode numbers; [dirlookup] looks up, [dirlink]
      inserts, and where it waits for a lock of its own.
    - The disk that mkfs makes (MkfsFile.v, MkfsSpec.v) has the files it was
      given, disjoint and named in the root, in the sense of FileSpec.v.
    - Pipes are queues, also where their counters wrap (PipeSpec.v).
    - Text.  Str.v, Cprintf.v, Ulib.v: copies, bounds, numerals and their round
      trip.  Umalloc.v: malloc and free keep a ring of disjoint blocks.  Grep.v:
      the matcher decides the language of the pattern, and which lines grep
      prints.  Ufiles.v: what cat, wc, ls and echo write.
    - The shell.  Sh.v, ShSpec.v: the parser ends on every line and reads back
      every command tree written as a line; ShLine.v: also as it is typed.
      ShMeaning.v says what a command does, and ShSession.v that the shell does
      it for every line.
    - The boot loader (Boot.v) puts the segments of the kernel in place.
    - Threads (Sthread.v): the stack thread_creator builds, moved by linkuvm,
      starts the function with its argument.

    ** Bounds and fuel

    Loops over tables and counted loops recurse on the table or the count.
    Loops whose end follows from the data have as fuel a bound computed from
    them, with the reason at the definition: length of a list, path, line or
    buffer, number of blocks or pages in a range; the theorems show that they
    return, so that the bound is enough.  Loops that wait for others (sleep in
    a loop, read of the console) take the class argument [Fuel], the number of
    times they may be woken in vain; statements hold for every value.  The
    scheduler's endless loop is taken for any number of iterations.  Parsing a
    line takes fuel linear in its length (Sh.v), proved to be enough.  The loops
    of user programs over their input take a number of rounds, which the
    theorems ask to be as large as the input.

    ** What is a parameter

    [Linker]: addresses the linker and the assembly files determine (end of the
    kernel, entry points, the image of initcode and entryother).  What devices
    deliver (bytes typed, fault address) are arguments.  For mkfs the byte order
    of the host, the room on its disk and the files it reads are arguments.  For
    the shell it is which files can be opened, which programs started and which
    directories entered, for the boot loader the sectors of the disk and how long
    the drive is busy with each.  The theorems on crash safety are for the memory disk
    with any pattern of power failure; the theorems on processes hold for both
    drivers.

    ** What is not modelled

    - Assembly (bootasm.S, entry.S, entryother.S, swtch.S as instructions,
      trapasm.S, usys.S, vectors.pl): it acts on registers below the level of
      the C code; swtch is the [Swtch] outcome.
    - picirq.c (two port writes) and microdelay, cmos_read of lapic.c (device
      timing, clock registers).
    - The accesses of other CPUs between two instructions of a critical
      section: locks exclude them, and they act at [swtch] only.  Reads the code
      does without a lock see the state of that moment.
    - Kernel stacks: the saved context of a process is its continuation.
    - The test programs (usertests.c, forktest.c, stressfs.c, threadtest.c and
      the tests of the scheduling policies): they check the kernel from outside
      and are not part of it.

    ** Plan

    Path names and open files on top of directories; exit and thread_join with the
    address spaces and files they give up. *)

From Stdlib Require Export ZArith Lia.
From Stdlib Require Import Zbitwise.
From stdpp Require Export base gmap list strings numbers.

#[global] Open Scope Z_scope.

(** ** Machine integers

    C integers are kept in [Z]; every assignment to a field or variable of a
    fixed width goes through one of the following wrap functions. *)

Definition u8 (z : Z) : Z := z `mod` 2 ^ 8.

Definition u16 (z : Z) : Z := z `mod` 2 ^ 16.

Definition u32 (z : Z) : Z := z `mod` 2 ^ 32.

(** Two's complement reading of the low [w] bits. *)
Definition swrap (w z : Z) : Z := (z + 2 ^ (w - 1)) `mod` 2 ^ w - 2 ^ (w - 1).

Definition s16 (z : Z) : Z := swrap 16 z.

Definition s32 (z : Z) : Z := swrap 32 z.

(** C truth value of a comparison. *)
Definition b2z (b : bool) : Z := if b then 1 else 0.

(** [e != 0] as a condition. *)
Definition nz (z : Z) : bool := negb (z =? 0).

(** ** Little-endian views of byte lists *)

Fixpoint le_val (bs : list Z) : Z :=
  match bs with
  | [] => 0
  | b :: bs' => b + 256 * le_val bs'
  end.

Fixpoint le_bytes (n : nat) (z : Z) : list Z :=
  match n with
  | O => []
  | S n' => z `mod` 256 :: le_bytes n' (z / 256)
  end.

(** The characters of a string literal. *)
Definition bytes_of (s : string) : list Z :=
  (fun a => Z.of_N (Ascii.N_of_ascii a)) <$> String.list_ascii_of_string s.

Definition nl : string := String.String (Ascii.ascii_of_nat 10) EmptyString.

(** Overwrite [length new] elements of [l] from index [i] on. *)
Definition splice {A} (l : list A) (i : nat) (new : list A) : list A :=
  take i l ++ new ++ drop (i + length new) l.

(** The [n] elements of [l] from index [i] on. *)
Definition slice {A} (l : list A) (i n : nat) : list A := take n (drop i l).

(** Little-endian fields of a record laid out in bytes, by their offset. *)
Definition word_at (bs : list Z) (off : nat) : Z := le_val (slice bs off 4).

Definition half_at (bs : list Z) (off : nat) : Z := le_val (slice bs off 2).

Definition put_word (bs : list Z) (off : nat) (v : Z) : list Z := splice bs off (le_bytes 4 v).

Definition put_half (bs : list Z) (off : nat) (v : Z) : list Z := splice bs off (le_bytes 2 v).

(** Indices [0 .. n-1] as integers. *)
Definition zseq (n : nat) : list Z := Z.of_nat <$> seq 0 n.

(** ** Kernel computations

    A kernel routine is a state transformer with the outcomes C code can
    have here: it returns, it calls [panic], it spins for ever on a lock
    another CPU holds, it runs into undefined behaviour (an access outside an
    array or through a null pointer), the fuel of an unbounded loop ran out,
    or it gives the CPU away with [swtch] and continues when it is switched
    to again. *)

Inductive ctx : Type :=
| CtxProc (i : nat)
| CtxSched (c : nat).

Inductive res (S A : Type) : Type :=
| Done (a : A) (s : S)
| Panic (msg : string) (s : S)
| Spin (s : S)
| Undef (what : string) (s : S)
| NoFuel (s : S)
| Swtch (to : ctx) (s : S) (k : S -> res S A).

Arguments Done {S A} a s.
Arguments Panic {S A} msg s.
Arguments Spin {S A} s.
Arguments Undef {S A} what s.
Arguments NoFuel {S A} s.
Arguments Swtch {S A} to s k.

Definition M (S A : Type) : Type := S -> res S A.

Fixpoint res_bind {S A B} (r : res S A) (f : A -> M S B) : res S B :=
  match r with
  | Done a s => f a s
  | Panic msg s => Panic msg s
  | Spin s => Spin s
  | Undef w s => Undef w s
  | NoFuel s => NoFuel s
  | Swtch to s k => Swtch to s (fun s' => res_bind (k s') f)
  end.

Definition ret {S A} (a : A) : M S A := fun s => Done a s.

Definition bind {S A B} (m : M S A) (f : A -> M S B) : M S B :=
  fun s => res_bind (m s) f.

Definition panic {S A} (msg : string) : M S A := fun s => Panic msg s.

Definition undef {S A} (what : string) : M S A := fun s => Undef what s.

Definition gets {S A} (f : S -> A) : M S A := fun s => Done (f s) s.

Definition modify {S} (f : S -> S) : M S unit := fun s => Done tt (f s).

Declare Scope kernel_scope.
Delimit Scope kernel_scope with K.

Notation "x <- m ;; k" := (bind m (fun x => k))
  (at level 100, m at next level, right associativity) : kernel_scope.

Notation "m ;; k" := (bind m (fun _ => k))
  (at level 100, right associativity) : kernel_scope.

#[global] Open Scope kernel_scope.

Definition when {S} (b : bool) (m : M S unit) : M S unit :=
  if b then m else ret tt.

(** A null pointer dereference is undefined behaviour. *)
Definition deref {S A} (what : string) (o : option A) : M S A :=
  match o with
  | Some a => ret a
  | None => undef what
  end.

(** [for(x = ...) body], the body of which falls through ([None]) or leaves
    the loop with a value ([Some r]: a [break], [goto] or [return]). *)
Fixpoint for_each {S X R} (l : list X) (body : X -> M S (option R)) : M S (option R) :=
  match l with
  | [] => ret None
  | x :: l' =>
      o <- body x ;;
      match o with
      | Some r => ret (Some r)
      | None => for_each l' body
      end
  end.

(** A loop body that never leaves the loop early. *)
Fixpoint for_all {S X} (l : list X) (body : X -> M S unit) : M S unit :=
  match l with
  | [] => ret tt
  | x :: l' => body x ;; for_all l' body
  end.

(** [for(;;) body] with a bound on the number of iterations. *)
Fixpoint loop {S R} (fuel : nat) (body : M S (option R)) : M S R :=
  match fuel with
  | O => fun s => NoFuel s
  | S fuel' =>
      o <- body ;;
      match o with
      | Some r => ret r
      | None => loop fuel' body
      end
  end.

(** [while(cond) body] with a bound on the number of iterations. *)
Fixpoint while {S} (fuel : nat) (cond : M S bool) (body : M S unit) : M S unit :=
  match fuel with
  | O => fun s => NoFuel s
  | S fuel' =>
      b <- cond ;;
      if (b : bool) then body ;; while fuel' cond body else ret tt
  end.

(** ** Reasoning about kernel computations

    [wp e r Q]: the computation [r] returns only in states satisfying [Q].
    The environment [e] says what has to hold when the CPU is given away
    ([e_guar]), what may be assumed when it comes back ([e_rely], relating the
    state left behind to the state found), and whether a computation may also
    stop in a panic or another failure ([e_fail]). *)

Record env (S : Type) : Type := mkEnv {
  e_guar : ctx -> S -> Prop;
  e_rely : ctx -> S -> S -> Prop;
  e_fail : Prop
}.

Arguments mkEnv {S}.
Arguments e_guar {S}.
Arguments e_rely {S}.
Arguments e_fail {S}.

(** No switch, no failure: the routine runs to its end by itself. *)
Definition alone (S : Type) : env S := mkEnv (fun _ _ => False) (fun _ _ _ => False) False.

(** Safety under an invariant: failures are allowed. *)
Definition shared {S : Type} (G : ctx -> S -> Prop) (R : ctx -> S -> S -> Prop) : env S :=
  mkEnv G R True.

Fixpoint wp {S A} (e : env S) (r : res S A) (Q : A -> S -> Prop) : Prop :=
  match r with
  | Done a s => Q a s
  | Swtch to s k => e_guar e to s /\ forall s', e_rely e to s s' -> wp e (k s') Q
  | _ => e_fail e
  end.

(** Total correctness of a computation that does not block. *)
Definition runs {S A} (m : M S A) (s : S) (Q : A -> S -> Prop) : Prop :=
  wp (alone S) (m s) Q.

Lemma wp_bind {S A B} (e : env S) (r : res S A) (f : A -> M S B) Q :
  wp e (res_bind r f) Q <-> wp e r (fun a s => wp e (f a s) Q).
Proof.
  induction r as [| | | | |to s k IH]; simpl; try done.
  split; intros [HG HR]; split; try done; intros s' Hs'; apply IH; auto.
Qed.

Lemma wp_mono {S A} (e : env S) (r : res S A) (P Q : A -> S -> Prop) :
  (forall a s, P a s -> Q a s) -> wp e r P -> wp e r Q.
Proof.
  intros HPQ. induction r as [| | | | |to s k IH]; simpl; auto.
  intros [HG HR]. split; [done|]. intros s' Hs'. auto.
Qed.

Lemma wp_env {S A} (e e' : env S) (r : res S A) (Q : A -> S -> Prop) :
  (forall to s, e_guar e to s -> e_guar e' to s) ->
  (forall to s s', e_rely e' to s s' -> e_rely e to s s') ->
  (e_fail e -> e_fail e') -> wp e r Q -> wp e' r Q.
Proof.
  intros HG HR HF. induction r as [| | | | |to s k IH]; simpl; auto.
  intros [Hg Hr]. split; auto.
Qed.

Lemma wp_conj {S A} (e : env S) (r : res S A) (P Q : A -> S -> Prop) :
  wp e r P -> wp e r Q -> wp e r (fun a s => P a s /\ Q a s).
Proof.
  induction r as [| | | | |to s k IH]; simpl; auto.
  intros [HG HR] [_ HR']. split; [done|]. intros s' Hs'. auto.
Qed.

Lemma runs_Done {S A} (m : M S A) s Q :
  runs m s Q <-> exists a s', m s = Done a s' /\ Q a s'.
Proof.
  unfold runs. destruct (m s) eqn:E; simpl; split; try done; naive_solver.
Qed.

Lemma wp_of_Done {S A} (e : env S) (r : res S A) a s' (Q : A -> S -> Prop) :
  r = Done a s' -> Q a s' -> wp e r Q.
Proof. by intros ->. Qed.

Lemma runs_mono {S A} (m : M S A) s (Q Q' : A -> S -> Prop) :
  runs m s Q -> (forall a s', Q a s' -> Q' a s') -> runs m s Q'.
Proof. rewrite !runs_Done. naive_solver. Qed.

Lemma wp_runs {S A} (e : env S) (m : M S A) s Q : runs m s Q -> wp e (m s) Q.
Proof. intros (a & s' & -> & HQ)%runs_Done. exact HQ. Qed.

Lemma wp_for_all {S X} (e : env S) (l : list X) (body : X -> M S unit) (I : S -> Prop) s :
  (forall x s', x ∈ l -> I s' -> wp e (body x s') (fun _ => I)) ->
  I s -> wp e (for_all l body s) (fun _ => I).
Proof.
  revert s. induction l as [|x l IH]; intros s Hb HI; simpl; [done|].
  unfold bind. apply wp_bind. eapply wp_mono; [|apply Hb; [left|done]].
  intros ? s' HI'. apply IH; [|done]. intros y s'' Hy. apply Hb. by right.
Qed.

Lemma wp_for_each {S X R} (e : env S) (l : list X) (body : X -> M S (option R))
    (I : S -> Prop) (Q : R -> S -> Prop) s :
  (forall x s', x ∈ l -> I s' ->
     wp e (body x s') (fun o s'' => match o with Some r => Q r s'' | None => I s'' end)) ->
  I s ->
  wp e (for_each l body s) (fun o s' => match o with Some r => Q r s' | None => I s' end).
Proof.
  revert s. induction l as [|x l IH]; intros s Hb HI; simpl; [done|].
  unfold bind. apply wp_bind. eapply wp_mono; [|apply Hb; [left|done]].
  intros [r|] s' H'; simpl; [done|]. apply IH; [|done].
  intros y s'' Hy. apply Hb. by right.
Qed.

Lemma wp_loop {S R} (e : env S) (fuel : nat) (body : M S (option R))
    (I : S -> Prop) (Q : R -> S -> Prop) s :
  e_fail e ->
  (forall s', I s' ->
     wp e (body s') (fun o s'' => match o with Some r => Q r s'' | None => I s'' end)) ->
  I s -> wp e (loop fuel body s) Q.
Proof.
  intros Hf Hb. revert s. induction fuel as [|fuel IH]; intros s HI; simpl; [done|].
  unfold bind. apply wp_bind. eapply wp_mono; [|apply Hb, HI].
  intros [r|] s' H'; simpl; auto.
Qed.

Lemma wp_while {S} (e : env S) (fuel : nat) (cond : M S bool) (body : M S unit)
    (I J : S -> Prop) s :
  e_fail e ->
  (forall s', I s' -> wp e (cond s') (fun b s'' => if (b : bool) then J s'' else I s'')) ->
  (forall s', J s' -> wp e (body s') (fun _ => I)) ->
  I s -> wp e (while fuel cond body s) (fun _ => I).
Proof.
  intros Hf Hc Hb. revert s. induction fuel as [|fuel IH]; intros s HI; simpl; [done|].
  unfold bind. apply wp_bind. eapply wp_mono; [|apply Hc, HI].
  intros [] s' H'; simpl; [|done].
  apply wp_bind. eapply wp_mono; [|apply Hb, H']. auto.
Qed.

(** [keeps f m]: [m] does not switch and leaves [f] of the state as it was,
    whenever it returns. *)

Definition calm (S : Type) : env S := mkEnv (fun _ _ => False) (fun _ _ _ => False) True.

Definition keeps {S A T} (f : S -> T) (m : M S A) : Prop :=
  forall s, wp (calm S) (m s) (fun _ s' => f s' = f s).

Create HintDb keeps discriminated.

#[export] Hint Constants Opaque : keeps.

Lemma keeps_ret {S A T} (f : S -> T) (a : A) : keeps f (ret a).
Proof. by intros s. Qed.

Lemma keeps_gets {S A T} (f : S -> T) (g : S -> A) : keeps f (gets g).
Proof. by intros s. Qed.

Lemma keeps_panic {S A T} (f : S -> T) msg : keeps f (@panic S A msg).
Proof. by intros s. Qed.

Lemma keeps_undef {S A T} (f : S -> T) w : keeps f (@undef S A w).
Proof. by intros s. Qed.

Lemma keeps_modify {S T} (f : S -> T) (g : S -> S) :
  (forall s, f (g s) = f s) -> keeps f (modify g).
Proof. intros H s. apply H. Qed.

Lemma keeps_bind {S A B T} (f : S -> T) (m : M S A) (g : A -> M S B) :
  keeps f m -> (forall a, keeps f (g a)) -> keeps f (bind m g).
Proof.
  intros Hm Hg s. unfold bind. apply wp_bind. eapply wp_mono; [|apply Hm].
  intros a s' <-. apply Hg.
Qed.

Lemma keeps_deref {S A T} (f : S -> T) w (o : option A) : keeps f (@deref S A w o).
Proof. destruct o; [apply keeps_ret|apply keeps_undef]. Qed.

Lemma keeps_when {S T} (f : S -> T) b (m : M S unit) : keeps f m -> keeps f (when b m).
Proof. intros H. destruct b; [done|apply keeps_ret]. Qed.

Lemma keeps_if {S A T} (f : S -> T) (b : bool) (m1 m2 : M S A) :
  keeps f m1 -> keeps f m2 -> keeps f (if b then m1 else m2).
Proof. by destruct b. Qed.

Lemma keeps_for_each {S X R T} (f : S -> T) l (body : X -> M S (option R)) :
  (forall x, keeps f (body x)) -> keeps f (for_each l body).
Proof.
  intros Hb. induction l as [|x l IH]; [apply keeps_ret|].
  cbn [for_each]. apply keeps_bind; [apply Hb|]. intros [r|]; [apply keeps_ret|done].
Qed.

Lemma keeps_for_all {S X T} (f : S -> T) l (body : X -> M S unit) :
  (forall x, keeps f (body x)) -> keeps f (for_all l body).
Proof.
  intros Hb. induction l as [|x l IH]; [apply keeps_ret|].
  cbn [for_all]. apply keeps_bind; [apply Hb|done].
Qed.

(** What is kept through one view is kept through every coarser one. *)
Lemma keeps_coarser {S A T U} (f : S -> T) (g : S -> U) (m : M S A) :
  (forall s s', f s = f s' -> g s = g s') -> keeps f m -> keeps g m.
Proof. intros Hfg Hm s. eapply wp_mono; [|apply Hm]. simpl. auto. Qed.

Lemma wp_calm {S A} (e : env S) (r : res S A) Q : e_fail e -> wp (calm S) r Q -> wp e r Q.
Proof. intros He. destruct r; simpl; try done. by intros []. Qed.

(** Step over a computation that keeps a view of the state. *)
Lemma wp_keeps {S A B T} (g : S -> T) (m : M S A) (f : A -> M S B) (e : env S) s Q :
  e_fail e -> keeps g m -> (forall a s', g s' = g s -> wp e (f a s') Q) -> wp e (bind m f s) Q.
Proof.
  intros He Hm Hf. unfold bind. apply wp_bind. eapply wp_mono; [|apply wp_calm; [done|apply Hm]].
  simpl. auto.
Qed.

Lemma keeps_loop {S R T} (f : S -> T) n (body : M S (option R)) :
  keeps f body -> keeps f (loop n body).
Proof.
  intros Hb. induction n as [|n IH]; [by intros s|].
  cbn [loop]. apply keeps_bind; [done|]. intros [r|]; [apply keeps_ret|done].
Qed.

Lemma keeps_while {S T} (f : S -> T) n (c : M S bool) (body : M S unit) :
  keeps f c -> keeps f body -> keeps f (while n c body).
Proof.
  intros Hc Hb. induction n as [|n IH]; [by intros s|].
  cbn [while]. apply keeps_bind; [done|]. intros []; [by apply keeps_bind|apply keeps_ret].
Qed.

#[export] Hint Resolve keeps_ret keeps_gets keeps_panic keeps_undef keeps_deref keeps_when
  keeps_bind keeps_for_each keeps_for_all keeps_loop keeps_while : keeps.
#[export] Hint Extern 1 (keeps _ (modify _)) => apply keeps_modify; done : keeps.
#[export] Hint Extern 2 (keeps _ (match ?x with _ => _ end)) => destruct x : keeps.
#[export] Hint Extern 1 (keeps _ (fun _ => _)) => intros ?; exact I : keeps.

(** One step of a proof of [keeps] along the structure of the routine; calls
    of other routines are left to the hints. *)
Ltac keeps_step :=
  match goal with
  | |- keeps _ (let _ := _ in _) => cbv zeta
  | |- keeps _ (bind _ _) => apply keeps_bind; [|intros ?]
  | |- keeps _ (if ?b then _ else _) => destruct b
  | |- keeps _ (match ?x with _ => _ end) => destruct x
  | |- keeps _ (when _ _) => apply keeps_when
  | |- keeps _ (for_all _ _) => apply keeps_for_all; intros ?
  | |- keeps _ (for_each _ _) => apply keeps_for_each; intros ?
  | |- keeps _ (loop _ _) => apply keeps_loop
  | |- keeps _ (while _ _ _) => apply keeps_while
  | |- keeps _ _ => solve [auto 2 with keeps nocore]
  end.

Ltac keeps_tac := repeat keeps_step.

(** Lists. *)

Lemma Forall_elem {A} (P : A -> Prop) l x : Forall P l -> x ∈ l -> P x.
Proof. intros H Hx. revert Hx. induction H as [|y l Hy _ IH]; [by intros ?%elem_of_nil|]. intros [->|?]%elem_of_cons; auto. Qed.

Lemma alter_alter_eq {A} (f g : A -> A) c (l : list A) :
  alter f c (alter g c l) = alter (fun x => f (g x)) c l.
Proof.
  apply list_eq. intros i. destruct (decide (i = c)) as [->|].
  - rewrite !list_lookup_alter_eq. by destruct (_ !! c).
  - by rewrite !list_lookup_alter_ne.
Qed.

Lemma alter_ext_at {A} (f g : A -> A) c (l : list A) x :
  l !! c = Some x -> f x = g x -> alter f c l = alter g c l.
Proof.
  intros Hx Hfg. apply list_eq. intros i. destruct (decide (i = c)) as [->|].
  - rewrite !list_lookup_alter_eq, Hx. simpl. by rewrite Hfg.
  - by rewrite !list_lookup_alter_ne.
Qed.

Lemma elem_of_zseq n i : i ∈ zseq n <-> 0 <= i < Z.of_nat n.
Proof.
  unfold zseq. rewrite list_elem_of_fmap. split.
  - intros [k [-> Hk]]. apply elem_of_seq in Hk. lia.
  - intros H. exists (Z.to_nat i). split; [lia|]. apply elem_of_seq. lia.
Qed.

Lemma zseq_split n i : 0 <= i < Z.of_nat n -> exists l, zseq n = zseq (Z.to_nat i) ++ i :: l.
Proof.
  intros H. unfold zseq. exists (Z.of_nat <$> seq (S (Z.to_nat i)) (n - S (Z.to_nat i))).
  replace n with (Z.to_nat i + S (n - S (Z.to_nat i)))%nat at 1 by lia. rewrite seq_app, fmap_app. cbn. by rewrite Z2Nat.id by lia.
Qed.

Lemma length_splice {A} (l : list A) i new :
  (i + length new <= length l)%nat -> length (splice l i new) = length l.
Proof.
  intros H. unfold splice. rewrite !length_app, length_take, length_drop. lia.
Qed.

Lemma lookup_splice_in {A} (l : list A) i new j :
  (i + length new <= length l)%nat -> (i <= j < i + length new)%nat ->
  splice l i new !! j = new !! (j - i)%nat.
Proof.
  intros H Hj. unfold splice. rewrite lookup_app_r; rewrite length_take; [|lia].
  rewrite Nat.min_l by lia. rewrite lookup_app_l by lia. done.
Qed.

Lemma lookup_splice_out {A} (l : list A) i new j :
  (i + length new <= length l)%nat -> ~ (i <= j < i + length new)%nat ->
  splice l i new !! j = l !! j.
Proof.
  intros H Hj. unfold splice. destruct (decide (j < i)%nat).
  - rewrite lookup_app_l by (rewrite length_take; lia). by rewrite lookup_take_lt by lia.
  - rewrite lookup_app_r; rewrite length_take; [|lia].
    rewrite lookup_app_r by lia. rewrite lookup_drop. f_equal. lia.
Qed.

Lemma slice_splice {A} (l : list A) i new :
  (i + length new <= length l)%nat -> slice (splice l i new) i (length new) = new.
Proof.
  intros H. unfold slice, splice. rewrite drop_app_ge by (rewrite length_take; lia).
  rewrite length_take, Nat.min_l, Nat.sub_diag, drop_0 by lia.
  by rewrite take_app_length.
Qed.

(** Little-endian encoding. *)

Lemma length_le_bytes n z : length (le_bytes n z) = n.
Proof. revert z. induction n; intros z; simpl; auto. Qed.

Lemma le_val_bytes n z : le_val (le_bytes n z) = z `mod` 256 ^ Z.of_nat n.
Proof.
  revert z. induction n as [|n IH]; intros z; cbn [le_bytes le_val].
  - by rewrite Z.mod_1_r.
  - rewrite IH, Nat2Z.inj_succ, Z.pow_succ_r by lia.
    rewrite Z.rem_mul_r by lia. done.
Qed.

Lemma le_bytes_val bs :
  Forall (fun b => 0 <= b < 256) bs -> le_bytes (length bs) (le_val bs) = bs.
Proof.
  induction 1 as [|b bs Hb _ IH]; cbn [length le_bytes le_val]; [done|].
  rewrite Z.mul_comm, Z.mod_add, Z.div_add, Z.mod_small, Z.div_small by lia.
  by rewrite Z.add_0_l, IH.
Qed.

Lemma le_bytes_range n z : Forall (fun b => 0 <= b < 256) (le_bytes n z).
Proof.
  revert z. induction n as [|n IH]; intros z; simpl; constructor; auto.
  apply Z.mod_pos_bound. lia.
Qed.

(** Words and half words of a byte array. *)

Lemma slice_splice_out {A} (l : list A) i new j n :
  (i + length new <= length l)%nat -> (j + n <= i \/ i + length new <= j)%nat ->
  slice (splice l i new) j n = slice l j n.
Proof.
  intros H Hj. apply list_eq. intros m. unfold slice. destruct (decide (m < n)%nat).
  - rewrite !lookup_take_lt, !lookup_drop by done. apply lookup_splice_out; [done|lia].
  - rewrite !lookup_take_ge by lia. done.
Qed.

Lemma length_put_word bs off v : (off + 4 <= length bs)%nat -> length (put_word bs off v) = length bs.
Proof. intros H. unfold put_word. apply length_splice. by rewrite length_le_bytes. Qed.

Lemma length_put_half bs off v : (off + 2 <= length bs)%nat -> length (put_half bs off v) = length bs.
Proof. intros H. unfold put_half. apply length_splice. by rewrite length_le_bytes. Qed.

Lemma word_at_put_word bs off v : (off + 4 <= length bs)%nat -> word_at (put_word bs off v) off = u32 v.
Proof.
  intros H. unfold word_at, put_word. pose proof (slice_splice bs off (le_bytes 4 v)) as E.
  rewrite length_le_bytes in E. rewrite E by done. apply le_val_bytes.
Qed.

Lemma half_at_put_half bs off v : (off + 2 <= length bs)%nat -> half_at (put_half bs off v) off = u16 v.
Proof.
  intros H. unfold half_at, put_half. pose proof (slice_splice bs off (le_bytes 2 v)) as E.
  rewrite length_le_bytes in E. rewrite E by done. apply le_val_bytes.
Qed.

Lemma word_at_put_word_out bs off v x :
  (off + 4 <= length bs)%nat -> (x + 4 <= off \/ off + 4 <= x)%nat -> word_at (put_word bs off v) x = word_at bs x.
Proof. intros H Hx. unfold word_at, put_word. rewrite slice_splice_out; rewrite ?length_le_bytes; done. Qed.

Lemma word_at_put_half_out bs off v x :
  (off + 2 <= length bs)%nat -> (x + 4 <= off \/ off + 2 <= x)%nat -> word_at (put_half bs off v) x = word_at bs x.
Proof. intros H Hx. unfold word_at, put_half. rewrite slice_splice_out; rewrite ?length_le_bytes; done. Qed.

Lemma half_at_put_half_out bs off v x :
  (off + 2 <= length bs)%nat -> (x + 2 <= off \/ off + 2 <= x)%nat -> half_at (put_half bs off v) x = half_at bs x.
Proof. intros H Hx. unfold half_at, put_half. rewrite slice_splice_out; rewrite ?length_le_bytes; done. Qed.

Lemma half_at_put_word_out bs off v x :
  (off + 4 <= length bs)%nat -> (x + 2 <= off \/ off + 4 <= x)%nat -> half_at (put_word bs off v) x = half_at bs x.
Proof. intros H Hx. unfold half_at, put_word. rewrite slice_splice_out; rewrite ?length_le_bytes; done. Qed.

(** Machine integers. *)

Lemma u32_range z : 0 <= u32 z < 2 ^ 32.
Proof. apply Z.mod_pos_bound. lia. Qed.

Lemma u32_small z : 0 <= z < 2 ^ 32 -> u32 z = z.
Proof. apply Z.mod_small. Qed.

Lemma u32_idemp z : u32 (u32 z) = u32 z.
Proof. apply u32_small, u32_range. Qed.

Lemma s32_range z : - 2 ^ 31 <= s32 z < 2 ^ 31.
Proof.
  unfold s32, swrap. pose proof (Z.mod_pos_bound (z + 2 ^ (32 - 1)) (2 ^ 32)). lia.
Qed.

Lemma s32_small z : - 2 ^ 31 <= z < 2 ^ 31 -> s32 z = z.
Proof. intros H. unfold s32, swrap. rewrite Z.mod_small by lia. lia. Qed.

Lemma u32_s32 z : u32 (s32 z) = u32 z.
Proof.
  unfold s32, swrap, u32. rewrite Zminus_mod_idemp_l. f_equal. lia.
Qed.

Lemma s32_add_s32_l a b : s32 (s32 a + b) = s32 (a + b).
Proof.
  unfold s32, swrap.
  replace ((a + 2 ^ (32 - 1)) `mod` 2 ^ 32 - 2 ^ (32 - 1) + b + 2 ^ (32 - 1))
    with ((a + 2 ^ (32 - 1)) `mod` 2 ^ 32 + b) by lia.
  rewrite Zplus_mod_idemp_l. f_equal. f_equal. lia.
Qed.

Lemma s32_add_u32_r a b : s32 (a + u32 b) = s32 (a + b).
Proof.
  unfold s32, swrap, u32. f_equal.
  replace (a + b `mod` 2 ^ 32 + 2 ^ (32 - 1)) with (a + 2 ^ (32 - 1) + b `mod` 2 ^ 32) by lia.
  rewrite Zplus_mod_idemp_r. f_equal. lia.
Qed.

(** Disjoint bit patterns add up. *)

Lemma lor_disjoint a b : Z.land a b = 0 -> Z.lor a b = a + b.
Proof. intros H. pose proof (Z.add_lor_land a b). lia. Qed.

Lemma land_high_low k n b : 0 <= n -> 0 <= b < 2 ^ n -> Z.land (k * 2 ^ n) b = 0.
Proof.
  intros Hn Hb. apply Z.bits_inj'. intros i Hi. rewrite Z.land_spec, Z.bits_0.
  destruct (decide (i < n)).
  - by rewrite Z.mul_pow2_bits_low.
  - rewrite <- (Z.mod_small b (2 ^ n)), Z.mod_pow2_bits_high, andb_false_r by lia. done.
Qed.

(** ** Symbolic execution

    [kred] runs a kernel computation whose state is known, one primitive at a
    time, without unfolding the routines it calls. *)

Lemma bind_eq {S A B} (m : M S A) (f : A -> M S B) s : bind m f s = res_bind (m s) f.
Proof. done. Qed.

Lemma ret_eq {S A} (a : A) (s : S) : ret a s = Done a s.
Proof. done. Qed.

Lemma gets_eq {S A} (f : S -> A) (s : S) : gets f s = Done (f s) s.
Proof. done. Qed.

Lemma modify_eq {S} (f : S -> S) (s : S) : modify f s = Done tt (f s).
Proof. done. Qed.

Lemma panic_eq {S A} msg (s : S) : @panic S A msg s = Panic msg s.
Proof. done. Qed.

Lemma undef_eq {S A} w (s : S) : @undef S A w s = Undef w s.
Proof. done. Qed.

Create Rewrite HintDb kred.

#[export] Hint Rewrite @bind_eq @ret_eq @gets_eq @modify_eq @panic_eq @undef_eq : kred.

#[global] Arguments bind : simpl never.
#[global] Arguments ret : simpl never.
#[global] Arguments gets : simpl never.
#[global] Arguments modify : simpl never.
#[global] Arguments panic : simpl never.
#[global] Arguments undef : simpl never.
#[global] Arguments for_each : simpl never.
#[global] Arguments for_all : simpl never.
#[global] Arguments loop : simpl never.
#[global] Arguments while : simpl never.

Ltac kred := repeat (progress (autorewrite with kred; cbn [res_bind deref when])).

(** Use a total specification of the first routine of a sequence. *)
Tactic Notation "wp_run" uconstr(l) :=
  rewrite ?bind_eq, ?wp_bind; eapply wp_mono; [|apply wp_runs; eapply l].

(** Use a specification of the first routine of a sequence. *)
Tactic Notation "wp_call" uconstr(l) :=
  rewrite ?bind_eq, ?wp_bind; eapply wp_mono; [|eapply l].

(** Two routines of a sequence are taken together. *)
Lemma wp_assoc {S A B C} (e : env S) (m : M S A) (f : A -> M S B) (g : B -> M S C) s Q :
  wp e (bind m f s) (fun b s' => wp e (g b s') Q) -> wp e (bind m (fun a => bind (f a) g) s) Q.
Proof.
  rewrite !bind_eq, !wp_bind. intros H. eapply wp_mono; [|exact H]. intros a s' H'. cbv beta in *. by rewrite bind_eq, wp_bind.
Qed.

Lemma for_each_nil {S X R} (body : X -> M S (option R)) s : for_each [] body s = Done None s.
Proof. done. Qed.

Lemma for_each_cons {S X R} x l (body : X -> M S (option R)) s :
  for_each (x :: l) body s =
  res_bind (body x s) (fun o => match o with Some r => ret (Some r) | None => for_each l body end).
Proof. done. Qed.

(** Members for which nothing happens are passed. *)
Lemma for_each_skip {S X R} (l1 l2 : list X) (body : X -> M S (option R)) s :
  (forall x, x ∈ l1 -> body x s = Done None s) -> for_each (l1 ++ l2) body s = for_each l2 body s.
Proof.
  intros H. induction l1 as [|x l1 IH]; cbn [app]; [done|]. rewrite for_each_cons, H by set_solver.
  cbn [res_bind]. apply IH. intros y Hy. apply H. set_solver.
Qed.

Lemma for_all_nil {S X} (body : X -> M S unit) s : for_all [] body s = Done tt s.
Proof. done. Qed.

Lemma for_all_cons {S X} x l (body : X -> M S unit) s :
  for_all (x :: l) body s = res_bind (body x s) (fun _ => for_all l body).
Proof. done. Qed.

(** A loop whose condition is false at once. *)
Lemma while_done {S} n (cond : M S bool) body s s' :
  cond s = Done false s' -> while (Datatypes.S n) cond body s = Done tt s'.
Proof. intros H. change (res_bind (cond s) (fun b => if (b : bool) then body ;; while n cond body else ret tt) = Done tt s'). by rewrite H. Qed.

(** A loop that is left in its first pass. *)
Lemma loop_done {S R} n (body : M S (option R)) s r s' :
  body s = Done (Some r) s' -> loop (Datatypes.S n) body s = Done r s'.
Proof.
  intros H. change (res_bind (body s) (fun o => match o with Some r => ret r | None => loop n body end) = Done r s').
  by rewrite H.
Qed.

Create HintDb kernel.
