(* ===== verification/Params.v ===== *)
(** * Kernel parameters and hardware formats

    The constants, macros and hardware records of the header files: sizes of
    the kernel's tables (param.h), the address space layout (memlayout.h), the
    x86 paging and segmentation formats (mmu.h), trap numbers (traps.h) and the
    file system's constants (fs.h, stat.h, fcntl.h, buf.h, file.h). *)

From S2P Require Import Prelude.

(** ** param.h *)

(* param.h 1-1: NPROC *)
Definition NPROC : Z := 64.

(* param.h 2-2: KSTACKSIZE *)
Definition KSTACKSIZE : Z := 4096.

(* param.h 3-3: NCPU *)
Definition NCPU : Z := 8.

(* param.h 4-4: NOFILE *)
Definition NOFILE : Z := 16.

(* param.h 5-5: NFILE *)
Definition NFILE : Z := 100.

(* param.h 6-6: NINODE *)
Definition NINODE : Z := 50.

(* param.h 7-7: NDEV *)
Definition NDEV : Z := 10.

(* param.h 8-8: ROOTDEV *)
Definition ROOTDEV : Z := 1.

(* param.h 9-9: MAXARG *)
Definition MAXARG : Z := 32.

(* param.h 10-10: MAXOPBLOCKS *)
Definition MAXOPBLOCKS : Z := 10.

(* param.h 11-11: LOGSIZE *)
Definition LOGSIZE : Z := MAXOPBLOCKS * 3.

(* param.h 12-12: NBUF *)
Definition NBUF : Z := MAXOPBLOCKS * 3.

(* param.h 13-13: FSSIZE *)
Definition FSSIZE : Z := 1000.

(* param.h 14-14: QUANTUM *)
Definition QUANTUM : Z := 10.

(** ** memlayout.h *)

(* memlayout.h 3-3: EXTMEM *)
Definition EXTMEM : Z := 0x100000.

(* memlayout.h 4-4: PHYSTOP *)
Definition PHYSTOP : Z := 0xE000000.

(* memlayout.h 5-5: DEVSPACE *)
Definition DEVSPACE : Z := 0xFE000000.

(* memlayout.h 8-8: KERNBASE *)
Definition KERNBASE : Z := 0x80000000.

(* memlayout.h 9-9: KERNLINK *)
Definition KERNLINK : Z := KERNBASE + EXTMEM.

(* memlayout.h 11-11: V2P *)
Definition V2P : Z -> Z := fun a => u32 (a - KERNBASE).

(* memlayout.h 12-12: P2V *)
Definition P2V : Z -> Z := fun a => u32 (a + KERNBASE).

(* memlayout.h 15-15: P2V_WO *)
Definition P2V_WO : Z -> Z := fun x => u32 (x + KERNBASE).

(** ** mmu.h *)

(* mmu.h 5-5: FL_IF *)
Definition FL_IF : Z := 0x200.

(* mmu.h 15-15: SEG_KCODE *)
Definition SEG_KCODE : Z := 1.

(* mmu.h 16-16: SEG_KDATA *)
Definition SEG_KDATA : Z := 2.

(* mmu.h 17-17: SEG_UCODE *)
Definition SEG_UCODE : Z := 3.

(* mmu.h 18-18: SEG_UDATA *)
Definition SEG_UDATA : Z := 4.

(* mmu.h 19-19: SEG_TSS *)
Definition SEG_TSS : Z := 5.

(* mmu.h 22-22: NSEGS *)
Definition NSEGS : Z := 6.

(* mmu.h 26-40: segdesc *)
Record segdesc : Type := mkSegdesc {
  lim_15_0 : Z;
  base_15_0 : Z;
  base_23_16 : Z;
  sd_type : Z;
  sd_s : Z;
  sd_dpl : Z;
  sd_p : Z;
  lim_19_16 : Z;
  avl : Z;
  sd_rsv1 : Z;
  db : Z;
  sd_g : Z;
  base_31_24 : Z
}.

(* mmu.h 43-46: SEG *)
Definition SEG (type base lim dpl : Z) : segdesc :=
  mkSegdesc (Z.land (Z.shiftr lim 12) 0xffff) (Z.land (u32 base) 0xffff)
    (Z.land (Z.shiftr (u32 base) 16) 0xff) type 1 dpl 1
    (Z.shiftr (u32 lim) 28) 0 0 1 1 (Z.shiftr (u32 base) 24).

(* mmu.h 47-50: SEG16 *)
Definition SEG16 (type base lim dpl : Z) : segdesc :=
  mkSegdesc (Z.land lim 0xffff) (Z.land (u32 base) 0xffff)
    (Z.land (Z.shiftr (u32 base) 16) 0xff) type 1 dpl 1
    (Z.shiftr (u32 lim) 16) 0 0 1 0 (Z.shiftr (u32 base) 24).

(* mmu.h 53-53: DPL_USER *)
Definition DPL_USER : Z := 0x3.

(* mmu.h 56-56: STA_X *)
Definition STA_X : Z := 0x8.

(* mmu.h 57-57: STA_W *)
Definition STA_W : Z := 0x2.

(* mmu.h 58-58: STA_R *)
Definition STA_R : Z := 0x2.

(* mmu.h 61-61: STS_T32A *)
Definition STS_T32A : Z := 0x9.

(* mmu.h 62-62: STS_IG32 *)
Definition STS_IG32 : Z := 0xE.

(* mmu.h 63-63: STS_TG32 *)
Definition STS_TG32 : Z := 0xF.

(* mmu.h 83-83: NPDENTRIES *)
Definition NPDENTRIES : Z := 1024.

(* mmu.h 84-84: NPTENTRIES *)
Definition NPTENTRIES : Z := 1024.

(* mmu.h 85-85: PGSIZE *)
Definition PGSIZE : Z := 4096.

(* mmu.h 87-87: PTXSHIFT *)
Definition PTXSHIFT : Z := 12.

(* mmu.h 88-88: PDXSHIFT *)
Definition PDXSHIFT : Z := 22.

(* mmu.h 74-74: PDX *)
Definition PDX : Z -> Z := fun va => Z.land (Z.shiftr (u32 va) PDXSHIFT) 0x3FF.

(* mmu.h 77-77: PTX *)
Definition PTX : Z -> Z := fun va => Z.land (Z.shiftr (u32 va) PTXSHIFT) 0x3FF.

(* mmu.h 80-80: PGADDR *)
Definition PGADDR : Z -> Z -> Z -> Z := fun d t o =>
  u32 (Z.lor (Z.lor (Z.shiftl d PDXSHIFT) (Z.shiftl t PTXSHIFT)) o).

(* mmu.h 90-90: PGROUNDUP *)
Definition PGROUNDUP : Z -> Z := fun sz => Z.land (u32 (sz + PGSIZE - 1)) (Z.lnot (PGSIZE - 1)).

(* mmu.h 91-91: PGROUNDDOWN *)
Definition PGROUNDDOWN : Z -> Z := fun a => Z.land (u32 a) (Z.lnot (PGSIZE - 1)).

(* mmu.h 94-94: PTE_P *)
Definition PTE_P : Z := 0x001.

(* mmu.h 95-95: PTE_W *)
Definition PTE_W : Z := 0x002.

(* mmu.h 96-96: PTE_U *)
Definition PTE_U : Z := 0x004.

(* mmu.h 97-97: PTE_PS *)
Definition PTE_PS : Z := 0x080.

(* mmu.h 100-100: PTE_ADDR *)
Definition PTE_ADDR : Z -> Z := fun pte => Z.land (u32 pte) (Z.lnot 0xFFF).

(* mmu.h 101-101: PTE_FLAGS *)
Definition PTE_FLAGS : Z -> Z := fun pte => Z.land (u32 pte) 0xFFF.

(** The fields of the task state segment that the kernel sets. *)
(* mmu.h 107-145: taskstate *)
Record taskstate : Type := mkTs {
  esp0 : Z;
  ss0 : Z;
  iomb : Z
}.

(* mmu.h 148-158: gatedesc *)
Record gatedesc : Type := mkGate {
  off_15_0 : Z;
  gd_cs : Z;
  gd_args : Z;
  gd_rsv1 : Z;
  gd_type : Z;
  gd_s : Z;
  gd_dpl : Z;
  gd_p : Z;
  off_31_16 : Z
}.

(* mmu.h 168-179: SETGATE *)
Definition SETGATE (istrap : bool) (sel off d : Z) : gatedesc :=
  mkGate (Z.land (u32 off) 0xffff) sel 0 0 (if istrap then STS_TG32 else STS_IG32)
    0 d 1 (Z.shiftr (u32 off) 16).

(** ** traps.h *)

(* traps.h 27-27: T_SYSCALL *)
Definition T_SYSCALL : Z := 64.

(* traps.h 30-30: T_IRQ0 *)
Definition T_IRQ0 : Z := 32.

(* traps.h 32-32: IRQ_TIMER *)
Definition IRQ_TIMER : Z := 0.

(* traps.h 33-33: IRQ_KBD *)
Definition IRQ_KBD : Z := 1.

(* traps.h 34-34: IRQ_COM1 *)
Definition IRQ_COM1 : Z := 4.

(* traps.h 35-35: IRQ_IDE *)
Definition IRQ_IDE : Z := 14.

(* traps.h 36-36: IRQ_ERROR *)
Definition IRQ_ERROR : Z := 19.

(* traps.h 37-37: IRQ_SPURIOUS *)
Definition IRQ_SPURIOUS : Z := 31.

(** ** stat.h, fcntl.h, buf.h, file.h *)

(* stat.h 1-1: T_DIR *)
Definition T_DIR : Z := 1.

(* stat.h 2-2: T_FILE *)
Definition T_FILE : Z := 2.

(* stat.h 3-3: T_DEV *)
Definition T_DEV : Z := 3.

(* fcntl.h 1-1: O_RDONLY *)
Definition O_RDONLY : Z := 0x000.

(* fcntl.h 2-2: O_WRONLY *)
Definition O_WRONLY : Z := 0x001.

(* fcntl.h 3-3: O_RDWR *)
Definition O_RDWR : Z := 0x002.

(* fcntl.h 4-4: O_CREATE *)
Definition O_CREATE : Z := 0x200.

(* buf.h 12-12: B_VALID *)
Definition B_VALID : Z := 0x2.

(* buf.h 13-13: B_DIRTY *)
Definition B_DIRTY : Z := 0x4.

(* file.h 37-37: CONSOLE *)
Definition CONSOLE : Z := 1.

(** ** fs.h *)

(* fs.h 5-5: ROOTINO *)
Definition ROOTINO : Z := 1.

(* fs.h 6-6: BSIZE *)
Definition BSIZE : Z := 512.

(* fs.h 24-24: NDIRECT *)
Definition NDIRECT : Z := 12.

(* fs.h 25-25: NINDIRECT *)
Definition NINDIRECT : Z := BSIZE / 4.

(* fs.h 26-26: MAXFILE *)
Definition MAXFILE : Z := NDIRECT + NINDIRECT.

(* fs.h 39-39: IPB *)
Definition IPB : Z := BSIZE / 64.

(* fs.h 45-45: BPB *)
Definition BPB : Z := BSIZE * 8.

(* fs.h 51-51: DIRSIZ *)
Definition DIRSIZ : Z := 14.

(** ** elf.h *)

(* elf.h 3-3: ELF_MAGIC *)
Definition ELF_MAGIC : Z := 0x464C457F.

(* elf.h 37-37: ELF_PROG_LOAD *)
Definition ELF_PROG_LOAD : Z := 1.

(** ** Page arithmetic *)

Lemma land_page_mask a : Z.land a (Z.lnot (PGSIZE - 1)) = a - a `mod` PGSIZE.
Proof.
  unfold PGSIZE. rewrite <- Z.ldiff_land. change (4096 - 1) with (Z.ones 12).
  rewrite Z.ldiff_ones_r, Z.shiftl_mul_pow2, Z.shiftr_div_pow2 by lia.
  change (2 ^ 12) with 4096. pose proof (Z.div_mod a 4096). lia.
Qed.

Lemma PGROUNDDOWN_spec a : 0 <= a < 2 ^ 32 -> PGROUNDDOWN a = a - a `mod` PGSIZE.
Proof. intros H. unfold PGROUNDDOWN. rewrite u32_small by done. apply land_page_mask. Qed.

Lemma PGROUNDUP_spec a :
  0 <= a <= 2 ^ 32 - PGSIZE -> PGROUNDUP a = (a + 4095) / 4096 * 4096.
Proof.
  intros H. unfold PGROUNDUP. rewrite u32_small, land_page_mask by (unfold PGSIZE in *; lia).
  unfold PGSIZE. pose proof (Z.div_mod (a + 4096 - 1) 4096).
  replace (a + 4095) with (a + 4096 - 1) by lia. lia.
Qed.

Lemma PGROUNDDOWN_aligned a :
  0 <= a < 2 ^ 32 -> a `mod` PGSIZE = 0 -> PGROUNDDOWN a = a.
Proof. intros H Ha. rewrite PGROUNDDOWN_spec by done. lia. Qed.

Lemma PTE_ADDR_spec p : 0 <= p < 2 ^ 32 -> PTE_ADDR p = p - p `mod` PGSIZE.
Proof. intros H. unfold PTE_ADDR. rewrite u32_small by done. apply land_page_mask. Qed.

Lemma PTE_FLAGS_spec p : 0 <= p < 2 ^ 32 -> PTE_FLAGS p = p `mod` PGSIZE.
Proof.
  intros H. unfold PTE_FLAGS. rewrite u32_small by done.
  change 0xFFF with (Z.ones 12). rewrite Z.land_ones by lia. done.
Qed.

Lemma PDX_spec va : 0 <= va < 2 ^ 32 -> PDX va = va / 2 ^ 22.
Proof.
  intros H. unfold PDX, PDXSHIFT. rewrite u32_small, Z.shiftr_div_pow2 by lia.
  change 0x3FF with (Z.ones 10). rewrite Z.land_ones by lia.
  apply Z.mod_small. split; [apply Z.div_pos; lia|].
  apply Z.div_lt_upper_bound; lia.
Qed.

Lemma PTX_spec va : 0 <= va < 2 ^ 32 -> PTX va = (va / 2 ^ 12) `mod` 1024.
Proof.
  intros H. unfold PTX, PTXSHIFT. rewrite u32_small, Z.shiftr_div_pow2 by lia.
  change 0x3FF with (Z.ones 10). by rewrite Z.land_ones by lia.
Qed.

(** An entry made of an aligned frame address and low flag bits splits back. *)
Lemma PTE_lor pa fl :
  pa `mod` PGSIZE = 0 -> 0 <= fl < PGSIZE -> Z.lor pa fl = pa + fl.
Proof.
  unfold PGSIZE. intros Ha Hf. apply lor_disjoint.
  pose proof (Z.div_mod pa 4096).
  replace pa with (pa / 4096 * 2 ^ 12) by lia. apply land_high_low; lia.
Qed.

Lemma land_bit_testbit p k : 0 <= k -> (Z.land p (2 ^ k) =? 0) = negb (Z.testbit p k).
Proof.
  intros Hk. rewrite <- (Z.shiftl_1_l k).
  destruct (Z.testbit p k) eqn:E; simpl.
  - apply Z.eqb_neq. intros H. apply (f_equal (fun z => Z.testbit z k)) in H.
    rewrite Z.land_spec, E, Z.shiftl_spec, Z.sub_diag, Z.bits_0 in H by lia. done.
  - apply Z.eqb_eq. apply Z.bits_inj'. intros i Hi. rewrite Z.land_spec, Z.bits_0.
    destruct (decide (i = k)) as [->|Hne]; [by rewrite E|].
    rewrite Z.shiftl_1_l, Z.pow2_bits_false by lia. apply andb_false_r.
Qed.
