(* ===== verification/State.v ===== *)
(** * Kernel state

    The state the kernel routines transform: the CPUs and their control
    registers, the spin locks and sleep locks, the process table with the
    scheduler's globals, physical memory with the page allocator, and the
    console.  The rest (disk, buffer cache, log, inodes, files, pipes) is a type
    parameter [F] of the record [kernel], so that the routines of this layer
    do not depend on it; it is defined in the file-system files.

    Pointers into the kernel's static arrays are indices ([option nat], [None]
    being the null pointer); pointers to pages obtained from the page
    allocator are kernel virtual addresses. *)

From S2P Require Import Prelude Params.

(** ** Identities of kernel objects *)

(** Sleep locks live in buffers and in cached inodes. *)
Inductive slid : Type :=
| SLbuf (i : nat)
| SLinode (i : nat).

(** Spin locks, by the object they are a field of. *)
Inductive lockid : Type :=
| LKptable | LKkmem | LKcons | LKtick | LKide | LKbcache | LKlog | LKicache | LKftable
| LKsleep (sl : slid)
| LKpipe (p : Z).

(** Sleep channels: the addresses passed to [sleep] and [wakeup]. *)
Inductive chan : Type :=
| ChProc (i : nat)
| ChSleep (sl : slid)
| ChBuf (i : nat)
| ChLog
| ChTicks
| ChPipeRead (p : Z)
| ChPipeWrite (p : Z)
| ChInput.

#[export] Instance slid_eq_dec : EqDecision slid.
Proof. solve_decision. Defined.

#[export] Instance lockid_eq_dec : EqDecision lockid.
Proof. solve_decision. Defined.

#[export] Instance chan_eq_dec : EqDecision chan.
Proof. solve_decision. Defined.

Definition slid_code (sl : slid) : nat + nat :=
  match sl with SLbuf i => inl i | SLinode i => inr i end.

Definition slid_decode (c : nat + nat) : slid :=
  match c with inl i => SLbuf i | inr i => SLinode i end.

#[export] Instance slid_countable : Countable slid.
Proof. apply (inj_countable' slid_code slid_decode). by intros []. Defined.

Definition lockid_code (l : lockid) : nat + (slid + Z) :=
  match l with
  | LKptable => inl 0%nat | LKkmem => inl 1%nat | LKcons => inl 2%nat
  | LKtick => inl 3%nat | LKide => inl 4%nat | LKbcache => inl 5%nat
  | LKlog => inl 6%nat | LKicache => inl 7%nat | LKftable => inl 8%nat
  | LKsleep sl => inr (inl sl)
  | LKpipe p => inr (inr p)
  end.

Definition lockid_decode (c : nat + (slid + Z)) : lockid :=
  match c with
  | inl 0%nat => LKptable | inl 1%nat => LKkmem | inl 2%nat => LKcons
  | inl 3%nat => LKtick | inl 4%nat => LKide | inl 5%nat => LKbcache
  | inl 6%nat => LKlog | inl 7%nat => LKicache | inl _ => LKftable
  | inr (inl sl) => LKsleep sl
  | inr (inr p) => LKpipe p
  end.

#[export] Instance lockid_countable : Countable lockid.
Proof. apply (inj_countable' lockid_code lockid_decode). by intros []. Defined.

(** ** Locks *)

(** The recorded call stack (the debugging field pcs) is left out. *)
(* spinlock.h 2-11: spinlock *)
Record spinlock : Type := mkSpinlock {
  locked : Z;
  lk_name : string;
  lk_cpu : option nat
}.

Definition set_locked (v : Z) (r : spinlock) : spinlock :=
  mkSpinlock v (lk_name r) (lk_cpu r).

Definition set_lk_name (v : string) (r : spinlock) : spinlock :=
  mkSpinlock (locked r) v (lk_cpu r).

Definition set_lk_cpu (v : option nat) (r : spinlock) : spinlock :=
  mkSpinlock (locked r) (lk_name r) v.

(** The spin lock inside a sleep lock is the lock [LKsleep]. *)
(* sleeplock.h 2-9: sleeplock *)
Record sleeplock : Type := mkSleeplock {
  sl_locked : Z;
  sl_name : string;
  sl_pid : Z
}.

Definition set_sl_locked (v : Z) (r : sleeplock) : sleeplock :=
  mkSleeplock v (sl_name r) (sl_pid r).

Definition set_sl_name (v : string) (r : sleeplock) : sleeplock :=
  mkSleeplock (sl_locked r) v (sl_pid r).

Definition set_sl_pid (v : Z) (r : sleeplock) : sleeplock :=
  mkSleeplock (sl_locked r) (sl_name r) v.

Definition spinlock0 : spinlock := mkSpinlock 0 EmptyString None.

Definition sleeplock0 : sleeplock := mkSleeplock 0 EmptyString 0.

(** ** CPUs *)

(** [RRLastProc] is the offset of the pointer in [ptable.proc], in elements; a
    negative offset stands for a pointer below the array, such as null. *)
(* proc.h 2-14: cpu *)
Record cpu : Type := mkCpu {
  apicid : Z;
  gdt : list segdesc;
  ts : taskstate;
  started : Z;
  ncli : Z;
  intena : Z;
  c_proc : option nat;
  schedAlg : Z;
  RRLastProc : Z;
  ctr : Z
}.

Definition set_apicid (v : Z) (r : cpu) : cpu :=
  mkCpu v (gdt r) (ts r) (started r) (ncli r) (intena r) (c_proc r) (schedAlg r)
    (RRLastProc r) (ctr r).

Definition set_gdt (v : list segdesc) (r : cpu) : cpu :=
  mkCpu (apicid r) v (ts r) (started r) (ncli r) (intena r) (c_proc r) (schedAlg r)
    (RRLastProc r) (ctr r).

Definition set_ts (v : taskstate) (r : cpu) : cpu :=
  mkCpu (apicid r) (gdt r) v (started r) (ncli r) (intena r) (c_proc r) (schedAlg r)
    (RRLastProc r) (ctr r).

Definition set_started (v : Z) (r : cpu) : cpu :=
  mkCpu (apicid r) (gdt r) (ts r) v (ncli r) (intena r) (c_proc r) (schedAlg r)
    (RRLastProc r) (ctr r).

Definition set_ncli (v : Z) (r : cpu) : cpu :=
  mkCpu (apicid r) (gdt r) (ts r) (started r) v (intena r) (c_proc r) (schedAlg r)
    (RRLastProc r) (ctr r).

Definition set_intena (v : Z) (r : cpu) : cpu :=
  mkCpu (apicid r) (gdt r) (ts r) (started r) (ncli r) v (c_proc r) (schedAlg r)
    (RRLastProc r) (ctr r).

Definition set_c_proc (v : option nat) (r : cpu) : cpu :=
  mkCpu (apicid r) (gdt r) (ts r) (started r) (ncli r) (intena r) v (schedAlg r)
    (RRLastProc r) (ctr r).

Definition set_schedAlg (v : Z) (r : cpu) : cpu :=
  mkCpu (apicid r) (gdt r) (ts r) (started r) (ncli r) (intena r) (c_proc r) v
    (RRLastProc r) (ctr r).

Definition set_RRLastProc (v : Z) (r : cpu) : cpu :=
  mkCpu (apicid r) (gdt r) (ts r) (started r) (ncli r) (intena r) (c_proc r) (schedAlg r)
    v (ctr r).

Definition set_ctr (v : Z) (r : cpu) : cpu :=
  mkCpu (apicid r) (gdt r) (ts r) (started r) (ncli r) (intena r) (c_proc r) (schedAlg r)
    (RRLastProc r) v.

(** What the executing CPU sees: the kernel's array of CPUs, the id its local
    APIC reports, the interrupt flag, the page table and task
    registers, the CPU whose descriptor table is loaded, whether the
    interrupt descriptor table is, the addresses and registers of its local
    APIC and of the I/O APIC. *)
Record hw : Type := mkHw {
  cpus : list cpu;
  ncpu : Z;
  lapic_id : Z;
  eflags_if : bool;
  cr3 : Z;
  tr : Z;
  gdtr : option nat;
  idtr : bool;
  lapic : Z;
  lapic_regs : gmap Z Z;
  ioapicid : Z;
  ioapic_regs : gmap Z Z
}.

Definition set_cpus (v : list cpu) (r : hw) : hw :=
  mkHw v (ncpu r) (lapic_id r) (eflags_if r) (cr3 r) (tr r) (gdtr r) (idtr r) (lapic r)
    (lapic_regs r) (ioapicid r) (ioapic_regs r).

Definition set_ncpu (v : Z) (r : hw) : hw :=
  mkHw (cpus r) v (lapic_id r) (eflags_if r) (cr3 r) (tr r) (gdtr r) (idtr r) (lapic r)
    (lapic_regs r) (ioapicid r) (ioapic_regs r).

Definition set_lapic_id (v : Z) (r : hw) : hw :=
  mkHw (cpus r) (ncpu r) v (eflags_if r) (cr3 r) (tr r) (gdtr r) (idtr r) (lapic r)
    (lapic_regs r) (ioapicid r) (ioapic_regs r).

Definition set_eflags_if (v : bool) (r : hw) : hw :=
  mkHw (cpus r) (ncpu r) (lapic_id r) v (cr3 r) (tr r) (gdtr r) (idtr r) (lapic r)
    (lapic_regs r) (ioapicid r) (ioapic_regs r).

Definition set_cr3 (v : Z) (r : hw) : hw :=
  mkHw (cpus r) (ncpu r) (lapic_id r) (eflags_if r) v (tr r) (gdtr r) (idtr r) (lapic r)
    (lapic_regs r) (ioapicid r) (ioapic_regs r).

Definition set_tr (v : Z) (r : hw) : hw :=
  mkHw (cpus r) (ncpu r) (lapic_id r) (eflags_if r) (cr3 r) v (gdtr r) (idtr r) (lapic r)
    (lapic_regs r) (ioapicid r) (ioapic_regs r).

Definition set_gdtr (v : option nat) (r : hw) : hw :=
  mkHw (cpus r) (ncpu r) (lapic_id r) (eflags_if r) (cr3 r) (tr r) v (idtr r) (lapic r)
    (lapic_regs r) (ioapicid r) (ioapic_regs r).

Definition set_idtr (v : bool) (r : hw) : hw :=
  mkHw (cpus r) (ncpu r) (lapic_id r) (eflags_if r) (cr3 r) (tr r) (gdtr r) v (lapic r)
    (lapic_regs r) (ioapicid r) (ioapic_regs r).

Definition set_lapic (v : Z) (r : hw) : hw :=
  mkHw (cpus r) (ncpu r) (lapic_id r) (eflags_if r) (cr3 r) (tr r) (gdtr r) (idtr r) v
    (lapic_regs r) (ioapicid r) (ioapic_regs r).

Definition set_lapic_regs (v : gmap Z Z) (r : hw) : hw :=
  mkHw (cpus r) (ncpu r) (lapic_id r) (eflags_if r) (cr3 r) (tr r) (gdtr r) (idtr r)
    (lapic r) v (ioapicid r) (ioapic_regs r).

Definition set_ioapicid (v : Z) (r : hw) : hw :=
  mkHw (cpus r) (ncpu r) (lapic_id r) (eflags_if r) (cr3 r) (tr r) (gdtr r) (idtr r)
    (lapic r) (lapic_regs r) v (ioapic_regs r).

Definition set_ioapic_regs (v : gmap Z Z) (r : hw) : hw :=
  mkHw (cpus r) (ncpu r) (lapic_id r) (eflags_if r) (cr3 r) (tr r) (gdtr r) (idtr r)
    (lapic r) (lapic_regs r) (ioapicid r) v.

(** ** Processes *)

(* proc.h 39-39: procstate *)
Inductive procstate : Type :=
| UNUSED | EMBRYO | SLEEPING | RUNNABLE | RUNNING | ZOMBIE.

#[export] Instance procstate_eq_dec : EqDecision procstate.
Proof. solve_decision. Defined.

(** Trap frame and context are kernel virtual addresses inside the kernel
    stack page; open files are indices into the file table, the current
    directory an index into the inode cache. *)
(* proc.h 42-63: proc *)
Record proc : Type := mkProc {
  sz : Z;
  pgdir : Z;
  kstack : Z;
  state : procstate;
  pid : Z;
  parent : option nat;
  tf : Z;
  context : Z;
  p_chan : option chan;
  killed : Z;
  ofile : list (option nat);
  cwd : option nat;
  name : list Z;
  first_pid : Z;
  priority : Z;
  creationTime : Z;
  lastChangeTime : Z;
  totalWaitTime : Z;
  totalCBT : Z;
  ticketCount : Z
}.

Definition set_sz (v : Z) (r : proc) : proc :=
  mkProc v (pgdir r) (kstack r) (state r) (pid r) (parent r) (tf r) (context r) (p_chan r)
    (killed r) (ofile r) (cwd r) (name r) (first_pid r) (priority r) (creationTime r)
    (lastChangeTime r) (totalWaitTime r) (totalCBT r) (ticketCount r).

Definition set_pgdir (v : Z) (r : proc) : proc :=
  mkProc (sz r) v (kstack r) (state r) (pid r) (parent r) (tf r) (context r) (p_chan r)
    (killed r) (ofile r) (cwd r) (name r) (first_pid r) (priority r) (creationTime r)
    (lastChangeTime r) (totalWaitTime r) (totalCBT r) (ticketCount r).

Definition set_kstack (v : Z) (r : proc) : proc :=
  mkProc (sz r) (pgdir r) v (state r) (pid r) (parent r) (tf r) (context r) (p_chan r)
    (killed r) (ofile r) (cwd r) (name r) (first_pid r) (priority r) (creationTime r)
    (lastChangeTime r) (totalWaitTime r) (totalCBT r) (ticketCount r).

Definition set_state (v : procstate) (r : proc) : proc :=
  mkProc (sz r) (pgdir r) (kstack r) v (pid r) (parent r) (tf r) (context r) (p_chan r)
    (killed r) (ofile r) (cwd r) (name r) (first_pid r) (priority r) (creationTime r)
    (lastChangeTime r) (totalWaitTime r) (totalCBT r) (ticketCount r).

Definition set_pid (v : Z) (r : proc) : proc :=
  mkProc (sz r) (pgdir r) (kstack r) (state r) v (parent r) (tf r) (context r) (p_chan r)
    (killed r) (ofile r) (cwd r) (name r) (first_pid r) (priority r) (creationTime r)
    (lastChangeTime r) (totalWaitTime r) (totalCBT r) (ticketCount r).

Definition set_parent (v : option nat) (r : proc) : proc :=
  mkProc (sz r) (pgdir r) (kstack r) (state r) (pid r) v (tf r) (context r) (p_chan r)
    (killed r) (ofile r) (cwd r) (name r) (first_pid r) (priority r) (creationTime r)
    (lastChangeTime r) (totalWaitTime r) (totalCBT r) (ticketCount r).

Definition set_tf (v : Z) (r : proc) : proc :=
  mkProc (sz r) (pgdir r) (kstack r) (state r) (pid r) (parent r) v (context r) (p_chan r)
    (killed r) (ofile r) (cwd r) (name r) (first_pid r) (priority r) (creationTime r)
    (lastChangeTime r) (totalWaitTime r) (totalCBT r) (ticketCount r).

Definition set_context (v : Z) (r : proc) : proc :=
  mkProc (sz r) (pgdir r) (kstack r) (state r) (pid r) (parent r) (tf r) v (p_chan r)
    (killed r) (ofile r) (cwd r) (name r) (first_pid r) (priority r) (creationTime r)
    (lastChangeTime r) (totalWaitTime r) (totalCBT r) (ticketCount r).

Definition set_p_chan (v : option chan) (r : proc) : proc :=
  mkProc (sz r) (pgdir r) (kstack r) (state r) (pid r) (parent r) (tf r) (context r) v
    (killed r) (ofile r) (cwd r) (name r) (first_pid r) (priority r) (creationTime r)
    (lastChangeTime r) (totalWaitTime r) (totalCBT r) (ticketCount r).

Definition set_killed (v : Z) (r : proc) : proc :=
  mkProc (sz r) (pgdir r) (kstack r) (state r) (pid r) (parent r) (tf r) (context r)
    (p_chan r) v (ofile r) (cwd r) (name r) (first_pid r) (priority r) (creationTime r)
    (lastChangeTime r) (totalWaitTime r) (totalCBT r) (ticketCount r).

Definition set_ofile (v : list (option nat)) (r : proc) : proc :=
  mkProc (sz r) (pgdir r) (kstack r) (state r) (pid r) (parent r) (tf r) (context r)
    (p_chan r) (killed r) v (cwd r) (name r) (first_pid r) (priority r) (creationTime r)
    (lastChangeTime r) (totalWaitTime r) (totalCBT r) (ticketCount r).

Definition set_cwd (v : option nat) (r : proc) : proc :=
  mkProc (sz r) (pgdir r) (kstack r) (state r) (pid r) (parent r) (tf r) (context r)
    (p_chan r) (killed r) (ofile r) v (name r) (first_pid r) (priority r) (creationTime r)
    (lastChangeTime r) (totalWaitTime r) (totalCBT r) (ticketCount r).

Definition set_name (v : list Z) (r : proc) : proc :=
  mkProc (sz r) (pgdir r) (kstack r) (state r) (pid r) (parent r) (tf r) (context r)
    (p_chan r) (killed r) (ofile r) (cwd r) v (first_pid r) (priority r) (creationTime r)
    (lastChangeTime r) (totalWaitTime r) (totalCBT r) (ticketCount r).

Definition set_first_pid (v : Z) (r : proc) : proc :=
  mkProc (sz r) (pgdir r) (kstack r) (state r) (pid r) (parent r) (tf r) (context r)
    (p_chan r) (killed r) (ofile r) (cwd r) (name r) v (priority r) (creationTime r)
    (lastChangeTime r) (totalWaitTime r) (totalCBT r) (ticketCount r).

Definition put_priority (v : Z) (r : proc) : proc :=
  mkProc (sz r) (pgdir r) (kstack r) (state r) (pid r) (parent r) (tf r) (context r)
    (p_chan r) (killed r) (ofile r) (cwd r) (name r) (first_pid r) v (creationTime r)
    (lastChangeTime r) (totalWaitTime r) (totalCBT r) (ticketCount r).

Definition set_creationTime (v : Z) (r : proc) : proc :=
  mkProc (sz r) (pgdir r) (kstack r) (state r) (pid r) (parent r) (tf r) (context r)
    (p_chan r) (killed r) (ofile r) (cwd r) (name r) (first_pid r) (priority r) v
    (lastChangeTime r) (totalWaitTime r) (totalCBT r) (ticketCount r).

Definition set_lastChangeTime (v : Z) (r : proc) : proc :=
  mkProc (sz r) (pgdir r) (kstack r) (state r) (pid r) (parent r) (tf r) (context r)
    (p_chan r) (killed r) (ofile r) (cwd r) (name r) (first_pid r) (priority r)
    (creationTime r) v (totalWaitTime r) (totalCBT r) (ticketCount r).

Definition set_totalWaitTime (v : Z) (r : proc) : proc :=
  mkProc (sz r) (pgdir r) (kstack r) (state r) (pid r) (parent r) (tf r) (context r)
    (p_chan r) (killed r) (ofile r) (cwd r) (name r) (first_pid r) (priority r)
    (creationTime r) (lastChangeTime r) v (totalCBT r) (ticketCount r).

Definition set_totalCBT (v : Z) (r : proc) : proc :=
  mkProc (sz r) (pgdir r) (kstack r) (state r) (pid r) (parent r) (tf r) (context r)
    (p_chan r) (killed r) (ofile r) (cwd r) (name r) (first_pid r) (priority r)
    (creationTime r) (lastChangeTime r) (totalWaitTime r) v (ticketCount r).

Definition put_ticketCount (v : Z) (r : proc) : proc :=
  mkProc (sz r) (pgdir r) (kstack r) (state r) (pid r) (parent r) (tf r) (context r)
    (p_chan r) (killed r) (ofile r) (cwd r) (name r) (first_pid r) (priority r)
    (creationTime r) (lastChangeTime r) (totalWaitTime r) (totalCBT r) v.

(** The globals of proc.c, the tick counter of trap.c and the static
    variable of [forkret]. *)
Record pstate : Type := mkPs {
  procs : list proc;
  initproc : option nat;
  totalTicketCount : Z;
  g_seed : Z;
  nextpid : Z;
  ticks : Z;
  first : Z
}.

Definition set_procs (v : list proc) (r : pstate) : pstate :=
  mkPs v (initproc r) (totalTicketCount r) (g_seed r) (nextpid r) (ticks r) (first r).

Definition set_initproc (v : option nat) (r : pstate) : pstate :=
  mkPs (procs r) v (totalTicketCount r) (g_seed r) (nextpid r) (ticks r) (first r).

Definition set_totalTicketCount (v : Z) (r : pstate) : pstate :=
  mkPs (procs r) (initproc r) v (g_seed r) (nextpid r) (ticks r) (first r).

Definition set_g_seed (v : Z) (r : pstate) : pstate :=
  mkPs (procs r) (initproc r) (totalTicketCount r) v (nextpid r) (ticks r) (first r).

Definition set_nextpid (v : Z) (r : pstate) : pstate :=
  mkPs (procs r) (initproc r) (totalTicketCount r) (g_seed r) v (ticks r) (first r).

Definition set_ticks (v : Z) (r : pstate) : pstate :=
  mkPs (procs r) (initproc r) (totalTicketCount r) (g_seed r) (nextpid r) v (first r).

Definition set_first (v : Z) (r : pstate) : pstate :=
  mkPs (procs r) (initproc r) (totalTicketCount r) (g_seed r) (nextpid r) (ticks r) v.

(** ** Physical memory *)

(** Bytes of physical memory by physical address, the globals of kalloc.c and
    the kernel's own page directory. *)
Record mstate : Type := mkMs {
  ram : gmap Z Z;
  use_lock : Z;
  freelist : Z;
  kpgdir : Z
}.

Definition set_ram (v : gmap Z Z) (r : mstate) : mstate :=
  mkMs v (use_lock r) (freelist r) (kpgdir r).

Definition set_use_lock (v : Z) (r : mstate) : mstate :=
  mkMs (ram r) v (freelist r) (kpgdir r).

Definition set_freelist (v : Z) (r : mstate) : mstate :=
  mkMs (ram r) (use_lock r) v (kpgdir r).

Definition set_kpgdir (v : Z) (r : mstate) : mstate :=
  mkMs (ram r) (use_lock r) (freelist r) v.

(** ** The console *)

(** The globals of console.c, uart.c and kbd.c with the devices behind them: the
    cursor register of the CGA screen (its memory is at physical address
    0xb8000) and the bytes sent on the serial line. *)
Record cstate : Type := mkCs {
  cons_locking : Z;
  panicked : Z;
  cursor : Z;
  uart : Z;
  uart_out : list Z;
  in_buf : list Z;
  in_r : Z;
  in_w : Z;
  in_e : Z;
  kbd_shift : Z
}.

Definition set_cons_locking (v : Z) (r : cstate) : cstate :=
  mkCs v (panicked r) (cursor r) (uart r) (uart_out r) (in_buf r) (in_r r) (in_w r)
    (in_e r) (kbd_shift r).

Definition set_panicked (v : Z) (r : cstate) : cstate :=
  mkCs (cons_locking r) v (cursor r) (uart r) (uart_out r) (in_buf r) (in_r r) (in_w r)
    (in_e r) (kbd_shift r).

Definition set_cursor (v : Z) (r : cstate) : cstate :=
  mkCs (cons_locking r) (panicked r) v (uart r) (uart_out r) (in_buf r) (in_r r) (in_w r)
    (in_e r) (kbd_shift r).

Definition set_uart (v : Z) (r : cstate) : cstate :=
  mkCs (cons_locking r) (panicked r) (cursor r) v (uart_out r) (in_buf r) (in_r r)
    (in_w r) (in_e r) (kbd_shift r).

Definition set_uart_out (v : list Z) (r : cstate) : cstate :=
  mkCs (cons_locking r) (panicked r) (cursor r) (uart r) v (in_buf r) (in_r r) (in_w r)
    (in_e r) (kbd_shift r).

Definition set_in_buf (v : list Z) (r : cstate) : cstate :=
  mkCs (cons_locking r) (panicked r) (cursor r) (uart r) (uart_out r) v (in_r r) (in_w r)
    (in_e r) (kbd_shift r).

Definition set_in_r (v : Z) (r : cstate) : cstate :=
  mkCs (cons_locking r) (panicked r) (cursor r) (uart r) (uart_out r) (in_buf r) v
    (in_w r) (in_e r) (kbd_shift r).

Definition set_in_w (v : Z) (r : cstate) : cstate :=
  mkCs (cons_locking r) (panicked r) (cursor r) (uart r) (uart_out r) (in_buf r) (in_r r)
    v (in_e r) (kbd_shift r).

Definition set_in_e (v : Z) (r : cstate) : cstate :=
  mkCs (cons_locking r) (panicked r) (cursor r) (uart r) (uart_out r) (in_buf r) (in_r r)
    (in_w r) v (kbd_shift r).

Definition set_kbd_shift (v : Z) (r : cstate) : cstate :=
  mkCs (cons_locking r) (panicked r) (cursor r) (uart r) (uart_out r) (in_buf r) (in_r r)
    (in_w r) (in_e r) v.

Record kernel (F : Type) : Type := mkK {
  k_hw : hw;
  k_locks : gmap lockid spinlock;
  k_slocks : gmap slid sleeplock;
  k_ps : pstate;
  k_ms : mstate;
  k_cons : cstate;
  k_fs : F
}.

Arguments mkK {F}.
Arguments k_hw {F}.
Arguments k_locks {F}.
Arguments k_slocks {F}.
Arguments k_ps {F}.
Arguments k_ms {F}.
Arguments k_cons {F}.
Arguments k_fs {F}.

Definition set_k_hw {F : Type} (v : hw) (r : kernel F) : kernel F :=
  mkK v (k_locks r) (k_slocks r) (k_ps r) (k_ms r) (k_cons r) (k_fs r).

Definition set_k_locks {F : Type} (v : gmap lockid spinlock) (r : kernel F) : kernel F :=
  mkK (k_hw r) v (k_slocks r) (k_ps r) (k_ms r) (k_cons r) (k_fs r).

Definition set_k_slocks {F : Type} (v : gmap slid sleeplock) (r : kernel F) : kernel F :=
  mkK (k_hw r) (k_locks r) v (k_ps r) (k_ms r) (k_cons r) (k_fs r).

Definition set_k_ps {F : Type} (v : pstate) (r : kernel F) : kernel F :=
  mkK (k_hw r) (k_locks r) (k_slocks r) v (k_ms r) (k_cons r) (k_fs r).

Definition set_k_ms {F : Type} (v : mstate) (r : kernel F) : kernel F :=
  mkK (k_hw r) (k_locks r) (k_slocks r) (k_ps r) v (k_cons r) (k_fs r).

Definition set_k_cons {F : Type} (v : cstate) (r : kernel F) : kernel F :=
  mkK (k_hw r) (k_locks r) (k_slocks r) (k_ps r) (k_ms r) v (k_fs r).

Definition set_k_fs {F : Type} (v : F) (r : kernel F) : kernel F :=
  mkK (k_hw r) (k_locks r) (k_slocks r) (k_ps r) (k_ms r) (k_cons r) v.

(** Symbols the linker script and the assembler files define. *)
Class Linker : Type := {
  sym_end : Z;
  sym_data : Z;
  sym_trapret : Z;
  sym_forkret : Z;
  sym_ts : nat -> Z;
  initcode : list Z
}.

(** The layout of kernel.ld: the image is linked at [KERNLINK], its data section
    starts on a page boundary, and it ends within the first four megabytes,
    which the boot page table maps. *)
Class LinkerOk {LK : Linker} : Prop := {
  data_high : KERNLINK < sym_data;
  data_aligned : sym_data `mod` PGSIZE = 0;
  data_end : sym_data <= sym_end;
  end_low : sym_end <= KERNBASE + 0x400000
}.

Lemma end_high {LK : Linker} {LKO : LinkerOk} : KERNBASE < sym_end.
Proof. pose proof data_high. pose proof data_end. unfold KERNLINK, EXTMEM, KERNBASE in *. lia. Qed.

Lemma end_32bit {LK : Linker} {LKO : LinkerOk} : sym_end < 2 ^ 32.
Proof. pose proof end_low. unfold KERNBASE in *. lia. Qed.

(** ** Access to the state *)

Section Access.
  Context {F : Type}.

Definition on_hw (f : hw -> hw) : M (kernel F) unit :=
  modify (fun k => set_k_hw (f (k_hw k)) k).

Definition on_ps (f : pstate -> pstate) : M (kernel F) unit :=
  modify (fun k => set_k_ps (f (k_ps k)) k).

Definition on_ms (f : mstate -> mstate) : M (kernel F) unit :=
  modify (fun k => set_k_ms (f (k_ms k)) k).

Definition on_cons (f : cstate -> cstate) : M (kernel F) unit :=
  modify (fun k => set_k_cons (f (k_cons k)) k).

(** [cpus[c].f = v] and reads of [cpus[c]]. *)
Definition get_cpu (c : nat) : M (kernel F) cpu :=
  k <- gets k_hw ;; deref "cpus" (cpus k !! c).

Definition upd_cpu (c : nat) (f : cpu -> cpu) : M (kernel F) unit :=
  on_hw (fun h => set_cpus (alter f c (cpus h)) h).

(** Reads and updates of [ptable.proc[i]]; an index outside the table is an
    access outside the array. *)
Definition get_proc (i : nat) : M (kernel F) proc :=
  ps <- gets k_ps ;; deref "ptable.proc" (procs ps !! i).

Definition upd_proc (i : nat) (f : proc -> proc) : M (kernel F) unit :=
  get_proc i ;; on_ps (fun ps => set_procs (alter f i (procs ps)) ps).

Definition get_ticks : M (kernel F) Z := gets (fun k => ticks (k_ps k)).

Definition get_lock (l : lockid) : M (kernel F) spinlock :=
  gets (fun k => default spinlock0 (k_locks k !! l)).

Definition put_lock (l : lockid) (v : spinlock) : M (kernel F) unit :=
  modify (fun k => set_k_locks (<[l := v]> (k_locks k)) k).

Definition get_slock (l : slid) : M (kernel F) sleeplock :=
  gets (fun k => default sleeplock0 (k_slocks k !! l)).

Definition put_slock (l : slid) (v : sleeplock) : M (kernel F) unit :=
  modify (fun k => set_k_slocks (<[l := v]> (k_slocks k)) k).

End Access.

(** Physical memory as bytes and as little-endian words. *)
Definition ld8 (m : gmap Z Z) (a : Z) : Z := default 0 (m !! a).

Fixpoint ld (m : gmap Z Z) (a : Z) (n : nat) : list Z :=
  match n with
  | O => []
  | S n' => ld8 m a :: ld m (a + 1) n'
  end.

Fixpoint st (m : gmap Z Z) (a : Z) (bs : list Z) : gmap Z Z :=
  match bs with
  | [] => m
  | b :: bs' => st (<[a := b]> m) (a + 1) bs'
  end.

Definition ld32 (m : gmap Z Z) (a : Z) : Z := le_val (ld m a 4).

Definition st32 (m : gmap Z Z) (a v : Z) : gmap Z Z := st m a (le_bytes 4 v).

Section Memory.
  Context {F : Type}.

(** Accesses through a kernel virtual address: the kernel maps physical
    memory at [KERNBASE]. *)
Definition kload (v : Z) (n : nat) : M (kernel F) (list Z) :=
  gets (fun k => ld (ram (k_ms k)) (V2P v) n).

Definition kstore (v : Z) (bs : list Z) : M (kernel F) unit :=
  on_ms (fun m => set_ram (st (ram m) (V2P v) bs) m).

Definition kload32 (v : Z) : M (kernel F) Z :=
  gets (fun k => ld32 (ram (k_ms k)) (V2P v)).

Definition kstore32 (v x : Z) : M (kernel F) unit :=
  on_ms (fun m => set_ram (st32 (ram m) (V2P v) x) m).

End Memory.
