(* ===== verification/Mem.v ===== *)
(** * Laws of byte-addressed memory

    Reading back what was stored, for single bytes, byte strings and
    little-endian words.  Every routine that touches memory is reasoned about
    through these laws. *)

From S2P Require Import Prelude Params State.

Lemma ld8_insert m a b x : ld8 (<[a := b]> m) x = if decide (x = a) then b else ld8 m x.
Proof.
  unfold ld8. case_decide as E; [subst; by rewrite lookup_insert_eq|].
  by rewrite lookup_insert_ne by congruence.
Qed.

Lemma ld8_st m a bs x :
  ld8 (st m a bs) x =
  if decide (a <= x < a + Z.of_nat (length bs)) then default 0 (bs !! Z.to_nat (x - a)) else ld8 m x.
Proof.
  revert m a. induction bs as [|b bs IH]; intros m a; cbn [st length].
  - rewrite decide_False by lia. done.
  - rewrite IH, ld8_insert. destruct (decide (x = a)) as [->|Hne].
    + rewrite decide_False, decide_True by lia. by rewrite Z.sub_diag.
    + destruct (decide (a + 1 <= x < a + 1 + Z.of_nat (length bs))).
      * rewrite decide_True by lia.
        replace (Z.to_nat (x - a)) with (S (Z.to_nat (x - (a + 1)))) by lia. done.
      * by rewrite decide_False by lia.
Qed.

Lemma ld8_st_out m a bs x :
  ~ (a <= x < a + Z.of_nat (length bs)) -> ld8 (st m a bs) x = ld8 m x.
Proof. intros H. rewrite ld8_st. by rewrite decide_False. Qed.

Lemma length_ld m a n : length (ld m a n) = n.
Proof. revert a. induction n; intros a; simpl; auto. Qed.

Lemma lookup_ld m a n (i : nat) :
  (i < n)%nat -> ld m a n !! i = Some (ld8 m (a + Z.of_nat i)).
Proof.
  revert a i. induction n as [|n IH]; intros a [|i] Hi; try lia; cbn [ld].
  - simpl. do 2 f_equal. lia.
  - simpl. rewrite IH by lia. do 2 f_equal. lia.
Qed.

Lemma ld_ext m m' a n :
  (forall x, a <= x < a + Z.of_nat n -> ld8 m' x = ld8 m x) -> ld m' a n = ld m a n.
Proof.
  revert a. induction n as [|n IH]; intros a H; [done|]. cbn [ld]. f_equal.
  - apply H. lia.
  - apply IH. intros x Hx. apply H. lia.
Qed.

Lemma ld_st_same m a bs : ld (st m a bs) a (length bs) = bs.
Proof.
  apply list_eq. intros i. destruct (decide (i < length bs)%nat) as [Hi|Hi].
  - rewrite lookup_ld by done. rewrite ld8_st, decide_True by lia.
    replace (Z.to_nat (a + Z.of_nat i - a)) with i by lia.
    destruct (lookup_lt_is_Some_2 _ _ Hi) as [b Hb]. by rewrite Hb.
  - rewrite !lookup_ge_None_2 by (rewrite ?length_ld; lia). done.
Qed.

Lemma ld_st_out m a bs x n :
  x + Z.of_nat n <= a \/ a + Z.of_nat (length bs) <= x -> ld (st m a bs) x n = ld m x n.
Proof. intros H. apply ld_ext. intros y Hy. apply ld8_st_out. lia. Qed.

Lemma ld32_st32_same m a v : ld32 (st32 m a v) a = u32 v.
Proof.
  unfold ld32, st32. replace 4%nat with (length (le_bytes 4 v)) at 2 by apply length_le_bytes.
  rewrite ld_st_same, le_val_bytes. done.
Qed.

Lemma ld32_st_out m a bs x :
  x + 4 <= a \/ a + Z.of_nat (length bs) <= x -> ld32 (st m a bs) x = ld32 m x.
Proof. intros H. unfold ld32. rewrite ld_st_out by lia. done. Qed.

Lemma ld32_st32_out m a v x : x + 4 <= a \/ a + 4 <= x -> ld32 (st32 m a v) x = ld32 m x.
Proof. intros H. apply ld32_st_out. rewrite length_le_bytes. lia. Qed.

Lemma ld8_st32_out m a v x : x < a \/ a + 4 <= x -> ld8 (st32 m a v) x = ld8 m x.
Proof. intros H. apply ld8_st_out. rewrite length_le_bytes. lia. Qed.

Lemma ld32_ext m m' a :
  (forall x, a <= x < a + 4 -> ld8 m' x = ld8 m x) -> ld32 m' a = ld32 m a.
Proof. intros H. unfold ld32. rewrite (ld_ext m m'); [done|]. intros x Hx. apply H. lia. Qed.

(** Memory whose cells hold bytes. *)
Definition bytes_ok (m : gmap Z Z) : Prop := forall x, 0 <= ld8 m x < 256.

Lemma le_val_range bs :
  Forall (fun b => 0 <= b < 256) bs -> 0 <= le_val bs < 256 ^ Z.of_nat (length bs).
Proof.
  induction 1 as [|b bs Hb _ IH]; [simpl; lia|]. cbn [le_val length].
  rewrite Nat2Z.inj_succ, Z.pow_succ_r by lia. lia.
Qed.

Lemma ld_bytes m a n : bytes_ok m -> Forall (fun b => 0 <= b < 256) (ld m a n).
Proof. intros H. revert a. induction n; intros a; simpl; constructor; auto. Qed.

Lemma ld32_range m a : bytes_ok m -> 0 <= ld32 m a < 2 ^ 32.
Proof.
  intros H. unfold ld32. pose proof (le_val_range _ (ld_bytes m a 4 H)) as Hr.
  rewrite length_ld in Hr. done.
Qed.

Lemma bytes_ok_st m a bs :
  bytes_ok m -> Forall (fun b => 0 <= b < 256) bs -> bytes_ok (st m a bs).
Proof.
  intros Hm Hbs x. rewrite ld8_st. case_decide; [|apply Hm].
  destruct (bs !! _) as [b|] eqn:E; simpl; [|lia]. by apply (Forall_lookup_1 _ _ _ _ Hbs E).
Qed.

Lemma bytes_ok_st32 m a v : bytes_ok m -> bytes_ok (st32 m a v).
Proof. intros H. apply bytes_ok_st; [done|]. apply le_bytes_range. Qed.
