(* ===== verification/Boot.v ===== *)
(** * The boot loader (bootmain.c)

    The drive is a small device behind its ports: it is busy for a while after a
    command and then delivers the sector.  [bootmain] reads the kernel, an ELF
    file that starts at sector 1, into memory and jumps to its entry point. *)

From Stdlib Require Import Sorting.Sorted.
From S2P Require Import Prelude Params State Mem.

(** ** The machine *)

(** The registers of the drive, the number of times its status will still be busy
    and the data it has ready. *)
Record drive : Type := mkDrive {
  d_count : Z;
  d_lba0 : Z;
  d_lba1 : Z;
  d_lba2 : Z;
  d_dev : Z;
  d_busy : nat;
  d_buf : list Z
}.

Record boot : Type := mkBoot {
  b_ram : gmap Z Z;
  b_drive : drive
}.

Definition on_drive (f : drive -> drive) : M boot unit := modify (fun b => mkBoot (b_ram b) (f (b_drive b))).

Definition on_bram (f : gmap Z Z -> gmap Z Z) : M boot unit := modify (fun b => mkBoot (f (b_ram b)) (b_drive b)).

(** A word of physical memory. *)
Definition bload (a : Z) : M boot Z := gets (fun b => ld32 (b_ram b) (u32 a)).

Definition SECTSIZE : Z := 512.

Definition ELF_SCRATCH : Z := 0x10000.

Section Boot.
(** The sectors of the disk, and how long the drive takes for them. *)
Context (sector : Z -> list Z) (latency : Z -> nat).

(** ** Ports *)

(** The sector the registers select. *)
Definition lba (d : drive) : Z := d_lba0 d + 2 ^ 8 * d_lba1 d + 2 ^ 16 * d_lba2 d + 2 ^ 24 * Z.land (d_dev d) 0x0F.

(* x86.h 3-10: inb *)
Definition inb (port : Z) : M boot Z :=
  if negb (port =? 0x1F7) then undef "port" else
  d <- gets b_drive ;;
  match d_busy d with
  | O => ret 0x40
  | S n => on_drive (fun d => mkDrive (d_count d) (d_lba0 d) (d_lba1 d) (d_lba2 d) (d_dev d) n (d_buf d)) ;; ret 0x80
  end.

(** Command 0x20 reads the selected sectors, one here. *)
Definition port_write (port v : Z) (d : drive) : drive :=
  if port =? 0x1F2 then mkDrive v (d_lba0 d) (d_lba1 d) (d_lba2 d) (d_dev d) (d_busy d) (d_buf d)
  else if port =? 0x1F3 then mkDrive (d_count d) v (d_lba1 d) (d_lba2 d) (d_dev d) (d_busy d) (d_buf d)
  else if port =? 0x1F4 then mkDrive (d_count d) (d_lba0 d) v (d_lba2 d) (d_dev d) (d_busy d) (d_buf d)
  else if port =? 0x1F5 then mkDrive (d_count d) (d_lba0 d) (d_lba1 d) v (d_dev d) (d_busy d) (d_buf d)
  else if port =? 0x1F6 then mkDrive (d_count d) (d_lba0 d) (d_lba1 d) (d_lba2 d) v (d_busy d) (d_buf d)
  else if (port =? 0x1F7) && (v =? 0x20) && (d_count d =? 1)
  then mkDrive (d_count d) (d_lba0 d) (d_lba1 d) (d_lba2 d) (d_dev d) (latency (lba d)) (sector (lba d))
  else d.

(* x86.h 21-25: outb *)
Definition outb (port data : Z) : M boot unit := on_drive (port_write port (u8 data)).

(** [cnt] words from the data port. *)
(* x86.h 12-19: insl *)
Definition insl (port addr cnt : Z) : M boot unit :=
  d <- gets b_drive ;;
  if negb (port =? 0x1F0) || negb (Nat.eqb (d_busy d) 0) || (Z.of_nat (length (d_buf d)) <? 4 * cnt) then undef "insl" else
  let n := Z.to_nat (4 * cnt) in
  on_bram (fun m => st m addr (take n (d_buf d))) ;;
  on_drive (fun d => mkDrive (d_count d) (d_lba0 d) (d_lba1 d) (d_lba2 d) (d_dev d) (d_busy d) (drop n (d_buf d))).

(* x86.h 42-49: stosb *)
Definition stosb (addr data cnt : Z) : M boot unit := on_bram (fun m => st m addr (replicate (Z.to_nat cnt) (u8 data))).

(** ** bootmain.c *)

(** The drive is busy as often as it says. *)
(* bootmain.c 50-56: waitdisk *)
Definition waitdisk : M boot unit :=
  n <- gets (fun b => d_busy (b_drive b)) ;;
  while (S n) (s <- inb 0x1F7 ;; ret (negb (Z.land s 0xC0 =? 0x40))) (ret tt).

(* bootmain.c 58-74: readsect *)
Definition readsect (dst offset : Z) : M boot unit :=
  waitdisk ;;
  outb 0x1F2 1 ;;
  outb 0x1F3 offset ;;
  outb 0x1F4 (Z.shiftr offset 8) ;;
  outb 0x1F5 (Z.shiftr offset 16) ;;
  outb 0x1F6 (Z.lor (Z.shiftr offset 24) 0xE0) ;;
  outb 0x1F7 0x20 ;;
  waitdisk ;;
  insl 0x1F0 dst (SECTSIZE / 4).

(* bootmain.c 94-95: readseg *)
Fixpoint readseg_loop (fuel : nat) (pa epa offset : Z) : M boot unit :=
  if negb (pa <? epa) then ret tt else
  match fuel with
  | O => fun b => NoFuel b
  | S n => readsect pa offset ;; readseg_loop n (u32 (pa + SECTSIZE)) epa (u32 (offset + 1))
  end.

(* bootmain.c 76-96: readseg *)
Definition readseg (pa count offset : Z) : M boot unit :=
  let epa := u32 (pa + count) in
  let pa := u32 (pa - offset `mod` SECTSIZE) in
  let offset := u32 (offset / SECTSIZE + 1) in
  readseg_loop (Z.to_nat ((epa - pa) / SECTSIZE + 1)) pa epa offset.

(** The fields of a program header are read from memory where they are used. *)
(* bootmain.c 38-41: bootmain *)
Definition load_segment (ph : Z) : M boot unit :=
  pa <- bload (ph + 12) ;;
  filesz <- bload (ph + 16) ;;
  off <- bload (ph + 4) ;;
  readseg pa filesz off ;;
  memsz <- bload (ph + 20) ;;
  filesz <- bload (ph + 16) ;;
  when (memsz >? filesz) (stosb (u32 (pa + filesz)) 0 (memsz - filesz)).

(* bootmain.c 36-42: bootmain *)
Fixpoint load_segs (fuel : nat) (ph eph : Z) : M boot unit :=
  if negb (ph <? eph) then ret tt else
  match fuel with
  | O => fun b => NoFuel b
  | S n => load_segment ph ;; load_segs n (u32 (ph + 32)) eph
  end.

(** [None]: it returns to bootasm.S; [Some e]: it jumps to [e]. *)
(* bootmain.c 17-48: bootmain *)
Definition bootmain : M boot (option Z) :=
  let elf := ELF_SCRATCH in
  readseg elf 4096 0 ;;
  magic <- bload elf ;;
  if negb (magic =? ELF_MAGIC) then ret None else
  phoff <- bload (elf + 28) ;;
  phnum <- gets (fun b => le_val (ld (b_ram b) (elf + 44) 2)) ;;
  let ph := u32 (elf + phoff) in
  load_segs (Z.to_nat phnum) ph (u32 (ph + 32 * phnum)) ;;
  entry <- bload (elf + 24) ;;
  ret (Some entry).

(** ** The kernel file *)

(** Byte [x] of the kernel file, and its fields. *)
Definition file (x : Z) : Z := default 0 (sector (1 + x / SECTSIZE) !! Z.to_nat (x `mod` SECTSIZE)).

Definition file_word (x : Z) : Z := le_val (file <$> [x; x + 1; x + 2; x + 3]).

Definition file_half (x : Z) : Z := le_val (file <$> [x; x + 1]).

(** What the loader uses of a program header. *)
Record segment : Type := mkSegment {
  s_off : Z;
  s_paddr : Z;
  s_filesz : Z;
  s_memsz : Z
}.

(** The program header at offset [o] of the file. *)
Definition segment_at (o : Z) : segment :=
  mkSegment (file_word (o + 4)) (file_word (o + 12)) (file_word (o + 16)) (file_word (o + 20)).

(** A header without contents, as linkers emit for the stack's permissions. *)
Definition idle (s : segment) : bool := (s_off s `mod` SECTSIZE =? 0) && (s_filesz s =? 0) && (s_memsz s =? 0).

(** The segments of the [n] headers from offset [o] on. *)
Fixpoint segments_at (n : nat) (o : Z) : list segment :=
  match n with
  | O => []
  | S n' => if idle (segment_at o) then segments_at n' (o + 32) else segment_at o :: segments_at n' (o + 32)
  end.

(** Loading starts at a sector boundary of the file. *)
Definition seg_start (s : segment) : Z := s_paddr s - s_off s `mod` SECTSIZE.

Definition seg_end (s : segment) : Z := s_paddr s + Z.max (s_filesz s) (s_memsz s).

(** A segment lies above the scratch page, and neither its addresses nor its
    offsets wrap around. *)
Definition segment_ok (s : segment) : Prop :=
  ELF_SCRATCH + 4096 <= seg_start s /\ seg_end s + SECTSIZE <= 2 ^ 32 /\ s_off s + s_filesz s + SECTSIZE <= 2 ^ 32.

Definition before (s t : segment) : Prop := seg_end s <= seg_start t.

(** The segment is in memory, zero beyond what the file has. *)
Definition loaded (m : gmap Z Z) (s : segment) : Prop :=
  (forall x, 0 <= x < s_filesz s -> ld8 m (s_paddr s + x) = file (s_off s + x)) /\
  (forall x, s_filesz s <= x < s_memsz s -> ld8 m (s_paddr s + x) = 0).

(** The scratch page holds the first page of the file. *)
Definition scratch (m : gmap Z Z) : Prop := forall x, 0 <= x < 4096 -> ld8 m (ELF_SCRATCH + x) = file x.

(** ** Sectors *)

Lemma while_step {S} n (cond : M S bool) body s :
  while (Datatypes.S n) cond body s = res_bind (cond s) (fun b => if (b : bool) then body ;; while n cond body else ret tt).
Proof. done. Qed.

Lemma waitdisk_done b : waitdisk b = Done tt (mkBoot (b_ram b)
  (mkDrive (d_count (b_drive b)) (d_lba0 (b_drive b)) (d_lba1 (b_drive b)) (d_lba2 (b_drive b)) (d_dev (b_drive b)) 0 (d_buf (b_drive b)))).
Proof.
  unfold waitdisk. rewrite bind_eq, gets_eq. cbn [res_bind]. destruct b as [m [c l0 l1 l2 dv n buf]]. cbn [b_drive d_busy b_ram d_count d_lba0 d_lba1 d_lba2 d_dev d_buf].
  induction n as [|n IH]; rewrite while_step; unfold inb at 1; kred; cbn [b_drive d_busy].
  - kred. done.
  - unfold on_drive at 1. kred. exact IH.
Qed.

(** The registers make up the number of the sector. *)
Lemma lba_bytes off : 0 <= off < 2 ^ 28 ->
  u8 off + 2 ^ 8 * u8 (Z.shiftr off 8) + 2 ^ 16 * u8 (Z.shiftr off 16) + 2 ^ 24 * Z.land (u8 (Z.lor (Z.shiftr off 24) 0xE0)) 0x0F = off.
Proof.
  intros H. rewrite !Z.shiftr_div_pow2 by lia. unfold u8.
  assert (0 <= off / 2 ^ 24 < 16) as Hhi by (split; [apply Z.div_pos; lia|apply Z.div_lt_upper_bound; lia]).
  assert (Z.land (Z.lor (off / 2 ^ 24) 224 `mod` 2 ^ 8) 15 = off / 2 ^ 24) as ->.
  { rewrite <-Z.land_ones by lia. change 15 with (Z.ones 4). rewrite <-Z.land_assoc.
    change (Z.land (Z.ones 8) (Z.ones 4)) with (Z.ones 4). rewrite Z.land_lor_distr_l. change (Z.land 224 (Z.ones 4)) with 0. rewrite Z.lor_0_r, Z.land_ones by lia.
    apply Z.mod_small. change (2 ^ 4) with 16. lia. }
  change (2 ^ 16) with (256 * 256). change (2 ^ 24) with (256 * 256 * 256). change (2 ^ 8) with 256. rewrite <-!Z.div_div by lia.
  pose proof (Z.div_mod off 256). pose proof (Z.div_mod (off / 256) 256). pose proof (Z.div_mod (off / 256 / 256) 256). lia.
Qed.

(** A sector has 512 bytes. *)
Context (Hsec : forall n, length (sector n) = 512%nat /\ Forall (fun x => 0 <= x < 256) (sector n)).

Local Lemma sector_length n : length (sector n) = 512%nat.
Proof. apply Hsec. Qed.

Lemma outb_eq port v b : outb port v b = Done tt (mkBoot (b_ram b) (port_write port (u8 v) (b_drive b))).
Proof. done. Qed.

(** The registers after the command. *)
Lemma read_command off c l0 l1 l2 dv n buf : 0 <= off < 2 ^ 28 ->
  port_write 0x1F7 (u8 0x20) (port_write 0x1F6 (u8 (Z.lor (Z.shiftr off 24) 0xE0)) (port_write 0x1F5 (u8 (Z.shiftr off 16))
    (port_write 0x1F4 (u8 (Z.shiftr off 8)) (port_write 0x1F3 (u8 off) (port_write 0x1F2 (u8 1) (mkDrive c l0 l1 l2 dv n buf)))))) =
  mkDrive 1 (u8 off) (u8 (Z.shiftr off 8)) (u8 (Z.shiftr off 16)) (u8 (Z.lor (Z.shiftr off 24) 0xE0)) (latency off) (sector off).
Proof.
  intros Ho. pose proof (lba_bytes off Ho) as E. change (u8 0x20) with 0x20. change (u8 1) with 1.
  generalize dependent (u8 off). generalize dependent (u8 (Z.shiftr off 8)). generalize dependent (u8 (Z.shiftr off 16)).
  generalize dependent (u8 (Z.lor (Z.shiftr off 24) 0xE0)). intros v3 v2 v1 v0 E.
  change (port_write 0x1F2 1 (mkDrive c l0 l1 l2 dv n buf)) with (mkDrive 1 l0 l1 l2 dv n buf).
  change (port_write 0x1F3 v0 (mkDrive 1 l0 l1 l2 dv n buf)) with (mkDrive 1 v0 l1 l2 dv n buf).
  change (port_write 0x1F4 v1 (mkDrive 1 v0 l1 l2 dv n buf)) with (mkDrive 1 v0 v1 l2 dv n buf).
  change (port_write 0x1F5 v2 (mkDrive 1 v0 v1 l2 dv n buf)) with (mkDrive 1 v0 v1 v2 dv n buf).
  change (port_write 0x1F6 v3 (mkDrive 1 v0 v1 v2 dv n buf)) with (mkDrive 1 v0 v1 v2 v3 n buf).
  rewrite <-E at 1 2. done.
Qed.

Lemma readsect_reads dst off b : 0 <= off < 2 ^ 28 -> exists d', readsect dst off b = Done tt (mkBoot (st (b_ram b) dst (sector off)) d').
Proof.
  intros Ho. unfold readsect. rewrite bind_eq, waitdisk_done. cbn [res_bind]. do 6 (rewrite bind_eq, outb_eq; cbn [res_bind b_ram b_drive]).
  rewrite read_command by done. rewrite bind_eq, waitdisk_done. cbn [res_bind b_ram b_drive d_busy d_buf d_count d_lba0 d_lba1 d_lba2 d_dev].
  unfold insl. rewrite bind_eq, gets_eq. cbn [res_bind b_drive d_busy d_buf]. rewrite sector_length. change (Z.of_nat 512 <? 4 * (SECTSIZE / 4)) with false. cbn [negb orb Nat.eqb Z.eqb Pos.eqb].
  unfold on_bram, on_drive. rewrite bind_eq, modify_eq. cbn [res_bind]. rewrite modify_eq. cbn [b_ram].
  change (Z.to_nat (4 * (SECTSIZE / 4))) with 512%nat. rewrite take_ge by (by rewrite sector_length). eexists. done.
Qed.

(** ** Runs of sectors *)

Lemma file_sector o i : o `mod` SECTSIZE = 0 -> 0 <= i < 512 -> default 0 (sector (1 + o / SECTSIZE) !! Z.to_nat i) = file (o + i).
Proof.
  intros Ho Hi. unfold file, SECTSIZE in *. pose proof (Z.div_mod o 512 ltac:(lia)).
  assert ((o + i) / 512 = o / 512 /\ (o + i) `mod` 512 = i) as [-> ->]; [|done].
  split; [symmetry; apply (Z.div_unique _ _ _ i)|symmetry; apply (Z.mod_unique _ _ (o / 512))]; lia.
Qed.

Lemma readseg_loop_reads n : forall pa epa o b, 0 <= pa -> epa + SECTSIZE <= 2 ^ 32 -> 0 <= o -> o `mod` SECTSIZE = 0 ->
  o + (epa - pa) + SECTSIZE <= 2 ^ 32 -> epa - pa <= 512 * Z.of_nat n ->
  exists m d, readseg_loop n pa epa (1 + o / SECTSIZE) b = Done tt (mkBoot m d) /\
    (forall x, pa <= x < epa -> ld8 m x = file (o + (x - pa))) /\
    (forall x, x < pa \/ epa + 511 <= x -> ld8 m x = ld8 (b_ram b) x).
Proof.
  unfold SECTSIZE. induction n as [|n IH]; intros pa epa o b Hpa Hepa Ho Hmod Hend Hn; cbn [readseg_loop];
    (destruct (Z.ltb_spec pa epa) as [Hlt|Hge]; cbn [negb]; [|rewrite ret_eq; exists (b_ram b), (b_drive b); split_and!; [by destruct b|lia|done]]); [lia|].
  pose proof (Z.div_mod o 512 ltac:(lia)). destruct (readsect_reads pa (1 + o / 512) b ltac:(lia)) as [d Er]. rewrite bind_eq, Er. cbn [res_bind]. clear Er.
  assert ((o + 512) / 512 = 1 + o / 512 /\ (o + 512) `mod` 512 = 0) as [Ed Em].
  { split; [symmetry; apply (Z.div_unique _ _ _ 0)|symmetry; apply (Z.mod_unique _ _ (1 + o / 512))]; lia. }
  rewrite !u32_small by (unfold SECTSIZE; lia). unfold SECTSIZE. replace (1 + o / 512 + 1) with (1 + (o + 512) / 512) by lia.
  destruct (IH (pa + 512) epa (o + 512) (mkBoot (st (b_ram b) pa (sector (1 + o / 512))) d)) as (m & d' & E & Hin & Hout); [lia..|].
  exists m, d'. split; [exact E|]. cbn [b_ram] in Hout. split; intros x Hx.
  - destruct (decide (pa + 512 <= x)) as [Hc|Hc]; [rewrite Hin by lia; f_equal; lia|].
    rewrite Hout by lia. rewrite ld8_st, sector_length, decide_True by lia. apply file_sector; unfold SECTSIZE; lia.
  - rewrite Hout by lia. rewrite ld8_st_out; [done|]. rewrite sector_length. lia.
Qed.

Lemma readseg_reads pa count off b : 0 <= count -> 0 <= off -> off `mod` SECTSIZE <= pa -> pa + count + SECTSIZE <= 2 ^ 32 -> off + count + SECTSIZE <= 2 ^ 32 ->
  exists m d, readseg pa count off b = Done tt (mkBoot m d) /\
    (forall x, pa <= x < pa + count -> ld8 m x = file (off + (x - pa))) /\
    (forall x, x < pa - off `mod` SECTSIZE \/ pa + count + 511 <= x -> ld8 m x = ld8 (b_ram b) x).
Proof.
  unfold readseg, SECTSIZE. intros Hc Ho Hpa He Hf. pose proof (Z.div_mod off 512 ltac:(lia)). pose proof (Z.mod_pos_bound off 512 ltac:(lia)).
  rewrite !u32_small by lia. set (o := 512 * (off / 512)).
  assert (o / 512 = off / 512 /\ o `mod` 512 = 0) as [Ed Em] by (unfold o; rewrite Z.mul_comm, Z.div_mul, Z.mod_mul; lia).
  replace (off / 512 + 1) with (1 + o / SECTSIZE) by (unfold SECTSIZE; lia).
  pose proof (Z.div_mod (pa + count - (pa - off `mod` 512)) 512 ltac:(lia)). pose proof (Z.mod_pos_bound (pa + count - (pa - off `mod` 512)) 512 ltac:(lia)).
  destruct (readseg_loop_reads (Z.to_nat ((pa + count - (pa - off `mod` 512)) / 512 + 1)) (pa - off `mod` 512) (pa + count) o b) as (m & d & E & Hin & Hout); unfold SECTSIZE; [lia..|].
  exists m, d. split; [exact E|]. split; [|exact Hout]. intros x Hx. rewrite Hin by lia. f_equal. lia.
Qed.

(** ** Headers and segments *)

Lemma file_byte x : 0 <= file x < 256.
Proof.
  unfold file. destruct (sector _ !! _) as [v|] eqn:E; cbn [default]; [|lia].
  exact (proj1 (Forall_lookup _ _) (proj2 (Hsec _)) _ _ E).
Qed.

Lemma file_word_range x : 0 <= file_word x < 2 ^ 32.
Proof.
  unfold file_word. cbn [fmap list_fmap le_val]. pose proof (file_byte x). pose proof (file_byte (x + 1)).
  pose proof (file_byte (x + 2)). pose proof (file_byte (x + 3)). lia.
Qed.

Lemma file_half_range x : 0 <= file_half x < 2 ^ 16.
Proof. unfold file_half. cbn [fmap list_fmap le_val]. pose proof (file_byte x). pose proof (file_byte (x + 1)). lia. Qed.

Lemma scratch_word m x b : scratch m -> b_ram b = m -> 0 <= x -> x + 4 <= 4096 -> bload (ELF_SCRATCH + x) b = Done (file_word x) b.
Proof.
  intros Hs <- H0 Hx. unfold bload. rewrite gets_eq. do 2 f_equal. rewrite u32_small by (unfold ELF_SCRATCH; lia).
  unfold ld32, file_word. cbn [ld fmap list_fmap]. rewrite <-!Z.add_assoc, !Hs by lia. done.
Qed.

(** One segment. *)
Lemma load_segment_loads o b : scratch (b_ram b) -> 0 <= o -> o + 32 <= 4096 -> segment_ok (segment_at o) ->
  exists b', load_segment (ELF_SCRATCH + o) b = Done tt b' /\ loaded (b_ram b') (segment_at o) /\
    forall x, x < seg_start (segment_at o) -> ld8 (b_ram b') x = ld8 (b_ram b) x.
Proof.
  intros Hs Ho Hh (Hlow & Hend & Hoff). unfold segment_at, seg_start, seg_end, loaded in *. assert (ELF_SCRATCH = 0x10000) as HE by done. cbn [s_off s_paddr s_filesz s_memsz] in *.
  pose proof (file_word_range (o + 4)). pose proof (file_word_range (o + 12)). pose proof (file_word_range (o + 16)). pose proof (file_word_range (o + 20)).
  unfold load_segment. rewrite <-!Z.add_assoc, bind_eq, (scratch_word _ (o + 12) b Hs) by (done || lia). cbn [res_bind].
  rewrite bind_eq, (scratch_word _ (o + 16) b Hs) by (done || lia). cbn [res_bind]. rewrite bind_eq, (scratch_word _ (o + 4) b Hs) by (done || lia). cbn [res_bind].
  pose proof (Z.mod_pos_bound (file_word (o + 4)) SECTSIZE ltac:(done)).
  destruct (readseg_reads (file_word (o + 12)) (file_word (o + 16)) (file_word (o + 4)) b) as (m & d & E & Hin & Hout); [lia..|].
  rewrite bind_eq, E. cbn [res_bind]. clear E.
  assert (scratch m) as Hs' by (intros x Hx; rewrite Hout by (unfold ELF_SCRATCH; lia); by apply Hs).
  rewrite bind_eq, (scratch_word _ (o + 20) _ Hs') by (done || lia). cbn [res_bind]. rewrite bind_eq, (scratch_word _ (o + 16) _ Hs') by (done || lia). cbn [res_bind].
  destruct (Z.gtb_spec (file_word (o + 20)) (file_word (o + 16))) as [Hgt|Hle]; cbn [when].
  - unfold stosb, on_bram. rewrite modify_eq. cbn [b_ram b_drive]. eexists. split; [done|]. cbn [b_ram].
    rewrite u32_small by (unfold SECTSIZE in *; lia). change (u8 0) with 0. split; [split|]; intros x Hx.
    + rewrite ld8_st_out by lia. rewrite Hin by lia. f_equal. lia.
    + rewrite ld8_st, length_replicate, decide_True by lia. rewrite lookup_replicate_2 by lia. done.
    + rewrite ld8_st_out by lia. apply Hout. lia.
  - rewrite ret_eq. eexists. split; [done|]. cbn [b_ram]. split; [split|]; intros x Hx; [|lia|apply Hout; lia].
    rewrite Hin by lia. f_equal. lia.
Qed.

Lemma load_segment_idle o b : scratch (b_ram b) -> 0 <= o -> o + 32 <= 4096 -> idle (segment_at o) = true ->
  load_segment (ELF_SCRATCH + o) b = Done tt b.
Proof.
  unfold idle, segment_at. cbn [s_off s_filesz s_memsz]. intros Hs Ho Hh [[Hi0%Z.eqb_eq Hi1%Z.eqb_eq]%andb_prop Hi2%Z.eqb_eq]%andb_prop.
  pose proof (file_word_range (o + 12)). unfold load_segment. rewrite <-!Z.add_assoc. rewrite bind_eq, (scratch_word _ (o + 12) b Hs) by (done || lia). cbn [res_bind].
  rewrite bind_eq, (scratch_word _ (o + 16) b Hs) by (done || lia). cbn [res_bind]. rewrite bind_eq, (scratch_word _ (o + 4) b Hs) by (done || lia). cbn [res_bind].
  rewrite bind_eq. unfold readseg. rewrite Hi0, Hi1, Z.add_0_r, Z.sub_0_r, Z.sub_diag, u32_small by done. change (Z.to_nat (0 / SECTSIZE + 1)) with 1%nat.
  cbn [readseg_loop]. rewrite Z.ltb_irrefl. cbn [negb]. rewrite ret_eq. cbn [res_bind].
  rewrite bind_eq, (scratch_word _ (o + 20) b Hs) by (done || lia). cbn [res_bind]. rewrite bind_eq, (scratch_word _ (o + 16) b Hs) by (done || lia). cbn [res_bind].
  rewrite Hi1, Hi2. done.
Qed.

(** A later segment does not reach an earlier one. *)
Lemma loaded_below m m' s : (forall x, x < seg_end s -> ld8 m' x = ld8 m x) -> loaded m s -> loaded m' s.
Proof. unfold seg_end. intros H [Hf Hz]. split; intros x Hx; rewrite H by lia; auto. Qed.

(** The table of headers, in the order of its entries. *)
Lemma load_segs_loads n : forall o b, scratch (b_ram b) -> 0 <= o -> o + 32 * Z.of_nat n <= 4096 ->
  Forall segment_ok (segments_at n o) -> StronglySorted before (segments_at n o) ->
  exists b', load_segs n (ELF_SCRATCH + o) (ELF_SCRATCH + o + 32 * Z.of_nat n) b = Done tt b' /\ Forall (loaded (b_ram b')) (segments_at n o) /\
    forall x, Forall (fun s => x < seg_start s) (segments_at n o) -> ld8 (b_ram b') x = ld8 (b_ram b) x.
Proof.
  induction n as [|n IH]; intros o b Hs Ho Hn Hok Hord; cbn [load_segs segments_at] in *.
  - rewrite (proj2 (Z.ltb_ge _ _)) by lia. exists b. done.
  - rewrite (proj2 (Z.ltb_lt _ _)) by lia. cbn [negb].
    assert (u32 (ELF_SCRATCH + o + 32) = ELF_SCRATCH + (o + 32)) as -> by (rewrite u32_small; unfold ELF_SCRATCH; lia).
    replace (ELF_SCRATCH + o + 32 * Z.of_nat (S n)) with (ELF_SCRATCH + (o + 32) + 32 * Z.of_nat n) by lia.
    destruct (idle (segment_at o)) eqn:Hidle.
    { rewrite bind_eq, load_segment_idle by (done || lia). cbn [res_bind]. apply IH; done || lia. }
    apply Forall_cons_1 in Hok as [Hk Hok]. apply StronglySorted_inv in Hord as [Hord Hb].
    destruct (load_segment_loads o b Hs ltac:(lia) ltac:(lia) Hk) as (b1 & E & Hl & Hout). rewrite bind_eq, E. cbn [res_bind].
    assert (forall x, x < ELF_SCRATCH + 4096 -> x < seg_start (segment_at o)) as Hlow by (destruct Hk; lia).
    destruct (IH (o + 32) b1) as (b2 & E2 & Hl2 & Hout2); [|lia|lia|done|done|].
    { intros x Hx. rewrite Hout by (apply Hlow; lia). by apply Hs. }
    exists b2. split; [exact E2|]. split.
    + apply Forall_cons_2; [|done]. apply (loaded_below (b_ram b1)); [|done]. intros x Hx. apply Hout2.
      eapply Forall_impl; [|exact Hb]. unfold before. intros t Ht. lia.
    + intros x Hx. apply Forall_cons_1 in Hx as [Hx1 Hx2]. rewrite Hout2 by done. by apply Hout.
Qed.

(** C23. The boot loader reads the first page of the kernel file, which starts at
    sector 1 of the disk.  Without the ELF magic it returns.  Otherwise, if the
    program headers are within that page and every segment that has contents
    starts, rounded down to a sector boundary, above the scratch page and above
    the segments before it, it jumps to the entry point with the bytes of every segment at its
    physical address and the rest of the segment zero. *)
Theorem bootmain_loads b :
  file_word 28 + 32 * file_half 44 <= 4096 ->
  Forall segment_ok (segments_at (Z.to_nat (file_half 44)) (file_word 28)) ->
  StronglySorted before (segments_at (Z.to_nat (file_half 44)) (file_word 28)) ->
  exists b', bootmain b = Done (if file_word 0 =? ELF_MAGIC then Some (file_word 24) else None) b' /\
    (file_word 0 = ELF_MAGIC -> Forall (loaded (b_ram b')) (segments_at (Z.to_nat (file_half 44)) (file_word 28))).
Proof.
  intros Hph Hok Hord. pose proof (file_word_range 28). pose proof (file_half_range 44).
  unfold bootmain. destruct (readseg_reads ELF_SCRATCH 4096 0 b) as (m & d & E & Hin & _); [done..|]. rewrite bind_eq, E. cbn [res_bind]. clear E.
  assert (scratch m) as Hs by (intros x Hx; rewrite Hin by lia; f_equal; lia).
  cbv zeta. change (bload ELF_SCRATCH) with (bload (ELF_SCRATCH + 0)). rewrite bind_eq, (scratch_word _ 0 _ Hs) by (done || lia). cbn [res_bind].
  destruct (Z.eqb_spec (file_word 0) ELF_MAGIC) as [Em|Em]; cbn [negb]; [|by exists (mkBoot m d)].
  rewrite bind_eq, (scratch_word _ 28 _ Hs) by (done || lia). cbn [res_bind]. rewrite bind_eq, gets_eq. cbn [res_bind b_ram].
  assert (le_val (ld m (ELF_SCRATCH + 44) 2) = file_half 44) as ->.
  { unfold file_half. cbn [ld fmap list_fmap]. rewrite <-!Z.add_assoc, !Hs by lia. done. }
  destruct (load_segs_loads (Z.to_nat (file_half 44)) (file_word 28) (mkBoot m d)) as (b' & E & Hl & Hout); [done|lia|lia|done|done|].
  rewrite Z2Nat.id in E by lia. rewrite !(u32_small (ELF_SCRATCH + _)) by (unfold ELF_SCRATCH; lia).
  rewrite u32_small by (unfold ELF_SCRATCH; lia). rewrite bind_eq, E. cbn [res_bind].
  assert (scratch (b_ram b')) as Hs'.
  { intros x Hx. rewrite Hout; [by apply Hs|]. eapply Forall_impl; [|exact Hok]. intros s [? _]. lia. }
  rewrite bind_eq, (scratch_word _ 24 _ Hs') by (done || lia). cbn [res_bind]. exists b'. done.
Qed.

End Boot.

(** ** A small kernel *)

Definition phdr (type off paddr filesz memsz : Z) : list Z :=
  mjoin (le_bytes 4 <$> [type; off; KERNBASE + paddr; paddr; filesz; memsz; 7; 16]).

Definition demo_header : list Z :=
  le_bytes 4 ELF_MAGIC ++ replicate 20 0 ++ le_bytes 4 0x10000C ++ le_bytes 4 52 ++ replicate 12 0 ++ le_bytes 2 3 ++ replicate 6 0 ++
  phdr 1 4096 0x100000 3 10 ++ phdr 1 4612 0x100204 2 2 ++ phdr 0x6474E551 0 0 0 0.

(** The file has a page of headers, then the sectors of the two segments. *)
Definition demo_sector (n : Z) : list Z :=
  resize 512 0 (if n =? 1 then demo_header else if n =? 9 then [1; 2; 3] else if n =? 10 then [0; 0; 0; 0; 4; 5] else []).

Lemma demo_sector_ok n : length (demo_sector n) = 512%nat /\ Forall (fun x => 0 <= x < 256) (demo_sector n).
Proof.
  split; [apply length_resize|]. apply Forall_resize; [lia|]. destruct (n =? 1).
  - apply (bool_decide_unpack _). vm_compute. done.
  - destruct (n =? 9); [|destruct (n =? 10)]; apply (bool_decide_unpack _); vm_compute; done.
Qed.

Definition demo_boot : boot := mkBoot ∅ (mkDrive 0 0 0 0 0 3 []).

Lemma demo_segments : segments_at demo_sector (Z.to_nat (file_half demo_sector 44)) (file_word demo_sector 28) =
  [mkSegment 4096 0x100000 3 10; mkSegment 4612 0x100204 2 2].
Proof. vm_compute. done. Qed.

Lemma bootmain_loads_witness : exists b', bootmain demo_sector (fun n => Z.to_nat n) demo_boot = Done (Some 0x10000C) b' /\
  Forall (loaded demo_sector (b_ram b')) [mkSegment 4096 0x100000 3 10; mkSegment 4612 0x100204 2 2].
Proof.
  assert (file_word demo_sector 0 =? ELF_MAGIC = true) as Em by (vm_compute; done).
  destruct (bootmain_loads demo_sector (fun n => Z.to_nat n) demo_sector_ok demo_boot) as (b' & E & Hl).
  - vm_compute. done.
  - rewrite demo_segments. repeat apply Forall_cons_2; [| |apply Forall_nil_2]; vm_compute; done.
  - rewrite demo_segments. repeat apply SSorted_cons; try apply SSorted_nil; repeat apply Forall_cons_2; try apply Forall_nil_2. vm_compute. done.
  - exists b'. split; [rewrite E, Em; vm_compute; done|]. rewrite demo_segments in Hl. apply Hl. by apply Z.eqb_eq.
Defined.

(** A segment whose offset is not at a sector boundary is loaded from the boundary
    before it, over the end of the segment before: the order of the segments is not
    enough. *)
Definition close_sector (n : Z) : list Z :=
  resize 512 0 (if n =? 1 then take 52 demo_header ++ phdr 1 4096 0x100000 3 3 ++ phdr 1 4612 0x100003 2 2 ++ phdr 0x6474E551 0 0 0 0
                else demo_sector n).

Theorem readseg_overwrites_before :
  match bootmain close_sector (fun _ => 0%nat) demo_boot with
  | Done r b' => r = Some 0x10000C /\ ld (b_ram b') 0x100000 5 = [0; 0; 0; 4; 5] /\ file close_sector <$> [4096; 4097; 4098] = [1; 2; 3]
  | _ => False
  end.
Proof. vm_compute. done. Qed.
