(* ===== verification/Spinlock.v ===== *)
(** * Interrupt nesting and spin locks (spinlock.c, and mycpu/myproc of proc.c)

    [pushcli]/[popcli] count nested requests to keep interrupts off on the
    executing CPU; [acquire] and [release] take and give spin locks.  A lock
    held by another CPU makes [acquire] spin ([Spin]): the model executes the
    code of one CPU, so nothing can release the lock meanwhile.

    The second half gives the two views the other files use: [core], the part
    of the state no lock operation changes, and [holds], the lock bookkeeping a
    routine starts and ends with. *)

From S2P Require Import Prelude Params State.

Section Spinlock.
  Context {F : Type}.

(* x86.h 108-112: cli *)
Definition cli : M (kernel F) unit := on_hw (set_eflags_if false).

(* x86.h 114-118: sti *)
Definition sti : M (kernel F) unit := on_hw (set_eflags_if true).

(** The interrupt bit of the flags register. *)
(* x86.h 94-100: readeflags *)
Definition readeflags : M (kernel F) Z :=
  gets (fun k => if eflags_if (k_hw k) then FL_IF else 0).

(* proc.c 54-70: mycpu *)
Definition mycpu : M (kernel F) nat :=
  fl <- readeflags ;;
  if nz (Z.land fl FL_IF) then panic "mycpu called with interrupts enabled\n" else
  h <- gets k_hw ;;
  o <- for_each (seq 0 (Z.to_nat (ncpu h))) (fun i =>
         c <- get_cpu i ;;
         ret (if apicid c =? lapic_id h then Some i else None)) ;;
  match o with
  | Some i => ret i
  | None => panic "unknown apicid\n"
  end.

(* proc.c 47-50: cpuid *)
Definition cpuid : M (kernel F) Z := c <- mycpu ;; ret (Z.of_nat c).

(* spinlock.c 104-114: pushcli *)
Definition pushcli : M (kernel F) unit :=
  eflags <- readeflags ;;
  cli ;;
  c <- mycpu ;;
  cc <- get_cpu c ;;
  when (ncli cc =? 0) (upd_cpu c (set_intena (Z.land eflags FL_IF))) ;;
  upd_cpu c (fun cc => set_ncli (s32 (ncli cc + 1)) cc).

(* spinlock.c 116-125: popcli *)
Definition popcli : M (kernel F) unit :=
  fl <- readeflags ;;
  if nz (Z.land fl FL_IF) then panic "popcli - interruptible" else
  c <- mycpu ;;
  upd_cpu c (fun cc => set_ncli (s32 (ncli cc - 1)) cc) ;;
  cc <- get_cpu c ;;
  if ncli cc <? 0 then panic "popcli" else
  when ((ncli cc =? 0) && nz (intena cc)) sti.

(* proc.c 74-83: myproc *)
Definition myproc : M (kernel F) (option nat) :=
  pushcli ;;
  c <- mycpu ;;
  cc <- get_cpu c ;;
  popcli ;;
  ret (c_proc cc).

(* spinlock.c 12-18: initlock *)
Definition initlock (lk : lockid) (nm : string) : M (kernel F) unit :=
  put_lock lk (mkSpinlock 0 nm None).

(* spinlock.c 89-97: holding *)
Definition holding (lk : lockid) : M (kernel F) bool :=
  pushcli ;;
  l <- get_lock lk ;;
  c <- mycpu ;;
  popcli ;;
  ret (nz (locked l) && bool_decide (lk_cpu l = Some c)).

(** The atomic exchange on the lock word; the old value is returned. *)
(* x86.h 120-131: xchg *)
Definition xchg_locked (lk : lockid) (v : Z) : M (kernel F) Z :=
  l <- get_lock lk ;;
  put_lock lk (set_locked v l) ;;
  ret (locked l).

(* spinlock.c 24-43: acquire *)
Definition acquire (lk : lockid) : M (kernel F) unit :=
  pushcli ;;
  h <- holding lk ;;
  if (h : bool) then panic "acquire" else
  old <- xchg_locked lk 1 ;;
  if nz old then (fun k => Spin k) else
  c <- mycpu ;;
  l <- get_lock lk ;;
  put_lock lk (set_lk_cpu (Some c) l).

(* spinlock.c 46-68: release *)
Definition release (lk : lockid) : M (kernel F) unit :=
  h <- holding lk ;;
  if negb h then panic "release" else
  l <- get_lock lk ;;
  put_lock lk (set_lk_cpu None l) ;;
  l <- get_lock lk ;;
  put_lock lk (set_locked 0 l) ;;
  popcli.

End Spinlock.

(** ** The executing CPU *)

(** The index [mycpu] finds: the first CPU with the id the local APIC reports. *)
Definition this_cpu (h : hw) : option nat :=
  fst <$> list_find (fun c => apicid c = lapic_id h) (take (Z.to_nat (ncpu h)) (cpus h)).

(** The effect of [pushcli] and [popcli] on the executing CPU. *)
Definition pushed (c : nat) (h : hw) : hw :=
  set_eflags_if false (set_cpus (alter (fun cc =>
    set_ncli (s32 (ncli cc + 1))
      (if ncli cc =? 0 then set_intena (if eflags_if h then FL_IF else 0) cc else cc))
    c (cpus h)) h).

Definition popped (c : nat) (cc : cpu) (h : hw) : hw :=
  set_eflags_if ((ncli cc =? 1) && nz (intena cc))
    (set_cpus (alter (fun cc => set_ncli (s32 (ncli cc - 1)) cc) c (cpus h)) h).

(** ** The part of the state that lock operations do not change *)

Definition cpu_core (c : cpu) : cpu := set_ncli 0 (set_intena 0 c).

Definition hw_core (h : hw) : hw :=
  set_eflags_if false (set_cpus (cpu_core <$> cpus h) h).

Definition core {F} (k : kernel F) : kernel F :=
  set_k_locks ∅ (set_k_hw (hw_core (k_hw k)) k).

(** CPU [c] executes with [n] nested [pushcli] calls, holds exactly the spin
    locks [H], and no other lock is held: the lock bookkeeping of a routine
    that runs alone. *)
Record holds {F} (k : kernel F) (c : nat) (n : Z) (H : list lockid) : Prop := mkHolds {
  h_ncpu : ncpu (k_hw k) <= Z.of_nat (length (cpus (k_hw k)));
  h_cpu : this_cpu (k_hw k) = Some c;
  h_ncli : exists cc, cpus (k_hw k) !! c = Some cc /\ ncli cc = n;
  h_few : 0 <= n < 2 ^ 30;
  h_if : 0 < n -> eflags_if (k_hw k) = false;
  h_held : forall l, l ∈ H -> exists nm, k_locks k !! l = Some (mkSpinlock 1 nm (Some c));
  h_free : forall l, l ∉ H -> locked (default spinlock0 (k_locks k !! l)) = 0
}.

(** [core] commutes with updates of the parts it keeps. *)
Lemma core_set_ms {F} m (k : kernel F) : core (set_k_ms m k) = set_k_ms m (core k).
Proof. done. Qed.

Lemma core_set_ps {F} p (k : kernel F) : core (set_k_ps p k) = set_k_ps p (core k).
Proof. done. Qed.

Lemma core_set_fs {F} f (k : kernel F) : core (set_k_fs f k) = set_k_fs f (core k).
Proof. done. Qed.

Lemma core_set_cons {F} x (k : kernel F) : core (set_k_cons x k) = set_k_cons x (core k).
Proof. done. Qed.

Lemma core_set_slocks {F} f (k : kernel F) : core (set_k_slocks f k) = set_k_slocks f (core k).
Proof. done. Qed.

Create Rewrite HintDb core.

#[export] Hint Rewrite @core_set_ms @core_set_ps @core_set_fs @core_set_cons @core_set_slocks : core.

Lemma core_ms {F} (k k' : kernel F) : core k' = core k -> k_ms k' = k_ms k.
Proof. intros Hc. exact (f_equal k_ms Hc). Qed.

Lemma core_ps {F} (k k' : kernel F) : core k' = core k -> k_ps k' = k_ps k.
Proof. intros Hc. exact (f_equal k_ps Hc). Qed.

Lemma core_fs {F} (k k' : kernel F) : core k' = core k -> k_fs k' = k_fs k.
Proof. intros Hc. exact (f_equal k_fs Hc). Qed.

Lemma core_cons {F} (k k' : kernel F) : core k' = core k -> k_cons k' = k_cons k.
Proof. intros Hc. exact (f_equal k_cons Hc). Qed.

Lemma core_slocks {F} (k k' : kernel F) : core k' = core k -> k_slocks k' = k_slocks k.
Proof. intros Hc. exact (f_equal k_slocks Hc). Qed.

Section SpinlockFacts.
  Context {F : Type}.
  Implicit Types (k : kernel F) (h : hw).

Lemma get_cpu_eq k c cc : cpus (k_hw k) !! c = Some cc -> get_cpu c k = Done cc k.
Proof. intros H. unfold get_cpu. kred. by rewrite H. Qed.

Lemma mycpu_loop (cs : list cpu) (id : Z) k (n j : nat) :
  cpus (k_hw k) = cs -> (j + n <= length cs)%nat ->
  for_each (seq j n) (fun i =>
    c <- get_cpu i ;; ret (if apicid c =? id then Some i else None)) k
  = Done ((fun x => (j + fst x)%nat) <$> list_find (fun c => apicid c = id) (take n (drop j cs))) k.
Proof.
  intros Hcs. revert j. induction n as [|n IH]; intros j Hj; [done|].
  destruct (lookup_lt_is_Some_2 cs j) as [c Hc]; [lia|].
  rewrite (drop_S cs c j Hc). cbn [seq take]. rewrite for_each_cons.
  kred. rewrite (get_cpu_eq _ _ c) by (by rewrite Hcs). kred. simpl.
  destruct (decide (apicid c = id)) as [E|E].
  - rewrite (proj2 (Z.eqb_eq _ _) E). simpl. kred. by rewrite Nat.add_0_r.
  - rewrite (proj2 (Z.eqb_neq _ _) E). rewrite IH by lia. f_equal.
    destruct (list_find _ (take n (drop (S j) cs))) as [[i x]|]; simpl; [|done].
    do 2 f_equal. lia.
Qed.

Lemma mycpu_eq k :
  eflags_if (k_hw k) = false -> ncpu (k_hw k) <= Z.of_nat (length (cpus (k_hw k))) ->
  mycpu k = match this_cpu (k_hw k) with
            | Some c => Done c k
            | None => Panic "unknown apicid\n" k
            end.
Proof.
  intros Hif Hn. unfold mycpu, readeflags. kred. rewrite Hif. simpl. kred.
  rewrite (mycpu_loop (cpus (k_hw k))) by (done || lia). rewrite drop_0. simpl.
  unfold this_cpu. by destruct (list_find _ _) as [[i x]|].
Qed.

Lemma this_cpu_lt h c : this_cpu h = Some c -> is_Some (cpus h !! c).
Proof.
  unfold this_cpu. destruct (list_find _ _) as [[i x]|] eqn:E; [|done].
  intros [= <-]. apply list_find_Some in E as (E & _ & _).
  apply lookup_take_Some in E as [E _]. by exists x.
Qed.

(** The executing CPU is determined by fields no lock operation writes. *)
Lemma this_cpu_fmap h h' :
  ncpu h' = ncpu h -> lapic_id h' = lapic_id h ->
  apicid <$> cpus h' = apicid <$> cpus h -> this_cpu h' = this_cpu h.
Proof.
  intros Hn Hl Ha. unfold this_cpu. rewrite Hn, Hl. clear Hn Hl.
  generalize (Z.to_nat (ncpu h)), (lapic_id h). revert Ha.
  generalize (cpus h'), (cpus h). clear h h'.
  intros l'. induction l' as [|c' l' IH]; intros [|c l] Ha n id; try done.
  simpl in Ha. injection Ha as Hc Hl. destruct n as [|n]; [done|]. simpl.
  rewrite Hc. destruct (decide (apicid c = id)); [done|].
  specialize (IH l Hl n id).
  destruct (list_find _ (take n l')) as [[]|], (list_find _ (take n l)) as [[]|];
    simpl in *; congruence.
Qed.

Lemma apicid_alter (f : cpu -> cpu) c (l : list cpu) :
  (forall x, apicid (f x) = apicid x) -> apicid <$> alter f c l = apicid <$> l.
Proof.
  intros Hf. revert c. induction l as [|x l IH]; intros [|c]; simpl; try done.
  - by rewrite Hf.
  - f_equal. apply IH.
Qed.

Lemma this_cpu_pushed h c : this_cpu (pushed c h) = this_cpu h.
Proof.
  apply this_cpu_fmap; try done. simpl. apply apicid_alter.
  intros x. by destruct (ncli x =? 0).
Qed.

Lemma this_cpu_popped h c cc : this_cpu (popped c cc h) = this_cpu h.
Proof. apply this_cpu_fmap; try done. simpl. by apply apicid_alter. Qed.

Lemma pushcli_eq k c :
  ncpu (k_hw k) <= Z.of_nat (length (cpus (k_hw k))) -> this_cpu (k_hw k) = Some c ->
  pushcli k = Done tt (set_k_hw (pushed c (k_hw k)) k).
Proof.
  intros Hn Hc. destruct (this_cpu_lt _ _ Hc) as [cc Hcc].
  unfold pushcli, readeflags, cli, upd_cpu, on_hw. kred.
  rewrite mycpu_eq by done. rewrite (this_cpu_fmap (k_hw k)), Hc by done. cbn [res_bind].
  kred. rewrite (get_cpu_eq _ _ cc) by done. kred.
  unfold pushed, set_k_hw, set_cpus, set_eflags_if.
  destruct (ncli cc =? 0) eqn:En; cbn [when]; kred; do 2 f_equal; simpl; f_equal;
    rewrite ?alter_alter_eq; apply (alter_ext_at _ _ _ _ cc Hcc); rewrite En; [|done].
  by destruct (eflags_if (k_hw k)).
Qed.

Lemma popcli_eq k c cc :
  eflags_if (k_hw k) = false ->
  ncpu (k_hw k) <= Z.of_nat (length (cpus (k_hw k))) -> this_cpu (k_hw k) = Some c ->
  cpus (k_hw k) !! c = Some cc -> 1 <= ncli cc < 2 ^ 31 ->
  popcli k = Done tt (set_k_hw (popped c cc (k_hw k)) k).
Proof.
  intros Hif Hn Hc Hcc Hb. unfold popcli, readeflags, upd_cpu, on_hw. kred. rewrite Hif.
  change (nz (Z.land 0 FL_IF)) with false. cbn match. kred. rewrite mycpu_eq by done. rewrite Hc. kred.
  erewrite get_cpu_eq by (simpl; rewrite list_lookup_alter_eq, Hcc; done). kred. simpl.
  assert (s32 (ncli cc - 1) = ncli cc - 1) as Hs by (apply s32_small; lia).
  rewrite Hs, (proj2 (Z.ltb_ge _ _)) by lia.
  replace (ncli cc - 1 =? 0) with (ncli cc =? 1) by lia.
  unfold popped, sti, on_hw.
  destruct ((ncli cc =? 1) && nz (intena cc)) eqn:E; cbn [when]; kred; [done|].
  unfold set_k_hw, set_cpus, set_eflags_if. simpl. by rewrite Hif.
Qed.

Lemma core_pushed k c : core (set_k_hw (pushed c (k_hw k)) k) = core k.
Proof.
  unfold core, set_k_locks, set_k_hw, hw_core, set_eflags_if, set_cpus. simpl. do 2 f_equal.
  apply list_eq. intros i. rewrite !list_lookup_fmap. destruct (decide (i = c)) as [->|].
  - rewrite list_lookup_alter_eq. destruct (_ !! c) as [x|]; simpl; [|done].
    by destruct (ncli x =? 0).
  - by rewrite list_lookup_alter_ne.
Qed.

Lemma core_popped k c cc : core (set_k_hw (popped c cc (k_hw k)) k) = core k.
Proof.
  unfold core, set_k_locks, set_k_hw, hw_core, set_eflags_if, set_cpus. simpl. do 2 f_equal.
  apply list_eq. intros i. rewrite !list_lookup_fmap. destruct (decide (i = c)) as [->|].
  - rewrite list_lookup_alter_eq. by destruct (_ !! c) as [x|]; simpl.
  - by rewrite list_lookup_alter_ne.
Qed.

(** The bookkeeping depends on the CPUs and the spin locks only. *)
Lemma holds_ext k k' c n H :
  k_hw k' = k_hw k -> k_locks k' = k_locks k -> holds k c n H -> holds k' c n H.
Proof. intros Eh El [? ? ? ? ? ? ?]. split; rewrite ?Eh, ?El; auto. Qed.

(** The list of held locks is a set. *)
Lemma holds_perm k c n H H' : (forall l, l ∈ H <-> l ∈ H') -> holds k c n H -> holds k c n H'.
Proof.
  intros E [? ? ? ? ? Hh Hf]. split; auto; intros l Hl; [apply Hh|apply Hf]; by rewrite E.
Qed.

Lemma pushcli_holds k c n H :
  holds k c n H -> n < 2 ^ 30 - 1 ->
  runs pushcli k (fun _ k' => holds k' c (n + 1) H /\ core k' = core k /\ k_locks k' = k_locks k).
Proof.
  intros Hk Hn. unfold runs. rewrite (pushcli_eq _ c) by apply Hk.
  split; [|split; [apply core_pushed|done]].
  destruct Hk as [? ? [cc [Hcc Hncli]] ? ? ? ?]. split; simpl; auto; try lia.
  - by rewrite length_alter.
  - by rewrite this_cpu_pushed.
  - eexists. rewrite list_lookup_alter_eq, Hcc. split; [done|]. simpl.
    rewrite Hncli. apply s32_small. lia.
Qed.

Lemma popcli_holds k c n H :
  holds k c (n + 1) H -> 0 <= n ->
  runs popcli k (fun _ k' => holds k' c n H /\ core k' = core k /\ k_locks k' = k_locks k).
Proof.
  intros Hk Hn. pose proof (h_ncli _ _ _ _ Hk) as [cc [Hcc Hncli]].
  pose proof (h_few _ _ _ _ Hk). unfold runs.
  rewrite (popcli_eq _ c cc); try apply Hk; try done; try lia.
  split; [|split; [apply core_popped|done]].
  destruct Hk as [? ? _ ? Hif ? ?]. split; simpl; auto; try lia.
  - by rewrite length_alter.
  - by rewrite this_cpu_popped.
  - eexists. rewrite list_lookup_alter_eq, Hcc. split; [done|]. simpl.
    rewrite s32_small; lia.
Qed.

Lemma mycpu_holds k c n H : holds k c n H -> 0 < n -> mycpu k = Done c k.
Proof.
  intros [Hn Hc _ _ Hif _ _] Hpos. rewrite mycpu_eq by auto. by rewrite Hc.
Qed.

Lemma holding_holds k c n H lk :
  holds k c n H -> n < 2 ^ 30 - 1 ->
  runs (holding lk) k (fun b k' => b = bool_decide (lk ∈ H) /\ holds k' c n H /\
                                   core k' = core k /\ k_locks k' = k_locks k).
Proof.
  intros Hk Hn. pose proof (h_few _ _ _ _ Hk). unfold runs, holding. rewrite bind_eq, wp_bind.
  eapply wp_mono; [|apply (pushcli_holds _ _ _ _ Hk Hn)]. intros _ k1 (Hk1 & Hc1 & Hl1).
  unfold get_lock. kred. rewrite (mycpu_holds _ _ _ _ Hk1) by lia. kred. rewrite wp_bind.
  eapply wp_mono; [|apply (popcli_holds _ _ _ _ Hk1); lia]. intros _ k2 (Hk2 & Hc2 & Hl2).
  kred. simpl. split; [|split; [done|split; congruence]].
  rewrite Hl1. destruct (decide (lk ∈ H)) as [Hin|Hin].
  - destruct (h_held _ _ _ _ Hk lk Hin) as [nm ->]. simpl.
    rewrite (bool_decide_eq_true_2 (lk ∈ H)) by done. by rewrite bool_decide_eq_true_2.
  - rewrite (h_free _ _ _ _ Hk lk Hin). by rewrite (bool_decide_eq_false_2 (lk ∈ H)).
Qed.

Lemma acquire_holds k c n H lk :
  holds k c n H -> lk ∉ H -> n < 2 ^ 30 - 2 ->
  runs (acquire lk) k (fun _ k' => holds k' c (n + 1) (lk :: H) /\ core k' = core k).
Proof.
  intros Hk Hlk Hn. pose proof (h_few _ _ _ _ Hk). unfold runs, acquire. rewrite bind_eq, wp_bind.
  eapply wp_mono; [|apply (pushcli_holds _ _ _ _ Hk); lia]. intros _ k1 (Hk1 & Hc1 & Hl1).
  rewrite bind_eq, wp_bind.
  eapply wp_mono; [|apply (holding_holds _ _ _ _ lk Hk1); lia].
  intros b k2 (-> & Hk2 & Hc2 & Hl2). rewrite bool_decide_eq_false_2 by done.
  unfold xchg_locked, get_lock, put_lock. kred.
  rewrite (h_free _ _ _ _ Hk2 lk Hlk). change (nz 0) with false. cbn match. kred.
  rewrite mycpu_eq by (simpl; apply Hk2; lia). simpl. rewrite (h_cpu _ _ _ _ Hk2). kred.
  simpl. split.
  - destruct Hk2 as [? ? ? ? ? Hheld Hfree]. split; simpl; auto; try lia.
    + intros l [->|Hl]%elem_of_cons.
      * rewrite lookup_insert_eq. eexists. by rewrite lookup_insert_eq.
      * rewrite !lookup_insert_ne by congruence. auto.
    + intros l Hl. apply not_elem_of_cons in Hl as [Hne Hl].
      rewrite !lookup_insert_ne by congruence. auto.
  - transitivity (core k2); [done|]. congruence.
Qed.

Lemma release_holds k c n H lk :
  holds k c (n + 1) (lk :: H) -> lk ∉ H -> 0 <= n < 2 ^ 30 - 2 ->
  runs (release lk) k (fun _ k' => holds k' c n H /\ core k' = core k).
Proof.
  intros Hk Hlk Hn. pose proof (h_few _ _ _ _ Hk). unfold runs, release. rewrite bind_eq, wp_bind.
  eapply wp_mono; [|apply (holding_holds _ _ _ _ lk Hk); lia].
  intros b k1 (-> & Hk1 & Hc1 & Hl1). rewrite bool_decide_eq_true_2 by left. cbn [negb].
  unfold get_lock, put_lock. kred. simpl.
  destruct (h_held _ _ _ _ Hk1 lk) as [nm Hnm]; [left|]. rewrite Hnm. simpl.
  rewrite lookup_insert_eq, insert_insert_eq. simpl.
  match goal with |- wp _ (popcli ?x) _ => set (k2 := x) end.
  assert (holds k2 c (n + 1) H) as Hk2.
  { destruct Hk1 as [? ? ? ? ? Hheld Hfree]. split; simpl; auto; try lia.
    - intros l Hl. rewrite lookup_insert_ne by congruence. apply Hheld. by right.
    - intros l Hl. destruct (decide (l = lk)) as [->|].
      + by rewrite lookup_insert_eq.
      + rewrite lookup_insert_ne by congruence. apply Hfree. set_solver. }
  eapply wp_mono; [|apply (popcli_holds _ _ _ _ Hk2); lia].
  simpl. intros _ k3 (Hk3 & Hc3 & _). split; [done|].
  transitivity (core k2); [done|]. by transitivity (core k1).
Qed.

Lemma acquire_again_panics k c n H lk :
  holds k c n H -> lk ∈ H -> n < 2 ^ 30 - 2 ->
  exists k', acquire lk k = Panic "acquire" k'.
Proof.
  intros Hk Hlk Hn. pose proof (h_few _ _ _ _ Hk). unfold acquire. rewrite bind_eq.
  destruct (proj1 (runs_Done _ _ _) (pushcli_holds _ _ _ _ Hk ltac:(lia))) as
    (? & k1 & -> & Hk1 & _). cbn [res_bind]. rewrite bind_eq.
  destruct (proj1 (runs_Done _ _ _) (holding_holds _ _ _ _ lk Hk1 ltac:(lia))) as
    (? & k2 & -> & -> & _). cbn [res_bind]. rewrite bool_decide_eq_true_2 by done.
  kred. eauto.
Qed.

(** A critical section: [body] runs with the lock held. *)
Lemma locked_holds {A} k c n H lk (body : M (kernel F) A) (Q : A -> kernel F -> Prop) :
  holds k c n H -> lk ∉ H -> n < 2 ^ 30 - 2 ->
  (forall k1, holds k1 c (n + 1) (lk :: H) -> core k1 = core k ->
     runs body k1 (fun a k2 => holds k2 c (n + 1) (lk :: H) /\
        forall k3, holds k3 c n H -> core k3 = core k2 -> Q a k3)) ->
  runs (acquire lk ;; a <- body ;; release lk ;; ret a) k Q.
Proof.
  intros Hk Hlk Hn Hb. pose proof (h_few _ _ _ _ Hk). unfold runs. rewrite bind_eq, wp_bind.
  eapply wp_mono; [|apply (acquire_holds _ _ _ _ lk Hk); [done|lia]].
  intros _ k1 [Hk1 Hc1]. rewrite bind_eq, wp_bind.
  eapply wp_mono; [|apply (Hb _ Hk1 Hc1)]. intros a k2 [Hk2 HQ].
  rewrite bind_eq, wp_bind.
  eapply wp_mono; [|apply (release_holds _ _ _ _ lk Hk2); [done|lia]].
  intros _ k3 [Hk3 Hc3]. apply HQ; done.
Qed.

(** *** Lock operations do not touch [core] *)

Lemma keeps_core_upd_cpu c (f : cpu -> cpu) :
  (forall x, cpu_core (f x) = cpu_core x) -> keeps (@core F) (upd_cpu c f).
Proof.
  intros Hf. apply keeps_modify. intros k.
  unfold core, set_k_locks, set_k_hw, hw_core, set_eflags_if, set_cpus. simpl. do 2 f_equal.
  apply list_eq. intros i. rewrite !list_lookup_fmap. destruct (decide (i = c)) as [->|].
  - rewrite list_lookup_alter_eq. destruct (_ !! c) as [x|]; simpl; [|done]. by rewrite Hf.
  - by rewrite list_lookup_alter_ne.
Qed.

Lemma keeps_core_put_lock l v : keeps (@core F) (put_lock l v).
Proof. by apply keeps_modify. Qed.

Lemma keeps_core_readeflags : keeps (@core F) readeflags.
Proof. apply keeps_gets. Qed.

Lemma keeps_core_get_cpu c : keeps (@core F) (get_cpu c).
Proof. unfold get_cpu. auto with keeps. Qed.

Lemma keeps_core_get_lock l : keeps (@core F) (get_lock l).
Proof. apply keeps_gets. Qed.

Lemma keeps_core_mycpu : keeps (@core F) mycpu.
Proof.
  unfold mycpu. auto 8 using keeps_core_readeflags, keeps_core_get_cpu with keeps.
Qed.

Lemma keeps_core_pushcli : keeps (@core F) pushcli.
Proof.
  unfold pushcli, cli, on_hw.
  repeat (apply keeps_bind; [|intros ?]);
    auto 8 using keeps_core_readeflags, keeps_core_get_cpu, keeps_core_mycpu, keeps_when,
      keeps_core_upd_cpu with keeps.
Qed.

Lemma keeps_core_popcli : keeps (@core F) popcli.
Proof.
  unfold popcli, sti, on_hw.
  repeat (apply keeps_bind; [|intros ?]);
    auto 8 using keeps_core_readeflags, keeps_core_get_cpu, keeps_core_mycpu,
      keeps_core_upd_cpu with keeps.
Qed.

#[local] Hint Resolve keeps_core_put_lock keeps_core_get_lock keeps_core_mycpu
  keeps_core_pushcli keeps_core_popcli keeps_core_get_cpu : keeps.

Lemma keeps_core_holding lk : keeps (@core F) (holding lk).
Proof. unfold holding. auto 9 with keeps. Qed.

#[local] Hint Resolve keeps_core_holding : keeps.

Lemma keeps_core_acquire lk : keeps (@core F) (acquire lk).
Proof. unfold acquire, xchg_locked. auto 12 with keeps. Qed.

Lemma keeps_core_release lk : keeps (@core F) (release lk).
Proof. unfold release. auto 12 with keeps. Qed.

End SpinlockFacts.

#[export] Hint Resolve keeps_core_put_lock keeps_core_get_lock keeps_core_mycpu
  keeps_core_pushcli keeps_core_popcli keeps_core_get_cpu keeps_core_holding
  keeps_core_acquire keeps_core_release : keeps.
