(* ===== verification/Demo.v ===== *)
(** * A small machine

    A one-CPU kernel state in which the concrete instances of the theorems are
    evaluated. *)

From S2P Require Import Prelude Params State Spinlock.

#[export] Instance demo_linker : Linker := {|
  sym_end := 0x80115000;
  sym_data := 0x80108000;
  sym_trapret := 0x801056b6;
  sym_forkret := 0x80103620;
  sym_ts := fun i => 0x80112780 + 176 * Z.of_nat i;
  initcode := [0x68; 0x24; 0; 0; 0; 0xb8; 8; 0; 0; 0; 0xcd; 64]
|}.

#[export] Instance demo_linker_ok : LinkerOk.
Proof. split; simpl; unfold KERNBASE, KERNLINK, KERNBASE, EXTMEM; done || lia. Qed.

Definition cpu0 : cpu := mkCpu 0 [] (mkTs 0 0 0) 1 0 0 None 0 (-1) 0.

Definition hw0 : hw := mkHw [cpu0] 1 0 true 0 0 None false 0xfee00000 ∅ 0 ∅.

Definition proc0 : proc :=
  mkProc 0 0 0 UNUSED 0 None 0 0 None 0 (replicate 16 None) None (replicate 16 0)
    0 0 0 0 0 0 0.

Definition ps0 : pstate := mkPs (replicate 64 proc0) None 0 0 1 0 1.

Definition cons0 : cstate := mkCs 1 0 0 1 [] (replicate 128 0) 0 0 0 0.

Definition kernel0 : kernel unit := mkK hw0 ∅ ∅ ps0 (mkMs ∅ 0 0 0) cons0 tt.

Lemma kernel0_holds : holds kernel0 0 0 [].
Proof.
  split; simpl; try done; try lia.
  - by exists cpu0.
  - intros l Hl. by apply elem_of_nil in Hl.
Qed.

(** Three processes: the one in slot 0 sleeps, slots 1 and 2 are runnable. *)
Definition proc_in (st : procstate) (id prio tickets : Z) : proc :=
  mkProc 4096 0x80120000 0x80121000 st id (Some 0%nat) 0x80121fb4 0x80121f98 None 0
    (replicate 16 None) None (replicate 16 0) id prio 0 0 0 0 tickets.

Definition table3 : list proc :=
  proc_in SLEEPING 1 1 10 :: proc_in RUNNABLE 2 3 10 :: proc_in RUNNABLE 3 2 30 :: replicate 61 proc0.

(** The table with its ticket count, on a CPU with the given policy and last
    choice. *)
Definition kernel3 (alg last : Z) (t : list proc) (total : Z) : kernel unit :=
  mkK (mkHw [mkCpu 0 (replicate 6 (SEG 0 0 0 0)) (mkTs 0 0 0) 1 0 0 None alg last 0] 1 0 true 0 0 None false 0xfee00000 ∅ 0 ∅)
    ∅ ∅ (mkPs t (Some 0%nat) total 7 4 100 0) (mkMs ∅ 1 0 0x80130000) cons0 tt.

(** CPU 0 runs the process in slot 1 with interrupts off. *)
Definition table_running : list proc :=
  proc_in SLEEPING 1 1 10 :: proc_in RUNNING 2 3 10 :: proc_in RUNNABLE 3 2 30 :: replicate 61 proc0.

Definition kernel_running (n : Z) (locks : gmap lockid spinlock) : kernel unit :=
  mkK (mkHw [mkCpu 0 (replicate 6 (SEG 0 0 0 0)) (mkTs 0 0 0) 1 n 0 (Some 1%nat) 0 1 0] 1 0 false 0 0
         None false 0xfee00000 ∅ 0 ∅)
    locks ∅ (mkPs table_running (Some 0%nat) 40 7 4 100 0) (mkMs ∅ 1 0 0x80130000) cons0 tt.

Definition tick_locked : gmap lockid spinlock := {[LKtick := mkSpinlock 1 "time" (Some 0%nat)]}.

Lemma kernel_running_holds : holds (kernel_running 0 ∅) 0 0 [].
Proof.
  split; simpl; try done; try lia.
  - by eexists.
  - intros l Hl. by apply elem_of_nil in Hl.
Qed.

Lemma kernel_running_tick : holds (kernel_running 1 tick_locked) 0 1 [LKtick].
Proof.
  split; simpl; try done; try lia.
  - by eexists.
  - intros l ->%list_elem_of_singleton. exists "time". by vm_compute.
  - intros l Hl. unfold tick_locked. rewrite lookup_singleton_ne; [done|]. set_solver.
Qed.
