(* ===== verification/Seg.v ===== *)
(** * Segments, address spaces and user memory (seginit, switchkvm and
    switchuvm of vm.c; the page walk of the memory management unit)

    The processor translates the addresses the kernel does not access through
    its own linear mapping, those of user memory, through the page directory
    in [cr3].  An access to a page that is not present, or a write to one that
    is not writable, traps inside the kernel, and [trap] panics. *)

From S2P Require Import Prelude Params State Mem Spinlock.

Section Seg.
  Context {F : Type} {LK : Linker}.

(* x86.h 141-145: lcr3 *)
Definition lcr3 (v : Z) : M (kernel F) unit := on_hw (set_cr3 (u32 v)).

(* x86.h 88-92: ltr *)
Definition ltr (sel : Z) : M (kernel F) unit := on_hw (set_tr (u16 sel)).

(** The table is given by the CPU it belongs to; the size is that of the array. *)
(* x86.h 62-72: lgdt *)
Definition lgdt (c : nat) : M (kernel F) unit := on_hw (set_gdtr (Some c)).

(** [gdt[i] = d] *)
Definition put_seg (i : Z) (d : segdesc) (c : cpu) : cpu :=
  set_gdt (<[Z.to_nat i := d]> (gdt c)) c.

(** [gdt[i].s = v] *)
Definition put_seg_s (i v : Z) (c : cpu) : cpu :=
  set_gdt (alter (fun d =>
    mkSegdesc (lim_15_0 d) (base_15_0 d) (base_23_16 d) (sd_type d) v (sd_dpl d) (sd_p d)
      (lim_19_16 d) (avl d) (sd_rsv1 d) (db d) (sd_g d) (base_31_24 d))
    (Z.to_nat i) (gdt c)) c.

(** The size in bytes of the task state segment. *)
(* mmu.h 107-145: taskstate *)
Definition sizeof_ts : Z := 104.

(* vm.c 15-30: seginit *)
Definition seginit : M (kernel F) unit :=
  c <- mycpu ;;
  upd_cpu c (put_seg SEG_KCODE (SEG (Z.lor STA_X STA_R) 0 0xffffffff 0)) ;;
  upd_cpu c (put_seg SEG_KDATA (SEG STA_W 0 0xffffffff 0)) ;;
  upd_cpu c (put_seg SEG_UCODE (SEG (Z.lor STA_X STA_R) 0 0xffffffff DPL_USER)) ;;
  upd_cpu c (put_seg SEG_UDATA (SEG STA_W 0 0xffffffff DPL_USER)) ;;
  lgdt c.

(* vm.c 175-179: switchkvm *)
Definition switchkvm : M (kernel F) unit :=
  k <- gets (fun k => kpgdir (k_ms k)) ;;
  lcr3 (V2P k).

(* vm.c 182-204: switchuvm *)
Definition switchuvm (p : option nat) : M (kernel F) unit :=
  match p with
  | None => panic "switchuvm: no process"
  | Some i =>
      pr <- get_proc i ;;
      if kstack pr =? 0 then panic "switchuvm: no kstack" else
      if pgdir pr =? 0 then panic "switchuvm: no pgdir" else
      pushcli ;;
      c <- mycpu ;;
      upd_cpu c (put_seg SEG_TSS (SEG16 STS_T32A (sym_ts c) (sizeof_ts - 1) 0)) ;;
      upd_cpu c (put_seg_s SEG_TSS 0) ;;
      upd_cpu c (fun cc => set_ts (mkTs (esp0 (ts cc)) (SEG_KDATA * 8) (iomb (ts cc))) cc) ;;
      upd_cpu c (fun cc => set_ts (mkTs (u32 (kstack pr + KSTACKSIZE)) (ss0 (ts cc)) (iomb (ts cc))) cc) ;;
      upd_cpu c (fun cc => set_ts (mkTs (esp0 (ts cc)) (ss0 (ts cc)) 0xFFFF) cc) ;;
      ltr (SEG_TSS * 8) ;;
      lcr3 (V2P (pgdir pr)) ;;
      popcli
  end.

(** ** Access to user memory *)

End Seg.

(** The page walk: the entry for [va] in the page table rooted at physical
    address [root]; [None] when the directory entry is not present. *)
Definition pte_of (m : gmap Z Z) (root va : Z) : option Z :=
  let pde := ld32 m (u32 (PTE_ADDR root + 4 * PDX va)) in
  if nz (Z.land pde PTE_P) then Some (ld32 m (PTE_ADDR pde + 4 * PTX va)) else None.

(** The physical address of a supervisor-mode access; writes need a writable
    page (CR0_WP is set in entry.S). *)
Definition translate (m : gmap Z Z) (root va : Z) (write : bool) : option Z :=
  match pte_of m root va with
  | Some pte =>
      if nz (Z.land pte PTE_P) && (negb write || nz (Z.land pte PTE_W))
      then Some (PTE_ADDR pte + va `mod` PGSIZE)
      else None
  | None => None
  end.

Section UserMemory.
  Context {F : Type}.

(** A page fault in the kernel ends in the default case of [trap]. *)
Definition fault {A} : M (kernel F) A := panic "trap".

Definition phys (va : Z) (write : bool) : M (kernel F) Z :=
  k <- gets (fun k => k) ;;
  match translate (ram (k_ms k)) (cr3 (k_hw k)) (u32 va) write with
  | Some pa => ret pa
  | None => fault
  end.

Definition uload8 (va : Z) : M (kernel F) Z :=
  pa <- phys va false ;;
  gets (fun k => ld8 (ram (k_ms k)) pa).

Definition ustore8 (va b : Z) : M (kernel F) unit :=
  pa <- phys va true ;;
  on_ms (fun m => set_ram (<[pa := u8 b]> (ram m)) m).

Fixpoint uload (va : Z) (n : nat) : M (kernel F) (list Z) :=
  match n with
  | O => ret []
  | S n' => b <- uload8 va ;; bs <- uload (va + 1) n' ;; ret (b :: bs)
  end.

Fixpoint ustore (va : Z) (bs : list Z) : M (kernel F) unit :=
  match bs with
  | [] => ret tt
  | b :: bs' => ustore8 va b ;; ustore (va + 1) bs'
  end.

Definition uload32 (va : Z) : M (kernel F) Z := bs <- uload va 4 ;; ret (le_val bs).

Definition ustore32 (va v : Z) : M (kernel F) unit := ustore va (le_bytes 4 v).

End UserMemory.
