(* ===== verification/Str.v ===== *)
(** * Memory and string routines (string.c)

    The [mem*] routines work on byte-addressed memory; the [str*] routines on
    character arrays, given as the list of characters from the pointer to the
    end of the array. *)

From S2P Require Import Prelude Params State Mem.

(* x86.h 42-49: stosb *)
Definition stosb (m : gmap Z Z) (addr data : Z) (cnt : nat) : gmap Z Z :=
  st m addr (replicate cnt (u8 data)).

(* x86.h 51-58: stosl *)
Fixpoint stosl (m : gmap Z Z) (addr data : Z) (cnt : nat) : gmap Z Z :=
  match cnt with
  | O => m
  | S n => stosl (st32 m addr data) (addr + 4) data n
  end.

(* string.c 4-13: memset *)
Definition memset (m : gmap Z Z) (dst c n : Z) : gmap Z Z :=
  if (Z.rem dst 4 =? 0) && (n `mod` 4 =? 0) then
    let c := Z.land c 0xFF in
    stosl m dst (Z.lor (Z.lor (Z.lor (Z.shiftl c 24) (Z.shiftl c 16)) (Z.shiftl c 8)) c)
      (Z.to_nat (n / 4))
  else stosb m dst c (Z.to_nat n).

(* string.c 15-29: memcmp *)
Fixpoint memcmp (m : gmap Z Z) (s1 s2 : Z) (n : nat) : Z :=
  match n with
  | O => 0
  | S n' =>
      if negb (ld8 m s1 =? ld8 m s2) then ld8 m s1 - ld8 m s2
      else memcmp m (s1 + 1) (s2 + 1) n'
  end.

(** The two copy loops of [memmove]; [d] and [s] are the moving pointers. *)
(* string.c 42-43: memmove *)
Fixpoint copy_down (m : gmap Z Z) (d s : Z) (n : nat) : gmap Z Z :=
  match n with
  | O => m
  | S n' => copy_down (<[d - 1 := ld8 m (s - 1)]> m) (d - 1) (s - 1) n'
  end.

(* string.c 45-46: memmove *)
Fixpoint copy_up (m : gmap Z Z) (d s : Z) (n : nat) : gmap Z Z :=
  match n with
  | O => m
  | S n' => copy_up (<[d := ld8 m s]> m) (d + 1) (s + 1) n'
  end.

(* string.c 31-49: memmove *)
Definition memmove (m : gmap Z Z) (dst src n : Z) : gmap Z Z :=
  if (src <? dst) && (src + n >? dst) then copy_down m (dst + n) (src + n) (Z.to_nat n)
  else copy_up m dst src (Z.to_nat n).

(* string.c 52-56: memcpy *)
Definition memcpy (m : gmap Z Z) (dst src n : Z) : gmap Z Z := memmove m dst src n.

(** The character a pointer refers to; reading past the array is not
    meaningful, and yields 0 here. *)
Definition chr (p : list Z) : Z := hd 0 p.

(* string.c 58-66: strncmp *)
Fixpoint strncmp (p q : list Z) (n : nat) : Z :=
  match n with
  | O => 0
  | S n' =>
      if nz (chr p) && (chr p =? chr q) then strncmp (tail p) (tail q) n'
      else u8 (chr p) - u8 (chr q)
  end.

(* string.c 76-77: strncpy *)
Fixpoint zero_fill (n : nat) (s : list Z) : list Z :=
  match n, s with
  | S n', _ :: s' => 0 :: zero_fill n' s'
  | _, _ => s
  end.

(** The contents of the array at [s] after the call. *)
(* string.c 68-79: strncpy *)
Fixpoint strncpy (s t : list Z) (n : nat) : list Z :=
  match n, s with
  | S n', _ :: s' =>
      chr t :: (if nz (chr t) then strncpy s' (tail t) n' else zero_fill n' s')
  | _, _ => s
  end.

Definition put_nul (s : list Z) : list Z :=
  match s with
  | [] => []
  | _ :: s' => 0 :: s'
  end.

(* string.c 90-92: safestrcpy *)
Fixpoint safestrcpy_loop (n : nat) (s t : list Z) : list Z :=
  match n, s with
  | S n', _ :: s' => chr t :: (if nz (chr t) then safestrcpy_loop n' s' (tail t) else put_nul s')
  | _, _ => put_nul s
  end.

(* string.c 82-94: safestrcpy *)
Definition safestrcpy (s t : list Z) (n : Z) : list Z :=
  if n <=? 0 then s else safestrcpy_loop (Z.to_nat (n - 1)) s t.

(* string.c 96-104: strlen *)
Fixpoint strlen (s : list Z) : Z :=
  match s with
  | [] => 0
  | c :: s' => if nz c then 1 + strlen s' else 0
  end.

(** ** Correctness *)

Lemma ld8_stosb m a c n x :
  ld8 (stosb m a c n) x = if decide (a <= x < a + Z.of_nat n) then u8 c else ld8 m x.
Proof.
  unfold stosb. rewrite ld8_st, length_replicate. case_decide; [|done].
  by rewrite lookup_replicate_2 by lia.
Qed.

(** The four bytes of the word [memset] stores. *)
Lemma memset_word c :
  0 <= c < 256 ->
  le_bytes 4 (Z.lor (Z.lor (Z.lor (Z.shiftl c 24) (Z.shiftl c 16)) (Z.shiftl c 8)) c)
  = [c; c; c; c].
Proof.
  intros Hc. rewrite !Z.shiftl_mul_pow2 by lia.
  replace (c * 2 ^ 24) with (c * 2 ^ 8 * 2 ^ 16) by lia.
  rewrite (lor_disjoint (c * 2 ^ 8 * 2 ^ 16)).
  2:{ replace (c * 2 ^ 16) with (c * 2 ^ 16 * 1) by lia.
      replace (c * 2 ^ 8 * 2 ^ 16) with (c * 2 ^ 24) by lia.
      rewrite Z.mul_1_r. apply land_high_low; lia. }
  replace (c * 2 ^ 8 * 2 ^ 16 + c * 2 ^ 16) with ((c * 2 ^ 8 + c) * 2 ^ 16) by lia.
  rewrite (lor_disjoint _ (c * 2 ^ 8)) by (apply land_high_low; lia).
  replace ((c * 2 ^ 8 + c) * 2 ^ 16 + c * 2 ^ 8) with (((c * 2 ^ 8 + c) * 2 ^ 8 + c) * 2 ^ 8) by lia.
  rewrite lor_disjoint by (apply land_high_low; lia).
  set (w := ((c * 2 ^ 8 + c) * 2 ^ 8 + c) * 2 ^ 8 + c).
  replace w with (le_val [c; c; c; c]) by (unfold w; simpl; lia).
  apply (le_bytes_val [c; c; c; c]). repeat constructor; lia.
Qed.

Lemma ld8_stosl m a w c n x :
  le_bytes 4 w = [c; c; c; c] ->
  ld8 (stosl m a w n) x = if decide (a <= x < a + 4 * Z.of_nat n) then c else ld8 m x.
Proof.
  intros Hw. revert m a. induction n as [|n IH]; intros m a; cbn [stosl].
  - by rewrite decide_False by lia.
  - rewrite IH. destruct (decide (a + 4 <= x < a + 4 + 4 * Z.of_nat n)).
    + by rewrite decide_True by lia.
    + unfold st32. rewrite Hw, ld8_st. simpl length.
      destruct (decide (a <= x < a + 4 * Z.of_nat (S n))).
      * rewrite decide_True by lia.
        assert (Z.to_nat (x - a) = 0 \/ Z.to_nat (x - a) = 1 \/ Z.to_nat (x - a) = 2 \/
                Z.to_nat (x - a) = 3)%nat as [-> | [-> | [-> | ->]]] by lia; done.
      * by rewrite decide_False by lia.
Qed.

Lemma ld8_memset m dst c n x :
  0 <= n ->
  ld8 (memset m dst c n) x = if decide (dst <= x < dst + n) then u8 c else ld8 m x.
Proof.
  intros Hn. unfold memset. destruct ((Z.rem dst 4 =? 0) && (n `mod` 4 =? 0)) eqn:E.
  - apply andb_prop in E as [_ E]. apply Z.eqb_eq in E.
    assert (Z.land c 0xFF = u8 c) as Hc
      by (change 0xFF with (Z.ones 8); by rewrite Z.land_ones by lia).
    rewrite Hc, (ld8_stosl _ _ _ (u8 c)) by (apply memset_word, Z.mod_pos_bound; lia).
    pose proof (Z.div_mod n 4). pose proof (Z.div_pos n 4).
    repeat case_decide; try done; lia.
  - rewrite ld8_stosb. repeat case_decide; try done; lia.
Qed.

Lemma ld8_copy_up m d s n x :
  d <= s \/ s + Z.of_nat n <= d ->
  ld8 (copy_up m d s n) x =
  if decide (d <= x < d + Z.of_nat n) then ld8 m (s + (x - d)) else ld8 m x.
Proof.
  revert m d s. induction n as [|n IH]; intros m d s H; cbn [copy_up].
  - by rewrite decide_False by lia.
  - rewrite IH, !ld8_insert by lia. destruct (decide (d + 1 <= x < d + 1 + Z.of_nat n)).
    + rewrite decide_False, decide_True by lia. f_equal. lia.
    + destruct (decide (x = d)) as [->|].
      * rewrite decide_True by lia. f_equal. lia.
      * by rewrite decide_False by lia.
Qed.

Lemma ld8_copy_down m d s n x :
  s <= d ->
  ld8 (copy_down m d s n) x =
  if decide (d - Z.of_nat n <= x < d) then ld8 m (s + (x - d)) else ld8 m x.
Proof.
  revert m d s. induction n as [|n IH]; intros m d s H; cbn [copy_down].
  - by rewrite decide_False by lia.
  - rewrite IH, !ld8_insert by lia. destruct (decide (d - 1 - Z.of_nat n <= x < d - 1)).
    + rewrite decide_False, decide_True by lia. f_equal. lia.
    + destruct (decide (x = d - 1)) as [->|].
      * rewrite decide_True by lia. f_equal. lia.
      * by rewrite decide_False by lia.
Qed.

Lemma ld8_memmove m dst src n x :
  0 <= n ->
  ld8 (memmove m dst src n) x =
  if decide (dst <= x < dst + n) then ld8 m (src + (x - dst)) else ld8 m x.
Proof.
  intros Hn. unfold memmove. destruct ((src <? dst) && (src + n >? dst)) eqn:E.
  - rewrite ld8_copy_down by lia. repeat case_decide; try lia; f_equal; lia.
  - rewrite ld8_copy_up by lia. repeat case_decide; try lia; f_equal; lia.
Qed.

(** The string in the first [n] characters of an array: up to a NUL. *)
Fixpoint cstr (n : nat) (p : list Z) : list Z :=
  match n with
  | O => []
  | S n' => if nz (chr p) then chr p :: cstr n' (tail p) else []
  end.

Lemma chr_cons c p : chr (c :: p) = c.
Proof. done. Qed.

Lemma nz_true z : nz z = true <-> z <> 0.
Proof. unfold nz. lia. Qed.

Lemma nz_false z : nz z = false <-> z = 0.
Proof. unfold nz. lia. Qed.

Lemma strncmp_cstr n p q :
  Forall (fun b => 0 <= b < 256) p -> Forall (fun b => 0 <= b < 256) q ->
  (strncmp p q n = 0 <-> cstr n p = cstr n q).
Proof.
  assert (forall l, Forall (fun b => 0 <= b < 256) l ->
    0 <= chr l < 256 /\ Forall (fun b => 0 <= b < 256) (tail l)) as Hl.
  { intros [|b l] H; [by split|]. inversion H; subst. done. }
  revert p q. induction n as [|n IH]; intros p q Hp Hq; cbn [strncmp cstr]; [done|].
  destruct (Hl p Hp) as [Hp0 Hp1], (Hl q Hq) as [Hq0 Hq1].
  assert (u8 (chr p) = chr p /\ u8 (chr q) = chr q) as [-> ->]
    by (split; apply Z.mod_small; done).
  destruct (nz (chr p)) eqn:Ep; simpl.
  - destruct (chr p =? chr q) eqn:E.
    + apply Z.eqb_eq in E. rewrite E in Ep. rewrite Ep, IH, E by done.
      split; intros H; [by rewrite H|by injection H].
    + apply Z.eqb_neq in E. split; intros H; [lia|].
      destruct (nz (chr q)); [injection H; lia|done].
  - apply nz_false in Ep. destruct (nz (chr q)) eqn:Eq; split; intros H; try done.
    + apply nz_true in Eq. lia.
    + apply nz_false in Eq. lia.
Qed.

Lemma length_zero_fill n s : length (zero_fill n s) = length s.
Proof. revert s. induction n; intros [|x s]; simpl; auto. Qed.

Lemma length_strncpy n s t : length (strncpy s t n) = length s.
Proof.
  revert s t. induction n as [|n IH]; intros [|x s] t; simpl; auto.
  f_equal. destruct (nz (chr t)); auto using length_zero_fill.
Qed.

Lemma cstr_zero_fill n s : (n <= length s)%nat -> cstr n (zero_fill n s) = [].
Proof. destruct n, s; simpl; try done; lia. Qed.

Lemma cstr_strncpy n s t : (n <= length s)%nat -> cstr n (strncpy s t n) = cstr n t.
Proof.
  revert s t. induction n as [|n IH]; intros [|x s] t H; simpl in H; try lia; try done.
  cbn [strncpy cstr]. destruct (nz (chr t)) eqn:E.
  - rewrite chr_cons, E. cbn [tail]. f_equal. apply IH. lia.
  - by rewrite chr_cons, E.
Qed.

Lemma strncpy_bytes n s t :
  Forall (fun b => 0 <= b < 256) s -> Forall (fun b => 0 <= b < 256) t ->
  Forall (fun b => 0 <= b < 256) (strncpy s t n).
Proof.
  assert (forall n s, Forall (fun b => 0 <= b < 256) s ->
    Forall (fun b => 0 <= b < 256) (zero_fill n s)) as Hz.
  { intros m. induction m as [|m IH]; intros [|x l] H; simpl; try done.
    inversion H; subst. constructor; [lia|auto]. }
  revert s t. induction n as [|n IH]; intros [|x s] t Hs Ht; simpl; try done.
  inversion Hs; subst. constructor.
  - destruct t; simpl; [lia|]. by inversion Ht.
  - destruct (nz (chr t)); [|auto]. apply IH; [done|]. destruct t; simpl; [done|].
    by inversion Ht.
Qed.

Lemma strlen_take_nonzero t k :
  Z.of_nat k <= strlen t -> Forall (fun c => c <> 0) (take k t).
Proof.
  revert t. induction k as [|k IH]; intros [|c t] H; simpl in *; try constructor; try lia.
  - destruct (nz c) eqn:E; [by apply nz_true|lia].
  - apply IH. destruct (nz c); lia.
Qed.

Lemma safestrcpy_loop_spec n s t :
  (n < length s)%nat ->
  let k := Nat.min n (Z.to_nat (strlen t)) in
  take (S k) (safestrcpy_loop n s t) = take k t ++ [0] /\
  drop (S n) (safestrcpy_loop n s t) = drop (S n) s /\
  length (safestrcpy_loop n s t) = length s.
Proof.
  assert (0 <= strlen t) as Hnn.
  { clear. induction t as [|c t IH]; simpl; [lia|]. destruct (nz c); lia. }
  revert s t Hnn. induction n as [|n IH]; intros [|x s] t Hnn Hs; simpl in Hs; try lia.
  - done.
  - cbn [safestrcpy_loop]. destruct t as [|c t].
    + cbn. destruct s as [|y s]; simpl in *; [lia|done].
    + cbn [chr hd tail strlen] in *. destruct (nz c) eqn:E.
      * destruct (IH s t) as (H1 & H2 & H3); [|lia|].
        { clear. induction t as [|d t IH]; simpl; [lia|]. destruct (nz d); lia. }
        assert (0 <= strlen t) by (clear; induction t as [|d t IH]; simpl; [lia|]; destruct (nz d); lia).
        replace (Nat.min (S n) (Z.to_nat (1 + strlen t)))
          with (S (Nat.min n (Z.to_nat (strlen t)))) by lia.
        cbn [take drop app length]. rewrite H1, H2, H3. done.
      * apply nz_false in E as ->. simpl.
        destruct s as [|y s]; simpl in *; [lia|]. done.
Qed.

(** [memmove] copies [n] bytes from [src] to [dst] as they were before the
    call, also when the two regions overlap in either direction, and changes
    no byte outside the destination. *)
Theorem memmove_copies (m : gmap Z Z) (dst src n : Z) (Hn : 0 <= n) :
  ld (memmove m dst src n) dst (Z.to_nat n) = ld m src (Z.to_nat n) /\
  forall x, ~ (dst <= x < dst + n) -> ld8 (memmove m dst src n) x = ld8 m x.
Proof.
  split.
  - apply list_eq. intros i. destruct (decide (i < Z.to_nat n)%nat).
    + rewrite !lookup_ld by done. rewrite ld8_memmove, decide_True by lia. do 2 f_equal. lia.
    + rewrite !lookup_ge_None_2 by (rewrite length_ld; lia). done.
  - intros x Hx. rewrite ld8_memmove by done. by rewrite decide_False.
Qed.

Definition mem_abc : gmap Z Z := st ∅ 100 [1; 2; 3; 4; 5].

Lemma memmove_copies_witness :
  0 <= 4 /\ ld (memmove mem_abc 101 100 4) 101 4 = [1; 2; 3; 4].
Proof.
  split; [lia|]. etransitivity; [exact (proj1 (memmove_copies mem_abc 101 100 4 ltac:(lia)))|].
  vm_compute. reflexivity.
Defined.

(** [memset] sets exactly the [n] bytes at [dst] to the low byte of [c],
    on both its word-store and its byte-store path. *)
Theorem memset_fills (m : gmap Z Z) (dst c n x : Z) (Hn : 0 <= n) :
  ld8 (memset m dst c n) x = if decide (dst <= x < dst + n) then u8 c else ld8 m x.
Proof. by apply ld8_memset. Qed.

Lemma memset_fills_witness :
  ld8 (memset mem_abc 100 257 3) 102 = 1 /\ ld8 (memset mem_abc 100 257 3) 103 = 4.
Proof.
  split; (etransitivity; [apply (memset_fills mem_abc 100 257 3 _ ltac:(lia))|]);
    vm_compute; reflexivity.
Defined.

(** [safestrcpy] into an array of at least [n > 0] characters writes the
    first [min (n - 1) (strlen t)] characters of [t] followed by a NUL, and
    nothing at or beyond index [n]. *)
Theorem safestrcpy_terminates (s t : list Z) (n : Z)
    (Hn : 0 < n) (Hs : n <= Z.of_nat (length s)) :
  let k := Nat.min (Z.to_nat (n - 1)) (Z.to_nat (strlen t)) in
  take (S k) (safestrcpy s t n) = take k t ++ [0] /\
  drop (Z.to_nat n) (safestrcpy s t n) = drop (Z.to_nat n) s /\
  length (safestrcpy s t n) = length s.
Proof.
  unfold safestrcpy. rewrite (proj2 (Z.leb_gt _ _)) by lia.
  destruct (safestrcpy_loop_spec (Z.to_nat (n - 1)) s t) as (H1 & H2 & H3); [lia|].
  split; [done|]. split; [|done]. replace (Z.to_nat n) with (S (Z.to_nat (n - 1))) by lia. done.
Qed.

Lemma safestrcpy_terminates_witness :
  take 3 (safestrcpy [9; 9; 9; 9] [65; 66; 67; 68; 0] 3) = [65; 66; 0].
Proof.
  destruct (safestrcpy_terminates [9; 9; 9; 9] [65; 66; 67; 68; 0] 3 ltac:(lia)
    ltac:(vm_compute; discriminate)) as (H & _).
  exact H.
Defined.

(** A name stored in a directory entry with [strncpy] compares equal, by
    [strncmp] over the same width, to exactly the names with the same
    characters up to the first NUL or the width. *)
Theorem strncmp_strncpy (s t q : list Z) (n : nat)
    (Hs : Forall (fun b => 0 <= b < 256) s) (Ht : Forall (fun b => 0 <= b < 256) t)
    (Hq : Forall (fun b => 0 <= b < 256) q) (Hn : (n <= length s)%nat) :
  strncmp q (strncpy s t n) n = 0 <-> cstr n q = cstr n t.
Proof.
  rewrite strncmp_cstr by (try done; by apply strncpy_bytes). by rewrite cstr_strncpy.
Qed.

Lemma strncmp_strncpy_witness :
  strncmp [97; 0; 5] (strncpy [7; 7; 7] [97; 0] 3) 3 = 0.
Proof.
  apply (strncmp_strncpy [7; 7; 7] [97; 0] [97; 0; 5] 3);
    [repeat constructor; lia|repeat constructor; lia|repeat constructor; lia|simpl; lia|reflexivity].
Defined.

#[global] Arguments memset : simpl never.
#[global] Arguments memmove : simpl never.
#[global] Arguments stosl : simpl never.
#[global] Arguments stosb : simpl never.
