(* ===== verification/Cprintf.v ===== *)
(** * Console output (console.c and uart.c)

    Characters go to the serial line and to the CGA screen: [cgaputc] keeps the
    cursor in the device's register and the characters in the screen memory at
    physical address 0xb8000, scrolling when the last line is reached. *)

From S2P Require Import Prelude Params State Mem Spinlock Str Demo.

(** ** Conversion of integers *)

(* console.c 30-30: digits *)
Definition digits (d : Z) : Z := if d <? 10 then 48 + d else 87 + d.

(** The [do ... while((x /= base) != 0)] loop; [fuel] is the length of [buf]. *)
(* console.c 40-43: printint *)
Fixpoint int_digits (fuel : nat) (x base : Z) : list Z :=
  match fuel with
  | O => []
  | S n => digits (x `mod` base) :: (if x / base =? 0 then [] else int_digits n (x / base) base)
  end.

(** The contents of [buf] when the digits are complete. *)
(* console.c 35-46: printint *)
Definition int_buf (xx base : Z) (sign : bool) : list Z :=
  let sign := sign && (xx <? 0) in
  let x := if sign then u32 (- xx) else u32 xx in
  int_digits 15 x base ++ (if sign then [45] else []).

(* console.c 133-133: BACKSPACE *)
Definition BACKSPACE : Z := 0x100.

(** Physical address of the screen memory. *)
(* console.c 135-135: crt *)
Definition crt : Z := 0xb8000.

(** Arguments of a format: an integer or a string. *)
Inductive carg : Type :=
| CInt (v : Z)
| CStr (s : option (list Z)).

Section Cprintf.
  Context {F : Type}.

(** The wait for the transmitter is bounded and has no effect; a byte written is
    sent. *)
(* uart.c 51-61: uartputc *)
Definition uartputc (c : Z) : M (kernel F) unit :=
  u <- gets (fun k => uart (k_cons k)) ;;
  when (nz u) (on_cons (fun cs => set_uart_out (uart_out cs ++ [u8 c]) cs)).

(** [crt[pos] = v] *)
Definition put_crt (pos v : Z) : M (kernel F) unit :=
  on_ms (fun m => set_ram (st (ram m) (crt + 2 * pos) (le_bytes 2 v)) m).

(* console.c 137-169: cgaputc *)
Definition cgaputc (c : Z) : M (kernel F) unit :=
  pos <- gets (fun k => cursor (k_cons k)) ;;
  pos <- (if c =? 10 then ret (pos + (80 - Z.rem pos 80))
          else if c =? BACKSPACE then ret (if pos >? 0 then pos - 1 else pos)
          else put_crt pos (Z.lor (Z.land c 0xff) 0x0700) ;; ret (pos + 1)) ;;
  if (pos <? 0) || (pos >? 25 * 80) then panic "pos under/overflow" else
  pos <- (if Z.quot pos 80 >=? 24 then
            on_ms (fun m => set_ram (memmove (ram m) crt (crt + 160) (2 * 23 * 80)) m) ;;
            on_ms (fun m => set_ram (memset (ram m) (crt + 2 * (pos - 80)) 0
                                       (2 * (24 * 80 - (pos - 80)))) m) ;;
            ret (pos - 80)
          else ret pos) ;;
  on_cons (set_cursor (u16 pos)) ;;
  put_crt pos (Z.lor 32 0x0700).

(* console.c 171-185: consputc *)
Definition consputc (c : Z) : M (kernel F) unit :=
  p <- gets (fun k => panicked (k_cons k)) ;;
  if nz p then cli ;; (fun k => Spin k) else
  (if c =? BACKSPACE then uartputc 8 ;; uartputc 32 ;; uartputc 8 else uartputc c) ;;
  cgaputc c.

(* console.c 27-50: printint *)
Definition printint (xx base : Z) (sign : bool) : M (kernel F) unit :=
  for_all (rev (int_buf xx base sign)) consputc.

(** The formatting loop; a missing argument would be read from the stack. *)
(* console.c 69-106: cprintf *)
Fixpoint format (fmt : list Z) (args : list carg) : M (kernel F) unit :=
  match fmt with
  | [] => ret tt
  | 0 :: _ => ret tt
  | 37 :: c :: fmt' =>
      if c =? 0 then ret tt else
      if c =? 100 then
        match args with
        | CInt v :: a => printint v 10 true ;; format fmt' a
        | _ => undef "cprintf"
        end
      else if (c =? 120) || (c =? 112) then
        match args with
        | CInt v :: a => printint v 16 false ;; format fmt' a
        | _ => undef "cprintf"
        end
      else if c =? 99 then
        match args with
        | CInt v :: a => consputc (if u8 v =? 0 then 48 else u8 v) ;; format fmt' a
        | _ => undef "cprintf"
        end
      else if c =? 115 then
        match args with
        | CStr s :: a => for_all (default (bytes_of "(null)") s) consputc ;; format fmt' a
        | _ => undef "cprintf"
        end
      else if c =? 37 then consputc 37 ;; format fmt' args
      else consputc 37 ;; consputc c ;; format fmt' args
  | 37 :: [] => ret tt
  | c :: fmt' => consputc c ;; format fmt' args
  end.

(* console.c 54-110: cprintf *)
Definition cprintf (fmt : string) (args : list carg) : M (kernel F) unit :=
  locking <- gets (fun k => cons_locking (k_cons k)) ;;
  when (nz locking) (acquire LKcons) ;;
  format (bytes_of fmt) args ;;
  when (nz locking) (release LKcons).

End Cprintf.

(** ** What printing changes *)

(** The number a sequence of digits stands for, least significant first. *)
Definition digit_val (c : Z) : Z := if c <? 58 then c - 48 else c - 87.

Definition undigits (base : Z) (l : list Z) : Z :=
  foldr (fun c acc => digit_val c + base * acc) 0 l.

(** Reading a decimal numeral, most significant digit first, with its sign. *)
Definition numeral (out : list Z) : Z :=
  match out with
  | 45 :: ds => - undigits 10 (rev ds)
  | ds => undigits 10 (rev ds)
  end.

Section CprintfFacts.
  Context {F : Type}.
  Implicit Types (k : kernel F).

(** The console works: no CPU has panicked, the serial line is there and the
    cursor is on the first 24 lines. *)
Definition console_ok (k : kernel F) : Prop :=
  panicked (k_cons k) = 0 /\ uart (k_cons k) = 1 /\ 0 <= cursor (k_cons k) < 24 * 80.

(** Nothing but the screen, the cursor and the serial line changes, and the
    state of the locks; [out] are the bytes sent. *)
Record printed (out : list Z) (k k' : kernel F) : Prop := {
  pd_slocks : k_slocks k' = k_slocks k;
  pd_ps : k_ps k' = k_ps k;
  pd_fs : k_fs k' = k_fs k;
  pd_mem : use_lock (k_ms k') = use_lock (k_ms k) /\ freelist (k_ms k') = freelist (k_ms k) /\
           kpgdir (k_ms k') = kpgdir (k_ms k);
  pd_ram : forall a, ~ (crt <= a < crt + 4000) -> ld8 (ram (k_ms k')) a = ld8 (ram (k_ms k)) a;
  pd_bytes : bytes_ok (ram (k_ms k)) -> bytes_ok (ram (k_ms k'));
  pd_cons : k_cons k' = set_uart_out (uart_out (k_cons k) ++ out)
                          (set_cursor (cursor (k_cons k')) (k_cons k));
  pd_ok : console_ok k'
}.

Record prints (out : list Z) (k k' : kernel F) : Prop := {
  pr_hw : k_hw k' = k_hw k;
  pr_locks : k_locks k' = k_locks k;
  pr_rest : printed out k k'
}.

Lemma pr_ok out k k' : prints out k k' -> console_ok k'.
Proof. intros [_ _ H]. apply H. Qed.

Lemma printed_trans o1 o2 k1 k2 k3 :
  printed o1 k1 k2 -> printed o2 k2 k3 -> printed (o1 ++ o2) k1 k3.
Proof.
  intros [? ? ? (?&?&?) Hr1 ? Hc1 _] [? ? ? (?&?&?) Hr2 ? Hc2 ?]. split; try congruence; auto.
  - split; [|split]; congruence.
  - intros a Ha. rewrite Hr2, Hr1; auto.
  - rewrite Hc2. rewrite Hc1 at 1 2. cbn. by rewrite app_assoc.
Qed.

Lemma printed_core k k' : core k' = core k -> console_ok k -> printed [] k k'.
Proof.
  intros Hc Hok. pose proof (core_cons _ _ Hc) as Ec. split.
  - by apply core_slocks.
  - by apply core_ps.
  - by apply core_fs.
  - by rewrite (core_ms _ _ Hc).
  - intros a _. by rewrite (core_ms _ _ Hc).
  - by rewrite (core_ms _ _ Hc).
  - rewrite Ec, app_nil_r. by destruct (k_cons k).
  - unfold console_ok in *. by rewrite Ec.
Qed.

Lemma prints_refl k : console_ok k -> prints [] k k.
Proof. intros H. split; [done|done|]. by apply printed_core. Qed.

Lemma prints_trans o1 o2 k1 k2 k3 : prints o1 k1 k2 -> prints o2 k2 k3 -> prints (o1 ++ o2) k1 k3.
Proof.
  intros [? ? H1] [? ? H2]. split; [congruence..|]. by eapply printed_trans.
Qed.

Lemma ld8_put_crt m pos v a :
  0 <= pos < 2000 -> ~ (crt <= a < crt + 4000) ->
  ld8 (st m (crt + 2 * pos) (le_bytes 2 v)) a = ld8 m a.
Proof. intros Hp Ha. apply ld8_st_out. rewrite length_le_bytes. unfold crt in *. lia. Qed.

(** ** Characters *)

(** The bytes [consputc] sends for a character. *)
Definition sent (c : Z) : list Z := if c =? BACKSPACE then [8; 32; 8] else [u8 c].

Lemma uartputc_prints c k :
  console_ok k -> exists k', uartputc c k = Done tt k' /\ prints [u8 c] k k'.
Proof.
  intros (Hp & Hu & Hc). unfold uartputc, on_cons. kred. rewrite Hu. cbn [when nz]. kred.
  eexists. split; [done|]. split; [done|done|]. by split.
Qed.

(** Where the cursor goes before scrolling. *)
Definition next_pos (pos c : Z) : Z :=
  if c =? 10 then pos + (80 - Z.rem pos 80)
  else if c =? BACKSPACE then (if pos >? 0 then pos - 1 else pos) else pos + 1.

Lemma next_pos_range pos c : 0 <= pos < 24 * 80 -> 0 <= next_pos pos c <= 24 * 80.
Proof.
  intros H. unfold next_pos. rewrite Z.rem_mod_nonneg by lia.
  pose proof (Z.div_mod pos 80). pose proof (Z.mod_pos_bound pos 80).
  destruct (c =? 10); [lia|]. destruct (c =? BACKSPACE); [|lia]. destruct (pos >? 0) eqn:?; lia.
Qed.

(** Changes of memory that stay on the screen. *)
Lemma prints_screen k k' ram' cur' :
  console_ok k -> 0 <= cur' < 24 * 80 ->
  (forall a, ~ (crt <= a < crt + 4000) -> ld8 ram' a = ld8 (ram (k_ms k)) a) ->
  (bytes_ok (ram (k_ms k)) -> bytes_ok ram') ->
  k' = set_k_cons (set_cursor cur' (k_cons k)) (set_k_ms (set_ram ram' (k_ms k)) k) ->
  prints [] k k'.
Proof.
  intros (? & ? & ?) Hc Hr Hb ->. split; [done|done|]. split; try done.
  simpl. rewrite app_nil_r. by destruct (k_cons k).
Qed.

Lemma cgaputc_prints c k :
  console_ok k -> exists k', cgaputc c k = Done tt k' /\ prints [] k k'.
Proof.
  intros Hok. pose proof Hok as (Hp & Hu & Hc). unfold cgaputc, put_crt, on_ms, on_cons.
  rewrite bind_eq, gets_eq. cbn [res_bind]. set (pos := cursor (k_cons k)) in *.
  set (r1 := if (c =? 10) || (c =? BACKSPACE) then ram (k_ms k)
             else st (ram (k_ms k)) (crt + 2 * pos) (le_bytes 2 (Z.lor (Z.land c 255) 0x0700))).
  assert (forall a, ~ (crt <= a < crt + 4000) -> ld8 r1 a = ld8 (ram (k_ms k)) a) as Hr1.
  { intros a Ha. unfold r1. destruct (_ || _); [done|]. apply ld8_put_crt; [lia|done]. }
  assert (bytes_ok (ram (k_ms k)) -> bytes_ok r1) as Hb1.
  { intros Hb. unfold r1. destruct (_ || _); [done|]. apply bytes_ok_st; [done|apply le_bytes_range]. }
  pose proof (next_pos_range pos c Hc) as Hn. set (p1 := next_pos pos c) in *.
  rewrite bind_eq.
  match goal with |- context [res_bind (?m k) _] =>
    replace (m k) with (Done p1 (set_k_ms (set_ram r1 (k_ms k)) k)) end.
  2:{ unfold p1, next_pos, r1. destruct (c =? 10); simpl; [|destruct (c =? BACKSPACE); simpl];
        kred; by destruct k as [? ? ? ? [] ? ?]. }
  cbn [res_bind]. replace ((p1 <? 0) || (p1 >? 25 * 80)) with false by lia.
  rewrite bind_eq. rewrite Z.quot_div_nonneg by lia.
  destruct (p1 / 80 >=? 24) eqn:E.
  - assert (p1 = 24 * 80) as -> by (pose proof (Z.div_lt_upper_bound p1 80 24); lia).
    kred. eexists. split; [done|]. eapply prints_screen; [done| | | |reflexivity].
    + change (u16 (24 * 80 - 80)) with 1840. lia.
    + intros a Ha. cbn [ram set_ram k_ms set_k_ms]. rewrite ld8_put_crt by (done || lia).
      cbn [ram set_ram k_ms set_k_ms set_k_cons].
      rewrite ld8_memset by lia. rewrite decide_False by (unfold crt in *; lia).
      rewrite ld8_memmove by lia. rewrite decide_False by (unfold crt in *; lia). auto.
    + intros Hb. cbn [ram set_ram k_ms set_k_ms set_k_cons]. apply bytes_ok_st; [|apply le_bytes_range].
      intros x. rewrite ld8_memset by lia. case_decide; [done|]. rewrite ld8_memmove by lia. case_decide; by apply Hb1.
  - assert (p1 < 24 * 80) by (pose proof (Z.div_le_lower_bound p1 80 24); lia).
    kred. eexists. split; [done|]. eapply prints_screen; [done| | | |reflexivity].
    + unfold u16. rewrite Z.mod_small by lia. lia.
    + intros a Ha. cbn [ram set_ram k_ms set_k_ms]. rewrite ld8_put_crt by (done || lia).
      cbn [ram set_ram k_ms set_k_ms set_k_cons]. auto.
    + intros Hb. cbn [ram set_ram k_ms set_k_ms set_k_cons]. apply bytes_ok_st; [auto|apply le_bytes_range].
Qed.

Lemma consputc_prints c k :
  console_ok k -> exists k', consputc c k = Done tt k' /\ prints (sent c) k k'.
Proof.
  intros Hok. pose proof Hok as (Hp & _). unfold consputc. rewrite bind_eq, gets_eq, Hp.
  cbn [res_bind nz Z.eqb negb].
  assert (exists k1, (if c =? BACKSPACE then uartputc 8 ;; uartputc 32 ;; uartputc 8
                      else uartputc c) k = Done tt k1 /\ prints (sent c) k k1) as (k1 & E1 & H1).
  { unfold sent. destruct (c =? BACKSPACE); [|by apply uartputc_prints].
    destruct (uartputc_prints 8 k Hok) as (k1 & E1 & H1).
    destruct (uartputc_prints 32 k1 (pr_ok _ _ _ H1)) as (k2 & E2 & H2).
    destruct (uartputc_prints 8 k2 (pr_ok _ _ _ H2)) as (k3 & E3 & H3).
    exists k3. rewrite bind_eq, E1. cbn [res_bind]. rewrite bind_eq, E2. cbn [res_bind].
    split; [done|]. eapply (prints_trans [8] [32; 8]); [done|]. by eapply (prints_trans [32] [8]). }
  rewrite bind_eq, E1. cbn [res_bind].
  destruct (cgaputc_prints c k1 (pr_ok _ _ _ H1)) as (k2 & E2 & H2). exists k2. split; [done|].
  rewrite <- (app_nil_r (sent c)). by eapply prints_trans.
Qed.

(** A sequence of characters. *)
Lemma puts_prints l k :
  console_ok k -> exists k', for_all l consputc k = Done tt k' /\ prints (l ≫= sent) k k'.
Proof.
  revert k. induction l as [|c l IH]; intros k Hok.
  - exists k. split; [done|]. by apply prints_refl.
  - destruct (consputc_prints c k Hok) as (k1 & E1 & H1).
    destruct (IH k1 (pr_ok _ _ _ H1)) as (k2 & E2 & H2). exists k2.
    rewrite for_all_cons, E1. cbn [res_bind]. split; [done|]. by eapply prints_trans.
Qed.

(** ** Formats *)

(** The characters a format and its arguments stand for. *)
Fixpoint rendered (fmt : list Z) (args : list carg) : option (list Z) :=
  match fmt with
  | [] => Some []
  | 0 :: _ => Some []
  | 37 :: c :: fmt' =>
      if c =? 0 then Some [] else
      if c =? 100 then
        match args with
        | CInt v :: a => app (rev (int_buf v 10 true)) <$> rendered fmt' a
        | _ => None
        end
      else if (c =? 120) || (c =? 112) then
        match args with
        | CInt v :: a => app (rev (int_buf v 16 false)) <$> rendered fmt' a
        | _ => None
        end
      else if c =? 99 then
        match args with
        | CInt v :: a => app [if u8 v =? 0 then 48 else u8 v] <$> rendered fmt' a
        | _ => None
        end
      else if c =? 115 then
        match args with
        | CStr s :: a => app (default (bytes_of "(null)") s) <$> rendered fmt' a
        | _ => None
        end
      else if c =? 37 then app [37] <$> rendered fmt' args
      else app [37; c] <$> rendered fmt' args
  | 37 :: [] => Some []
  | c :: fmt' => app [c] <$> rendered fmt' args
  end.

(** A computation that prints [out] in every state where the console works. *)
Definition outputs (m : M (kernel F) unit) (out : list Z) : Prop :=
  forall k, console_ok k -> exists k', m k = Done tt k' /\ prints (out ≫= sent) k k'.

Lemma outputs_nil : outputs (ret tt) [].
Proof. intros k Hk. exists k. split; [done|]. by apply prints_refl. Qed.

Lemma outputs_seq m1 m2 o1 o2 :
  outputs m1 o1 -> outputs m2 o2 -> outputs (m1 ;; m2) (o1 ++ o2).
Proof.
  intros H1 H2 k Hk. destruct (H1 k Hk) as (k1 & E1 & P1).
  destruct (H2 k1 (pr_ok _ _ _ P1)) as (k2 & E2 & P2). exists k2.
  rewrite bind_eq, E1. cbn [res_bind]. split; [done|]. rewrite bind_app. by eapply prints_trans.
Qed.

Lemma outputs_puts l : outputs (for_all l consputc) l.
Proof. intros k Hk. by apply puts_prints. Qed.

Lemma outputs_putc c : outputs (consputc c) [c].
Proof.
  intros k Hk. simpl. rewrite app_nil_r. by apply consputc_prints.
Qed.

Lemma format_outputs fmt args out : rendered fmt args = Some out -> outputs (format fmt args) out.
Proof.
  remember (length fmt) as n eqn:En. assert (length fmt <= n)%nat as Hn by lia. clear En.
  revert fmt args out Hn. induction n as [|n IH]; intros [|c0 fmt] args out Hn E; simpl in Hn;
    try lia; try (injection E as <-; apply outputs_nil).
  destruct (decide (c0 = 37)) as [->|Hc].
  - destruct fmt as [|c fmt]; [injection E as <-; apply outputs_nil|]. cbn [rendered format] in *.
    simpl in Hn.
    repeat match goal with
    | E : (if ?b then _ else _) = _ |- _ => destruct b
    | E : match ?a with [] => _ | _ :: _ => _ end = _ |- _ => destruct a
    | E : match ?a with CInt _ => _ | CStr _ => _ end = _ |- _ => destruct a
    | E : Some [] = Some _ |- _ => injection E as <-; apply outputs_nil
    | E : None = Some _ |- _ => discriminate E
    | E : app _ <$> _ = Some _ |- _ => apply fmap_Some in E as (o & Eo & ->)
    end; try (apply outputs_seq; [first [apply outputs_puts|apply outputs_putc]|apply IH; [lia|done]]).
    change [37; c] with ([37] ++ [c]). rewrite <- app_assoc.
    apply outputs_seq; [apply outputs_putc|]. apply outputs_seq; [apply outputs_putc|].
    apply IH; [lia|done].
  - assert (rendered (c0 :: fmt) args = if c0 =? 0 then Some [] else app [c0] <$> rendered fmt args) as E1.
    { clear -Hc. destruct c0 as [|p|p]; try done. do 6 (destruct p as [p|p|]; try done). }
    assert (@format F (c0 :: fmt) args = if c0 =? 0 then ret tt else (consputc c0 ;; format fmt args)) as E2.
    { clear -Hc. destruct c0 as [|p|p]; try done. do 6 (destruct p as [p|p|]; try done). }
    rewrite E1 in E. rewrite E2. destruct (c0 =? 0); [injection E as <-; apply outputs_nil|].
    apply fmap_Some in E as (o & Eo & ->). apply outputs_seq; [apply outputs_putc|].
    apply IH; [lia|done].
Qed.

(** [cprintf] with enough arguments of the right kind returns, sends exactly
    the rendered characters on the serial line, leaves the locks as they were,
    keeps the cursor on the screen, and of memory changes only the 4000 bytes
    of the screen. *)
Theorem cprintf_prints k c n H fmt args out
    (Hk : holds k c n H) (HL : LKcons ∉ H) (Hn : n < 2 ^ 30 - 2) (Hok : console_ok k)
    (Hr : rendered (bytes_of fmt) args = Some out) :
  runs (cprintf fmt args) k
    (fun _ k' => holds k' c n H /\ printed (out ≫= sent) k k').
Proof.
  unfold runs, cprintf. rewrite bind_eq, gets_eq. cbn [res_bind].
  pose proof (h_few _ _ _ _ Hk) as Hf.
  destruct (nz (cons_locking (k_cons k))); cbn [when].
  - wp_call (acquire_holds k c n H LKcons Hk HL Hn). intros _ k1 [Hk1 Hc1].
    pose proof (printed_core k k1 Hc1 Hok) as P1.
    destruct (format_outputs _ _ _ Hr k1 (pd_ok _ _ _ P1)) as (k2 & E2 & [Eh El P2]).
    rewrite bind_eq, E2. cbn [res_bind].
    eapply wp_mono; [|apply (release_holds k2 c n H LKcons);
      [by eapply holds_ext; [..|exact Hk1]|done|lia]].
    intros _ k3 [Hk3 Hc3]. split; [done|].
    pose proof (printed_core k2 k3 Hc3 (pd_ok _ _ _ P2)) as P3.
    rewrite <- (app_nil_r (out ≫= sent)). eapply (printed_trans []); [done|].
    by eapply printed_trans.
  - rewrite bind_eq, ret_eq. cbn [res_bind].
    destruct (format_outputs _ _ _ Hr k Hok) as (k2 & E2 & [Eh El P2]).
    rewrite bind_eq, E2. cbn [res_bind]. split; [|done]. by eapply holds_ext.
Qed.

(** ** Numerals *)

Lemma digit_val_digits d : 0 <= d < 16 -> digit_val (digits d) = d.
Proof. intros H. unfold digit_val, digits. destruct (d <? 10) eqn:?; destruct (_ <? 58) eqn:?; lia. Qed.

Lemma digits_range d : 0 <= d < 16 -> 48 <= digits d < 103.
Proof. intros H. unfold digits. destruct (d <? 10) eqn:?; lia. Qed.

Lemma int_digits_range n x base :
  2 <= base <= 16 -> Forall (fun c => 48 <= c < 103) (int_digits n x base).
Proof.
  intros Hb. revert x. induction n as [|n IH]; intros x; cbn [int_digits]; [done|].
  constructor; [|by destruct (_ =? 0)]. apply digits_range.
  pose proof (Z.mod_pos_bound x base). lia.
Qed.

Lemma length_int_digits n x base : (length (int_digits n x base) <= n)%nat.
Proof.
  revert x. induction n as [|n IH]; intros x; cbn [int_digits]; [done|].
  simpl. destruct (_ =? 0); simpl; [lia|]. specialize (IH (x / base)). lia.
Qed.

(** [n] digits are enough for a number below [base ^ n]. *)
Lemma int_digits_val n x base :
  2 <= base <= 16 -> 0 <= x < base ^ Z.of_nat n -> (0 < n)%nat ->
  undigits base (int_digits n x base) = x.
Proof.
  intros Hb. revert x. induction n as [|n IH]; intros x Hx Hn; [lia|].
  cbn [int_digits undigits foldr]. pose proof (Z.mod_pos_bound x base) as Hm.
  rewrite digit_val_digits by lia. pose proof (Z.div_mod x base) as Hd.
  destruct (x / base =? 0) eqn:E; [simpl; lia|].
  rewrite Nat2Z.inj_succ, Z.pow_succ_r in Hx by lia.
  assert (x / base < base ^ Z.of_nat n) by (apply Z.div_lt_upper_bound; lia).
  assert (0 <= x / base) by (apply Z.div_pos; lia).
  assert (0 < n)%nat by (destruct n; [simpl in *; lia|lia]).
  change (foldr _ 0 ?l) with (undigits base l). rewrite IH by lia. lia.
Qed.

Lemma sent_bytes l : Forall (fun c => 0 <= c < 256) l -> l ≫= sent = l.
Proof.
  induction 1 as [|c l Hc _ IH]; [done|]. rewrite bind_cons, IH. unfold sent, BACKSPACE.
  rewrite (proj2 (Z.eqb_neq _ _)) by lia. unfold u8. by rewrite Z.mod_small.
Qed.

Lemma int_buf_range xx base sign :
  2 <= base <= 16 -> Forall (fun c => 0 <= c < 256) (int_buf xx base sign).
Proof.
  intros Hb. unfold int_buf. apply Forall_app. split.
  - eapply Forall_impl; [|by apply int_digits_range]. simpl. lia.
  - destruct (_ && _); repeat constructor; lia.
Qed.

Lemma int_buf_numeral xx : - 2 ^ 31 <= xx < 2 ^ 31 -> numeral (rev (int_buf xx 10 true)) = xx.
Proof.
  intros Hx. unfold int_buf. cbn [andb]. destruct (xx <? 0) eqn:E; cbn [andb].
  - rewrite rev_app_distr. change (rev [45]) with [45]. cbn [app numeral]. rewrite rev_involutive.
    rewrite u32_small, int_digits_val by lia. lia.
  - rewrite app_nil_r, u32_small by lia.
    assert (numeral (rev (int_digits 15 xx 10)) = undigits 10 (rev (rev (int_digits 15 xx 10)))) as ->.
    { assert (Forall (fun c => 48 <= c < 103) (rev (int_digits 15 xx 10))) as Hr
        by (apply Forall_rev, int_digits_range; lia).
      destruct (rev _) as [|c l]; [done|]. inversion Hr; subst.
      destruct c as [|p|p]; try lia. do 6 (destruct p as [p|p|]; try done). lia. }
    rewrite rev_involutive, int_digits_val by lia. done.
Qed.

(** [printint] in base 10 prints the decimal numeral of its argument for every
    32-bit integer, the least one included, in at most the 16 characters its
    buffer has. *)
Theorem printint_decimal k xx (Hok : console_ok k) (Hx : - 2 ^ 31 <= xx < 2 ^ 31) :
  exists out k', printint xx 10 true k = Done tt k' /\
    uart_out (k_cons k') = uart_out (k_cons k) ++ out /\ numeral out = xx /\
    (length out <= 16)%nat.
Proof.
  destruct (puts_prints (rev (int_buf xx 10 true)) k Hok) as (k' & E & [_ _ P]).
  rewrite sent_bytes in P by (apply Forall_rev, int_buf_range; lia).
  exists (rev (int_buf xx 10 true)), k'. split; [done|]. split.
  { rewrite (pd_cons _ _ _ P). done. }
  split; [by apply int_buf_numeral|]. rewrite length_rev. unfold int_buf. rewrite length_app.
  match goal with |- context [int_digits 15 ?x 10] => pose proof (length_int_digits 15 x 10) end.
  destruct (_ && _); simpl length in *; lia.
Qed.
End CprintfFacts.

(** ** Instances *)

Lemma kernel0_console : console_ok kernel0.
Proof. unfold console_ok. simpl. lia. Qed.

Lemma cprintf_prints_witness :
  runs (cprintf "cpu%d: starting %d" [CInt 0; CInt 0]) kernel0 (fun _ k' => holds k' 0 0 [] /\
    printed (bytes_of "cpu0: starting 0" ≫= sent) kernel0 k').
Proof.
  apply (cprintf_prints kernel0 0 0 [] "cpu%d: starting %d" [CInt 0; CInt 0]
    (bytes_of "cpu0: starting 0") kernel0_holds (not_elem_of_nil _) ltac:(lia) kernel0_console).
  by vm_compute.
Defined.

Lemma printint_decimal_witness :
  exists out k', printint (- 2 ^ 31) 10 true kernel0 = Done tt k' /\
    uart_out (k_cons k') = out /\ numeral out = - 2 ^ 31 /\ (length out <= 16)%nat.
Proof.
  apply (printint_decimal kernel0 (- 2 ^ 31) kernel0_console). lia.
Defined.
