(* ===== verification/Apic.v ===== *)
(** * Interrupt controllers and processors (ioapic.c, lapic.c, mp.c)

    The registers of the I/O APIC and of the executing CPU's local APIC are
    part of the hardware state.  [mpinit] reads the multiprocessor tables the
    BIOS left in memory. *)

From S2P Require Import Prelude Params State Mem Spinlock Str Cprintf.

Section Apic.
  Context {F : Type}.

(** ** I/O APIC *)

(* ioapic.c 11-11: REG_ID *)
Definition REG_ID : Z := 0x00.

(* ioapic.c 12-12: REG_VER *)
Definition REG_VER : Z := 0x01.

(* ioapic.c 13-13: REG_TABLE *)
Definition REG_TABLE : Z := 0x10.

(* ioapic.c 20-20: INT_DISABLED *)
Definition INT_DISABLED : Z := 0x10000.

(* ioapic.c 34-39: ioapicread *)
Definition ioapicread (reg : Z) : M (kernel F) Z :=
  gets (fun k => default 0 (ioapic_regs (k_hw k) !! reg)).

(* ioapic.c 41-46: ioapicwrite *)
Definition ioapicwrite (reg data : Z) : M (kernel F) unit :=
  on_hw (fun h => set_ioapic_regs (<[reg := u32 data]> (ioapic_regs h)) h).

(* ioapic.c 48-65: ioapicinit *)
Definition ioapicinit : M (kernel F) unit :=
  v <- ioapicread REG_VER ;;
  let maxintr := Z.land (Z.shiftr v 16) 0xFF in
  v <- ioapicread REG_ID ;;
  let id := Z.shiftr v 24 in
  h <- gets k_hw ;;
  when (negb (id =? ioapicid h))
    (cprintf ("ioapicinit: id isn't equal to ioapicid; not a MP" ++ nl) []) ;;
  for_all (zseq (Z.to_nat (maxintr + 1))) (fun i =>
    ioapicwrite (REG_TABLE + 2 * i) (Z.lor INT_DISABLED (T_IRQ0 + i)) ;;
    ioapicwrite (REG_TABLE + 2 * i + 1) 0).

(* ioapic.c 67-75: ioapicenable *)
Definition ioapicenable (irq cpunum : Z) : M (kernel F) unit :=
  ioapicwrite (REG_TABLE + 2 * irq) (T_IRQ0 + irq) ;;
  ioapicwrite (REG_TABLE + 2 * irq + 1) (Z.shiftl cpunum 24).

(** ** Local APIC *)

(* lapic.c 47-52: lapicw *)
Definition lapicw (index value : Z) : M (kernel F) unit :=
  on_hw (fun h => set_lapic_regs (<[index := u32 value]> (lapic_regs h)) h).

(** The delivery status bit clears by itself, which the wait loop awaits. *)
(* lapic.c 54-98: lapicinit *)
Definition lapicinit : M (kernel F) unit :=
  h <- gets k_hw ;;
  if lapic h =? 0 then ret tt else
  lapicw (0xF0 / 4) (Z.lor 0x100 (T_IRQ0 + IRQ_SPURIOUS)) ;;
  lapicw (0x3E0 / 4) 0xB ;;
  lapicw (0x320 / 4) (Z.lor 0x20000 (T_IRQ0 + IRQ_TIMER)) ;;
  lapicw (0x380 / 4) 10000000 ;;
  lapicw (0x350 / 4) 0x10000 ;;
  lapicw (0x360 / 4) 0x10000 ;;
  h <- gets k_hw ;;
  when (Z.land (Z.shiftr (default 0 (lapic_regs h !! (0x30 / 4))) 16) 0xFF >=? 4)
    (lapicw (0x340 / 4) 0x10000) ;;
  lapicw (0x370 / 4) (T_IRQ0 + IRQ_ERROR) ;;
  lapicw (0x280 / 4) 0 ;;
  lapicw (0x280 / 4) 0 ;;
  lapicw (0xB0 / 4) 0 ;;
  lapicw (0x310 / 4) 0 ;;
  lapicw (0x300 / 4) (Z.lor (Z.lor 0x80000 0x500) 0x8000) ;;
  lapicw (0x80 / 4) 0.

(* lapic.c 100-106: lapicid *)
Definition lapicid : M (kernel F) Z :=
  h <- gets k_hw ;;
  ret (if lapic h =? 0 then 0 else lapic_id h).

(* lapic.c 109-114: lapiceoi *)
Definition lapiceoi : M (kernel F) unit :=
  h <- gets k_hw ;;
  when (negb (lapic h =? 0)) (lapicw (0xB0 / 4) 0).

(** The shutdown code written to the CMOS has no effect here; the warm reset
    vector is at physical address 0x467. *)
(* lapic.c 128-161: lapicstartap *)
Definition lapicstartap (apicid addr : Z) : M (kernel F) unit :=
  on_ms (fun m => set_ram (st (ram m) 0x467 (le_bytes 2 0)) m) ;;
  on_ms (fun m => set_ram (st (ram m) 0x469 (le_bytes 2 (u16 (Z.shiftr addr 4)))) m) ;;
  lapicw (0x310 / 4) (Z.shiftl apicid 24) ;;
  lapicw (0x300 / 4) (Z.lor (Z.lor 0x500 0x8000) 0x4000) ;;
  lapicw (0x300 / 4) (Z.lor 0x500 0x8000) ;;
  for_all (seq 0 2) (fun _ =>
    lapicw (0x310 / 4) (Z.shiftl apicid 24) ;;
    lapicw (0x300 / 4) (Z.lor 0x600 (Z.shiftr addr 12))).

(** ** Multiprocessor tables *)

(** Bytes of memory, through the linear mapping. *)
Definition pload8 (a : Z) : M (kernel F) Z := gets (fun k => ld8 (ram (k_ms k)) a).

Definition pload (a : Z) (n : nat) : M (kernel F) (list Z) := gets (fun k => ld (ram (k_ms k)) a n).

(* mp.c 18-27: sum *)
Definition sum (addr : list Z) : Z := u8 (foldl Z.add 0 addr).

(* mp.c 30-41: mpsearch1 *)
Definition mpsearch1 (a len : Z) : M (kernel F) (option Z) :=
  for_each ((fun i => a + 16 * i) <$> zseq (Z.to_nat ((len + 15) / 16))) (fun p =>
    s <- pload p 16 ;;
    ret (if bool_decide (take 4 s = bytes_of "_MP_") && (sum s =? 0) then Some p else None)).

(* mp.c 48-65: mpsearch *)
Definition mpsearch : M (kernel F) (option Z) :=
  hi <- pload8 0x40F ;;
  lo <- pload8 0x40E ;;
  let p := Z.shiftl (Z.lor (Z.shiftl hi 8) lo) 4 in
  r <- (if nz p then mpsearch1 p 1024
        else
          hi <- pload8 0x414 ;;
          lo <- pload8 0x413 ;;
          mpsearch1 (Z.lor (Z.shiftl hi 8) lo * 1024 - 1024) 1024) ;;
  match r with
  | Some mp => ret (Some mp)
  | None => mpsearch1 0xF0000 0x10000
  end.

(** Physical addresses of the floating structure and of the table. *)
(* mp.c 72-89: mpconfig *)
Definition mpconfig : M (kernel F) (option (Z * Z)) :=
  r <- mpsearch ;;
  match r with
  | None => ret None
  | Some mp =>
      pa <- pload (mp + 4) 4 ;;
      let conf := le_val pa in
      if conf =? 0 then ret None else
      s <- pload conf 4 ;;
      if negb (bool_decide (s = bytes_of "PCMP")) then ret None else
      v <- pload8 (conf + 6) ;;
      if negb (v =? 1) && negb (v =? 4) then ret None else
      len <- pload (conf + 4) 2 ;;
      body <- pload conf (Z.to_nat (le_val len)) ;;
      if negb (sum body =? 0) then ret None else
      ret (Some (mp, conf))
  end.

(** The loop over the table entries from [p] to [e].  In the default case the
    [break] leaves the switch and not the loop, which looks at the same entry
    again, for ever.  Every other entry is at least 8 bytes long. *)
(* mp.c 105-129: mpinit *)
Fixpoint mp_entries (n : nat) (p e : Z) : M (kernel F) unit :=
  if negb (p <? e) then ret tt else
  match n with
  | O => fun k => NoFuel k
  | S n' =>
      t <- pload8 p ;;
      if t =? 0 then
        id <- pload8 (p + 1) ;;
        h <- gets k_hw ;;
        when (ncpu h <? NCPU)
          (get_cpu (Z.to_nat (ncpu h)) ;;
           upd_cpu (Z.to_nat (ncpu h)) (set_apicid id) ;;
           on_hw (fun h => set_ncpu (ncpu h + 1) h)) ;;
        mp_entries n' (p + 20) e
      else if t =? 2 then
        id <- pload8 (p + 1) ;;
        on_hw (set_ioapicid id) ;;
        mp_entries n' (p + 8) e
      else if (t =? 1) || (t =? 3) || (t =? 4) then mp_entries n' (p + 8) e
      else (fun k => Spin k)
  end.

(** The IMCR port has no effect here. *)
(* mp.c 91-139: mpinit *)
Definition mpinit : M (kernel F) unit :=
  r <- mpconfig ;;
  match r with
  | None => panic "Expect to run on an SMP"
  | Some (mp, conf) =>
      la <- pload (conf + 36) 4 ;;
      on_hw (set_lapic (le_val la)) ;;
      len <- pload (conf + 4) 2 ;;
      mp_entries (Z.to_nat (le_val len)) (conf + 44) (conf + le_val len)
  end.

End Apic.

(** ** The real-time clock *)

(* date.h 1-8: rtcdate *)
Record rtcdate : Type := mkRtc {
  second : Z; minute : Z; hour : Z; day : Z; month : Z; year : Z
}.

#[export] Instance rtcdate_eq_dec : EqDecision rtcdate.
Proof. solve_decision. Defined.

(** Binary-coded decimal. *)
(* lapic.c 217-217: CONV *)
Definition CONV (x : Z) : Z := Z.shiftr x 4 * 10 + Z.land x 0xf.

(** [samples] are the successive readings of the clock: a first reading,
    whether an update was in progress, and the reading after it. *)
(* lapic.c 195-229: cmostime *)
Fixpoint cmostime (statb : Z) (samples : list (rtcdate * bool * rtcdate)) : option rtcdate :=
  match samples with
  | [] => None
  | (t1, uip, t2) :: rest =>
      if uip then cmostime statb rest else
      if negb (bool_decide (t1 = t2)) then cmostime statb rest else
      let t := if Z.land statb 4 =? 0
               then mkRtc (CONV (second t1)) (CONV (minute t1)) (CONV (hour t1)) (CONV (day t1))
                      (CONV (month t1)) (CONV (year t1))
               else t1 in
      Some (mkRtc (second t) (minute t) (hour t) (day t) (month t) (year t + 2000))
  end.
