(* ===== verification/Kalloc.v ===== *)
(** * The physical page allocator (kalloc.c)

    Free pages form a list threaded through the pages themselves: the first
    word of a free page is the address of the next one.  [kmem_inv k l] says
    that the list in memory is [l], without repetition and of allocatable
    pages only; the theorems describe the operations by their effect on [l]. *)

From S2P Require Import Prelude Params State Mem Spinlock Str Demo.

Section Kalloc.
  Context {F : Type} {LK : Linker}.

Definition get_use_lock : M (kernel F) Z := gets (fun k => use_lock (k_ms k)).

(* kalloc.c 59-77: kfree *)
Definition kfree (v : Z) : M (kernel F) unit :=
  if nz (v `mod` PGSIZE) || (v <? sym_end) || (V2P v >=? PHYSTOP) then panic "kfree" else
  on_ms (fun m => set_ram (memset (ram m) (V2P v) 1 PGSIZE) m) ;;
  ul <- get_use_lock ;;
  when (nz ul) (acquire LKkmem) ;;
  fl <- gets (fun k => freelist (k_ms k)) ;;
  kstore32 v fl ;;
  on_ms (set_freelist v) ;;
  ul <- get_use_lock ;;
  when (nz ul) (release LKkmem).

(* kalloc.c 82-95: kalloc *)
Definition kalloc : M (kernel F) Z :=
  ul <- get_use_lock ;;
  when (nz ul) (acquire LKkmem) ;;
  r <- gets (fun k => freelist (k_ms k)) ;;
  when (nz r) (next <- kload32 r ;; on_ms (set_freelist next)) ;;
  ul <- get_use_lock ;;
  when (nz ul) (release LKkmem) ;;
  ret r.

(** The values of [p] in [for(; p + PGSIZE <= vend; p += PGSIZE)]. *)
Definition pages (p vend : Z) : list Z :=
  (fun i => p + i * PGSIZE) <$> zseq (Z.to_nat ((vend - p) / PGSIZE)).

(* kalloc.c 46-53: freerange *)
Definition freerange (vstart vend : Z) : M (kernel F) unit :=
  for_all (pages (PGROUNDUP vstart) vend) kfree.

(* kalloc.c 31-37: kinit1 *)
Definition kinit1 (vstart vend : Z) : M (kernel F) unit :=
  initlock LKkmem "kmem" ;;
  on_ms (set_use_lock 0) ;;
  freerange vstart vend.

(* kalloc.c 39-44: kinit2 *)
Definition kinit2 (vstart vend : Z) : M (kernel F) unit :=
  freerange vstart vend ;;
  on_ms (set_use_lock 1).

(** ** Representation of the free list *)

(** What kfree accepts. *)
Definition page_ok (v : Z) : Prop :=
  v `mod` PGSIZE = 0 /\ sym_end <= v < 2 ^ 32 /\ V2P v < PHYSTOP.

Fixpoint flist (m : gmap Z Z) (p : Z) (l : list Z) : Prop :=
  match l with
  | [] => p = 0
  | a :: l' => p = a /\ flist m (ld32 m (V2P a)) l'
  end.

Record kmem_inv (k : kernel F) (l : list Z) : Prop := {
  km_list : flist (ram (k_ms k)) (freelist (k_ms k)) l;
  km_nodup : NoDup l;
  km_pages : Forall page_ok l
}.

End Kalloc.

Section KallocFacts.
  Context {F : Type} {LK : Linker} {LKO : LinkerOk}.
  Implicit Types (k : kernel F).

Lemma page_ok_V2P v : page_ok v -> V2P v = v - KERNBASE /\ KERNBASE < v < 2 ^ 32.
Proof.
  intros (_ & He & _). pose proof end_high. unfold V2P. rewrite u32_small; [lia|].
  unfold KERNBASE in *. lia.
Qed.

Lemma page_ok_aligned v : page_ok v -> V2P v `mod` PGSIZE = 0.
Proof.
  intros Hv. destruct (page_ok_V2P v Hv) as [-> _]. destruct Hv as [Ha _].
  unfold KERNBASE, PGSIZE in *. rewrite Zminus_mod, Ha. done.
Qed.

Lemma aligned_disjoint a b :
  a `mod` PGSIZE = 0 -> b `mod` PGSIZE = 0 -> a <> b -> a + PGSIZE <= b \/ b + PGSIZE <= a.
Proof.
  unfold PGSIZE. intros Ha Hb Hne.
  pose proof (Z.div_mod a 4096). pose proof (Z.div_mod b 4096). lia.
Qed.

Lemma page_disjoint a b :
  page_ok a -> page_ok b -> a <> b -> V2P a + PGSIZE <= V2P b \/ V2P b + PGSIZE <= V2P a.
Proof.
  intros Ha Hb Hne. apply aligned_disjoint; auto using page_ok_aligned.
  destruct (page_ok_V2P a Ha) as [-> _], (page_ok_V2P b Hb) as [-> _]. lia.
Qed.

Lemma kfree_guard v :
  0 <= v < 2 ^ 32 ->
  nz (v `mod` PGSIZE) || (v <? sym_end) || (V2P v >=? PHYSTOP) = false <-> page_ok v.
Proof. intros Hv. unfold page_ok, nz. lia. Qed.

Lemma flist_ext m m' p l :
  (forall a, a ∈ l -> ld32 m' (V2P a) = ld32 m (V2P a)) -> flist m p l -> flist m' p l.
Proof.
  revert p. induction l as [|a l IH]; intros p Hm; simpl; [done|].
  intros [-> Hl]. split; [done|]. rewrite Hm by left. apply IH; [|done].
  intros b Hb. apply Hm. by right.
Qed.

(** The memory after [kfree v]: junk in the page, then the link. *)
Definition freed (m : mstate) (v : Z) : mstate :=
  set_freelist v (set_ram (st32 (memset (ram m) (V2P v) 1 PGSIZE) (V2P v) (freelist m)) m).

Lemma freed_outside m v x :
  ~ (V2P v <= x < V2P v + PGSIZE) -> ld8 (ram (freed m v)) x = ld8 (ram m) x.
Proof.
  intros Hx. unfold freed. simpl. rewrite ld8_st32_out by (unfold PGSIZE in *; lia).
  rewrite ld8_memset by done. by rewrite decide_False.
Qed.

Lemma flist_range m p l :
  flist m p l -> Forall page_ok l -> 0 <= p < 2 ^ 32.
Proof.
  destruct l as [|a l]; simpl; [intros -> _; lia|].
  intros [-> _] Hl. inversion Hl as [|? ? Ha _]; subst.
  destruct (page_ok_V2P a Ha) as [_ ?]. unfold KERNBASE in *. lia.
Qed.

Lemma freed_inv k k' l v :
  kmem_inv k l -> page_ok v -> v ∉ l -> k_ms k' = freed (k_ms k) v -> kmem_inv k' (v :: l).
Proof.
  intros [Hl Hn Hp] Hv Hnin Hk'. split; [|by constructor|by constructor].
  rewrite Hk'. split; [done|]. simpl. rewrite ld32_st32_same.
  rewrite u32_small by (by eapply flist_range).
  revert Hl. apply flist_ext. intros a Ha.
  pose proof (page_disjoint a v (Forall_elem _ _ _ Hp Ha) Hv ltac:(congruence)).
  apply ld32_ext. intros x Hx. apply (freed_outside (k_ms k) v). unfold PGSIZE in *. lia.
Qed.

Lemma kfree_holds k c n H l v :
  holds k c n H -> LKkmem ∉ H -> n < 2 ^ 30 - 2 ->
  kmem_inv k l -> page_ok v -> v ∉ l ->
  runs (kfree v) k (fun _ k' => holds k' c n H /\ kmem_inv k' (v :: l) /\
    core k' = core (set_k_ms (freed (k_ms k) v) k)).
Proof.
  intros Hk HL Hn Hi Hv Hnin. pose proof (h_few _ _ _ _ Hk).
  assert (0 <= v < 2 ^ 32) as Hr by (destruct Hv as (_ & ? & _); pose proof end_high;
    unfold KERNBASE in *; lia).
  unfold runs, kfree. rewrite (proj2 (kfree_guard v Hr) Hv).
  unfold get_use_lock, on_ms, kstore32, on_ms. kred. simpl.
  destruct (nz (use_lock (k_ms k))) eqn:El; cbn [when].
  - set (k1 := set_k_ms _ k).
    assert (holds k1 c n H) as Hk1 by (by eapply holds_ext; [..|exact Hk]).
    wp_call (acquire_holds _ _ _ _ LKkmem Hk1); [|done|lia]. simpl. intros _ k2 [Hk2 Hc2].
    kred. rewrite !(core_ms _ _ Hc2). simpl. rewrite El. cbn [when].
    match goal with |- wp _ (release _ ?x) _ => set (k3 := x) end.
    assert (holds k3 c (n + 1) (LKkmem :: H)) as Hk3 by (by eapply holds_ext; [..|exact Hk2]).
    eapply wp_mono; [|apply (release_holds _ _ _ _ _ Hk3); [done|lia]].
    simpl. intros _ k4 [Hk4 Hc4].
    assert (core k4 = core (set_k_ms (freed (k_ms k) v) k)) as Hc.
    { rewrite Hc4. unfold k3. autorewrite with core. rewrite Hc2. done. }
    split; [done|]. split; [|done]. eapply freed_inv; try done. by rewrite (core_ms _ _ Hc).
  - unfold ret at 1. kred. simpl. rewrite El. cbn [when]. kred. simpl.
    set (k1 := set_k_ms _ _). assert (core k1 = core (set_k_ms (freed (k_ms k) v) k)) as Hc by done.
    split; [by eapply holds_ext; [..|exact Hk]|]. split; [|done]. by eapply freed_inv.
Qed.

Lemma kfree_bad v k :
  0 <= v < 2 ^ 32 -> ~ page_ok v -> kfree v k = Panic "kfree" k.
Proof.
  intros Hr Hv. unfold kfree.
  destruct (nz (v `mod` PGSIZE) || (v <? sym_end) || (V2P v >=? PHYSTOP)) eqn:E; [done|].
  exfalso. apply Hv. by apply kfree_guard.
Qed.

(** The allocator's state after [kalloc]. *)
Definition popped_page (m : mstate) : mstate :=
  if nz (freelist m) then set_freelist (ld32 (ram m) (V2P (freelist m))) m else m.

Lemma popped_inv k k' l :
  kmem_inv k l -> k_ms k' = popped_page (k_ms k) ->
  freelist (k_ms k) = hd 0 l /\ kmem_inv k' (tail l).
Proof.
  intros [Hl Hnd Hp] Hk'. unfold popped_page in Hk'. destruct l as [|a l]; simpl in *.
  - rewrite Hl in Hk'. simpl in Hk'. split; [done|]. by split; rewrite ?Hk'.
  - destruct Hl as [Ha Hl]. inversion Hp as [|? ? Pa Pl]; subst. inversion Hnd; subst.
    destruct (page_ok_V2P _ Pa) as [_ Hgt]. unfold KERNBASE in Hgt.
    assert (nz (freelist (k_ms k)) = true) as Ez by (unfold nz; lia).
    rewrite Ez in Hk'. split; [done|]. split; rewrite ?Hk'; done.
Qed.

Lemma popped_page_ram m : ram (popped_page m) = ram m.
Proof. unfold popped_page. by destruct (nz _). Qed.

Lemma kalloc_pop k :
  (r <- gets (fun k => freelist (k_ms k)) ;;
   when (nz r) (next <- kload32 r ;; on_ms (set_freelist next)) ;;
   ul <- get_use_lock ;;
   when (nz ul) (release LKkmem) ;;
   ret r) k
  = (when (nz (use_lock (k_ms k))) (release LKkmem) ;; ret (freelist (k_ms k)))
      (set_k_ms (popped_page (k_ms k)) k).
Proof.
  unfold kload32, on_ms, get_use_lock, popped_page. kred.
  destruct (nz (freelist (k_ms k))); cbn [when]; kred; [done|]. by destruct k.
Qed.

Lemma kalloc_holds k c n H l :
  holds k c n H -> LKkmem ∉ H -> n < 2 ^ 30 - 2 -> kmem_inv k l ->
  runs kalloc k (fun r k' => holds k' c n H /\ r = hd 0 l /\ kmem_inv k' (tail l) /\
    core k' = core (set_k_ms (popped_page (k_ms k)) k)).
Proof.
  intros Hk HL Hn Hi. pose proof (h_few _ _ _ _ Hk).
  pose proof (popped_inv _ (set_k_ms (popped_page (k_ms k)) k) _ Hi eq_refl) as [Hfl _].
  unfold runs, kalloc. unfold get_use_lock at 1. rewrite bind_eq, gets_eq. cbn [res_bind].
  rewrite bind_eq.
  destruct (nz (use_lock (k_ms k))) eqn:El; cbn [when].
  - wp_call (acquire_holds _ _ _ _ LKkmem Hk); [|done|lia]. simpl. intros _ k1 [Hk1 Hc1].
    rewrite kalloc_pop, !(core_ms _ _ Hc1), El. cbn [when].
    set (k2 := set_k_ms _ k1). rewrite bind_eq, wp_bind.
    assert (holds k2 c (n + 1) (LKkmem :: H)) as Hk2 by (by eapply holds_ext; [..|exact Hk1]).
    eapply wp_mono; [|apply (release_holds _ _ _ _ _ Hk2); [done|lia]].
    intros _ k3 [Hk3 Hc3].
    assert (core k3 = core (set_k_ms (popped_page (k_ms k)) k)) as Hc
      by (rewrite Hc3; unfold k2; autorewrite with core; by rewrite Hc1).
    split; [done|]. split; [done|]. split; [|done].
    by apply (popped_inv k _ _ Hi), (core_ms _ _ Hc).
  - rewrite ret_eq. cbn [res_bind]. rewrite kalloc_pop, El. cbn [when]. kred.
    split; [by eapply holds_ext; [..|exact Hk]|]. split; [done|]. split; [|done].
    by apply (popped_inv k _ _ Hi).
Qed.

(** *** Initialisation *)

Lemma elem_of_pages p vend x :
  x ∈ pages p vend -> exists i, x = p + i * PGSIZE /\ 0 <= i /\ x + PGSIZE <= vend.
Proof.
  unfold pages. intros (i & -> & Hi)%list_elem_of_fmap. apply elem_of_zseq in Hi.
  exists i. unfold PGSIZE in *. pose proof (Z.div_mod (vend - p) 4096).
  pose proof (Z.mod_pos_bound (vend - p) 4096). lia.
Qed.

Lemma NoDup_pages p vend : NoDup (pages p vend).
Proof.
  unfold pages. apply NoDup_fmap_2; [|apply NoDup_fmap_2; [|apply NoDup_seq]].
  - intros i j. unfold PGSIZE. lia.
  - intros i j. lia.
Qed.

Lemma freerange_loop ps k c n H l :
  holds k c n H -> LKkmem ∉ H -> n < 2 ^ 30 - 2 -> kmem_inv k l ->
  NoDup ps -> Forall page_ok ps -> (forall v, v ∈ ps -> v ∉ l) ->
  runs (for_all ps kfree) k (fun _ k' => holds k' c n H /\ kmem_inv k' (rev ps ++ l)).
Proof.
  revert k l. induction ps as [|v ps IH]; intros k l Hk HL Hn Hi Hnd Hp Hnin; unfold runs.
  - done.
  - inversion Hnd; subst. inversion Hp; subst. rewrite for_all_cons, wp_bind.
    eapply wp_mono; [|apply (kfree_holds _ _ _ _ l v Hk); auto; apply Hnin; left].
    intros _ k1 (Hk1 & Hi1 & _). eapply wp_mono; [|apply (IH k1 (v :: l)); auto].
    + intros _ k2 [Hk2 Hi2]. split; [done|]. simpl. by rewrite <- app_assoc.
    + intros w Hw [->|Hw']%elem_of_cons; [done|]. apply (Hnin w); [by right|done].
Qed.

Lemma pages_ok vstart vend x :
  0 <= vstart <= 2 ^ 32 - PGSIZE -> sym_end <= vstart -> vend <= KERNBASE + PHYSTOP ->
  x ∈ pages (PGROUNDUP vstart) vend -> page_ok x /\ vstart <= x < vend.
Proof.
  intros Hr He Hv (i & -> & Hi & Hx)%elem_of_pages. pose proof end_high.
  rewrite PGROUNDUP_spec in * by done.
  unfold page_ok, V2P, PGSIZE, PHYSTOP, KERNBASE in *.
  pose proof (Z.div_mod (vstart + 4095) 4096). pose proof (Z.mod_pos_bound (vstart + 4095) 4096).
  rewrite <- Z.mul_add_distr_r, Z.mod_mul by lia. set (q := (vstart + 4095) / 4096) in *.
  rewrite u32_small by lia. lia.
Qed.

Lemma freerange_holds k c n H l vstart vend :
  holds k c n H -> LKkmem ∉ H -> n < 2 ^ 30 - 2 -> kmem_inv k l ->
  0 <= vstart <= 2 ^ 32 - PGSIZE -> sym_end <= vstart -> vend <= KERNBASE + PHYSTOP ->
  Forall (fun v => v < vstart) l ->
  runs (freerange vstart vend) k (fun _ k' => holds k' c n H /\
    kmem_inv k' (rev (pages (PGROUNDUP vstart) vend) ++ l)).
Proof.
  intros Hk HL Hn Hi Hr He Hv Hl. apply freerange_loop; auto using NoDup_pages.
  - apply Forall_forall. intros x Hx%list_elem_of_In. by apply (pages_ok vstart vend).
  - intros v Hvp Hvl. pose proof (Forall_elem _ _ _ Hl Hvl).
    pose proof (pages_ok vstart vend v Hr He Hv Hvp). simpl in *. lia.
Qed.

(** [kalloc] hands out the page at the head of the free list and leaves
    all of memory as it was; with an empty list it returns 0.  The lock state
    is restored. *)
Theorem kalloc_pops_head k c n H l
    (Hk : holds k c n H) (HL : LKkmem ∉ H) (Hn : n < 2 ^ 30 - 2) (Hi : kmem_inv k l) :
  runs kalloc k (fun r k' => r = hd 0 l /\ kmem_inv k' (tail l) /\
    ram (k_ms k') = ram (k_ms k) /\ k_ps k' = k_ps k /\ holds k' c n H).
Proof.
  eapply wp_mono; [|apply (kalloc_holds k c n H l Hk HL Hn Hi)].
  intros r k' (Hk' & -> & Hi' & Hc). split; [done|]. split; [done|].
  rewrite (core_ms _ _ Hc), (core_ps _ _ Hc). simpl. by rewrite popped_page_ram.
Qed.

(** [kfree] of an aligned page between the end of the kernel and the top
    of physical memory that is not already free puts it at the head of the
    free list and changes no byte outside that page; any other argument
    panics with the state untouched. *)
Theorem kfree_pushes_page k c n H l v
    (Hk : holds k c n H) (HL : LKkmem ∉ H) (Hn : n < 2 ^ 30 - 2) (Hi : kmem_inv k l)
    (Hv : 0 <= v < 2 ^ 32) (Hnin : v ∉ l) :
  (page_ok v ->
   runs (kfree v) k (fun _ k' => kmem_inv k' (v :: l) /\ holds k' c n H /\ k_ps k' = k_ps k /\
     forall x, ~ (V2P v <= x < V2P v + PGSIZE) -> ld8 (ram (k_ms k')) x = ld8 (ram (k_ms k)) x)) /\
  (~ page_ok v -> kfree v k = Panic "kfree" k).
Proof.
  split; [|by apply kfree_bad]. intros Hp.
  eapply wp_mono; [|apply (kfree_holds k c n H l v Hk HL Hn Hi Hp Hnin)].
  intros _ k' (Hk' & Hi' & Hc). split; [done|]. split; [done|].
  rewrite (core_ms _ _ Hc), (core_ps _ _ Hc). split; [done|]. intros x. apply freed_outside.
Qed.

(** Freeing a page and allocating gives the same page back and the free
    list it started from. *)
Theorem kfree_kalloc_roundtrip k c n H l v
    (Hk : holds k c n H) (HL : LKkmem ∉ H) (Hn : n < 2 ^ 30 - 2) (Hi : kmem_inv k l)
    (Hp : page_ok v) (Hnin : v ∉ l) :
  runs (kfree v ;; kalloc) k (fun r k' => r = v /\ kmem_inv k' l /\ holds k' c n H).
Proof.
  unfold runs. wp_call (kfree_holds k c n H l v Hk HL Hn Hi Hp Hnin).
  intros _ k1 (Hk1 & Hi1 & _).
  eapply wp_mono; [|apply (kalloc_holds k1 c n H (v :: l) Hk1 HL Hn Hi1)].
  intros r k' (Hk' & -> & Hi' & _). done.
Qed.

(** The two initialisation phases, run one after the other over adjacent
    ranges, put every whole page of both ranges on the free list exactly once
    (a free list never repeats a page), and turn locking on. *)
Theorem kinit_frees_every_page k c n H vstart vmid vend
    (Hk : holds k c n H) (HL : LKkmem ∉ H) (Hn : n < 2 ^ 30 - 2)
    (H0 : freelist (k_ms k) = 0) (Hs : 0 <= vstart <= vmid) (He : sym_end <= vstart)
    (Hm : vmid `mod` PGSIZE = 0) (Hmid : vmid <= vend) (Hv : vend <= KERNBASE + PHYSTOP) :
  runs (kinit1 vstart vmid ;; kinit2 vmid vend) k (fun _ k' =>
    kmem_inv k' (rev (pages (PGROUNDUP vmid) vend) ++ rev (pages (PGROUNDUP vstart) vmid)) /\
    use_lock (k_ms k') = 1).
Proof.
  assert (vmid <= 2 ^ 32 - PGSIZE) as Hb by (unfold KERNBASE, PHYSTOP, PGSIZE in *; lia).
  unfold runs, kinit1, kinit2, initlock, put_lock, on_ms. kred.
  match goal with |- wp _ (res_bind (freerange _ _ ?x) _) _ => set (k1 := x) end.
  assert (holds k1 c n H) as Hk1.
  { destruct Hk as [? ? ? ? ? Hheld Hfree]. split; simpl; auto.
    - intros l Hl. rewrite lookup_insert_ne by congruence. auto.
    - intros l Hl. rewrite lookup_insert. case_decide; [done|]. auto. }
  assert (kmem_inv k1 []) as Hi1 by (split; [done|constructor|constructor]).
  wp_call (freerange_holds k1 c n H [] vstart vmid Hk1); auto; try lia.
  rewrite app_nil_r. intros _ k2 [Hk2 Hi2]. kred.
  wp_call (freerange_holds k2 c n H _ vmid vend Hk2); eauto; try lia.
  2:{ apply Forall_forall. intros x Hx%in_rev%list_elem_of_In.
      apply (pages_ok vstart vmid) in Hx; lia. }
  intros _ k3 [Hk3 [Hl3 Hd3 Hp3]]. kred. split; [by split|done].
Qed.
End KallocFacts.

(** ** Instances *)

Lemma kernel0_kmem : kmem_inv kernel0 [].
Proof. split; [done|constructor|constructor]. Qed.

Lemma page_0x80120000_ok : page_ok 0x80120000.
Proof. unfold page_ok. vm_compute. repeat split; congruence. Qed.

Lemma kalloc_pops_head_witness :
  runs kalloc kernel0 (fun r k' => r = 0 /\ kmem_inv k' [] /\ ram (k_ms k') = ∅ /\
    k_ps k' = ps0 /\ holds k' 0 0 []).
Proof.
  apply (kalloc_pops_head kernel0 0 0 [] []);
    [exact kernel0_holds|apply not_elem_of_nil|lia|exact kernel0_kmem].
Defined.

Lemma kfree_pushes_page_witness :
  runs (kfree 0x80120000) kernel0 (fun _ k' => kmem_inv k' [0x80120000] /\ holds k' 0 0 [] /\
    k_ps k' = ps0 /\
    forall x, ~ (0x120000 <= x < 0x121000) -> ld8 (ram (k_ms k')) x = 0).
Proof.
  apply (proj1 (kfree_pushes_page kernel0 0 0 [] [] 0x80120000 kernel0_holds
    (not_elem_of_nil _) ltac:(lia) kernel0_kmem ltac:(lia) (not_elem_of_nil _))).
  exact page_0x80120000_ok.
Defined.

Lemma kfree_kalloc_roundtrip_witness :
  runs (kfree 0x80120000 ;; kalloc) kernel0
    (fun r k' => r = 0x80120000 /\ kmem_inv k' [] /\ holds k' 0 0 []).
Proof.
  apply (kfree_kalloc_roundtrip kernel0 0 0 [] [] 0x80120000 kernel0_holds
    (not_elem_of_nil _) ltac:(lia) kernel0_kmem page_0x80120000_ok (not_elem_of_nil _)).
Defined.

Lemma kinit_frees_every_page_witness :
  runs (kinit1 0x80115000 0x80117000 ;; kinit2 0x80117000 0x80119abc) kernel0 (fun _ k' =>
    kmem_inv k' [0x80118000; 0x80117000; 0x80116000; 0x80115000] /\ use_lock (k_ms k') = 1).
Proof.
  apply (kinit_frees_every_page kernel0 0 0 [] 0x80115000 0x80117000 0x80119abc kernel0_holds
    (not_elem_of_nil _) ltac:(lia) eq_refl); simpl; unfold KERNBASE, PHYSTOP; try lia.
  reflexivity.
Defined.
