(* ===== verification/Vm.v ===== *)
(** * Page tables (vm.c)

    A page directory and its page tables are pages of physical memory; the
    routines here read and write their entries through the kernel's linear
    mapping.  Pointers to entries are kernel virtual addresses, 0 being the
    null pointer. *)

From S2P Require Import Prelude Params State Mem Spinlock Seg Str Cprintf Kalloc Demo.

(** The entries of [kmap]: virtual address, physical start and end, permissions. *)
(* vm.c 131-141: kmap *)
Definition kmap {LK : Linker} : list (Z * Z * Z * Z) :=
  [(KERNBASE, 0, EXTMEM, PTE_W);
   (KERNLINK, V2P KERNLINK, V2P sym_data, 0);
   (sym_data, V2P sym_data, PHYSTOP, PTE_W);
   (DEVSPACE, DEVSPACE, 0, PTE_W)].

(** The values of [i] in [for(i = 0; i < sz; i += PGSIZE)]. *)
Definition page_offsets (sz : Z) : list Z :=
  (fun i => i * PGSIZE) <$> zseq (Z.to_nat ((sz + PGSIZE - 1) / PGSIZE)).

Section Vm.
  Context {F : Type} {LK : Linker}.

(* vm.c 35-55: walkpgdir *)
Definition walkpgdir (pgdir va : Z) (alloc : bool) : M (kernel F) Z :=
  let pde := pgdir + 4 * PDX va in
  e <- kload32 pde ;;
  if nz (Z.land e PTE_P) then ret (P2V (PTE_ADDR e) + 4 * PTX va) else
  if negb alloc then ret 0 else
  pgtab <- kalloc ;;
  if pgtab =? 0 then ret 0 else
  on_ms (fun m => set_ram (memset (ram m) (V2P pgtab) 0 PGSIZE) m) ;;
  kstore32 pde (Z.lor (Z.lor (Z.lor (V2P pgtab) PTE_P) PTE_W) PTE_U) ;;
  ret (pgtab + 4 * PTX va).

(** The loops of [mappages] and [unmappages] run from page [a] to page [last],
    both included; [fuel] is the number of steps from one to the other. *)
(* vm.c 68-78: mappages *)
Fixpoint map_loop (fuel : nat) (pgdir a last pa perm : Z) : M (kernel F) Z :=
  pte <- walkpgdir pgdir a true ;;
  if pte =? 0 then ret (-1) else
  e <- kload32 pte ;;
  if nz (Z.land e PTE_P) then panic "remap" else
  kstore32 pte (Z.lor (Z.lor pa perm) PTE_P) ;;
  if a =? last then ret 0 else
  match fuel with
  | O => fun k => NoFuel k
  | S n => map_loop n pgdir (u32 (a + PGSIZE)) last (u32 (pa + PGSIZE)) perm
  end.

(* vm.c 60-80: mappages *)
Definition mappages (pgdir va size pa perm : Z) : M (kernel F) Z :=
  let a := PGROUNDDOWN va in
  let last := PGROUNDDOWN (u32 (va + size - 1)) in
  map_loop (Z.to_nat (u32 (last - a) / PGSIZE)) pgdir a last pa perm.

(* vm.c 93-105: unmappages *)
Fixpoint unmap_loop (fuel : nat) (pgdir a last : Z) : M (kernel F) Z :=
  pte <- walkpgdir pgdir a true ;;
  if pte =? 0 then ret (u32 (-1)) else
  e <- kload32 pte ;;
  let pa := PTE_ADDR e in
  if pa =? 0 then panic "unmappage/zero_address" else
  kstore32 pte 0 ;;
  if a =? last then ret (P2V_WO pa) else
  match fuel with
  | O => fun k => NoFuel k
  | S n => unmap_loop n pgdir (u32 (a + PGSIZE)) last
  end.

(* vm.c 84-106: unmappages *)
Definition unmappages (pgdir va size : Z) : M (kernel F) Z :=
  let a := PGROUNDDOWN va in
  let last := PGROUNDDOWN (u32 (va + size - 1)) in
  unmap_loop (Z.to_nat (u32 (last - a) / PGSIZE)) pgdir a last.

(** [for(; a < oldsz; a += PGSIZE)]; an absent page table skips to the next
    directory entry. *)
(* vm.c 307-320: deallocuvm *)
Fixpoint dealloc_loop (fuel : nat) (pgdir a oldsz : Z) : M (kernel F) unit :=
  if negb (a <? oldsz) then ret tt else
  match fuel with
  | O => fun k => NoFuel k
  | S n =>
      pte <- walkpgdir pgdir a false ;;
      if pte =? 0 then
        dealloc_loop n pgdir (u32 (u32 (PGADDR (PDX a + 1) 0 0 - PGSIZE) + PGSIZE)) oldsz
      else
        e <- kload32 pte ;;
        when (nz (Z.land e PTE_P))
          (let pa := PTE_ADDR e in
           if pa =? 0 then panic "deallocuvm/kfree" else
           kfree (P2V pa) ;;
           kstore32 pte 0) ;;
        dealloc_loop n pgdir (u32 (a + PGSIZE)) oldsz
  end.

(* vm.c 297-322: deallocuvm *)
Definition deallocuvm (pgdir oldsz newsz : Z) : M (kernel F) Z :=
  if newsz >=? oldsz then ret (s32 oldsz) else
  dealloc_loop (Z.to_nat (oldsz / PGSIZE + 1)) pgdir (PGROUNDUP newsz) oldsz ;;
  ret (s32 newsz).

(** [for(i = from; i < NPDENTRIES; i++)]: the page tables are freed. *)
(* vm.c 334-339: freevm *)
Definition free_tables (pgdir from : Z) : M (kernel F) unit :=
  for_all (drop (Z.to_nat from) (zseq (Z.to_nat NPDENTRIES))) (fun i =>
    e <- kload32 (pgdir + 4 * i) ;;
    when (nz (Z.land e PTE_P)) (kfree (P2V (PTE_ADDR e)))).

(* vm.c 326-341: freevm *)
Definition freevm (pgdir : Z) : M (kernel F) unit :=
  if pgdir =? 0 then panic "freevm: no pgdir" else
  deallocuvm pgdir KERNBASE 0 ;;
  free_tables pgdir 0 ;;
  kfree pgdir.

(* vm.c 345-360: freethread *)
Definition freethread (pgdir stack_beg : Z) : M (kernel F) unit :=
  if pgdir =? 0 then panic "freethread: no pgdir" else
  newsz <- deallocuvm pgdir KERNBASE (u32 (stack_beg - PGSIZE)) ;;
  free_tables pgdir (u32 newsz) ;;
  kfree pgdir.

(* vm.c 144-162: setupkvm *)
Definition setupkvm : M (kernel F) Z :=
  pgdir <- kalloc ;;
  if pgdir =? 0 then ret 0 else
  on_ms (fun m => set_ram (memset (ram m) (V2P pgdir) 0 PGSIZE) m) ;;
  if P2V PHYSTOP >? DEVSPACE then panic "PHYSTOP too high" else
  o <- for_each kmap (fun e =>
         let '(virt, phys_start, phys_end, perm) := e in
         r <- mappages pgdir virt (u32 (phys_end - phys_start)) phys_start perm ;;
         if r <? 0 then freevm pgdir ;; ret (Some 0) else ret None) ;;
  ret (default pgdir o).

(* vm.c 166-171: kvmalloc *)
Definition kvmalloc : M (kernel F) unit :=
  p <- setupkvm ;;
  on_ms (set_kpgdir p) ;;
  switchkvm.

(** [init] is the program, [sz] its length; a store through a null [mem] faults. *)
(* vm.c 208-219: inituvm *)
Definition inituvm (pgdir : Z) (init : list Z) : M (kernel F) unit :=
  if Z.of_nat (length init) >=? PGSIZE then panic "inituvm: more than a page" else
  mem <- kalloc ;;
  if mem =? 0 then fault else
  on_ms (fun m => set_ram (memset (ram m) (V2P mem) 0 PGSIZE) m) ;;
  mappages pgdir 0 PGSIZE (V2P mem) (Z.lor PTE_W PTE_U) ;;
  kstore mem init.

(* vm.c 258-273: allocuvm *)
Fixpoint alloc_loop (fuel : nat) (pgdir a oldsz newsz : Z) : M (kernel F) Z :=
  if negb (a <? newsz) then ret (s32 newsz) else
  match fuel with
  | O => fun k => NoFuel k
  | S n =>
      mem <- kalloc ;;
      if mem =? 0 then
        cprintf ("allocuvm out of memory" ++ nl) [] ;;
        deallocuvm pgdir newsz oldsz ;;
        ret 0
      else
      on_ms (fun m => set_ram (memset (ram m) (V2P mem) 0 PGSIZE) m) ;;
      r <- mappages pgdir a PGSIZE (V2P mem) (Z.lor PTE_W PTE_U) ;;
      if r <? 0 then
        cprintf ("allocuvm out of memory (2)" ++ nl) [] ;;
        deallocuvm pgdir newsz oldsz ;;
        kfree mem ;;
        ret 0
      else alloc_loop n pgdir (u32 (a + PGSIZE)) oldsz newsz
  end.

(* vm.c 247-275: allocuvm *)
Definition allocuvm (pgdir oldsz newsz : Z) : M (kernel F) Z :=
  if newsz >=? KERNBASE then ret 0 else
  if newsz <? oldsz then ret (s32 oldsz) else
  alloc_loop (Z.to_nat (newsz / PGSIZE + 1)) pgdir (PGROUNDUP oldsz) oldsz newsz.

(* vm.c 280-291: palloc *)
Definition palloc (pgdir loc : Z) : M (kernel F) Z :=
  mem <- kalloc ;;
  let loc := PGROUNDDOWN loc in
  if mem =? 0 then cprintf ("palloc out of memory" ++ nl) [] ;; ret 0 else
  mappages pgdir loc PGSIZE (V2P mem) (Z.lor PTE_W PTE_U) ;;
  ret loc.

(* vm.c 364-373: clearpteu *)
Definition clearpteu (pgdir uva : Z) : M (kernel F) unit :=
  pte <- walkpgdir pgdir uva false ;;
  if pte =? 0 then panic "clearpteu" else
  e <- kload32 pte ;;
  kstore32 pte (Z.land e (Z.lnot PTE_U)).

(** One page is copied; [Some tt] is [goto bad]. *)
(* vm.c 388-401: copyuvm *)
Definition copy_page (pgdir d i : Z) : M (kernel F) (option unit) :=
  pte <- walkpgdir pgdir i false ;;
  if pte =? 0 then panic "copyuvm: pte should exist" else
  e <- kload32 pte ;;
  if negb (nz (Z.land e PTE_P)) then panic "copyuvm: page not present" else
  let pa := PTE_ADDR e in
  let flags := PTE_FLAGS e in
  mem <- kalloc ;;
  if mem =? 0 then ret (Some tt) else
  on_ms (fun m => set_ram (memmove (ram m) (V2P mem) pa PGSIZE) m) ;;
  r <- mappages d i PGSIZE (V2P mem) flags ;;
  if r <? 0 then kfree mem ;; ret (Some tt) else ret None.

(* vm.c 377-407: copyuvm *)
Definition copyuvm (pgdir sz : Z) : M (kernel F) Z :=
  d <- setupkvm ;;
  if d =? 0 then ret 0 else
  bad <- for_each (page_offsets sz) (copy_page pgdir d) ;;
  match bad with
  | None => ret d
  | Some _ => freevm d ;; ret 0
  end.

(** The words of the new stack page are relocated and copied to the address
    [i] the stack has in the new address space, as seen in the current one. *)
(* vm.c 442-449: linkuvm *)
Definition relocate_stack (spage stack sz i : Z) : M (kernel F) unit :=
  for_all ((fun n => stack - spage + 4 * n) <$> zseq (Z.to_nat ((PGSIZE - (stack - spage) + 3) / 4)))
    (fun j =>
       tmp <- uload32 (spage + j) ;;
       tmp <- (if (tmp >? sz) && (tmp <? u32 (sz + PGSIZE)) then
                 let tmp := u32 (tmp + (i - sz)) in
                 ustore32 (spage + j) tmp ;; ret tmp
               else ret tmp) ;;
       ustore32 (i + j) tmp).

(** The loop body's outcomes: fall through, [goto bad] or [break]. *)
(* vm.c 423-451: linkuvm *)
Definition link_page (pgdir sz orig_stack_beg stack d i : Z) : M (kernel F) (option bool) :=
  let spage := PGROUNDDOWN stack in
  pte <- walkpgdir pgdir i false ;;
  if pte =? 0 then panic "linkuvm: pte should exist" else
  e <- kload32 pte ;;
  if negb (nz (Z.land e PTE_P)) then panic "linkuvm: page not present" else
  let pa := PTE_ADDR e in
  let flags := PTE_FLAGS e in
  if i <? u32 (orig_stack_beg - PGSIZE) then
    r <- mappages d i PGSIZE pa flags ;;
    ret (if r <? 0 then Some true else None)
  else if i <? orig_stack_beg then
    mem <- kalloc ;;
    if mem =? 0 then ret (Some true) else
    r <- mappages d i PGSIZE (V2P mem) PTE_W ;;
    if r <? 0 then kfree mem ;; ret (Some true) else ret None
  else
    r <- mappages d i PGSIZE (V2P spage) (Z.lor PTE_W PTE_U) ;;
    if r <? 0 then ret (Some true) else
    relocate_stack spage stack sz i ;;
    ret (Some false).

(* vm.c 411-458: linkuvm *)
Definition linkuvm (pgdir sz orig_stack_beg stack : Z) : M (kernel F) Z :=
  d <- setupkvm ;;
  if d =? 0 then ret 0 else
  o <- for_each (page_offsets sz) (link_page pgdir sz orig_stack_beg stack d) ;;
  match o with
  | Some true => freevm d ;; ret 0
  | _ => ret d
  end.

(** A null entry pointer is dereferenced: the word at virtual address 0 of the
    current address space is read. *)
(* vm.c 462-473: uva2ka *)
Definition uva2ka (pgdir uva : Z) : M (kernel F) Z :=
  pte <- walkpgdir pgdir uva false ;;
  e <- (if pte =? 0 then uload32 0 else kload32 pte) ;;
  if Z.land e PTE_P =? 0 then ret 0 else
  if Z.land e PTE_U =? 0 then ret 0 else
  ret (P2V (PTE_ADDR e)).

(** [buf] are the [len] bytes at [p]. *)
(* vm.c 485-497: copyout *)
Fixpoint copyout_loop (fuel : nat) (pgdir va : Z) (buf : list Z) : M (kernel F) Z :=
  match buf, fuel with
  | [], _ => ret 0
  | _, O => fun k => NoFuel k
  | _, S f =>
      let va0 := PGROUNDDOWN va in
      pa0 <- uva2ka pgdir va0 ;;
      if pa0 =? 0 then ret (-1) else
      let n := Z.to_nat (Z.min (PGSIZE - (va - va0)) (Z.of_nat (length buf))) in
      kstore (pa0 + (va - va0)) (take n buf) ;;
      copyout_loop f pgdir (u32 (va0 + PGSIZE)) (drop n buf)
  end.

(* vm.c 478-499: copyout *)
Definition copyout (pgdir va : Z) (buf : list Z) : M (kernel F) Z :=
  copyout_loop (length buf) pgdir va buf.

End Vm.
