(* ===== verification/VmSpec.v ===== *)
(** * Correctness of page-table operations (vm.c)

    A page directory [d] with its page tables [T] is a partial map from virtual
    pages to entries, [pte0]; it is what the MMU sees ([translate_pte0]).
    [vm_inv] says that directory and tables are separate pages of kernel memory,
    apart from the free pages, and that no table is used twice.  The operations
    are described by their effect on [pte0], on the tables and on the free
    list; all of memory outside the tables is unchanged. *)

From S2P Require Import Prelude Params State Mem Spinlock Seg Str Cprintf Kalloc Vm Demo.

(** ** Entries *)

Definition present (e : Z) : bool := nz (Z.land e PTE_P).

Lemma present_odd e : present e = Z.odd e.
Proof.
  unfold present, nz, PTE_P. pose proof (land_bit_testbit e 0 ltac:(lia)) as H.
  change (2 ^ 0) with 1 in H. by rewrite H, negb_involutive, Z.bit0_odd.
Qed.

Lemma present_frame a f : a `mod` PGSIZE = 0 -> present (a + f) = present f.
Proof.
  intros Ha. rewrite !present_odd, Z.odd_add. unfold PGSIZE in Ha.
  replace (Z.odd a) with false; [by destruct (Z.odd f)|]. symmetry. rewrite Zodd_mod.
  replace (a `mod` 2) with 0; [done|]. pose proof (Z.div_mod a 4096).
  replace a with (a / 4096 * 2048 * 2) by lia. by rewrite Z.mod_mul.
Qed.

Lemma PTE_ADDR_frame a f :
  0 <= a -> a + PGSIZE <= 2 ^ 32 -> a `mod` PGSIZE = 0 -> 0 <= f < PGSIZE -> PTE_ADDR (a + f) = a.
Proof.
  unfold PGSIZE. intros H0 H1 Ha Hf. rewrite PTE_ADDR_spec by lia. unfold PGSIZE.
  rewrite Zplus_mod, Ha, Z.add_0_l, Zmod_mod, (Z.mod_small f) by lia. lia.
Qed.

(** The entry written for a frame and its flags. *)
Lemma lor_P_range f : 0 <= f < PGSIZE -> 0 <= Z.lor f PTE_P < PGSIZE.
Proof.
  intros Hf. unfold PTE_P, PGSIZE in *. assert (0 <= Z.lor f 1) by (apply Z.lor_nonneg; lia).
  split; [done|]. destruct (decide (f = 0)) as [->|]; [done|].
  change 4096 with (2 ^ 12). apply Z.log2_lt_pow2.
  - assert (Z.lor f 1 <> 0) by (rewrite Z.lor_eq_0_iff; lia). lia.
  - rewrite Z.log2_lor by lia. apply Z.max_lub_lt; [|done]. apply Z.log2_lt_pow2; lia.
Qed.

Lemma entry_frame a f :
  a `mod` PGSIZE = 0 -> 0 <= f < PGSIZE -> Z.lor (Z.lor a f) PTE_P = a + Z.lor f PTE_P.
Proof. intros Ha Hf. rewrite <- Z.lor_assoc. apply PTE_lor; [done|]. by apply lor_P_range. Qed.

Lemma present_lor_P f : present (Z.lor f PTE_P) = true.
Proof.
  rewrite present_odd, <- Z.bit0_odd. unfold PTE_P. by rewrite Z.lor_spec, orb_true_r.
Qed.

Lemma PDX_range va : 0 <= va < 2 ^ 32 -> 0 <= PDX va < 1024.
Proof.
  intros H. rewrite PDX_spec by done. split; [apply Z.div_pos; lia|]. apply Z.div_lt_upper_bound; lia.
Qed.

Lemma PTX_range va : 0 <= va < 2 ^ 32 -> 0 <= PTX va < 1024.
Proof. intros H. rewrite PTX_spec by done. apply Z.mod_pos_bound. lia. Qed.

(** Directory and table index determine the page. *)
Lemma page_of_indices a b :
  0 <= a < 2 ^ 32 -> 0 <= b < 2 ^ 32 -> PDX a = PDX b -> PTX a = PTX b -> a / PGSIZE = b / PGSIZE.
Proof.
  intros Ha Hb. rewrite !PDX_spec, !PTX_spec by done. unfold PGSIZE. intros H1 H2.
  replace (2 ^ 22) with (2 ^ 12 * 1024) in H1 by done. rewrite <- !Z.div_div in H1 by lia.
  change 4096 with (2 ^ 12). pose proof (Z.div_mod (a / 2 ^ 12) 1024).
  pose proof (Z.div_mod (b / 2 ^ 12) 1024). lia.
Qed.

(** ** Page tables as a map *)

Definition pde_at (m : gmap Z Z) (d i : Z) : Z := ld32 m (V2P d + 4 * i).

(** The entry for [va], 0 when there is no page table for it. *)
Definition pte0 (m : gmap Z Z) (d va : Z) : Z :=
  let e := pde_at m d (PDX va) in
  if present e then ld32 m (PTE_ADDR e + 4 * PTX va) else 0.

Section VmSpec.
  Context {F : Type} {LK : Linker} {LKO : LinkerOk}.
  Implicit Types (k : kernel F).

Lemma V2P_off d o : page_ok d -> 0 <= o < PGSIZE -> V2P (d + o) = V2P d + o.
Proof.
  intros Hd Ho. destruct (page_ok_V2P d Hd) as [-> Hr]. destruct Hd as (Ha & Hlt & Hp).
  unfold V2P. rewrite u32_small; [lia|]. unfold KERNBASE, PGSIZE in *.
  pose proof (Z.div_mod d 4096). lia.
Qed.

Lemma page_frame d : page_ok d -> 0 <= V2P d /\ V2P d + PGSIZE <= 2 ^ 32 /\ V2P d + PGSIZE <= PHYSTOP.
Proof.
  intros Hd. pose proof (page_ok_aligned d Hd) as Ha. destruct (page_ok_V2P d Hd) as [E Hr].
  destruct Hd as (_ & _ & Hp). rewrite E in *. unfold KERNBASE, PHYSTOP, PGSIZE in *.
  pose proof (Z.div_mod (d - 0x80000000) 4096). lia.
Qed.

Lemma P2V_V2P d : page_ok d -> P2V (V2P d) = d.
Proof.
  intros Hd. destruct (page_ok_V2P d Hd) as [-> Hr]. unfold P2V. rewrite u32_small; [lia|].
  unfold KERNBASE in *. lia.
Qed.

(** What the MMU does with the directory. *)
Lemma translate_pte0 m d va w :
  page_ok d -> 0 <= va < 2 ^ 32 ->
  translate m (V2P d) va w =
    let e := pte0 m d va in
    if present e && (negb w || nz (Z.land e PTE_W)) then Some (PTE_ADDR e + va `mod` PGSIZE) else None.
Proof.
  intros Hd Hva. unfold translate, pte_of, pte0, pde_at. pose proof (page_frame d Hd).
  pose proof (PDX_range va Hva). rewrite PTE_ADDR_spec, (page_ok_aligned d Hd), Z.sub_0_r by (unfold PGSIZE in *; lia).
  rewrite u32_small by (unfold PGSIZE in *; lia). unfold present.
  destruct (nz (Z.land (ld32 _ _) PTE_P)); done.
Qed.

Record vm_inv (k : kernel F) (d : Z) (T fl : list Z) : Prop := {
  vi_kmem : kmem_inv k fl;
  vi_bytes : bytes_ok (ram (k_ms k));
  vi_dir : page_ok d;
  vi_tables : Forall page_ok T;
  vi_nodup : NoDup (d :: T ++ fl);
  vi_used : forall i, 0 <= i < 1024 -> present (pde_at (ram (k_ms k)) d i) = true ->
    exists t, t ∈ T /\ PTE_ADDR (pde_at (ram (k_ms k)) d i) = V2P t;
  vi_once : forall i j, 0 <= i < 1024 -> 0 <= j < 1024 ->
    present (pde_at (ram (k_ms k)) d i) = true -> present (pde_at (ram (k_ms k)) d j) = true ->
    PTE_ADDR (pde_at (ram (k_ms k)) d i) = PTE_ADDR (pde_at (ram (k_ms k)) d j) -> i = j;
  vi_all : forall t, t ∈ T -> exists i, 0 <= i < 1024 /\
    present (pde_at (ram (k_ms k)) d i) = true /\ PTE_ADDR (pde_at (ram (k_ms k)) d i) = V2P t
}.

(** Memory outside the given pages is the same. *)
Definition same_outside (P : list Z) (m m' : gmap Z Z) : Prop :=
  forall x, (forall p, p ∈ P -> ~ (V2P p <= x < V2P p + PGSIZE)) -> ld8 m' x = ld8 m x.

Lemma same_outside_trans P Q m1 m2 m3 :
  same_outside P m1 m2 -> same_outside Q m2 m3 -> same_outside (P ++ Q) m1 m3.
Proof.
  intros H1 H2 x Hx. rewrite H2, H1; [done|..]; intros p Hp; apply Hx, elem_of_app; auto.
Qed.

Lemma same_outside_weaken P Q m m' :
  (forall p, p ∈ P -> p ∈ Q) -> same_outside P m m' -> same_outside Q m m'.
Proof. intros HPQ H x Hx. apply H. auto. Qed.

Definition in_page (p x : Z) : Prop := V2P p <= x < V2P p + PGSIZE.

Lemma pages_apart p q x : page_ok p -> page_ok q -> p <> q -> in_page p x -> ~ in_page q x.
Proof. unfold in_page. intros Hp Hq Hne Hx. pose proof (page_disjoint p q Hp Hq Hne). lia. Qed.

Lemma V2P_inj p q : page_ok p -> page_ok q -> V2P p = V2P q -> p = q.
Proof. intros Hp Hq. destruct (page_ok_V2P p Hp) as [-> _], (page_ok_V2P q Hq) as [-> _]. lia. Qed.

(** Words of a page change only with the page. *)
Lemma ld32_in_page p m m' o :
  (forall x, in_page p x -> ld8 m' x = ld8 m x) -> 0 <= o -> o + 4 <= PGSIZE ->
  ld32 m' (V2P p + o) = ld32 m (V2P p + o).
Proof. intros H H0 Ho. apply ld32_ext. intros x Hx. apply H. unfold in_page. lia. Qed.

Lemma pde_at_same m m' d i :
  (forall x, in_page d x -> ld8 m' x = ld8 m x) -> 0 <= i < 1024 -> pde_at m' d i = pde_at m d i.
Proof. intros H Hi. apply ld32_in_page; [done|lia|unfold PGSIZE; lia]. Qed.

Lemma kmem_same k k' l :
  kmem_inv k l -> freelist (k_ms k') = freelist (k_ms k) ->
  (forall p x, p ∈ l -> in_page p x -> ld8 (ram (k_ms k')) x = ld8 (ram (k_ms k)) x) -> kmem_inv k' l.
Proof.
  intros [Hl Hn Hp] Hf Hx. split; [|done|done]. rewrite Hf. revert Hl. apply flist_ext. intros a Ha.
  rewrite <- (Z.add_0_r (V2P a)). apply ld32_in_page; [|lia|unfold PGSIZE; lia]. intros x. by apply Hx.
Qed.

(** The invariant depends on the directory and the free pages only. *)
Lemma vm_inv_same k k' d T fl :
  vm_inv k d T fl -> freelist (k_ms k') = freelist (k_ms k) -> bytes_ok (ram (k_ms k')) ->
  (forall p x, p ∈ d :: fl -> in_page p x -> ld8 (ram (k_ms k')) x = ld8 (ram (k_ms k)) x) ->
  vm_inv k' d T fl.
Proof.
  intros [Hk Hb Hd HT Hn Hu Ho Ha] Hf Hb' Hx.
  assert (forall i, 0 <= i < 1024 -> pde_at (ram (k_ms k')) d i = pde_at (ram (k_ms k)) d i) as E.
  { intros i Hi. apply pde_at_same; [|done]. intros x. apply Hx. left. }
  split; auto.
  - apply (kmem_same k); [done|done|]. intros p x Hp. apply Hx. by right.
  - intros i Hi. rewrite E by done. auto.
  - intros i j Hi Hj. rewrite !E by done. auto.
  - intros t Ht. destruct (Ha t Ht) as (i & Hi & Hp). exists i. split; [done|]. by rewrite E.
Qed.

Section Inv.
  Context (k : kernel F) (d : Z) (T fl : list Z) (HI : vm_inv k d T fl).
Let m := ram (k_ms k).

Lemma table_page t : t ∈ T -> page_ok t /\ t <> d /\ t ∉ fl.
Proof.
  intros Ht. split; [apply (Forall_elem _ _ _ (vi_tables _ _ _ _ HI) Ht)|].
  pose proof (vi_nodup _ _ _ _ HI) as Hn. apply list.NoDup_cons in Hn as [Hd Hn].
  apply list.NoDup_app in Hn as (_ & Hn & _). split; [|by apply Hn].
  intros ->. apply Hd, elem_of_app. by left.
Qed.

Lemma free_page a : a ∈ fl -> page_ok a /\ a <> d /\ a ∉ T.
Proof.
  intros Ha. split; [apply (Forall_elem _ _ _ (km_pages _ _ (vi_kmem _ _ _ _ HI)) Ha)|].
  pose proof (vi_nodup _ _ _ _ HI) as Hn. apply list.NoDup_cons in Hn as [Hd Hn].
  apply list.NoDup_app in Hn as (_ & Hn & _). split; [|intros HT; by apply (Hn a)].
  intros ->. apply Hd, elem_of_app. by right.
Qed.

(** The entry for [va] when its table is [t]. *)
Lemma pte0_table va t :
  0 <= va < 2 ^ 32 -> present (pde_at m d (PDX va)) = true -> PTE_ADDR (pde_at m d (PDX va)) = V2P t ->
  pte0 m d va = ld32 m (V2P t + 4 * PTX va).
Proof. intros Hva Hp Ht. unfold pte0. by rewrite Hp, Ht. Qed.

(** Storing an entry. *)
Lemma set_pte va t v k' :
  0 <= va < 2 ^ 32 -> t ∈ T -> present (pde_at m d (PDX va)) = true ->
  PTE_ADDR (pde_at m d (PDX va)) = V2P t ->
  k_ms k' = set_ram (st32 m (V2P t + 4 * PTX va) v) (k_ms k) ->
  vm_inv k' d T fl /\
  (forall va', 0 <= va' < 2 ^ 32 -> pte0 (ram (k_ms k')) d va' =
     if decide (va' / PGSIZE = va / PGSIZE) then u32 v else pte0 m d va') /\
  same_outside T m (ram (k_ms k')).
Proof.
  intros Hva Ht Hp Hta Hms. destruct (table_page t Ht) as (Pt & Htd & Htf).
  pose proof (PTX_range va Hva) as HX. pose proof (vi_dir _ _ _ _ HI) as Pd.
  assert (forall x, ~ in_page t x -> ld8 (ram (k_ms k')) x = ld8 m x) as Hout.
  { intros x Hx. rewrite Hms. simpl. apply ld8_st32_out. unfold in_page, PGSIZE in Hx. lia. }
  assert (forall i, 0 <= i < 1024 -> pde_at (ram (k_ms k')) d i = pde_at m d i) as Epde.
  { intros i Hi. apply pde_at_same; [|done]. intros x Hx. apply Hout.
    apply (pages_apart d t x); auto. }
  split; [|split].
  - apply (vm_inv_same k); auto.
    + by rewrite Hms.
    + rewrite Hms. apply bytes_ok_st32, (vi_bytes _ _ _ _ HI).
    + intros p x Hpf Hx. apply Hout. apply elem_of_cons in Hpf as [->|Hpf].
      * apply (pages_apart d t x); auto.
      * apply (pages_apart p t x); auto; [apply (free_page p Hpf)|congruence].
  - intros va' Hva'. unfold pte0. rewrite Epde by (by apply PDX_range).
    destruct (decide (PDX va' = PDX va)) as [ED|ED].
    + rewrite ED, Hp, Hta, Hms. simpl. destruct (decide (PTX va' = PTX va)) as [EX|EX].
      * rewrite EX, ld32_st32_same. by rewrite decide_True by (by apply page_of_indices).
      * rewrite ld32_st32_out by (pose proof (PTX_range va' Hva'); lia).
        rewrite decide_False; [done|]. intros E. apply EX. rewrite !PTX_spec by done.
        unfold PGSIZE in E. change (2 ^ 12) with 4096. by rewrite E.
    + rewrite decide_False.
      2:{ intros E. apply ED. rewrite !PDX_spec by done. unfold PGSIZE in E.
          change (2 ^ 22) with (4096 * 1024). rewrite <- !Z.div_div by lia. by rewrite E. }
      destruct (present (pde_at m d (PDX va'))) eqn:Ep'; [|done].
      destruct (vi_used _ _ _ _ HI (PDX va') (PDX_range _ Hva') Ep') as (t' & Ht' & Et').
      fold m in Et'. rewrite Et'. destruct (table_page t' Ht') as (Pt' & _ & _).
      pose proof (PTX_range va' Hva'). apply ld32_in_page; [|lia|unfold PGSIZE; lia].
      intros x Hx. apply Hout. apply (pages_apart t' t x); auto. intros ->. apply ED.
      apply (vi_once _ _ _ _ HI); auto using PDX_range. fold m. congruence.
  - intros x Hx. apply Hout. intros H. apply (Hx t Ht). exact H.
Qed.

End Inv.

(** ** Finding an entry *)

Lemma walk_present k d T fl va al :
  vm_inv k d T fl -> 0 <= va < 2 ^ 32 -> present (pde_at (ram (k_ms k)) d (PDX va)) = true ->
  exists t, t ∈ T /\ PTE_ADDR (pde_at (ram (k_ms k)) d (PDX va)) = V2P t /\
    walkpgdir d va al k = Done (t + 4 * PTX va) k.
Proof.
  intros HI Hva Hp. pose proof (PDX_range va Hva). pose proof (vi_dir _ _ _ _ HI) as Pd.
  destruct (vi_used _ _ _ _ HI (PDX va) ltac:(done) Hp) as (t & Ht & Et). exists t.
  split; [done|]. split; [done|]. unfold walkpgdir, kload32. kred.
  rewrite V2P_off by (done || unfold PGSIZE; lia). fold (pde_at (ram (k_ms k)) d (PDX va)).
  fold (present (pde_at (ram (k_ms k)) d (PDX va))). rewrite Hp, Et, P2V_V2P; [done|].
  by apply (table_page k d T fl).
Qed.

Lemma walk_absent k d T fl va :
  vm_inv k d T fl -> 0 <= va < 2 ^ 32 -> present (pde_at (ram (k_ms k)) d (PDX va)) = false ->
  walkpgdir d va false k = Done 0 k.
Proof.
  intros HI Hva Hp. pose proof (PDX_range va Hva). pose proof (vi_dir _ _ _ _ HI) as Pd.
  unfold walkpgdir, kload32. kred.
  rewrite V2P_off by (done || unfold PGSIZE; lia). fold (pde_at (ram (k_ms k)) d (PDX va)).
  fold (present (pde_at (ram (k_ms k)) d (PDX va))). by rewrite Hp.
Qed.

(** A new table: zeroed, and entered in the directory. *)
Definition with_table (m : gmap Z Z) (d a i : Z) : gmap Z Z :=
  st32 (memset m (V2P a) 0 PGSIZE) (V2P d + 4 * i) (V2P a + 7).

Section NewTable.
  Context (k k' : kernel F) (d a : Z) (T fl : list Z) (i : Z).
  Hypothesis (HI : vm_inv k d T (a :: fl)) (Hi : 0 <= i < 1024).
  Hypothesis (Hp : present (pde_at (ram (k_ms k)) d i) = false).
  Hypothesis (Hram : ram (k_ms k') = with_table (ram (k_ms k)) d a i).
  Hypothesis (Hfl : freelist (k_ms k') = ld32 (ram (k_ms k)) (V2P a)).
Let m := ram (k_ms k).
Let m' := ram (k_ms k').

Lemma new_page : page_ok a /\ a <> d /\ (a ∉ T) /\ a ∉ fl.
Proof.
  destruct (free_page _ _ _ _ HI a) as (? & ? & ?); [left|]. split; [done|]. split; [done|]. split; [done|].
  pose proof (km_nodup _ _ (vi_kmem _ _ _ _ HI)) as Hn. by apply list.NoDup_cons in Hn as [? _].
Qed.

Lemma new_outside x : ~ in_page a x -> ~ in_page d x -> ld8 m' x = ld8 m x.
Proof.
  intros Ha Hd. unfold m'. rewrite Hram. unfold with_table.
  rewrite ld8_st32_out by (unfold in_page, PGSIZE in Hd; lia).
  rewrite ld8_memset by done. by rewrite decide_False.
Qed.

Lemma new_zero x : in_page a x -> ld8 m' x = 0.
Proof.
  intros Hx. destruct new_page as (Pa & Hne & _). pose proof (vi_dir _ _ _ _ HI) as Pd.
  pose proof (pages_apart a d x Pa Pd Hne Hx) as Hd. unfold m'. rewrite Hram. unfold with_table.
  rewrite ld8_st32_out by (unfold in_page, PGSIZE in Hd; lia).
  rewrite ld8_memset by done. by rewrite decide_True.
Qed.

Lemma new_pde j : 0 <= j < 1024 -> pde_at m' d j = if decide (j = i) then V2P a + 7 else pde_at m d j.
Proof.
  intros Hj. destruct new_page as (Pa & Hne & _). pose proof (vi_dir _ _ _ _ HI) as Pd.
  pose proof (page_frame a Pa). unfold pde_at, m'. rewrite Hram. unfold with_table. case_decide as E.
  - subst j. rewrite ld32_st32_same. apply u32_small. unfold PGSIZE in *. lia.
  - rewrite ld32_st32_out by lia. apply ld32_ext. intros x Hx. rewrite ld8_memset by done.
    rewrite decide_False; [done|]. apply (pages_apart d a x); [done|done|congruence|].
    unfold in_page, PGSIZE. lia.
Qed.

Lemma new_entry : present (V2P a + 7) = true /\ PTE_ADDR (V2P a + 7) = V2P a.
Proof.
  destruct new_page as (Pa & _). pose proof (page_frame a Pa). pose proof (page_ok_aligned a Pa).
  rewrite present_frame by done. split; [done|]. apply PTE_ADDR_frame; try done; lia.
Qed.

Lemma new_inv : vm_inv k' d (a :: T) fl.
Proof.
  destruct new_page as (Pa & Hne & HaT & Hafl). destruct new_entry as [He1 He2].
  pose proof (vi_dir _ _ _ _ HI) as Pd. pose proof (vi_kmem _ _ _ _ HI) as [Hl Hnd Hpg].
  apply list.NoDup_cons in Hnd as [_ Hnd]. apply Forall_cons_1 in Hpg as [_ Hpg].
  assert (forall t, t ∈ T -> V2P t <> V2P a) as Hta.
  { intros t Ht E. apply HaT. rewrite <- (V2P_inj t a); auto. by apply (table_page _ _ _ _ HI). }
  split; auto.
  - split; [|done|done]. destruct Hl as [_ Hl]. fold m in Hl. rewrite Hfl. fold m. revert Hl.
    apply flist_ext. intros b Hb. rewrite <- (Z.add_0_r (V2P b)).
    destruct (free_page _ _ _ _ HI b) as (Pb & Hbd & _); [by right|].
    apply ld32_in_page; [|lia|unfold PGSIZE; lia]. intros x Hx. apply new_outside.
    + apply (pages_apart b a x); auto. congruence.
    + apply (pages_apart b d x); auto.
  - fold m'. intros x. destruct (decide (in_page a x)) as [Hx|Hx].
    + rewrite new_zero by done. lia.
    + pose proof (vi_bytes _ _ _ _ HI). unfold m'. rewrite Hram. apply bytes_ok_st32. intros y.
      rewrite ld8_memset by done. case_decide; [done|]. auto.
  - constructor; [done|]. apply (vi_tables _ _ _ _ HI).
  - pose proof (vi_nodup _ _ _ _ HI) as Hn. by rewrite <- Permutation_middle in Hn.
  - fold m'. intros j Hj. rewrite new_pde by done. case_decide as E.
    + intros _. exists a. split; [left|done].
    + intros Hj'. destruct (vi_used _ _ _ _ HI j Hj Hj') as (t & Ht & Et). exists t. split; [by right|done].
  - fold m'. intros j1 j2 H1 H2. rewrite !new_pde by done. repeat case_decide; try congruence.
    + intros _ Hj'. destruct (vi_used _ _ _ _ HI j2 H2 Hj') as (t & Ht & Et). fold m in Et.
      rewrite He2, Et. intros E. by destruct (Hta t Ht).
    + intros Hj' _. destruct (vi_used _ _ _ _ HI j1 H1 Hj') as (t & Ht & Et). fold m in Et.
      rewrite He2, Et. intros E. by destruct (Hta t Ht).
    + apply (vi_once _ _ _ _ HI); auto.
  - fold m'. intros t Ht. apply elem_of_cons in Ht as [->|Ht].
    + exists i. rewrite new_pde, decide_True by done. done.
    + destruct (vi_all _ _ _ _ HI t Ht) as (j & Hj & Hpj & Ej). exists j. split; [done|].
      rewrite new_pde, decide_False by (done || congruence). done.
Qed.

Lemma new_pte0 va : 0 <= va < 2 ^ 32 -> pte0 m' d va = pte0 m d va.
Proof.
  intros Hva. destruct new_page as (Pa & Hne & HaT & Hafl). destruct new_entry as [He1 He2].
  pose proof (PTX_range va Hva). unfold pte0. rewrite new_pde by (by apply PDX_range).
  case_decide as E.
  - rewrite E, He1, He2. fold m in Hp. rewrite Hp.
    replace 0 with (ld32 ∅ (V2P a + 4 * PTX va)) by done. apply ld32_ext. intros x Hx.
    rewrite new_zero; [done|]. unfold in_page, PGSIZE. lia.
  - destruct (present (pde_at m d (PDX va))) eqn:Ep; [|done].
    destruct (vi_used _ _ _ _ HI (PDX va) (PDX_range _ Hva) Ep) as (t & Ht & Et). fold m in Et.
    destruct (table_page _ _ _ _ HI t Ht) as (Pt & Htd & _).
    rewrite Et. apply ld32_in_page; [|lia|unfold PGSIZE; lia]. intros x Hx. apply new_outside.
    + apply (pages_apart t a x); auto. congruence.
    + apply (pages_apart t d x); auto. apply (vi_dir _ _ _ _ HI).
Qed.

End NewTable.

(** Only memory and the free list change. *)
Definition ms_only (k k' : kernel F) : Prop :=
  core k' = core (set_k_ms (set_freelist (freelist (k_ms k')) (set_ram (ram (k_ms k')) (k_ms k))) k).

Lemma ms_only_refl k : ms_only k k.
Proof. unfold ms_only. f_equal. by destruct k as [? ? ? ? [] ? ?]. Qed.

Lemma ms_only_trans k1 k2 k3 : ms_only k1 k2 -> ms_only k2 k3 -> ms_only k1 k3.
Proof.
  unfold ms_only. intros H1 H2. rewrite H2. rewrite !core_set_ms. rewrite H1. rewrite !core_set_ms.
  rewrite (core_ms _ _ H1). done.
Qed.

Lemma ms_only_set k mm : use_lock mm = use_lock (k_ms k) -> kpgdir mm = kpgdir (k_ms k) ->
  ms_only k (set_k_ms mm k).
Proof. intros H1 H2. unfold ms_only. do 2 f_equal. destruct mm. simpl in *. by subst. Qed.

Lemma ms_only_core k k1 k2 : ms_only k k1 -> core k2 = core k1 -> ms_only k k2.
Proof. unfold ms_only. intros H1 H2. rewrite (core_ms _ _ H2). congruence. Qed.

(** Pages move from the front of the free list to the tables. *)
Definition grown (T fl T' fl' : list Z) : Prop := exists N, fl = N ++ fl' /\ T' ≡ₚ N ++ T.

Lemma grown_refl T fl : grown T fl T fl.
Proof. by exists []. Qed.

Lemma grown_trans T1 f1 T2 f2 T3 f3 : grown T1 f1 T2 f2 -> grown T2 f2 T3 f3 -> grown T1 f1 T3 f3.
Proof.
  intros (N1 & -> & H1) (N2 & -> & H2). exists (N1 ++ N2). split; [by rewrite app_assoc|].
  rewrite H2, H1, !app_assoc. by rewrite (Permutation_app_comm N2 N1).
Qed.

Lemma grown_sub T fl T' fl' t : grown T fl T' fl' -> t ∈ T -> t ∈ T'.
Proof. intros (N & _ & ->) Ht. apply elem_of_app. by right. Qed.

Lemma walk_alloc k c n H d T fl va :
  holds k c n H -> LKkmem ∉ H -> n < 2 ^ 30 - 2 -> vm_inv k d T fl -> 0 <= va < 2 ^ 32 ->
  runs (walkpgdir d va true) k (fun r k' => holds k' c n H /\ ms_only k k' /\
    (r = 0 /\ fl = [] /\ vm_inv k' d T [] /\ ram (k_ms k') = ram (k_ms k) \/
     exists t T' fl', r = t + 4 * PTX va /\ t ∈ T' /\ vm_inv k' d T' fl' /\ grown T fl T' fl' /\
       present (pde_at (ram (k_ms k')) d (PDX va)) = true /\
       PTE_ADDR (pde_at (ram (k_ms k')) d (PDX va)) = V2P t /\
       (forall va', 0 <= va' < 2 ^ 32 -> pte0 (ram (k_ms k')) d va' = pte0 (ram (k_ms k)) d va') /\
       same_outside (d :: T') (ram (k_ms k)) (ram (k_ms k')))).
Proof.
  intros Hk HL Hn HI Hva. pose proof (PDX_range va Hva). pose proof (vi_dir _ _ _ _ HI) as Pd.
  destruct (present (pde_at (ram (k_ms k)) d (PDX va))) eqn:Ep.
  { destruct (walk_present k d T fl va true HI Hva Ep) as (t & Ht & Et & Ew).
    unfold runs. rewrite Ew. split; [done|]. split; [apply ms_only_refl|]. right.
    exists t, T, fl. split; [done|]. split; [done|]. split; [done|]. split; [apply grown_refl|]. done. }
  unfold runs, walkpgdir, kload32. kred. rewrite V2P_off by (done || unfold PGSIZE; lia).
  fold (pde_at (ram (k_ms k)) d (PDX va)). fold (present (pde_at (ram (k_ms k)) d (PDX va))).
  rewrite Ep. cbn [negb]. wp_call (kalloc_holds k c n H fl Hk HL Hn (vi_kmem _ _ _ _ HI)).
  intros r k1 (Hk1 & -> & Hi1 & Hc1). pose proof (core_ms _ _ Hc1) as Hm1. cbn [k_ms set_k_ms] in Hm1.
  assert (ms_only k k1) as Ho1.
  { eapply ms_only_core; [apply (ms_only_set k (popped_page (k_ms k)))|exact Hc1];
      unfold popped_page; by destruct (nz _). }
  assert (ram (k_ms k1) = ram (k_ms k)) as Hr1 by (by rewrite Hm1, popped_page_ram).
  destruct fl as [|a fl]; cbn [hd tail] in *.
  - kred. split; [done|]. split; [done|]. left. split; [done|]. split; [done|]. split; [|done].
    apply (vm_inv_same k); auto.
    + rewrite Hm1. unfold popped_page. destruct (vi_kmem _ _ _ _ HI) as [Hl _ _]. simpl in Hl. by rewrite Hl.
    + rewrite Hr1. apply (vi_bytes _ _ _ _ HI).
    + by rewrite Hr1.
  - destruct (free_page _ _ _ _ HI a) as (Pa & _); [left|]. destruct (page_ok_V2P a Pa) as [_ Hgt].
    destruct (a =? 0) eqn:E0; [unfold KERNBASE in *; lia|]. clear E0. unfold on_ms, kstore32, on_ms. kred.
    set (k2 := set_k_ms _ _). split; [by eapply holds_ext; [..|exact Hk1]|]. split.
    { eapply ms_only_trans; [exact Ho1|]. apply (ms_only_set k1); done. }
    assert (ram (k_ms k2) = with_table (ram (k_ms k)) d a (PDX va)) as Hr2.
    { unfold k2, with_table. simpl. rewrite Hr1, V2P_off by (done || unfold PGSIZE; lia). f_equal.
      pose proof (page_ok_aligned a Pa). rewrite <- !Z.lor_assoc. by apply PTE_lor. }
    assert (freelist (k_ms k2) = ld32 (ram (k_ms k)) (V2P a)) as Hf2.
    { unfold k2. simpl. rewrite Hm1. destruct (vi_kmem _ _ _ _ HI) as [[Hl _] _ _]. unfold popped_page.
      rewrite Hl. replace (nz a) with true; [done|]. unfold nz, KERNBASE in *. lia. }
    right. exists a, (a :: T), fl. split; [done|]. split; [left|].
    split; [by eapply new_inv|]. split; [by exists [a]|].
    destruct (new_entry k d a T fl HI) as [He1 He2].
    rewrite (new_pde k k2 d a T fl (PDX va) HI) by done. rewrite decide_True by done.
    split; [done|]. split; [done|]. split; [by apply (new_pte0 k k2 d a T fl (PDX va))|].
    intros x Hx. apply (new_outside k k2 d a (PDX va)); [done|done|..]; apply Hx; set_solver.
Qed.

(** ** Mapping pages *)

Lemma same_page_range a va :
  a `mod` PGSIZE = 0 -> (va / PGSIZE = a / PGSIZE <-> a <= va < a + PGSIZE).
Proof.
  unfold PGSIZE. intros Ha. pose proof (Z.div_mod va 4096). pose proof (Z.div_mod a 4096).
  pose proof (Z.mod_pos_bound va 4096). lia.
Qed.

(** One page mapped by the loop's body, once its entry has been found. *)
Lemma map_entry k c n H d T fl a t pa perm :
  holds k c n H -> vm_inv k d T fl -> a `mod` PGSIZE = 0 -> 0 <= a < 2 ^ 32 -> t ∈ T ->
  present (pde_at (ram (k_ms k)) d (PDX a)) = true -> PTE_ADDR (pde_at (ram (k_ms k)) d (PDX a)) = V2P t ->
  pa `mod` PGSIZE = 0 -> 0 <= pa -> pa + PGSIZE <= 2 ^ 32 -> 0 <= perm < PGSIZE ->
  let k' := set_k_ms (set_ram (st32 (ram (k_ms k)) (V2P (t + 4 * PTX a))
                                (Z.lor (Z.lor pa perm) PTE_P)) (k_ms k)) k in
  holds k' c n H /\ ms_only k k' /\ vm_inv k' d T fl /\ same_outside T (ram (k_ms k)) (ram (k_ms k')) /\
  (forall va, 0 <= va < 2 ^ 32 -> pte0 (ram (k_ms k')) d va =
     if decide (a <= va < a + PGSIZE) then pa + Z.lor perm PTE_P else pte0 (ram (k_ms k)) d va).
Proof.
  intros Hk HI Ha Hr Ht Hp Et Hpa H0 H1 Hperm k'. pose proof (PTX_range a Hr).
  destruct (table_page _ _ _ _ HI t Ht) as (Pt & _). pose proof (lor_P_range perm Hperm).
  destruct (set_pte k d T fl HI a t (Z.lor (Z.lor pa perm) PTE_P) k' Hr Ht Hp Et) as (HI' & Hpte & Hout).
  { unfold k'. simpl. by rewrite V2P_off by (done || unfold PGSIZE; lia). }
  split; [by eapply holds_ext; [..|exact Hk]|]. split; [by apply ms_only_set|]. split; [done|]. split; [done|].
  intros va Hva. rewrite Hpte by done. rewrite entry_frame, u32_small by (done || unfold PGSIZE in *; lia).
  pose proof (same_page_range a va Ha). repeat case_decide; try done; tauto.
Qed.

(** What [map_loop] and [mappages] achieve over [sz] bytes from page [a] on. *)
Definition maps (k k' : kernel F) (d a sz pa perm : Z) (T fl : list Z) (r : Z) : Prop :=
  exists T' fl', vm_inv k' d T' fl' /\ grown T fl T' fl' /\
    same_outside (d :: T') (ram (k_ms k)) (ram (k_ms k')) /\
    (forall va, 0 <= va < 2 ^ 32 -> ~ (a <= va < a + sz) ->
       pte0 (ram (k_ms k')) d va = pte0 (ram (k_ms k)) d va) /\
    (r = 0 /\ (forall va, 0 <= va < 2 ^ 32 -> a <= va < a + sz ->
       pte0 (ram (k_ms k')) d va = pa + (va - a) / PGSIZE * PGSIZE + Z.lor perm PTE_P) \/
     r = -1 /\ fl' = []).

(** The body of the loop: either memory is exhausted, or page [a] is mapped and
    the rest runs. *)
Lemma wp_map_page k c n H d T fl a pa perm (f : M (kernel F) Z) Q :
  holds k c n H -> LKkmem ∉ H -> n < 2 ^ 30 - 2 -> vm_inv k d T fl ->
  a `mod` PGSIZE = 0 -> 0 <= a < 2 ^ 32 -> pa `mod` PGSIZE = 0 -> 0 <= pa -> pa + PGSIZE <= 2 ^ 32 ->
  0 <= perm < PGSIZE -> present (pte0 (ram (k_ms k)) d a) = false ->
  (forall k', holds k' c n H -> ms_only k k' -> vm_inv k' d T [] -> fl = [] ->
     ram (k_ms k') = ram (k_ms k) -> Q (-1) k') ->
  (forall k' T' fl', holds k' c n H -> ms_only k k' -> vm_inv k' d T' fl' -> grown T fl T' fl' ->
     same_outside (d :: T') (ram (k_ms k)) (ram (k_ms k')) ->
     (forall va, 0 <= va < 2 ^ 32 -> pte0 (ram (k_ms k')) d va =
        if decide (a <= va < a + PGSIZE) then pa + Z.lor perm PTE_P else pte0 (ram (k_ms k)) d va) ->
     wp (alone _) (f k') Q) ->
  wp (alone _)
    ((pte <- walkpgdir d a true ;;
      if pte =? 0 then ret (-1) else
      e <- kload32 pte ;;
      if nz (Z.land e PTE_P) then panic "remap" else
      kstore32 pte (Z.lor (Z.lor pa perm) PTE_P) ;;
      f) k) Q.
Proof.
  intros Hk HL Hn HI Ha Hr32 Hpa Hp0 Hp1 Hperm Hun Hfail Hok.
  wp_call (walk_alloc k c n H d T fl a Hk HL Hn HI Hr32). intros r k1 (Hk1 & Ho1 & Hr).
  destruct Hr as [(-> & -> & HI1 & Hm1)|(t & T1 & fl1 & -> & Ht & HI1 & Hg1 & Hp & Et & Hpte1 & Hout1)].
  { rewrite Z.eqb_refl, ret_eq. by apply Hfail. }
  destruct (table_page _ _ _ _ HI1 t Ht) as (Pt & _). destruct (page_ok_V2P t Pt) as [_ Hgt].
  pose proof (PTX_range a Hr32).
  destruct (t + 4 * PTX a =? 0) eqn:E0; [unfold KERNBASE in *; lia|]. clear E0.
  unfold kload32 at 1. rewrite bind_eq, gets_eq. cbn [res_bind].
  rewrite V2P_off by (done || unfold PGSIZE; lia). rewrite <- (pte0_table k1 d a t) by done.
  rewrite Hpte1 by done. fold (present (pte0 (ram (k_ms k)) d a)). rewrite Hun.
  unfold kstore32, on_ms. rewrite bind_eq, modify_eq. cbn [res_bind].
  destruct (map_entry k1 c n H d T1 fl1 a t pa perm) as (Hk2 & Ho2 & HI2 & Hout2 & Hpte2); [done..|].
  apply (Hok _ T1 fl1); [done|by eapply ms_only_trans|done|done|..].
  - eapply same_outside_weaken; [|eapply same_outside_trans; [exact Hout1|exact Hout2]]. set_solver.
  - intros va Hva. rewrite Hpte2 by done. case_decide; [done|]. by apply Hpte1.
Qed.

Lemma map_loop_holds nn k c n H d T fl a pa perm :
  holds k c n H -> LKkmem ∉ H -> n < 2 ^ 30 - 2 -> vm_inv k d T fl ->
  a `mod` PGSIZE = 0 -> 0 <= a -> a + (Z.of_nat nn + 1) * PGSIZE <= 2 ^ 32 ->
  pa `mod` PGSIZE = 0 -> 0 <= pa -> pa + (Z.of_nat nn + 1) * PGSIZE <= 2 ^ 32 -> 0 <= perm < PGSIZE ->
  (forall va, 0 <= va < 2 ^ 32 -> a <= va < a + (Z.of_nat nn + 1) * PGSIZE ->
     present (pte0 (ram (k_ms k)) d va) = false) ->
  runs (map_loop nn d a (a + Z.of_nat nn * PGSIZE) pa perm) k (fun r k' =>
    holds k' c n H /\ ms_only k k' /\ maps k k' d a ((Z.of_nat nn + 1) * PGSIZE) pa perm T fl r).
Proof.
  revert k a pa T fl. induction nn as [|nn IH];
    intros k a pa T fl Hk HL Hn HI Ha Ha0 Ha1 Hpa Hp0 Hp1 Hperm Hun; unfold runs; cbn [map_loop];
    (apply (wp_map_page k c n H d T fl); try done; try (unfold PGSIZE in *; lia);
     [apply Hun; unfold PGSIZE in *; lia| |]).
  1, 3: intros k' Hk' Ho HI' -> Hm; split; [done|]; split; [done|]; exists T, []; split; [done|];
    split; [apply grown_refl|]; rewrite Hm; split; [done|]; split; [done|by right].
  - intros k' T' fl' Hk' Ho HI' Hg Hout Hpte. rewrite Z.mul_0_l, Z.add_0_r, Z.eqb_refl, ret_eq.
    split; [done|]. split; [done|]. exists T', fl'. do 3 (split; [done|]). split.
    + intros va Hva Hx. rewrite Hpte, decide_False by (done || (unfold PGSIZE in *; lia)). done.
    + left. split; [done|]. intros va Hva Hx. rewrite Hpte, decide_True by (done || (unfold PGSIZE in *; lia)).
      replace ((va - a) / PGSIZE) with 0; [lia|]. symmetry. apply Z.div_small. unfold PGSIZE in *; lia.
  - intros k1 T1 fl1 Hk1 Ho1 HI1 Hg1 Hout1 Hpte1.
    assert ((a =? a + Z.of_nat (S nn) * PGSIZE) = false) as -> by (apply Z.eqb_neq; unfold PGSIZE; lia).
    rewrite !u32_small by (unfold PGSIZE in *; lia).
    replace (a + Z.of_nat (S nn) * PGSIZE) with (a + PGSIZE + Z.of_nat nn * PGSIZE) by lia.
    eapply wp_mono; [|apply (IH k1 (a + PGSIZE) (pa + PGSIZE) T1 fl1); try done].
    + intros r k2 (Hk2 & Ho2 & (T2 & fl2 & HI2 & Hg2 & Hout2 & Hoth & Hr)).
      split; [done|]. split; [by eapply ms_only_trans|]. exists T2, fl2. split; [done|].
      split; [by eapply grown_trans|]. split; [|split].
      * eapply same_outside_weaken; [|eapply same_outside_trans; [exact Hout1|exact Hout2]].
        intros p. rewrite elem_of_app, !elem_of_cons. intros [[?|?]|?]; auto. right.
        by eapply grown_sub.
      * intros va Hva Hx. rewrite Hoth, Hpte1, decide_False by (done || (unfold PGSIZE in *; lia)). done.
      * destruct Hr as [[-> Hr]|[-> Hr]]; [left|by right]. split; [done|]. intros va Hva Hx.
        destruct (decide (a + PGSIZE <= va)) as [Hge|Hlt].
        -- rewrite Hr by (unfold PGSIZE in *; lia). replace (va - a) with (va - (a + PGSIZE) + 1 * PGSIZE) by lia.
           rewrite Z.div_add by done. lia.
        -- rewrite Hoth, Hpte1, decide_True by (done || (unfold PGSIZE in *; lia)).
           replace ((va - a) / PGSIZE) with 0; [lia|]. symmetry. apply Z.div_small. unfold PGSIZE in *; lia.
    + rewrite <- (Z.mod_add a 1 PGSIZE) in Ha by done. by rewrite Z.mul_1_l in Ha.
    + unfold PGSIZE in *; lia.
    + unfold PGSIZE in *; lia.
    + rewrite <- (Z.mod_add pa 1 PGSIZE) in Hpa by done. by rewrite Z.mul_1_l in Hpa.
    + unfold PGSIZE in *; lia.
    + unfold PGSIZE in *; lia.
    + intros va Hva Hx. rewrite Hpte1, decide_False by (done || (unfold PGSIZE in *; lia)). apply Hun; [done|unfold PGSIZE in *; lia].
Qed.

(** First page, and number of bytes of the pages, of a range. *)
Definition first_page (va : Z) : Z := va - va `mod` PGSIZE.

Definition page_span (va size : Z) : Z := first_page (va + size - 1) + PGSIZE - first_page va.

Lemma page_span_spec va size :
  0 <= va -> 0 < size -> va + size <= 2 ^ 32 ->
  exists nn, page_span va size = (Z.of_nat nn + 1) * PGSIZE /\ first_page va `mod` PGSIZE = 0 /\
    0 <= first_page va <= va /\ first_page va + page_span va size <= 2 ^ 32 /\
    PGROUNDDOWN va = first_page va /\
    PGROUNDDOWN (u32 (va + size - 1)) = first_page va + Z.of_nat nn * PGSIZE /\
    Z.to_nat (u32 (PGROUNDDOWN (u32 (va + size - 1)) - PGROUNDDOWN va) / PGSIZE) = nn.
Proof.
  intros H0 Hs H1. rewrite (u32_small (va + size - 1)) by lia. rewrite !PGROUNDDOWN_spec by lia.
  unfold page_span, first_page, PGSIZE. pose proof (Z.div_mod va 4096). pose proof (Z.div_mod (va + size - 1) 4096).
  pose proof (Z.mod_pos_bound va 4096). pose proof (Z.mod_pos_bound (va + size - 1) 4096).
  exists (Z.to_nat ((va + size - 1) / 4096 - va / 4096)).
  assert (va / 4096 <= (va + size - 1) / 4096) by (apply Z.div_le_mono; lia).
  assert ((va + size - 1) / 4096 < 2 ^ 20) by (apply Z.div_lt_upper_bound; lia).
  replace (va - va `mod` 4096) with (va / 4096 * 4096) by lia.
  replace (va + size - 1 - (va + size - 1) `mod` 4096) with ((va + size - 1) / 4096 * 4096) by lia.
  assert (0 <= va / 4096) by (apply Z.div_pos; lia).
  rewrite Z.mod_mul, u32_small, <- Z.mul_sub_distr_r, Z.div_mul by lia. lia.
Qed.

Lemma mappages_holds k c n H d T fl va size pa perm :
  holds k c n H -> LKkmem ∉ H -> n < 2 ^ 30 - 2 -> vm_inv k d T fl ->
  0 <= va -> 0 < size -> va + size <= 2 ^ 32 ->
  pa `mod` PGSIZE = 0 -> 0 <= pa -> pa + page_span va size <= 2 ^ 32 -> 0 <= perm < PGSIZE ->
  (forall x, 0 <= x < 2 ^ 32 -> first_page va <= x < first_page va + page_span va size ->
     present (pte0 (ram (k_ms k)) d x) = false) ->
  runs (mappages d va size pa perm) k (fun r k' =>
    holds k' c n H /\ ms_only k k' /\ maps k k' d (first_page va) (page_span va size) pa perm T fl r).
Proof.
  intros Hk HL Hn HI H0 Hs H1 Hpa Hp0 Hp1 Hperm Hun.
  destruct (page_span_spec va size H0 Hs H1) as (nn & Esp & Ha & Hf & Hsp & E1 & E2 & E3).
  unfold mappages. rewrite E3, E1, E2. rewrite Esp in *. apply map_loop_holds; try done; lia.
Qed.

(** The MMU's view of a mapped range. *)
Lemma entry_translate m d a sz pa perm x w :
  page_ok d -> a `mod` PGSIZE = 0 -> 0 <= a -> a + sz <= 2 ^ 32 ->
  pa `mod` PGSIZE = 0 -> 0 <= pa -> pa + sz <= 2 ^ 32 -> sz `mod` PGSIZE = 0 -> 0 <= perm < PGSIZE ->
  a <= x < a + sz -> pte0 m d x = pa + (x - a) / PGSIZE * PGSIZE + Z.lor perm PTE_P ->
  translate m (V2P d) x w = if negb w || nz (Z.land perm PTE_W) then Some (pa + (x - a)) else None.
Proof.
  intros Pd Ha Ha0 Ha1 Hpa Hp0 Hp1 Hsz Hperm Hx Hr. rewrite translate_pte0 by (done || lia).
  rewrite Hr. cbv zeta.
  set (q := (x - a) / PGSIZE). pose proof (lor_P_range perm Hperm) as HP.
  assert (0 <= q /\ pa + q * PGSIZE + PGSIZE <= 2 ^ 32 /\ x - a = q * PGSIZE + x `mod` PGSIZE) as (Hq0 & Hq1 & Hq2).
  { unfold q, PGSIZE in *. pose proof (Z.div_mod (x - a) 4096). pose proof (Z.div_mod sz 4096).
    pose proof (Z.mod_pos_bound (x - a) 4096). pose proof (Z.div_mod x 4096). pose proof (Z.div_mod a 4096).
    pose proof (Z.mod_pos_bound x 4096). lia. }
  assert ((pa + q * PGSIZE) `mod` PGSIZE = 0) as Hal by (by rewrite Z.mod_add).
  rewrite present_frame, present_lor_P by done. rewrite PTE_ADDR_frame by (done || unfold PGSIZE in *; lia).
  replace (Z.land (pa + q * PGSIZE + Z.lor perm PTE_P) PTE_W) with (Z.land perm PTE_W).
  - simpl. destruct (negb w || nz (Z.land perm PTE_W)); [|done]. f_equal. lia.
  - rewrite <- PTE_lor by done. unfold PTE_W, PTE_P. apply Z.bits_inj'. intros i Hi.
    rewrite !Z.land_spec, !Z.lor_spec. destruct (decide (i = 1)) as [->|Hne].
    + replace (Z.testbit (pa + q * PGSIZE) 1) with false; [by destruct (Z.testbit perm 1)|].
      symmetry. unfold PGSIZE in *. pose proof (Z.div_mod (pa + q * 4096) 4096).
      replace (pa + q * 4096) with ((pa + q * 4096) / 4096 * 2 ^ 12) by lia. by rewrite Z.mul_pow2_bits_low by lia.
    + replace (Z.testbit 2 i) with false; [by rewrite !andb_false_r|]. symmetry.
      change 2 with (2 ^ 1). by apply Z.pow2_bits_false.
Qed.

(** What [mappages] wrote, as the MMU sees it. *)
Lemma maps_translate k k' d a sz pa perm T fl x w :
  maps k k' d a sz pa perm T fl 0 -> page_ok d -> a `mod` PGSIZE = 0 -> 0 <= a -> a + sz <= 2 ^ 32 ->
  pa `mod` PGSIZE = 0 -> 0 <= pa -> pa + sz <= 2 ^ 32 -> sz `mod` PGSIZE = 0 -> 0 <= perm < PGSIZE ->
  a <= x < a + sz ->
  translate (ram (k_ms k')) (V2P d) x w =
    if negb w || nz (Z.land perm PTE_W) then Some (pa + (x - a)) else None.
Proof.
  intros (T' & fl' & HI & _ & _ & _ & Hr) Pd Ha Ha0 Ha1 Hpa Hp0 Hp1 Hsz Hperm Hx.
  destruct Hr as [[_ Hr]|[? _]]; [|done]. apply (entry_translate _ d a sz); auto. apply Hr; lia.
Qed.

(** ** Freeing an address space *)

(** The pages mapped in [cnt] pages from [a] on. *)
Fixpoint upages (m : gmap Z Z) (d a : Z) (cnt : nat) : list Z :=
  match cnt with
  | O => []
  | S c => (if present (pte0 m d a) then [P2V (PTE_ADDR (pte0 m d a))] else []) ++ upages m d (a + PGSIZE) c
  end.

Lemma upages_ext m m' d a cnt :
  0 <= a -> a + Z.of_nat cnt * PGSIZE <= 2 ^ 32 ->
  (forall va, a <= va < a + Z.of_nat cnt * PGSIZE -> 0 <= va < 2 ^ 32 -> pte0 m' d va = pte0 m d va) ->
  upages m' d a cnt = upages m d a cnt.
Proof.
  revert a. induction cnt as [|c IH]; intros a H0 H1 H; [done|]. cbn [upages].
  rewrite H, IH by (unfold PGSIZE in *; lia || (intros; apply H; unfold PGSIZE in *; lia)). done.
Qed.

(** Pages without a table contribute nothing. *)
Lemma upages_absent m d a c c' :
  0 <= a -> a + Z.of_nat (c + c') * PGSIZE <= 2 ^ 32 ->
  (forall va, a <= va < a + Z.of_nat c * PGSIZE -> present (pde_at m d (PDX va)) = false) ->
  upages m d a (c + c') = upages m d (a + Z.of_nat c * PGSIZE) c'.
Proof.
  revert a. induction c as [|c IH]; intros a H0 H1 H.
  - simpl. by rewrite Z.add_0_r.
  - cbn [Nat.add upages]. unfold pte0 at 1. rewrite H by (unfold PGSIZE; lia). simpl.
    rewrite IH by (unfold PGSIZE in *; lia || (intros; apply H; unfold PGSIZE in *; lia)).
    f_equal. unfold PGSIZE. lia.
Qed.

(** Effect of unmapping [cnt] pages from [a] on and freeing their frames. *)
Definition unmaps (k k' : kernel F) (d a : Z) (cnt : nat) (T fl : list Z) : Prop :=
  vm_inv k' d T (rev (upages (ram (k_ms k)) d a cnt) ++ fl) /\
  same_outside (T ++ upages (ram (k_ms k)) d a cnt) (ram (k_ms k)) (ram (k_ms k')) /\
  (forall va, 0 <= va < 2 ^ 32 -> pte0 (ram (k_ms k')) d va =
     if decide (a <= va < a + Z.of_nat cnt * PGSIZE /\ present (pte0 (ram (k_ms k)) d va) = true)
     then 0 else pte0 (ram (k_ms k)) d va).

(** Freeing a page that is not part of the tables. *)
Lemma kfree_vm k c n H d T fl p :
  holds k c n H -> LKkmem ∉ H -> n < 2 ^ 30 - 2 -> vm_inv k d T fl -> page_ok p -> p ∉ d :: T ++ fl ->
  runs (kfree p) k (fun _ k' => holds k' c n H /\ ms_only k k' /\ vm_inv k' d T (p :: fl) /\
    same_outside [p] (ram (k_ms k)) (ram (k_ms k')) /\
    (forall i, 0 <= i < 1024 -> pde_at (ram (k_ms k')) d i = pde_at (ram (k_ms k)) d i) /\
    (forall va, 0 <= va < 2 ^ 32 -> pte0 (ram (k_ms k')) d va = pte0 (ram (k_ms k)) d va)).
Proof.
  intros Hk HL Hn HI Pp Hnin.
  assert (p ∉ fl) as Hpf by set_solver. assert (p <> d) as Hpd by set_solver.
  assert (p ∉ T) as HpT by set_solver. pose proof (vi_dir _ _ _ _ HI) as Pd.
  eapply wp_mono; [|apply (kfree_holds k c n H fl p Hk HL Hn (vi_kmem _ _ _ _ HI) Pp Hpf)].
  intros _ k1 (Hk1 & Hi1 & Hc1). pose proof (core_ms _ _ Hc1) as Hm1. cbn [k_ms set_k_ms] in Hm1.
  assert (forall x, ~ in_page p x -> ld8 (ram (k_ms k1)) x = ld8 (ram (k_ms k)) x) as Hout.
  { intros x Hx. rewrite Hm1. by apply freed_outside. }
  assert (forall i, 0 <= i < 1024 -> pde_at (ram (k_ms k1)) d i = pde_at (ram (k_ms k)) d i) as Epde.
  { intros i Hi. apply pde_at_same; [|done]. intros x Hx. apply Hout.
    apply (pages_apart d p x); auto. }
  split; [done|]. split; [by eapply ms_only_core; [apply (ms_only_set k (freed (k_ms k) p))|exact Hc1]|].
  split; [|split; [|split; [done|]]].
  - destruct HI as [_ Hb _ HT Hnd Hu Ho Hall]. split; auto.
    + rewrite Hm1. unfold freed. simpl. apply bytes_ok_st32. intros x. rewrite ld8_memset by done.
      case_decide; [done|apply Hb].
    + rewrite <- Permutation_middle. rewrite (Permutation_swap p d). by constructor.
    + intros j Hj. rewrite Epde by done. auto.
    + intros j1 j2 Hj1 Hj2. rewrite !Epde by done. auto.
    + intros t Ht. destruct (Hall t Ht) as (j & Hj & Hp). exists j. by rewrite Epde.
  - intros x Hx. apply Hout. apply (Hx p). left.
  - intros va Hva. unfold pte0. rewrite Epde by (by apply PDX_range).
    destruct (present (pde_at (ram (k_ms k)) d (PDX va))) eqn:Ep; [|done].
    destruct (vi_used _ _ _ _ HI (PDX va) (PDX_range _ Hva) Ep) as (t & Ht & Et). rewrite Et.
    destruct (table_page _ _ _ _ HI t Ht) as (Pt & _). pose proof (PTX_range va Hva).
    apply ld32_in_page; [|lia|unfold PGSIZE; lia]. intros x Hx. apply Hout.
    apply (pages_apart t p x); auto. congruence.
Qed.

(** One mapped page is freed and its entry cleared. *)
Lemma wp_unmap_page k c n H d T fl a t p (f : M (kernel F) unit) Q :
  holds k c n H -> LKkmem ∉ H -> n < 2 ^ 30 - 2 -> vm_inv k d T fl -> a `mod` PGSIZE = 0 ->
  0 <= a < 2 ^ 32 -> t ∈ T -> present (pde_at (ram (k_ms k)) d (PDX a)) = true ->
  PTE_ADDR (pde_at (ram (k_ms k)) d (PDX a)) = V2P t -> page_ok p -> p ∉ d :: T ++ fl ->
  (forall k', holds k' c n H -> ms_only k k' -> vm_inv k' d T (p :: fl) ->
     same_outside (p :: T) (ram (k_ms k)) (ram (k_ms k')) ->
     (forall va, 0 <= va < 2 ^ 32 -> pte0 (ram (k_ms k')) d va =
        if decide (a <= va < a + PGSIZE) then 0 else pte0 (ram (k_ms k)) d va) ->
     wp (alone _) (f k') Q) ->
  wp (alone _) (((kfree p ;; kstore32 (t + 4 * PTX a) 0) ;; f) k) Q.
Proof.
  intros Hk HL Hn HI Ha Hr32 Ht Hp Et Pp Hnin Hok. rewrite !bind_eq, wp_bind, wp_bind.
  eapply wp_mono; [|apply (kfree_vm k c n H d T fl p Hk HL Hn HI Pp Hnin)].
  intros _ k1 (Hk1 & Ho1 & HI1 & Hout1 & Epde & Hpte1). pose proof (PTX_range a Hr32) as HX.
  destruct (table_page _ _ _ _ HI t Ht) as (Pt & _). pose proof (PDX_range a Hr32).
  unfold kstore32, on_ms. rewrite modify_eq. cbn [wp].
  set (k2 := set_k_ms _ k1).
  destruct (set_pte k1 d T (p :: fl) HI1 a t 0 k2 Hr32 Ht) as (HI2 & Hpte2 & Hout2).
  { by rewrite Epde. }
  { by rewrite Epde. }
  { unfold k2. simpl. by rewrite V2P_off by (done || unfold PGSIZE; lia). }
  apply Hok; [by eapply holds_ext; [..|exact Hk1]| |done|..].
  - eapply ms_only_trans; [exact Ho1|]. by apply ms_only_set.
  - exact (same_outside_trans _ _ _ _ _ Hout1 Hout2).
  - intros va Hva. rewrite Hpte2, Hpte1 by done. pose proof (same_page_range a va Ha).
    repeat case_decide; try done; tauto.
Qed.

Lemma V2P_P2V x : 0 <= x < 2 ^ 32 -> V2P (P2V x) = x.
Proof.
  intros Hx. unfold V2P, P2V, u32. rewrite Zminus_mod_idemp_l.
  replace (x + KERNBASE - KERNBASE) with x by lia. by apply Z.mod_small.
Qed.

Lemma pte0_range k d T fl va : vm_inv k d T fl -> 0 <= pte0 (ram (k_ms k)) d va < 2 ^ 32.
Proof. intros HI. unfold pte0. destruct (present _); [apply ld32_range, HI|lia]. Qed.

Lemma PTE_ADDR_range e : 0 <= PTE_ADDR e < 2 ^ 32.
Proof.
  unfold PTE_ADDR. pose proof (u32_range e). change (Z.lnot 0xFFF) with (Z.lnot (PGSIZE - 1)).
  rewrite land_page_mask. unfold PGSIZE. pose proof (Z.mod_pos_bound (u32 e) 4096).
  pose proof (Z.mod_le (u32 e) 4096). lia.
Qed.

(** Nothing to unmap. *)
Lemma unmaps_none k d a T fl : vm_inv k d T fl -> unmaps k k d a 0 T fl.
Proof.
  intros HI. split; [done|]. split; [done|]. intros va Hva. rewrite decide_False; [done|].
  unfold PGSIZE. lia.
Qed.

(** Pages without a mapping in front. *)
Lemma unmaps_skip k k' d a c c' T fl :
  0 <= a -> a + Z.of_nat (c + c') * PGSIZE <= 2 ^ 32 ->
  upages (ram (k_ms k)) d a (c + c') = upages (ram (k_ms k)) d (a + Z.of_nat c * PGSIZE) c' ->
  (forall va, 0 <= va < 2 ^ 32 -> a <= va < a + Z.of_nat c * PGSIZE -> present (pte0 (ram (k_ms k)) d va) = false) ->
  unmaps k k' d (a + Z.of_nat c * PGSIZE) c' T fl -> unmaps k k' d a (c + c') T fl.
Proof.
  intros H0 H1 Hu Hn (HI & Hout & Hpte). unfold unmaps. rewrite Hu. split; [done|]. split; [done|].
  intros va Hva. rewrite Hpte by done. case_decide as E1; case_decide as E2; try done.
  - exfalso. apply E2. unfold PGSIZE in *. split; [lia|apply E1].
  - exfalso. destruct E2 as [Hr Hp]. destruct (decide (va < a + Z.of_nat c * PGSIZE)).
    + rewrite Hn in Hp by (done || lia). done.
    + apply E1. split; [|done]. unfold PGSIZE in *. lia.
Qed.

(** All addresses of a page have one entry. *)
Lemma pte0_same_page m d a va :
  a `mod` PGSIZE = 0 -> 0 <= a < 2 ^ 32 -> 0 <= va < 2 ^ 32 -> a <= va < a + PGSIZE -> pte0 m d va = pte0 m d a.
Proof.
  intros Ha Hr Hva Hin. rewrite <- (same_page_range a va Ha) in Hin. unfold PGSIZE in *.
  unfold pte0. rewrite !PDX_spec, !PTX_spec by done.
  change (2 ^ 12) with 4096. change (2 ^ 22) with (4096 * 1024). rewrite <- !Z.div_div by lia. by rewrite Hin.
Qed.

(** The first page is mapped; the others follow. *)
Lemma unmaps_cons k k1 k2 d a c T fl p :
  0 <= a -> a + Z.of_nat (S c) * PGSIZE <= 2 ^ 32 -> a `mod` PGSIZE = 0 ->
  present (pte0 (ram (k_ms k)) d a) = true -> p = P2V (PTE_ADDR (pte0 (ram (k_ms k)) d a)) ->
  same_outside (p :: T) (ram (k_ms k)) (ram (k_ms k1)) ->
  (forall va, 0 <= va < 2 ^ 32 -> pte0 (ram (k_ms k1)) d va =
     if decide (a <= va < a + PGSIZE) then 0 else pte0 (ram (k_ms k)) d va) ->
  unmaps k1 k2 d (a + PGSIZE) c T (p :: fl) -> unmaps k k2 d a (S c) T fl.
Proof.
  intros H0 H1 Ha Hp Ep Hout1 Hpte1 (HI & Hout & Hpte).
  assert (upages (ram (k_ms k1)) d (a + PGSIZE) c = upages (ram (k_ms k)) d (a + PGSIZE) c) as Eu.
  { apply upages_ext; [unfold PGSIZE in *; lia..|]. intros va Hr Hva. rewrite Hpte1, decide_False by (done || lia). done. }
  rewrite Eu in *. unfold unmaps. cbn [upages]. rewrite Hp, <- Ep. cbn [app]. split; [|split].
  - cbn [rev]. by rewrite <- app_assoc.
  - eapply same_outside_weaken; [|eapply same_outside_trans; [exact Hout1|exact Hout]]. set_solver.
  - intros va Hva. rewrite Hpte, !Hpte1 by done.
    assert (a <= va < a + PGSIZE -> present (pte0 (ram (k_ms k)) d va) = true /\ pte0 (ram (k_ms k)) d va = pte0 (ram (k_ms k)) d a) as Hsame.
    { intros Hr. assert (pte0 (ram (k_ms k)) d va = pte0 (ram (k_ms k)) d a) as E.
      { apply pte0_same_page; try done. unfold PGSIZE in *; lia. }
      by rewrite E. }
    destruct (decide (a <= va < a + PGSIZE)) as [Hr|Hr].
    + destruct (Hsame Hr) as [Hps _]. rewrite (decide_True (P := _ /\ present (pte0 (ram (k_ms k)) d va) = true)).
      * by case_decide.
      * split; [unfold PGSIZE in *; lia|done].
    + case_decide as E1; case_decide as E2; try done.
      * exfalso. apply E2. destruct E1. split; [unfold PGSIZE in *; lia|done].
      * exfalso. apply E1. destruct E2. split; [unfold PGSIZE in *; lia|done].
Qed.

(** The start of the next directory entry. *)
Lemma next_table a :
  0 <= a -> a < KERNBASE ->
  u32 (u32 (PGADDR (PDX a + 1) 0 0 - PGSIZE) + PGSIZE) = (a / 2 ^ 22 + 1) * 2 ^ 22 /\
  (forall va, a <= va < (a / 2 ^ 22 + 1) * 2 ^ 22 -> PDX va = PDX a).
Proof.
  intros H0 H1. unfold KERNBASE in H1. rewrite PDX_spec by lia.
  assert (0 <= a / 2 ^ 22 < 512) as Hq
    by (split; [apply Z.div_pos; lia|apply Z.div_lt_upper_bound; lia]).
  split.
  - unfold PGADDR, PDXSHIFT, PTXSHIFT. rewrite Z.shiftl_mul_pow2, Z.shiftl_0_l, !Z.lor_0_r by lia.
    set (q := a / 2 ^ 22) in *. unfold PGSIZE. repeat rewrite (u32_small (_ * _)) by lia.
    rewrite (u32_small (_ - 4096)) by lia. rewrite u32_small by lia. lia.
  - intros va Hva. pose proof (Z.div_mod a (2 ^ 22)). pose proof (Z.mod_pos_bound a (2 ^ 22)).
    rewrite PDX_spec by lia. symmetry.
    apply Z.div_unique with (va - a / 2 ^ 22 * 2 ^ 22); lia.
Qed.

(** Number of pages from page [a] to [sz]. *)
Definition pages_to (a sz : Z) (cnt : nat) : Prop :=
  sz <= a + Z.of_nat cnt * PGSIZE /\ (cnt = 0%nat \/ a + (Z.of_nat cnt - 1) * PGSIZE < sz).


(** What can be freed: the pages mapped in the range are pages of the
    allocator, mapped once, and neither tables nor free. *)
Definition freeable (m : gmap Z Z) (d a : Z) (cnt : nat) (T fl : list Z) : Prop :=
  Forall page_ok (upages m d a cnt) /\ NoDup (upages m d a cnt ++ d :: T ++ fl).

(** [dealloc_loop] with [fuel] iterations left frees the range. *)
Definition dealloc_ok (fuel : nat) (c : nat) (n : Z) (H : list lockid) (d : Z) (T : list Z) (sz : Z) : Prop :=
  forall k a cnt fl, holds k c n H -> LKkmem ∉ H -> n < 2 ^ 30 - 2 -> vm_inv k d T fl ->
  a `mod` PGSIZE = 0 -> 0 <= a -> sz <= KERNBASE -> pages_to a sz cnt -> (cnt <= fuel)%nat ->
  freeable (ram (k_ms k)) d a cnt T fl ->
  runs (dealloc_loop fuel d a sz) k (fun _ k' =>
    holds k' c n H /\ ms_only k k' /\ unmaps k k' d a cnt T fl).

(** A mapped page is freed first. *)
Lemma dealloc_mapped fuel k c n H d T fl a t sz cnt :
  dealloc_ok fuel c n H d T sz -> holds k c n H -> LKkmem ∉ H -> n < 2 ^ 30 - 2 -> vm_inv k d T fl ->
  a `mod` PGSIZE = 0 -> 0 <= a -> sz <= KERNBASE -> pages_to a sz (S cnt) -> (cnt <= fuel)%nat ->
  freeable (ram (k_ms k)) d a (S cnt) T fl ->
  t ∈ T -> present (pde_at (ram (k_ms k)) d (PDX a)) = true -> PTE_ADDR (pde_at (ram (k_ms k)) d (PDX a)) = V2P t ->
  present (pte0 (ram (k_ms k)) d a) = true ->
  runs ((if PTE_ADDR (pte0 (ram (k_ms k)) d a) =? 0 then panic "deallocuvm/kfree" else
           kfree (P2V (PTE_ADDR (pte0 (ram (k_ms k)) d a))) ;; kstore32 (t + 4 * PTX a) 0) ;;
        dealloc_loop fuel d (a + PGSIZE) sz) k (fun _ k' =>
    holds k' c n H /\ ms_only k k' /\ unmaps k k' d a (S cnt) T fl).
Proof.
  intros IH Hk HL Hn HI Ha Ha0 Hsz [Hc1 [?|Hc2]] Hfu [Hpok Hnd] Ht Ep Et Epte; [done|]. unfold KERNBASE in Hsz.
  cbn [upages] in Hpok, Hnd. rewrite Epte in Hpok, Hnd. cbn [app] in Hpok, Hnd.
  apply Forall_cons_1 in Hpok as [Pp Hpok]. apply list.NoDup_cons in Hnd as [Hpn Hnd].
  set (p := P2V (PTE_ADDR (pte0 (ram (k_ms k)) d a))) in *.
  assert (PTE_ADDR (pte0 (ram (k_ms k)) d a) = V2P p) as ->.
  { unfold p. by rewrite V2P_P2V by apply PTE_ADDR_range. }
  destruct (page_ok_V2P p Pp) as [Evp Hp2].
  destruct (V2P p =? 0) eqn:E0; [unfold KERNBASE in *; lia|]. clear E0.
  apply (wp_unmap_page k c n H d T fl a t p); try done; [unfold PGSIZE in *; lia|set_solver|].
  intros k1 Hk1 Ho1 HI1 Hout1 Hpte1.
  assert (upages (ram (k_ms k1)) d (a + PGSIZE) cnt = upages (ram (k_ms k)) d (a + PGSIZE) cnt) as Eu.
  { apply upages_ext; [unfold PGSIZE in *; lia..|]. intros va Hva ?. rewrite Hpte1, decide_False by (done || lia). done. }
  eapply wp_mono; [|apply (IH k1 (a + PGSIZE) cnt (p :: fl)); try done; try (unfold PGSIZE, KERNBASE in *; lia)].
  - intros ? k2 (Hk2 & Ho2 & Hu2). split; [done|]. split; [by eapply ms_only_trans|].
    eapply (unmaps_cons k k1 k2); eauto. unfold PGSIZE in *; lia.
  - rewrite <- (Z.mod_add a 1 PGSIZE), Z.mul_1_l in Ha by done. done.
  - split; [unfold PGSIZE in *; lia|]. destruct cnt; [by left|right]. unfold PGSIZE in *; lia.
  - split; rewrite Eu; [done|].
    rewrite (Permutation_app_comm T), <- app_comm_cons, (Permutation_app_comm fl).
    rewrite (Permutation_swap p d), <- Permutation_middle. by apply list.NoDup_cons.
Qed.

(** An unmapped page of a present table is passed over. *)
Lemma dealloc_unmapped fuel k c n H d T fl a sz cnt :
  dealloc_ok fuel c n H d T sz -> holds k c n H -> LKkmem ∉ H -> n < 2 ^ 30 - 2 -> vm_inv k d T fl ->
  a `mod` PGSIZE = 0 -> 0 <= a -> sz <= KERNBASE -> pages_to a sz (S cnt) -> (cnt <= fuel)%nat ->
  freeable (ram (k_ms k)) d a (S cnt) T fl -> present (pte0 (ram (k_ms k)) d a) = false ->
  runs (dealloc_loop fuel d (a + PGSIZE) sz) k (fun _ k' =>
    holds k' c n H /\ ms_only k k' /\ unmaps k k' d a (S cnt) T fl).
Proof.
  intros IH Hk HL Hn HI Ha Ha0 Hsz [Hc1 [?|Hc2]] Hfu Hfr Epte; [done|].
  unfold freeable in Hfr. cbn [upages] in Hfr. rewrite Epte in Hfr. unfold KERNBASE in Hsz.
  eapply wp_mono; [|apply (IH k (a + PGSIZE) cnt fl); try done; try (unfold PGSIZE, KERNBASE in *; lia)].
  - intros ? k2 (Hk2 & Ho2 & Hu2). split; [done|]. split; [done|].
    apply (unmaps_skip k k2 d a 1 cnt); [done|unfold PGSIZE in *; lia| | |by rewrite Z.mul_1_l].
    + cbn [Nat.add upages]. by rewrite Epte.
    + intros va Hva Hx. rewrite (pte0_same_page _ _ a va) by (done || unfold PGSIZE in *; lia). done.
  - rewrite <- (Z.mod_add a 1 PGSIZE), Z.mul_1_l in Ha by done. done.
  - split; [unfold PGSIZE in *; lia|]. destruct cnt; [by left|right]. unfold PGSIZE in *; lia.
Qed.

(** Without a table, the loop goes on at the next directory entry. *)
Lemma dealloc_no_table fuel k c n H d T fl a sz cnt q :
  dealloc_ok fuel c n H d T sz -> holds k c n H -> LKkmem ∉ H -> n < 2 ^ 30 - 2 -> vm_inv k d T fl ->
  a `mod` PGSIZE = 0 -> 0 <= a -> sz <= KERNBASE -> pages_to a sz (S cnt) -> (cnt <= fuel)%nat ->
  freeable (ram (k_ms k)) d a (S cnt) T fl ->
  a < q <= KERNBASE -> q `mod` PGSIZE = 0 ->
  (forall va, a <= va < q -> present (pde_at (ram (k_ms k)) d (PDX va)) = false) ->
  runs (dealloc_loop fuel d q sz) k (fun _ k' =>
    holds k' c n H /\ ms_only k k' /\ unmaps k k' d a (S cnt) T fl).
Proof.
  intros IH Hk HL Hn HI Ha Ha0 Hsz [Hc1 [?|Hc2]] Hfu Hfr Hq Hqm Hnone; [done|].
  unfold KERNBASE in Hsz, Hq.
  assert (exists e, q = a + Z.of_nat (S e) * PGSIZE) as [e He].
  { exists (Z.to_nat ((q - a) / PGSIZE - 1)). unfold PGSIZE in *.
    pose proof (Z.div_mod (q - a) 4096). pose proof (Z.div_mod q 4096). pose proof (Z.div_mod a 4096).
    pose proof (Z.mod_pos_bound (q - a) 4096). lia. }
  remember (Nat.min (S e) (S cnt)) as e' eqn:Hmin.
  assert (upages (ram (k_ms k)) d a (e' + (S cnt - e')) =
          upages (ram (k_ms k)) d (a + Z.of_nat e' * PGSIZE) (S cnt - e')) as Eu.
  { apply upages_absent; [done|unfold PGSIZE in *; lia|]. intros va Hva. apply Hnone. unfold PGSIZE in *; lia. }
  assert (forall m, upages m d q (S cnt - e') = upages m d (a + Z.of_nat e' * PGSIZE) (S cnt - e')) as Eq.
  { intros m. destruct (decide (e < cnt)%nat); [by replace e' with (S e) by lia; rewrite He|].
    by replace (S cnt - e')%nat with 0%nat by lia. }
  eapply wp_mono; [|apply (IH k q (S cnt - e')%nat fl); try done; try (unfold PGSIZE, KERNBASE in *; lia)].
  - intros ? k2 (Hk2 & Ho2 & Hu2). split; [done|]. split; [done|].
    replace (S cnt) with (e' + (S cnt - e'))%nat by lia.
    apply unmaps_skip; [done|unfold PGSIZE in *; lia|exact Eu| |].
    + intros va Hva Hx. unfold pte0. rewrite Hnone by (unfold PGSIZE in *; lia). done.
    + unfold unmaps in Hu2 |- *. rewrite Eq in Hu2. destruct Hu2 as (Hu1 & Hu2 & Hu3).
      split; [done|]. split; [done|]. intros va Hva. rewrite Hu3 by done.
      destruct (decide (e < cnt)%nat); [by replace (Z.of_nat e') with (Z.of_nat (S e)) by lia; rewrite <- He|].
      rewrite !decide_False by (unfold PGSIZE; lia). done.
  - split; [unfold PGSIZE in *; lia|].
    destruct (decide (e < cnt)%nat); [right; unfold PGSIZE in *; lia|left; lia].
  - unfold freeable in *. rewrite Eq, <- Eu. by replace (e' + (S cnt - e'))%nat with (S cnt) by lia.
Qed.

(** [dealloc_loop] reaches its end within one iteration per page. *)
Lemma dealloc_loop_holds fuel c n H d T sz : dealloc_ok fuel c n H d T sz.
Proof.
  induction fuel as [|fuel IH]; intros k a cnt fl Hk HL Hn HI Ha Ha0 Hsz Hc Hfu Hfr; unfold runs; cbn [dealloc_loop].
  all: destruct (a <? sz) eqn:Elt; cbn [negb].
  1: destruct Hc; replace cnt with 0%nat in * by lia; lia.
  1, 3: rewrite ret_eq; replace cnt with 0%nat by (destruct Hc as [? []]; [done|unfold PGSIZE in *; lia]);
    split; [done|]; split; [apply ms_only_refl|by apply unmaps_none].
  destruct cnt as [|cnt]; [destruct Hc; unfold PGSIZE in *; lia|].
  assert (0 <= a < 2 ^ 32) as Hr32 by (unfold KERNBASE in *; lia).
  destruct (present (pde_at (ram (k_ms k)) d (PDX a))) eqn:Ep.
  - destruct (walk_present k d T fl a false HI Hr32 Ep) as (t & Ht & Et & Ew).
    rewrite bind_eq, Ew. cbn [res_bind]. destruct (table_page _ _ _ _ HI t Ht) as (Pt & _).
    pose proof (PTX_range a Hr32). destruct (page_ok_V2P t Pt) as [_ Hgt].
    destruct (t + 4 * PTX a =? 0) eqn:E0; [unfold KERNBASE in *; lia|]. clear E0.
    unfold kload32 at 1. rewrite bind_eq, gets_eq. cbn [res_bind].
    rewrite V2P_off by (done || unfold PGSIZE; lia). rewrite <- (pte0_table k d a t) by done.
    fold (present (pte0 (ram (k_ms k)) d a)).
    rewrite (u32_small (a + PGSIZE)) by (unfold PGSIZE, KERNBASE in *; lia).
    destruct (present (pte0 (ram (k_ms k)) d a)) eqn:Epte; cbn [when].
    + eapply dealloc_mapped; eauto. lia.
    + rewrite bind_eq, ret_eq. cbn [res_bind]. eapply dealloc_unmapped; eauto. lia.
  - rewrite bind_eq, (walk_absent k d T fl a HI Hr32 Ep). cbn [res_bind]. rewrite Z.eqb_refl.
    destruct (next_table a) as [-> Hpd]; [lia..|].
    eapply dealloc_no_table; eauto; [lia| | |intros va Hva; by rewrite Hpd].
    + pose proof (Z.div_mod a (2 ^ 22)). pose proof (Z.mod_pos_bound a (2 ^ 22)). unfold KERNBASE in *.
      assert (a / 2 ^ 22 < 512) by (apply Z.div_lt_upper_bound; lia). lia.
    + unfold PGSIZE. change (2 ^ 22) with (1024 * 4096). by rewrite Z.mul_assoc, Z.mod_mul.
Qed.

(** The tables named by the directory entries [l]. *)
Definition tabs (m : gmap Z Z) (d : Z) (l : list Z) : list Z :=
  l ≫= (fun i => if present (pde_at m d i) then [P2V (PTE_ADDR (pde_at m d i))] else []).

Lemma elem_of_tabs m d l t :
  t ∈ tabs m d l <-> exists i, i ∈ l /\ present (pde_at m d i) = true /\ t = P2V (PTE_ADDR (pde_at m d i)).
Proof.
  unfold tabs. rewrite list_elem_of_bind. split.
  - intros (i & Ht & Hi). exists i. destruct (present (pde_at m d i)); set_solver.
  - intros (i & Hi & Hp & ->). exists i. rewrite Hp. set_solver.
Qed.

Lemma tabs_nodup m d l :
  NoDup l -> (forall i, i ∈ l -> 0 <= i < 1024) ->
  (forall i j, 0 <= i < 1024 -> 0 <= j < 1024 -> present (pde_at m d i) = true -> present (pde_at m d j) = true ->
    PTE_ADDR (pde_at m d i) = PTE_ADDR (pde_at m d j) -> i = j) ->
  NoDup (tabs m d l).
Proof.
  intros Hnd Hr Ho. induction Hnd as [|i l Hi Hnd IH]; [constructor|]. cbn [tabs mbind list_bind].
  fold (tabs m d l). destruct (present (pde_at m d i)) eqn:Ep; simpl; [|apply IH; set_solver].
  apply list.NoDup_cons. split; [|apply IH; set_solver].
  rewrite elem_of_tabs. intros (j & Hj & Hpj & E). apply (f_equal V2P) in E.
  rewrite !V2P_P2V in E by apply PTE_ADDR_range.
  assert (i = j) as -> by (apply Ho; auto; apply Hr; set_solver). done.
Qed.

Lemma tabs_same m m' d l :
  (forall x, in_page d x -> ld8 m' x = ld8 m x) -> (forall i, i ∈ l -> 0 <= i < 1024) -> tabs m' d l = tabs m d l.
Proof.
  intros H Hl. induction l as [|i l IH]; [done|]. cbn [tabs mbind list_bind]. fold (tabs m d l) (tabs m' d l).
  rewrite (pde_at_same m m' d i H), IH; [done| |]; [|apply Hl]; set_solver.
Qed.

(** All entries together name each table once. *)
Lemma tabs_all k d T fl : vm_inv k d T fl -> tabs (ram (k_ms k)) d (zseq 1024) ≡ₚ T.
Proof.
  intros HI. apply NoDup_Permutation.
  - apply tabs_nodup; [|intros i; rewrite elem_of_zseq; lia|apply HI].
    apply NoDup_fmap_2; [intros ???; lia|apply NoDup_seq].
  - pose proof (vi_nodup _ _ _ _ HI) as Hn. apply list.NoDup_cons in Hn as [_ Hn].
    by apply list.NoDup_app in Hn as [Hn _].
  - intros t. rewrite elem_of_tabs. split.
    + intros (i & Hi & Hp & ->). rewrite elem_of_zseq in Hi.
      destruct (vi_used _ _ _ _ HI i) as (t & Ht & ->); [lia|done|].
      destruct (table_page _ _ _ _ HI t Ht) as (Pt & _). by rewrite P2V_V2P.
    + intros Ht. destruct (vi_all _ _ _ _ HI t Ht) as (i & Hi & Hp & E). exists i.
      rewrite elem_of_zseq, E. destruct (table_page _ _ _ _ HI t Ht) as (Pt & _). by rewrite P2V_V2P by done.
Qed.

(** The loop frees the tables of the entries it visits. *)
Lemma free_tables_holds l k c n H d fl :
  holds k c n H -> LKkmem ∉ H -> n < 2 ^ 30 - 2 -> kmem_inv k fl -> page_ok d ->
  (forall i, i ∈ l -> 0 <= i < 1024) ->
  Forall page_ok (tabs (ram (k_ms k)) d l) -> NoDup (tabs (ram (k_ms k)) d l ++ d :: fl) ->
  runs (for_all l (fun i => e <- kload32 (d + 4 * i) ;;
      when (nz (Z.land e PTE_P)) (kfree (P2V (PTE_ADDR e))))) k (fun _ k' =>
    holds k' c n H /\ ms_only k k' /\ kmem_inv k' (rev (tabs (ram (k_ms k)) d l) ++ fl) /\
    same_outside (tabs (ram (k_ms k)) d l) (ram (k_ms k)) (ram (k_ms k'))).
Proof.
  revert k fl. induction l as [|i l IH]; intros k fl Hk HL Hn Hi Pd Hl Hpok Hnd; unfold runs.
  { rewrite for_all_nil. split; [done|]. split; [apply ms_only_refl|]. done. }
  rewrite for_all_cons, wp_bind, bind_eq. unfold kload32 at 1. rewrite gets_eq. cbn [res_bind].
  pose proof (Hl i (list_elem_of_here i l)) as Hir. rewrite V2P_off by (done || unfold PGSIZE; lia).
  change (ld32 (ram (k_ms k)) (V2P d + 4 * i)) with (pde_at (ram (k_ms k)) d i).
  fold (present (pde_at (ram (k_ms k)) d i)). cbn [tabs mbind list_bind] in Hpok, Hnd |- *.
  fold (tabs (ram (k_ms k)) d l) in Hpok, Hnd |- *.
  destruct (present (pde_at (ram (k_ms k)) d i)) eqn:Ep; cbn [when app] in *.
  2:{ rewrite ret_eq. cbn [wp]. apply IH; try done. intros j Hj. apply Hl. by right. }
  set (t := P2V (PTE_ADDR (pde_at (ram (k_ms k)) d i))) in *.
  apply Forall_cons_1 in Hpok as [Pt Hpok]. apply list.NoDup_cons in Hnd as [Htn Hnd].
  eapply wp_mono; [|apply (kfree_holds k c n H fl t Hk HL Hn Hi Pt); set_solver].
  intros _ k1 (Hk1 & Hi1 & Hc1). pose proof (core_ms _ _ Hc1) as Hm1. cbn [k_ms set_k_ms] in Hm1.
  assert (same_outside [t] (ram (k_ms k)) (ram (k_ms k1))) as Hout.
  { intros x Hx. rewrite Hm1. apply freed_outside. apply (Hx t). left. }
  assert (tabs (ram (k_ms k1)) d l = tabs (ram (k_ms k)) d l) as Et.
  { apply tabs_same; [|intros j Hj; apply Hl; by right]. intros x Hx. apply Hout. intros ? ->%list_elem_of_singleton.
    apply (pages_apart d t x); try done. set_solver. }
  eapply wp_mono; [|apply (IH k1 (t :: fl) Hk1 HL Hn Hi1 Pd)].
  - rewrite Et. intros _ k2 (Hk2 & Ho2 & Hi2 & Hout2). split; [done|]. split.
    { eapply ms_only_trans; [|exact Ho2]. by eapply ms_only_core; [apply (ms_only_set k (freed (k_ms k) t))|exact Hc1]. }
    split; [cbn [rev]; by rewrite <- app_assoc|].
    exact (same_outside_trans _ _ _ _ _ Hout Hout2).
  - intros j Hj. apply Hl. by right.
  - by rewrite Et.
  - rewrite Et, (Permutation_swap t d), <- Permutation_middle. by apply list.NoDup_cons.
Qed.

(** Pages of the user part that lie at or above [newsz] and below [oldsz]. *)
Definition page_count (a sz : Z) : nat := Z.to_nat ((sz - a + (PGSIZE - 1)) / PGSIZE).

Lemma page_count_pages a sz : pages_to a sz (page_count a sz).
Proof.
  unfold pages_to, page_count, PGSIZE. pose proof (Z.div_mod (sz - a + (4096 - 1)) 4096).
  pose proof (Z.mod_pos_bound (sz - a + (4096 - 1)) 4096). lia.
Qed.

Lemma deallocuvm_holds k c n H d T fl oldsz newsz :
  holds k c n H -> LKkmem ∉ H -> n < 2 ^ 30 - 2 -> vm_inv k d T fl ->
  0 <= newsz < oldsz -> oldsz <= KERNBASE ->
  freeable (ram (k_ms k)) d (PGROUNDUP newsz) (page_count (PGROUNDUP newsz) oldsz) T fl ->
  runs (deallocuvm d oldsz newsz) k (fun r k' => holds k' c n H /\ ms_only k k' /\ r = newsz /\
    unmaps k k' d (PGROUNDUP newsz) (page_count (PGROUNDUP newsz) oldsz) T fl).
Proof.
  intros Hk HL Hn HI Hs Hold Hfr. unfold runs, deallocuvm. unfold KERNBASE in Hold.
  replace (newsz >=? oldsz) with false by lia. rewrite bind_eq, wp_bind.
  assert (PGROUNDUP newsz `mod` PGSIZE = 0 /\ newsz <= PGROUNDUP newsz) as [Hal Hge].
  { rewrite PGROUNDUP_spec by (unfold PGSIZE; lia). unfold PGSIZE. split; [apply Z.mod_mul; lia|].
    pose proof (Z.div_mod (newsz + 4095) 4096). pose proof (Z.mod_pos_bound (newsz + 4095) 4096). lia. }
  eapply wp_mono; [|apply (dealloc_loop_holds _ c n H d T oldsz k _ (page_count (PGROUNDUP newsz) oldsz) fl); try done];
    [|lia|apply page_count_pages|].
  - intros _ k1 (Hk1 & Ho1 & Hu1). rewrite ret_eq. split; [done|]. split; [done|]. split; [|done].
    apply s32_small. lia.
  - unfold page_count, PGSIZE in *. pose proof (Z.div_mod oldsz 4096). pose proof (Z.mod_pos_bound oldsz 4096).
    assert ((oldsz - PGROUNDUP newsz + (4096 - 1)) / 4096 <= oldsz / 4096 + 1); [|lia].
    apply Z.lt_succ_r, Z.div_lt_upper_bound; lia.
Qed.

(** All of the user part: 2^19 pages. *)
Definition user_pages (m : gmap Z Z) (d : Z) : list Z := upages m d 0 (page_count 0 KERNBASE).

Lemma freevm_holds k c n H d T fl :
  holds k c n H -> LKkmem ∉ H -> n < 2 ^ 30 - 2 -> vm_inv k d T fl ->
  freeable (ram (k_ms k)) d 0 (page_count 0 KERNBASE) T fl ->
  runs (freevm d) k (fun _ k' => holds k' c n H /\ ms_only k k' /\
    same_outside (d :: T ++ user_pages (ram (k_ms k)) d) (ram (k_ms k)) (ram (k_ms k')) /\
    exists fl', kmem_inv k' fl' /\ fl' ≡ₚ d :: T ++ user_pages (ram (k_ms k)) d ++ fl).
Proof.
  intros Hk HL Hn HI Hfr. unfold runs, freevm. pose proof (vi_dir _ _ _ _ HI) as Pd.
  destruct (page_ok_V2P d Pd) as [_ Hgt]. unfold user_pages.
  destruct (d =? 0) eqn:E0; [unfold KERNBASE in *; lia|]. clear E0. rewrite bind_eq, wp_bind.
  assert (PGROUNDUP 0 = 0) as E0 by done.
  eapply wp_mono; [|apply (deallocuvm_holds k c n H d T fl KERNBASE 0); rewrite ?E0; try done].
  rewrite E0. set (cnt := page_count 0 KERNBASE) in *. clearbody cnt.
  intros r k1 (Hk1 & Ho1 & _ & HI1 & Hout1 & _). set (U := upages (ram (k_ms k)) d 0 cnt) in *.
  pose proof (tabs_all k1 d T _ HI1) as HT. unfold free_tables.
  change (drop (Z.to_nat 0) (zseq (Z.to_nat NPDENTRIES))) with (zseq 1024).
  destruct Hfr as [Hpok Hnd].
  pose proof (vi_nodup _ _ _ _ HI1) as Hn1. apply list.NoDup_cons in Hn1 as [Hd1 Hn1].
  pose proof (free_tables_holds (zseq 1024) k1 c n H d (rev U ++ fl) Hk1 HL Hn (vi_kmem _ _ _ _ HI1) Pd) as Hft.
  set (TT := tabs (ram (k_ms k1)) d (zseq 1024)) in *. clearbody TT U.
  rewrite bind_eq, wp_bind. eapply wp_mono; [|apply Hft]; clear Hft.
  - intros _ k2 (Hk2 & Ho2 & Hi2 & Hout2).
    eapply wp_mono; [|apply (kfree_holds k2 c n H _ d Hk2 HL Hn Hi2 Pd)].
    + intros _ k3 (Hk3 & Hi3 & Hc3). split; [done|]. split; [|split; [|eexists; split; [exact Hi3|]]].
      * eapply ms_only_trans; [exact Ho1|]. eapply ms_only_trans; [exact Ho2|].
        by eapply ms_only_core; [apply (ms_only_set k2 (freed (k_ms k2) d))|exact Hc3].
      * pose proof (core_ms _ _ Hc3) as Hm3. cbn [k_ms set_k_ms] in Hm3.
        intros x Hx. rewrite Hm3, freed_outside by (apply (Hx d); left).
        rewrite Hout2, Hout1; [done|..]; intros p Hp; apply Hx; right; [done|].
        rewrite HT in Hp. apply elem_of_app. by left.
      * by rewrite <- !Permutation_rev, HT.
    + by rewrite <- (Permutation_rev TT), HT.
  - intros i. rewrite elem_of_zseq. lia.
  - rewrite HT. apply HI.
  - rewrite HT, <- Permutation_middle. by apply list.NoDup_cons.
Qed.

End VmSpec.
