(* ===== verification/AddrSpace.v ===== *)
(** * The kernel's address space (vm.c)

    [setupkvm] builds a directory with the four ranges of [kmap] and no user
    page, or gives back every page it took.  The theorems about [mappages],
    [setupkvm] and [freevm] are stated for the MMU's view of the directory and
    for the free list. *)

From S2P Require Import Prelude Params State Mem Spinlock Seg Str Cprintf Kalloc Vm VmSpec Demo.

(** ** Entries of [kmap] *)

Definition kcovers (e : Z * Z * Z * Z) (va : Z) : Prop :=
  let '(virt, p0, p1, perm) := e in virt <= va < virt + u32 (p1 - p0).

#[export] Instance kcovers_dec e va : Decision (kcovers e va).
Proof. destruct e as [[[virt p0] p1] perm]. unfold kcovers. apply _. Defined.

(** The entry that maps [va] in the range [e]. *)
Definition kentry (e : Z * Z * Z * Z) (va : Z) : Z :=
  let '(virt, p0, p1, perm) := e in p0 + (va - virt) / PGSIZE * PGSIZE + Z.lor perm PTE_P.

(** The entries of a directory that has the ranges [l] added to [f]. *)
Fixpoint kptes (l : list (Z * Z * Z * Z)) (f : Z -> Z) (va : Z) : Z :=
  match l with
  | [] => f va
  | e :: l' => if decide (kcovers e va) then kentry e va else kptes l' f va
  end.

(** A range of whole pages above the user part. *)
Definition kent_ok (e : Z * Z * Z * Z) : Prop :=
  let '(virt, p0, p1, perm) := e in
  KERNBASE <= virt /\ virt `mod` PGSIZE = 0 /\ 0 < u32 (p1 - p0) /\ u32 (p1 - p0) `mod` PGSIZE = 0 /\
  virt + u32 (p1 - p0) <= 2 ^ 32 /\ 0 <= p0 /\ p0 `mod` PGSIZE = 0 /\ p0 + u32 (p1 - p0) <= 2 ^ 32 /\
  0 <= perm < PGSIZE.

Fixpoint kapart (l : list (Z * Z * Z * Z)) : Prop :=
  match l with
  | [] => True
  | e :: l' => (forall e' va, e' ∈ l' -> kcovers e va -> ~ kcovers e' va) /\ kapart l'
  end.

Lemma kptes_skip l f va : (forall e, e ∈ l -> ~ kcovers e va) -> kptes l f va = f va.
Proof.
  induction l as [|e l IH]; intros H; [done|]. simpl. rewrite decide_False by (apply H; left).
  apply IH. intros e' He'. apply H. by right.
Qed.

Lemma kptes_ext l f g va : f va = g va -> kptes l f va = kptes l g va.
Proof. intros H. induction l as [|e l IH]; simpl; [done|]. by rewrite IH. Qed.

Lemma kptes_in l f e va : kapart l -> e ∈ l -> kcovers e va -> kptes l f va = kentry e va.
Proof.
  induction l as [|e' l IH]; intros Hap He Hc; [by apply elem_of_nil in He|]. destruct Hap as [Hap1 Hap].
  apply elem_of_cons in He as [<-|He]; simpl; [by rewrite decide_True|].
  rewrite decide_False by (intros Hc'; by apply (Hap1 e va)). auto.
Qed.

Lemma first_page_aligned va : va `mod` PGSIZE = 0 -> first_page va = va.
Proof. unfold first_page. lia. Qed.

Lemma page_span_aligned va size :
  va `mod` PGSIZE = 0 -> size `mod` PGSIZE = 0 -> page_span va size = size.
Proof.
  unfold page_span, first_page, PGSIZE. intros H1 H2.
  pose proof (Z.div_mod va 4096). pose proof (Z.div_mod size 4096).
  replace (va + size - 1) with (4095 + (va / 4096 + size / 4096 - 1) * 4096) by lia.
  rewrite Z.mod_add by lia. change (4095 `mod` 4096) with 4095. lia.
Qed.

Section AddrSpace.
Context {F : Type} {LK : Linker} {LKO : LinkerOk}.
Implicit Types (k : kernel F).

(** A directory without user pages. *)
Definition no_user (m : gmap Z Z) (d : Z) : Prop :=
  forall va, 0 <= va < KERNBASE -> present (pte0 m d va) = false.

Lemma upages_none m d a cnt :
  0 <= a -> a + Z.of_nat cnt * PGSIZE <= KERNBASE -> no_user m d -> upages m d a cnt = [].
Proof.
  revert a. induction cnt as [|cnt IH]; intros a H0 H1 H; [done|]. cbn [upages].
  rewrite H, IH by (done || unfold PGSIZE in *; lia). done.
Qed.

Lemma page_count_whole sz : 0 <= sz -> sz `mod` PGSIZE = 0 -> Z.of_nat (page_count 0 sz) * PGSIZE = sz.
Proof.
  unfold page_count, PGSIZE. intros H0 H. pose proof (Z.div_mod sz 4096).
  replace (sz - 0 + (4096 - 1)) with (4095 + sz / 4096 * 4096) by lia. rewrite Z.div_add by lia.
  change (4095 / 4096) with 0. lia.
Qed.

Lemma no_user_freeable k d T fl sz :
  vm_inv k d T fl -> no_user (ram (k_ms k)) d -> 0 <= sz <= KERNBASE -> sz `mod` PGSIZE = 0 ->
  upages (ram (k_ms k)) d 0 (page_count 0 sz) = [] /\ freeable (ram (k_ms k)) d 0 (page_count 0 sz) T fl.
Proof.
  intros HI Hu Hsz Hm. pose proof (page_count_whole sz ltac:(lia) Hm).
  unfold freeable. rewrite upages_none by (done || lia). split; [done|]. split; [constructor|apply HI].
Qed.

(** Freeing a directory without user pages. *)
Lemma freevm_kernel k c n H d T fl :
  holds k c n H -> LKkmem ∉ H -> n < 2 ^ 30 - 2 -> vm_inv k d T fl -> no_user (ram (k_ms k)) d ->
  runs (freevm d) k (fun _ k' => holds k' c n H /\ ms_only k k' /\
    same_outside (d :: T) (ram (k_ms k)) (ram (k_ms k')) /\
    exists fl', kmem_inv k' fl' /\ fl' ≡ₚ d :: T ++ fl).
Proof.
  intros Hk HL Hn HI Hu.
  destruct (no_user_freeable k d T fl KERNBASE HI Hu) as [E Hfr]; [unfold KERNBASE; lia|done|].
  eapply wp_mono; [|apply (freevm_holds k c n H d T fl Hk HL Hn HI Hfr)].
  unfold user_pages. rewrite E, app_nil_r. intros _ k' (Hk' & Ho & Hout & fl' & Hi & Hp).
  split; [done|]. split; [done|]. split; [done|]. by exists fl'.
Qed.

(** A range of [kmap] is mapped, or everything is given back. *)
Lemma kmap_step k c n H d T fl e :
  holds k c n H -> LKkmem ∉ H -> n < 2 ^ 30 - 2 -> vm_inv k d T fl -> no_user (ram (k_ms k)) d ->
  kent_ok e -> (forall va, kcovers e va -> present (pte0 (ram (k_ms k)) d va) = false) ->
  runs (let '(virt, phys_start, phys_end, perm) := e in
        r <- mappages d virt (u32 (phys_end - phys_start)) phys_start perm ;;
        if r <? 0 then freevm d ;; ret (Some 0) else ret None) k (fun o k' =>
    holds k' c n H /\ ms_only k k' /\ exists T' fl', grown T fl T' fl' /\
      same_outside (d :: T') (ram (k_ms k)) (ram (k_ms k')) /\
    match o with
    | None => vm_inv k' d T' fl' /\ (forall va, 0 <= va < 2 ^ 32 ->
        pte0 (ram (k_ms k')) d va = if decide (kcovers e va) then kentry e va else pte0 (ram (k_ms k)) d va)
    | Some r => r = 0 /\ fl' = [] /\ exists l, kmem_inv k' l /\ l ≡ₚ d :: T'
    end).
Proof.
  destruct e as [[[virt p0] p1] perm].
  intros Hk HL Hn HI Hu (Hv & Hva & Hsz & Hszm & Hend & Hp0 & Hpm & Hpe & Hperm) Hun.
  unfold runs. rewrite bind_eq, wp_bind. unfold KERNBASE in Hv.
  pose proof (mappages_holds k c n H d T fl virt (u32 (p1 - p0)) p0 perm Hk HL Hn HI) as Hm.
  rewrite first_page_aligned, page_span_aligned in Hm by done.
  eapply wp_mono; [|apply Hm; try done; lia || (intros x _ Hx; by apply Hun)]. clear Hm.
  intros r k1 (Hk1 & Ho1 & T1 & fl1 & HI1 & Hg & Hout & Hother & [[-> Hin]|[-> ->]]).
  - change (0 <? 0) with false. cbv iota. rewrite ret_eq. split; [done|]. split; [done|]. exists T1, fl1.
    split; [done|]. split; [done|]. split; [done|]. intros va Hx. unfold kcovers. case_decide; auto.
  - change (-1 <? 0) with true. cbv iota. rewrite bind_eq, wp_bind.
    eapply wp_mono; [|apply (freevm_kernel k1 c n H d T1 [] Hk1 HL Hn HI1)].
    + intros _ k2 (Hk2 & Ho2 & Hout2 & l & Hl & Hp). rewrite ret_eq. split; [done|].
      split; [by eapply ms_only_trans|]. exists T1, []. split; [done|]. split.
      { eapply same_outside_weaken; [|exact (same_outside_trans _ _ _ _ _ Hout Hout2)]. set_solver. }
      split; [done|]. split; [done|]. exists l. split; [done|]. by rewrite Hp, app_nil_r.
    + intros va Hx. unfold KERNBASE in Hx. rewrite Hother by lia. by apply Hu.
Qed.

Lemma grown_subset T fl T' fl' p : grown T fl T' fl' -> p ∈ T -> p ∈ T'.
Proof. intros (N & _ & ->) Hp. apply elem_of_app. by right. Qed.

Lemma kmap_loop l k c n H d T fl :
  holds k c n H -> LKkmem ∉ H -> n < 2 ^ 30 - 2 -> vm_inv k d T fl -> no_user (ram (k_ms k)) d ->
  Forall kent_ok l -> kapart l ->
  (forall e va, e ∈ l -> kcovers e va -> present (pte0 (ram (k_ms k)) d va) = false) ->
  runs (for_each l (fun e =>
         let '(virt, phys_start, phys_end, perm) := e in
         r <- mappages d virt (u32 (phys_end - phys_start)) phys_start perm ;;
         if r <? 0 then freevm d ;; ret (Some 0) else ret None)) k (fun o k' =>
    holds k' c n H /\ ms_only k k' /\ exists T' fl', grown T fl T' fl' /\
      same_outside (d :: T') (ram (k_ms k)) (ram (k_ms k')) /\
    match o with
    | None => vm_inv k' d T' fl' /\ (forall va, 0 <= va < 2 ^ 32 ->
        pte0 (ram (k_ms k')) d va = kptes l (pte0 (ram (k_ms k)) d) va)
    | Some r => r = 0 /\ fl' = [] /\ exists l, kmem_inv k' l /\ l ≡ₚ d :: T'
    end).
Proof.
  revert k T fl. induction l as [|e l IH]; intros k T fl Hk HL Hn HI Hu Hok Hap Hun; unfold runs.
  { rewrite for_each_nil. split; [done|]. split; [apply ms_only_refl|]. exists T, fl.
    split; [apply grown_refl|]. done. }
  apply Forall_cons_1 in Hok as [He Hok]. destruct Hap as [Hap1 Hap].
  rewrite for_each_cons, wp_bind. eapply wp_mono; [|apply (kmap_step k c n H d T fl e Hk HL Hn HI Hu He)].
  2:{ intros va. apply Hun. left. }
  intros [r|] k1 (Hk1 & Ho1 & T1 & fl1 & Hg1 & Hout1 & Hr).
  { rewrite ret_eq. split; [done|]. split; [done|]. by exists T1, fl1. }
  destruct Hr as [HI1 Hpte]. eapply wp_mono; [|apply (IH k1 T1 fl1 Hk1 HL Hn HI1); try done].
  - intros o k2 (Hk2 & Ho2 & T2 & fl2 & Hg2 & Hout2 & Hr). split; [done|].
    split; [by eapply ms_only_trans|]. exists T2, fl2. split; [by eapply grown_trans|].
    assert (forall p, p ∈ T1 -> p ∈ T2) by (intros p; by eapply grown_subset).
    split; [eapply same_outside_weaken; [|exact (same_outside_trans _ _ _ _ _ Hout1 Hout2)]; set_solver|].
    destruct o; [done|]. destruct Hr as [HI2 Hr]. split; [done|]. intros va Hva. rewrite Hr by done. cbn [kptes].
    case_decide as Hc.
    + rewrite kptes_skip by eauto. rewrite Hpte by done. by rewrite decide_True.
    + apply kptes_ext. rewrite Hpte by done. by rewrite decide_False.
  - intros va Hva. destruct e as [[[virt p0] p1] perm]. destruct He as [Hv _]. unfold KERNBASE in *.
    rewrite Hpte, decide_False by (unfold kcovers; lia). apply Hu. unfold KERNBASE; lia.
  - intros e' va He' Hc'. assert (0 <= va < 2 ^ 32).
    { rewrite list.Forall_forall in Hok. specialize (Hok e' He'). destruct e' as [[[virt p0] p1] perm].
      unfold kent_ok, kcovers, KERNBASE in *. lia. }
    rewrite Hpte, decide_False by (done || intros Hc; by eapply Hap1). apply (Hun e'); [by right|done].
Qed.

(** A zeroed page is an empty directory. *)
Lemma empty_dir k k' d fl :
  kmem_inv k (d :: fl) -> bytes_ok (ram (k_ms k)) -> freelist (k_ms k') = ld32 (ram (k_ms k)) (V2P d) ->
  ram (k_ms k') = memset (ram (k_ms k)) (V2P d) 0 PGSIZE ->
  vm_inv k' d [] fl /\ (forall va, 0 <= va < 2 ^ 32 -> pte0 (ram (k_ms k')) d va = 0).
Proof.
  intros [[Hf Hl] Hn Hp] Hb Hfl Hram. apply Forall_cons_1 in Hp as [Pd Hp]. apply list.NoDup_cons in Hn as [Hd Hn].
  assert (forall x, ld8 (ram (k_ms k')) x = if decide (V2P d <= x < V2P d + PGSIZE) then 0 else ld8 (ram (k_ms k)) x) as Hx.
  { intros x. by rewrite Hram, ld8_memset. }
  assert (forall i, 0 <= i < 1024 -> pde_at (ram (k_ms k')) d i = 0) as Hpde.
  { intros i Hi. unfold pde_at. replace 0 with (ld32 ∅ (V2P d + 4 * i)) by done. apply ld32_ext.
    intros x Hr. rewrite Hx, decide_True by (unfold PGSIZE; lia). done. }
  split.
  - split; auto.
    + split; [|done|done]. rewrite Hfl. revert Hl. apply flist_ext. intros b Hin.
      rewrite list.Forall_forall in Hp. rewrite <- (Z.add_0_r (V2P b)).
      apply ld32_in_page; [|lia|unfold PGSIZE; lia]. intros x Hr. rewrite Hx, decide_False; [done|].
      apply (pages_apart b d x); auto. congruence.
    + intros x. rewrite Hx. case_decide; [lia|apply Hb].
    + apply list.NoDup_cons. done.
    + intros i Hi. by rewrite Hpde.
    + intros i j Hi Hj. by rewrite Hpde.
    + intros t Ht. by apply elem_of_nil in Ht.
  - intros va Hva. unfold pte0. rewrite Hpde by (by apply PDX_range). done.
Qed.

(** The sizes of the ranges. *)
Lemma kmap_sizes :
  V2P sym_data = sym_data - KERNBASE /\ V2P KERNLINK = EXTMEM /\ u32 (EXTMEM - 0) = EXTMEM /\
  u32 (sym_data - KERNBASE - EXTMEM) = sym_data - KERNLINK /\
  u32 (PHYSTOP - (sym_data - KERNBASE)) = PHYSTOP + KERNBASE - sym_data /\
  u32 (0 - DEVSPACE) = 2 ^ 32 - DEVSPACE.
Proof.
  pose proof data_high. pose proof data_end. pose proof end_low. unfold V2P, KERNLINK, EXTMEM, KERNBASE, PHYSTOP in *.
  repeat split; try done; rewrite ?u32_small by lia; lia.
Qed.

Lemma kmap_ok : Forall kent_ok kmap.
Proof.
  destruct kmap_sizes as (E1 & E2 & E3 & E4 & E5 & E6). pose proof data_high as Hh. pose proof data_end.
  pose proof end_low. pose proof data_aligned as Ha.
  unfold kmap. rewrite E1, E2. repeat apply Forall_cons_2; [..|apply Forall_nil_2]; unfold kent_ok;
    rewrite ?E3, ?E4, ?E5, ?E6; clear E1 E2 E3 E4 E5 E6;
    unfold KERNLINK, EXTMEM, KERNBASE, PHYSTOP, DEVSPACE, PTE_W, PGSIZE in *; try (repeat split; done || lia).
  - repeat split; try lia. rewrite Zminus_mod, Ha. done.
  - repeat split; try lia; rewrite Zminus_mod, Ha; done.
Qed.

Lemma kmap_apart : kapart kmap.
Proof.
  destruct kmap_sizes as (E1 & E2 & E3 & E4 & E5 & E6). pose proof data_high as Hh. pose proof data_end.
  pose proof end_low. unfold kmap. rewrite E1, E2. cbn [kapart].
  repeat split; intros e' va; rewrite ?elem_of_cons, ?elem_of_nil; intros He;
    repeat (destruct He as [->|He]); try done; unfold kcovers; rewrite ?E3, ?E4, ?E5, ?E6;
    unfold KERNLINK, EXTMEM, KERNBASE, PHYSTOP, DEVSPACE in *; lia.
Qed.

(** What the MMU makes of an address in the kernel's directory. *)
Definition kernel_view (va : Z) (w : bool) : option Z :=
  if decide (KERNBASE <= va < KERNBASE + PHYSTOP) then
    if w && bool_decide (KERNLINK <= va < sym_data) then None else Some (va - KERNBASE)
  else if decide (DEVSPACE <= va) then Some va else None.

Lemma kentry_translate m d virt p0 p1 perm va w :
  page_ok d -> kent_ok (virt, p0, p1, perm) -> kcovers (virt, p0, p1, perm) va ->
  pte0 m d va = kentry (virt, p0, p1, perm) va ->
  translate m (V2P d) va w = if negb w || nz (Z.land perm PTE_W) then Some (p0 + (va - virt)) else None.
Proof.
  intros Pd (Hv & Hva & Hsz & Hszm & Hend & Hp0 & Hpm & Hpe & Hperm) Hc Hp. unfold KERNBASE in Hv.
  apply (entry_translate m d virt (u32 (p1 - p0))); done || lia.
Qed.

Lemma kernel_view_kptes m d va w :
  page_ok d -> 0 <= va < 2 ^ 32 -> pte0 m d va = kptes kmap (fun _ => 0) va ->
  translate m (V2P d) va w = kernel_view va w.
Proof.
  intros Pd Hva Hp. destruct kmap_sizes as (E1 & E2 & E3 & E4 & E5 & E6).
  pose proof data_high. pose proof data_end. pose proof end_low. pose proof kmap_ok as Hok.
  assert (forall virt p0 p1 perm, (virt, p0, p1, perm) ∈ kmap -> kcovers (virt, p0, p1, perm) va ->
    translate m (V2P d) va w = if negb w || nz (Z.land perm PTE_W) then Some (p0 + (va - virt)) else None) as Hin.
  { intros virt p0 p1 perm He Hc. rewrite list.Forall_forall in Hok. eapply kentry_translate; eauto.
    rewrite Hp. apply kptes_in; [apply kmap_apart|done|done]. }
  unfold kernel_view. unfold kmap in Hin. rewrite E1, E2 in Hin.
  destruct (decide (KERNBASE <= va < KERNLINK)).
  { rewrite (Hin KERNBASE 0 EXTMEM PTE_W) by (set_solver || (unfold kcovers; rewrite E3; done)).
    rewrite decide_True, bool_decide_false by (unfold KERNLINK, EXTMEM, PHYSTOP in *; lia).
    rewrite andb_false_r, orb_true_r. f_equal. }
  destruct (decide (KERNLINK <= va < sym_data)).
  { rewrite (Hin KERNLINK EXTMEM (sym_data - KERNBASE) 0) by (set_solver || (unfold kcovers; rewrite E4; lia)).
    rewrite decide_True, bool_decide_true by (unfold KERNLINK, EXTMEM, PHYSTOP, KERNBASE in *; lia).
    rewrite orb_false_r, andb_true_r. destruct w; [done|]. simpl. f_equal. unfold KERNLINK. lia. }
  destruct (decide (sym_data <= va < KERNBASE + PHYSTOP)).
  { rewrite (Hin sym_data (sym_data - KERNBASE) PHYSTOP PTE_W) by (set_solver || (unfold kcovers; rewrite E5; lia)).
    rewrite decide_True, bool_decide_false by (unfold KERNLINK, EXTMEM, KERNBASE in *; lia).
    rewrite orb_true_r, andb_false_r. f_equal. lia. }
  rewrite decide_False by (unfold KERNLINK, EXTMEM, KERNBASE in *; lia). case_decide.
  { rewrite (Hin DEVSPACE DEVSPACE 0 PTE_W) by (set_solver || (unfold kcovers; rewrite E6; lia)).
    rewrite orb_true_r. f_equal. lia. }
  rewrite translate_pte0, Hp by done. rewrite kptes_skip; [done|]. unfold kmap. rewrite E1, E2.
  intros e He. rewrite !elem_of_cons, elem_of_nil in He.
  destruct He as [->|[->|[->|[->|[]]]]]; unfold kcovers; rewrite ?E3, ?E4, ?E5, ?E6; unfold KERNLINK in *; lia.
Qed.

(** [setupkvm] with the free list [fl]: the new directory, or 0 and all pages
    back on the list. *)
Lemma setupkvm_holds k c n H fl :
  holds k c n H -> LKkmem ∉ H -> n < 2 ^ 30 - 2 -> kmem_inv k fl -> bytes_ok (ram (k_ms k)) ->
  runs setupkvm k (fun d k' => holds k' c n H /\ ms_only k k' /\
    ((exists T fl', vm_inv k' d T fl' /\ d :: T ++ fl' ≡ₚ fl /\
       same_outside (d :: T) (ram (k_ms k)) (ram (k_ms k')) /\
       (forall va, 0 <= va < 2 ^ 32 -> pte0 (ram (k_ms k')) d va = kptes kmap (fun _ => 0) va)) \/
     d = 0 /\ same_outside fl (ram (k_ms k)) (ram (k_ms k')) /\ exists fl', kmem_inv k' fl' /\ fl' ≡ₚ fl)).
Proof.
  intros Hk HL Hn Hi Hb. unfold runs, setupkvm. wp_call (kalloc_holds k c n H fl Hk HL Hn Hi).
  intros r k1 (Hk1 & -> & Hi1 & Hc1). pose proof (core_ms _ _ Hc1) as Hm1. cbn [k_ms set_k_ms] in Hm1.
  assert (ms_only k k1) as Ho1.
  { eapply ms_only_core; [apply (ms_only_set k (popped_page (k_ms k)))|exact Hc1];
      unfold popped_page; by destruct (nz _). }
  destruct fl as [|d fl]; cbn [hd tail] in *.
  { kred. split; [done|]. split; [done|]. right. split; [done|]. split; [|by exists []].
    intros x _. by rewrite Hm1, popped_page_ram. }
  destruct (Forall_cons_1 _ _ _ (km_pages _ _ Hi)) as [Pd _]. destruct (page_ok_V2P d Pd) as [_ Hgt].
  destruct (d =? 0) eqn:E0; [unfold KERNBASE in *; lia|]. clear E0. unfold on_ms at 1. kred.
  set (k2 := set_k_ms _ k1). change (P2V PHYSTOP >? DEVSPACE) with false. cbv iota.
  destruct (empty_dir k k2 d fl Hi Hb) as [HI2 Hp2].
  { unfold k2. simpl. rewrite Hm1. destruct Hi as [[Hl _] _ _]. unfold popped_page.
    rewrite Hl. replace (nz d) with true; [done|]. unfold nz, KERNBASE in *. lia. }
  { unfold k2. simpl. by rewrite Hm1, popped_page_ram. }
  assert (forall va, 0 <= va < 2 ^ 32 -> present (pte0 (ram (k_ms k2)) d va) = false) as Hno.
  { intros va Hva. by rewrite Hp2. }
  assert (forall e va, e ∈ kmap -> kcovers e va -> 0 <= va < 2 ^ 32) as Hr.
  { intros [[[virt p0] p1] perm] va He Hc. pose proof kmap_ok as Hok. rewrite list.Forall_forall in Hok.
    specialize (Hok _ He). unfold kent_ok, kcovers, KERNBASE in *. lia. }
  assert (holds k2 c n H) as Hk2 by (by eapply holds_ext; [..|exact Hk1]).
  assert (ms_only k k2) as Ho2 by (eapply ms_only_trans; [exact Ho1|]; by apply (ms_only_set k1)).
  assert (same_outside [d] (ram (k_ms k)) (ram (k_ms k2))) as Hout2.
  { intros x Hx. unfold k2. simpl. rewrite Hm1, popped_page_ram, ld8_memset by done.
    rewrite decide_False; [done|]. apply (Hx d). left. }
  wp_call (kmap_loop kmap k2 c n H d [] fl Hk2 HL Hn HI2).
  - intros o k3 (Hk3 & Ho3 & T & fl' & (N & -> & HN) & Hout3 & Hres). rewrite app_nil_r in HN.
    rewrite ret_eq. split; [done|]. split; [by eapply ms_only_trans|]. destruct o as [r|]; cbn [default from_option id].
    + right. destruct Hres as (-> & -> & l & Hl & Hp). split; [done|]. split.
      { eapply same_outside_weaken; [|exact (same_outside_trans _ _ _ _ _ Hout2 Hout3)]. intros p. rewrite HN. set_solver. }
      exists l. split; [done|]. by rewrite Hp, app_nil_r, HN.
    + left. destruct Hres as [HI3 Hp3]. exists T, fl'. split; [done|]. split; [by rewrite HN|]. split.
      * eapply same_outside_weaken; [|exact (same_outside_trans _ _ _ _ _ Hout2 Hout3)]. set_solver.
      * intros va Hva. rewrite Hp3 by done. apply kptes_ext. auto.
  - intros va Hva. apply Hno. unfold KERNBASE in Hva. lia.
  - apply kmap_ok.
  - apply kmap_apart.
  - intros e va He Hc. by apply Hno, (Hr e).
Qed.

(** After [mappages] returns 0 the MMU translates every address of the
    range to the frame given for it, writes being allowed exactly when the
    permissions have [PTE_W], and every address outside as before; the only
    memory written is the directory, its tables and the pages taken from the
    front of the free list for new tables.  It returns -1 only when the free
    list is exhausted, and then addresses outside the range are still as
    before. *)
Theorem mappages_maps k c n H d T fl va size pa perm :
  holds k c n H -> LKkmem ∉ H -> n < 2 ^ 30 - 2 -> vm_inv k d T fl ->
  0 <= va -> 0 < size -> va + size <= 2 ^ 32 ->
  pa `mod` PGSIZE = 0 -> 0 <= pa -> pa + page_span va size <= 2 ^ 32 -> 0 <= perm < PGSIZE ->
  (forall x, first_page va <= x < first_page va + page_span va size ->
     translate (ram (k_ms k)) (V2P d) x false = None) ->
  runs (mappages d va size pa perm) k (fun r k' => holds k' c n H /\
    exists N T' fl', fl = N ++ fl' /\ T' ≡ₚ N ++ T /\ vm_inv k' d T' fl' /\
      same_outside (d :: T') (ram (k_ms k)) (ram (k_ms k')) /\
      (forall x w, 0 <= x < 2 ^ 32 -> ~ (first_page va <= x < first_page va + page_span va size) ->
         translate (ram (k_ms k')) (V2P d) x w = translate (ram (k_ms k)) (V2P d) x w) /\
      (r = 0 /\ (forall x w, first_page va <= x < first_page va + page_span va size ->
         translate (ram (k_ms k')) (V2P d) x w =
           if negb w || nz (Z.land perm PTE_W) then Some (pa + (x - first_page va)) else None) \/
       r = -1 /\ fl' = [])).
Proof.
  intros Hk HL Hn HI H0 Hs H1 Hpa Hp0 Hp1 Hperm Hun. pose proof (vi_dir _ _ _ _ HI) as Pd.
  destruct (page_span_spec va size H0 Hs H1) as (nn & Esp & Ha & Hf & Hsp & _).
  eapply wp_mono; [|apply (mappages_holds k c n H d T fl va size pa perm); try done].
  - intros r k' (Hk' & Ho & Hm). pose proof Hm as (T' & fl' & HI' & (N & EN & EP) & Hout & Hoth & Hr). split; [done|].
    exists N, T', fl'. do 4 (split; [done|]). split.
    + intros x w Hx Hx'. rewrite !translate_pte0 by done. by rewrite Hoth.
    + destruct Hr as [[-> _]|Hr]; [left|by right]. split; [done|]. intros x w Hx.
      eapply maps_translate; eauto; [lia|]. rewrite Esp. by rewrite Z.mod_mul.
  - intros x Hx Hx'. specialize (Hun x Hx'). rewrite translate_pte0 in Hun by done. simpl in Hun.
    by destruct (present _).
Qed.


(** C13. [freevm] gives back every page of an address space exactly once: the
    pages mapped in the user part, the page tables and the directory; no memory
    outside them changes. *)
Theorem freevm_frees_all k c n H d T fl :
  holds k c n H -> LKkmem ∉ H -> n < 2 ^ 30 - 2 -> vm_inv k d T fl ->
  freeable (ram (k_ms k)) d 0 (page_count 0 KERNBASE) T fl ->
  runs (freevm d) k (fun _ k' => holds k' c n H /\
    same_outside (d :: T ++ user_pages (ram (k_ms k)) d) (ram (k_ms k)) (ram (k_ms k')) /\
    exists fl', kmem_inv k' fl' /\ fl' ≡ₚ d :: T ++ user_pages (ram (k_ms k)) d ++ fl).
Proof.
  intros Hk HL Hn HI Hfr. eapply wp_mono; [|by apply (freevm_holds k c n H d T fl)].
  intros _ k' (Hk' & _ & Hout & Hl). done.
Qed.

End AddrSpace.

(** ** Concrete instances *)

(** The small machine with one free page and a zeroed page for a directory. *)
Definition kernel_vm : kernel unit := mkK hw0 ∅ ∅ ps0 (mkMs ∅ 0 0x80121000 0) cons0 tt.

Lemma kernel_vm_holds : holds kernel_vm 0 0 [].
Proof. by eapply holds_ext; [..|exact kernel0_holds]. Qed.

Lemma kernel_vm_kmem : kmem_inv kernel_vm [0x80121000].
Proof.
  split; [done|repeat constructor; set_solver|]. constructor; [|done].
  unfold page_ok. simpl. unfold V2P, PHYSTOP, KERNBASE. split; [done|]. split; [lia|]. vm_compute. done.
Qed.

Lemma kernel_vm_inv : vm_inv kernel_vm 0x80120000 [] [0x80121000].
Proof.
  assert (forall i, pde_at ∅ 0x80120000 i = 0) as Hp.
  { intros i. done. }
  split; simpl.
  - apply kernel_vm_kmem.
  - intros x. done.
  - apply page_0x80120000_ok.
  - constructor.
  - repeat constructor; set_solver.
  - intros i Hi. by rewrite Hp.
  - intros i j Hi Hj. by rewrite Hp.
  - intros t Ht. by apply elem_of_nil in Ht.
Qed.

Lemma kernel_vm_empty va : pte0 (ram (k_ms kernel_vm)) 0x80120000 va = 0.
Proof. done. Qed.

Lemma mappages_maps_witness :
  runs (mappages 0x80120000 0x1000 0x1000 0x122000 6) kernel_vm (fun r k' =>
    r = 0 /\ translate (ram (k_ms k')) 0x120000 0x1abc true = Some 0x122abc \/ r = -1).
Proof.
  assert (first_page 0x1000 = 0x1000) as Ef by done. assert (page_span 0x1000 0x1000 = 0x1000) as Es by done.
  pose proof (mappages_maps kernel_vm 0 0 [] 0x80120000 [] [0x80121000] 0x1000 0x1000 0x122000 6
    kernel_vm_holds (not_elem_of_nil _) ltac:(lia) kernel_vm_inv ltac:(lia) ltac:(lia) ltac:(lia) eq_refl ltac:(lia)) as Hm.
  rewrite Ef, Es in Hm. eapply runs_mono; [apply Hm; [lia|unfold PGSIZE; lia|]|]; clear Hm.
  - intros x Hx. rewrite translate_pte0 by (apply page_0x80120000_ok || lia). by rewrite kernel_vm_empty.
  - intros r k' (_ & N & T' & fl' & _ & _ & _ & _ & _ & [[-> Hr]|[-> _]]); [left|by right].
    split; [done|]. apply (Hr 0x1abc true). lia.
Defined.


Lemma freevm_frees_all_witness :
  runs (freevm 0x80120000) kernel_vm (fun _ k' => exists fl', kmem_inv k' fl' /\ fl' ≡ₚ [0x80120000; 0x80121000]).
Proof.
  destruct (no_user_freeable kernel_vm 0x80120000 [] [0x80121000] KERNBASE kernel_vm_inv) as [E Hfr];
    [intros va _; by rewrite kernel_vm_empty|unfold KERNBASE; lia|done|].
  eapply runs_mono; [exact (freevm_frees_all kernel_vm 0 0 [] 0x80120000 [] [0x80121000]
    kernel_vm_holds (not_elem_of_nil _) ltac:(lia) kernel_vm_inv Hfr)|].
  unfold user_pages. rewrite E. intros _ k' (_ & _ & Hl). exact Hl.
Defined.
