(* ===== verification/UserMem.v ===== *)
(** * User address spaces (vm.c: copyuvm, allocuvm)

    An address space is described by its user pages in order, each with its
    flags.  [copyuvm] makes a second one with the same contents in pages of its
    own, or gives back all it took; [allocuvm] adds zeroed pages at the end, or
    takes them away again. *)

From S2P Require Import Prelude Params State Mem Spinlock Seg Str Cprintf Kalloc Vm VmSpec AddrSpace Demo.

Section UserMem.
Context {F : Type} {LK : Linker} {LKO : LinkerOk}.
Implicit Types (k : kernel F).

(** ** Address spaces *)

(** The directory [d] with tables [T] maps the pages [ps], with their flags, from
    address 0 on. *)
Record uspace (k : kernel F) (d : Z) (ps : list (Z * Z)) (T fl : list Z) : Prop := {
  us_vm : vm_inv k d T fl;
  us_pte : forall va, 0 <= va < KERNBASE ->
    match ps !! Z.to_nat (va / PGSIZE) with
    | Some (p, f) => pte0 (ram (k_ms k)) d va = V2P p + f
    | None => present (pte0 (ram (k_ms k)) d va) = false
    end;
  us_pages : Forall (fun pf => page_ok pf.1 /\ 0 <= pf.2 < PGSIZE /\ present pf.2 = true) ps;
  us_apart : NoDup (ps.*1 ++ d :: T ++ fl)
}.

(** Above them the directory maps the kernel. *)
Definition kernel_part (k : kernel F) (d : Z) : Prop :=
  forall va, KERNBASE <= va < 2 ^ 32 -> pte0 (ram (k_ms k)) d va = kptes kmap (fun _ => 0) va.

(** The entries depend on the directory and its tables. *)
Lemma pte0_tables k d T fl m' va :
  vm_inv k d T fl -> (forall q x, q ∈ d :: T -> in_page q x -> ld8 m' x = ld8 (ram (k_ms k)) x) ->
  0 <= va < 2 ^ 32 -> pte0 m' d va = pte0 (ram (k_ms k)) d va.
Proof.
  intros HI Hx Hva.
  assert (pde_at m' d (PDX va) = pde_at (ram (k_ms k)) d (PDX va)) as E.
  { apply pde_at_same; [|by apply PDX_range]. intros x. apply Hx. left. }
  unfold pte0. rewrite E. destruct (present _) eqn:Ep; [|done].
  destruct (vi_used _ _ _ _ HI (PDX va) (PDX_range _ Hva) Ep) as (t & Ht & Et). rewrite Et.
  destruct (table_page _ _ _ _ HI t Ht) as (Pt & _). pose proof (PTX_range va Hva).
  apply ld32_in_page; [|lia|unfold PGSIZE; lia]. intros x. apply Hx. by right.
Qed.

(** The invariant of the tables under changes outside of them. *)
Lemma pte0_outside k d T fl P m' va :
  vm_inv k d T fl -> same_outside P (ram (k_ms k)) m' -> Forall page_ok P -> (forall p, p ∈ P -> p ∉ d :: T) ->
  0 <= va < 2 ^ 32 -> pte0 m' d va = pte0 (ram (k_ms k)) d va.
Proof.
  intros HI Ho HP Hd Hva. apply (pte0_tables k d T fl m' va HI); [|done]. intros q x Hq Hx. apply Ho. intros p Hp.
  apply (pages_apart q p x); [|by eapply (Forall_elem page_ok)|intros ->; by apply (Hd p)|done].
  apply elem_of_cons in Hq as [->|Hq]; [apply HI|]. apply (Forall_elem _ _ _ (vi_tables _ _ _ _ HI) Hq).
Qed.

Lemma vm_inv_frame k k' d T fl fl' P :
  vm_inv k d T fl -> same_outside P (ram (k_ms k)) (ram (k_ms k')) -> Forall page_ok P -> (forall p, p ∈ P -> p ∉ d :: T) ->
  kmem_inv k' fl' -> bytes_ok (ram (k_ms k')) -> NoDup (d :: T ++ fl') -> vm_inv k' d T fl'.
Proof.
  intros HI Ho HP Hd Hk Hb Hn.
  assert (forall i, 0 <= i < 1024 -> pde_at (ram (k_ms k')) d i = pde_at (ram (k_ms k)) d i) as E.
  { intros i Hi. apply pde_at_same; [|done]. intros x Hx. apply Ho. intros p Hp.
    apply (pages_apart d p x); auto; [apply HI|by eapply (Forall_elem page_ok)|]. intros ->. apply (Hd p Hp). left. }
  destruct HI as [_ _ Pd HT _ Hu Ho' Ha]. split; auto.
  - intros i Hi. rewrite E by done. auto.
  - intros i j Hi Hj. rewrite !E by done. auto.
  - intros t Ht. destruct (Ha t Ht) as (i & Hi & Hp). exists i. split; [done|]. by rewrite E.
Qed.

(** An address space stays when other pages change. *)
Lemma uspace_frame k k' d ps T fl fl' P :
  uspace k d ps T fl -> same_outside P (ram (k_ms k)) (ram (k_ms k')) -> Forall page_ok P -> (forall p, p ∈ P -> p ∉ d :: T) ->
  kmem_inv k' fl' -> bytes_ok (ram (k_ms k')) -> NoDup (ps.*1 ++ d :: T ++ fl') -> uspace k' d ps T fl'.
Proof.
  intros [HI Hp Hps _] Ho HP Hd Hm Hb Hn. split; auto.
  - eapply vm_inv_frame; eauto. by apply list.NoDup_app in Hn as (_ & _ & Hn).
  - intros va Hva. rewrite (pte0_outside k d T fl P (ram (k_ms k')) va HI Ho HP Hd) by (unfold KERNBASE in *; lia). exact (Hp va Hva).
Qed.

(** The pages of the user part. *)
Lemma upages_uspace k d ps T fl j cnt :
  uspace k d ps T fl -> (Z.of_nat j + Z.of_nat cnt) * PGSIZE <= KERNBASE ->
  upages (ram (k_ms k)) d (Z.of_nat j * PGSIZE) cnt = (take cnt (drop j ps)).*1.
Proof.
  intros HU. revert j. induction cnt as [|cnt IH]; intros j Hj; [by rewrite take_0|]. cbn [upages].
  replace (Z.of_nat j * PGSIZE + PGSIZE) with (Z.of_nat (S j) * PGSIZE) by lia. rewrite IH by lia.
  pose proof (us_pte _ _ _ _ _ HU (Z.of_nat j * PGSIZE)) as Hp. rewrite Z.div_mul, Nat2Z.id in Hp by (unfold PGSIZE; lia).
  specialize (Hp ltac:(unfold PGSIZE, KERNBASE in *; lia)). destruct (ps !! j) as [[p f]|] eqn:E.
  - rewrite (drop_S _ _ _ E). cbn [take fmap list_fmap fst]. rewrite Hp.
    destruct (Forall_lookup_1 _ _ _ _ (us_pages _ _ _ _ _ HU) E) as (Pp & Hf & Hpf). cbn [fst snd] in *.
    pose proof (page_frame p Pp). destruct (page_ok_V2P p Pp).
    rewrite present_frame, Hpf by (by apply page_ok_aligned). rewrite PTE_ADDR_frame by (done || lia || by apply page_ok_aligned).
    by rewrite P2V_V2P.
  - rewrite Hp. apply lookup_ge_None in E. rewrite !drop_ge by lia. by rewrite !take_nil.
Qed.

(** Short enough to fit below the kernel. *)
Lemma uspace_length k d ps T fl : uspace k d ps T fl -> (length ps <= page_count 0 KERNBASE)%nat ->
  user_pages (ram (k_ms k)) d = ps.*1 /\ freeable (ram (k_ms k)) d 0 (page_count 0 KERNBASE) T fl.
Proof.
  intros HU Hl. assert (upages (ram (k_ms k)) d 0 (page_count 0 KERNBASE) = ps.*1) as E.
  { pose proof (upages_uspace k d ps T fl 0 (page_count 0 KERNBASE) HU) as H. rewrite drop_0, take_ge in H by done. apply H.
    pose proof (page_count_whole KERNBASE ltac:(done) eq_refl). lia. }
  unfold user_pages, freeable. rewrite E. split; [done|]. split; [|apply HU].
  apply Forall_fmap. eapply list.Forall_impl; [apply HU|]. intros pf (? & _). done.
Qed.

(** ** Adding a page *)

Lemma page_of_div (j : nat) va : Z.to_nat (va / PGSIZE) = j -> 0 <= va -> Z.of_nat j * PGSIZE <= va < Z.of_nat j * PGSIZE + PGSIZE.
Proof. unfold PGSIZE. intros H H0. pose proof (Z.div_mod va 4096). pose proof (Z.mod_pos_bound va 4096). assert (0 <= va / 4096) by (apply Z.div_pos; lia). lia. Qed.

Lemma div_of_page (j : nat) va : Z.of_nat j * PGSIZE <= va < Z.of_nat j * PGSIZE + PGSIZE -> Z.to_nat (va / PGSIZE) = j.
Proof.
  intros Hr. replace va with ((va - Z.of_nat j * PGSIZE) + Z.of_nat j * PGSIZE) by lia. rewrite Z.div_add, Z.div_small by (unfold PGSIZE in *; lia). lia.
Qed.

(** The entry [ps] is extended by. *)
Lemma uspace_add k k' d ps T fl T' fl' p perm :
  uspace k d ps T fl -> page_ok p -> p ∉ ps.*1 ++ d :: T ++ fl -> 0 <= perm < PGSIZE ->
  vm_inv k' d T' fl' -> grown T fl T' fl' ->
  (forall va, 0 <= va < 2 ^ 32 -> pte0 (ram (k_ms k')) d va =
     if decide (Z.of_nat (length ps) * PGSIZE <= va < Z.of_nat (length ps) * PGSIZE + PGSIZE)
     then V2P p + Z.lor perm PTE_P else pte0 (ram (k_ms k)) d va) ->
  Z.of_nat (length ps) * PGSIZE + PGSIZE <= KERNBASE ->
  uspace k' d (ps ++ [(p, Z.lor perm PTE_P)]) T' fl'.
Proof.
  intros [HI Hpte Hps Hnd] Pp Hnin Hperm HI' (N & -> & HT) Hnew Hl. split; [done|..].
  - intros va Hva. rewrite Hnew by (unfold KERNBASE in *; lia). specialize (Hpte va Hva).
    destruct (decide (Z.to_nat (va / PGSIZE) = length ps)) as [E|E].
    + rewrite E, lookup_app_r, Nat.sub_diag by lia. cbn [lookup list_lookup]. rewrite decide_True; [done|]. apply page_of_div; [done|lia].
    + rewrite decide_False; [|intros Hr; apply E; by apply div_of_page].
      destruct (decide (Z.to_nat (va / PGSIZE) < length ps)%nat).
      * by rewrite lookup_app_l by done.
      * rewrite lookup_ge_None_2 in Hpte by lia. rewrite lookup_ge_None_2; [done|]. rewrite length_app. simpl. lia.
  - apply Forall_app_2; [done|]. apply Forall_singleton. split; [done|]. split; [by apply lor_P_range|apply present_lor_P].
  - rewrite fmap_app. cbn [fmap list_fmap fst]. rewrite <-app_assoc. cbn [app]. rewrite HT, <-app_assoc.
    rewrite <-Permutation_middle. apply list.NoDup_cons. rewrite (app_assoc N T fl'), (Permutation_app_comm N T), <-(app_assoc T N fl'). done.
Qed.

(** A single page is mapped unless there is no page for its table. *)
Lemma mappages_one k c n H d T fl a pa perm :
  holds k c n H -> LKkmem ∉ H -> n < 2 ^ 30 - 2 -> vm_inv k d T fl -> 0 <= a -> a `mod` PGSIZE = 0 -> a + PGSIZE <= 2 ^ 32 ->
  pa `mod` PGSIZE = 0 -> 0 <= pa -> pa + PGSIZE <= 2 ^ 32 -> 0 <= perm < PGSIZE -> present (pte0 (ram (k_ms k)) d a) = false ->
  runs (mappages d a PGSIZE pa perm) k (fun r k' => holds k' c n H /\ ms_only k k' /\
    (r = 0 /\ (exists T' fl', grown T fl T' fl' /\ vm_inv k' d T' fl' /\ same_outside (d :: T') (ram (k_ms k)) (ram (k_ms k')) /\
       (forall va, 0 <= va < 2 ^ 32 -> pte0 (ram (k_ms k')) d va =
          if decide (a <= va < a + PGSIZE) then pa + Z.lor perm PTE_P else pte0 (ram (k_ms k)) d va)) \/
     r = -1 /\ fl = [] /\ vm_inv k' d T [] /\ ram (k_ms k') = ram (k_ms k))).
Proof.
  intros Hk HL Hn HI Ha0 Ham Ha1 Hpm Hp0 Hp1 Hperm Hun.
  destruct (page_span_spec a PGSIZE Ha0 ltac:(unfold PGSIZE; lia) ltac:(lia)) as (nn & Esp & _ & _ & _ & E1 & E2 & E3).
  rewrite first_page_aligned in * by done. rewrite page_span_aligned in Esp by done.
  replace nn with 0%nat in * by (unfold PGSIZE in *; lia). unfold runs, mappages. rewrite E3, E1, E2, Z.mul_0_l, Z.add_0_r. cbn [map_loop].
  apply (wp_map_page k c n H d T fl); try done; try (unfold PGSIZE in *; lia).
  - intros k' Hk' Ho HI' -> Hm. split; [done|]. split; [done|]. by right.
  - intros k' T' fl' Hk' Ho HI' Hg Hout Hpte. rewrite Z.eqb_refl, ret_eq. split; [done|]. split; [done|]. left. split; [done|]. by exists T', fl'.
Qed.

Lemma map_user_page k c n H d ps T fl p perm :
  holds k c n H -> LKkmem ∉ H -> n < 2 ^ 30 - 2 -> uspace k d ps T fl -> page_ok p -> p ∉ ps.*1 ++ d :: T ++ fl ->
  0 <= perm < PGSIZE -> Z.of_nat (length ps) * PGSIZE + PGSIZE <= KERNBASE ->
  runs (mappages d (Z.of_nat (length ps) * PGSIZE) PGSIZE (V2P p) perm) k (fun r k' => holds k' c n H /\ ms_only k k' /\
    (r = 0 /\ (exists T' fl', grown T fl T' fl' /\ uspace k' d (ps ++ [(p, Z.lor perm PTE_P)]) T' fl' /\
       same_outside (d :: T') (ram (k_ms k)) (ram (k_ms k')) /\
       (forall va, KERNBASE <= va < 2 ^ 32 -> pte0 (ram (k_ms k')) d va = pte0 (ram (k_ms k)) d va)) \/
     r = -1 /\ fl = [] /\ uspace k' d ps T [] /\ ram (k_ms k') = ram (k_ms k))).
Proof.
  intros Hk HL Hn HU Pp Hnin Hperm Hl. pose proof (page_frame p Pp) as Hfr. set (a := Z.of_nat (length ps) * PGSIZE) in *.
  assert (0 <= a /\ a `mod` PGSIZE = 0 /\ a + PGSIZE <= 2 ^ 31) as (Ha0 & Ham & Ha1).
  { unfold a in *. split; [unfold PGSIZE; lia|]. split; [apply Z.mod_mul; unfold PGSIZE; lia|]. unfold KERNBASE in Hl. lia. }
  assert (present (pte0 (ram (k_ms k)) d a) = false) as Hun.
  { pose proof (us_pte _ _ _ _ _ HU a ltac:(unfold KERNBASE, PGSIZE in *; lia)) as Hp. unfold a in Hp at 1.
    rewrite Z.div_mul, Nat2Z.id, lookup_ge_None_2 in Hp by (lia || unfold PGSIZE; lia). done. }
  eapply wp_mono; [|apply (mappages_one k c n H d T fl a (V2P p) perm Hk HL Hn (us_vm _ _ _ _ _ HU)); try done; try lia; by apply page_ok_aligned].
  intros r k' (Hk' & Ho & [(-> & T' & fl' & Hg & HI' & Hout & Hpte)|(-> & -> & HI' & Hm)]); (split; [done|]); (split; [done|]).
  - left. split; [done|]. exists T', fl'. split; [done|]. split; [by apply (uspace_add k k' d ps T fl T' fl' p perm)|]. split; [done|].
    intros va Hva. rewrite Hpte, decide_False by (unfold KERNBASE in *; lia). done.
  - right. split; [done|]. split; [done|]. split; [|done].
    apply (uspace_frame k k' d ps T [] [] []); [done|by rewrite Hm|constructor|set_solver|apply HI'|apply HI'|apply HU].
Qed.

Lemma perm_free (A : list Z) d T (p : Z) fl : A ++ d :: T ++ p :: fl ≡ₚ p :: A ++ d :: T ++ fl.
Proof. rewrite (Permutation_middle A (d :: T ++ fl) p). apply Permutation_app_head. by rewrite <-(Permutation_middle T fl p), (Permutation_swap p d). Qed.

Lemma uspace_cons_free k d ps T p fl : uspace k d ps T (p :: fl) ->
  page_ok p /\ (p ∉ ps.*1 ++ d :: T ++ fl) /\ NoDup (ps.*1 ++ d :: T ++ fl).
Proof.
  intros HU. split; [apply (Forall_elem _ _ _ (km_pages _ _ (vi_kmem _ _ _ _ (us_vm _ _ _ _ _ HU)))); left|].
  apply list.NoDup_cons. rewrite <-perm_free. apply HU.
Qed.

(** A page from the free list. *)
Lemma kalloc_user k c n H d ps T fl :
  holds k c n H -> LKkmem ∉ H -> n < 2 ^ 30 - 2 -> uspace k d ps T fl ->
  runs kalloc k (fun p k' => holds k' c n H /\ ms_only k k' /\ ram (k_ms k') = ram (k_ms k) /\
    (p = 0 /\ fl = [] /\ uspace k' d ps T [] \/
     exists fl', fl = p :: fl' /\ page_ok p /\ (p ∉ ps.*1 ++ d :: T ++ fl') /\ uspace k' d ps T fl')).
Proof.
  intros Hk HL Hn HU. pose proof (us_vm _ _ _ _ _ HU) as HI.
  eapply wp_mono; [|apply (kalloc_holds k c n H fl Hk HL Hn (vi_kmem _ _ _ _ HI))]. intros p k' (Hk' & -> & Hi' & Hc).
  pose proof (core_ms _ _ Hc) as Hm. cbn [k_ms set_k_ms] in Hm. assert (ram (k_ms k') = ram (k_ms k)) as Er by (by rewrite Hm, popped_page_ram).
  assert (forall fl', fl' = tail fl -> NoDup (ps.*1 ++ d :: T ++ fl') -> uspace k' d ps T fl') as HU'.
  { intros fl' -> Hnd. apply (uspace_frame k k' d ps T fl (tail fl) []); [done|by rewrite Er|constructor|set_solver|done|rewrite Er; apply HI|done]. }
  split; [done|]. split.
  { eapply ms_only_core; [apply (ms_only_set k (popped_page (k_ms k)))|exact Hc]; unfold popped_page; by destruct (nz _). }
  split; [done|]. destruct fl as [|p fl]; cbn [hd tail] in *.
  - left. split; [done|]. split; [done|]. apply HU'; [done|apply HU].
  - right. exists fl. split; [done|]. destruct (uspace_cons_free k d ps T p fl HU) as (Pp & Hnin & Hnd). split; [done|]. split; [done|]. by apply HU'.
Qed.

(** A page that belongs to nobody is written. *)
Lemma write_page k c n H d ps T fl p m' :
  holds k c n H -> uspace k d ps T fl -> page_ok p -> p ∉ d :: T ++ fl -> same_outside [p] (ram (k_ms k)) m' -> bytes_ok m' ->
  let k' := set_k_ms (set_ram m' (k_ms k)) k in holds k' c n H /\ ms_only k k' /\ uspace k' d ps T fl.
Proof.
  intros Hk HU Pp Hnin Ho Hb k'. split; [by eapply holds_ext; [..|exact Hk]|]. split; [by apply ms_only_set|].
  pose proof (us_vm _ _ _ _ _ HU) as HI.
  apply (uspace_frame k k' d ps T fl fl [p]); [done|done|by constructor| | |done|apply HU].
  - intros q Hq. apply list_elem_of_singleton in Hq as ->. set_solver.
  - apply (kmem_same k); [apply HI|done|]. intros q x Hq Hx. apply Ho. intros q' Hq'. apply list_elem_of_singleton in Hq' as ->.
    apply (pages_apart q p x); auto; [apply (Forall_elem _ _ _ (km_pages _ _ (vi_kmem _ _ _ _ HI)) Hq)|]. intros ->. apply Hnin. set_solver.
Qed.

(** A page is given back. *)
Lemma kfree_user k c n H d ps T fl p :
  holds k c n H -> LKkmem ∉ H -> n < 2 ^ 30 - 2 -> uspace k d ps T fl -> page_ok p -> p ∉ ps.*1 ++ d :: T ++ fl ->
  runs (kfree p) k (fun _ k' => holds k' c n H /\ ms_only k k' /\ uspace k' d ps T (p :: fl) /\
    same_outside [p] (ram (k_ms k)) (ram (k_ms k'))).
Proof.
  intros Hk HL Hn HU Pp Hnin. pose proof (us_vm _ _ _ _ _ HU) as HI.
  eapply wp_mono; [|apply (kfree_vm k c n H d T fl p Hk HL Hn HI Pp); set_solver].
  intros _ k' (Hk' & Ho & HI' & Hout & _ & _). split; [done|]. split; [done|]. split; [|done].
  apply (uspace_frame k k' d ps T fl (p :: fl) [p]); [done|done|by constructor| |apply HI'|apply HI'|].
  - intros q Hq. apply list_elem_of_singleton in Hq as ->. set_solver.
  - rewrite perm_free. apply list.NoDup_cons. split; [done|apply HU].
Qed.

(** ** Copying *)

Definition page_same (m m' : gmap Z Z) (q p : Z) : Prop := forall o, 0 <= o < PGSIZE -> ld8 m' (V2P p + o) = ld8 m (V2P q + o).

(** Between [k] and [k'] the pages [ps] with the contents of [src] have been put in
    the new directory [d], all of it in pages of the free list. *)
Record copied (k k' : kernel F) (d : Z) (src ps : list (Z * Z)) (T fl fl' : list Z) : Prop := {
  cp_space : uspace k' d ps T fl';
  cp_kernel : kernel_part k' d;
  cp_pages : d :: T ++ ps.*1 ++ fl' ≡ₚ fl;
  cp_frame : same_outside (d :: T ++ ps.*1) (ram (k_ms k)) (ram (k_ms k'));
  cp_same : Forall2 (fun q p => p.2 = q.2 /\ page_same (ram (k_ms k)) (ram (k_ms k')) q.1 p.1) src ps
}.

(** What is left when it was given up. *)
Record given_up (k k' : kernel F) (d : Z) (ps : list (Z * Z)) (T fl fl' : list Z) : Prop := {
  gu_space : uspace k' d ps T fl';
  gu_pages : d :: T ++ ps.*1 ++ fl' ≡ₚ fl;
  gu_frame : same_outside fl (ram (k_ms k)) (ram (k_ms k'))
}.

(** An address space when only pages of the free list have been written. *)
Lemma uspace_source k k' d0 ps0 T0 fl fl' :
  uspace k d0 ps0 T0 fl -> same_outside fl (ram (k_ms k)) (ram (k_ms k')) -> kmem_inv k' fl' -> bytes_ok (ram (k_ms k')) ->
  (forall p, p ∈ fl' -> p ∈ fl) -> uspace k' d0 ps0 T0 fl'.
Proof.
  intros HU Ho Hk Hb Hs. pose proof (us_apart _ _ _ _ _ HU) as Hnd. pose proof (km_nodup _ _ Hk).
  assert (forall p, p ∈ fl -> p ∉ ps0.*1 ++ d0 :: T0) as Hdis.
  { intros p Hp Hin. rewrite (app_comm_cons T0 fl d0), app_assoc in Hnd. apply list.NoDup_app in Hnd as (_ & Hnd & _). by apply (Hnd p). }
  apply (uspace_frame k k' d0 ps0 T0 fl fl' fl); try done.
  - apply (us_vm _ _ _ _ _ HU).
  - intros p Hp. specialize (Hdis p Hp). set_solver.
  - rewrite (app_comm_cons T0 fl' d0), app_assoc. rewrite (app_comm_cons T0 fl d0), app_assoc in Hnd. apply list.NoDup_app in Hnd as (Hn0 & _ & _).
    apply list.NoDup_app. split; [done|]. split; [|done]. intros p Hp Hp'. by apply (Hdis p (Hs p Hp')).
Qed.

Lemma copied_up k k' d src ps T fl fl' : copied k k' d src ps T fl fl' -> given_up k k' d ps T fl fl'.
Proof.
  intros [HU _ Hp Ho _]. split; [done|done|]. eapply same_outside_weaken; [|exact Ho]. intros p Hin. rewrite <-Hp, app_comm_cons, app_assoc. set_solver.
Qed.

Lemma given_up_source k k' d ps T fl fl' d0 ps0 T0 :
  given_up k k' d ps T fl fl' -> uspace k d0 ps0 T0 fl -> uspace k' d0 ps0 T0 fl'.
Proof.
  intros [HU Hp Ho] HU0. pose proof (us_vm _ _ _ _ _ HU) as HI. eapply uspace_source; [done|done|apply HI|apply HI|].
  intros p Hin. rewrite <-Hp. set_solver.
Qed.

(** Everything is freed again. *)
Lemma given_up_freevm k k1 c n H d ps T fl fl1 :
  holds k1 c n H -> LKkmem ∉ H -> n < 2 ^ 30 - 2 -> given_up k k1 d ps T fl fl1 -> (length ps <= page_count 0 KERNBASE)%nat ->
  runs (freevm d) k1 (fun _ k' => holds k' c n H /\ ms_only k1 k' /\ same_outside fl (ram (k_ms k)) (ram (k_ms k')) /\
    exists fl', kmem_inv k' fl' /\ fl' ≡ₚ fl).
Proof.
  intros Hk HL Hn [HU Hp Ho] Hl. destruct (uspace_length k1 d ps T fl1 HU Hl) as [Eu Hfr].
  eapply wp_mono; [|apply (freevm_holds k1 c n H d T fl1 Hk HL Hn (us_vm _ _ _ _ _ HU) Hfr)]. rewrite Eu.
  intros _ k' (Hk' & Ho' & Hout & fl' & Hi & Hfl). split; [done|]. split; [done|]. split; [|exists fl'; split; [done|by rewrite Hfl]].
  eapply same_outside_weaken; [|exact (same_outside_trans _ _ _ _ _ Ho Hout)]. intros p Hin. rewrite <-Hp in Hin |- *. set_solver.
Qed.

(** The entry of a page of an address space. *)
Lemma uspace_entry k d ps T fl j q f :
  uspace k d ps T fl -> ps !! j = Some (q, f) -> Z.of_nat j * PGSIZE < KERNBASE ->
  exists pte, walkpgdir d (Z.of_nat j * PGSIZE) false k = Done pte k /\ pte <> 0 /\ kload32 pte k = Done (V2P q + f) k /\
    present (V2P q + f) = true /\ PTE_ADDR (V2P q + f) = V2P q /\ PTE_FLAGS (V2P q + f) = f.
Proof.
  intros HU E Hj. set (va := Z.of_nat j * PGSIZE) in *. assert (0 <= va < 2 ^ 32) as Hva by (unfold va, PGSIZE, KERNBASE in *; lia).
  destruct (Forall_lookup_1 _ _ _ _ (us_pages _ _ _ _ _ HU) E) as (Pq & Hf & Hpf). cbn [fst snd] in *.
  pose proof (page_frame q Pq) as Hfr. pose proof (page_ok_aligned q Pq) as Hal.
  assert (present (V2P q + f) = true) as Hp by (by rewrite present_frame).
  pose proof (us_pte _ _ _ _ _ HU va ltac:(unfold KERNBASE in *; lia)) as He. unfold va in He at 1.
  rewrite Z.div_mul, Nat2Z.id, E in He by (unfold PGSIZE; lia).
  destruct (present (pde_at (ram (k_ms k)) d (PDX va))) eqn:Ep.
  2:{ unfold pte0 in He. rewrite Ep in He. rewrite <-He in Hp. done. }
  destruct (walk_present k d T fl va false (us_vm _ _ _ _ _ HU) Hva Ep) as (t & Ht & Et & Ew).
  destruct (table_page _ _ _ _ (us_vm _ _ _ _ _ HU) t Ht) as (Pt & _). destruct (page_ok_V2P t Pt) as [_ Hgt].
  pose proof (PTX_range va Hva). exists (t + 4 * PTX va). split; [done|]. split; [unfold KERNBASE in *; lia|]. split; [|split; [done|split]].
  - unfold kload32. rewrite gets_eq. f_equal. rewrite V2P_off by (done || unfold PGSIZE; lia). rewrite <-He. symmetry.
    by apply (pte0_table k d va t).
  - apply PTE_ADDR_frame; [lia|lia|done|done].
  - rewrite PTE_FLAGS_spec by (unfold PGSIZE in *; lia). rewrite Zplus_mod, Hal, Z.add_0_l, Zmod_mod. by apply Z.mod_small.
Qed.

Lemma lor_present f : present f = true -> Z.lor f PTE_P = f.
Proof.
  rewrite present_odd. intros H. apply Z.bits_inj'. intros i Hi. rewrite Z.lor_spec. unfold PTE_P.
  destruct (decide (i = 0)) as [->|]; [by rewrite Z.bit0_odd, H|].
  replace (Z.testbit 1 i) with false; [by rewrite orb_false_r|]. symmetry. change 1 with (2 ^ 0). apply Z.pow2_bits_false. done.
Qed.

Lemma bytes_ok_memmove m dst src n : 0 <= n -> bytes_ok m -> bytes_ok (memmove m dst src n).
Proof. intros Hn Hb x. rewrite ld8_memmove by done. case_decide; apply Hb. Qed.

(** A directory without user pages. *)
Lemma kernel_space k d T fl : vm_inv k d T fl ->
  (forall va, 0 <= va < 2 ^ 32 -> pte0 (ram (k_ms k)) d va = kptes kmap (fun _ => 0) va) -> uspace k d [] T fl /\ kernel_part k d.
Proof.
  intros HI Hp. split; [split; [done| |constructor|apply HI]|].
  - intros va Hva. cbn [lookup list_lookup]. rewrite Hp by (unfold KERNBASE in *; lia). rewrite kptes_skip; [done|].
    intros e He. pose proof (Forall_elem _ _ _ kmap_ok He) as Hok. destruct e as [[[virt p0] p1] perm]. unfold kent_ok, kcovers in *. lia.
  - intros va Hva. apply Hp. unfold KERNBASE in *. lia.
Qed.

(** The page put in last is none of the tables. *)
Lemma uspace_last k d ps T fl p f x : uspace k d (ps ++ [(p, f)]) T fl -> in_page p x -> forall q, q ∈ d :: T -> ~ in_page q x.
Proof.
  intros HU Hx q Hq. pose proof (us_vm _ _ _ _ _ HU) as HI. pose proof (us_pages _ _ _ _ _ HU) as [_ Hp]%list.Forall_app. apply list.Forall_cons in Hp as [Hp _].
  pose proof (us_apart _ _ _ _ _ HU) as Hnd. rewrite fmap_app, <-app_assoc in Hnd. apply list.NoDup_app in Hnd as (_ & _ & Hnd).
  cbn [fmap list_fmap fst app] in Hnd. apply list.NoDup_cons in Hnd as [Hnd _].
  apply (pages_apart p q); [apply Hp| |intros ->; apply Hnd; set_solver|done].
  apply elem_of_cons in Hq as [->|Hq]; [apply HI|]. apply (Forall_elem _ _ _ (vi_tables _ _ _ _ HI) Hq).
Qed.

Section Copy.
Context (k0 : kernel F) (d0 : Z) (ps0 : list (Z * Z)) (T0 fl0 : list Z) (HU0 : uspace k0 d0 ps0 T0 fl0).

(** The page [p] is the next copy. *)
Lemma copied_next k k' d src ps T fl1 T' fl' p q f :
  copied k0 k d src ps T fl0 (p :: fl1) -> (q, f) ∈ ps0 -> page_ok p ->
  uspace k' d (ps ++ [(p, f)]) T' fl' -> grown T fl1 T' fl' -> same_outside (p :: d :: T') (ram (k_ms k)) (ram (k_ms k')) ->
  page_same (ram (k_ms k)) (ram (k_ms k')) q p -> kernel_part k' d ->
  copied k0 k' d (src ++ [(q, f)]) (ps ++ [(p, f)]) T' fl0 fl'.
Proof.
  intros [HU _ Hp Ho Hs] Hq Pp HU' (N & -> & HT) Ho' Hsame Hker.
  assert (forall x, x ∈ ps0.*1 -> x ∉ fl0) as Hdis.
  { intros x Hx Hf. pose proof (us_apart _ _ _ _ _ HU0) as Hnd. apply list.NoDup_app in Hnd as (_ & Hnd & _). apply (Hnd x Hx). set_solver. }
  assert (q ∈ ps0.*1) as Hq1 by (apply list_elem_of_fmap; by exists (q, f)).
  assert (page_ok q) as Pq.
  { pose proof (us_pages _ _ _ _ _ HU0) as Hall. rewrite list.Forall_forall in Hall. by destruct (Hall _ Hq). }
  assert (forall x o, x ∈ ps0.*1 -> page_ok x -> 0 <= o < PGSIZE -> ld8 (ram (k_ms k)) (V2P x + o) = ld8 (ram (k_ms k0)) (V2P x + o)) as Hold.
  { intros x o Hx Px Hr. apply Ho. intros y Hy. assert (y ∈ fl0) as Hyf by (rewrite <-Hp; set_solver).
    apply (pages_apart x y); [done| |intros ->; by apply (Hdis y)|unfold in_page; lia].
    apply (Forall_elem _ _ _ (km_pages _ _ (vi_kmem _ _ _ _ (us_vm _ _ _ _ _ HU0))) Hyf). }
  split; [done|done|..].
  - rewrite <-Hp, HT, fmap_app. cbn [fmap list_fmap fst]. solve_Permutation.
  - eapply same_outside_weaken; [|exact (same_outside_trans _ _ _ _ _ Ho Ho')]. rewrite fmap_app. intros x. rewrite HT. set_solver.
  - apply Forall2_app; [|constructor; [|done]].
    + pose proof (us_apart _ _ _ _ _ HU') as Hnd. rewrite fmap_app, <-app_assoc in Hnd. cbn [fmap list_fmap fst app] in Hnd.
      pose proof (us_vm _ _ _ _ _ HU') as HI'.
      apply Forall2_same_length_lookup. split; [by eapply Forall2_length|]. intros i q' p' E1 E2. rewrite Forall2_lookup in Hs.
      pose proof (Hs i) as Hi. rewrite E1, E2 in Hi. inversion Hi as [? ? [Ef Hi']|]; subst. split; [done|]. intros o Hr. rewrite <-Hi' by done.
      assert (p'.1 ∈ ps.*1) as Hin by (apply list_elem_of_fmap; exists p'; split; [done|by eapply list_elem_of_lookup_2]).
      apply list.NoDup_app in Hnd as (_ & Hnd & _).
      assert (page_ok p'.1) as Pp'. { pose proof (us_pages _ _ _ _ _ HU) as Hall. destruct (Forall_lookup_1 _ _ _ _ Hall E2) as [? _]. done. }
      apply Ho'. intros y Hy. apply (pages_apart p'.1 y); [done| |intros <-; apply (Hnd p'.1 Hin); set_solver|unfold in_page; lia].
      apply elem_of_cons in Hy as [->|[->|Hy]%elem_of_cons]; [done|apply HI'|]. apply (Forall_elem _ _ _ (vi_tables _ _ _ _ HI') Hy).
    + split; [done|]. intros o Hr. cbn [fst]. rewrite Hsame by done. by apply Hold.
Qed.

(** Where a copy is in the free list. *)
Lemma copied_free k d src ps T p fl : copied k0 k d src ps T fl0 (p :: fl) -> page_ok p /\ (p ∉ ps.*1 ++ d :: T ++ fl) /\ p ∈ fl0.
Proof.
  intros [HU _ Hp _ _]. destruct (uspace_cons_free k d ps T p fl HU) as (? & ? & _). split; [done|]. split; [done|]. rewrite <-Hp. set_solver.
Qed.

Lemma copy_page_holds k c n H d src ps T fl q f :
  holds k c n H -> LKkmem ∉ H -> n < 2 ^ 30 - 2 -> copied k0 k d src ps T fl0 fl -> ps0 !! length ps = Some (q, f) ->
  Z.of_nat (length ps) * PGSIZE + PGSIZE <= KERNBASE ->
  runs (copy_page d0 d (Z.of_nat (length ps) * PGSIZE)) k (fun o k' => holds k' c n H /\ ms_only k k' /\
    match o with
    | None => exists p T' fl', copied k0 k' d (src ++ [(q, f)]) (ps ++ [(p, f)]) T' fl0 fl'
    | Some _ => exists fl', given_up k0 k' d ps T fl0 fl'
    end).
Proof.
  intros Hk HL Hn HC Eq Hl. pose proof (given_up_source _ _ _ _ _ _ _ _ _ _ (copied_up _ _ _ _ _ _ _ _ HC) HU0) as HUs.
  destruct (uspace_entry k d0 ps0 T0 fl _ q f HUs Eq) as (pte & Ew & Hnz & El & Hpr & Ead & Efl); [unfold PGSIZE in *; lia|].
  destruct (Forall_lookup_1 _ _ _ _ (us_pages _ _ _ _ _ HU0) Eq) as (Pq & Hf & Hpf). cbn [fst snd] in *.
  unfold runs, copy_page. rewrite bind_eq, Ew. cbn [res_bind]. rewrite (proj2 (Z.eqb_neq pte 0) Hnz), bind_eq, El. cbn [res_bind].
  fold (present (V2P q + f)). rewrite Hpr, Ead, Efl. cbn [negb].
  wp_call (kalloc_user k c n H d ps T fl Hk HL Hn (cp_space _ _ _ _ _ _ _ _ HC)).
  intros p k1 (Hk1 & Ho1 & Er1 & [(-> & -> & HU1)|(fl1 & -> & Pp & Hnin & HU1)]).
  { rewrite Z.eqb_refl, ret_eq. split; [done|]. split; [done|]. exists []. destruct (copied_up _ _ _ _ _ _ _ _ HC) as [_ Hp Ho]. split; [done|done|by rewrite Er1]. }
  destruct (page_ok_V2P p Pp) as [_ Hgt]. destruct (p =? 0) eqn:E0; [unfold KERNBASE in *; lia|]. clear E0. unfold on_ms at 1. kred.
  set (m2 := memmove (ram (k_ms k1)) (V2P p) (V2P q) PGSIZE).
  assert (same_outside [p] (ram (k_ms k1)) m2) as Hout2.
  { intros x Hx. unfold m2. rewrite ld8_memmove, decide_False by (done || apply Hx; left). done. }
  destruct (write_page k1 c n H d ps T fl1 p m2 Hk1 HU1 Pp) as (Hk2 & Ho2 & HU2); [set_solver|done| |].
  { apply bytes_ok_memmove; [done|]. apply HU1. }
  set (k2 := set_k_ms _ k1) in *. change (set_k_ms _ k1) with k2. pose proof (ms_only_trans _ _ _ Ho1 Ho2) as Ho12.
  wp_call (map_user_page k2 c n H d ps T fl1 p f Hk2 HL Hn HU2 Pp Hnin Hf Hl).
  intros r k3 (Hk3 & Ho3 & [(-> & T' & fl' & Hg & HU3 & Hout3 & Hker)|(-> & -> & HU3 & Er3)]); kred; pose proof (ms_only_trans _ _ _ Ho12 Ho3) as Ho13.
  - split; [done|]. split; [done|]. rewrite lor_present in HU3 by done. exists p, T', fl'.
    apply (copied_next k k3 d src ps T fl1 T' fl' p q f); try done; [by eapply list_elem_of_lookup_2|..].
    + intros x Hx. rewrite Hout3 by (intros y Hy; apply Hx; set_solver). rewrite <-Er1. apply Hout2. intros y Hy. apply Hx. set_solver.
    + intros o Hr. rewrite Hout3 by (apply (uspace_last k3 d ps T' fl' p f); [done|unfold in_page; lia]).
      change (ram (k_ms k2)) with m2. unfold m2. rewrite ld8_memmove, decide_True, Er1 by (done || lia). f_equal. lia.
    + intros va Hva. rewrite Hker, <-(cp_kernel _ _ _ _ _ _ _ _ HC va Hva) by done.
      apply (pte0_outside k d T (p :: fl1) [p] m2 va (us_vm _ _ _ _ _ (cp_space _ _ _ _ _ _ _ _ HC))); [by rewrite <-Er1|by constructor| |unfold KERNBASE in *; lia].
      intros y ->%list_elem_of_singleton. set_solver.
  - pose proof (copied_free k d src ps T p [] HC) as (_ & Hnin' & Hpfl). change (-1 <? 0) with true. cbv iota. wp_call (kfree_user k3 c n H d ps T [] p Hk3 HL Hn HU3 Pp Hnin').
    intros _ k4 (Hk4 & Ho4 & HU4 & Hout4). kred. split; [done|]. split; [by eapply ms_only_trans|]. exists [p].
    destruct (copied_up _ _ _ _ _ _ _ _ HC) as [_ Hp Ho]. split; [done|done|].
    intros x Hx. rewrite Hout4, Er3 by set_solver. change (ram (k_ms k2)) with m2. rewrite Hout2, Er1 by set_solver. by apply Ho.
Qed.

(** The pages from number [length ps] on. *)
Lemma copy_loop cnt : forall k c n H d ps T fl,
  holds k c n H -> LKkmem ∉ H -> n < 2 ^ 30 - 2 -> copied k0 k d (take (length ps) ps0) ps T fl0 fl ->
  (length ps + cnt = length ps0)%nat -> Z.of_nat (length ps0) * PGSIZE <= KERNBASE ->
  runs (for_each ((fun i => Z.of_nat i * PGSIZE) <$> seq (length ps) cnt) (copy_page d0 d)) k (fun o k' => holds k' c n H /\ ms_only k k' /\
    match o with
    | None => exists ps T' fl', copied k0 k' d ps0 ps T' fl0 fl'
    | Some _ => exists ps T' fl', given_up k0 k' d ps T' fl0 fl' /\ (length ps <= length ps0)%nat
    end).
Proof.
  induction cnt as [|cnt IH]; intros k c n H d ps T fl Hk HL Hn HC Hcnt Hl; unfold runs; cbn [seq fmap list_fmap].
  { rewrite for_each_nil. split; [done|]. split; [apply ms_only_refl|]. rewrite take_ge in HC by lia. by exists ps, T, fl. }
  destruct (lookup_lt_is_Some_2 ps0 (length ps)) as [[q f] Eq]; [lia|].
  rewrite for_each_cons, wp_bind. eapply wp_mono; [|apply (copy_page_holds k c n H d _ ps T fl q f Hk HL Hn HC Eq)]; [|unfold PGSIZE in *; lia].
  intros [[]|] k1 (Hk1 & Ho1 & Hr).
  { destruct Hr as [fl' Hr]. rewrite ret_eq. split; [done|]. split; [done|]. exists ps, T, fl'. split; [done|lia]. }
  destruct Hr as (p & T' & fl' & HC1). rewrite <-(take_S_r _ _ _ Eq) in HC1.
  assert (length (ps ++ [(p, f)]) = S (length ps)) as El by (rewrite length_app; simpl; lia). rewrite <-El in *.
  eapply wp_mono; [|apply (IH k1 c n H d _ T' fl' Hk1 HL Hn HC1); lia].
  intros o k2 (Hk2 & Ho2 & Hr). split; [done|]. split; [by eapply ms_only_trans|done].
Qed.

Lemma page_offsets_seq sz cnt : pages_to 0 sz cnt -> 0 <= sz -> page_offsets sz = (fun i => Z.of_nat i * PGSIZE) <$> seq 0 cnt.
Proof.
  intros Hp H0. unfold page_offsets, zseq. rewrite <-list_fmap_compose.
  assert (Z.to_nat ((sz + PGSIZE - 1) / PGSIZE) = cnt) as ->; [|done]. unfold pages_to, PGSIZE in *.
  pose proof (Z.div_mod (sz + 4096 - 1) 4096). pose proof (Z.mod_pos_bound (sz + 4096 - 1) 4096). lia.
Qed.

Lemma copyuvm_holds c n H sz :
  holds k0 c n H -> LKkmem ∉ H -> n < 2 ^ 30 - 2 -> pages_to 0 sz (length ps0) -> 0 <= sz -> Z.of_nat (length ps0) * PGSIZE <= KERNBASE ->
  runs (copyuvm d0 sz) k0 (fun d k' => holds k' c n H /\ ms_only k0 k' /\
    ((exists ps T fl', copied k0 k' d ps0 ps T fl0 fl') \/
     d = 0 /\ same_outside fl0 (ram (k_ms k0)) (ram (k_ms k')) /\ exists fl', kmem_inv k' fl' /\ fl' ≡ₚ fl0)).
Proof.
  intros Hk HL Hn Hsz H0 Hl. pose proof (us_vm _ _ _ _ _ HU0) as HI0. unfold runs, copyuvm.
  wp_call (setupkvm_holds k0 c n H fl0 Hk HL Hn (vi_kmem _ _ _ _ HI0) (vi_bytes _ _ _ _ HI0)).
  intros d k1 (Hk1 & Ho1 & [(T & fl & HI & Hp & Hout & Hpte)|(-> & Hout & fl' & Hi & Hfl)]).
  2:{ kred. split; [done|]. split; [done|]. right. split; [done|]. split; [done|]. by exists fl'. }
  destruct (page_ok_V2P d (vi_dir _ _ _ _ HI)) as [_ Hgt]. destruct (d =? 0) eqn:E0; [unfold KERNBASE in *; lia|]. clear E0.
  rewrite (page_offsets_seq sz (length ps0)) by done.
  assert (copied k0 k1 d [] [] T fl0 fl) as HC by (destruct (kernel_space k1 d T fl HI Hpte); split; [done|done|done|by rewrite app_nil_r|done]).
  wp_call (copy_loop (length ps0) k1 c n H d [] T fl Hk1 HL Hn); [|by rewrite take_0|done|done].
  intros [[]|] k2 (Hk2 & Ho2 & Hr).
  - destruct Hr as (ps & T' & fl' & Hr & Hlen). rewrite bind_eq, wp_bind.
    eapply wp_mono; [|apply (given_up_freevm k0 k2 c n H d ps T' fl0 fl' Hk2 HL Hn Hr)].
    + intros _ k3 (Hk3 & Ho3 & Hout3 & Hfl). rewrite ret_eq. split; [done|]. split; [|by right].
      eapply ms_only_trans; [exact Ho1|]. by eapply ms_only_trans.
    + pose proof (page_count_whole KERNBASE ltac:(done) eq_refl). unfold PGSIZE in *. lia.
  - rewrite ret_eq. split; [done|]. split; [by eapply ms_only_trans|]. by left.
Qed.

End Copy.

(** ** What a process sees *)

(** The byte at an address, read or about to be written. *)
Definition user_view (m : gmap Z Z) (d va : Z) (w : bool) : option Z := ld8 m <$> translate m (V2P d) va w.

Lemma uspace_translate k d ps T fl va w : uspace k d ps T fl -> 0 <= va < KERNBASE ->
  translate (ram (k_ms k)) (V2P d) va w =
    match ps !! Z.to_nat (va / PGSIZE) with
    | Some (p, f) => if negb w || nz (Z.land f PTE_W) then Some (V2P p + va `mod` PGSIZE) else None
    | None => None
    end.
Proof.
  intros HU Hva. pose proof (us_pte _ _ _ _ _ HU va Hva) as Hp. pose proof (vi_dir _ _ _ _ (us_vm _ _ _ _ _ HU)) as Pd.
  unfold KERNBASE in Hva. destruct (ps !! Z.to_nat (va / PGSIZE)) as [[p f]|] eqn:E.
  - destruct (Forall_lookup_1 _ _ _ _ (us_pages _ _ _ _ _ HU) E) as (Pp & Hf & Hpf). cbn [fst snd] in *. pose proof (page_frame p Pp).
    set (a := va / PGSIZE * PGSIZE). assert (va = a + va `mod` PGSIZE) as Ea by (unfold a; pose proof (Z.div_mod va PGSIZE); lia).
    pose proof (Z.mod_pos_bound va PGSIZE ltac:(done)) as Hm.
    rewrite (entry_translate _ d a PGSIZE (V2P p) f); try done; try lia.
    + by replace (va - a) with (va `mod` PGSIZE) by lia.
    + apply Z.mod_mul. done.
    + apply Z.mul_nonneg_nonneg; [apply Z.div_pos; lia|done].
    + unfold PGSIZE in *. lia.
    + by apply page_ok_aligned.
    + replace (va - a) with (va `mod` PGSIZE) by lia. rewrite Z.div_small by done. rewrite lor_present by done. lia.
  - rewrite translate_pte0 by (done || lia). cbv zeta. by rewrite Hp.
Qed.

(** An address space that shares its pages with nothing that was written looks as before. *)
Lemma view_frame k m' d ps T fl va w P :
  uspace k d ps T fl -> same_outside P (ram (k_ms k)) m' -> Forall page_ok P -> (forall p, p ∈ P -> p ∉ ps.*1 ++ d :: T) -> 0 <= va < KERNBASE ->
  user_view m' d va w = user_view (ram (k_ms k)) d va w.
Proof.
  intros HU Ho HP Hd Hva. pose proof (us_vm _ _ _ _ _ HU) as HI. pose proof (vi_dir _ _ _ _ HI) as Pd.
  assert (pte0 m' d va = pte0 (ram (k_ms k)) d va) as E by (apply (pte0_outside k d T fl P m' va HI Ho HP); [set_solver|unfold KERNBASE in *; lia]).
  assert (translate m' (V2P d) va w = translate (ram (k_ms k)) (V2P d) va w) as Et.
  { rewrite !translate_pte0 by (done || unfold KERNBASE in *; lia). by rewrite E. }
  unfold user_view. rewrite Et, (uspace_translate k d ps T fl va w HU Hva). destruct (ps !! _) as [[q f]|] eqn:Eq; [|done].
  destruct (negb w || nz (Z.land f PTE_W)); [|done]. cbn [fmap option_fmap option_map]. f_equal. apply Ho. intros p Hp.
  destruct (Forall_lookup_1 _ _ _ _ (us_pages _ _ _ _ _ HU) Eq) as (Pq & _). cbn [fst] in Pq.
  apply (pages_apart q p); [done|by eapply (Forall_elem page_ok)| |pose proof (Z.mod_pos_bound va PGSIZE ltac:(done)); unfold in_page; lia].
  intros <-. apply (Hd q Hp), elem_of_app. left. apply list_elem_of_fmap. exists (q, f). split; [done|by eapply list_elem_of_lookup_2].
Qed.

(** What is free is no page of an address space. *)
Lemma uspace_free k d ps T fl p : uspace k d ps T fl -> p ∈ fl -> p ∉ ps.*1 ++ d :: T.
Proof.
  intros HU Hp Hin. pose proof (us_apart _ _ _ _ _ HU) as Hnd. rewrite (app_comm_cons T fl d), app_assoc in Hnd.
  apply list.NoDup_app in Hnd as (_ & Hnd & _). by apply (Hnd p).
Qed.

Lemma copied_view k0 k d0 ps0 T0 fl0 d ps T fl va w :
  uspace k0 d0 ps0 T0 fl0 -> copied k0 k d ps0 ps T fl0 fl -> 0 <= va < KERNBASE ->
  user_view (ram (k_ms k)) d va w = user_view (ram (k_ms k0)) d0 va w.
Proof.
  intros HU0 [HU _ _ _ Hs] Hva. unfold user_view. rewrite (uspace_translate k d ps T fl), (uspace_translate k0 d0 ps0 T0 fl0) by done.
  rewrite Forall2_lookup in Hs. specialize (Hs (Z.to_nat (va / PGSIZE))).
  destruct Hs as [[q f] [p f'] [Ef Hs]|]; [|done]. cbn [fst snd] in *. subst f'. destruct (negb w || nz (Z.land f PTE_W)); [|done].
  cbn [fmap option_fmap option_map]. f_equal. apply Hs. by apply Z.mod_pos_bound.
Qed.

(** Copying an address space, as [fork] does.  [copyuvm] returns a directory
    with pages of its own, taken from the free list with the page tables, in which
    every user address has the same contents, the same permissions and is as
    writable as in the original; the original looks as before.  When memory runs
    out it returns 0 with every page it took back on the free list, and the
    original looks as before. *)
Theorem copyuvm_copies k c n H d0 ps0 T0 fl sz
    (Hk : holds k c n H) (HL : LKkmem ∉ H) (Hn : n < 2 ^ 30 - 2) (HU : uspace k d0 ps0 T0 fl)
    (Hsz : pages_to 0 sz (length ps0)) (H0 : 0 <= sz) (Hl : Z.of_nat (length ps0) * PGSIZE <= KERNBASE) :
  runs (copyuvm d0 sz) k (fun d k' => holds k' c n H /\
    (forall va w, 0 <= va < KERNBASE -> user_view (ram (k_ms k')) d0 va w = user_view (ram (k_ms k)) d0 va w) /\
    ((exists ps T fl', uspace k' d ps T fl' /\ kernel_part k' d /\ uspace k' d0 ps0 T0 fl' /\
       d :: T ++ ps.*1 ++ fl' ≡ₚ fl /\ ps.*2 = ps0.*2 /\
       (forall va w, 0 <= va < KERNBASE -> user_view (ram (k_ms k')) d va w = user_view (ram (k_ms k)) d0 va w)) \/
     d = 0 /\ exists fl', kmem_inv k' fl' /\ fl' ≡ₚ fl)).
Proof.
  pose proof (km_pages _ _ (vi_kmem _ _ _ _ (us_vm _ _ _ _ _ HU))) as Hfl.
  eapply wp_mono; [|by apply (copyuvm_holds k d0 ps0 T0 fl HU c n H sz)]. intros d k' (Hk' & _ & [(ps & T & fl' & HC)|(-> & Hout & Hr)]); (split; [done|]).
  - pose proof (copied_up _ _ _ _ _ _ _ _ HC) as HG. split.
    { intros va w. apply (view_frame k _ d0 ps0 T0 fl _ _ fl HU (gu_frame _ _ _ _ _ _ _ HG) Hfl). intros p. by apply uspace_free with k. }
    left. exists ps, T, fl'. split; [apply HC|]. split; [apply HC|]. split; [by eapply given_up_source|]. split; [apply HC|]. split; [|intros va w; by eapply copied_view].
    pose proof (cp_same _ _ _ _ _ _ _ _ HC) as Hs. clear -Hs. induction Hs as [|q p ? ? [E _] _ IH]; [done|]. cbn [fmap list_fmap]. by rewrite E, IH.
  - split; [|by right]. intros va w. apply (view_frame k _ d0 ps0 T0 fl _ _ fl HU Hout Hfl). intros p. by apply uspace_free with k.
Qed.

End UserMem.

(** ** A process with one page *)

(** An empty directory on the small machine with two free pages. *)
Definition kernel_um : kernel unit := mkK hw0 ∅ ∅ ps0 (mkMs (st32 ∅ 0x121000 0x80122000) 0 0x80121000 0) cons0 tt.

Lemma kernel_um_holds : holds kernel_um 0 0 [].
Proof. by eapply holds_ext; [..|exact kernel0_holds]. Qed.

Lemma demo_pages_ok : Forall page_ok [0x80120000; 0x80121000; 0x80122000; 0x80123000; 0x80124000; 0x80125000].
Proof. unfold page_ok. repeat (apply Forall_cons_2; [vm_compute; repeat split; congruence|]). apply Forall_nil_2. Qed.

Lemma kernel_um_pde i : 0 <= i < 1024 -> pde_at (ram (k_ms kernel_um)) 0x80120000 i = 0.
Proof. intros Hi. unfold pde_at. cbn [kernel_um k_ms ram]. rewrite ld32_st32_out; [done|]. change (V2P 0x80120000) with 0x120000. lia. Qed.

Lemma kernel_um_space : uspace kernel_um 0x80120000 [] [] [0x80121000; 0x80122000].
Proof.
  pose proof demo_pages_ok as Hok. rewrite list.Forall_forall in Hok.
  assert (NoDup [0x80121000; 0x80122000]) as Hnd by (repeat (apply list.NoDup_cons; split; [set_solver|]); constructor).
  split; [split|..].
  - split; [done|done|]. apply list.Forall_forall. intros p Hp. apply Hok. set_solver.
  - apply bytes_ok_st32. intros x. done.
  - apply Hok. set_solver.
  - constructor.
  - apply list.NoDup_cons. split; [set_solver|done].
  - intros i Hi. by rewrite kernel_um_pde.
  - intros i j Hi Hj. by rewrite kernel_um_pde.
  - intros t Ht. by apply elem_of_nil in Ht.
  - intros va Hva. cbn [lookup list_lookup]. unfold pte0. rewrite kernel_um_pde; [done|]. apply PDX_range. unfold KERNBASE in *. lia.
  - constructor.
  - cbn [fmap list_fmap app]. apply list.NoDup_cons. split; [set_solver|done].
Qed.

(** A page is put in, and the address space copied. *)
Lemma copyuvm_copies_witness :
  runs (r <- mappages 0x80120000 0 PGSIZE (V2P 0x80123000) 6 ;; copyuvm 0x80120000 100) kernel_um (fun d k' =>
    user_view (ram (k_ms k')) 0x80120000 5 true = Some 0 /\ (d <> 0 -> user_view (ram (k_ms k')) d 5 true = Some 0)).
Proof.
  pose proof demo_pages_ok as Hok. rewrite list.Forall_forall in Hok. unfold runs.
  pose proof (map_user_page kernel_um 0 0 [] 0x80120000 [] [] [0x80121000; 0x80122000] 0x80123000 6
    kernel_um_holds (not_elem_of_nil _) ltac:(lia) kernel_um_space) as Hm. change (Z.of_nat (length []) * PGSIZE) with 0 in Hm. unfold runs in Hm.
  rewrite bind_eq, wp_bind. eapply wp_mono; [|apply Hm]; clear Hm.
  - intros r k1 (Hk1 & _ & [(_ & T & fl & _ & HU & Hout & _)|(_ & ? & _)]); [|done].
    eapply wp_mono; [|apply (copyuvm_copies k1 0 0 [] 0x80120000 _ T fl 100 Hk1 (not_elem_of_nil _) ltac:(lia) HU)].
    + assert (user_view (ram (k_ms k1)) 0x80120000 5 true = Some 0) as E.
      { unfold user_view. rewrite (uspace_translate k1 _ _ T fl 5 true HU) by done.
        change (ld8 (ram (k_ms k1)) <$> Some (V2P 0x80123000 + 5) = Some 0). cbn [fmap option_fmap option_map]. f_equal. rewrite Hout; [done|].
        apply (uspace_last k1 _ [] T fl 0x80123000 (Z.lor 6 PTE_P) _ HU). unfold in_page, PGSIZE. lia. }
      rewrite <-E. intros d k' (_ & Hv & [(? & ? & ? & _ & _ & _ & _ & _ & Hr)|[-> _]]); (split; [by apply Hv|]); [|done]. intros _. by apply Hr.
    + vm_compute. split; [done|]. by right.
    + lia.
    + done.
  - apply Hok. set_solver.
  - set_solver.
  - done.
  - done.
Defined.
