(* ===== verification/ThreadMem.v ===== *)
(** * The address space of a thread (vm.c: linkuvm)

    A thread shares the pages of its process below the guard page, has a guard
    page of its own and the given page as its stack; the words of the stack that
    look like pointers into the page are moved to its new place.  The stack is
    also written over that of the calling process, and when memory runs out the
    pages of the process itself are freed. *)

From S2P Require Import Prelude Params State Mem Spinlock Seg Str Cprintf Kalloc Vm VmSpec AddrSpace UserMem Demo.

(** ** Words through the MMU *)

Section ThreadMem.
Context {F : Type} {LK : Linker} {LKO : LinkerOk}.
Implicit Types (k : kernel F).

Definition with_ram (m : gmap Z Z) (k : kernel F) : kernel F := set_k_ms (set_ram m (k_ms k)) k.

Lemma uload_phys k va pa n :
  (forall b, 0 <= b < Z.of_nat n -> translate (ram (k_ms k)) (cr3 (k_hw k)) (u32 (va + b)) false = Some (pa + b)) ->
  uload va n k = Done (ld (ram (k_ms k)) pa n) k.
Proof.
  revert va pa. induction n as [|n IH]; intros va pa Ht; [done|]. cbn [uload ld]. unfold uload8, phys. kred.
  pose proof (Ht 0 ltac:(lia)) as H0. rewrite !Z.add_0_r in H0. rewrite H0. kred. rewrite (IH (va + 1) (pa + 1)); [done|].
  intros b Hb. rewrite <-!Z.add_assoc. apply Ht. lia.
Qed.

Lemma uload32_phys k va pa :
  (forall b, 0 <= b < 4 -> translate (ram (k_ms k)) (cr3 (k_hw k)) (u32 (va + b)) false = Some (pa + b)) ->
  uload32 va k = Done (ld32 (ram (k_ms k)) pa) k.
Proof. intros Ht. unfold uload32. rewrite bind_eq, (uload_phys k va pa 4) by done. done. Qed.

(** The translation does not depend on the bytes that are written. *)
Lemma ustore_phys bs : forall k va pa, Forall (fun b => 0 <= b < 256) bs ->
  (forall b m, 0 <= b < Z.of_nat (length bs) -> (forall x, ~ (pa <= x < pa + Z.of_nat (length bs)) -> ld8 m x = ld8 (ram (k_ms k)) x) ->
     translate m (cr3 (k_hw k)) (u32 (va + b)) true = Some (pa + b)) ->
  ustore va bs k = Done tt (with_ram (st (ram (k_ms k)) pa bs) k).
Proof.
  induction bs as [|b bs IH]; intros k va pa Hb Ht; cbn [ustore st].
  - rewrite ret_eq. unfold with_ram. by destruct k as [? ? ? ? [] ? ?].
  - apply list.Forall_cons in Hb as [Hb Hbs]. unfold ustore8, phys. kred. pose proof (Ht 0 (ram (k_ms k)) ltac:(simpl; lia)) as H0.
    rewrite !Z.add_0_r in H0. rewrite H0 by done. unfold on_ms. kred. unfold u8. rewrite Z.mod_small by done.
    erewrite (IH _ (va + 1) (pa + 1)); [done|done|].
    intros c m Hc Hm. rewrite <-!Z.add_assoc. apply Ht; [simpl; lia|]. intros x Hx. rewrite Hm by (cbn [length] in Hx; lia).
    cbn [k_ms set_k_ms set_ram ram]. rewrite ld8_insert, decide_False; [done|]. cbn [length] in Hx. lia.
Qed.

Lemma ustore32_phys k va pa v :
  (forall b m, 0 <= b < 4 -> (forall x, ~ (pa <= x < pa + 4) -> ld8 m x = ld8 (ram (k_ms k)) x) ->
     translate m (cr3 (k_hw k)) (u32 (va + b)) true = Some (pa + b)) ->
  ustore32 va v k = Done tt (with_ram (st32 (ram (k_ms k)) pa v) k).
Proof. intros Ht. unfold ustore32. apply ustore_phys; [apply le_bytes_range|]. by rewrite length_le_bytes. Qed.

(** ** Moving the words of the stack *)

(** A word that points into the page that was at [sz] is moved to [i]. *)
Definition moved_word (sz i w : Z) : Z := if (w >? sz) && (w <? u32 (sz + PGSIZE)) then u32 (w + (i - sz)) else w.

(** From [m] to [m'] the words at the offsets [js] of page [p] have been moved and
    written to page [q] as well. *)
Record moved (m m' : gmap Z Z) (p q sz i : Z) (js : list Z) : Prop := {
  mv_bytes : bytes_ok m';
  mv_stack : forall j, j ∈ js -> ld32 m' (V2P p + j) = moved_word sz i (ld32 m (V2P p + j));
  mv_copy : forall j, j ∈ js -> ld32 m' (V2P q + j) = moved_word sz i (ld32 m (V2P p + j));
  mv_frame : forall x, (forall j, j ∈ js -> ~ (V2P p + j <= x < V2P p + j + 4) /\ ~ (V2P q + j <= x < V2P q + j + 4)) -> ld8 m' x = ld8 m x
}.

(** Offsets of different words of a page. *)
Definition word_offsets (js : list Z) : Prop := NoDup js /\ Forall (fun j => 0 <= j < PGSIZE /\ j `mod` 4 = 0) js.

Lemma word_apart i j : i `mod` 4 = 0 -> j `mod` 4 = 0 -> i <> j -> i + 4 <= j \/ j + 4 <= i.
Proof. intros. pose proof (Z.div_mod i 4). pose proof (Z.div_mod j 4). lia. Qed.

Lemma word_fits j : 0 <= j < PGSIZE -> j `mod` 4 = 0 -> j + 4 <= PGSIZE.
Proof. unfold PGSIZE. intros. pose proof (Z.div_mod j 4). lia. Qed.

(** The words from offset [off] on. *)
Definition words_from (off : Z) : list Z := (fun n => off + 4 * n) <$> zseq (Z.to_nat ((PGSIZE - off + 3) / 4)).

Lemma words_from_ok off : 0 <= off <= PGSIZE -> off `mod` 4 = 0 -> word_offsets (words_from off).
Proof.
  intros Hr Hm. assert ((PGSIZE - off + 3) / 4 * 4 = PGSIZE - off) as E.
  { unfold PGSIZE in *. pose proof (Z.div_mod off 4). replace (4096 - off + 3) with (3 + (1024 - off / 4) * 4) by lia. rewrite Z.div_add by done. change (3 / 4) with 0. lia. }
  split.
  - apply NoDup_fmap_2; [intros x y Hxy; lia|]. apply NoDup_fmap_2; [intros x y Hxy; lia|]. apply NoDup_seq.
  - apply Forall_fmap, list.Forall_forall. intros n Hn%elem_of_zseq. cbn. rewrite Z2Nat.id in Hn by (unfold PGSIZE in *; apply Z.div_pos; lia).
    split; [lia|]. rewrite (Z.mul_comm 4 n), Z.mod_add by done. done.
Qed.

Section Moved.
Context (p q sz i : Z) (Pp : page_ok p) (Pq : page_ok q) (Hpq : p <> q).

(** One word more. *)
Lemma moved_cons m m1 m2 j js : word_offsets (j :: js) -> moved m m1 p q sz i [j] -> moved m1 m2 p q sz i js -> moved m m2 p q sz i (j :: js).
Proof.
  intros [Hnd Hw] [B1 S1 C1 F1] [B2 S2 C2 F2]. apply list.NoDup_cons in Hnd as [Hj Hnd]. apply list.Forall_cons in Hw as [[Hr Hm] Hw].
  pose proof (word_fits j Hr Hm) as Hf. pose proof (page_disjoint p q Pp Pq Hpq) as Hdis. rewrite list.Forall_forall in Hw.
  assert (forall j', j' ∈ js -> (j + 4 <= j' \/ j' + 4 <= j) /\ 0 <= j' /\ j' + 4 <= PGSIZE) as Hap.
  { intros j' Hj'. destruct (Hw j' Hj') as [Hr' Hm']. split; [apply word_apart; [done|done|congruence]|]. split; [lia|by apply word_fits]. }
  assert (forall a, a = V2P p \/ a = V2P q -> ld32 m2 (a + j) = ld32 m1 (a + j)) as E2.
  { intros a Ha. apply ld32_ext. intros x Hx. apply F2. intros j' Hj'. specialize (Hap j' Hj'). lia. }
  assert (forall j', j' ∈ js -> ld32 m1 (V2P p + j') = ld32 m (V2P p + j')) as E1.
  { intros j' Hj'. specialize (Hap j' Hj'). apply ld32_ext. intros x Hx. apply F1. intros j'' ->%list_elem_of_singleton. lia. }
  split; [done|..].
  - intros j' [->|Hj']%elem_of_cons; [rewrite E2 by auto; apply S1; left|]. rewrite S2 by done. by rewrite E1.
  - intros j' [->|Hj']%elem_of_cons; [rewrite E2 by auto; apply C1; left|]. rewrite C2 by done. by rewrite E1.
  - intros x Hx. rewrite F2, F1; [done| |]; intros j' Hj'; apply Hx; set_solver.
Qed.

(** One word: it is stored in the stack when it changes, and in the other page. *)
Lemma moved_one m j (store : bool) : bytes_ok m -> 0 <= j < PGSIZE -> j `mod` 4 = 0 ->
  let w := ld32 m (V2P p + j) in (store = false -> moved_word sz i w = w) ->
  moved m (st32 (if store then st32 m (V2P p + j) (moved_word sz i w) else m) (V2P q + j) (moved_word sz i w)) p q sz i [j].
Proof.
  intros Hb Hr Hm w Hs. pose proof (word_fits j Hr Hm) as Hf. pose proof (page_disjoint p q Pp Pq Hpq) as Hdis.
  assert (u32 (moved_word sz i w) = moved_word sz i w) as Eu.
  { pose proof (ld32_range m (V2P p + j) Hb) as Hw. fold w in Hw. unfold moved_word. destruct (_ && _); apply u32_small; [apply u32_range|done]. }
  split.
  - apply bytes_ok_st32. destruct store; [by apply bytes_ok_st32|done].
  - intros j' ->%list_elem_of_singleton. rewrite ld32_st32_out by lia. destruct store; [by rewrite ld32_st32_same|]. fold w. by rewrite Hs.
  - intros j' ->%list_elem_of_singleton. by rewrite ld32_st32_same.
  - intros x Hx. destruct (Hx j) as [H1 H2]; [left|]. rewrite ld8_st32_out by lia. destruct store; [|done]. rewrite ld8_st32_out by lia. done.
Qed.

Lemma moved_outside m m' js : moved m m' p q sz i js -> word_offsets js -> same_outside [p; q] m m'.
Proof.
  intros HM [_ Hw] x Hx. apply HM. intros j Hj. rewrite list.Forall_forall in Hw. destruct (Hw j Hj) as [Hr Hm]. pose proof (word_fits j Hr Hm).
  specialize (Hx p ltac:(left)) as H1. specialize (Hx q ltac:(right; left)) as H2. lia.
Qed.

End Moved.

Lemma kernel_part_frame k k' d T fl P :
  vm_inv k d T fl -> same_outside P (ram (k_ms k)) (ram (k_ms k')) -> Forall page_ok P -> (forall x, x ∈ P -> x ∉ d :: T) ->
  kernel_part k d -> kernel_part k' d.
Proof.
  intros HI Ho HP Hd Hker va Hva. rewrite <-Hker by done. eapply pte0_outside; eauto. unfold KERNBASE in *. lia.
Qed.

(** The kernel sees the page [p] at its address. *)
Definition sees (m : gmap Z Z) (d p : Z) : Prop := forall o w, 0 <= o < PGSIZE -> translate m (V2P d) (p + o) w = Some (V2P p + o).

(** It does when the kernel is mapped. *)
Lemma kernel_part_sees k d p : page_ok d -> page_ok p -> kernel_part k d -> sees (ram (k_ms k)) d p.
Proof.
  intros Pd Pp Hker o w Ho. pose proof (page_frame p Pp) as Hf. destruct (page_ok_V2P p Pp) as [Ep Hr]. destruct Pp as (_ & He & _).
  pose proof data_end. unfold KERNBASE, PHYSTOP, PGSIZE in *. rewrite (kernel_view_kptes _ d (p + o) w Pd); [|lia|apply Hker; unfold KERNBASE; lia].
  unfold kernel_view, KERNBASE, PHYSTOP. rewrite decide_True by lia.
  replace (bool_decide _) with false; [rewrite andb_false_r; f_equal; lia|]. symmetry. apply bool_decide_eq_false. lia.
Qed.

Lemma sees_frame k m' d T fl P p : vm_inv k d T fl -> same_outside P (ram (k_ms k)) m' -> Forall page_ok P -> (forall x, x ∈ P -> x ∉ d :: T) ->
  page_ok p -> sees (ram (k_ms k)) d p -> sees m' d p.
Proof.
  intros HI Ho HP Hd Pp Hs o w Hr. rewrite <-(Hs o w Hr). pose proof (vi_dir _ _ _ _ HI) as Pd. destruct (page_ok_V2P p Pp) as [Ep Hpr]. pose proof (page_frame p Pp).
  assert (0 <= p + o < 2 ^ 32) by (unfold KERNBASE, PHYSTOP in *; lia).
  rewrite !translate_pte0 by done. by rewrite (pte0_outside k d T fl P m' (p + o) HI Ho HP Hd).
Qed.

(** Pages that are neither tables nor free are written. *)
Lemma with_ram_space k m' d ps T fl P : uspace k d ps T fl -> same_outside P (ram (k_ms k)) m' -> Forall page_ok P ->
  (forall x, x ∈ P -> x ∉ d :: T ++ fl) -> bytes_ok m' -> uspace (with_ram m' k) d ps T fl.
Proof.
  intros HU Ho HP Hx Hb. pose proof (us_vm _ _ _ _ _ HU) as HI. apply (uspace_frame k _ d ps T fl fl P); [done|done|done| | |done|apply HU].
  - intros x Hin. specialize (Hx x Hin). set_solver.
  - apply (kmem_same k); [apply HI|done|]. intros y x Hy Hxy. apply Ho. intros t Ht.
    apply (pages_apart y t x); [apply (Forall_elem _ _ _ (km_pages _ _ (vi_kmem _ _ _ _ HI)) Hy)|by eapply (Forall_elem page_ok)| |done].
    intros <-. apply (Hx y Ht). set_solver.
Qed.

Section Relocate.
Context (k0 : kernel F) (d0 : Z) (ps0 : list (Z * Z)) (T0 fl0 : list Z) (HU0 : uspace k0 d0 ps0 T0 fl0).
Context (p q f : Z) (s : nat) (Pp : page_ok p) (Hsee : sees (ram (k_ms k0)) d0 p) (Hp : p ∉ ps0.*1 ++ d0 :: T0) (Eq : ps0 !! s = Some (q, f)).
Context (Hw : nz (Z.land f PTE_W) = true) (Hs : Z.of_nat s * PGSIZE + PGSIZE <= KERNBASE).

Lemma stack_pages : page_ok q /\ (q ∉ d0 :: T0) /\ p <> q.
Proof.
  assert (q ∈ ps0.*1) as Hq by (apply list_elem_of_fmap; exists (q, f); split; [done|by eapply list_elem_of_lookup_2]).
  split; [by destruct (Forall_lookup_1 _ _ _ _ (us_pages _ _ _ _ _ HU0) Eq)|]. split; [|intros ->; apply Hp; set_solver].
  pose proof (us_apart _ _ _ _ _ HU0) as Hnd. apply list.NoDup_app in Hnd as (_ & Hnd & _). specialize (Hnd q Hq). set_solver.
Qed.

Lemma stack_frame m va : same_outside [p; q] (ram (k_ms k0)) m -> 0 <= va < 2 ^ 32 -> pte0 m d0 va = pte0 (ram (k_ms k0)) d0 va.
Proof.
  destruct stack_pages as (Pq & Hq & _). intros Ho Hva. apply (pte0_outside k0 d0 T0 fl0 [p; q] m va (us_vm _ _ _ _ _ HU0) Ho); [apply Forall_cons_2; [done|by apply Forall_singleton]| |done].
  intros x. rewrite !elem_of_cons, elem_of_nil. intros [->|[->|[]]]; set_solver.
Qed.

Lemma stack_translate m o w : same_outside [p; q] (ram (k_ms k0)) m -> 0 <= o < PGSIZE -> translate m (V2P d0) (p + o) w = Some (V2P p + o).
Proof.
  intros Ho Hr. destruct stack_pages as (Pq & Hq & _). apply (sees_frame k0 m d0 T0 fl0 [p; q]); try done; [apply HU0|apply Forall_cons_2; [done|by apply Forall_singleton]|].
  intros x. rewrite !elem_of_cons, elem_of_nil. intros [->|[->|[]]]; set_solver.
Qed.

Lemma caller_translate m o : same_outside [p; q] (ram (k_ms k0)) m -> 0 <= o < PGSIZE ->
  translate m (V2P d0) (Z.of_nat s * PGSIZE + o) true = Some (V2P q + o).
Proof.
  intros Ho Hr. unfold KERNBASE in Hs. assert (0 <= Z.of_nat s * PGSIZE + o < 2 ^ 32) as Hva by (unfold PGSIZE in *; lia).
  assert ((Z.of_nat s * PGSIZE + o) / PGSIZE = Z.of_nat s) as Ed by (rewrite Z.add_comm, Z.div_add, Z.div_small by (done || unfold PGSIZE in *; lia); lia).
  assert ((Z.of_nat s * PGSIZE + o) `mod` PGSIZE = o) as Em by (rewrite Z.add_comm, Z.mod_add by done; by apply Z.mod_small).
  pose proof (vi_dir _ _ _ _ (us_vm _ _ _ _ _ HU0)) as Pd.
  rewrite translate_pte0, stack_frame by done. rewrite <-translate_pte0 by done.
  rewrite (uspace_translate k0 d0 ps0 T0 fl0) by (done || unfold KERNBASE, PGSIZE in *; lia). rewrite Ed, Em, Nat2Z.id, Eq, Hw. done.
Qed.

(** One word of the stack. *)
Lemma relocate_word k sz j : same_outside [p; q] (ram (k_ms k0)) (ram (k_ms k)) -> bytes_ok (ram (k_ms k)) -> cr3 (k_hw k) = V2P d0 ->
  0 <= j < PGSIZE -> j `mod` 4 = 0 ->
  exists m', (tmp <- uload32 (p + j) ;;
    tmp <- (if (tmp >? sz) && (tmp <? u32 (sz + PGSIZE)) then
              let tmp := u32 (tmp + (Z.of_nat s * PGSIZE - sz)) in
              ustore32 (p + j) tmp ;; ret tmp
            else ret tmp) ;;
    ustore32 (Z.of_nat s * PGSIZE + j) tmp) k = Done tt (with_ram m' k) /\
    moved (ram (k_ms k)) m' p q sz (Z.of_nat s * PGSIZE) [j].
Proof.
  intros Ho Hb Hc Hr Hm. pose proof (word_fits j Hr Hm) as Hf. destruct stack_pages as (Pq & _ & Hpq).
  pose proof (page_frame p Pp). destruct (page_ok_V2P p Pp) as [Ep Hpr]. unfold KERNBASE, PHYSTOP in *.
  set (i := Z.of_nat s * PGSIZE) in *. set (w := ld32 (ram (k_ms k)) (V2P p + j)).
  assert (forall m a, (a = V2P p \/ a = V2P q) -> (forall x, ~ (a + j <= x < a + j + 4) -> ld8 m x = ld8 (ram (k_ms k)) x) -> same_outside [p; q] (ram (k_ms k0)) m) as Hfr.
  { intros m a Ha Hx x Hout. rewrite Hx; [by apply Ho|]. specialize (Hout p ltac:(left)) as H1. specialize (Hout q ltac:(right; left)) as H2. lia. }
  rewrite bind_eq, (uload32_phys k (p + j) (V2P p + j)).
  2:{ intros b Hbr. rewrite Hc, u32_small, <-!Z.add_assoc by lia. apply stack_translate; [done|lia]. }
  cbn [res_bind]. fold w. set (store := (w >? sz) && (w <? u32 (sz + PGSIZE))).
  assert (forall k1, (ram (k_ms k1) = if store then st32 (ram (k_ms k)) (V2P p + j) (moved_word sz i w) else ram (k_ms k)) -> cr3 (k_hw k1) = V2P d0 ->
    ustore32 (i + j) (moved_word sz i w) k1 = Done tt (with_ram (st32 (ram (k_ms k1)) (V2P q + j) (moved_word sz i w)) k1)) as Hst.
  { intros k1 E1 Hc1. apply ustore32_phys. intros b m Hbr Hx. rewrite Hc1, u32_small, <-!Z.add_assoc by (unfold i, PGSIZE in *; lia).
    apply caller_translate; [|lia]. intros x Hout. specialize (Hout p ltac:(left)) as H1. specialize (Hout q ltac:(right; left)) as H2.
    rewrite Hx, E1 by lia. destruct store; [rewrite ld8_st32_out by lia|]; apply Ho; intros y; rewrite !elem_of_cons, elem_of_nil; intros [->|[->|[]]]; done. }
  eexists. split; [|apply (moved_one p q sz i Pp Pq Hpq (ram (k_ms k)) j store Hb Hr Hm); fold w; unfold moved_word; fold store; by intros ->].
  fold w. rewrite bind_eq. unfold store at 1. unfold moved_word in *. fold store in Hst |- *. destruct store eqn:Es; cbv zeta.
  - rewrite bind_eq, (ustore32_phys k (p + j) (V2P p + j)).
    2:{ intros b m Hbr Hx. rewrite Hc, u32_small, <-!Z.add_assoc by lia. apply stack_translate; [by apply (Hfr m (V2P p)); auto|lia]. }
    kred. rewrite Hst by done. done.
  - kred. rewrite Hst by done. done.
Qed.

Lemma relocate_loop sz js : forall k, word_offsets js -> same_outside [p; q] (ram (k_ms k0)) (ram (k_ms k)) -> bytes_ok (ram (k_ms k)) ->
  cr3 (k_hw k) = V2P d0 ->
  exists m', for_all js (fun j =>
    tmp <- uload32 (p + j) ;;
    tmp <- (if (tmp >? sz) && (tmp <? u32 (sz + PGSIZE)) then
              let tmp := u32 (tmp + (Z.of_nat s * PGSIZE - sz)) in
              ustore32 (p + j) tmp ;; ret tmp
            else ret tmp) ;;
    ustore32 (Z.of_nat s * PGSIZE + j) tmp) k = Done tt (with_ram m' k) /\
    moved (ram (k_ms k)) m' p q sz (Z.of_nat s * PGSIZE) js.
Proof.
  destruct stack_pages as (Pq & _ & Hpq). induction js as [|j js IH]; intros k Hwo Ho Hb Hc.
  - exists (ram (k_ms k)). rewrite for_all_nil. split; [unfold with_ram; by destruct k as [? ? ? ? [] ? ?]|]. split; [done|set_solver..|done].
  - pose proof Hwo as [Hnd Hall]. apply list.NoDup_cons in Hnd as [_ Hnd]. apply list.Forall_cons in Hall as [[Hr Hm] Hall].
    destruct (relocate_word k sz j Ho Hb Hc Hr Hm) as (m1 & E1 & HM1).
    assert (word_offsets [j]) as Hw1 by (split; [apply NoDup_singleton|by apply Forall_singleton]).
    destruct (IH (with_ram m1 k)) as (m2 & E2 & HM2); [done| |apply HM1|done|].
    { intros x Hx. rewrite <-(Ho x Hx). by eapply (moved_outside p q); [exact HM1|..]. }
    exists m2. rewrite for_all_cons, E1. cbn [res_bind]. split; [exact E2|]. by eapply moved_cons.
Qed.

Lemma relocate_stack_moves k sz stack : p <= stack <= p + PGSIZE -> (stack - p) `mod` 4 = 0 ->
  same_outside [p; q] (ram (k_ms k0)) (ram (k_ms k)) -> bytes_ok (ram (k_ms k)) -> cr3 (k_hw k) = V2P d0 ->
  exists m', relocate_stack p stack sz (Z.of_nat s * PGSIZE) k = Done tt (with_ram m' k) /\
    moved (ram (k_ms k)) m' p q sz (Z.of_nat s * PGSIZE) (words_from (stack - p)).
Proof. intros Hr Hm Ho Hb Hc. apply relocate_loop; try done. apply words_from_ok; [lia|done]. Qed.

End Relocate.

(** ** Linking the pages *)

Lemma ms_only_cr3 k k' : ms_only k k' -> cr3 (k_hw k') = cr3 (k_hw k).
Proof. intros Ho. apply (f_equal (fun k => cr3 (k_hw k))) in Ho. exact Ho. Qed.

Section Link.
Context (k0 : kernel F) (d0 : Z) (ps0 : list (Z * Z)) (T0 fl0 : list Z) (HU0 : uspace k0 d0 ps0 T0 fl0).
Context (Hcr3 : cr3 (k_hw k0) = V2P d0) (c : nat) (n : Z) (H : list lockid) (HL : LKkmem ∉ H) (Hn : n < 2 ^ 30 - 2).

(** The directory [d] maps [ps]; of the free pages [own] are taken besides the tables. *)
Record linked (k : kernel F) (d : Z) (ps : list (Z * Z)) (own T fl : list Z) : Prop := {
  lk_holds : holds k c n H;
  lk_only : ms_only k0 k;
  lk_space : uspace k d ps T fl;
  lk_kernel : kernel_part k d;
  lk_pages : d :: T ++ own ++ fl ≡ₚ fl0;
  lk_frame : same_outside (d :: T) (ram (k_ms k0)) (ram (k_ms k))
}.

(** What is freed when it fails: the pages [shared] of the process among others. *)
Definition unlinked (k : kernel F) (d : Z) (shared : list Z) : Prop :=
  exists ps T fl, holds k c n H /\ ms_only k0 k /\ uspace k d ps T fl /\ (length ps <= page_count 0 KERNBASE)%nat /\ d :: T ++ ps.*1 ++ fl ≡ₚ shared ++ fl0.

Lemma linked_used k d ps own T fl x : linked k d ps own T fl -> x ∈ d :: T ++ own ++ fl -> x ∈ fl0.
Proof. intros HK Hx. by rewrite <-(lk_pages _ _ _ _ _ _ HK). Qed.

Lemma linked_source k d ps own T fl : linked k d ps own T fl -> uspace k d0 ps0 T0 fl /\ cr3 (k_hw k) = V2P d0 /\
  forall p, page_ok p -> sees (ram (k_ms k0)) d0 p -> sees (ram (k_ms k)) d0 p.
Proof.
  intros HK. pose proof (us_vm _ _ _ _ _ (lk_space _ _ _ _ _ _ HK)) as HI.
  assert (same_outside fl0 (ram (k_ms k0)) (ram (k_ms k))) as Ho.
  { eapply same_outside_weaken; [|apply HK]. intros x Hx. apply (linked_used k d ps own T fl x HK). set_solver. }
  split; [|split].
  - eapply uspace_source; [done|done|apply HI|apply HI|]. intros x Hx. apply (linked_used k d ps own T fl x HK). set_solver.
  - rewrite (ms_only_cr3 k0 k); [done|apply HK].
  - intros p Pp Hs. apply (sees_frame k0 _ d0 T0 fl0 fl0); [apply HU0|done|apply HU0| |done|done]. intros x Hx. pose proof (uspace_free k0 d0 ps0 T0 fl0 x HU0 Hx). set_solver.
Qed.

(** A page is mapped. *)
Lemma link_map k d ps own T fl x perm :
  linked k d ps own T fl -> page_ok x -> x ∉ ps.*1 ++ d :: T ++ fl -> 0 <= perm < PGSIZE -> Z.of_nat (length ps) * PGSIZE + PGSIZE <= KERNBASE ->
  runs (mappages d (Z.of_nat (length ps) * PGSIZE) PGSIZE (V2P x) perm) k (fun r k' =>
    r = 0 /\ (exists T' fl', linked k' d (ps ++ [(x, Z.lor perm PTE_P)]) own T' fl') \/ r = -1 /\ fl = [] /\ linked k' d ps own T []).
Proof.
  intros [Hk Hon HU Hkn Hp Ho] Px Hx Hperm Hl. eapply wp_mono; [|by apply (map_user_page k c n H d ps T fl x perm)].
  intros r k' (Hk' & Ho' & [(-> & T' & fl' & (N & -> & HT) & HU' & Hout & Hkn')|(-> & -> & HU' & Er)]).
  - left. split; [done|]. exists T', fl'. split; [done|by eapply ms_only_trans|done|intros va Hva; rewrite Hkn' by done; auto|rewrite <-Hp, HT; solve_Permutation|].
    eapply same_outside_weaken; [|exact (same_outside_trans _ _ _ _ _ Ho Hout)]. intros y. rewrite HT. set_solver.
  - right. split; [done|]. split; [done|]. split; [done|by eapply ms_only_trans|done| |done|by rewrite Er].
    intros va Hva. rewrite Er. auto.
Qed.

Lemma linked_unlinked k d own T fl j : linked k d (take j ps0) own T fl -> own = [] -> (j <= page_count 0 KERNBASE)%nat -> unlinked k d (take j ps0).*1.
Proof.
  intros HK -> Hj. exists (take j ps0), T, fl. split; [apply HK|]. split; [apply HK|]. split; [apply HK|]. split; [rewrite length_take; lia|].
  rewrite <-(lk_pages _ _ _ _ _ _ HK). cbn [app]. solve_Permutation.
Qed.

Context (p q f sz stack : Z) (s : nat) (Pp : page_ok p) (Hsee : sees (ram (k_ms k0)) d0 p) (Hp : p ∉ ps0.*1 ++ d0 :: T0 ++ fl0) (Eq : ps0 !! S s = Some (q, f)).
Context (Hw : nz (Z.land f PTE_W) = true) (Hs : Z.of_nat (length ps0) * PGSIZE <= KERNBASE).
Context (Hst : p <= stack < p + PGSIZE) (Hal : (stack - p) `mod` 4 = 0).

(** The stack of the process begins at page [S s]. *)
#[local] Notation body := (link_page d0 sz (Z.of_nat (S s) * PGSIZE) stack).

Lemma stack_room : (S s < length ps0)%nat /\ Z.of_nat (S s) * PGSIZE + PGSIZE <= KERNBASE /\ (length ps0 <= page_count 0 KERNBASE)%nat.
Proof.
  pose proof (lookup_lt_Some _ _ _ Eq). pose proof (page_count_whole KERNBASE ltac:(done) eq_refl). unfold PGSIZE in *. lia.
Qed.

Lemma guard_address : u32 (Z.of_nat (S s) * PGSIZE - PGSIZE) = Z.of_nat s * PGSIZE.
Proof. destruct stack_room as (_ & Hr & _). unfold KERNBASE in Hr. rewrite u32_small; unfold PGSIZE in *; lia. Qed.

(** The entry for page number [j] has been read. *)
Lemma link_page_entry k d ps own T fl j x fx : linked k d ps own T fl -> ps0 !! j = Some (x, fx) ->
  exists pte, walkpgdir d0 (Z.of_nat j * PGSIZE) false k = Done pte k /\ (pte =? 0) = false /\ kload32 pte k = Done (V2P x + fx) k /\
    nz (Z.land (V2P x + fx) PTE_P) = true /\ PTE_ADDR (V2P x + fx) = V2P x /\ PTE_FLAGS (V2P x + fx) = fx.
Proof.
  intros HK Ej. destruct (linked_source k d ps own T fl HK) as (HUs & _). pose proof (lookup_lt_Some _ _ _ Ej).
  destruct (uspace_entry k d0 ps0 T0 fl j x fx HUs Ej) as (pte & Ew & Hnz & El & Hpr & Ead & Efl); [unfold PGSIZE in *; lia|].
  exists pte. split; [done|]. split; [by apply Z.eqb_neq|]. done.
Qed.

(** A page below the guard page is shared. *)
Lemma link_shared k d j T fl : linked k d (take j ps0) [] T fl -> (j < s)%nat ->
  runs (body d (Z.of_nat j * PGSIZE)) k (fun o k' => o = None /\ (exists T' fl', linked k' d (take (S j) ps0) [] T' fl') \/
    o = Some true /\ unlinked k' d (take j ps0).*1).
Proof.
  intros HK Hj. destruct stack_room as (Hlen & Hr & Hc). destruct (lookup_lt_is_Some_2 ps0 j) as [[x fx] Ej]; [lia|].
  destruct (link_page_entry _ _ _ _ _ _ _ _ _ HK Ej) as (pte & Ew & Hnz & El & Hpr & Ead & Efl).
  unfold runs, link_page. rewrite bind_eq, Ew. cbn [res_bind]. rewrite Hnz, bind_eq, El. cbn [res_bind]. rewrite Hpr, Ead, Efl, guard_address. cbn [negb].
  rewrite (proj2 (Z.ltb_lt (Z.of_nat j * PGSIZE) (Z.of_nat s * PGSIZE))) by (unfold PGSIZE; lia).
  destruct (Forall_lookup_1 _ _ _ _ (us_pages _ _ _ _ _ HU0) Ej) as (Px & Hf & Hpf). cbn [fst snd] in *.
  assert (length (take j ps0) = j) as El' by (rewrite length_take; lia).
  assert (x ∉ (take j ps0).*1 ++ d :: T ++ fl) as Hx.
  { pose proof (us_apart _ _ _ _ _ HU0) as Hnd. apply list.NoDup_app in Hnd as (Hnd & Hdis & _).
    assert (x ∈ ps0.*1) as Hin by (apply list_elem_of_fmap; exists (x, fx); split; [done|by eapply list_elem_of_lookup_2]).
    rewrite elem_of_app. intros [Hx|Hx].
    - rewrite <-(take_drop_middle ps0 j (x, fx) Ej), fmap_app in Hnd. apply list.NoDup_app in Hnd as (_ & Hnd & _). apply (Hnd x Hx). cbn. left.
    - apply (Hdis x Hin). assert (x ∈ fl0); [|set_solver]. by apply (linked_used k d _ [] T fl x HK). }
  rewrite <-El'. rewrite bind_eq, wp_bind. eapply wp_mono; [|apply (link_map k d _ [] T fl x fx HK Px Hx Hf); unfold PGSIZE in *; lia].
  intros r k' [(-> & T' & fl' & HK')|(-> & -> & HK')]; rewrite ret_eq.
  - left. split; [done|]. exists T', fl'. rewrite lor_present in HK' by done. by rewrite El', (take_S_r _ _ _ Ej).
  - right. split; [done|]. rewrite El'. eapply linked_unlinked; [done|done|lia].
Qed.

(** The guard page is a new one the thread cannot use. *)
Lemma link_guard k d T fl : linked k d (take s ps0) [] T fl ->
  runs (body d (Z.of_nat s * PGSIZE)) k (fun o k' => o = None /\ (exists g T' fl', linked k' d (take s ps0 ++ [(g, Z.lor PTE_W PTE_P)]) [g] T' fl') \/
    o = Some true /\ unlinked k' d (take s ps0).*1).
Proof.
  intros HK. destruct stack_room as (Hlen & Hr & Hc). destruct (lookup_lt_is_Some_2 ps0 s) as [[x fx] Ej]; [lia|].
  destruct (link_page_entry _ _ _ _ _ _ _ _ _ HK Ej) as (pte & Ew & Hnz & El & Hpr & Ead & Efl).
  unfold runs, link_page. rewrite bind_eq, Ew. cbn [res_bind]. rewrite Hnz, bind_eq, El. cbn [res_bind]. rewrite Hpr, Ead, Efl, guard_address. cbn [negb].
  rewrite Z.ltb_irrefl, (proj2 (Z.ltb_lt (Z.of_nat s * PGSIZE) (Z.of_nat (S s) * PGSIZE))) by (unfold PGSIZE; lia).
  assert (length (take s ps0) = s) as El' by (rewrite length_take; lia). pose proof HK as [Hk Hon HU Hkn Hpg Hout].
  wp_call (kalloc_user k c n H d _ T fl Hk HL Hn HU). intros g k1 (Hk1 & Ho1 & Er1 & Hg).
  assert (forall own fl1, uspace k1 d (take s ps0) T fl1 -> d :: T ++ own ++ fl1 ≡ₚ fl0 -> linked k1 d (take s ps0) own T fl1) as HK1.
  { intros own fl1 HU1 Hpg1. split; [done|by eapply ms_only_trans|done| |done|by rewrite Er1]. intros va Hva. rewrite Er1. auto. }
  destruct Hg as [(-> & -> & HU1)|(fl1 & -> & Pg & Hnin & HU1)].
  { rewrite Z.eqb_refl, ret_eq. right. split; [done|]. eapply (linked_unlinked k1 d [] T []); [by apply HK1|done|lia]. }
  destruct (page_ok_V2P g Pg) as [_ Hgt]. destruct (g =? 0) eqn:E0; [unfold KERNBASE in *; lia|]. clear E0. rewrite <-El' at 1.
  rewrite bind_eq, wp_bind. eapply wp_mono; [|apply (link_map k1 d _ [g] T fl1 g PTE_W); [by apply HK1|done|done|done|unfold PGSIZE in *; lia]].
  intros r k2 [(-> & T' & fl' & HK')|(-> & -> & HK')].
  - kred. left. split; [done|]. by exists g, T', fl'.
  - change (-1 <? 0) with true. cbv iota. wp_call (kfree_user k2 c n H d _ T [] g (lk_holds _ _ _ _ _ _ HK') HL Hn (lk_space _ _ _ _ _ _ HK') Pg Hnin).
    intros _ k3 (Hk3 & Ho3 & HU3 & _). kred. right. split; [done|]. exists (take s ps0), T, [g]. split; [done|]. split; [eapply ms_only_trans; [apply HK'|done]|].
    split; [done|]. split; [lia|]. rewrite <-Hpg. solve_Permutation.
Qed.

(** What the thread has in the end. *)
Record thread_space (k : kernel F) (d g : Z) (T fl : list Z) : Prop := {
  ts_holds : holds k c n H;
  ts_only : ms_only k0 k;
  ts_space : uspace k d (take s ps0 ++ [(g, Z.lor PTE_W PTE_P); (p, Z.lor (Z.lor PTE_W PTE_U) PTE_P)]) T fl;
  ts_kernel : kernel_part k d;
  ts_process : uspace k d0 ps0 T0 fl;
  ts_pages : d :: T ++ g :: fl ≡ₚ fl0;
  ts_stack : forall j, j ∈ words_from (stack - p) ->
    ld32 (ram (k_ms k)) (V2P p + j) = moved_word sz (Z.of_nat (S s) * PGSIZE) (ld32 (ram (k_ms k0)) (V2P p + j));
  ts_caller : forall j, j ∈ words_from (stack - p) -> ld32 (ram (k_ms k)) (V2P q + j) = ld32 (ram (k_ms k)) (V2P p + j);
  ts_frame : forall x, (forall t, t ∈ d :: T -> ~ in_page t x) ->
    (forall j, j ∈ words_from (stack - p) -> ~ (V2P p + j <= x < V2P p + j + 4) /\ ~ (V2P q + j <= x < V2P q + j + 4)) ->
    ld8 (ram (k_ms k)) x = ld8 (ram (k_ms k0)) x
}.

(** The words of the given page are moved. *)
Lemma link_moves k d g T fl :
  linked k d (take s ps0 ++ [(g, Z.lor PTE_W PTE_P); (p, Z.lor (Z.lor PTE_W PTE_U) PTE_P)]) [g] T fl ->
  exists k', relocate_stack p stack sz (Z.of_nat (S s) * PGSIZE) k = Done tt k' /\ thread_space k' d g T fl.
Proof.
  intros HK. destruct (linked_source _ _ _ _ _ _ HK) as (HUs & Hc & Hkn). specialize (Hkn p Pp Hsee). destruct stack_room as (_ & Hr & _). pose proof HK as [Hk Hon HU Hkd Hpg Hout].
  assert (p ∉ ps0.*1 ++ d0 :: T0) as Hp' by set_solver. destruct (stack_pages k d0 ps0 T0 fl HUs p q f (S s) Pp Hkn Hp' Eq Hw Hr) as (Pq & Hq & Hpq).
  destruct (relocate_stack_moves k d0 ps0 T0 fl HUs p q f (S s) Pp Hkn Hp' Eq Hw Hr k sz stack) as (m' & E & HM); [lia|done|done|apply HU|done|].
  exists (with_ram m' k). split; [done|].
  assert (forall x, x ∈ [p; q] -> x ∉ fl0) as Hfree.
  { intros x. rewrite !elem_of_cons, elem_of_nil. intros [->|[->|[]]] Hx; [set_solver|]. apply (uspace_free k0 d0 ps0 T0 fl0 q HU0 Hx), elem_of_app. left.
    apply list_elem_of_fmap. exists (q, f). split; [done|by eapply list_elem_of_lookup_2]. }
  assert (forall x, x ∈ d :: T ++ fl -> x ∈ fl0) as Hfl by (intros x Hx; rewrite <-Hpg; set_solver).
  assert (Forall page_ok [p; q]) as Hok by (apply Forall_cons_2; [done|by apply Forall_singleton]).
  pose proof (words_from_ok (stack - p) ltac:(lia) Hal) as Hwo.
  assert (same_outside [p; q] (ram (k_ms k)) m') as Ho by (by eapply (moved_outside p q)).
  assert (forall x, in_page p x -> ld8 (ram (k_ms k)) x = ld8 (ram (k_ms k0)) x) as Hpage.
  { intros x Hx. apply Hout. intros t Ht. apply (pages_apart p t); [done| |intros <-; apply (Hfree p); set_solver|done].
    apply (Forall_elem _ _ _ (km_pages _ _ (vi_kmem _ _ _ _ (us_vm _ _ _ _ _ HU0)))), Hfl. set_solver. }
  split.
  - by eapply holds_ext; [..|exact Hk].
  - eapply ms_only_trans; [exact Hon|]. by apply ms_only_set.
  - apply (with_ram_space _ _ _ _ _ _ [p; q] HU Ho Hok); [|apply HM]. intros x Hx Hin. by apply (Hfree x Hx), Hfl.
  - apply (kernel_part_frame k (with_ram m' k) d T fl [p; q] (us_vm _ _ _ _ _ HU) Ho Hok); [|done]. intros x Hx Hin. apply (Hfree x Hx), Hfl. set_solver.
  - apply (with_ram_space _ _ _ _ _ _ [p; q] HUs Ho Hok); [|apply HM]. intros x Hx Hin.
    assert (x ∉ fl) by (intros Hf; apply (Hfree x Hx), Hfl; set_solver). revert Hx. rewrite !elem_of_cons, elem_of_nil. intros [->|[->|[]]]; set_solver.
  - done.
  - intros j Hj. cbn [with_ram k_ms set_k_ms ram set_ram]. rewrite (mv_stack _ _ _ _ _ _ _ HM j Hj). f_equal.
    destruct (Forall_elem _ _ _ (proj2 Hwo) Hj) as [Hjr Hjm]. pose proof (word_fits j Hjr Hjm).
    apply ld32_in_page; [done|lia|lia].
  - intros j Hj. cbn [with_ram k_ms set_k_ms ram set_ram]. by rewrite (mv_stack _ _ _ _ _ _ _ HM j Hj), (mv_copy _ _ _ _ _ _ _ HM j Hj).
  - intros x Hx Hj. cbn [with_ram k_ms set_k_ms ram set_ram]. rewrite (mv_frame _ _ _ _ _ _ _ HM x Hj). apply Hout. exact Hx.
Qed.

Lemma stack_page : PGROUNDDOWN stack = p.
Proof.
  destruct Pp as (Hm & Hr & _). pose proof end_low. destruct (page_ok_V2P p Pp) as [Ep _]. pose proof (page_frame p Pp). unfold KERNBASE, PHYSTOP, PGSIZE in *.
  rewrite PGROUNDDOWN_spec by lia. unfold PGSIZE. pose proof (Z.div_mod p 4096). replace stack with ((stack - p) + p / 4096 * 4096) at 2 by lia.
  rewrite Z.mod_add, Z.mod_small by lia. lia.
Qed.

(** The given page becomes the stack, and that is the end of the loop. *)
Lemma link_stack k d g T fl : linked k d (take s ps0 ++ [(g, Z.lor PTE_W PTE_P)]) [g] T fl ->
  runs (body d (Z.of_nat (S s) * PGSIZE)) k (fun o k' => o = Some false /\ (exists T' fl', thread_space k' d g T' fl') \/
    o = Some true /\ unlinked k' d (take s ps0).*1).
Proof.
  intros HK. destruct stack_room as (Hlen & Hr & Hc). destruct (link_page_entry _ _ _ _ _ _ _ _ _ HK Eq) as (pte & Ew & Hnz & El & Hpr & Ead & Efl).
  unfold runs, link_page. rewrite bind_eq, Ew. cbn [res_bind]. rewrite Hnz, bind_eq, El. cbn [res_bind]. rewrite Hpr, Ead, Efl, guard_address, stack_page. cbn [negb].
  rewrite (proj2 (Z.ltb_ge (Z.of_nat (S s) * PGSIZE) (Z.of_nat s * PGSIZE))), Z.ltb_irrefl by (unfold PGSIZE; lia).
  set (ps := take s ps0 ++ [(g, Z.lor PTE_W PTE_P)]) in *. assert (length ps = S s) as Elen by (unfold ps; rewrite length_app, length_take; simpl; lia).
  assert (p ∉ ps.*1 ++ d :: T ++ fl) as Hx.
  { assert (forall x, x ∈ d :: T ++ [g] ++ fl -> x ∈ fl0) as Hin by (intros x; by apply (linked_used k d _ [g] T fl x HK)).
    intros [Hpx|Hpx]%elem_of_app; [|apply Hp; rewrite !elem_of_app, elem_of_cons, elem_of_app; right; right; right; apply Hin; set_solver].
    unfold ps in Hpx. rewrite fmap_app in Hpx. apply elem_of_app in Hpx as [Hpx|Hpx].
    - apply Hp, elem_of_app. left. rewrite <-(take_drop s ps0), fmap_app. set_solver.
    - apply list_elem_of_singleton in Hpx. apply Hp. rewrite !elem_of_app, elem_of_cons, elem_of_app. right; right; right. apply Hin. cbn [fst] in Hpx. set_solver. }
  rewrite <-Elen at 1. rewrite bind_eq, wp_bind. eapply wp_mono; [|apply (link_map k d ps [g] T fl p (Z.lor PTE_W PTE_U) HK Pp Hx); [done|unfold PGSIZE in *; lia]].
  intros r k1 [(-> & T' & fl' & HK')|(-> & -> & HK')].
  - change (0 <? 0) with false. cbv iota. unfold ps in HK'. rewrite <-app_assoc in HK'. destruct (link_moves k1 d g T' fl' HK') as (k2 & E & HT).
    rewrite bind_eq, E. cbn [res_bind]. rewrite ret_eq. left. split; [done|]. by exists T', fl'.
  - change (-1 <? 0) with true. cbv iota. rewrite ret_eq. right. split; [done|]. exists ps, T, []. split; [apply HK'|]. split; [apply HK'|]. split; [apply HK'|].
    split; [lia|]. rewrite <-(lk_pages _ _ _ _ _ _ HK). unfold ps. rewrite fmap_app. cbn [fmap list_fmap fst]. solve_Permutation.
Qed.

(** The loop from page [j] on. *)
Definition link_post (d : Z) (o : option bool) (k' : kernel F) : Prop :=
  o = Some false /\ (exists g T' fl', thread_space k' d g T' fl') \/
  o = Some true /\ exists j, (j <= s)%nat /\ unlinked k' d (take j ps0).*1.

Lemma link_loop cnt : forall j k d T fl, linked k d (take j ps0) [] T fl -> (j + cnt = s)%nat ->
  runs (for_each ((fun i => Z.of_nat i * PGSIZE) <$> seq j (length ps0 - j)) (body d)) k (link_post d).
Proof.
  destruct stack_room as (Hlen & _). induction cnt as [|cnt IH]; intros j k d T fl HK Hj; unfold runs.
  - replace j with s in * by lia. replace (length ps0 - s)%nat with (S (S (length ps0 - s - 2))) by lia. cbn [seq fmap list_fmap].
    rewrite for_each_cons, wp_bind. eapply wp_mono; [|apply (link_guard k d T fl HK)].
    intros o k1 [(-> & g & T1 & fl1 & HK1)|(-> & Hu)]; [|right; split; [done|by exists s]].
    rewrite for_each_cons, wp_bind. eapply wp_mono; [|apply (link_stack k1 d g T1 fl1 HK1)].
    intros o k2 [(-> & T2 & fl2 & HT)|(-> & Hu)]; rewrite ret_eq; [left; split; [done|by exists g, T2, fl2]|right; split; [done|by exists s]].
  - replace (length ps0 - j)%nat with (S (length ps0 - S j)) by lia. cbn [seq fmap list_fmap].
    rewrite for_each_cons, wp_bind. eapply wp_mono; [|apply (link_shared k d j T fl HK); lia].
    intros o k1 [(-> & T1 & fl1 & HK1)|(-> & Hu)]; [|rewrite ret_eq; right; split; [done|exists j; split; [lia|done]]].
    apply (IH (S j) k1 d T1 fl1 HK1). lia.
Qed.

Lemma linkuvm_holds : holds k0 c n H -> pages_to 0 sz (length ps0) -> 0 <= sz ->
  runs (linkuvm d0 sz (Z.of_nat (S s) * PGSIZE) stack) k0 (fun d k' =>
    (exists g T fl, thread_space k' d g T fl) \/
    d = 0 /\ holds k' c n H /\ ms_only k0 k' /\ exists j fl', (j <= s)%nat /\ kmem_inv k' fl' /\ fl' ≡ₚ (take j ps0).*1 ++ fl0).
Proof.
  intros Hk Hsz H0. pose proof (us_vm _ _ _ _ _ HU0) as HI0. unfold runs, linkuvm.
  wp_call (setupkvm_holds k0 c n H fl0 Hk HL Hn (vi_kmem _ _ _ _ HI0) (vi_bytes _ _ _ _ HI0)).
  intros d k1 (Hk1 & Ho1 & [(T & fl & HI & Hpg & Hout & Hpte)|(-> & Hout & fl' & Hi & Hfl)]).
  2:{ kred. right. split; [done|]. split; [done|]. split; [done|]. exists 0%nat, fl'. split; [lia|]. by rewrite take_0. }
  destruct (page_ok_V2P d (vi_dir _ _ _ _ HI)) as [_ Hgt]. destruct (d =? 0) eqn:E0; [unfold KERNBASE in *; lia|]. clear E0.
  rewrite (page_offsets_seq sz (length ps0)) by done. destruct (kernel_space k1 d T fl HI Hpte) as [HU1 Hkn1].
  assert (linked k1 d (take 0 ps0) [] T fl) as HK by (by split; rewrite ?take_0).
  pose proof (link_loop s 0 k1 d T fl HK eq_refl) as Hloop. rewrite Nat.sub_0_r in Hloop. rewrite bind_eq, wp_bind. eapply wp_mono; [|exact Hloop].
  intros o k2 [(-> & HT)|(-> & j & Hj & ps & T' & fl' & Hk2 & Ho2 & HU2 & Hlen & Hpg2)]; [rewrite ret_eq; by left|].
  destruct (uspace_length k2 d ps T' fl' HU2 Hlen) as [Eu Hfr]. rewrite bind_eq, wp_bind.
  eapply wp_mono; [|apply (freevm_holds k2 c n H d T' fl' Hk2 HL Hn (us_vm _ _ _ _ _ HU2) Hfr)]. rewrite Eu.
  intros _ k3 (Hk3 & Ho3 & _ & fl3 & Hi3 & Hp3). rewrite ret_eq. right. split; [done|]. split; [done|]. split; [by eapply ms_only_trans|]. exists j, fl3. split; [done|]. split; [done|]. by rewrite Hp3.
Qed.

(** What the MMU makes of it. *)
Lemma thread_translate k d g T fl : thread_space k d g T fl ->
  (forall va w, 0 <= va < Z.of_nat s * PGSIZE -> translate (ram (k_ms k)) (V2P d) va w = translate (ram (k_ms k0)) (V2P d0) va w) /\
  (forall va, Z.of_nat s * PGSIZE <= va < Z.of_nat (S s) * PGSIZE -> Z.land (pte0 (ram (k_ms k)) d va) PTE_U = 0) /\
  (forall o w, 0 <= o < PGSIZE -> translate (ram (k_ms k)) (V2P d) (Z.of_nat (S s) * PGSIZE + o) w = Some (V2P p + o)) /\
  (forall va w, Z.of_nat (S (S s)) * PGSIZE <= va < KERNBASE -> translate (ram (k_ms k)) (V2P d) va w = None).
Proof.
  intros HT. pose proof (ts_space _ _ _ _ _ HT) as HU. destruct stack_room as (Hlen & Hr & _). set (ps := take s ps0 ++ _) in HU.
  assert (length (take s ps0) = s) as El by (rewrite length_take; lia).
  assert (ps !! s = Some (g, Z.lor PTE_W PTE_P)) as Eg by (unfold ps; rewrite lookup_app_r by lia; by rewrite El, Nat.sub_diag).
  assert (ps !! S s = Some (p, Z.lor (Z.lor PTE_W PTE_U) PTE_P)) as Es by (unfold ps; rewrite lookup_app_r by lia; by replace (S s - length (take s ps0))%nat with 1%nat by lia).
  split; [|split; [|split]].
  - intros va w Hva. assert (Z.to_nat (va / PGSIZE) < s)%nat as Hi by (assert (va / PGSIZE < Z.of_nat s) by (apply Z.div_lt_upper_bound; unfold PGSIZE in *; lia);
      assert (0 <= va / PGSIZE) by (apply Z.div_pos; unfold PGSIZE; lia); lia).
    rewrite (uspace_translate k d ps T fl), (uspace_translate k0 d0 ps0 T0 fl0) by (done || unfold PGSIZE in *; lia).
    unfold ps. rewrite lookup_app_l, lookup_take_lt by lia. done.
  - intros va Hva. pose proof (us_pte _ _ _ _ _ HU va ltac:(unfold PGSIZE in *; lia)) as Hp'.
    rewrite (div_of_page s va), Eg in Hp' by (unfold PGSIZE in *; lia). rewrite Hp'. destruct (Forall_lookup_1 _ _ _ _ (us_pages _ _ _ _ _ HU) Eg) as (Pg & _).
    pose proof (page_ok_aligned g Pg) as Hg. cbn [fst] in Hg. unfold PGSIZE in Hg. pose proof (Z.div_mod (V2P g) 4096).
    apply Z.eqb_eq. change PTE_U with (2 ^ 2). rewrite land_bit_testbit by lia. replace (V2P g + Z.lor PTE_W PTE_P) with (3 + V2P g / 4096 * 512 * 2 ^ 3) by (change (Z.lor PTE_W PTE_P) with 3; lia).
    rewrite <-(Z.mod_pow2_bits_low _ 3 2), Z.mod_add by lia. done.
  - intros o w Ho. rewrite (uspace_translate k d ps T fl) by (done || unfold PGSIZE in *; lia). rewrite (div_of_page (S s)), Es by (unfold PGSIZE in *; lia).
    rewrite orb_true_r. replace ((Z.of_nat (S s) * PGSIZE + o) `mod` PGSIZE) with o; [done|]. rewrite Z.add_comm, Z.mod_add by done. symmetry. by apply Z.mod_small.
  - intros va w Hva. rewrite (uspace_translate k d ps T fl) by (done || unfold PGSIZE in *; lia). rewrite lookup_ge_None_2; [done|].
    unfold ps. rewrite length_app, El. cbn [length]. assert (Z.of_nat (S (S s)) <= va / PGSIZE) by (apply Z.div_le_lower_bound; unfold PGSIZE in *; lia). lia.
Qed.


End Link.

End ThreadMem.

(** ** A process with a guard page and a stack *)

(** The directory 0x80120000 has a table for the two pages of the process and one
    through which the kernel sees the page 0x80124000. *)
Definition ram_tm : gmap Z Z :=
  st32 (st32 (st32 (st32 (st32 ∅ 0x120000 0x121007) 0x120800 0x122007) 0x121000 0x125003) 0x121004 0x123007) 0x122490 0x124003.

Definition kernel_tm : kernel unit := mkK (set_cr3 0x120000 hw0) ∅ ∅ ps0 (mkMs ram_tm 0 0 0) cons0 tt.

Lemma kernel_tm_holds : holds kernel_tm 0 0 [].
Proof. destruct kernel0_holds as [H1 H2 H3 H4 H5 H6 H7]. split; done. Qed.

Lemma ram_tm_word x : x `mod` 4 = 0 -> ld32 ram_tm x =
  if decide (x = 0x122490) then 0x124003 else if decide (x = 0x121004) then 0x123007 else if decide (x = 0x121000) then 0x125003
  else if decide (x = 0x120800) then 0x122007 else if decide (x = 0x120000) then 0x121007 else 0.
Proof.
  intros Hx. unfold ram_tm.
  repeat (case_decide as E; [subst x; by rewrite ?ld32_st32_same|rewrite ld32_st32_out by (apply word_apart; [done|done|congruence]); clear E]). done.
Qed.

Lemma kernel_tm_pde i : 0 <= i < 1024 -> pde_at ram_tm 0x80120000 i = if decide (i = 512) then 0x122007 else if decide (i = 0) then 0x121007 else 0.
Proof.
  intros Hi. unfold pde_at. change (V2P 0x80120000) with 0x120000. rewrite ram_tm_word by (rewrite Z.mul_comm, Z.mod_add by done; done).
  repeat case_decide; try done; lia.
Qed.

Lemma kernel_tm_inv : vm_inv kernel_tm 0x80120000 [0x80121000; 0x80122000] [].
Proof.
  pose proof demo_pages_ok as Hok. rewrite list.Forall_forall in Hok. split; cbn [kernel_tm k_ms ram].
  - split; [done|constructor|apply Forall_nil_2].
  - unfold ram_tm. do 5 apply bytes_ok_st32. done.
  - apply Hok. set_solver.
  - apply list.Forall_forall. intros t Ht. apply Hok. set_solver.
  - repeat (apply list.NoDup_cons; split; [set_solver|]). constructor.
  - intros i Hi. rewrite kernel_tm_pde by done. repeat case_decide; [intros _; exists 0x80122000|intros _; exists 0x80121000|done]; (split; [set_solver|done]).
  - intros i j Hi Hj. rewrite !kernel_tm_pde by done. repeat case_decide; try congruence; intros P1 P2 P3; vm_compute in P1, P2, P3; discriminate.
  - intros t. rewrite !elem_of_cons, elem_of_nil. intros [->|[->|[]]]; [exists 0|exists 512]; (split; [lia|]); by rewrite kernel_tm_pde by lia.
Qed.

Lemma kernel_tm_space : uspace kernel_tm 0x80120000 [(0x80125000, 3); (0x80123000, 7)] [0x80121000; 0x80122000] [].
Proof.
  pose proof demo_pages_ok as Hok. rewrite list.Forall_forall in Hok. split.
  - apply kernel_tm_inv.
  - intros va Hva. unfold KERNBASE in Hva. unfold pte0. cbn [kernel_tm k_ms ram].
    pose proof (PDX_range va ltac:(lia)). pose proof (PTX_range va ltac:(lia)). rewrite kernel_tm_pde by done.
    assert (PDX va = va / 4096 / 1024) as ED by (rewrite PDX_spec by lia; change (2 ^ 22) with (4096 * 1024); by rewrite Z.div_div).
    assert (PTX va = (va / 4096) `mod` 1024) as EX by (rewrite PTX_spec by lia; done). unfold PGSIZE.
    set (v := va / 4096) in *. assert (0 <= v < 2 ^ 19) by (unfold v; split; [apply Z.div_pos; lia|apply Z.div_lt_upper_bound; lia]).
    pose proof (Z.div_mod v 1024). rewrite decide_False by lia. case_decide as E.
    + change (present 0x121007) with true. cbv iota. change (PTE_ADDR 0x121007) with 0x121000.
      rewrite ram_tm_word by (rewrite Z.mul_comm, Z.mod_add by done; done). replace (PTX va) with v by lia.
      destruct (decide (v = 0)) as [->|]; [done|]. destruct (decide (v = 1)) as [->|]; [done|].
      replace (Z.to_nat v) with (S (S (Z.to_nat (v - 2)))) by lia. cbn [lookup list_lookup].
      repeat (rewrite decide_False by lia). done.
    + replace (Z.to_nat v) with (S (S (Z.to_nat (v - 2)))) by lia. done.
  - repeat (apply Forall_cons_2; [split; [apply Hok; set_solver|done]|]). apply Forall_nil_2.
  - cbn [fmap list_fmap fst app]. repeat (apply list.NoDup_cons; split; [set_solver|]). constructor.
Qed.

Lemma kernel_tm_sees : sees (ram (k_ms kernel_tm)) 0x80120000 0x80124000.
Proof.
  intros o w Ho. rewrite (entry_translate _ 0x80120000 0x80124000 PGSIZE 0x124000 3 (0x80124000 + o) w); try done; try lia; try (unfold PGSIZE in *; lia).
  - rewrite orb_true_r. change (V2P 0x80124000) with 0x124000. f_equal. lia.
  - replace (0x80124000 + o - 0x80124000) with o by lia. rewrite Z.div_small by done.
    rewrite (pte0_same_page _ _ 0x80124000) by (done || unfold PGSIZE in *; lia). by vm_compute.
Qed.

