(* ===== verification/GrowMem.v ===== *)
(** * Growing an address space (vm.c: allocuvm)

    [allocuvm] adds zeroed pages behind those of the process.  When memory runs
    out it takes the new pages away again and says so on the console. *)

From S2P Require Import Prelude Params State Mem Spinlock Seg Str Cprintf Kalloc Vm VmSpec AddrSpace UserMem Demo.

Section GrowMem.
Context {F : Type} {LK : Linker} {LKO : LinkerOk}.
Implicit Types (k : kernel F).

(** A message on the console leaves an address space alone. *)
Lemma printed_space out k k' d ps T fl : printed out k k' -> uspace k d ps T fl ->
  uspace k' d ps T fl /\ (forall p x, page_ok p -> in_page p x -> ld8 (ram (k_ms k')) x = ld8 (ram (k_ms k)) x).
Proof.
  intros HP HU. pose proof (us_vm _ _ _ _ _ HU) as HI.
  assert (forall p x, page_ok p -> in_page p x -> ld8 (ram (k_ms k')) x = ld8 (ram (k_ms k)) x) as Hx.
  { intros p x Pp Hx. apply (pd_ram _ _ _ HP). destruct (page_ok_V2P p Pp) as [Ep Hr]. destruct Pp as (_ & [He _] & _).
    pose proof data_high. pose proof data_end. unfold in_page, crt, KERNLINK, EXTMEM, KERNBASE in *. lia. }
  split; [|done]. destruct (pd_mem _ _ _ HP) as (_ & Ef & _). split; [|intros va Hva|apply HU|apply HU].
  - apply (vm_inv_same k); [done|done|apply HP, HI|]. intros p x Hp. apply Hx. apply elem_of_cons in Hp as [->|Hp]; [apply HI|].
    apply (Forall_elem _ _ _ (km_pages _ _ (vi_kmem _ _ _ _ HI)) Hp).
  - rewrite (pte0_tables k d T fl _ va HI); [by apply HU| |unfold KERNBASE in *; lia]. intros q x Hq. apply Hx.
    apply elem_of_cons in Hq as [->|Hq]; [apply HI|]. apply (Forall_elem _ _ _ (vi_tables _ _ _ _ HI) Hq).
Qed.

(** The contents of the pages are as before. *)
Definition keeps_pages (ps : list (Z * Z)) (k k' : kernel F) : Prop :=
  forall q x, q ∈ ps.*1 -> in_page q x -> ld8 (ram (k_ms k')) x = ld8 (ram (k_ms k)) x.

Lemma keeps_pages_outside ps k k' P : Forall (fun pf => page_ok pf.1) ps -> Forall page_ok P -> (forall q, q ∈ ps.*1 -> q ∉ P) ->
  same_outside P (ram (k_ms k)) (ram (k_ms k')) -> keeps_pages ps k k'.
Proof.
  intros Hps HP Hd Ho q x Hq Hx. apply Ho. intros p Hp. apply list_elem_of_fmap in Hq as (pf & -> & Hpf).
  apply (pages_apart pf.1 p); [by apply (Forall_elem _ _ _ Hps)|by eapply (Forall_elem page_ok)| |done].
  intros <-. apply (Hd pf.1); [apply list_elem_of_fmap; by exists pf|done].
Qed.

Lemma uspace_apart k d ps T fl q : uspace k d ps T fl -> q ∈ ps.*1 -> q ∉ d :: T ++ fl.
Proof. intros HU Hq. pose proof (us_apart _ _ _ _ _ HU) as Hnd. apply list.NoDup_app in Hnd as (_ & Hnd & _). by apply Hnd. Qed.

Lemma uspace_pages_ok k d ps T fl : uspace k d ps T fl -> Forall (fun pf => page_ok pf.1) ps.
Proof. intros HU. eapply list.Forall_impl; [apply HU|]. cbn. tauto. Qed.

(** ** Taking pages away *)

Section Shrink.
Context (c : nat) (n : Z) (H : list lockid) (HL : LKkmem ∉ H) (Hn : n < 2 ^ 30 - 2).
Context (ps : list (Z * Z)) (oldsz newsz : Z) (Hold : pages_to 0 oldsz (length ps)) (H0 : 0 <= oldsz < newsz) (Hnew : newsz < KERNBASE).

Lemma round_old : PGROUNDUP oldsz = Z.of_nat (length ps) * PGSIZE.
Proof.
  unfold KERNBASE, pages_to, PGSIZE in *. rewrite PGROUNDUP_spec by (unfold PGSIZE; lia). unfold PGSIZE.
  replace (oldsz + 4096 - 1) with (oldsz + 4095) by lia. pose proof (Z.div_mod (oldsz + 4095) 4096). pose proof (Z.mod_pos_bound (oldsz + 4095) 4096). lia.
Qed.

Definition room_pages : nat := page_count (Z.of_nat (length ps) * PGSIZE) newsz.

Lemma room_pages_fit : (Z.of_nat (length ps) + Z.of_nat room_pages) * PGSIZE <= KERNBASE.
Proof.
  pose proof (page_count_pages (Z.of_nat (length ps) * PGSIZE) newsz) as [Hp1 Hp2]. fold room_pages in *. unfold KERNBASE, pages_to, PGSIZE in *. lia.
Qed.

(** The pages behind those of the process are freed. *)
Lemma shrink_holds k d new T fl : holds k c n H -> uspace k d (ps ++ new) T fl -> (length new <= room_pages)%nat ->
  runs (deallocuvm d newsz oldsz) k (fun _ k' => holds k' c n H /\ exists fl', fl' ≡ₚ new.*1 ++ fl /\ uspace k' d ps T fl' /\ keeps_pages ps k k').
Proof.
  intros Hk HU Hlen. pose proof room_pages_fit as Hfit. pose proof (us_apart _ _ _ _ _ HU) as Hnd.
  assert (upages (ram (k_ms k)) d (Z.of_nat (length ps) * PGSIZE) room_pages = new.*1) as Eu.
  { rewrite (upages_uspace k d (ps ++ new) T fl) by (done || lia). by rewrite drop_app_length, take_ge. }
  pose proof (us_pages _ _ _ _ _ HU) as [Hps Hnews]%list.Forall_app. rewrite fmap_app, <-app_assoc in Hnd.
  pose proof (deallocuvm_holds k c n H d T fl newsz oldsz Hk HL Hn (us_vm _ _ _ _ _ HU) H0 ltac:(lia)) as Hd.
  rewrite round_old in Hd. fold room_pages in Hd. unfold freeable, unmaps in Hd. rewrite Eu in Hd. eapply wp_mono; [|apply Hd].
  - intros r k' (Hk' & _ & _ & HI' & Hout & Hpte). split; [done|]. exists (rev new.*1 ++ fl). split; [by rewrite <-(Permutation_rev new.*1)|]. split; [split|].
    + done.
    + intros va Hva. rewrite Hpte by (unfold KERNBASE in *; lia). pose proof (us_pte _ _ _ _ _ HU va Hva) as Hp.
      set (i := Z.to_nat (va / PGSIZE)) in *. pose proof (page_of_div i va eq_refl ltac:(lia)) as Hi.
      destruct (decide (i < length ps)%nat) as [Hl|Hl].
      * rewrite lookup_app_l in Hp by done. rewrite decide_False by (unfold PGSIZE in *; lia). exact Hp.
      * rewrite (lookup_ge_None_2 ps) by lia. rewrite lookup_app_r in Hp by lia. destruct (new !! (i - length ps)%nat) as [[p f]|] eqn:E.
        -- rewrite decide_True; [done|]. apply lookup_lt_Some in E as Hlt. split; [unfold PGSIZE in *; lia|]. rewrite Hp.
           destruct (Forall_lookup_1 _ _ _ _ Hnews E) as (Pp & _ & Hpf). cbn [fst snd] in *. rewrite present_frame; [done|by apply page_ok_aligned].
        -- rewrite decide_False; [done|]. rewrite Hp. by intros [_ ?].
    + done.
    + assert (ps.*1 ++ d :: T ++ rev new.*1 ++ fl ≡ₚ ps.*1 ++ new.*1 ++ d :: T ++ fl) as ->; [|done].
      rewrite <-(Permutation_rev new.*1). solve_Permutation.
    + apply (keeps_pages_outside ps k k' (T ++ new.*1)); [eapply list.Forall_impl; [exact Hps|]; cbn; tauto| | |done].
      * apply Forall_app_2; [apply HU|]. apply Forall_fmap. eapply list.Forall_impl; [exact Hnews|]. cbn. tauto.
      * intros q Hq. apply list.NoDup_app in Hnd as (_ & Hnd & _). specialize (Hnd q Hq). set_solver.
  - split; [|by apply list.NoDup_app in Hnd as (_ & _ & Hnd)]. apply Forall_fmap. eapply list.Forall_impl; [exact Hnews|]. cbn. tauto.
Qed.

(** ** Adding pages *)

Context (HC : LKcons ∉ H) (k0 : kernel F) (d : Z) (T0 fl0 : list Z).

(** The pages [new] have been added. *)
Record grew (k : kernel F) (new : list (Z * Z)) (T fl : list Z) : Prop := {
  gr_holds : holds k c n H;
  gr_cons : console_ok k;
  gr_space : uspace k d (ps ++ new) T fl;
  gr_pages : T ++ new.*1 ++ fl ≡ₚ T0 ++ fl0;
  gr_keep : keeps_pages ps k0 k;
  gr_zero : Forall (fun pf => pf.2 = 7 /\ forall x, in_page pf.1 x -> ld8 (ram (k_ms k)) x = 0) new
}.

Definition grow_post (r : Z) (k : kernel F) : Prop :=
  holds k c n H /\ exists T fl,
    (r = newsz /\ (exists new, grew k new T fl /\ pages_to 0 newsz (length (ps ++ new))) \/
     r = 0 /\ uspace k d ps T fl /\ T ++ fl ≡ₚ T0 ++ fl0 /\ keeps_pages ps k0 k).

Lemma ms_only_cons k k' : ms_only k k' -> console_ok k -> console_ok k'.
Proof. intros Ho Hc. pose proof (core_cons _ _ Ho) as E. unfold console_ok in *. by rewrite E. Qed.

(** A message, and the new pages are freed. *)
Lemma wp_give_back k new T fl msg out (f : M (kernel F) Z) Q :
  holds k c n H -> console_ok k -> uspace k d (ps ++ new) T fl -> (length new <= room_pages)%nat -> rendered (bytes_of msg) [] = Some out ->
  (forall k' fl', holds k' c n H -> fl' ≡ₚ new.*1 ++ fl -> uspace k' d ps T fl' -> keeps_pages ps k k' -> wp (alone _) (f k') Q) ->
  wp (alone _) ((cprintf msg [] ;; deallocuvm d newsz oldsz ;; f) k) Q.
Proof.
  intros Hk Hcok HU Hlen Hr Hf. wp_call (cprintf_prints k c n H msg [] out Hk HC Hn Hcok Hr). intros _ k1 [Hk1 HP].
  destruct (printed_space _ _ _ _ _ _ _ HP HU) as [HU1 Hx].
  wp_call (shrink_holds k1 d new T fl Hk1 HU1 Hlen). intros _ k2 (Hk2 & fl' & Hfl & HU2 & Hkp). apply (Hf k2 fl'); [done..|].
  intros q x Hq Hin. rewrite (Hkp q x Hq Hin). apply (Hx q); [|done]. apply list_elem_of_fmap in Hq as (pf & -> & Hpf).
  apply (Forall_elem _ _ _ (uspace_pages_ok _ _ _ _ _ HU2) Hpf).
Qed.

Lemma keeps_pages_trans ps' k k1 k2 : keeps_pages ps' k k1 -> keeps_pages ps' k1 k2 -> keeps_pages ps' k k2.
Proof. intros H1 H2 q x Hq Hx. rewrite (H2 q x Hq Hx). exact (H1 q x Hq Hx). Qed.

(** The next page, zeroed. *)
Lemma grew_next k k' new T p fl T' fl' :
  grew k new T (p :: fl) -> holds k' c n H -> console_ok k' -> uspace k' d ((ps ++ new) ++ [(p, 7)]) T' fl' -> grown T fl T' fl' ->
  same_outside (p :: d :: T') (ram (k_ms k)) (ram (k_ms k')) -> (forall x, in_page p x -> ld8 (ram (k_ms k')) x = 0) ->
  grew k' (new ++ [(p, 7)]) T' fl'.
Proof.
  intros [_ _ HU Hpg Hkp Hz] Hk' Hc' HU' (N & -> & HT) Hout Hzp.
  assert (Forall page_ok (p :: d :: T')) as Hok.
  { destruct (uspace_cons_free k d (ps ++ new) T p _ HU) as [Pp _]. pose proof (us_vm _ _ _ _ _ HU') as HI.
    apply Forall_cons_2; [done|]. apply Forall_cons_2; apply HI. }
  assert (keeps_pages (ps ++ new) k k') as Hkn.
  { apply (keeps_pages_outside _ k k' (p :: d :: T')); [by eapply uspace_pages_ok|done| |done]. intros q Hq.
    pose proof (us_apart _ _ _ _ _ HU') as Hnd. rewrite fmap_app, <-app_assoc in Hnd. apply list.NoDup_app in Hnd as (_ & Hnd & _). specialize (Hnd q Hq). set_solver. }
  split; [done|done|by rewrite app_assoc|rewrite <-Hpg, HT, fmap_app; cbn [fmap list_fmap fst]; solve_Permutation|..].
  - eapply keeps_pages_trans; [exact Hkp|]. intros q x Hq. apply Hkn. rewrite fmap_app. set_solver.
  - apply Forall_app_2; [|apply Forall_singleton; done]. apply list.Forall_forall. intros pf Hpf. destruct (Forall_elem _ _ _ Hz Hpf) as [Ef Hx].
    split; [done|]. intros x Hin. rewrite (Hkn pf.1); [by apply Hx| |done]. rewrite fmap_app, elem_of_app. right. apply list_elem_of_fmap. by exists pf.
Qed.

Lemma same_outside_zero k p : same_outside [p] (ram (k_ms k)) (memset (ram (k_ms k)) (V2P p) 0 PGSIZE) /\
  (bytes_ok (ram (k_ms k)) -> bytes_ok (memset (ram (k_ms k)) (V2P p) 0 PGSIZE)) /\
  (forall x, in_page p x -> ld8 (memset (ram (k_ms k)) (V2P p) 0 PGSIZE) x = 0).
Proof.
  split; [|split].
  - intros x Hx. rewrite ld8_memset, decide_False; [done| |done]. apply Hx. left.
  - intros Hb x. rewrite ld8_memset by done. case_decide; [done|apply Hb].
  - intros x Hx. by rewrite ld8_memset, decide_True.
Qed.

(** The loop is over. *)
Lemma alloc_loop_done fuel k new T fl : grew k new T fl ->
  Z.of_nat (length (ps ++ new)) * PGSIZE - PGSIZE < newsz <= Z.of_nat (length (ps ++ new)) * PGSIZE ->
  runs (alloc_loop fuel d (Z.of_nat (length (ps ++ new)) * PGSIZE) oldsz newsz) k grow_post.
Proof.
  intros HG Ha. unfold runs. assert ((Z.of_nat (length (ps ++ new)) * PGSIZE <? newsz) = false) as E by lia.
  destruct fuel; cbn [alloc_loop]; rewrite E; cbn [negb]; rewrite ret_eq; (split; [apply HG|]); exists T, fl; left;
    (split; [unfold KERNBASE in *; apply s32_small; lia|]); exists new; (split; [done|]); unfold pages_to; rewrite Z.add_0_l; (split; [lia|right; lia]).
Qed.

(** A page but no table for it. *)
Lemma grow_no_table k new T p msg out :
  holds k c n H -> console_ok k -> uspace k d (ps ++ new) T [] -> page_ok p -> p ∉ (ps ++ new).*1 ++ d :: T ++ [] -> keeps_pages ps k0 k ->
  T ++ new.*1 ++ [p] ≡ₚ T0 ++ fl0 -> (length new <= room_pages)%nat -> rendered (bytes_of msg) [] = Some out ->
  wp (alone _) ((cprintf msg [] ;; deallocuvm d newsz oldsz ;; kfree p ;; ret 0) k) grow_post.
Proof.
  intros Hk Hc HU Pp Hnin Hkp Hpg Hlen Hr. eapply (wp_give_back k new T [] _ _ _ _ Hk Hc HU Hlen Hr). intros k1 fl1 Hk1 Hfl HU1 Hkp1.
  assert (p ∉ ps.*1 ++ d :: T ++ fl1) as Hnin1 by (rewrite fmap_app in Hnin; rewrite Hfl; set_solver).
  wp_call (kfree_user k1 c n H d ps T fl1 p Hk1 HL Hn HU1 Pp Hnin1). intros _ k2 (Hk2 & _ & HU2 & Hout2). rewrite ret_eq.
  split; [done|]. exists T, (p :: fl1). right. split; [done|]. split; [done|]. split; [rewrite Hfl, <-Hpg; solve_Permutation|].
  eapply keeps_pages_trans; [exact Hkp|]. eapply keeps_pages_trans; [exact Hkp1|].
  apply (keeps_pages_outside ps k1 k2 [p]); [by eapply uspace_pages_ok|by apply Forall_singleton| |done]. intros q Hq ->%list_elem_of_singleton. set_solver.
Qed.

Lemma alloc_loop_holds fuel : forall k new T fl, grew k new T fl ->
  Z.of_nat (length (ps ++ new)) * PGSIZE - PGSIZE < newsz -> (page_count (Z.of_nat (length (ps ++ new)) * PGSIZE) newsz <= fuel)%nat ->
  runs (alloc_loop fuel d (Z.of_nat (length (ps ++ new)) * PGSIZE) oldsz newsz) k grow_post.
Proof.
  induction fuel as [|fuel IH]; intros k new T fl HG Hlo Hfuel; pose proof (page_count_pages (Z.of_nat (length (ps ++ new)) * PGSIZE) newsz) as [Hc1 Hc2];
    (destruct (decide (newsz <= Z.of_nat (length (ps ++ new)) * PGSIZE)); [by eapply alloc_loop_done|]).
  { replace (page_count _ _) with 0%nat in * by lia. lia. }
  pose proof room_pages_fit as Hfit. pose proof (page_count_pages (Z.of_nat (length ps) * PGSIZE) newsz) as [Hr1 Hr2]. fold room_pages in Hr1, Hr2.
  assert (length new < room_pages)%nat as Hroom by (rewrite length_app in *; unfold PGSIZE in *; lia).
  assert (Z.of_nat (length (ps ++ new)) * PGSIZE + PGSIZE <= KERNBASE) as Hend by (rewrite length_app in *; unfold PGSIZE in *; lia).
  set (a := Z.of_nat (length (ps ++ new)) * PGSIZE) in *. unfold runs. cbn [alloc_loop]. assert ((a <? newsz) = true) as -> by lia. cbn [negb].
  pose proof HG as [Hk Hcok HU Hpg Hkp Hz].
  wp_call (kalloc_user k c n H d (ps ++ new) T fl Hk HL Hn HU). intros p k1 (Hk1 & Ho1 & Er1 & [(-> & -> & HU1)|(fl1 & -> & Pp & Hnin & HU1)]);
    pose proof (ms_only_cons _ _ Ho1 Hcok) as Hc1'; (assert (keeps_pages ps k0 k1) as Hkp1 by (eapply keeps_pages_trans; [exact Hkp|]; intros q x _ _; by rewrite Er1)).
  { rewrite Z.eqb_refl. eapply (wp_give_back k1 new T [] _ _ _ _ Hk1 Hc1' HU1); [lia|reflexivity|]. intros k2 fl' Hk2 Hfl HU2 Hkp2. rewrite ret_eq.
    split; [done|]. exists T, fl'. right. split; [done|]. split; [done|]. split; [by rewrite Hfl, <-Hpg|by eapply keeps_pages_trans]. }
  destruct (page_ok_V2P p Pp) as [_ Hgt]. destruct (p =? 0) eqn:E0; [unfold KERNBASE in *; lia|]. clear E0. unfold on_ms at 1. kred.
  destruct (same_outside_zero k1 p) as (Hout2 & Hb2 & Hzero). set (m2 := memset _ _ _ _) in *.
  destruct (write_page k1 c n H d _ T fl1 p m2 Hk1 HU1 Pp) as (Hk2 & Ho2 & HU2); [set_solver|done|apply Hb2, HU1|].
  set (k2 := set_k_ms _ k1) in *. change (set_k_ms _ k1) with k2. pose proof (ms_only_cons _ _ Ho2 Hc1') as Hc2'.
  wp_call (map_user_page k2 c n H d (ps ++ new) T fl1 p (Z.lor PTE_W PTE_U) Hk2 HL Hn HU2 Pp Hnin ltac:(done) Hend).
  intros r k3 (Hk3 & Ho3 & [(-> & T' & fl' & Hg & HU3 & Hout3 & _)|(-> & -> & HU3 & Er3)]); pose proof (ms_only_cons _ _ Ho3 Hc2') as Hc3.
  - change (0 <? 0) with false. cbv iota. change (Z.lor (Z.lor PTE_W PTE_U) PTE_P) with 7 in HU3.
    assert (grew k3 (new ++ [(p, 7)]) T' fl') as HG3.
    { apply (grew_next k k3 new T p fl1 T' fl'); try done.
      - intros x Hx. rewrite Hout3 by (intros y Hy; apply Hx; set_solver). rewrite <-Er1. apply Hout2. intros y Hy. apply Hx. set_solver.
      - intros x Hx. rewrite Hout3 by (by apply (uspace_last k3 d (ps ++ new) T' fl' p 7)). by apply Hzero. }
    assert (Z.of_nat (length (ps ++ new ++ [(p, 7)])) * PGSIZE = a + PGSIZE) as Ea by (unfold a; rewrite app_assoc, (length_app (ps ++ new)); simpl; lia).
    rewrite u32_small by (unfold KERNBASE, PGSIZE in *; lia). rewrite <-Ea. apply (IH k3 _ T' fl' HG3); [unfold PGSIZE in *; lia|].
    rewrite Ea. unfold page_count in *. replace (newsz - (a + PGSIZE) + (PGSIZE - 1)) with (newsz - a + (PGSIZE - 1) + (-1) * PGSIZE) by lia. rewrite Z.div_add by done. lia.
  - change (-1 <? 0) with true. cbv iota.
    assert (keeps_pages ps k0 k3) as Hkp3.
    { eapply keeps_pages_trans; [exact Hkp1|]. apply (keeps_pages_outside ps k1 k3 [p]); [|by apply Forall_singleton| |by rewrite Er3].
      - pose proof (uspace_pages_ok _ _ _ _ _ HU3) as [? _]%list.Forall_app. done.
      - intros q Hq ->%list_elem_of_singleton. apply Hnin. rewrite fmap_app. set_solver. }
    eapply (grow_no_table k3 new T p _ _ Hk3 Hc3 HU3 Pp Hnin Hkp3 Hpg); [lia|reflexivity].
Qed.

Lemma allocuvm_holds : holds k0 c n H -> console_ok k0 -> uspace k0 d ps T0 fl0 -> runs (allocuvm d oldsz newsz) k0 grow_post.
Proof.
  intros Hk Hc HU. unfold runs, allocuvm. replace (newsz >=? KERNBASE) with false by lia. replace (newsz <? oldsz) with false by lia. rewrite round_old.
  rewrite <-(app_nil_r ps) at 1. apply (alloc_loop_holds _ k0 [] T0 fl0).
  - split; [done|done|by rewrite app_nil_r|done|by intros q x|apply Forall_nil_2].
  - rewrite app_nil_r. unfold pages_to, PGSIZE in *. lia.
  - rewrite app_nil_r. unfold page_count, PGSIZE in *. pose proof (Z.div_mod newsz 4096). pose proof (Z.mod_pos_bound newsz 4096).
    apply Z2Nat.inj_le; [apply Z.div_pos; unfold pages_to, PGSIZE in *; lia|lia|]. apply Z.lt_succ_r, Z.div_lt_upper_bound; lia.
Qed.

End Shrink.

(** What the process sees of its pages. *)
Lemma keeps_view k k' d ps new T fl T' fl' va w : uspace k d ps T fl -> uspace k' d (ps ++ new) T' fl' -> keeps_pages ps k k' ->
  0 <= va < Z.of_nat (length ps) * PGSIZE -> va < KERNBASE -> user_view (ram (k_ms k')) d va w = user_view (ram (k_ms k)) d va w.
Proof.
  intros HU HU' Hk Hva Hlt. unfold user_view. rewrite (uspace_translate k d ps T fl), (uspace_translate k' d (ps ++ new) T' fl') by (done || lia).
  assert (Z.to_nat (va / PGSIZE) < length ps)%nat as Hi.
  { assert (va / PGSIZE < Z.of_nat (length ps)) by (apply Z.div_lt_upper_bound; unfold PGSIZE in *; lia).
    assert (0 <= va / PGSIZE) by (apply Z.div_pos; unfold PGSIZE; lia). lia. }
  rewrite lookup_app_l by done. destruct (ps !! Z.to_nat (va / PGSIZE)) as [[q f]|] eqn:E; [|done]. destruct (negb w || nz (Z.land f PTE_W)); [|done].
  cbn [fmap option_fmap option_map]. f_equal. apply (Hk q); [apply list_elem_of_fmap; exists (q, f); split; [done|by eapply list_elem_of_lookup_2]|].
  pose proof (Z.mod_pos_bound va PGSIZE ltac:(done)). unfold in_page. lia.
Qed.


End GrowMem.

