(* ===== verification/Proc.v ===== *)
(** * Scheduling (proc.c)

    The operations of proc.c by which processes give up and receive the CPU:
    the per-CPU [scheduler] with its five policies, [sched], [yield], [sleep]
    and [wakeup], the random number generator of the lottery, and the
    operations on policy, priority, tickets and time accounting.

    [swtch] saves the executing context and resumes another: the computation
    that calls it is suspended with its continuation ([Swtch]).  The saved
    registers and kernel stacks are that continuation. *)

From S2P Require Import Prelude Params State Spinlock Seg.

(* swtch.S 8-29: swtch *)
Definition swtch {S} (to : ctx) : M S unit := fun s => Swtch to s (fun s' => Done tt s').

(* proc.c 25-25: PRIORITY_Q *)
Definition PRIORITY_Q : list Z := [1; 2; 4; 8; 16; 32].

Section Proc.
  Context {F : Type} {LK : Linker}.

(** The slots of [ptable.proc], in order. *)
Definition slots : list nat := seq 0 (Z.to_nat NPROC).

(* proc.c 40-44: pinit *)
Definition pinit : M (kernel F) unit := initlock LKptable "ptable".

(** Signed overflow wraps, as compiled. *)
(* proc.c 28-32: fastrandSlated *)
Definition fastrandSlated (s : Z) : M (kernel F) Z :=
  g <- gets (fun k => g_seed (k_ps k)) ;;
  let g := s32 (s32 (s32 (214013 + s) * g) + s32 (2531011 + s)) in
  on_ps (set_g_seed g) ;;
  ret (Z.land (Z.shiftr g 16) 0x7FFF).

(* proc.c 34-38: fastrand *)
Definition fastrand : M (kernel F) Z :=
  g <- gets (fun k => g_seed (k_ps k)) ;;
  let g := s32 (s32 (214013 * g) + 2531011) in
  on_ps (set_g_seed g) ;;
  ret (Z.land (Z.shiftr g 16) 0x7FFF).

(** [totalTicketCount += n], an int and an unsigned int. *)
Definition add_tickets (n : Z) : M (kernel F) unit :=
  on_ps (fun ps => set_totalTicketCount (s32 (totalTicketCount ps + n)) ps).

(** [p->field = ticks] and the like read the tick counter without its lock. *)
(* proc.c 751-761: wakeup1 *)
Definition wakeup1 (ch : option chan) : M (kernel F) unit :=
  for_all slots (fun i =>
    p <- get_proc i ;;
    when (bool_decide (state p = SLEEPING) && bool_decide (p_chan p = ch))
      (upd_proc i (set_state RUNNABLE) ;;
       t <- get_ticks ;;
       upd_proc i (set_lastChangeTime t) ;;
       add_tickets (ticketCount p))).

(* proc.c 764-770: wakeup *)
Definition wakeup (ch : chan) : M (kernel F) unit :=
  acquire LKptable ;;
  wakeup1 (Some ch) ;;
  release LKptable.

(* proc.c 595-614: sched *)
Definition sched : M (kernel F) unit :=
  op <- myproc ;;
  i <- deref "myproc()" op ;;
  t <- get_ticks ;;
  upd_proc i (fun p => set_totalCBT (u32 (totalCBT p + (t - lastChangeTime p))) p) ;;
  t <- get_ticks ;;
  upd_proc i (set_lastChangeTime t) ;;
  h <- holding LKptable ;;
  if negb h then panic "sched ptable.lock" else
  c <- mycpu ;;
  cc <- get_cpu c ;;
  if negb (ncli cc =? 1) then panic "sched locks" else
  p <- get_proc i ;;
  if bool_decide (state p = RUNNING) then panic "sched running" else
  fl <- readeflags ;;
  if nz (Z.land fl FL_IF) then panic "sched interruptible" else
  c <- mycpu ;;
  cc <- get_cpu c ;;
  let intena := intena cc in
  c <- mycpu ;;
  swtch (CtxSched c) ;;
  c <- mycpu ;;
  upd_cpu c (set_intena intena).

(* proc.c 617-624: yield *)
Definition yield : M (kernel F) unit :=
  acquire LKptable ;;
  op <- myproc ;;
  i <- deref "myproc()" op ;;
  upd_proc i (set_state RUNNABLE) ;;
  sched ;;
  release LKptable.

(** The lock is never null here. *)
(* proc.c 710-746: sleep *)
Definition sleep (ch : chan) (lk : lockid) : M (kernel F) unit :=
  op <- myproc ;;
  match op with
  | None => panic "sleep"
  | Some i =>
      when (bool_decide (lk <> LKptable)) (acquire LKptable ;; release lk) ;;
      upd_proc i (set_p_chan (Some ch)) ;;
      upd_proc i (set_state SLEEPING) ;;
      p <- get_proc i ;;
      add_tickets (- ticketCount p) ;;
      sched ;;
      upd_proc i (set_p_chan None) ;;
      when (bool_decide (lk <> LKptable)) (release LKptable ;; acquire lk)
  end.

(** ** Choosing the next process *)

(** [for(p = start; p < &ptable.proc[NPROC]; p++)]: the first runnable slot. *)
(* proc.c 493-503: scheduler *)
Definition pick_rr (c : nat) (start : Z) : M (kernel F) (option nat) :=
  o <- for_each (drop (Z.to_nat start) slots) (fun i =>
         p <- get_proc i ;;
         if negb (bool_decide (state p = RUNNABLE)) then ret None else
         upd_cpu c (set_RRLastProc (Z.of_nat i)) ;;
         ret (Some i)) ;;
  match o with
  | Some i => ret (Some i)
  | None => upd_cpu c (set_RRLastProc 0) ;; ret None
  end.

(** One turn over the table from slot [i] on, [n] slots long; [best] holds
    [minPP] and [minP] once a runnable process was found. *)
(* proc.c 509-531: scheduler *)
Fixpoint scan_priority (n : nat) (i : nat) (minPP : Z) (minP : option nat) :
    M (kernel F) (option nat) :=
  match n with
  | O => ret minP
  | S n' =>
      p <- get_proc i ;;
      let next := if Z.of_nat i + 1 >=? NPROC then O else S i in
      if bool_decide (state p = RUNNABLE) then
        let '(minPP', minP') :=
          if nz minPP then (if priority p <? minPP then (priority p, Some i) else (minPP, minP))
          else (priority p, Some i) in
        if minPP' =? 1 then ret minP' else scan_priority n' next minPP' minP'
      else scan_priority n' next minPP minP
  end.

(** Chosen process and time quantum of policies 2 and 3. *)
(* proc.c 505-542: scheduler *)
Definition pick_priority (c : nat) (start : Z) : M (kernel F) (option nat * Z) :=
  minP <- scan_priority (Z.to_nat NPROC) (Z.to_nat start) 0 None ;;
  match minP with
  | Some i =>
      upd_cpu c (set_RRLastProc (Z.of_nat i)) ;;
      cc <- get_cpu c ;;
      if schedAlg cc =? 3 then
        p <- get_proc i ;;
        let q := u32 (priority p - 1) in
        if q <? 6 then ret (Some i, nth (Z.to_nat q) PRIORITY_Q 0) else undef "PRIORITY_Q"
      else ret (Some i, 1)
  | None => upd_cpu c (set_RRLastProc 0) ;; ret (None, 1)
  end.

(** The walk that subtracts tickets from the drawn number. *)
(* proc.c 549-557: scheduler *)
Fixpoint scan_lottery (l : list nat) (winner : Z) : M (kernel F) (option nat) :=
  match l with
  | [] => ret None
  | i :: l' =>
      p <- get_proc i ;;
      if negb (bool_decide (state p = RUNNABLE)) then scan_lottery l' winner else
      let winner := s32 (winner - ticketCount p) in
      if winner <? 0 then ret (Some i) else scan_lottery l' winner
  end.

(* proc.c 543-558: scheduler *)
Definition pick_lottery : M (kernel F) (option nat) :=
  total <- gets (fun k => totalTicketCount (k_ps k)) ;;
  winner <- (if 0 <? total then r <- fastrand ;; ret (Z.rem r total) else ret 0) ;;
  scan_lottery slots winner.

(** The policy switch: the process found, if any, and its quantum [timeQ]. *)
(* proc.c 471-559: scheduler *)
Definition choose (c : nat) : M (kernel F) (option nat * Z) :=
  cc <- get_cpu c ;;
  when ((RRLastProc cc <? 0) || (RRLastProc cc >=? NPROC)) (upd_cpu c (set_RRLastProc 0)) ;;
  cc <- get_cpu c ;;
  when (0 <? RRLastProc cc) (upd_cpu c (set_RRLastProc (RRLastProc cc + 1))) ;;
  cc <- get_cpu c ;;
  let start := RRLastProc cc in
  let alg := schedAlg cc in
  if (alg =? 2) || (alg =? 3) then pick_priority c start
  else if alg =? 4 then p <- pick_lottery ;; ret (p, 1)
  else if alg =? 0 then p <- pick_rr c start ;; ret (p, 1)
  else
    when (negb (alg =? 1)) (upd_cpu c (set_schedAlg 0)) ;;
    p <- pick_rr c start ;;
    ret (p, QUANTUM).

(** One iteration of the scheduler's loop on CPU [c]. *)
(* proc.c 466-585: scheduler *)
Definition scheduler_iter (c : nat) : M (kernel F) unit :=
  sti ;;
  acquire LKptable ;;
  r <- choose c ;;
  let '(found, timeQ) := r in
  match found with
  | Some i =>
      upd_cpu c (set_ctr timeQ) ;;
      upd_cpu c (set_c_proc (Some i)) ;;
      t <- get_ticks ;;
      upd_proc i (fun p => set_totalWaitTime (u32 (totalWaitTime p + (t - lastChangeTime p))) p) ;;
      t <- get_ticks ;;
      upd_proc i (set_lastChangeTime t) ;;
      switchuvm (Some i) ;;
      upd_proc i (set_state RUNNING) ;;
      swtch (CtxProc i) ;;
      switchkvm ;;
      upd_cpu c (set_c_proc None)
  | None => ret tt
  end ;;
  release LKptable.

(** The loop never ends; [n] bounds the number of its iterations. *)
(* proc.c 450-586: scheduler *)
Definition scheduler (n : nat) : M (kernel F) unit :=
  c <- mycpu ;;
  upd_cpu c (set_c_proc None) ;;
  for_all (seq 0 1000) (fun _ => t <- get_ticks ;; fastrandSlated (s32 t) ;; ret tt) ;;
  loop n (scheduler_iter c ;; ret None).

(** ** Policy, priority, tickets, times *)

(* proc.c 626-630: get_policy *)
Definition get_policy : M (kernel F) Z :=
  cc <- get_cpu 0 ;; ret (s32 (schedAlg cc)).

(* proc.c 632-650: change_policy *)
Definition change_policy (policy : Z) : M (kernel F) Z :=
  if (policy <? 0) || (policy >? 4) then ret (-1) else
  pushcli ;;
  n <- gets (fun k => ncpu (k_hw k)) ;;
  for_all (seq 0 (Z.to_nat n)) (fun i => get_cpu i ;; upd_cpu i (set_schedAlg policy)) ;;
  popcli ;;
  ret policy.

(* proc.c 652-658: set_priority *)
Definition set_priority (prio : Z) : M (kernel F) unit :=
  let prio := if (prio <? 1) || (prio >? 6) then 5 else prio in
  op <- myproc ;;
  i <- deref "myproc()" op ;;
  upd_proc i (put_priority prio).

(** Offsets of the fields [CBT], [WT], [TT] of [struct procTimes]. *)
(* types.h 6-10: procTimes *)
Definition procTimes_fields : list Z := [0; 4; 8].

(* proc.c 660-670: get_proc_times *)
Definition get_proc_times (arg : Z) : M (kernel F) unit :=
  op <- myproc ;;
  i <- deref "myproc()" op ;;
  t <- get_ticks ;;
  upd_proc i (fun p => set_totalCBT (u32 (totalCBT p + (t - lastChangeTime p))) p) ;;
  t <- get_ticks ;;
  upd_proc i (set_lastChangeTime t) ;;
  t <- get_ticks ;;
  p <- get_proc i ;;
  ustore32 (arg + 8) (u32 (t - creationTime p)) ;;
  p <- get_proc i ;;
  ustore32 (arg + 4) (totalWaitTime p) ;;
  p <- get_proc i ;;
  ustore32 arg (totalCBT p).

(* proc.c 672-675: get_ticketCount *)
Definition get_ticketCount : M (kernel F) Z :=
  op <- myproc ;;
  i <- deref "myproc()" op ;;
  p <- get_proc i ;;
  ret (s32 (ticketCount p)).

(* proc.c 677-685: set_ticketCount *)
Definition set_ticketCount (n : Z) : M (kernel F) unit :=
  when (n >? 0)
    (op <- myproc ;;
     i <- deref "myproc()" op ;;
     p <- get_proc i ;;
     add_tickets (n - ticketCount p) ;;
     upd_proc i (put_ticketCount n)).

End Proc.
