(* ===== verification/Choice.v ===== *)
(** * Which process the scheduler runs next

    The policy switch of [scheduler] ([choose] in Proc.v) against its
    declarative reading: round robin takes the first runnable slot from the
    rotating start on, the priority policies take a runnable process of least
    priority value, the first one in cyclic order, and the lottery takes the
    process whose ticket interval contains the number drawn. *)

From S2P Require Import Prelude Params State Spinlock Seg Proc Demo.

(** Slot [i] holds a runnable process. *)
Definition runnable (t : list proc) (i : nat) : Prop :=
  exists p, t !! i = Some p /\ state p = RUNNABLE.

#[export] Instance runnable_dec t i : Decision (runnable t i).
Proof.
  refine (match t !! i as o return t !! i = o -> Decision (runnable t i) with
          | Some p => fun E => cast_if (decide (state p = RUNNABLE))
          | None => fun E => right _
          end eq_refl); unfold runnable; naive_solver.
Defined.

(** Tickets of the runnable processes among the first [n] slots. *)
Definition tickets_before (t : list proc) (n : nat) : Z :=
  foldr (fun p acc => (if decide (state p = RUNNABLE) then ticketCount p else 0) + acc) 0 (take n t).

(** The number [fastrand] returns for a seed, and the seed it leaves. *)
Definition next_seed (g : Z) : Z := s32 (s32 (214013 * g) + 2531011).

Definition drawn (g : Z) : Z := Z.land (Z.shiftr (next_seed g) 16) 0x7FFF.

(** Priority value of the process in slot [i]. *)
Definition prio (t : list proc) (i : nat) : Z := default 0 (priority <$> t !! i).

(** Position of slot [i] in the cyclic order that starts at slot [s]. *)
Definition turn (s i : nat) : nat := if decide (s <= i)%nat then i - s else i + 64 - s.

(** Where the walk over the table starts when the CPU's last choice was [r]: the
    slot after it, except that slot 0 is tried again. *)
Definition start_of (r : Z) : Z :=
  if (r <? 0) || (r >=? NPROC) then 0 else if 0 <? r then r + 1 else r.

(** [o] is the first runnable slot from [s] on. *)
Definition first_runnable (t : list proc) (s : Z) (o : option nat) : Prop :=
  match o with
  | Some i => s <= Z.of_nat i < NPROC /\ runnable t i /\
              forall j, s <= Z.of_nat j -> (j < i)%nat -> ~ runnable t j
  | None => forall j, s <= Z.of_nat j -> ~ runnable t j
  end.

(** [o] is, among the runnable slots whose turn comes before [m], the one of
    least priority value; of several, the one whose turn comes first. *)
Definition best_before (t : list proc) (s m : nat) (o : option nat) : Prop :=
  match o with
  | Some i => runnable t i /\ (turn s i < m)%nat /\
      forall j, runnable t j -> (turn s j < m)%nat ->
        prio t i < prio t j \/ (prio t i = prio t j /\ (turn s i <= turn s j)%nat)
  | None => forall j, (turn s j < m)%nat -> ~ runnable t j
  end.

(** A choice of round robin on CPU [c] in state [k], and the state [k2] in which
    the CPU chooses again: whatever happened in between, the remembered slot
    is the one this choice left. *)
Record rr_turn {F} (c : nat) (k : kernel F) (o : option nat) (k2 : kernel F) : Prop := {
  rt_table : length (procs (k_ps k)) = 64%nat;
  rt_policy : exists cc, cpus (k_hw k) !! c = Some cc /\ ~ (2 <= schedAlg cc <= 4);
  rt_choice : exists q k' cc' cc2, choose c k = Done (o, q) k' /\
    cpus (k_hw k') !! c = Some cc' /\ cpus (k_hw k2) !! c = Some cc2 /\
    RRLastProc cc2 = RRLastProc cc'
}.

(** How many choices may precede that of slot [i] when the walk starts at [s]. *)
Definition rr_rank (i : nat) (s : Z) : Z :=
  if s <=? Z.of_nat i then Z.of_nat i - s else 65 - s + Z.of_nat i.

(** The state with CPU [c] changed. *)
Definition upd_cpu_k {F} (c : nat) (f : cpu -> cpu) (k : kernel F) : kernel F :=
  set_k_hw (set_cpus (alter f c (cpus (k_hw k))) (k_hw k)) k.

Section Choice.
  Context {F : Type}.
  Implicit Types (k : kernel F).

Lemma get_proc_eq k i p : procs (k_ps k) !! i = Some p -> get_proc i k = Done p k.
Proof. intros H. unfold get_proc. kred. by rewrite H. Qed.

Lemma upd_cpu_eq k c f : upd_cpu c f k = Done tt (upd_cpu_k c f k).
Proof. done. Qed.

(** ** Round robin *)

Lemma pick_rr_scan k c (s n : nat) :
  (s + n)%nat = length (procs (k_ps k)) ->
  for_each (seq s n) (fun i =>
    p <- get_proc i ;;
    if negb (bool_decide (state p = RUNNABLE)) then ret None else
    upd_cpu c (set_RRLastProc (Z.of_nat i)) ;; ret (Some i)) k
  = match list_find (runnable (procs (k_ps k))) (seq s n) with
    | Some (_, i) => Done (Some i) (upd_cpu_k c (set_RRLastProc (Z.of_nat i)) k)
    | None => Done None k
    end.
Proof.
  revert s. induction n as [|n IH]; intros s Hs; [done|]. cbn [seq]. rewrite for_each_cons.
  destruct (lookup_lt_is_Some_2 (procs (k_ps k)) s) as [p Hp]; [lia|].
  kred. rewrite (get_proc_eq _ _ _ Hp). cbn [res_bind list_find].
  destruct (decide (state p = RUNNABLE)) as [E|E].
  - rewrite decide_True by (by exists p). rewrite bool_decide_eq_true_2 by done. cbn [negb].
    by rewrite bind_eq, upd_cpu_eq.
  - rewrite decide_False by (intros (? & ? & ?); congruence).
    rewrite bool_decide_eq_false_2 by done. cbn [negb]. kred. rewrite IH by lia.
    by destruct (list_find _ (seq (S s) n)) as [[]|].
Qed.

Lemma list_find_seq (P : nat -> Prop) `{!forall i, Decision (P i)} s n :
  match list_find P (seq s n) with
  | Some (_, i) => (s <= i < s + n)%nat /\ P i /\ forall j, (s <= j < i)%nat -> ~ P j
  | None => forall j, (s <= j < s + n)%nat -> ~ P j
  end.
Proof.
  destruct (list_find P (seq s n)) as [[q i]|] eqn:E.
  - apply list_find_Some in E as (Hi & HP & Hb). apply lookup_seq in Hi as [-> Hq].
    split; [lia|]. split; [done|]. intros j Hj. apply (Hb (j - s)%nat j); [|lia].
    apply lookup_seq. lia.
  - apply list_find_None in E. intros j Hj.
    apply (Forall_elem _ _ j E). apply elem_of_seq. lia.
Qed.

Lemma runnable_lt t i : runnable t i -> (i < length t)%nat.
Proof. intros (p & Hp & _). by eapply lookup_lt_Some. Qed.

Lemma pick_rr_first k c s :
  length (procs (k_ps k)) = 64%nat -> 0 <= s ->
  exists o, first_runnable (procs (k_ps k)) s o /\
    pick_rr c s k =
    Done o (upd_cpu_k c (set_RRLastProc (match o with Some i => Z.of_nat i | None => 0 end)) k).
Proof.
  intros Hlen Hs. unfold pick_rr, slots. rewrite drop_seq.
  change (Z.to_nat NPROC) with 64%nat. set (s' := Z.to_nat s). rewrite bind_eq.
  destruct (decide (64 <= s')%nat) as [Hbig|Hsm].
  - replace (64 - s')%nat with 0%nat by lia. cbn [seq]. rewrite for_each_nil.
    exists None. split; [|done]. intros j Hj Hr. apply runnable_lt in Hr. lia.
  - rewrite pick_rr_scan by lia.
    pose proof (list_find_seq (runnable (procs (k_ps k))) s' (64 - s')) as Hf.
    change (0 + s')%nat with s'.
    destruct (list_find _ _) as [[q i]|].
    + destruct Hf as (Hi & Hr & Hb). exists (Some i). split; [|done].
      split; [unfold NPROC; lia|]. split; [done|]. intros j Hj Hji. apply Hb. lia.
    + exists None. split; [|done]. intros j Hj Hr. pose proof (runnable_lt _ _ Hr).
      apply (Hf j); [lia|done].
Qed.

Lemma upd_cpu_k_twice k c f g :
  upd_cpu_k c f (upd_cpu_k c g k) = upd_cpu_k c (fun x => f (g x)) k.
Proof. unfold upd_cpu_k, set_k_hw, set_cpus. simpl. by rewrite alter_alter_eq. Qed.

Lemma upd_cpu_k_ext k c f g cc :
  cpus (k_hw k) !! c = Some cc -> f cc = g cc -> upd_cpu_k c f k = upd_cpu_k c g k.
Proof. intros Hcc E. unfold upd_cpu_k. by rewrite (alter_ext_at f g c _ cc Hcc E). Qed.

Lemma upd_cpu_k_id k c cc f : cpus (k_hw k) !! c = Some cc -> f cc = cc -> upd_cpu_k c f k = k.
Proof.
  intros Hcc E. unfold upd_cpu_k.
  replace (alter f c (cpus (k_hw k))) with (cpus (k_hw k)); [by destruct k as [[] ? ? ? ? ? ?]|].
  apply list_eq. intros i. destruct (decide (i = c)) as [->|].
  - by rewrite list_lookup_alter_eq, Hcc; simpl; rewrite E.
  - by rewrite list_lookup_alter_ne.
Qed.

Lemma get_cpu_upd k c cc f :
  cpus (k_hw k) !! c = Some cc -> cpus (k_hw (upd_cpu_k c f k)) !! c = Some (f cc).
Proof. intros Hcc. simpl. by rewrite list_lookup_alter_eq, Hcc. Qed.

(** The rotating start is fixed before the policy is looked at. *)
Lemma choose_start k c cc :
  cpus (k_hw k) !! c = Some cc ->
  choose c k =
  (let s := start_of (RRLastProc cc) in
   let alg := schedAlg cc in
   if (alg =? 2) || (alg =? 3) then pick_priority c s
   else if alg =? 4 then p <- pick_lottery ;; ret (p, 1)
   else if alg =? 0 then p <- pick_rr c s ;; ret (p, 1)
   else
     when (negb (alg =? 1)) (upd_cpu c (set_schedAlg 0)) ;;
     p <- pick_rr c s ;;
     ret (p, QUANTUM)) (upd_cpu_k c (set_RRLastProc (start_of (RRLastProc cc))) k).
Proof.
  intros Hcc. unfold choose. rewrite bind_eq, (get_cpu_eq _ _ _ Hcc). cbn [res_bind].
  set (k1 := if (RRLastProc cc <? 0) || (RRLastProc cc >=? NPROC)
             then upd_cpu_k c (set_RRLastProc 0) k else k).
  set (r1 := if (RRLastProc cc <? 0) || (RRLastProc cc >=? NPROC) then 0 else RRLastProc cc).
  assert (k1 = upd_cpu_k c (set_RRLastProc r1) k) as Ek1.
  { unfold k1, r1. destruct (_ || _); [done|]. symmetry. apply (upd_cpu_k_id _ _ cc); [done|].
    by destruct cc. }
  rewrite bind_eq.
  replace (when _ _ k) with (Done tt k1) by (unfold k1; by destruct (_ || _)).
  cbn [res_bind]. rewrite bind_eq, (get_cpu_eq k1 c (set_RRLastProc r1 cc)) by
    (rewrite Ek1; by apply get_cpu_upd).
  cbn [res_bind]. simpl (RRLastProc (set_RRLastProc r1 cc)).
  assert (start_of (RRLastProc cc) = if 0 <? r1 then r1 + 1 else r1) as Es.
  { unfold start_of, r1. by destruct (_ || _). }
  set (k2 := upd_cpu_k c (set_RRLastProc (start_of (RRLastProc cc))) k).
  rewrite bind_eq.
  replace (when _ _ k1) with (Done tt k2).
  2:{ unfold k2. rewrite Es, Ek1. destruct (0 <? r1); [|done]. cbn [when].
      by rewrite upd_cpu_eq, upd_cpu_k_twice. }
  cbn [res_bind]. rewrite bind_eq, (get_cpu_eq k2 c (set_RRLastProc (start_of (RRLastProc cc)) cc))
    by (by apply get_cpu_upd).
  done.
Qed.

Lemma choose_rr k c cc
    (Hcc : cpus (k_hw k) !! c = Some cc) (Hlen : length (procs (k_ps k)) = 64%nat)
    (Halg : ~ (2 <= schedAlg cc <= 4)) :
  exists o k' cc',
    choose c k = Done (o, if schedAlg cc =? 0 then 1 else QUANTUM) k' /\
    first_runnable (procs (k_ps k)) (start_of (RRLastProc cc)) o /\
    k_ps k' = k_ps k /\ cpus (k_hw k') !! c = Some cc' /\
    RRLastProc cc' = match o with Some i => Z.of_nat i | None => 0 end /\
    schedAlg cc' = if schedAlg cc =? 1 then 1 else 0.
Proof.
  assert (0 <= start_of (RRLastProc cc)) as Hs.
  { unfold start_of. destruct (_ || _) eqn:E; [lia|]. destruct (0 <? RRLastProc cc); lia. }
  rewrite (choose_start _ _ cc Hcc). cbn zeta.
  rewrite (proj2 (Z.eqb_neq (schedAlg cc) 2)), (proj2 (Z.eqb_neq (schedAlg cc) 3)),
    (proj2 (Z.eqb_neq (schedAlg cc) 4)) by lia. cbn [orb].
  set (k1 := upd_cpu_k c _ k).
  destruct (pick_rr_first k1 c _ Hlen Hs) as (o & Ho & Ek).
  destruct (pick_rr_first (upd_cpu_k c (set_schedAlg 0) k1) c _ Hlen Hs) as (o' & Ho' & Ek').
  destruct (schedAlg cc =? 0) eqn:E0; [|destruct (schedAlg cc =? 1) eqn:E1].
  - rewrite bind_eq, Ek. cbn [res_bind]. do 3 eexists. split; [done|]. split; [done|].
    split; [done|]. split; [by apply get_cpu_upd, get_cpu_upd|]. simpl.
    rewrite (proj2 (Z.eqb_neq (schedAlg cc) 1)) by lia. split; [done|]. lia.
  - cbn [negb when]. rewrite !bind_eq, ret_eq. cbn [res_bind]. rewrite bind_eq, Ek. cbn [res_bind].
    do 3 eexists. split; [done|]. split; [done|].
    split; [done|]. split; [by apply get_cpu_upd, get_cpu_upd|]. simpl. split; [done|]. lia.
  - cbn [negb when]. rewrite !bind_eq, upd_cpu_eq. cbn [res_bind]. rewrite bind_eq, Ek'.
    cbn [res_bind]. do 3 eexists. split; [done|]. split; [done|].
    split; [done|]. split; [by apply get_cpu_upd, get_cpu_upd, get_cpu_upd|]. done.
Qed.

(** Round robin (policies 0 and 1, and any unknown policy, which resets the
    policy to 0): the scheduler takes the first runnable slot from the
    rotating start on and remembers it; when there is none it takes nothing
    and starts from slot 0 next time.  Policy 0 gives a quantum of one tick,
    the others [QUANTUM]. *)
Theorem rr_picks_next k c cc
    (Hcc : cpus (k_hw k) !! c = Some cc) (Hlen : length (procs (k_ps k)) = 64%nat)
    (Halg : ~ (2 <= schedAlg cc <= 4)) :
  exists o k' cc',
    choose c k = Done (o, if schedAlg cc =? 0 then 1 else QUANTUM) k' /\
    first_runnable (procs (k_ps k)) (start_of (RRLastProc cc)) o /\
    k_ps k' = k_ps k /\ cpus (k_hw k') !! c = Some cc' /\
    RRLastProc cc' = match o with Some i => Z.of_nat i | None => 0 end /\
    schedAlg cc' = if schedAlg cc =? 1 then 1 else 0.
Proof. by apply choose_rr. Qed.

Lemma rr_turn_last c k o k2 cc :
  rr_turn c k o k2 -> cpus (k_hw k) !! c = Some cc ->
  first_runnable (procs (k_ps k)) (start_of (RRLastProc cc)) o /\
  exists cc2, cpus (k_hw k2) !! c = Some cc2 /\
    RRLastProc cc2 = match o with Some i => Z.of_nat i | None => 0 end.
Proof.
  intros [Hlen (cc0 & Hcc0 & Hp) (q & k' & cc' & cc2 & Hch & Hcc' & Hcc2 & Hr)] Hcc.
  assert (cc0 = cc) as -> by congruence. destruct (choose_rr k c cc Hcc Hlen Hp) as
    (o' & k1 & cc1 & Hch1 & Ho & _ & Hcc1 & Hr1 & _).
  rewrite Hch in Hch1. injection Hch1 as -> -> <-. split; [done|]. exists cc2.
  split; [done|]. congruence.
Qed.

Lemma start_of_range r : 0 <= start_of r <= 64.
Proof. unfold start_of, NPROC. destruct (_ || _) eqn:E; [lia|]. destruct (0 <? r) eqn:?; lia. Qed.

Lemma start_of_next (i : nat) : (1 <= i < 64)%nat -> start_of (Z.of_nat i) = Z.of_nat i + 1.
Proof.
  intros Hi. unfold start_of, NPROC.
  rewrite (proj2 (Z.ltb_ge _ _)), Z.geb_leb, (proj2 (Z.leb_gt _ _)), (proj2 (Z.ltb_lt _ _)) by lia.
  done.
Qed.

Lemma rr_rank_cases i s :
  (s <= Z.of_nat i /\ rr_rank i s = Z.of_nat i - s) \/
  (Z.of_nat i < s /\ rr_rank i s = 65 - s + Z.of_nat i).
Proof. unfold rr_rank. destruct (Z.leb_spec s (Z.of_nat i)); lia. Qed.

Lemma rr_progress c i (ks : nat -> kernel F) (os : nat -> option nat) (n0 m : nat) cc :
  (forall n, rr_turn c (ks n) (os n) (ks (S n))) ->
  (forall n, runnable (procs (k_ps (ks n))) i /\ ~ runnable (procs (k_ps (ks n))) 0) ->
  cpus (k_hw (ks n0)) !! c = Some cc -> rr_rank i (start_of (RRLastProc cc)) <= Z.of_nat m ->
  exists n, (n0 <= n <= n0 + m)%nat /\ os n = Some i.
Proof.
  intros Ht Hr. revert n0 cc. induction m as [|m IH]; intros n0 cc Hcc Hm.
  all: pose proof (start_of_range (RRLastProc cc)) as Hs.
  all: destruct (rr_turn_last _ _ _ _ _ (Ht n0) Hcc) as [Ho (cc2 & Hcc2 & Hlast)].
  all: destruct (Hr n0) as [Hi H0]; pose proof (runnable_lt _ _ Hi) as Hlt;
       rewrite (rt_table _ _ _ _ (Ht n0)) in Hlt.
  all: destruct (decide (os n0 = Some i)) as [Hd|Hd]; [exists n0; split; [lia|done]|].
  all: destruct (rr_rank_cases i (start_of (RRLastProc cc))) as [[Hle E]|[Hgt E]].
  - exfalso. destruct (os n0) as [j|]; simpl in Ho; [|by apply (Ho i)].
    destruct Ho as (Hj & _ & Hb). destruct (decide (i < j)%nat); [by apply (Hb i)|].
    apply Hd. f_equal. lia.
  - lia.
  - destruct (IH (S n0) cc2 Hcc2) as (n & Hn & Hc); [|exists n; split; [lia|done]].
    rewrite Hlast. destruct (os n0) as [j|]; simpl in Ho; [|exfalso; by apply (Ho i)].
    destruct Ho as (Hj & Hrj & Hb). assert (j <> 0%nat) by (intros ->; done).
    assert (j <> i) by congruence. unfold NPROC in Hj. rewrite start_of_next by lia.
    destruct (decide (i < j)%nat); [exfalso; by apply (Hb i)|].
    destruct (rr_rank_cases i (Z.of_nat j + 1)); lia.
  - destruct (IH (S n0) cc2 Hcc2) as (n & Hn & Hc); [|exists n; split; [lia|done]].
    rewrite Hlast. destruct (os n0) as [j|]; simpl in Ho.
    + destruct Ho as (Hj & Hrj & _). unfold NPROC in Hj. rewrite start_of_next by lia.
      destruct (rr_rank_cases i (Z.of_nat j + 1)); lia.
    + change (start_of 0) with 0. destruct (rr_rank_cases i 0); lia.
Qed.

(** C37. Round robin starves nobody as long as slot 0 is not runnable: a process
    that stays runnable is chosen within the CPU's next 65 choices, whatever
    the other processes do in between. *)
Theorem rr_no_starvation c i (ks : nat -> kernel F) (os : nat -> option nat)
    (Ht : forall n, rr_turn c (ks n) (os n) (ks (S n)))
    (Hi : forall n, runnable (procs (k_ps (ks n))) i)
    (H0 : forall n, ~ runnable (procs (k_ps (ks n))) 0) :
  exists n, (n <= 64)%nat /\ os n = Some i.
Proof.
  destruct (rt_policy _ _ _ _ (Ht 0%nat)) as (cc & Hcc & _).
  destruct (rr_progress c i ks os 0 64 cc) as (n & Hn & Hc); auto.
  - pose proof (start_of_range (RRLastProc cc)).
    pose proof (runnable_lt _ _ (Hi 0%nat)) as Hl. rewrite (rt_table _ _ _ _ (Ht 0%nat)) in Hl.
    destruct (rr_rank_cases i (start_of (RRLastProc cc))); lia.
  - exists n. split; [lia|done].
Qed.

(** C38. The rotating start does not move past slot 0: once the CPU remembers slot
    0 and the process there is runnable, round robin takes it again, however
    many other processes are runnable. *)
Theorem rr_slot0_again k c cc
    (Hcc : cpus (k_hw k) !! c = Some cc) (Hlen : length (procs (k_ps k)) = 64%nat)
    (Halg : ~ (2 <= schedAlg cc <= 4)) (Hr : RRLastProc cc = 0)
    (H0 : runnable (procs (k_ps k)) 0) :
  exists q k' cc', choose c k = Done (Some 0%nat, q) k' /\
    cpus (k_hw k') !! c = Some cc' /\ RRLastProc cc' = 0.
Proof.
  destruct (choose_rr k c cc Hcc Hlen Halg) as (o & k' & cc' & Hch & Ho & _ & Hcc' & Hl & _).
  rewrite Hr in Ho. change (start_of 0) with 0 in Ho.
  destruct o as [j|]; simpl in Ho; [|exfalso; apply (Ho 0%nat); [lia|done]].
  destruct Ho as (_ & _ & Hb).
  assert (j = 0%nat) as -> by (destruct j; [done|]; exfalso; apply (Hb 0%nat); [lia..|done]).
  eauto 6.
Qed.

(** ** Priorities *)

Lemma turn_next s i :
  (s < 64)%nat -> (i < 64)%nat -> (turn s i < 63)%nat ->
  turn s (if Z.of_nat i + 1 >=? NPROC then 0 else S i) = S (turn s i).
Proof.
  intros Hs Hi. unfold turn, NPROC.
  destruct (Z.of_nat i + 1 >=? 64) eqn:E; repeat case_decide; lia.
Qed.

Lemma turn_self s : turn s s = 0%nat.
Proof. unfold turn. rewrite decide_True; lia. Qed.

Lemma turn_inj s i j :
  (s < 64)%nat -> (i < 64)%nat -> (j < 64)%nat -> turn s i = turn s j -> i = j.
Proof. intros Hs Hi Hj. unfold turn. repeat case_decide; lia. Qed.

Lemma turn_lt s i : (s < 64)%nat -> (i < 64)%nat -> (turn s i < 64)%nat.
Proof. intros. unfold turn. case_decide; lia. Qed.

Lemma best_before_skip t s i o :
  length t = 64%nat -> (s < 64)%nat -> (i < 64)%nat -> ~ runnable t i ->
  best_before t s (turn s i) o -> best_before t s (S (turn s i)) o.
Proof.
  intros Hlen Hs Hi Hn. destruct o as [b|]; simpl.
  - intros (Hb & Ht & H). split; [done|]. split; [lia|]. intros j Hj Htj.
    apply H; [done|]. assert (turn s j <> turn s i); [|lia].
    intros E. apply turn_inj in E; [by subst|done|apply runnable_lt in Hj; lia|done].
  - intros H j Hj Hr. destruct (decide (turn s j = turn s i)) as [E|E].
    + apply turn_inj in E; [by subst|done|apply runnable_lt in Hr; lia|done].
    + apply (H j); [lia|done].
Qed.

(** The update of the best process found so far. *)
Lemma best_before_take t s i o :
  length t = 64%nat -> (s < 64)%nat -> (i < 64)%nat -> runnable t i ->
  best_before t s (turn s i) o ->
  best_before t s (S (turn s i))
    (match o with Some b => if prio t i <? prio t b then Some i else Some b | None => Some i end).
Proof.
  intros Hlen Hs Hi Hr Hb.
  assert (forall j, runnable t j -> (turn s j < S (turn s i))%nat ->
            j = i \/ (turn s j < turn s i)%nat) as Hcase.
  { intros j Hj Ht. destruct (decide (turn s j = turn s i)) as [E|]; [left|right; lia].
    apply turn_inj in E; auto. apply runnable_lt in Hj. lia. }
  destruct o as [b|]; simpl in Hb |- *.
  - destruct Hb as (Hbr & Hbt & Hbest). destruct (prio t i <? prio t b) eqn:E; simpl.
    + split; [done|]. split; [lia|]. intros j Hj Ht.
      destruct (Hcase j Hj Ht) as [->|Hlt]; [right; lia|].
      destruct (Hbest j Hj Hlt); left; lia.
    + split; [done|]. split; [lia|]. intros j Hj Ht.
      destruct (Hcase j Hj Ht) as [->|Hlt]; [|by apply Hbest].
      destruct (decide (prio t b = prio t i)); [right|left]; lia.
  - split; [done|]. split; [lia|]. intros j Hj Ht.
    destruct (Hcase j Hj Ht) as [->|Hlt]; [right; lia|]. by destruct (Hb j Hlt).
Qed.

(** A process of priority 1 met on the way is not beaten by later slots. *)
Lemma best_before_final t s m b :
  length t = 64%nat -> (s < 64)%nat -> (forall j, runnable t j -> 1 <= prio t j) ->
  best_before t s m (Some b) -> prio t b = 1 -> best_before t s 64 (Some b).
Proof.
  intros Hlen Hs Hpos (Hb & Ht & H) E. split; [done|].
  pose proof (runnable_lt _ _ Hb). split; [apply turn_lt; lia|].
  intros j Hj _. destruct (decide (turn s j < m)%nat) as [Hm|Hm]; [by apply H|].
  pose proof (Hpos j Hj). destruct (decide (prio t b = prio t j)); [right|left]; lia.
Qed.

Lemma scan_priority_best k s :
  length (procs (k_ps k)) = 64%nat -> (s < 64)%nat ->
  (forall j, runnable (procs (k_ps k)) j -> 1 <= prio (procs (k_ps k)) j) ->
  forall n i o, (i < 64)%nat -> (turn s i + n = 64)%nat ->
  best_before (procs (k_ps k)) s (turn s i) o ->
  exists o', scan_priority n i (match o with Some b => prio (procs (k_ps k)) b | None => 0 end) o k
             = Done o' k /\ best_before (procs (k_ps k)) s 64 o'.
Proof.
  intros Hlen Hs Hpos n. set (t := procs (k_ps k)) in *.
  induction n as [|n IH]; intros i o Hi Hn Hb; [pose proof (turn_lt s i); lia|].
  destruct (lookup_lt_is_Some_2 t i) as [p Hp]; [lia|].
  cbn [scan_priority]. rewrite bind_eq, (get_proc_eq _ _ _ Hp). cbn [res_bind].
  set (nx := if Z.of_nat i + 1 >=? NPROC then 0%nat else S i).
  assert (nx < 64)%nat as Hnx by (unfold nx, NPROC; destruct (Z.of_nat i + 1 >=? 64) eqn:E; lia).
  assert (forall o', best_before t s (S (turn s i)) o' ->
    exists o'', match n with O => Done o' k | _ => scan_priority n nx
      (match o' with Some b => prio t b | None => 0 end) o' k end = Done o'' k /\
      best_before t s 64 o'') as Hgo.
  { intros o' Ho'. destruct n as [|n'].
    - exists o'. split; [done|]. by replace 64%nat with (S (turn s i)) by lia.
    - assert (turn s nx = S (turn s i)) as Et by (apply turn_next; lia).
      apply IH; [done|lia|by rewrite Et]. }
  assert (prio t i = priority p) as Ep by (unfold prio; by rewrite Hp).
  destruct (decide (state p = RUNNABLE)) as [E|E].
  - assert (runnable t i) as Hr by (by exists p). rewrite bool_decide_eq_true_2 by done.
    pose proof (best_before_take t s i o Hlen Hs Hi Hr Hb) as Hb'.
    set (o' := match o with Some b => _ | None => _ end) in Hb'.
    assert ((if nz (match o with Some b => prio t b | None => 0 end)
             then (if priority p <? match o with Some b => prio t b | None => 0 end
                   then (priority p, Some i)
                   else (match o with Some b => prio t b | None => 0 end, o))
             else (priority p, Some i))
            = (match o' with Some b => prio t b | None => 0 end, o')) as ->.
    { unfold o'. rewrite <- Ep. destruct o as [b|]; [|done].
      destruct Hb as (Hbr & _). pose proof (Hpos b Hbr).
      unfold nz. rewrite (proj2 (Z.eqb_neq _ _)) by lia. cbn [negb].
      by destruct (prio t i <? prio t b). }
    destruct (_ =? 1) eqn:E1; [|].
    + exists o'. split; [done|]. destruct o' as [b|]; [|lia].
      apply (best_before_final _ _ (S (turn s i))); auto. lia.
    + destruct (Hgo o' Hb') as (o'' & Heq & Hbest). exists o''. split; [|done].
      rewrite <- Heq. by destruct n.
  - assert (~ runnable t i) as Hr by (intros (? & ? & ?); congruence).
    rewrite bool_decide_eq_false_2 by done.
    destruct (Hgo o) as (o'' & Heq & Hbest); [by apply best_before_skip|].
    exists o''. split; [|done]. rewrite <- Heq. by destruct n.
Qed.

Lemma scan_priority_outside k n i mp mP :
  (length (procs (k_ps k)) <= i)%nat -> scan_priority (S n) i mp mP k = Undef "ptable.proc" k.
Proof.
  intros Hi. cbn [scan_priority]. rewrite bind_eq. unfold get_proc. rewrite bind_eq, gets_eq.
  cbn [res_bind]. by rewrite lookup_ge_None_2.
Qed.

Lemma priority_quantum p : 1 <= p <= 6 ->
  (u32 (p - 1) <? 6) = true /\ nth (Z.to_nat (u32 (p - 1))) PRIORITY_Q 0 = 2 ^ (p - 1).
Proof.
  intros H. rewrite u32_small by lia. split; [lia|].
  assert (p = 1 \/ p = 2 \/ p = 3 \/ p = 4 \/ p = 5 \/ p = 6) as Hp by lia.
  by destruct_or! Hp; subst p.
Qed.


(** When the last slot was chosen before, the priority policies read the
    process table outside its bounds: the walk starts at
    [&ptable.proc[NPROC]]. *)
Theorem priority_past_table k c cc
    (Hcc : cpus (k_hw k) !! c = Some cc) (Hlen : length (procs (k_ps k)) = 64%nat)
    (Halg : schedAlg cc = 2 \/ schedAlg cc = 3) (Hlast : RRLastProc cc = 63) :
  exists k', choose c k = Undef "ptable.proc" k'.
Proof.
  rewrite (choose_start _ _ cc Hcc). cbn zeta.
  replace ((schedAlg cc =? 2) || (schedAlg cc =? 3)) with true by lia.
  rewrite Hlast. change (start_of 63) with 64. set (k1 := upd_cpu_k c _ k).
  unfold pick_priority. rewrite bind_eq. change (Z.to_nat 64) with 64%nat.
  change (Z.to_nat NPROC) with (S 63). rewrite scan_priority_outside by (simpl; lia).
  by eexists.
Qed.

(** ** The lottery *)

Lemma tickets_before_S t i p :
  t !! i = Some p ->
  tickets_before t (S i) =
  tickets_before t i + (if decide (state p = RUNNABLE) then ticketCount p else 0).
Proof.
  intros Hp. unfold tickets_before. rewrite (take_S_r _ _ _ Hp), foldr_app. simpl.
  rewrite Z.add_0_r. generalize (if decide (state p = RUNNABLE) then ticketCount p else 0).
  induction (take i t) as [|q l IH]; intros z; simpl; [done|]. rewrite IH. lia.
Qed.

Lemma scan_lottery_interval k w :
  Forall (fun p => 0 <= ticketCount p < 2 ^ 31) (procs (k_ps k)) -> w < 2 ^ 31 ->
  forall n j, (j + n)%nat = length (procs (k_ps k)) -> tickets_before (procs (k_ps k)) j <= w ->
  0 <= tickets_before (procs (k_ps k)) j ->
  exists o, scan_lottery (seq j n) (w - tickets_before (procs (k_ps k)) j) k = Done o k /\
    match o with
    | Some i => runnable (procs (k_ps k)) i /\ tickets_before (procs (k_ps k)) i <= w
                < tickets_before (procs (k_ps k)) (S i)
    | None => tickets_before (procs (k_ps k)) (length (procs (k_ps k))) <= w
    end.
Proof.
  intros Htk Hw. set (t := procs (k_ps k)) in *.
  induction n as [|n IH]; intros j Hj Hle H0.
  { exists None. split; [done|]. by replace (length t) with j by lia. }
  destruct (lookup_lt_is_Some_2 t j) as [p Hp]; [lia|].
  assert (0 <= ticketCount p < 2 ^ 31) as Hpt
    by (apply (Forall_elem _ _ p Htk); by eapply list_elem_of_lookup_2).
  pose proof (tickets_before_S t j p Hp) as ES. cbn [seq scan_lottery].
  rewrite bind_eq, (get_proc_eq _ _ _ Hp). cbn [res_bind].
  destruct (decide (state p = RUNNABLE)) as [E|E].
  - rewrite bool_decide_eq_true_2 by done. cbn [negb]. rewrite s32_small by lia.
    replace (w - tickets_before t j - ticketCount p) with (w - tickets_before t (S j)) by lia.
    destruct (_ <? 0) eqn:El.
    + exists (Some j). split; [done|]. split; [by exists p|lia].
    + apply IH; lia.
  - rewrite bool_decide_eq_false_2 by done. cbn [negb].
    replace (tickets_before t j) with (tickets_before t (S j)) by lia. apply IH; lia.
Qed.

Lemma fastrand_eq k : fastrand k =
  Done (drawn (g_seed (k_ps k))) (set_k_ps (set_g_seed (next_seed (g_seed (k_ps k))) (k_ps k)) k).
Proof. done. Qed.

Lemma drawn_range g : 0 <= drawn g <= 32767.
Proof.
  pose proof (Z.land_ones (Z.shiftr (next_seed g) 16) 15 ltac:(lia)) as E.
  change (Z.ones 15) with 0x7FFF in E. unfold drawn. rewrite E.
  pose proof (Z.mod_pos_bound (Z.shiftr (next_seed g) 16) (2 ^ 15)). lia.
Qed.

(** The walk of the lottery for the state [k] it starts in. *)
Lemma choose_lottery k c cc :
  cpus (k_hw k) !! c = Some cc -> schedAlg cc = 4 -> length (procs (k_ps k)) = 64%nat ->
  Forall (fun p => 0 <= ticketCount p < 2 ^ 31) (procs (k_ps k)) ->
  exists o k', choose c k = Done (o, 1) k' /\ procs (k_ps k') = procs (k_ps k) /\
    let w := if 0 <? totalTicketCount (k_ps k)
             then Z.rem (drawn (g_seed (k_ps k))) (totalTicketCount (k_ps k)) else 0 in
    0 <= w <= 32767 /\ (0 < totalTicketCount (k_ps k) -> w < totalTicketCount (k_ps k)) /\
    match o with
    | Some i => runnable (procs (k_ps k)) i /\
        tickets_before (procs (k_ps k)) i <= w < tickets_before (procs (k_ps k)) (S i)
    | None => tickets_before (procs (k_ps k)) 64 <= w
    end.
Proof.
  intros Hcc Halg Hlen Htk. rewrite (choose_start _ _ cc Hcc). cbn zeta. rewrite Halg. cbn [Z.eqb Pos.eqb orb].
  set (k1 := upd_cpu_k c _ k). set (w := if 0 <? _ then _ else _).
  assert (0 <= w <= 32767 /\ (0 < totalTicketCount (k_ps k) -> w < totalTicketCount (k_ps k)))
    as [Hw Hwt].
  { unfold w. pose proof (drawn_range (g_seed (k_ps k))).
    destruct (0 <? totalTicketCount (k_ps k)) eqn:E; [|lia].
    pose proof (Z.rem_bound_pos (drawn (g_seed (k_ps k))) (totalTicketCount (k_ps k))
      ltac:(lia) ltac:(lia)).
    pose proof (Z.rem_le (drawn (g_seed (k_ps k))) (totalTicketCount (k_ps k))
      ltac:(lia) ltac:(lia)). lia. }
  set (k2 := if 0 <? totalTicketCount (k_ps k)
             then set_k_ps (set_g_seed (next_seed (g_seed (k_ps k))) (k_ps k)) k1 else k1).
  assert (procs (k_ps k2) = procs (k_ps k)) as Ek2 by (unfold k2; by destruct (0 <? _)).
  assert (forall B (f : option nat -> M (kernel F) B),
    (bind pick_lottery f) k1 = res_bind (scan_lottery slots w k2) f) as ->.
  { intros B f. unfold pick_lottery. rewrite !bind_eq, gets_eq. cbn [res_bind].
    rewrite bind_eq. unfold k2, w. simpl (k_ps k1).
    destruct (0 <? totalTicketCount (k_ps k)); [|done]. by rewrite bind_eq, fastrand_eq. }
  rewrite <- Ek2 in Hlen, Htk.
  destruct (scan_lottery_interval k2 w Htk ltac:(lia) 64 0) as (o & Ho & Hi); [done|..].
  { unfold tickets_before. simpl. lia. }
  { unfold tickets_before. simpl. lia. }
  replace (w - tickets_before (procs (k_ps k2)) 0) with w in Ho
    by (unfold tickets_before; simpl; lia).
  change slots with (seq 0 64). rewrite Ho. cbn [res_bind]. exists o, k2.
  rewrite Hlen, Ek2 in Hi. auto.
Qed.

(** C40. The lottery: when the ticket count is the number of tickets the runnable
    processes hold, and they hold some, the scheduler takes a process, and it
    is the one whose interval of tickets contains the number drawn modulo the
    total; a process with [n] tickets wins for exactly [n] of the numbers
    below the total. *)
Theorem lottery_picks_winner k c cc
    (Hcc : cpus (k_hw k) !! c = Some cc) (Halg : schedAlg cc = 4)
    (Hlen : length (procs (k_ps k)) = 64%nat)
    (Htk : Forall (fun p => 0 <= ticketCount p < 2 ^ 31) (procs (k_ps k)))
    (Htotal : totalTicketCount (k_ps k) = tickets_before (procs (k_ps k)) 64)
    (Hpos : 0 < totalTicketCount (k_ps k)) :
  exists i p k', choose c k = Done (Some i, 1) k' /\ procs (k_ps k) !! i = Some p /\
    state p = RUNNABLE /\ procs (k_ps k') = procs (k_ps k) /\
    let w := Z.rem (drawn (g_seed (k_ps k))) (totalTicketCount (k_ps k)) in
    tickets_before (procs (k_ps k)) i <= w < tickets_before (procs (k_ps k)) i + ticketCount p.
Proof.
  destruct (choose_lottery k c cc Hcc Halg Hlen Htk) as (o & k' & Hch & Hp & Hw & Hwt & Ho).
  rewrite (proj2 (Z.ltb_lt _ _)) in Ho, Hwt by done.
  destruct o as [i|]; [|specialize (Hwt Hpos); lia].
  destruct Ho as [(p & Hi & Hr) Ho]. rewrite (tickets_before_S _ _ _ Hi), decide_True in Ho by done.
  exists i, p, k'. auto.
Qed.

(** The numbers drawn stay below 32768: a process before whose slot the
    runnable processes hold at least that many tickets never wins, however
    many tickets it has. *)
Theorem lottery_tail_never_wins k c cc i
    (Hcc : cpus (k_hw k) !! c = Some cc) (Halg : schedAlg cc = 4)
    (Hlen : length (procs (k_ps k)) = 64%nat)
    (Htk : Forall (fun p => 0 <= ticketCount p < 2 ^ 31) (procs (k_ps k)))
    (Hi : 32768 <= tickets_before (procs (k_ps k)) i) :
  exists o k', choose c k = Done (o, 1) k' /\ o <> Some i.
Proof.
  destruct (choose_lottery k c cc Hcc Halg Hlen Htk) as (o & k' & Hch & Hp & Hw & Hwt & Ho).
  exists o, k'. split; [done|]. intros ->. lia.
Qed.
End Choice.

(** ** Instances *)

Lemma rr_picks_next_witness :
  exists o k' cc',
    choose 0 (kernel3 1 1 table3 40) = Done (o, QUANTUM) k' /\
    first_runnable table3 2 o /\ k_ps k' = k_ps (kernel3 1 1 table3 40) /\
    cpus (k_hw k') !! 0%nat = Some cc' /\
    RRLastProc cc' = match o with Some i => Z.of_nat i | None => 0 end /\ schedAlg cc' = 1.
Proof.
  apply (rr_picks_next (kernel3 1 1 table3 40) 0 _ eq_refl eq_refl). simpl. lia.
Defined.

(** One runnable process, in slot 1: it is taken every other time. *)
Definition lone_table : list proc :=
  proc_in SLEEPING 1 1 10 :: proc_in RUNNABLE 2 3 10 :: replicate 62 proc0.

Definition lone_run (n : nat) : kernel unit :=
  if Nat.even n then kernel3 0 0 lone_table 10 else kernel3 0 1 lone_table 10.

Lemma lone_turn n :
  rr_turn 0 (lone_run n) (if Nat.even n then Some 1%nat else None) (lone_run (S n)).
Proof.
  unfold lone_run. rewrite Nat.even_succ, <- Nat.negb_even. destruct (Nat.even n); simpl negb; cbn match.
  all: split; [done|eexists; split; [done|simpl; lia]|].
  all: do 4 eexists; split; [vm_compute; reflexivity|]; split; [done|]; split; done.
Qed.

Lemma rr_no_starvation_witness :
  exists n, (n <= 64)%nat /\ (if Nat.even n then Some 1%nat else None) = Some 1%nat.
Proof.
  apply (rr_no_starvation 0 1 lone_run (fun n => if Nat.even n then Some 1%nat else None)).
  - exact lone_turn.
  - intros n. unfold lone_run. destruct (Nat.even n); eexists; done.
  - intros n. unfold lone_run. destruct (Nat.even n); intros (p & [= <-] & H); done.
Defined.

Definition busy_table : list proc :=
  proc_in RUNNABLE 1 1 10 :: proc_in RUNNABLE 2 3 10 :: replicate 62 proc0.

Lemma rr_slot0_again_witness :
  exists q k' cc', choose 0 (kernel3 0 0 busy_table 20) = Done (Some 0%nat, q) k' /\
    cpus (k_hw k') !! 0%nat = Some cc' /\ RRLastProc cc' = 0.
Proof.
  apply (rr_slot0_again (kernel3 0 0 busy_table 20) 0 _ eq_refl eq_refl); [simpl; lia|done|].
  by eexists.
Defined.

Lemma table3_runnable j : runnable table3 j -> j = 1%nat \/ j = 2%nat.
Proof.
  intros (p & Hp & Hs). destruct j as [|[|[|j]]]; [simplify_eq/=|auto|auto|].
  exfalso. revert Hs. apply (Forall_elem (fun p => state p <> RUNNABLE) (replicate 61 proc0)).
  - by apply Forall_replicate.
  - by apply (list_elem_of_lookup_2 _ j).
Qed.


Lemma priority_past_table_witness :
  exists k', choose 0 (kernel3 2 63 table3 40) = Undef "ptable.proc" k'.
Proof.
  apply (priority_past_table (kernel3 2 63 table3 40) 0 _ eq_refl eq_refl); [by left|done].
Defined.

Lemma table3_tickets : Forall (fun p => 0 <= ticketCount p < 2 ^ 31) table3.
Proof.
  repeat (constructor; [simpl; lia|]). constructor.
Qed.

Lemma lottery_picks_winner_witness :
  exists i p k', choose 0 (kernel3 4 0 table3 40) = Done (Some i, 1) k' /\
    table3 !! i = Some p /\ state p = RUNNABLE /\ procs (k_ps k') = table3 /\
    let w := Z.rem (drawn 7) 40 in
    tickets_before table3 i <= w < tickets_before table3 i + ticketCount p.
Proof.
  apply (lottery_picks_winner (kernel3 4 0 table3 40) 0 _ eq_refl eq_refl eq_refl table3_tickets);
    [by vm_compute|simpl; lia].
Defined.

Definition rich_table : list proc :=
  proc_in RUNNABLE 1 1 40000 :: proc_in RUNNABLE 2 3 1000000 :: replicate 62 proc0.

Lemma lottery_tail_never_wins_witness :
  exists o k', choose 0 (kernel3 4 0 rich_table 1040000) = Done (o, 1) k' /\ o <> Some 1%nat.
Proof.
  apply (lottery_tail_never_wins (kernel3 4 0 rich_table 1040000) 0 _ 1 eq_refl eq_refl eq_refl).
  - repeat (constructor; [simpl; lia|]). constructor.
  - vm_compute. congruence.
Defined.
