(* ===== verification/ProcSpec.v ===== *)
(** * The life of a process, abstractly

    The transitions the process table makes, one rule per event in the life of
    a process, and the invariants of the table by rule induction: the lottery's
    ticket count, the time accounts, the process ids, the ranges of priority
    and tickets.  ProcRefine.v shows that the code of proc.c changes the table
    only through these transitions. *)

From S2P Require Import Prelude Params State.

(** [ptable.proc[i]] changed by [f]. *)
Definition upd (i : nat) (f : proc -> proc) (ps : pstate) : pstate :=
  set_procs (alter f i (procs ps)) ps.

Definition tickets_by (n : Z) (ps : pstate) : pstate :=
  set_totalTicketCount (s32 (totalTicketCount ps + n)) ps.

(** The time since the last change goes to the CPU account, or to the waiting
    account. *)
Definition charge_cpu (t : Z) (p : proc) : proc :=
  set_lastChangeTime t (set_totalCBT (u32 (totalCBT p + (t - lastChangeTime p))) p).

Definition charge_wait (t : Z) (p : proc) : proc :=
  set_lastChangeTime t (set_totalWaitTime (u32 (totalWaitTime p + (t - lastChangeTime p))) p).

(** The fields a fresh process gets. *)
Definition embryo (id t : Z) (p : proc) : proc :=
  set_totalCBT 0 (set_totalWaitTime 0 (set_creationTime t (set_lastChangeTime t
    (put_priority (if id =? 1 then 1 else 3) (put_ticketCount 10 (set_pid id
      (set_state EMBRYO p))))))).

(** The fields a reaped slot is left with. *)
Definition reaped (p : proc) : proc :=
  put_ticketCount 0 (set_totalCBT 0 (set_totalWaitTime 0 (set_lastChangeTime 0
    (set_creationTime 0 (put_priority 0 (set_state UNUSED (set_killed 0
      (set_name (match name p with [] => [] | _ :: l => 0 :: l end)
        (set_parent None (set_first_pid 0 (set_pid 0 p))))))))))).

(** The fields the invariants speak of. *)
Definition account (p : proc) : procstate * Z * Z * Z * Z * Z * Z * Z :=
  (state p, pid p, priority p, creationTime p, lastChangeTime p, totalWaitTime p, totalCBT p,
   ticketCount p).

Definition in_state (ps : pstate) (i : nat) (st : procstate) : Prop :=
  exists p, procs ps !! i = Some p /\ state p = st.

Inductive pstep : pstate -> pstate -> Prop :=
| ps_alloc ps i :
    in_state ps i UNUSED -> nextpid ps < 2 ^ 31 - 1 ->
    pstep ps (set_nextpid (nextpid ps + 1) (upd i (embryo (nextpid ps) (ticks ps)) ps))
| ps_abort ps i :
    in_state ps i EMBRYO -> pstep ps (upd i (set_state UNUSED) ps)
| ps_ready ps i p :
    procs ps !! i = Some p -> state p = EMBRYO ->
    pstep ps (tickets_by (ticketCount p)
                (upd i (fun p => set_lastChangeTime (ticks ps) (set_state RUNNABLE p)) ps))
| ps_dispatch ps i :
    in_state ps i RUNNABLE ->
    pstep ps (upd i (fun p => set_state RUNNING (charge_wait (ticks ps) p)) ps)
| ps_preempt ps i :
    in_state ps i RUNNING ->
    pstep ps (upd i (fun p => charge_cpu (ticks ps) (set_state RUNNABLE p)) ps)
| ps_block ps i p ch :
    procs ps !! i = Some p -> state p = RUNNING ->
    pstep ps (tickets_by (- ticketCount p)
      (upd i (fun p => charge_cpu (ticks ps) (set_state SLEEPING (set_p_chan (Some ch) p))) ps))
| ps_wake ps i p :
    procs ps !! i = Some p -> state p = SLEEPING ->
    pstep ps (tickets_by (ticketCount p)
                (upd i (fun p => set_lastChangeTime (ticks ps) (set_state RUNNABLE p)) ps))
| ps_exit ps i p :
    procs ps !! i = Some p -> state p = RUNNING ->
    pstep ps (tickets_by (- ticketCount p)
                (upd i (fun p => charge_cpu (ticks ps) (set_state ZOMBIE p)) ps))
| ps_reap ps i :
    in_state ps i ZOMBIE -> pstep ps (upd i reaped ps)
| ps_charge ps i :
    in_state ps i RUNNING -> pstep ps (upd i (charge_cpu (ticks ps)) ps)
| ps_tickets ps i p n :
    procs ps !! i = Some p -> state p = RUNNING -> 0 < n < 2 ^ 31 ->
    pstep ps (tickets_by (n - ticketCount p) (upd i (put_ticketCount n) ps))
| ps_priority ps i n :
    1 <= n <= 6 -> pstep ps (upd i (put_priority n) ps)
| ps_fill ps i f :
    (forall p, account (f p) = account p) -> pstep ps (upd i f ps)
| ps_global ps ps' :
    procs ps' = procs ps -> totalTicketCount ps' = totalTicketCount ps ->
    nextpid ps' = nextpid ps -> ticks ps' = ticks ps -> pstep ps ps'
| ps_tick ps :
    ticks ps < 2 ^ 32 - 1 -> pstep ps (set_ticks (ticks ps + 1) ps).

Definition psteps : pstate -> pstate -> Prop := rtc pstep.

(** ** The invariant *)

(** Processes that take part in the lottery. *)
Definition ready (p : proc) : bool :=
  match state p with RUNNABLE | RUNNING => true | _ => false end.

Definition held (p : proc) : Z := if ready p then ticketCount p else 0.

Definition tickets_held (t : list proc) : Z := foldr (fun p acc => held p + acc) 0 t.

(** Times and ranges of one process at time [now]. *)
Record proc_ok (now : Z) (p : proc) : Prop := {
  po_tickets : 0 <= ticketCount p < 2 ^ 31;
  po_priority : state p <> UNUSED -> 1 <= priority p <= 6;
  po_times : state p <> UNUSED -> 0 <= creationTime p <= lastChangeTime p /\ lastChangeTime p <= now;
  po_waits : state p <> UNUSED -> 0 <= totalWaitTime p /\ 0 <= totalCBT p;
  po_total : state p <> UNUSED ->
    totalWaitTime p + totalCBT p <= lastChangeTime p - creationTime p
}.

Record pinv (ps : pstate) : Prop := {
  pi_length : length (procs ps) = 64%nat;
  pi_now : 0 <= ticks ps < 2 ^ 32;
  pi_total : totalTicketCount ps = s32 (tickets_held (procs ps));
  pi_procs : Forall (proc_ok (ticks ps)) (procs ps);
  pi_next : 1 <= nextpid ps < 2 ^ 31;
  pi_pids : Forall (fun p => 0 <= pid p < nextpid ps) (procs ps);
  pi_distinct : forall i j p q, procs ps !! i = Some p -> procs ps !! j = Some q ->
    pid p = pid q -> pid p <> 0 -> i = j
}.

(** ** Preservation *)

Lemma tickets_held_alter t i f p :
  t !! i = Some p -> tickets_held (alter f i t) = tickets_held t - held p + held (f p).
Proof.
  revert i. induction t as [|q t IH]; intros [|i] Hp; simplify_eq/=; [lia|].
  specialize (IH i Hp). unfold tickets_held, alter in *. lia.
Qed.

Lemma Forall_alter_at {A} (P : A -> Prop) (f : A -> A) i l :
  Forall P l -> (forall x, l !! i = Some x -> P x -> P (f x)) -> Forall P (alter f i l).
Proof.
  intros Hl Hf. apply Forall_lookup_2. intros j x. destruct (decide (i = j)) as [->|Hne].
  - rewrite list_lookup_alter_eq. destruct (l !! j) as [y|] eqn:E; intros [= <-].
    apply Hf; [done|]. by eapply Forall_lookup_1.
  - rewrite list_lookup_alter_ne by done. by apply Forall_lookup_1.
Qed.

Lemma upd_upd i f g ps : upd i f (upd i g ps) = upd i (fun p => f (g p)) ps.
Proof. unfold upd, set_procs. simpl. by rewrite alter_alter_eq. Qed.

(** A change of one process, with the ticket count adjusted to match. *)
Lemma pinv_upd ps i p f n :
  pinv ps -> procs ps !! i = Some p -> pid (f p) = pid p \/ pid (f p) = 0 ->
  proc_ok (ticks ps) (f p) -> n = held (f p) - held p ->
  pinv (tickets_by n (upd i f ps)).
Proof.
  intros [Hl Hn Ht Hp Hx Hi Hd] E Hpid Hok ->. split; simpl; auto.
  - by rewrite length_alter.
  - rewrite (tickets_held_alter _ _ _ _ E), Ht, s32_add_s32_l. f_equal. lia.
  - apply Forall_alter_at; [done|]. intros x Ex _. by simplify_eq.
  - apply Forall_alter_at; [done|]. intros x Ex Hx'. simplify_eq. lia.
  - assert (forall j q, alter f i (procs ps) !! j = Some q -> pid q <> 0 ->
      exists q', procs ps !! j = Some q' /\ pid q' = pid q) as Hback.
    { intros j q. destruct (decide (i = j)) as [->|Hne].
      - rewrite list_lookup_alter_eq, E. intros [= <-] Hz. exists p. split; [done|]. lia.
      - rewrite list_lookup_alter_ne by done. eauto. }
    intros j1 j2 q1 q2 H1 H2 Heq Hz.
    destruct (Hback _ _ H1 Hz) as (r1 & Hr1 & Ep1).
    destruct (Hback _ _ H2) as (r2 & Hr2 & Ep2); [congruence|].
    apply (Hd j1 j2 r1 r2); congruence.
Qed.

Lemma tickets_by_0 ps : pinv ps -> tickets_by 0 ps = ps.
Proof.
  intros Hi. unfold tickets_by. rewrite Z.add_0_r, (pi_total _ Hi).
  rewrite (s32_small (s32 _)) by apply s32_range. rewrite <- (pi_total _ Hi). by destruct ps.
Qed.

Lemma tickets_by_upd_0 ps i f : pinv ps -> tickets_by 0 (upd i f ps) = upd i f ps.
Proof.
  intros Hi. unfold tickets_by. simpl. rewrite Z.add_0_r, (pi_total _ Hi).
  rewrite (s32_small (s32 _)) by apply s32_range. rewrite <- (pi_total _ Hi). by destruct ps.
Qed.

Lemma pinv_upd_same ps i p f :
  pinv ps -> procs ps !! i = Some p -> pid (f p) = pid p \/ pid (f p) = 0 ->
  proc_ok (ticks ps) (f p) -> held (f p) = held p -> pinv (upd i f ps).
Proof.
  intros Hi E Hpid Hok Hh. rewrite <- tickets_by_upd_0 by done.
  apply (pinv_upd _ _ p); auto. lia.
Qed.

Lemma pinv_proc ps i p : pinv ps -> procs ps !! i = Some p -> proc_ok (ticks ps) p.
Proof. intros Hi E. eapply Forall_lookup_1; [apply (pi_procs _ Hi)|done]. Qed.

(** The accounts are at most the age of the process, which is at most [2^32]. *)
Lemma charge_cpu_ok now p :
  proc_ok now p -> state p <> UNUSED -> now < 2 ^ 32 -> proc_ok now (charge_cpu now p).
Proof.
  intros [? Hp Ht Hw Hs] Hu Hn. specialize (Hp Hu). specialize (Ht Hu). specialize (Hw Hu).
  specialize (Hs Hu). split; simpl; try (intros _); try done; try lia; rewrite u32_small; lia.
Qed.

Lemma charge_wait_ok now p :
  proc_ok now p -> state p <> UNUSED -> now < 2 ^ 32 -> proc_ok now (charge_wait now p).
Proof.
  intros [? Hp Ht Hw Hs] Hu Hn. specialize (Hp Hu). specialize (Ht Hu). specialize (Hw Hu).
  specialize (Hs Hu). split; simpl; try (intros _); try done; try lia; rewrite u32_small; lia.
Qed.

(** Time passing while the process is not accounted. *)
Lemma restamp_ok now p :
  proc_ok now p -> state p <> UNUSED -> proc_ok now (set_lastChangeTime now p).
Proof.
  intros [? Hp Ht Hw Hs] Hu. specialize (Hp Hu). specialize (Ht Hu). specialize (Hw Hu).
  specialize (Hs Hu). split; simpl; try (intros _); try done; lia.
Qed.

Lemma set_state_ok now st p :
  proc_ok now p -> state p <> UNUSED -> proc_ok now (set_state st p).
Proof. intros [? Hp Ht Hw Hs] Hu. split; simpl; auto. Qed.

#[local] Hint Resolve charge_cpu_ok charge_wait_ok restamp_ok set_state_ok pinv_proc : core.

Lemma upd_outside ps i f : procs ps !! i = None -> upd i f ps = ps.
Proof.
  intros E. unfold upd. replace (alter f i (procs ps)) with (procs ps); [by destruct ps|].
  apply list_eq. intros j. destruct (decide (i = j)) as [->|].
  - by rewrite list_lookup_alter_eq, E.
  - by rewrite list_lookup_alter_ne.
Qed.

Lemma account_ok now p q : account q = account p -> proc_ok now p -> proc_ok now q.
Proof.
  intros [= Es Ep Epr Ec El Ew Eb Et] [? ? ? ? ?].
  split; rewrite ?Es, ?Epr, ?Ec, ?El, ?Ew, ?Eb, ?Et; auto.
Qed.

Lemma account_held p q : account q = account p -> held q = held p.
Proof. intros [= Es Ep Epr Ec El Ew Eb Et]. unfold held, ready. by rewrite Es, Et. Qed.

Lemma pinv_alloc ps i :
  pinv ps -> in_state ps i UNUSED -> nextpid ps < 2 ^ 31 - 1 ->
  pinv (set_nextpid (nextpid ps + 1) (upd i (embryo (nextpid ps) (ticks ps)) ps)).
Proof.
  intros [Hl Hn Ht Hp Hx Hi Hd] (p & E & Hst) Hnp. split; simpl; auto; try lia.
  - by rewrite length_alter.
  - rewrite (tickets_held_alter _ _ _ _ E), Ht. unfold held, ready. simpl. rewrite Hst.
    f_equal. lia.
  - apply Forall_alter_at; [done|]. intros x Ex _. split; simpl; try (intros _); try lia.
    destruct (nextpid ps =? 1); lia.
  - apply Forall_alter_at.
    + eapply Forall_impl; [|exact Hi]. simpl. lia.
    + intros x _ _. simpl. lia.
  - assert (forall j q, alter (embryo (nextpid ps) (ticks ps)) i (procs ps) !! j = Some q ->
      (j = i /\ pid q = nextpid ps) \/ (j <> i /\ procs ps !! j = Some q /\ pid q < nextpid ps)) as Hback.
    { intros j q. destruct (decide (i = j)) as [->|Hne].
      - rewrite list_lookup_alter_eq, E. intros [= <-]. by left.
      - rewrite list_lookup_alter_ne by done. intros Hq. right. split; [done|]. split; [done|].
        apply (Forall_lookup_1 _ _ _ _ Hi Hq). }
    intros j1 j2 q1 q2 H1 H2 Heq Hz.
    destruct (Hback _ _ H1) as [[-> ?]|(? & ? & ?)], (Hback _ _ H2) as [[-> ?]|(? & ? & ?)];
      try lia. by apply (Hd j1 j2 q1 q2).
Qed.

Ltac ready_simpl := unfold held, ready; simpl; repeat match goal with
  | H : state _ = _ |- _ => rewrite H
  end; simpl.

(** Every transition keeps the invariant. *)
Lemma pstep_pinv ps ps' : pstep ps ps' -> pinv ps -> pinv ps'.
Proof.
  intros Hs Hi. pose proof (pi_now _ Hi) as Hnow.
  destruct Hs as [ps i Hu Hn|ps i (p & E & St)|ps i p E St|ps i (p & E & St)|ps i (p & E & St)
    |ps i p ch E St|ps i p E St|ps i p E St|ps i (p & E & St)|ps i (p & E & St)
    |ps i p n E St Hn|ps i n Hn|ps i f Hf|ps ps' Hp Ht Hx Hk|ps Hk].
  - by apply pinv_alloc.
  - apply (pinv_upd_same _ _ p); auto; ready_simpl; [|done].
    apply set_state_ok; [eauto|congruence].
  - apply (pinv_upd _ _ p); auto; ready_simpl; [|lia].
    apply restamp_ok; [apply set_state_ok; [eauto|congruence]|done].
  - apply (pinv_upd_same _ _ p); auto; ready_simpl; [|done].
    apply set_state_ok; [apply charge_wait_ok; [eauto|congruence|lia]|simpl; congruence].
  - apply (pinv_upd_same _ _ p); auto; ready_simpl; [|done].
    apply charge_cpu_ok; [apply set_state_ok; [eauto|congruence]|done|lia].
  - apply (pinv_upd _ _ p); auto; ready_simpl; [|lia].
    apply charge_cpu_ok; [apply set_state_ok|done|lia].
    + apply (account_ok _ p); [done|eauto].
    + simpl. congruence.
  - apply (pinv_upd _ _ p); auto; ready_simpl; [|lia].
    apply restamp_ok; [apply set_state_ok; [eauto|congruence]|done].
  - apply (pinv_upd _ _ p); auto; ready_simpl; [|lia].
    apply charge_cpu_ok; [apply set_state_ok; [eauto|congruence]|done|lia].
  - apply (pinv_upd_same _ _ p); auto; ready_simpl; [|done].
    split; simpl; try done; lia.
  - apply (pinv_upd_same _ _ p); auto.
    apply charge_cpu_ok; [eauto|congruence|lia].
  - apply (pinv_upd _ _ p); auto; ready_simpl; [|lia].
    destruct (pinv_proc _ _ _ Hi E). split; simpl; auto. lia.
  - destruct (procs ps !! i) as [p|] eqn:E; [|by rewrite upd_outside].
    apply (pinv_upd_same _ _ p); auto. destruct (pinv_proc _ _ _ Hi E). split; simpl; auto.
  - destruct (procs ps !! i) as [p|] eqn:E; [|by rewrite upd_outside].
    apply (pinv_upd_same _ _ p); auto.
    + left. by injection (Hf p).
    + by eapply account_ok; [apply Hf|eauto].
    + by apply account_held.
  - destruct Hi as [? ? ? ? ? ? ?]. split; rewrite ?Hp, ?Ht, ?Hx, ?Hk; auto.
  - destruct Hi as [? ? ? Hp ? ? ?]. split; simpl; auto; [lia|].
    eapply Forall_impl; [|exact Hp]. intros p [? ? Hti ? ?]. split; auto.
    intros Hu. specialize (Hti Hu). lia.
Qed.

Lemma psteps_pinv ps ps' : psteps ps ps' -> pinv ps -> pinv ps'.
Proof. induction 1; eauto using pstep_pinv. Qed.
