(* ===== verification/ProcRefine.v ===== *)
(** * The code of proc.c follows the life of a process

    A routine that runs as process [i] changes the process table only by the
    transitions of ProcSpec.v, between any two points where it gives the CPU
    away and until it returns, provided the rest of the system does the same
    while it is switched out.  [follows i m] says so of the routine [m]; the
    rules below make it a matter of composition, and the files that define
    further routines of the kernel add theirs to the hint database [follows].
    Routines that do not switch and leave [who] alone follow trivially. *)

From S2P Require Import Prelude Params State Spinlock Seg Proc ProcSpec Demo.

Section Refine.
  Context {F : Type} {LK : Linker}.
  Implicit Types (k : kernel F).

(** The executing CPU runs process [i]. *)
Definition on_cpu (i : nat) (k : kernel F) : Prop :=
  ncpu (k_hw k) <= Z.of_nat (length (cpus (k_hw k))) /\
  exists c cc, this_cpu (k_hw k) = Some c /\ cpus (k_hw k) !! c = Some cc /\ c_proc cc = Some i.

Definition cur (i : nat) (k : kernel F) : Prop := on_cpu i k /\ in_state (k_ps k) i RUNNING.

(** The process table and which process each CPU runs. *)
Definition who (k : kernel F) : pstate * list (Z * option nat) * Z * Z :=
  (k_ps k, (fun c => (apicid c, c_proc c)) <$> cpus (k_hw k), ncpu (k_hw k), lapic_id (k_hw k)).

(** Process [i] entered the routine in state [k0]. *)
Definition as_proc (i : nat) (k0 : kernel F) : env (kernel F) :=
  shared (fun _ k => psteps (k_ps k0) (k_ps k))
         (fun _ k k' => psteps (k_ps k) (k_ps k') /\ cur i k').

Definition follows {A} (i : nat) (m : M (kernel F) A) : Prop :=
  forall k0 k, psteps (k_ps k0) (k_ps k) -> cur i k ->
    wp (as_proc i k0) (m k) (fun _ k' => psteps (k_ps k0) (k_ps k') /\ cur i k').

(** ** Rules *)

Lemma who_ps k k' : who k' = who k -> k_ps k' = k_ps k.
Proof. unfold who. congruence. Qed.

Lemma set_ps_twice ps ps' k : set_k_ps ps (set_k_ps ps' k) = set_k_ps ps k.
Proof. done. Qed.

Lemma who_set_ps k k' ps ps' :
  who k' = who k -> ps' = ps -> who (set_k_ps ps' k') = who (set_k_ps ps k).
Proof. unfold who. simpl. congruence. Qed.

Lemma on_cpu_who i k k' : who k' = who k -> on_cpu i k -> on_cpu i k'.
Proof.
  unfold who. intros [= Hps Hcp Hn Hl] (Hb & c & cc & Ht & Hc & Hp).
  split. { apply (f_equal length) in Hcp. rewrite !length_fmap in Hcp. lia. }
  assert (this_cpu (k_hw k') = Some c) as Ht'.
  { rewrite <- Ht. apply this_cpu_fmap; auto.
    apply (f_equal (fmap fst)) in Hcp. by rewrite <- !list_fmap_compose in Hcp. }
  apply (f_equal (.!! c)) in Hcp. rewrite !list_lookup_fmap, Hc in Hcp. simpl in Hcp.
  destruct (cpus (k_hw k') !! c) as [cc'|] eqn:E; [|done]. injection Hcp as Ha Hp'.
  exists c, cc'. split; [done|]. split; [done|congruence].
Qed.

Lemma cur_who i k k' : who k' = who k -> cur i k -> cur i k'.
Proof.
  intros Hw [Ho Hs]. split; [by eapply on_cpu_who|]. by rewrite (who_ps _ _ Hw).
Qed.

Lemma core_who k k' : core k' = core k -> who k' = who k.
Proof.
  intros Hc. unfold who.
  assert (k_ps k' = k_ps k) as -> by (by apply core_ps).
  assert (hw_core (k_hw k') = hw_core (k_hw k)) as Hh by exact (f_equal k_hw Hc).
  pose proof (f_equal cpus Hh) as Hcp. simpl in Hcp.
  apply (f_equal (fmap (fun c => (apicid c, c_proc c)))) in Hcp.
  rewrite <- !list_fmap_compose in Hcp.
  pose proof (f_equal ncpu Hh) as Hn. pose proof (f_equal lapic_id Hh) as Hl. simpl in *.
  rewrite Hn, Hl. do 2 f_equal. f_equal. exact Hcp.
Qed.

Lemma keeps_who_core {A} (m : M (kernel F) A) : keeps core m -> keeps who m.
Proof. apply keeps_coarser. intros s s'. apply core_who. Qed.

Lemma follows_keeps {A} i (m : M (kernel F) A) : keeps who m -> follows i m.
Proof.
  intros Hm k0 k Hs Hc. eapply wp_mono; [|apply wp_calm; [exact I|apply Hm]].
  simpl. intros _ k' Hw. rewrite (who_ps _ _ Hw). split; [done|]. by eapply cur_who.
Qed.

Lemma follows_bind {A B} i (m : M (kernel F) A) (f : A -> M (kernel F) B) :
  follows i m -> (forall a, follows i (f a)) -> follows i (bind m f).
Proof.
  intros Hm Hf k0 k Hs Hc. unfold bind. apply wp_bind.
  eapply wp_mono; [|by apply Hm]. intros a k' [Hs' Hc']. by apply Hf.
Qed.

Lemma follows_when i b (m : M (kernel F) unit) : follows i m -> follows i (when b m).
Proof. intros Hm. destruct b; [done|]. apply follows_keeps, keeps_ret. Qed.

Lemma follows_for_all {X} i (l : list X) (body : X -> M (kernel F) unit) :
  (forall x, follows i (body x)) -> follows i (for_all l body).
Proof.
  intros Hb. induction l as [|x l IH]; [apply follows_keeps, keeps_ret|].
  apply follows_bind; [apply Hb|done].
Qed.

Lemma follows_for_each {X R} i (l : list X) (body : X -> M (kernel F) (option R)) :
  (forall x, follows i (body x)) -> follows i (for_each l body).
Proof.
  intros Hb. induction l as [|x l IH]; [apply follows_keeps, keeps_ret|].
  apply follows_bind; [apply Hb|]. intros [r|]; [apply follows_keeps, keeps_ret|done].
Qed.

Lemma follows_loop {R} i n (body : M (kernel F) (option R)) :
  follows i body -> follows i (loop n body).
Proof.
  intros Hb. induction n as [|n IH]; [by intros k0 k _ _|].
  apply follows_bind; [done|]. intros [r|]; [apply follows_keeps, keeps_ret|done].
Qed.

Lemma follows_while i n (c : M (kernel F) bool) (body : M (kernel F) unit) :
  follows i c -> follows i body -> follows i (while n c body).
Proof.
  intros Hc Hb. induction n as [|n IH]; [by intros k0 k _ _|].
  apply follows_bind; [done|]. intros []; [by apply follows_bind|apply follows_keeps, keeps_ret].
Qed.

(** ** Single steps *)

(** Reads and updates of the table. *)
Lemma wp_get_proc {B} (e : env (kernel F)) i (f : proc -> M (kernel F) B) k Q :
  e_fail e -> (forall p, procs (k_ps k) !! i = Some p -> wp e (f p k) Q) ->
  wp e (bind (get_proc i) f k) Q.
Proof.
  intros He Hf. unfold get_proc. kred. destruct (procs (k_ps k) !! i) as [p|]; kred; auto.
Qed.

Lemma wp_upd_proc {B} (e : env (kernel F)) i g (f : unit -> M (kernel F) B) k Q :
  e_fail e -> (is_Some (procs (k_ps k) !! i) -> wp e (f tt (set_k_ps (upd i g (k_ps k)) k)) Q) ->
  wp e (bind (upd_proc i g) f k) Q.
Proof.
  intros He Hf. unfold upd_proc, get_proc, on_ps. kred.
  destruct (procs (k_ps k) !! i) as [p|]; kred; auto.
Qed.

Lemma wp_add_tickets {B} (e : env (kernel F)) n (f : unit -> M (kernel F) B) k Q :
  wp e (f tt (set_k_ps (tickets_by n (k_ps k)) k)) Q -> wp e (bind (add_tickets n) f k) Q.
Proof. done. Qed.

Lemma wp_get_ticks {B} (e : env (kernel F)) (f : Z -> M (kernel F) B) k Q :
  wp e (f (ticks (k_ps k)) k) Q -> wp e (bind get_ticks f k) Q.
Proof. done. Qed.

(** The current process is found, whatever the lock operations do. *)
Lemma wp_myproc {B} (e : env (kernel F)) i (f : option nat -> M (kernel F) B) k Q :
  e_fail e -> on_cpu i k -> (forall k', core k' = core k -> wp e (f (Some i) k') Q) ->
  wp e (bind myproc f k) Q.
Proof.
  intros He Ho Hf. unfold myproc. rewrite bind_eq, wp_bind.
  apply (wp_keeps core); [done|auto with keeps|]. intros _ k1 H1.
  destruct (on_cpu_who i k k1 (core_who _ _ H1) Ho) as (Hb & c & cc & Ht & Hc & Hp).
  rewrite bind_eq. destruct (eflags_if (k_hw k1)) eqn:Eif.
  { unfold mycpu, readeflags. kred. rewrite Eif. simpl. by kred. }
  rewrite mycpu_eq, Ht by done. cbn [res_bind]. rewrite bind_eq, (get_cpu_eq _ _ _ Hc).
  cbn [res_bind]. apply (wp_keeps core); [done|auto with keeps|]. intros _ k2 H2. kred.
  rewrite Hp. apply Hf. congruence.
Qed.

(** [sched] charges the CPU time and gives the CPU away once. *)
Lemma wp_sched {B} (e : env (kernel F)) i (f : unit -> M (kernel F) B) k Q :
  e_fail e -> on_cpu i k ->
  (forall c k1, who k1 = who (set_k_ps (upd i (charge_cpu (ticks (k_ps k))) (k_ps k)) k) ->
     e_guar e (CtxSched c) k1 /\
     forall k2, e_rely e (CtxSched c) k1 k2 -> forall k3, who k3 = who k2 -> wp e (f tt k3) Q) ->
  wp e (bind sched f k) Q.
Proof.
  intros He Ho Hg. unfold sched. rewrite bind_eq, wp_bind.
  apply (wp_myproc e i); [done|done|]. intros k1 H1%core_who. cbn [deref]. rewrite bind_eq, ret_eq.
  cbn [res_bind]. apply wp_get_ticks, wp_upd_proc; [done|]. intros _.
  apply wp_get_ticks, wp_upd_proc; [done|]. intros _. simpl (ticks _).
  match goal with |- wp _ (_ ?x) _ => set (k2 := x) end.
  assert (who k2 = who (set_k_ps (upd i (charge_cpu (ticks (k_ps k))) (k_ps k)) k)) as H2.
  { unfold k2. rewrite set_ps_twice. apply who_set_ps; [exact H1|].
    simpl. by rewrite (who_ps _ _ H1), upd_upd. }
  clearbody k2. apply (wp_keeps core); [done|auto with keeps|]. intros h k3 H3%core_who.
  destruct (negb h); [exact He|].
  apply (wp_keeps core); [done|auto with keeps|]. intros c1 k4 H4%core_who.
  apply (wp_keeps core); [done|auto with keeps|]. intros cc1 k5 H5%core_who.
  destruct (negb _); [exact He|].
  apply wp_get_proc; [done|]. intros p Hp.
  destruct (bool_decide _); [exact He|].
  apply (wp_keeps core); [done|apply keeps_core_readeflags|]. intros fl k6 H6%core_who.
  destruct (nz _); [exact He|].
  apply (wp_keeps core); [done|auto with keeps|]. intros c2 k7 H7%core_who.
  apply (wp_keeps core); [done|auto with keeps|]. intros cc2 k8 H8%core_who.
  apply (wp_keeps core); [done|auto with keeps|]. intros c3 k9 H9%core_who.
  rewrite bind_eq. destruct (Hg c3 k9) as [Hguar Hrely]; [congruence|].
  split; [exact Hguar|]. intros k10 Hr. cbn [res_bind].
  apply (wp_keeps core); [done|auto with keeps|]. intros c4 k11 H11%core_who.
  apply (Hrely k10 Hr). rewrite <- H11. apply core_who.
  eapply (keeps_core_upd_cpu c4 (set_intena (intena cc2))); done.
Qed.

Lemma in_state_upd_ne ps i j f st : i <> j -> in_state ps i st -> in_state (upd j f ps) i st.
Proof.
  intros Hne (p & Hp & Hs). exists p. split; [|done]. simpl. by rewrite list_lookup_alter_ne.
Qed.

Lemma in_state_upd ps i f st p :
  procs ps !! i = Some p -> state (f p) = st -> in_state (upd i f ps) i st.
Proof. intros Hp Hs. exists (f p). split; [|done]. simpl. by rewrite list_lookup_alter_eq, Hp. Qed.

Lemma in_state_tickets ps i n st : in_state (tickets_by n ps) i st <-> in_state ps i st.
Proof. done. Qed.

Lemma psteps_step k0 k k' :
  psteps (k_ps k0) (k_ps k) -> pstep (k_ps k) (k_ps k') -> psteps (k_ps k0) (k_ps k').
Proof. intros. by eapply rtc_r. Qed.

(** A change to the current process that leaves it running. *)
Lemma cur_upd i k f :
  cur i k -> (forall p, state p = RUNNING -> state (f p) = RUNNING) ->
  cur i (set_k_ps (upd i f (k_ps k)) k).
Proof. intros [Ho (p & Hp & Hs)] Hf. split; [exact Ho|]. eapply in_state_upd; eauto. Qed.

Lemma as_proc_fail i k0 : e_fail (as_proc i k0).
Proof. exact I. Qed.

#[local] Hint Resolve as_proc_fail : core.

(** ** The operations *)

Lemma follows_wakeup1 i ch : follows i (wakeup1 ch).
Proof.
  apply follows_for_all. intros j k0 k Hs Hc.
  apply wp_get_proc; [done|]. intros p Hp.
  destruct (decide (state p = SLEEPING)) as [E|E]; [|by rewrite bool_decide_eq_false_2].
  rewrite bool_decide_eq_true_2 by done. cbn [andb].
  destruct (bool_decide _); [|done]. cbn [when].
  apply wp_upd_proc; [done|]. intros _. apply wp_get_ticks, wp_upd_proc; [done|]. intros _.
  simpl (ticks _). rewrite set_ps_twice. cbn [k_ps set_k_ps]. rewrite upd_upd.
  split; [eapply psteps_step; [done|]; by apply ps_wake|].
  destruct Hc as [Ho Hr]. split; [exact Ho|]. cbn [k_ps]. apply in_state_tickets, in_state_upd_ne; [|done].
  intros ->. destruct Hr as (q & Hq & Hrun). cbn in *. congruence.
Qed.

Lemma follows_core {A} i (m : M (kernel F) A) : keeps core m -> follows i m.
Proof. intros H. by apply follows_keeps, keeps_who_core. Qed.

Lemma follows_acquire i lk : follows i (acquire lk).
Proof. apply follows_core. auto with keeps. Qed.

Lemma follows_release i lk : follows i (release lk).
Proof. apply follows_core. auto with keeps. Qed.

Lemma follows_wakeup i ch : follows i (wakeup ch).
Proof.
  unfold wakeup. auto using follows_bind, follows_acquire, follows_wakeup1, follows_release.
Qed.

(** After [sched] the process is current again. *)
Lemma follows_sched_then {B} i (f : unit -> M (kernel F) B) k0 k ps :
  on_cpu i k -> psteps (k_ps k0) ps -> pstep ps (upd i (charge_cpu (ticks (k_ps k))) (k_ps k)) ->
  follows i (f tt) ->
  wp (as_proc i k0) (bind sched f k) (fun _ k' => psteps (k_ps k0) (k_ps k') /\ cur i k').
Proof.
  intros Ho Hs Hst Hf. apply (wp_sched _ i); [done|done|]. intros c k1 H1.
  assert (psteps (k_ps k0) (k_ps k1)) as Hs1.
  { rewrite (who_ps _ _ H1). by eapply rtc_r. }
  split; [exact Hs1|]. intros k2 [Hs2 Hc2] k3 H3. apply Hf; [|by eapply cur_who].
  rewrite (who_ps _ _ H3). unfold psteps in *. by etrans.
Qed.

Lemma follows_yield i : follows i yield.
Proof.
  intros k0 k Hs Hc. unfold yield.
  apply (wp_keeps core); [done|auto with keeps|]. intros _ k1 H1%core_who.
  apply (cur_who _ _ _ H1) in Hc. rewrite <- (who_ps _ _ H1) in Hs. clear H1.
  apply (wp_myproc _ i); [done|apply Hc|]. intros k2 H2%core_who.
  apply (cur_who _ _ _ H2) in Hc. rewrite <- (who_ps _ _ H2) in Hs. clear H2.
  cbn [deref]. rewrite bind_eq, ret_eq. cbn [res_bind]. apply wp_upd_proc; [done|]. intros _.
  destruct Hc as [Ho Hr]. apply (follows_sched_then _ _ _ _ (k_ps k2)); [exact Ho|done| |].
  - simpl. rewrite upd_upd. by apply ps_preempt.
  - apply follows_release.
Qed.

Lemma follows_sleep i ch lk : follows i (sleep ch lk).
Proof.
  intros k0 k Hs Hc. unfold sleep.
  apply (wp_myproc _ i); [done|apply Hc|]. intros k2 H2%core_who.
  apply (cur_who _ _ _ H2) in Hc. rewrite <- (who_ps _ _ H2) in Hs. clear H2.
  apply (wp_keeps core); [done|auto with keeps|]. intros _ k1 H1%core_who.
  apply (cur_who _ _ _ H1) in Hc. rewrite <- (who_ps _ _ H1) in Hs. clear H1 k2.
  apply wp_upd_proc; [done|]. intros _. apply wp_upd_proc; [done|]. intros _.
  cbn [k_ps set_k_ps]. rewrite upd_upd.
  apply wp_get_proc; [done|]. intros p Hp. apply wp_add_tickets.
  destruct Hc as [Ho (q & Hq & Hrun)].
  assert (ticketCount p = ticketCount q) as ->.
  { cbn in Hp. rewrite list_lookup_alter_eq, Hq in Hp. by injection Hp as <-. }
  apply (follows_sched_then _ _ _ _ (k_ps k1)); [exact Ho|done| |].
  - cbn [k_ps set_k_ps]. pose proof (ps_block (k_ps k1) i q ch Hq Hrun) as Hb.
    unfold tickets_by, upd in *. simpl in *. rewrite alter_alter_eq. exact Hb.
  - apply follows_bind; [|intros _; apply follows_core; auto with keeps].
    intros k3 k4 H34 Hc4. unfold upd_proc. unfold get_proc, on_ps. kred.
    destruct (procs (k_ps k4) !! i) as [r|]; kred; [|done]. split.
    + eapply psteps_step; [done|]. by apply ps_fill.
    + by apply cur_upd.
Qed.

Lemma follows_ret {A} i (a : A) : follows i (@ret (kernel F) A a).
Proof. apply follows_keeps, keeps_ret. Qed.

Lemma follows_gets {A} i (f : kernel F -> A) : follows i (gets f).
Proof. apply follows_keeps, keeps_gets. Qed.

Lemma follows_panic {A} i msg : follows i (@panic (kernel F) A msg).
Proof. apply follows_keeps, keeps_panic. Qed.

Lemma follows_undef {A} i msg : follows i (@undef (kernel F) A msg).
Proof. apply follows_keeps, keeps_undef. Qed.

Lemma follows_deref {A} i msg (o : option A) : follows i (@deref (kernel F) A msg o).
Proof. apply follows_keeps, keeps_deref. Qed.

Lemma follows_get_proc i j : follows i (@get_proc F j).
Proof. apply follows_keeps. unfold get_proc. auto with keeps. Qed.

Lemma follows_get_ticks i : follows i (@get_ticks F).
Proof. apply follows_gets. Qed.

Lemma follows_get_cpu i c : follows i (@get_cpu F c).
Proof. apply follows_core. auto with keeps. Qed.

Lemma follows_myproc_any i : follows i (@myproc F).
Proof. apply follows_core. unfold myproc. auto 8 with keeps. Qed.

(** A routine whose argument is the current process. *)
Lemma follows_myproc {B} i (f : nat -> M (kernel F) B) w :
  follows i (f i) -> follows i (op <- myproc ;; j <- deref w op ;; f j).
Proof.
  intros Hf k0 k Hs Hc. apply (wp_myproc _ i); [done|apply Hc|]. intros k2 H2%core_who.
  cbn [deref]. rewrite bind_eq, ret_eq. cbn [res_bind].
  apply Hf; [by rewrite (who_ps _ _ H2)|by eapply cur_who].
Qed.

(** Updates of the current process that are steps. *)
Lemma follows_upd_cur i f :
  (forall ps, in_state ps i RUNNING -> pstep ps (upd i f ps)) ->
  (forall p, state p = RUNNING -> state (f p) = RUNNING) ->
  follows i (@upd_proc F i f).
Proof.
  intros Hst Hf k0 k Hs Hc. unfold upd_proc, get_proc, on_ps. kred.
  destruct (procs (k_ps k) !! i) as [p|]; kred; [|done].
  split; [|by apply cur_upd]. eapply psteps_step; [done|]. apply Hst, Hc.
Qed.

Lemma follows_set_priority i n : follows i (set_priority n).
Proof.
  apply follows_myproc, follows_upd_cur; [|done]. intros ps _. apply ps_priority.
  destruct (n <? 1) eqn:E1; simpl; [lia|]. destruct (n >? 6) eqn:E2; lia.
Qed.

Lemma follows_get_policy i : follows i get_policy.
Proof. unfold get_policy. auto using follows_bind, follows_get_cpu, follows_ret. Qed.

Lemma keeps_who_upd_cpu c f :
  (forall x, apicid (f x) = apicid x /\ c_proc (f x) = c_proc x) -> keeps who (@upd_cpu F c f).
Proof.
  intros Hf k. unfold who. simpl. do 3 f_equal.
  apply list_eq. intros j. rewrite !list_lookup_fmap. destruct (decide (j = c)) as [->|].
  - rewrite list_lookup_alter_eq. destruct (_ !! c) as [x|]; [|done]. simpl.
    by destruct (Hf x) as [-> ->].
  - by rewrite list_lookup_alter_ne.
Qed.

Lemma follows_change_policy i n : follows i (change_policy n).
Proof.
  unfold change_policy. destruct (_ || _); [apply follows_ret|].
  apply follows_bind; [apply follows_core; auto with keeps|]. intros _.
  apply follows_bind; [apply follows_gets|]. intros m.
  apply follows_bind; [|intros _; apply follows_bind; [apply follows_core; auto with keeps|]].
  - apply follows_for_all. intros j. apply follows_bind; [apply follows_get_cpu|]. intros _.
    by apply follows_keeps, keeps_who_upd_cpu.
  - intros _. apply follows_ret.
Qed.

Lemma follows_get_ticketCount i : follows i get_ticketCount.
Proof.
  apply follows_myproc, follows_bind; [apply follows_get_proc|]. intros p. apply follows_ret.
Qed.

Lemma follows_set_ticketCount i n : n < 2 ^ 31 -> follows i (set_ticketCount n).
Proof.
  intros Hn. unfold set_ticketCount. destruct (n >? 0) eqn:E; [|apply follows_ret].
  cbn [when]. apply follows_myproc. intros k0 k Hs Hc. apply wp_get_proc; [done|]. intros p Hp.
  apply wp_add_tickets. unfold upd_proc, get_proc, on_ps. kred. cbn. rewrite Hp. kred.
  destruct Hc as [Ho (q & Hq & Hr)]. cbn in Hq. simplify_eq. split.
  - eapply psteps_step; [done|]. apply (ps_tickets (k_ps k) i q n); [done|done|lia].
  - split; [exact Ho|]. exists (put_ticketCount n q). cbn. by rewrite list_lookup_alter_eq, Hq.
Qed.

Lemma keeps_who_on_ms f : keeps who (@on_ms F f).
Proof. by intros k. Qed.

Lemma keeps_who_phys va w : keeps who (@phys F va w).
Proof. unfold phys, fault. auto with keeps. Qed.

Lemma keeps_who_ustore va bs : keeps who (@ustore F va bs).
Proof.
  revert va. induction bs as [|b bs IH]; intros va; cbn [ustore]; [auto with keeps|].
  unfold ustore8. auto using keeps_who_phys, keeps_who_on_ms with keeps.
Qed.

Lemma keeps_who_uload va n : keeps who (@uload F va n).
Proof.
  revert va. induction n as [|n IH]; intros va; cbn [uload]; [auto with keeps|].
  unfold uload8. auto using keeps_who_phys with keeps.
Qed.

Lemma keeps_who_acquire lk : keeps who (@acquire F lk).
Proof. apply keeps_who_core. auto with keeps. Qed.

Lemma keeps_who_release lk : keeps who (@release F lk).
Proof. apply keeps_who_core. auto with keeps. Qed.

Lemma keeps_who_pushcli : keeps who (@pushcli F).
Proof. apply keeps_who_core. auto with keeps. Qed.

Lemma keeps_who_popcli : keeps who (@popcli F).
Proof. apply keeps_who_core. auto with keeps. Qed.

Lemma keeps_who_mycpu : keeps who (@mycpu F).
Proof. apply keeps_who_core. auto with keeps. Qed.

Lemma keeps_who_get_cpu c : keeps who (@get_cpu F c).
Proof. apply keeps_who_core. auto with keeps. Qed.

Lemma keeps_who_holding lk : keeps who (@holding F lk).
Proof. apply keeps_who_core. auto with keeps. Qed.

Lemma keeps_who_put_lock l v : keeps who (@put_lock F l v).
Proof. by intros k. Qed.

Lemma keeps_who_get_lock l : keeps who (@get_lock F l).
Proof. by intros k. Qed.

Lemma keeps_who_put_slock l v : keeps who (@put_slock F l v).
Proof. by intros k. Qed.

Lemma keeps_who_get_slock l : keeps who (@get_slock F l).
Proof. by intros k. Qed.

Lemma keeps_who_initlock l nm : keeps who (@initlock F l nm).
Proof. by intros k. Qed.

Lemma keeps_who_get_proc i : keeps who (@get_proc F i).
Proof. unfold get_proc. auto with keeps. Qed.

Lemma keeps_who_myproc : keeps who (@myproc F).
Proof. apply keeps_who_core. unfold myproc. auto 8 with keeps. Qed.

Lemma follows_get_proc_times i a : follows i (get_proc_times a).
Proof.
  apply follows_myproc. intros k0 k Hs Hc.
  apply wp_get_ticks, wp_upd_proc; [done|]. intros _. apply wp_get_ticks, wp_upd_proc; [done|].
  intros _. cbn [k_ps set_k_ps]. rewrite upd_upd. simpl (ticks _).
  match goal with |- wp _ (?m ?x) _ => enough (follows i m) as Hf; [apply Hf|] end.
  - eapply psteps_step; [done|]. apply (ps_charge (k_ps k) i), Hc.
  - by apply (cur_upd i k).
  - unfold ustore32. auto 9 using follows_bind, follows_get_ticks, follows_get_proc, follows_keeps,
      keeps_who_ustore.
Qed.
End Refine.

#[export] Hint Resolve keeps_who_acquire keeps_who_release keeps_who_pushcli keeps_who_popcli
  keeps_who_mycpu keeps_who_get_cpu keeps_who_holding keeps_who_put_lock keeps_who_get_lock
  keeps_who_put_slock keeps_who_get_slock keeps_who_initlock keeps_who_get_proc keeps_who_myproc
  keeps_who_on_ms keeps_who_phys keeps_who_ustore keeps_who_uload : keeps.
#[export] Hint Extern 1 (keeps who (upd_cpu _ _)) => apply keeps_who_upd_cpu; done : keeps.
#[export] Hint Extern 1 (keeps who (on_hw _)) => intros ?; done : keeps.

Create HintDb follows discriminated.

#[export] Hint Constants Opaque : follows.

#[export] Hint Resolve follows_ret follows_gets follows_panic follows_undef follows_deref
  follows_wakeup1 follows_wakeup follows_yield follows_sleep follows_set_priority
  follows_get_policy follows_change_policy follows_get_ticketCount follows_get_proc_times : follows.

(** One step of a proof of [follows] along the structure of the routine; calls
    of other routines are left to the hints. *)
Ltac follows_step :=
  match goal with
  | |- follows _ (let _ := _ in _) => cbv zeta
  | |- follows _ (bind _ _) => apply follows_bind; [|intros ?]
  | |- follows _ (if ?b then _ else _) => destruct b
  | |- follows _ (match ?x with _ => _ end) => destruct x
  | |- follows _ (when _ _) => apply follows_when
  | |- follows _ (for_all _ _) => apply follows_for_all; intros ?
  | |- follows _ (for_each _ _) => apply follows_for_each; intros ?
  | |- follows _ (loop _ _) => apply follows_loop
  | |- follows _ (while _ _ _) => apply follows_while
  | |- follows _ _ => solve [auto 2 with follows nocore]
  | |- follows _ _ => apply follows_keeps; solve [keeps_tac]
  end.

Ltac follows_tac := repeat follows_step.

(** ** The scheduler *)

Section Scheduler.
  Context {F : Type} {LK : Linker}.
  Implicit Types (k : kernel F).

(** The code is executed by CPU [c]. *)
Definition executing (c : nat) (k : kernel F) : Prop :=
  ncpu (k_hw k) <= Z.of_nat (length (cpus (k_hw k))) /\ this_cpu (k_hw k) = Some c.

(** The scheduler of CPU [c], entered in state [k0]: a process gets the CPU as
    its current process, in state RUNNING, which is what [as_proc] lets the
    process assume. *)
Definition as_sched (c : nat) (k0 : kernel F) : env (kernel F) :=
  shared (fun to k => psteps (k_ps k0) (k_ps k) /\ forall i, to = CtxProc i -> cur i k)
         (fun _ k k' => psteps (k_ps k) (k_ps k') /\ executing c k').

(** What [choose] leaves alone. *)
Definition table (k : kernel F) : list proc * Z * Z * Z * list (Z * option nat) * Z * Z :=
  (procs (k_ps k), totalTicketCount (k_ps k), nextpid (k_ps k), ticks (k_ps k),
   (fun c => (apicid c, c_proc c)) <$> cpus (k_hw k), ncpu (k_hw k), lapic_id (k_hw k)).

Lemma who_table k k' : who k' = who k -> table k' = table k.
Proof. unfold who, table. congruence. Qed.

Lemma keeps_table_who {A} (m : M (kernel F) A) : keeps who m -> keeps table m.
Proof. apply keeps_coarser. intros s s'. apply who_table. Qed.

Lemma keeps_table_upd_cpu c f :
  (forall x, apicid (f x) = apicid x /\ c_proc (f x) = c_proc x) -> keeps table (@upd_cpu F c f).
Proof. intros Hf. by apply keeps_table_who, keeps_who_upd_cpu. Qed.

Lemma keeps_table_get_proc i : keeps table (@get_proc F i).
Proof. apply keeps_table_who. auto with keeps. Qed.

Lemma keeps_table_get_cpu c : keeps table (@get_cpu F c).
Proof. apply keeps_table_who. auto with keeps. Qed.

#[local] Hint Resolve keeps_table_get_proc keeps_table_get_cpu : keeps.
#[local] Hint Extern 1 (keeps table (upd_cpu _ _)) => apply keeps_table_upd_cpu; done : keeps.

Lemma keeps_table_scan_priority n i mp mP : keeps table (@scan_priority F n i mp mP).
Proof.
  revert i mp mP. induction n as [|n IH]; intros i mp mP; cbn [scan_priority]; [auto with keeps|].
  apply keeps_bind; [auto with keeps|]. intros p. destruct (bool_decide _); [|apply IH].
  destruct (if nz mp then _ else _) as [a b]. destruct (a =? 1); [auto with keeps|apply IH].
Qed.

Lemma keeps_table_scan_lottery l w : keeps table (@scan_lottery F l w).
Proof.
  revert w. induction l as [|i l IH]; intros w; cbn [scan_lottery]; [auto with keeps|].
  apply keeps_bind; [auto with keeps|]. intros p. auto with keeps.
Qed.

#[local] Hint Resolve keeps_table_scan_priority keeps_table_scan_lottery : keeps.

Lemma keeps_table_choose c : keeps table (@choose F c).
Proof.
  unfold choose, pick_priority, pick_lottery, pick_rr, fastrand, on_ps. cbv zeta.
  repeat (apply keeps_bind; [auto 8 with keeps|intros ?]).
  auto 12 with keeps.
Qed.

(** Only runnable processes are chosen. *)
Definition picks (m : M (kernel F) (option nat)) : Prop :=
  forall k, wp (calm _) (m k) (fun o _ => forall i, o = Some i -> in_state (k_ps k) i RUNNABLE).

Lemma in_state_table k k' i st : table k' = table k -> in_state (k_ps k) i st -> in_state (k_ps k') i st.
Proof. intros Ht (p & Hp & Hs). exists p. injection Ht as -> _. done. Qed.

Lemma wp_get_proc_calm {A} i (f : proc -> M (kernel F) A) k Q :
  (forall p, procs (k_ps k) !! i = Some p -> wp (calm _) (f p k) Q) ->
  wp (calm _) (bind (get_proc i) f k) Q.
Proof. by apply wp_get_proc. Qed.

Lemma scan_priority_picks n i mp mP k :
  (forall j, mP = Some j -> in_state (k_ps k) j RUNNABLE) ->
  wp (calm _) (scan_priority n i mp mP k)
     (fun o _ => forall j, o = Some j -> in_state (k_ps k) j RUNNABLE).
Proof.
  revert i mp mP. induction n as [|n IH]; intros i mp mP HP; cbn [scan_priority]; [done|].
  apply wp_get_proc_calm. intros p Hp. destruct (decide (state p = RUNNABLE)) as [E|E].
  - rewrite bool_decide_eq_true_2 by done.
    assert (in_state (k_ps k) i RUNNABLE) as Hi by (by exists p).
    destruct (nz mp); [destruct (priority p <? mp)|]; destruct (_ =? 1);
      try apply IH; try done; intros j [= <-]; done.
  - rewrite bool_decide_eq_false_2 by done. by apply IH.
Qed.

Lemma scan_lottery_picks l w : picks (scan_lottery l w).
Proof.
  intros k. revert w. induction l as [|i l IH]; intros w; cbn [scan_lottery]; [done|].
  apply wp_get_proc_calm. intros p Hp. destruct (decide (state p = RUNNABLE)) as [E|E].
  - rewrite bool_decide_eq_true_2 by done. cbn [negb].
    destruct (_ <? 0); [|apply IH]. intros j [= <-]. by exists p.
  - rewrite bool_decide_eq_false_2 by done. apply IH.
Qed.

Lemma pick_rr_picks c s : picks (pick_rr c s).
Proof.
  intros k. unfold pick_rr. rewrite bind_eq, wp_bind.
  eapply wp_mono; [|apply (wp_for_each _ _ _ (fun k' => k' = k)
    (fun i _ => in_state (k_ps k) i RUNNABLE)); [|done]].
  - intros [i|] k' H; [by intros j [= <-]|]. subst. kred. by intros j [=].
  - intros i k' _ ->. apply wp_get_proc_calm. intros p Hp.
    destruct (decide (state p = RUNNABLE)) as [E|E].
    + rewrite bool_decide_eq_true_2 by done. cbn [negb]. unfold upd_cpu, on_hw. kred. by exists p.
    + by rewrite bool_decide_eq_false_2.
Qed.

(** [choose] in state [k] decides on the table of [k]. *)
Lemma choose_picks c k :
  wp (calm _) (choose c k) (fun r _ => forall i, fst r = Some i -> in_state (k_ps k) i RUNNABLE).
Proof.
  unfold choose.
  apply (wp_keeps table); [done|auto with keeps|]. intros cc1 k1 H1.
  apply (wp_keeps table); [done|auto with keeps|]. intros _ k2 H2.
  apply (wp_keeps table); [done|auto with keeps|]. intros cc3 k3 H3.
  apply (wp_keeps table); [done|auto with keeps|]. intros _ k4 H4.
  apply (wp_keeps table); [done|auto with keeps|]. intros cc k5 H5. cbv zeta.
  assert (table k = table k5) as HT by congruence.
  destruct (_ || _); [|destruct (_ =? 4); [|destruct (_ =? 0)]].
  - unfold pick_priority. rewrite bind_eq, wp_bind.
    eapply wp_mono; [|apply scan_priority_picks; done]. intros [i|] k6 H6; simpl.
    + specialize (H6 i eq_refl). unfold upd_cpu, on_hw. rewrite !bind_eq, modify_eq. cbn [res_bind].
      apply (wp_keeps table); [done|auto with keeps|]. intros cc' k7 _.
      destruct (schedAlg cc' =? 3).
      * apply wp_get_proc_calm. intros p _. destruct (_ <? 6); [|done].
        intros j [= <-]. by eapply in_state_table.
      * intros j [= <-]. by eapply in_state_table.
    + by intros j [=].
  - rewrite bind_eq, wp_bind. unfold pick_lottery.
    apply (wp_keeps table); [done|auto with keeps|]. intros t k6 H6.
    apply (wp_keeps table); [done|unfold fastrand, on_ps; auto 9 with keeps|]. intros w k7 H7.
    eapply wp_mono; [|apply scan_lottery_picks]. intros o k8 H8. kred. intros i Hi.
    eapply in_state_table; [|by apply H8]. congruence.
  - rewrite bind_eq, wp_bind. eapply wp_mono; [|apply pick_rr_picks]. intros o k6 H6. kred.
    intros i Hi. eapply in_state_table; [done|by apply H6].
  - apply (wp_keeps table); [done|auto with keeps|]. intros _ k6 H6.
    rewrite bind_eq, wp_bind. eapply wp_mono; [|apply pick_rr_picks]. intros o k7 H7. kred.
    intros i Hi. eapply in_state_table; [|by apply H7]. congruence.
Qed.

Lemma keeps_who_switchuvm p : keeps who (@switchuvm F LK p).
Proof.
  unfold switchuvm, ltr, lcr3. destruct p as [i|]; [|auto with keeps].
  repeat (apply keeps_bind; [auto 3 with keeps|intros ?]); auto 20 with keeps.
Qed.

Lemma keeps_who_switchkvm : keeps who (@switchkvm F).
Proof. unfold switchkvm, lcr3. auto with keeps. Qed.

#[local] Hint Resolve keeps_who_switchuvm keeps_who_switchkvm : keeps.

Lemma executing_apicids c k k' :
  apicid <$> cpus (k_hw k') = apicid <$> cpus (k_hw k) -> ncpu (k_hw k') = ncpu (k_hw k) ->
  lapic_id (k_hw k') = lapic_id (k_hw k) -> executing c k -> executing c k'.
Proof.
  intros Ha Hn Hl [Hb Ht]. split.
  - apply (f_equal length) in Ha. rewrite !length_fmap in Ha. lia.
  - rewrite <- Ht. by apply this_cpu_fmap.
Qed.

Lemma executing_table c k k' : table k' = table k -> executing c k -> executing c k'.
Proof.
  intros Ht. injection Ht as _ _ _ _ Hc Hn Hl. apply executing_apicids; auto.
  apply (f_equal (fmap fst)) in Hc. by rewrite <- !list_fmap_compose in Hc.
Qed.

Lemma executing_upd_proc_cpu c o k :
  executing c k -> executing c (set_k_hw (set_cpus (alter (set_c_proc o) c (cpus (k_hw k))) (k_hw k)) k).
Proof. apply executing_apicids; [|done|done]. by apply apicid_alter. Qed.

(** The CPU that executes runs the process it records. *)
Lemma on_cpu_set c i k :
  executing c k ->
  on_cpu i (set_k_hw (set_cpus (alter (set_c_proc (Some i)) c (cpus (k_hw k))) (k_hw k)) k).
Proof.
  intros He. destruct (executing_upd_proc_cpu c (Some i) k He) as [Hb Ht]. split; [done|].
  destruct (this_cpu_lt _ _ (proj2 He)) as [cc Hcc].
  exists c, (set_c_proc (Some i) cc). split; [done|]. split; [|done].
  simpl. by rewrite list_lookup_alter_eq, Hcc.
Qed.

Lemma dispatch_step c k0 k i timeQ :
  psteps (k_ps k0) (k_ps k) -> executing c k -> in_state (k_ps k) i RUNNABLE ->
  wp (as_sched c k0)
    ((upd_cpu c (set_ctr timeQ) ;;
      upd_cpu c (set_c_proc (Some i)) ;;
      t <- get_ticks ;;
      upd_proc i (fun p => set_totalWaitTime (u32 (totalWaitTime p + (t - lastChangeTime p))) p) ;;
      t <- get_ticks ;;
      upd_proc i (set_lastChangeTime t) ;;
      switchuvm (Some i) ;;
      upd_proc i (set_state RUNNING) ;;
      swtch (CtxProc i) ;;
      switchkvm ;;
      upd_cpu c (set_c_proc None)) k)
    (fun _ k' => psteps (k_ps k0) (k_ps k') /\ executing c k').
Proof.
  intros Hs He Hr.
  apply (wp_keeps who); [done|auto with keeps|]. intros _ k1 H1.
  apply (executing_table _ _ _ (who_table _ _ H1)) in He. rewrite <- (who_ps _ _ H1) in Hs, Hr.
  rewrite bind_eq. unfold upd_cpu at 1, on_hw at 1. rewrite modify_eq. cbn [res_bind].
  pose proof (on_cpu_set c i k1 He) as Ho. pose proof (executing_upd_proc_cpu c (Some i) k1 He) as He2.
  set (k2 := set_k_hw _ k1) in *.
  apply wp_get_ticks, wp_upd_proc; [done|]. intros _. apply wp_get_ticks, wp_upd_proc; [done|].
  intros _. rewrite set_ps_twice. cbn [k_ps set_k_ps]. rewrite upd_upd.
  apply (wp_keeps who); [done|auto with keeps|]. intros _ k3 H3.
  apply wp_upd_proc; [done|]. intros _. rewrite (who_ps _ _ H3). cbn [k_ps set_k_ps]. rewrite upd_upd.
  match goal with |- wp _ (_ (set_k_ps ?x _)) _ => set (ps' := x) end.
  assert (pstep (k_ps k1) ps') as Hd by (by apply ps_dispatch).
  rewrite bind_eq. split.
  - split; [by eapply rtc_r|]. intros j [= <-]. split.
    + apply (on_cpu_who i (set_k_ps ps' k2)); [|exact Ho].
      exact (who_set_ps _ _ ps' ps' H3 eq_refl).
    + destruct Hr as (p & Hp & _). eapply in_state_upd; done.
  - intros k4 [Hs4 He4]. cbn [res_bind]. apply (wp_keeps who); [done|auto with keeps|].
    intros _ k5 H5. unfold upd_cpu, on_hw. kred. split.
    + cbn [k_ps set_k_hw]. rewrite (who_ps _ _ H5). unfold psteps in *. etrans; [|done]. by eapply rtc_r.
    + apply executing_upd_proc_cpu. eapply executing_table; [by apply who_table|done].
Qed.

Lemma scheduler_iter_step c k0 k :
  psteps (k_ps k0) (k_ps k) -> executing c k ->
  wp (as_sched c k0) (scheduler_iter c k) (fun _ k' => psteps (k_ps k0) (k_ps k') /\ executing c k').
Proof.
  intros Hs He. unfold scheduler_iter.
  apply (wp_keeps who); [done|unfold sti; auto with keeps|]. intros _ k1 H1.
  apply (wp_keeps who); [done|auto with keeps|]. intros _ k2 H2.
  rewrite bind_eq, wp_bind.
  eapply wp_mono; [|apply wp_calm; [done|apply wp_conj; [apply choose_picks|apply keeps_table_choose]]].
  intros [found timeQ] k3 [Hp Ht]. simpl in Hp.
  assert (who k2 = who k) as HW by congruence.
  assert (table k3 = table k) as HT by (rewrite Ht; by apply who_table).
  assert (executing c k3) as He3 by (by eapply executing_table).
  assert (psteps (k_ps k0) (k_ps k3)) as Hs3.
  { eapply rtc_r; [exact Hs|]. injection HT as ? ? ? ? ? ? ?. by apply ps_global. }
  cbv beta iota. rewrite bind_eq, wp_bind.
  assert (forall k4, psteps (k_ps k0) (k_ps k4) /\ executing c k4 ->
    wp (as_sched c k0) (release LKptable k4)
      (fun _ k' => psteps (k_ps k0) (k_ps k') /\ executing c k')) as Hrel.
  { intros k4 [Hs4 He4]. eapply wp_mono; [|apply wp_calm; [done|apply keeps_who_release]].
    simpl. intros _ k5 H5. rewrite (who_ps _ _ H5). split; [done|].
    eapply executing_table; [by apply who_table|done]. }
  destruct found as [i|]; [|by apply Hrel].
  eapply wp_mono; [|apply (dispatch_step c k0 k3 i timeQ); [done|done|]].
  - intros ? k4. apply Hrel.
  - eapply in_state_table; [exact Ht|]. by apply Hp.
Qed.

(** C3. The scheduler, over any number of rounds and under every policy, changes
    the process table only by legal transitions, provided the processes it
    runs do the same; and it gives the CPU only to a process that is then
    the current one and RUNNING. *)
Theorem scheduler_follows c k0 k n
    (Hs : psteps (k_ps k0) (k_ps k)) (He : executing c k) (Hif : eflags_if (k_hw k) = false) :
  wp (as_sched c k0) (scheduler n k) (fun _ k' => psteps (k_ps k0) (k_ps k')).
Proof.
  unfold scheduler. rewrite bind_eq, mycpu_eq by (done || apply He). rewrite (proj2 He).
  cbn [res_bind]. rewrite bind_eq. unfold upd_cpu at 1, on_hw at 1. rewrite modify_eq. cbn [res_bind].
  pose proof (executing_upd_proc_cpu c None k He) as He1. set (k1 := set_k_hw _ k) in *.
  apply (wp_keeps table); [done|unfold fastrandSlated, get_ticks, on_ps; auto 9 with keeps|].
  intros _ k2 Ht.
  eapply wp_mono; [|apply (wp_loop _ _ _ (fun k' => psteps (k_ps k0) (k_ps k') /\ executing c k')
    (fun _ k' => psteps (k_ps k0) (k_ps k'))); [done| |split]].
  - auto.
  - intros k3 [Hs3 He3]. rewrite bind_eq, wp_bind.
    eapply wp_mono; [|by apply scheduler_iter_step]. done.
  - eapply rtc_r; [exact Hs|]. injection Ht as ? ? ? ? ? ? ?. by apply ps_global.
  - by eapply executing_table.
Qed.
End Scheduler.

(** ** Instances *)

Lemma scheduler_follows_witness :
  wp (as_sched 0 (kernel_running 0 ∅)) (scheduler 3 (kernel_running 0 ∅))
    (fun _ k' => psteps (k_ps (kernel_running 0 ∅)) (k_ps k')).
Proof.
  apply (scheduler_follows 0 (kernel_running 0 ∅) (kernel_running 0 ∅) 3); [constructor| |done].
  split; simpl; [lia|done].
Defined.
