(* ===== verification/Quiet.v ===== *)
(** * Routines that leave the process table alone

    Memory, the console, the interrupt controllers and the disk driver's queue:
    these routines neither give the CPU away nor change the process table or
    which process a CPU runs. *)

From S2P Require Import Prelude Params State Mem Spinlock Seg Str Cprintf Apic Kalloc Vm Proc ProcSpec.
From S2P Require Import ProcRefine.

Section Quiet.
  Context {F : Type} {LK : Linker}.

Lemma keeps_who_on_cons f : keeps who (@on_cons F f).
Proof. by intros k. Qed.

Lemma keeps_who_kstore v bs : keeps who (@kstore F v bs).
Proof. by intros k. Qed.

Lemma keeps_who_kstore32 v x : keeps who (@kstore32 F v x).
Proof. by intros k. Qed.

Lemma keeps_who_kload v n : keeps who (@kload F v n).
Proof. by intros k. Qed.

Lemma keeps_who_kload32 v : keeps who (@kload32 F v).
Proof. by intros k. Qed.

#[local] Hint Resolve keeps_who_on_cons keeps_who_kstore keeps_who_kstore32 keeps_who_kload
  keeps_who_kload32 : keeps.

(** ** Console output *)

Lemma keeps_who_uartputc c : keeps who (@uartputc F c).
Proof. unfold uartputc. keeps_tac. Qed.

Lemma keeps_who_put_crt a b : keeps who (@put_crt F a b).
Proof. unfold put_crt. keeps_tac. Qed.

#[local] Hint Resolve keeps_who_uartputc keeps_who_put_crt : keeps.

Lemma keeps_who_cgaputc c : keeps who (@cgaputc F c).
Proof. unfold cgaputc. keeps_tac. Qed.

Lemma keeps_who_cli : keeps who (@cli F).
Proof. by intros k. Qed.

#[local] Hint Resolve keeps_who_cgaputc keeps_who_cli : keeps.

Lemma keeps_who_consputc c : keeps who (@consputc F c).
Proof. unfold consputc. keeps_tac. Qed.

#[local] Hint Resolve keeps_who_consputc : keeps.

Lemma keeps_who_printint a b c : keeps who (@printint F a b c).
Proof. unfold printint. keeps_tac. Qed.

#[local] Hint Resolve keeps_who_printint : keeps.

Lemma keeps_who_format fmt : forall args, keeps who (@format F fmt args).
Proof.
  induction fmt as [fmt IH] using (induction_ltof1 _ (@length Z)). unfold ltof in IH.
  intros args. destruct fmt as [|c fmt]; cbn [format]; [keeps_tac|].
  assert (forall a, keeps who (@format F fmt a)) as H1 by (intros; apply IH; simpl; lia).
  assert (forall d fmt' a, fmt = d :: fmt' -> keeps who (@format F fmt' a)) as H2
    by (intros ? ? ? ->; apply IH; simpl; lia).
  clear IH. destruct c as [|c|c]; [keeps_tac| |keeps_tac; apply H1].
  destruct (decide (c = 37%positive)) as [->|Hne].
  - destruct fmt as [|d fmt]; [keeps_tac|]. specialize (fun a => H2 d fmt a eq_refl).
    clear H1. keeps_tac; apply H2.
  - do 6 (destruct c as [c|c|]; try (by keeps_tac; apply H1)). done.
Qed.

#[local] Hint Resolve keeps_who_format : keeps.

Lemma keeps_who_cprintf fmt args : keeps who (@cprintf F fmt args).
Proof. unfold cprintf. keeps_tac. Qed.

#[local] Hint Resolve keeps_who_cprintf : keeps.

(** ** Memory *)

Lemma keeps_who_use_lock : keeps who (@get_use_lock F).
Proof. by intros k. Qed.

#[local] Hint Resolve keeps_who_use_lock : keeps.

Lemma keeps_who_kalloc : keeps who (@kalloc F).
Proof. unfold kalloc. keeps_tac. Qed.

Lemma keeps_who_kfree v : keeps who (@kfree F LK v).
Proof. unfold kfree. keeps_tac. Qed.

#[local] Hint Resolve keeps_who_kalloc keeps_who_kfree : keeps.

Lemma keeps_who_walkpgdir d va al : keeps who (@walkpgdir F d va al).
Proof. unfold walkpgdir. keeps_tac. Qed.

#[local] Hint Resolve keeps_who_walkpgdir : keeps.

Lemma keeps_who_map_loop n : forall d a l pa perm, keeps who (@map_loop F n d a l pa perm).
Proof. induction n as [|n IH]; intros; cbn [map_loop]; keeps_tac; apply IH. Qed.

Lemma keeps_who_unmap_loop n : forall d a l, keeps who (@unmap_loop F n d a l).
Proof. induction n as [|n IH]; intros; cbn [unmap_loop]; keeps_tac; apply IH. Qed.

Lemma keeps_who_mappages d va sz pa perm : keeps who (@mappages F d va sz pa perm).
Proof. apply keeps_who_map_loop. Qed.

Lemma keeps_who_unmappages d va sz : keeps who (@unmappages F d va sz).
Proof. apply keeps_who_unmap_loop. Qed.

Lemma keeps_who_dealloc_loop n : forall d a o, keeps who (@dealloc_loop F LK n d a o).
Proof. induction n as [|n IH]; intros; cbn [dealloc_loop]; keeps_tac; apply IH. Qed.

#[local] Hint Resolve keeps_who_mappages keeps_who_unmappages keeps_who_dealloc_loop : keeps.

Lemma keeps_who_deallocuvm d o n : keeps who (@deallocuvm F LK d o n).
Proof. unfold deallocuvm. keeps_tac. Qed.

Lemma keeps_who_free_tables d n : keeps who (@free_tables F LK d n).
Proof. unfold free_tables. keeps_tac. Qed.

#[local] Hint Resolve keeps_who_deallocuvm keeps_who_free_tables : keeps.

Lemma keeps_who_freevm d : keeps who (@freevm F LK d).
Proof. unfold freevm. keeps_tac. Qed.

Lemma keeps_who_freethread d s : keeps who (@freethread F LK d s).
Proof. unfold freethread. keeps_tac. Qed.

#[local] Hint Resolve keeps_who_freevm keeps_who_freethread : keeps.

Lemma keeps_who_setupkvm : keeps who (@setupkvm F LK).
Proof. unfold setupkvm. keeps_tac. Qed.

#[local] Hint Resolve keeps_who_setupkvm : keeps.

Lemma keeps_who_alloc_loop n : forall d a o s, keeps who (@alloc_loop F LK n d a o s).
Proof. induction n as [|n IH]; intros; cbn [alloc_loop]; keeps_tac; apply IH. Qed.

#[local] Hint Resolve keeps_who_alloc_loop : keeps.

Lemma keeps_who_allocuvm d o n : keeps who (@allocuvm F LK d o n).
Proof. unfold allocuvm. keeps_tac. Qed.

Lemma keeps_who_palloc d l : keeps who (@palloc F d l).
Proof. unfold palloc. keeps_tac. Qed.

Lemma keeps_who_clearpteu d u : keeps who (@clearpteu F d u).
Proof. unfold clearpteu. keeps_tac. Qed.

Lemma keeps_who_copyuvm d s : keeps who (@copyuvm F LK d s).
Proof. unfold copyuvm, copy_page. keeps_tac. Qed.

Lemma keeps_who_uload32 va : keeps who (@uload32 F va).
Proof. unfold uload32. keeps_tac. Qed.

Lemma keeps_who_uload8 va : keeps who (@uload8 F va).
Proof. unfold uload8. keeps_tac. Qed.

Lemma keeps_who_ustore8 va v : keeps who (@ustore8 F va v).
Proof. unfold ustore8. keeps_tac. Qed.

Lemma keeps_who_ustore32 va v : keeps who (@ustore32 F va v).
Proof. unfold ustore32. keeps_tac. Qed.

#[local] Hint Resolve keeps_who_uload32 keeps_who_ustore32 : keeps.

Lemma keeps_who_relocate_stack a b c d : keeps who (@relocate_stack F a b c d).
Proof. unfold relocate_stack. keeps_tac. Qed.

#[local] Hint Resolve keeps_who_relocate_stack : keeps.

Lemma keeps_who_linkuvm d sz o s : keeps who (@linkuvm F LK d sz o s).
Proof. unfold linkuvm, link_page. keeps_tac. Qed.

Lemma keeps_who_uva2ka d u : keeps who (@uva2ka F d u).
Proof. unfold uva2ka. keeps_tac. Qed.

#[local] Hint Resolve keeps_who_uva2ka : keeps.

Lemma keeps_who_copyout_loop n : forall d va bs, keeps who (@copyout_loop F n d va bs).
Proof. induction n as [|n IH]; intros d va [|b bs]; cbn [copyout_loop]; keeps_tac; apply IH. Qed.

Lemma keeps_who_copyout d va bs : keeps who (@copyout F d va bs).
Proof. apply keeps_who_copyout_loop. Qed.

(** ** Interrupt controllers *)

Lemma keeps_who_ioapicenable a b : keeps who (@ioapicenable F a b).
Proof. unfold ioapicenable, ioapicwrite. keeps_tac. Qed.

Lemma keeps_who_lapiceoi : keeps who (@lapiceoi F).
Proof. unfold lapiceoi, lapicw. keeps_tac. Qed.

End Quiet.

#[export] Hint Resolve keeps_who_on_cons keeps_who_kstore keeps_who_kstore32 keeps_who_kload
  keeps_who_kload32 keeps_who_uartputc keeps_who_cgaputc keeps_who_consputc keeps_who_cprintf
  keeps_who_kalloc keeps_who_kfree keeps_who_walkpgdir keeps_who_mappages keeps_who_unmappages
  keeps_who_deallocuvm keeps_who_freevm keeps_who_freethread keeps_who_setupkvm keeps_who_allocuvm
  keeps_who_palloc keeps_who_clearpteu keeps_who_copyuvm keeps_who_linkuvm keeps_who_copyout
  keeps_who_uload32 keeps_who_uload8 keeps_who_ustore8 keeps_who_ustore32 keeps_who_ioapicenable
  keeps_who_lapiceoi : keeps.
