(* ===== verification/SleepWake.v ===== *)
(** * Sleeping and waking, with the locks

    Total correctness of [wakeup], [sleep] and [yield] together with the lock
    bookkeeping: which locks are held when the CPU is given away and when the
    call returns, and what the process table is then. *)

From S2P Require Import Prelude Params State Spinlock Seg Proc ProcSpec ProcRefine Demo.

(** What [wakeup] makes of one process at time [t]. *)
Definition woken (ch : option chan) (t : Z) (p : proc) : proc :=
  if decide (state p = SLEEPING /\ p_chan p = ch)
  then set_lastChangeTime t (set_state RUNNABLE p) else p.

Definition woken_tickets (ch : option chan) (p : proc) : Z :=
  if decide (state p = SLEEPING /\ p_chan p = ch) then ticketCount p else 0.

Section SleepWake.
  Context {F : Type} {LK : Linker}.
  Implicit Types (k : kernel F).

(** The process that CPU [c] records. *)
Definition proc_on (c : nat) (k : kernel F) : option nat :=
  match cpus (k_hw k) !! c with Some cc => c_proc cc | None => None end.

(** The environment of a process that gives the CPU away holding only the
    process table's lock, and finds itself running again, with that lock held. *)
Definition handover (i : nat) (P : kernel F -> Prop) : env (kernel F) :=
  mkEnv (fun to k => (exists c, to = CtxSched c /\ holds k c 1 [LKptable]) /\ P k)
        (fun _ _ k' => exists c', holds k' c' 1 [LKptable] /\ proc_on c' k' = Some i /\
                                  is_Some (procs (k_ps k') !! i))
        False.

Lemma core_proc_on c k k' : core k' = core k -> proc_on c k' = proc_on c k.
Proof.
  intros Hc. apply core_who in Hc. unfold who in Hc. injection Hc as _ Hc _ _.
  apply (f_equal (.!! c)) in Hc. rewrite !list_lookup_fmap in Hc. unfold proc_on.
  destruct (cpus (k_hw k') !! c), (cpus (k_hw k) !! c); simpl in Hc; congruence.
Qed.

Lemma myproc_holds k c n H :
  holds k c n H -> n < 2 ^ 30 - 1 ->
  runs myproc k (fun o k' => o = proc_on c k /\ holds k' c n H /\ core k' = core k).
Proof.
  intros Hk Hn. pose proof (h_few _ _ _ _ Hk). unfold runs, myproc.
  wp_call (pushcli_holds k c n H Hk); [|lia]. intros _ k1 (Hk1 & Hc1 & _).
  rewrite bind_eq, (mycpu_holds _ _ _ _ Hk1) by lia. cbn [res_bind].
  destruct (h_ncli _ _ _ _ Hk1) as (cc & Hcc & _).
  rewrite bind_eq, (get_cpu_eq _ _ _ Hcc). cbn [res_bind].
  wp_call (popcli_holds k1 c n H Hk1); [|lia]. intros _ k2 (Hk2 & Hc2 & _). kred.
  split; [|split; [done|congruence]].
  rewrite <- (core_proc_on c k k1 Hc1). unfold proc_on. by rewrite Hcc.
Qed.

(** ** wakeup *)

Lemma wakeup1_scan ch t k (n j : nat) :
  (j + n)%nat = length (procs (k_ps k)) -> ticks (k_ps k) = t ->
  for_all (seq j n) (fun i =>
    p <- get_proc i ;;
    when (bool_decide (state p = SLEEPING) && bool_decide (p_chan p = ch))
      (upd_proc i (set_state RUNNABLE) ;;
       t <- get_ticks ;;
       upd_proc i (set_lastChangeTime t) ;;
       add_tickets (ticketCount p))) k
  = Done tt (set_k_ps
      (set_totalTicketCount
         (foldl (fun tot p => if decide (state p = SLEEPING /\ p_chan p = ch)
                              then s32 (tot + ticketCount p) else tot)
            (totalTicketCount (k_ps k)) (drop j (procs (k_ps k))))
         (set_procs (take j (procs (k_ps k)) ++ (woken ch t <$> drop j (procs (k_ps k))))
            (k_ps k))) k).
Proof.
  revert j k. induction n as [|n IH]; intros j k Hj Ht; cbn [seq].
  { rewrite for_all_nil, drop_ge, app_nil_r, take_ge by lia. simpl. by destruct k as [? ? ? [] ? ? ?]. }
  destruct (lookup_lt_is_Some_2 (procs (k_ps k)) j) as [p Hp]; [lia|].
  rewrite for_all_cons, bind_eq. unfold get_proc at 1. kred. rewrite Hp. kred.
  rewrite (drop_S _ p j Hp). cbn [fmap list_fmap foldl]. unfold woken at 1.
  destruct (decide (state p = SLEEPING /\ p_chan p = ch)) as [[E1 E2]|E].
  - rewrite !bool_decide_eq_true_2 by done. cbn [andb when]. unfold upd_proc, get_proc, add_tickets,
      get_ticks, on_ps. kred. cbn. rewrite Hp. kred. cbn.
    rewrite list_lookup_alter_eq, Hp. simpl. kred.
    rewrite IH; [|simpl; rewrite !length_alter; lia|done]. cbn. rewrite alter_alter_eq, Ht. cbn.
    f_equal. unfold set_k_ps, set_totalTicketCount, set_procs, set_k_ps. cbn. f_equal. f_equal.
    + rewrite !(drop_alter _ _ (S j) j) by lia. rewrite (take_S_r _ _ (set_lastChangeTime t (set_state RUNNABLE p))).
      * rewrite take_alter, !decide_False by lia. by rewrite <- app_assoc.
      * by rewrite list_lookup_alter_eq, Hp.
    + by rewrite drop_alter, decide_False by lia.
  - assert (bool_decide (state p = SLEEPING) && bool_decide (p_chan p = ch) = false) as ->.
    { apply andb_false_iff. destruct (decide (state p = SLEEPING)); [right|left];
        apply bool_decide_eq_false_2; tauto. }
    cbn [when]. kred. rewrite IH by (done || lia). do 2 f_equal.
    unfold set_totalTicketCount, set_procs. f_equal. rewrite (take_S_r _ _ p Hp).
    by rewrite <- app_assoc.
Qed.

Lemma wakeup1_eq ch k :
  length (procs (k_ps k)) = 64%nat ->
  wakeup1 ch k = Done tt (set_k_ps
      (set_totalTicketCount
         (foldl (fun tot p => if decide (state p = SLEEPING /\ p_chan p = ch)
                              then s32 (tot + ticketCount p) else tot)
            (totalTicketCount (k_ps k)) (procs (k_ps k)))
         (set_procs (woken ch (ticks (k_ps k)) <$> procs (k_ps k)) (k_ps k))) k).
Proof. intros Hl. exact (wakeup1_scan ch _ k 64 0 (eq_sym Hl) eq_refl). Qed.

(** [wakeup] with the locks: only the process table changes. *)
Lemma wakeup_holds k c n H ch :
  holds k c n H -> LKptable ∉ H -> n < 2 ^ 30 - 2 -> length (procs (k_ps k)) = 64%nat ->
  runs (wakeup ch) k (fun _ k' => holds k' c n H /\ exists t,
    core k' = core (set_k_ps (set_totalTicketCount t
      (set_procs (woken (Some ch) (ticks (k_ps k)) <$> procs (k_ps k)) (k_ps k))) k)).
Proof.
  intros Hk HL Hn Hlen. unfold runs, wakeup. wp_call (acquire_holds k c n H LKptable Hk HL Hn).
  intros _ k1 [Hk1 Hc1]. rewrite bind_eq, wakeup1_eq by (by rewrite (core_ps _ _ Hc1)).
  cbn [res_bind]. match goal with |- wp _ (_ ?x) _ => set (k2 := x) end.
  pose proof (h_few _ _ _ _ Hk) as Hf.
  eapply wp_mono; [|apply (release_holds k2 c n H LKptable); [by eapply holds_ext; [..|exact Hk1]|done|lia]].
  intros _ k3 [Hk3 Hc3]. split; [done|]. eexists. rewrite Hc3. unfold k2.
  rewrite !core_set_ps, (core_ps _ _ Hc1), Hc1. done.
Qed.

(** [wakeup] makes exactly the processes that sleep on the channel runnable,
    stamps them with the current time, changes no other process and no other
    part of the table but the ticket count, and returns with the locks as it
    found them. *)
Theorem wakeup_wakes k c n H ch
    (Hk : holds k c n H) (HL : LKptable ∉ H) (Hn : n < 2 ^ 30 - 2)
    (Hlen : length (procs (k_ps k)) = 64%nat) :
  runs (wakeup ch) k (fun _ k' => holds k' c n H /\
    procs (k_ps k') = woken (Some ch) (ticks (k_ps k)) <$> procs (k_ps k) /\
    (nextpid (k_ps k'), initproc (k_ps k'), ticks (k_ps k'), g_seed (k_ps k'))
      = (nextpid (k_ps k), initproc (k_ps k), ticks (k_ps k), g_seed (k_ps k)) /\
    k_ms k' = k_ms k /\ k_fs k' = k_fs k).
Proof.
  eapply wp_mono; [|by apply (wakeup_holds k c n H ch)]. intros _ k' (Hk' & t & Hc). split; [done|].
  rewrite (core_ps _ _ Hc), (core_ms _ _ Hc), (core_fs _ _ Hc). done.
Qed.

(** ** sleep and yield *)

Lemma holds_upd_cpu k c n H f :
  (forall x, apicid (f x) = apicid x /\ ncli (f x) = ncli x) ->
  holds k c n H -> holds (set_k_hw (set_cpus (alter f c (cpus (k_hw k))) (k_hw k)) k) c n H.
Proof.
  intros Hf [? ? (cc & Hcc & Hnc) ? ? ? ?]. split; simpl; auto.
  - by rewrite length_alter.
  - etrans; [|done]. apply this_cpu_fmap; try done. simpl. apply apicid_alter. apply Hf.
  - exists (f cc). rewrite list_lookup_alter_eq, Hcc. split; [done|]. by rewrite (proj2 (Hf cc)).
Qed.

Lemma get_proc_at k i p : procs (k_ps k) !! i = Some p -> get_proc i k = Done p k.
Proof. intros H. unfold get_proc. kred. by rewrite H. Qed.

Lemma upd_proc_at k i p f :
  procs (k_ps k) !! i = Some p -> upd_proc i f k = Done tt (set_k_ps (upd i f (k_ps k)) k).
Proof. intros H. unfold upd_proc. rewrite bind_eq, (get_proc_at _ _ _ H). done. Qed.

Lemma holds_set_ps k ps c n H : holds k c n H -> holds (set_k_ps ps k) c n H.
Proof. by apply holds_ext. Qed.

(** [sched], called with only the process table's lock held and the state of
    the process changed already, reaches the switch. *)
Lemma sched_holds e k c i p (Q : unit -> kernel F -> Prop) :
  holds k c 1 [LKptable] -> proc_on c k = Some i ->
  procs (k_ps k) !! i = Some p -> state p <> RUNNING ->
  (forall k1, holds k1 c 1 [LKptable] ->
     core k1 = core (set_k_ps (upd i (charge_cpu (ticks (k_ps k))) (k_ps k)) k) ->
     e_guar e (CtxSched c) k1 /\
     forall k2, e_rely e (CtxSched c) k1 k2 ->
       exists c', holds k2 c' 1 [LKptable] /\
         forall k3, holds k3 c' 1 [LKptable] -> core k3 = core k2 -> Q tt k3) ->
  wp e (sched k) Q.
Proof.
  intros Hk Hon Hp Hst HQ. unfold sched.
  wp_run (myproc_holds k c 1 [LKptable] Hk); [|lia]. intros o k1 (-> & Hk1 & Hc1).
  rewrite Hon. cbn [deref]. rewrite bind_eq, ret_eq. cbn [res_bind].
  rewrite <- (core_ps _ _ Hc1) in Hp. unfold get_ticks. rewrite bind_eq, gets_eq. cbn [res_bind].
  rewrite bind_eq, (upd_proc_at _ _ _ _ Hp). cbn [res_bind]. rewrite bind_eq, gets_eq. cbn [res_bind].
  rewrite bind_eq. erewrite upd_proc_at by (cbn; rewrite list_lookup_alter_eq, Hp; done).
  cbn [res_bind]. rewrite set_ps_twice. cbn [k_ps set_k_ps]. rewrite upd_upd. simpl (ticks _).
  match goal with |- wp _ (_ (set_k_ps ?x k1)) _ => set (ps1 := x) end.
  assert (ps1 = upd i (charge_cpu (ticks (k_ps k))) (k_ps k)) as E1
    by (unfold ps1; by rewrite (core_ps _ _ Hc1)).
  wp_run (holding_holds (set_k_ps ps1 k1) c 1 [LKptable] LKptable); [|by apply holds_set_ps|lia].
  intros b k2 (-> & Hk2 & Hc2 & _). rewrite bool_decide_eq_true_2 by left. cbn [negb].
  rewrite bind_eq, (mycpu_holds _ _ _ _ Hk2) by lia. cbn [res_bind].
  destruct (h_ncli _ _ _ _ Hk2) as (cc & Hcc & Hnc).
  rewrite bind_eq, (get_cpu_eq _ _ _ Hcc). cbn [res_bind]. rewrite Hnc. cbn [Z.eqb Pos.eqb negb].
  rewrite bind_eq. erewrite get_proc_at by
    (rewrite (core_ps _ _ Hc2); cbn; rewrite list_lookup_alter_eq, Hp; done).
  cbn [res_bind]. rewrite bool_decide_eq_false_2 by done.
  unfold readeflags. rewrite bind_eq, gets_eq. cbn [res_bind].
  rewrite (h_if _ _ _ _ Hk2) by lia. change (nz (Z.land 0 FL_IF)) with false. cbn match.
  rewrite bind_eq, (mycpu_holds _ _ _ _ Hk2) by lia. cbn [res_bind].
  rewrite bind_eq, (get_cpu_eq _ _ _ Hcc). cbn [res_bind].
  rewrite bind_eq, (mycpu_holds _ _ _ _ Hk2) by lia. cbn [res_bind].
  rewrite bind_eq. destruct (HQ k2 Hk2) as [HG HR].
  { rewrite Hc2, core_set_ps, E1, Hc1. by rewrite core_set_ps. }
  split; [exact HG|]. intros k3 Hr. destruct (HR k3 Hr) as (c' & Hk3 & HQ3). cbn [res_bind].
  rewrite bind_eq, (mycpu_holds _ _ _ _ Hk3) by lia. cbn [res_bind].
  apply HQ3; [by apply holds_upd_cpu|].
  by apply (keeps_core_upd_cpu c' (set_intena (intena cc))).
Qed.

(** Process [i] sleeps on [ch]. *)
Definition asleep (i : nat) (ch : chan) (k : kernel F) : Prop :=
  exists p, procs (k_ps k) !! i = Some p /\ state p = SLEEPING /\ p_chan p = Some ch.

(** The process may give the CPU away asleep on [ch], with only the table's
    lock held and the rest of [k] as it was; resumed with that lock, and having
    let go of it for [lk], it can establish [Q]. *)
Definition may_sleep (e : env (kernel F)) (k : kernel F) (c i : nat) (ch : chan) (lk : lockid) (Q : unit -> kernel F -> Prop) : Prop :=
  (forall k1, holds k1 c 1 [LKptable] -> asleep i ch k1 -> k_fs k1 = k_fs k -> k_slocks k1 = k_slocks k -> e_guar e (CtxSched c) k1) /\
  (forall k1 k2, e_rely e (CtxSched c) k1 k2 -> exists c', holds k2 c' 1 [LKptable] /\ is_Some (procs (k_ps k2) !! i) /\
    forall k3, holds k3 c' 1 [lk] -> (exists p, procs (k_ps k3) !! i = Some p /\ p_chan p = None) -> Q tt k3).

(** From the point where only the table's lock is held. *)
Lemma sleep_tail e k c i p ch lk (f : unit -> M (kernel F) unit) Q :
  holds k c 1 [LKptable] -> proc_on c k = Some i -> procs (k_ps k) !! i = Some p -> may_sleep e k c i ch lk Q ->
  (forall k3 c', holds k3 c' 1 [LKptable] -> is_Some (procs (k_ps k3) !! i) ->
     (forall k4, holds k4 c' 1 [lk] -> (exists p, procs (k_ps k4) !! i = Some p /\ p_chan p = None) -> Q tt k4) -> wp e (f tt k3) Q) ->
  wp e
    ((upd_proc i (set_p_chan (Some ch)) ;;
      upd_proc i (set_state SLEEPING) ;;
      p <- get_proc i ;;
      add_tickets (- ticketCount p) ;;
      bind sched f) k) Q.
Proof.
  intros Hk Hon Hp [Hg Hr] Hf.
  rewrite bind_eq, (upd_proc_at _ _ _ _ Hp). cbn [res_bind].
  rewrite bind_eq. erewrite upd_proc_at by (cbn; rewrite list_lookup_alter_eq, Hp; done).
  cbn [res_bind]. rewrite set_ps_twice. cbn [k_ps set_k_ps]. rewrite upd_upd.
  rewrite bind_eq. erewrite get_proc_at by (cbn; rewrite list_lookup_alter_eq, Hp; done).
  cbn [res_bind]. unfold add_tickets, on_ps. rewrite bind_eq, modify_eq. cbn [res_bind].
  rewrite set_ps_twice. cbn [k_ps set_k_ps]. rewrite bind_eq, wp_bind.
  match goal with |- wp _ (sched (set_k_ps ?x k)) _ => set (ps1 := x) end.
  assert (procs ps1 !! i = Some (set_state SLEEPING (set_p_chan (Some ch) p))) as Hp1
    by (unfold ps1; cbn; by rewrite list_lookup_alter_eq, Hp).
  apply (sched_holds _ _ c i (set_state SLEEPING (set_p_chan (Some ch) p))); try done.
  { by apply holds_set_ps. }
  intros k1 Hk1 Hc1. split.
  - apply Hg; [done| |by rewrite (core_fs _ _ Hc1)|by rewrite (core_slocks _ _ Hc1)]. unfold asleep. rewrite (core_ps _ _ Hc1).
    exists (charge_cpu (ticks ps1) (set_state SLEEPING (set_p_chan (Some ch) p))).
    split; [|done]. cbn [k_ps set_k_ps upd procs set_procs]. by rewrite list_lookup_alter_eq, Hp1.
  - intros k2 Hr2. destruct (Hr _ _ Hr2) as (c' & Hk2 & Hp2 & HQ). exists c'. split; [done|].
    intros k3 Hk3 Hc3. apply (Hf _ c'); [done| |done]. by rewrite (core_ps _ _ Hc3).
Qed.

Lemma sleep_wp e k c i ch lk Q :
  holds k c 1 [lk] -> proc_on c k = Some i -> is_Some (procs (k_ps k) !! i) -> may_sleep e k c i ch lk Q -> wp e (sleep ch lk k) Q.
Proof.
  intros Hk Hon [p Hp] Hms. unfold sleep.
  wp_run (myproc_holds k c 1 [lk] Hk); [|lia]. intros o k1 (-> & Hk1 & Hc1). rewrite Hon.
  rewrite <- (core_ps _ _ Hc1) in Hp. rewrite <- (core_proc_on c _ _ Hc1) in Hon.
  destruct (decide (lk = LKptable)) as [->|Hlk].
  - rewrite !bool_decide_eq_false_2 by (intros E; by apply E). cbn [when].
    rewrite bind_eq, ret_eq. cbn [res_bind].
    apply (sleep_tail e k1 c i p ch LKptable); auto.
    { unfold may_sleep. by rewrite (core_fs _ _ Hc1), (core_slocks _ _ Hc1). }
    intros k3 c' Hk3 [q Hq] HQ. rewrite bind_eq, (upd_proc_at _ _ _ _ Hq). kred. apply HQ; [by apply holds_set_ps|].
    eexists. cbn. rewrite list_lookup_alter_eq, Hq. done.
  - rewrite !bool_decide_eq_true_2 by done. cbn [when]. rewrite !bind_eq, !wp_bind.
    wp_run (acquire_holds k1 c 1 [lk] LKptable Hk1); [|set_solver|lia].
    intros _ k2 [Hk2 Hc2].
    eapply wp_mono; [|apply wp_runs, (release_holds k2 c 1 [LKptable] lk); [|set_solver|lia]].
    2:{ apply (holds_perm _ _ _ [LKptable; lk]); [set_solver|done]. }
    intros ? k3 [Hk3 Hc3].
    assert (core k3 = core k1) as Hc13 by congruence. assert (core k3 = core k) as Hc by congruence.
    rewrite <- (core_ps _ _ Hc13) in Hp. rewrite <- (core_proc_on c _ _ Hc13) in Hon.
    apply (sleep_tail e k3 c i p ch lk); auto.
    { unfold may_sleep. by rewrite (core_fs _ _ Hc), (core_slocks _ _ Hc). }
    intros k4 c' Hk4 [q Hq] HQ.
    rewrite bind_eq, (upd_proc_at _ _ _ _ Hq). cbn [res_bind].
    wp_run (release_holds (set_k_ps (upd i (set_p_chan None) (k_ps k4)) k4) c' 0 [] LKptable);
      [|by apply holds_set_ps|set_solver|lia].
    intros _ k5 [Hk5 Hc5].
    eapply wp_mono; [|apply wp_runs, (acquire_holds k5 c' 0 [] lk Hk5); [set_solver|lia]].
    intros [] k6 [Hk6 Hc6]. apply HQ; [done|].
    rewrite (core_ps _ _ Hc6), (core_ps _ _ Hc5). eexists. cbn.
    rewrite list_lookup_alter_eq, Hq. done.
Qed.

(** C24. [sleep], called by process [i] with one spin lock held: when it gives the
    CPU away, the process is asleep on the channel and of all locks only the
    process table's is held, the caller's being released after the table's
    was taken; resumed, it returns with exactly the caller's lock held and the
    channel cleared.  No panic, no undefined behaviour. *)
Theorem sleep_protocol k c i ch lk
    (Hk : holds k c 1 [lk]) (Hon : proc_on c k = Some i)
    (Hi : is_Some (procs (k_ps k) !! i)) :
  wp (handover i (asleep i ch)) (sleep ch lk k)
    (fun _ k' => (exists c', holds k' c' 1 [lk]) /\
       exists p, procs (k_ps k') !! i = Some p /\ p_chan p = None).
Proof.
  apply (sleep_wp _ k c i); [done..|]. split.
  - intros k1 Hk1 Ha _ _. split; [by exists c|done].
  - intros k1 k2 (c' & Hk2 & Hon2 & Hp2). exists c'. split; [done|]. split; [done|]. intros k3 Hk3 H3. split; [by exists c'|done].
Qed.

(** Giving the CPU away: asleep on [ch], the rest as it was, never resumed. *)
Definition stuck (i : nat) (ch : chan) (f : F) (sl : gmap slid sleeplock) : env (kernel F) :=
  mkEnv (fun _ k => asleep i ch k /\ k_fs k = f /\ k_slocks k = sl) (fun _ _ _ => False) False.

Lemma sleep_stuck k c i ch lk :
  holds k c 1 [lk] -> proc_on c k = Some i -> is_Some (procs (k_ps k) !! i) ->
  wp (stuck i ch (k_fs k) (k_slocks k)) (sleep ch lk k) (fun _ _ => False).
Proof. intros Hk Hon Hi. apply (sleep_wp _ k c i); [done..|]. by split. Qed.

(** [yield] hands the CPU over with the current process runnable and its time
    charged, the rest as it was. *)
Lemma yield_hands k c i (P : kernel F -> Prop) : holds k c 0 [] -> proc_on c k = Some i -> is_Some (procs (k_ps k) !! i) ->
  (forall k1, core k1 = core (set_k_ps (upd i (fun p => charge_cpu (ticks (k_ps k)) (set_state RUNNABLE p)) (k_ps k)) k) -> P k1) ->
  wp (handover i P) (yield k) (fun _ k' => exists c', holds k' c' 0 []).
Proof.
  intros Hk Hon [p Hp] HP. unfold yield.
  wp_run (acquire_holds k c 0 [] LKptable Hk); [|set_solver|lia]. intros _ k1 [Hk1 Hc1].
  wp_run (myproc_holds k1 c 1 [LKptable] Hk1); [|lia]. intros o k2 (-> & Hk2 & Hc2).
  rewrite (core_proc_on c _ _ Hc1), Hon. cbn [deref]. rewrite bind_eq, ret_eq. cbn [res_bind].
  assert (core k2 = core k) as Hc by congruence.
  rewrite <- (core_ps _ _ Hc) in Hp. rewrite <- (core_proc_on c _ _ Hc) in Hon.
  rewrite bind_eq, (upd_proc_at _ _ _ _ Hp). cbn [res_bind]. rewrite bind_eq, wp_bind.
  apply (sched_holds _ _ c i (set_state RUNNABLE p)); try done.
  { by apply holds_set_ps. }
  { cbn. by rewrite list_lookup_alter_eq, Hp. }
  intros k3 Hk3 Hc3. split.
  - split; [by exists c|]. apply HP. rewrite Hc3. cbn [k_ps set_k_ps]. rewrite upd_upd, set_ps_twice, !core_set_ps, Hc, (core_ps _ _ Hc). done.
  - intros k4 (c' & Hk4 & Hon4 & Hp4). exists c'. split; [done|]. intros k5 Hk5 Hc5.
    eapply wp_mono; [|apply wp_runs, (release_holds k5 c' 0 [] LKptable); [done|set_solver|lia]].
    intros _ k6 [Hk6 _]. by exists c'.
Qed.

(** [yield], called by the current process with no lock held, gives the CPU
    away once, runnable and with only the process table's lock held, and
    returns with no lock held. *)
Theorem yield_protocol k c i
    (Hk : holds k c 0 []) (Hon : proc_on c k = Some i) (Hi : is_Some (procs (k_ps k) !! i)) :
  wp (handover i (fun k1 => in_state (k_ps k1) i RUNNABLE)) (yield k)
    (fun _ k' => exists c', holds k' c' 0 []).
Proof.
  apply (yield_hands k c i); [done..|]. intros k1 Hc1. rewrite (core_ps _ _ Hc1). cbn [k_ps set_k_ps]. destruct Hi as [p Hp].
  by eapply in_state_upd.
Qed.
End SleepWake.

(** ** Instances *)

Lemma wakeup_wakes_witness :
  runs (wakeup ChTicks) kernel0 (fun _ k' => holds k' 0 0 [] /\
    procs (k_ps k') = woken (Some ChTicks) 0 <$> procs ps0 /\
    (nextpid (k_ps k'), initproc (k_ps k'), ticks (k_ps k'), g_seed (k_ps k')) = (1, None, 0, 0) /\
    k_ms k' = k_ms kernel0 /\ k_fs k' = tt).
Proof.
  apply (wakeup_wakes kernel0 0 0 [] ChTicks kernel0_holds (not_elem_of_nil _) ltac:(lia) eq_refl).
Defined.

Lemma sleep_protocol_witness :
  wp (handover 1 (asleep 1 ChTicks)) (sleep ChTicks LKtick (kernel_running 1 tick_locked))
    (fun _ k' => (exists c', holds k' c' 1 [LKtick]) /\
       exists p, procs (k_ps k') !! 1%nat = Some p /\ p_chan p = None).
Proof.
  apply (sleep_protocol (kernel_running 1 tick_locked) 0 1 ChTicks LKtick kernel_running_tick eq_refl).
  by eexists.
Defined.

Lemma yield_protocol_witness :
  wp (handover 1 (fun k1 => in_state (k_ps k1) 1 RUNNABLE)) (yield (kernel_running 0 ∅))
    (fun _ k' => exists c', holds k' c' 0 []).
Proof.
  apply (yield_protocol (kernel_running 0 ∅) 0 1 kernel_running_holds eq_refl). by eexists.
Defined.
