(* ===== verification/FsState.v ===== *)
(** * State of the file system

    The disk, the buffer cache, the log, the inode cache, the file table and
    the pipes.  Pointers to buffers, inodes and files are indices into their
    arrays; the head of the buffer list is the buffer [NBUF], after the array's
    own.  A pipe is identified by the address of the page it lives in. *)

From S2P Require Import Prelude Params State.

(** ** Blocks *)

(* buf.h 1-11: buf *)
Record buf : Type := mkBuf {
  b_flags : Z;
  b_dev : Z;
  b_blockno : Z;
  b_refcnt : Z;
  b_prev : nat;
  b_next : nat;
  b_qnext : option nat;
  b_data : list Z
}.

Definition set_b_flags (v : Z) (r : buf) : buf :=
  mkBuf v (b_dev r) (b_blockno r) (b_refcnt r) (b_prev r) (b_next r) (b_qnext r)
    (b_data r).

Definition set_b_dev (v : Z) (r : buf) : buf :=
  mkBuf (b_flags r) v (b_blockno r) (b_refcnt r) (b_prev r) (b_next r) (b_qnext r)
    (b_data r).

Definition set_b_blockno (v : Z) (r : buf) : buf :=
  mkBuf (b_flags r) (b_dev r) v (b_refcnt r) (b_prev r) (b_next r) (b_qnext r) (b_data r).

Definition set_b_refcnt (v : Z) (r : buf) : buf :=
  mkBuf (b_flags r) (b_dev r) (b_blockno r) v (b_prev r) (b_next r) (b_qnext r) (b_data r).

Definition set_b_prev (v : nat) (r : buf) : buf :=
  mkBuf (b_flags r) (b_dev r) (b_blockno r) (b_refcnt r) v (b_next r) (b_qnext r)
    (b_data r).

Definition set_b_next (v : nat) (r : buf) : buf :=
  mkBuf (b_flags r) (b_dev r) (b_blockno r) (b_refcnt r) (b_prev r) v (b_qnext r)
    (b_data r).

Definition set_b_qnext (v : option nat) (r : buf) : buf :=
  mkBuf (b_flags r) (b_dev r) (b_blockno r) (b_refcnt r) (b_prev r) (b_next r) v
    (b_data r).

Definition set_b_data (v : list Z) (r : buf) : buf :=
  mkBuf (b_flags r) (b_dev r) (b_blockno r) (b_refcnt r) (b_prev r) (b_next r) (b_qnext r)
    v.

(* log.c 34-37: logheader *)
Record logheader : Type := mkLh {
  lh_n : Z;
  lh_block : list Z
}.

Definition set_lh_n (v : Z) (r : logheader) : logheader :=
  mkLh v (lh_block r).

Definition set_lh_block (v : list Z) (r : logheader) : logheader :=
  mkLh (lh_n r) v.

(* log.c 39-47: log *)
Record logst : Type := mkLog {
  lg_start : Z;
  lg_size : Z;
  lg_outstanding : Z;
  lg_committing : Z;
  lg_dev : Z;
  lg_lh : logheader
}.

Definition set_lg_start (v : Z) (r : logst) : logst :=
  mkLog v (lg_size r) (lg_outstanding r) (lg_committing r) (lg_dev r) (lg_lh r).

Definition set_lg_size (v : Z) (r : logst) : logst :=
  mkLog (lg_start r) v (lg_outstanding r) (lg_committing r) (lg_dev r) (lg_lh r).

Definition set_lg_outstanding (v : Z) (r : logst) : logst :=
  mkLog (lg_start r) (lg_size r) v (lg_committing r) (lg_dev r) (lg_lh r).

Definition set_lg_committing (v : Z) (r : logst) : logst :=
  mkLog (lg_start r) (lg_size r) (lg_outstanding r) v (lg_dev r) (lg_lh r).

Definition set_lg_dev (v : Z) (r : logst) : logst :=
  mkLog (lg_start r) (lg_size r) (lg_outstanding r) (lg_committing r) v (lg_lh r).

Definition set_lg_lh (v : logheader) (r : logst) : logst :=
  mkLog (lg_start r) (lg_size r) (lg_outstanding r) (lg_committing r) (lg_dev r) v.

(** ** Inodes and files *)

(* fs.h 14-22: superblock *)
Record superblock : Type := mkSb {
  sb_size : Z;
  sb_nblocks : Z;
  sb_ninodes : Z;
  sb_nlog : Z;
  sb_logstart : Z;
  sb_inodestart : Z;
  sb_bmapstart : Z
}.

Definition set_sb_size (v : Z) (r : superblock) : superblock :=
  mkSb v (sb_nblocks r) (sb_ninodes r) (sb_nlog r) (sb_logstart r) (sb_inodestart r)
    (sb_bmapstart r).

Definition set_sb_nblocks (v : Z) (r : superblock) : superblock :=
  mkSb (sb_size r) v (sb_ninodes r) (sb_nlog r) (sb_logstart r) (sb_inodestart r)
    (sb_bmapstart r).

Definition set_sb_ninodes (v : Z) (r : superblock) : superblock :=
  mkSb (sb_size r) (sb_nblocks r) v (sb_nlog r) (sb_logstart r) (sb_inodestart r)
    (sb_bmapstart r).

Definition set_sb_nlog (v : Z) (r : superblock) : superblock :=
  mkSb (sb_size r) (sb_nblocks r) (sb_ninodes r) v (sb_logstart r) (sb_inodestart r)
    (sb_bmapstart r).

Definition set_sb_logstart (v : Z) (r : superblock) : superblock :=
  mkSb (sb_size r) (sb_nblocks r) (sb_ninodes r) (sb_nlog r) v (sb_inodestart r)
    (sb_bmapstart r).

Definition set_sb_inodestart (v : Z) (r : superblock) : superblock :=
  mkSb (sb_size r) (sb_nblocks r) (sb_ninodes r) (sb_nlog r) (sb_logstart r) v
    (sb_bmapstart r).

Definition set_sb_bmapstart (v : Z) (r : superblock) : superblock :=
  mkSb (sb_size r) (sb_nblocks r) (sb_ninodes r) (sb_nlog r) (sb_logstart r)
    (sb_inodestart r) v.

(* fs.h 29-36: dinode *)
Record dinode : Type := mkDinode {
  d_type : Z;
  d_major : Z;
  d_minor : Z;
  d_nlink : Z;
  d_size : Z;
  d_addrs : list Z
}.

Definition set_d_type (v : Z) (r : dinode) : dinode :=
  mkDinode v (d_major r) (d_minor r) (d_nlink r) (d_size r) (d_addrs r).

Definition set_d_major (v : Z) (r : dinode) : dinode :=
  mkDinode (d_type r) v (d_minor r) (d_nlink r) (d_size r) (d_addrs r).

Definition set_d_minor (v : Z) (r : dinode) : dinode :=
  mkDinode (d_type r) (d_major r) v (d_nlink r) (d_size r) (d_addrs r).

Definition set_d_nlink (v : Z) (r : dinode) : dinode :=
  mkDinode (d_type r) (d_major r) (d_minor r) v (d_size r) (d_addrs r).

Definition set_d_size (v : Z) (r : dinode) : dinode :=
  mkDinode (d_type r) (d_major r) (d_minor r) (d_nlink r) v (d_addrs r).

Definition set_d_addrs (v : list Z) (r : dinode) : dinode :=
  mkDinode (d_type r) (d_major r) (d_minor r) (d_nlink r) (d_size r) v.

(** The sleep lock is the lock [SLinode]. *)
(* file.h 13-26: inode *)
Record inode : Type := mkInode {
  i_dev : Z;
  i_inum : Z;
  i_ref : Z;
  i_valid : Z;
  i_type : Z;
  i_major : Z;
  i_minor : Z;
  i_nlink : Z;
  i_size : Z;
  i_addrs : list Z
}.

Definition set_i_dev (v : Z) (r : inode) : inode :=
  mkInode v (i_inum r) (i_ref r) (i_valid r) (i_type r) (i_major r) (i_minor r)
    (i_nlink r) (i_size r) (i_addrs r).

Definition set_i_inum (v : Z) (r : inode) : inode :=
  mkInode (i_dev r) v (i_ref r) (i_valid r) (i_type r) (i_major r) (i_minor r) (i_nlink r)
    (i_size r) (i_addrs r).

Definition set_i_ref (v : Z) (r : inode) : inode :=
  mkInode (i_dev r) (i_inum r) v (i_valid r) (i_type r) (i_major r) (i_minor r)
    (i_nlink r) (i_size r) (i_addrs r).

Definition set_i_valid (v : Z) (r : inode) : inode :=
  mkInode (i_dev r) (i_inum r) (i_ref r) v (i_type r) (i_major r) (i_minor r) (i_nlink r)
    (i_size r) (i_addrs r).

Definition set_i_type (v : Z) (r : inode) : inode :=
  mkInode (i_dev r) (i_inum r) (i_ref r) (i_valid r) v (i_major r) (i_minor r) (i_nlink r)
    (i_size r) (i_addrs r).

Definition set_i_major (v : Z) (r : inode) : inode :=
  mkInode (i_dev r) (i_inum r) (i_ref r) (i_valid r) (i_type r) v (i_minor r) (i_nlink r)
    (i_size r) (i_addrs r).

Definition set_i_minor (v : Z) (r : inode) : inode :=
  mkInode (i_dev r) (i_inum r) (i_ref r) (i_valid r) (i_type r) (i_major r) v (i_nlink r)
    (i_size r) (i_addrs r).

Definition set_i_nlink (v : Z) (r : inode) : inode :=
  mkInode (i_dev r) (i_inum r) (i_ref r) (i_valid r) (i_type r) (i_major r) (i_minor r) v
    (i_size r) (i_addrs r).

Definition set_i_size (v : Z) (r : inode) : inode :=
  mkInode (i_dev r) (i_inum r) (i_ref r) (i_valid r) (i_type r) (i_major r) (i_minor r)
    (i_nlink r) v (i_addrs r).

Definition set_i_addrs (v : list Z) (r : inode) : inode :=
  mkInode (i_dev r) (i_inum r) (i_ref r) (i_valid r) (i_type r) (i_major r) (i_minor r)
    (i_nlink r) (i_size r) v.

(* file.h 2-2: type *)
Inductive ftype : Type :=
| FD_NONE | FD_PIPE | FD_INODE.

#[export] Instance ftype_eq_dec : EqDecision ftype.
Proof. solve_decision. Defined.

(* file.h 1-9: file *)
Record file : Type := mkFile {
  f_type : ftype;
  f_ref : Z;
  f_readable : Z;
  f_writable : Z;
  f_pipe : option Z;
  f_ip : option nat;
  f_off : Z
}.

Definition set_f_type (v : ftype) (r : file) : file :=
  mkFile v (f_ref r) (f_readable r) (f_writable r) (f_pipe r) (f_ip r) (f_off r).

Definition set_f_ref (v : Z) (r : file) : file :=
  mkFile (f_type r) v (f_readable r) (f_writable r) (f_pipe r) (f_ip r) (f_off r).

Definition set_f_readable (v : Z) (r : file) : file :=
  mkFile (f_type r) (f_ref r) v (f_writable r) (f_pipe r) (f_ip r) (f_off r).

Definition set_f_writable (v : Z) (r : file) : file :=
  mkFile (f_type r) (f_ref r) (f_readable r) v (f_pipe r) (f_ip r) (f_off r).

Definition set_f_pipe (v : option Z) (r : file) : file :=
  mkFile (f_type r) (f_ref r) (f_readable r) (f_writable r) v (f_ip r) (f_off r).

Definition set_f_ip (v : option nat) (r : file) : file :=
  mkFile (f_type r) (f_ref r) (f_readable r) (f_writable r) (f_pipe r) v (f_off r).

Definition set_f_off (v : Z) (r : file) : file :=
  mkFile (f_type r) (f_ref r) (f_readable r) (f_writable r) (f_pipe r) (f_ip r) v.

(** The spin lock is the lock [LKpipe]. *)
(* pipe.c 13-20: pipe *)
Record pipe : Type := mkPipe {
  p_data : list Z;
  p_nread : Z;
  p_nwrite : Z;
  p_readopen : Z;
  p_writeopen : Z
}.

Definition set_p_data (v : list Z) (r : pipe) : pipe :=
  mkPipe v (p_nread r) (p_nwrite r) (p_readopen r) (p_writeopen r).

Definition set_p_nread (v : Z) (r : pipe) : pipe :=
  mkPipe (p_data r) v (p_nwrite r) (p_readopen r) (p_writeopen r).

Definition set_p_nwrite (v : Z) (r : pipe) : pipe :=
  mkPipe (p_data r) (p_nread r) v (p_readopen r) (p_writeopen r).

Definition set_p_readopen (v : Z) (r : pipe) : pipe :=
  mkPipe (p_data r) (p_nread r) (p_nwrite r) v (p_writeopen r).

Definition set_p_writeopen (v : Z) (r : pipe) : pipe :=
  mkPipe (p_data r) (p_nread r) (p_nwrite r) (p_readopen r) v.

(** The functions that drivers put into [devsw]. *)
Inductive devfn : Type :=
| Dconsoleread | Dconsolewrite.

(** A command given to the disk controller: drive, block, and the data of a
    write. *)
Record idecmd : Type := mkCmd {
  cmd_drive : Z;
  cmd_block : Z;
  cmd_write : option (list Z)
}.

(** Disk blocks by drive and number, the driver, the caches and tables. *)
Record fstate : Type := mkFs {
  disk : gmap (Z * Z) (list Z);
  disksize : Z;
  ide_cmd : option idecmd;
  ide_data : list Z;
  ide_err : bool;
  idequeue : option nat;
  havedisk1 : Z;
  bufs : list buf;
  lg : logst;
  sb : superblock;
  inodes : list inode;
  files : list file;
  devsw : list (option devfn * option devfn);
  pipes : gmap Z pipe
}.

Definition set_disk (v : gmap (Z * Z) (list Z)) (r : fstate) : fstate :=
  mkFs v (disksize r) (ide_cmd r) (ide_data r) (ide_err r) (idequeue r) (havedisk1 r)
    (bufs r) (lg r) (sb r) (inodes r) (files r) (devsw r) (pipes r).

Definition set_disksize (v : Z) (r : fstate) : fstate :=
  mkFs (disk r) v (ide_cmd r) (ide_data r) (ide_err r) (idequeue r) (havedisk1 r) (bufs r)
    (lg r) (sb r) (inodes r) (files r) (devsw r) (pipes r).

Definition set_ide_cmd (v : option idecmd) (r : fstate) : fstate :=
  mkFs (disk r) (disksize r) v (ide_data r) (ide_err r) (idequeue r) (havedisk1 r)
    (bufs r) (lg r) (sb r) (inodes r) (files r) (devsw r) (pipes r).

Definition set_ide_data (v : list Z) (r : fstate) : fstate :=
  mkFs (disk r) (disksize r) (ide_cmd r) v (ide_err r) (idequeue r) (havedisk1 r) (bufs r)
    (lg r) (sb r) (inodes r) (files r) (devsw r) (pipes r).

Definition set_ide_err (v : bool) (r : fstate) : fstate :=
  mkFs (disk r) (disksize r) (ide_cmd r) (ide_data r) v (idequeue r) (havedisk1 r)
    (bufs r) (lg r) (sb r) (inodes r) (files r) (devsw r) (pipes r).

Definition set_idequeue (v : option nat) (r : fstate) : fstate :=
  mkFs (disk r) (disksize r) (ide_cmd r) (ide_data r) (ide_err r) v (havedisk1 r) (bufs r)
    (lg r) (sb r) (inodes r) (files r) (devsw r) (pipes r).

Definition set_havedisk1 (v : Z) (r : fstate) : fstate :=
  mkFs (disk r) (disksize r) (ide_cmd r) (ide_data r) (ide_err r) (idequeue r) v (bufs r)
    (lg r) (sb r) (inodes r) (files r) (devsw r) (pipes r).

Definition set_bufs (v : list buf) (r : fstate) : fstate :=
  mkFs (disk r) (disksize r) (ide_cmd r) (ide_data r) (ide_err r) (idequeue r)
    (havedisk1 r) v (lg r) (sb r) (inodes r) (files r) (devsw r) (pipes r).

Definition set_lg (v : logst) (r : fstate) : fstate :=
  mkFs (disk r) (disksize r) (ide_cmd r) (ide_data r) (ide_err r) (idequeue r)
    (havedisk1 r) (bufs r) v (sb r) (inodes r) (files r) (devsw r) (pipes r).

Definition set_sb (v : superblock) (r : fstate) : fstate :=
  mkFs (disk r) (disksize r) (ide_cmd r) (ide_data r) (ide_err r) (idequeue r)
    (havedisk1 r) (bufs r) (lg r) v (inodes r) (files r) (devsw r) (pipes r).

Definition set_inodes (v : list inode) (r : fstate) : fstate :=
  mkFs (disk r) (disksize r) (ide_cmd r) (ide_data r) (ide_err r) (idequeue r)
    (havedisk1 r) (bufs r) (lg r) (sb r) v (files r) (devsw r) (pipes r).

Definition set_files (v : list file) (r : fstate) : fstate :=
  mkFs (disk r) (disksize r) (ide_cmd r) (ide_data r) (ide_err r) (idequeue r)
    (havedisk1 r) (bufs r) (lg r) (sb r) (inodes r) v (devsw r) (pipes r).

Definition set_devsw (v : list (option devfn * option devfn)) (r : fstate) : fstate :=
  mkFs (disk r) (disksize r) (ide_cmd r) (ide_data r) (ide_err r) (idequeue r)
    (havedisk1 r) (bufs r) (lg r) (sb r) (inodes r) (files r) v (pipes r).

Definition set_pipes (v : gmap Z pipe) (r : fstate) : fstate :=
  mkFs (disk r) (disksize r) (ide_cmd r) (ide_data r) (ide_err r) (idequeue r)
    (havedisk1 r) (bufs r) (lg r) (sb r) (inodes r) (files r) (devsw r) v.

(** ** Access to the state *)

(** The kernel with its file system. *)
Definition K : Type := kernel fstate.

Definition on_fs (f : fstate -> fstate) : M K unit :=
  modify (fun k => set_k_fs (f (k_fs k)) k).

Definition get_fs {A} (f : fstate -> A) : M K A := gets (fun k => f (k_fs k)).

Definition get_buf (i : nat) : M K buf :=
  l <- get_fs bufs ;; deref "buf" (l !! i).

Definition upd_buf (i : nat) (f : buf -> buf) : M K unit :=
  get_buf i ;; on_fs (fun s => set_bufs (alter f i (bufs s)) s).

Definition get_inode (i : nat) : M K inode :=
  l <- get_fs inodes ;; deref "inode" (l !! i).

Definition upd_inode (i : nat) (f : inode -> inode) : M K unit :=
  get_inode i ;; on_fs (fun s => set_inodes (alter f i (inodes s)) s).

Definition get_file (i : nat) : M K file :=
  l <- get_fs files ;; deref "file" (l !! i).

Definition upd_file (i : nat) (f : file -> file) : M K unit :=
  get_file i ;; on_fs (fun s => set_files (alter f i (files s)) s).

Definition get_pipe (p : Z) : M K pipe :=
  m <- get_fs pipes ;; deref "pipe" (m !! p).

Definition upd_pipe (p : Z) (f : pipe -> pipe) : M K unit :=
  get_pipe p ;; on_fs (fun s => set_pipes (alter f p (pipes s)) s).

Definition get_log : M K logst := get_fs lg.

Definition upd_log (f : logst -> logst) : M K unit := on_fs (fun s => set_lg (f (lg s)) s).

(** The number of times a loop that waits for something to happen is followed:
    the loops that sleep until a condition holds have no bound of their own. *)
Class Fuel : Type := waits : nat.

Definition fuel {FU : Fuel} : nat := S waits.
