(* ===== verification/DemoFs.v ===== *)
(** * The small machine with a file system

    The state of Demo.v with empty file tables, a buffer cache as [binit] leaves
    it, and a small disk: super block, log, inodes, bitmap and data. *)

From S2P Require Import Prelude Params State Spinlock Demo FsState.

(** Buffers in a ring through the head [NBUF]: each one's successor is the one
    before it in the array. *)
Definition buf0 (i : nat) : buf :=
  mkBuf 0 0 0 0 (match i with 30%nat => 0%nat | _ => S i end)
    (match i with 0%nat => 30%nat | S j => j end) None (replicate 512 0).

Definition log0 : logst := mkLog 2 30 0 0 1 (mkLh 0 (replicate 30 0)).

(** A file system of 100 blocks: 3 blocks of inodes and one of bitmap. *)
Definition sb0 : superblock := mkSb 100 64 16 30 2 32 35.

Definition inode0 : inode := mkInode 0 0 0 0 0 0 0 0 0 (replicate 13 0).

Definition file0 : file := mkFile FD_NONE 0 0 0 None None 0.

Definition fs0 : fstate :=
  mkFs ∅ 100 None [] false None 1 (buf0 <$> seq 0 31) log0 sb0 (replicate 50 inode0) (replicate 100 file0)
    (replicate 10 (None, None)) ∅.

Definition kernel_fs (k : kernel unit) (s : fstate) : K :=
  mkK (k_hw k) (k_locks k) (k_slocks k) (k_ps k) (k_ms k) (k_cons k) s.

(** Loops that wait may be entered a hundred times. *)
#[export] Instance demo_fuel : Fuel := 100%nat.
