(* ===== verification/Sleeplock.v ===== *)
(** * Sleep locks (sleeplock.c)

    Long-term locks: a process that finds the lock taken sleeps on it. *)

From S2P Require Import Prelude Params State Spinlock Seg Proc FsState.

Section Sleeplock.
  Context {LK : Linker} {FU : Fuel}.

(* sleeplock.c 13-20: initsleeplock *)
Definition initsleeplock (l : slid) (nm : string) : M K unit :=
  initlock (LKsleep l) "sleep lock" ;;
  put_slock l (mkSleeplock 0 nm 0).

(** [myproc()->pid] *)
Definition my_pid : M K Z :=
  op <- myproc ;;
  i <- deref "myproc()" op ;;
  p <- get_proc i ;;
  ret (pid p).

(* sleeplock.c 22-32: acquiresleep *)
Definition acquiresleep (l : slid) : M K unit :=
  acquire (LKsleep l) ;;
  while fuel (s <- get_slock l ;; ret (nz (sl_locked s))) (sleep (ChSleep l) (LKsleep l)) ;;
  s <- get_slock l ;;
  put_slock l (set_sl_locked 1 s) ;;
  p <- my_pid ;;
  s <- get_slock l ;;
  put_slock l (set_sl_pid p s) ;;
  release (LKsleep l).

(* sleeplock.c 34-42: releasesleep *)
Definition releasesleep (l : slid) : M K unit :=
  acquire (LKsleep l) ;;
  s <- get_slock l ;;
  put_slock l (set_sl_pid 0 (set_sl_locked 0 s)) ;;
  wakeup (ChSleep l) ;;
  release (LKsleep l).

(* sleeplock.c 44-53: holdingsleep *)
Definition holdingsleep (l : slid) : M K bool :=
  acquire (LKsleep l) ;;
  s <- get_slock l ;;
  r <- (if nz (sl_locked s) then p <- my_pid ;; ret (sl_pid s =? p) else ret false) ;;
  release (LKsleep l) ;;
  ret r.

End Sleeplock.
