(* ===== verification/SleeplockSpec.v ===== *)
(** * Sleep locks of one process

    What the sleep-lock routines do for a process that finds no contention: it
    takes, tests and releases locks without giving the CPU away. *)

From S2P Require Import Prelude Params State Spinlock Seg Proc ProcSpec ProcRefine SleepWake FsState Sleeplock.

(** Process [q] in slot [i] executes on CPU [c] and holds no spin lock. *)
Record me (k : K) (c i : nat) (q : Z) : Prop := {
  me_holds : holds k c 0 [];
  me_on : proc_on c k = Some i;
  me_proc : exists p, procs (k_ps k) !! i = Some p /\ pid p = q;
  me_len : length (procs (k_ps k)) = 64%nat
}.

Definition slock (k : K) (l : slid) : sleeplock := default sleeplock0 (k_slocks k !! l).

(** The caller goes on, and memory and the console are as before. *)
Definition goes_on (c i : nat) (q : Z) (k k' : K) : Prop :=
  me k' c i q /\ k_ms k' = k_ms k /\ k_cons k' = k_cons k.

Section SleeplockSpec.
Context {LK : Linker} {FU : Fuel}.
Implicit Types (k : K).

Lemma goes_on_refl c i q k : me k c i q -> goes_on c i q k k.
Proof. done. Qed.

Lemma goes_on_trans c i q k1 k2 k3 : goes_on c i q k1 k2 -> goes_on c i q k2 k3 -> goes_on c i q k1 k3.
Proof. intros (_ & H1 & H2) (H3 & H4 & H5). split; [done|]. split; congruence. Qed.

(** Changes of the file system and of the sleep locks. *)
Lemma me_fs k c i q f : me k c i q -> me (set_k_fs f k) c i q.
Proof. intros [H1 H2 H3 H4]. split; [by eapply holds_ext; [..|exact H1]|done..]. Qed.

Lemma me_slocks k c i q f : me k c i q -> me (set_k_slocks f k) c i q.
Proof. intros [H1 H2 H3 H4]. split; [by eapply holds_ext; [..|exact H1]|done..]. Qed.

Lemma me_core k k' c i q : holds k' c 0 [] -> core k' = core k -> me k c i q -> me k' c i q.
Proof.
  intros Hk' Hc [H1 H2 H3 H4]. split; [done|by rewrite (core_proc_on _ _ _ Hc)|..]; by rewrite (core_ps _ _ Hc).
Qed.

Lemma goes_on_core k k' c i q : holds k' c 0 [] -> core k' = core k -> me k c i q -> goes_on c i q k k'.
Proof.
  intros Hk' Hc Hm. split; [by eapply me_core|]. by rewrite (core_ms _ _ Hc), (core_cons _ _ Hc).
Qed.

(** The caller's id, under locks. *)
Lemma my_pid_holds k c i q n H :
  holds k c n H -> n < 2 ^ 30 - 1 -> proc_on c k = Some i ->
  (exists p, procs (k_ps k) !! i = Some p /\ pid p = q) ->
  runs my_pid k (fun r k' => r = q /\ holds k' c n H /\ core k' = core k).
Proof.
  intros Hk Hn Hon (p & Hp & Hq). unfold runs, my_pid. wp_call (myproc_holds k c n H Hk Hn).
  intros o k1 (-> & Hk1 & Hc1). rewrite Hon. kred. unfold get_proc. kred.
  rewrite (core_ps _ _ Hc1), Hp. kred. done.
Qed.

(** Taking a free lock does not wait. *)
Lemma acquiresleep_free k c i q l :
  me k c i q -> sl_locked (slock k l) = 0 ->
  runs (acquiresleep l) k (fun _ k' => goes_on c i q k k' /\ k_fs k' = k_fs k /\
    k_slocks k' = <[l := mkSleeplock 1 (sl_name (slock k l)) q]> (k_slocks k)).
Proof.
  intros Hm Hl. pose proof Hm as [Hk Hon Hp Hlen]. unfold runs, acquiresleep.
  wp_call (acquire_holds k c 0 [] (LKsleep l) Hk (not_elem_of_nil _)); [|lia]. intros _ k1 [Hk1 Hc1].
  assert (slock k1 l = slock k l) as El by (unfold slock; by rewrite (core_slocks _ _ Hc1)).
  unfold fuel at 1. rewrite bind_eq, (while_done waits _ _ k1 k1).
  2:{ unfold get_slock. kred. fold (slock k1 l). by rewrite El, Hl. }
  cbn [res_bind]. unfold get_slock at 1. kred. fold (slock k1 l). rewrite El.
  unfold put_slock at 1. kred. set (k2 := set_k_slocks _ k1).
  assert (holds k2 c 1 [LKsleep l]) as Hk2 by (by eapply holds_ext; [..|exact Hk1]).
  wp_call (my_pid_holds k2 c i q 1 [LKsleep l] Hk2); [|lia| |].
  2:{ unfold k2. by rewrite <- (core_proc_on c _ _ Hc1) in Hon. }
  2:{ unfold k2. simpl. by rewrite (core_ps _ _ Hc1). }
  intros r k3 (-> & Hk3 & Hc3). unfold get_slock, put_slock. kred. set (k4 := set_k_slocks _ k3).
  assert (holds k4 c (0 + 1) [LKsleep l]) as Hk4 by (by eapply holds_ext; [..|exact Hk3]).
  eapply wp_mono; [|apply (release_holds k4 c 0 [] (LKsleep l) Hk4); [apply not_elem_of_nil|lia]].
  intros _ k5 [Hk5 Hc5]. unfold k4 in Hc5. rewrite core_set_slocks, Hc3 in Hc5. unfold k2 in Hc5.
  rewrite core_set_slocks, Hc1 in Hc5.
  set (g := <[l := _]> _) in Hc5. assert (core k5 = core (set_k_slocks g k)) as Hc by exact Hc5.
  split; [|split; [by rewrite (core_fs _ _ Hc)|]].
  - eapply goes_on_core in Hc as (? & ? & ?); [|done|by apply me_slocks]. done.
  - rewrite (core_slocks _ _ Hc). simpl. unfold g. rewrite (core_slocks _ _ Hc3). unfold k2. simpl.
    rewrite lookup_insert_eq. simpl. rewrite insert_insert_eq. by rewrite (core_slocks _ _ Hc1).
Qed.

(** Taking a lock that is taken waits for it. *)
Lemma acquiresleep_waits k c i q l :
  me k c i q -> sl_locked (slock k l) <> 0 ->
  wp (stuck i (ChSleep l) (k_fs k) (k_slocks k)) (acquiresleep l k) (fun _ _ => False).
Proof.
  intros Hm Hl. pose proof Hm as [Hk Hon Hp Hlen]. unfold acquiresleep. rewrite bind_eq, wp_bind.
  eapply wp_mono; [|apply wp_runs, (acquire_holds k c 0 [] (LKsleep l) Hk (not_elem_of_nil _)); lia]. intros _ k1 [Hk1 Hc1].
  assert (slock k1 l = slock k l) as El by (unfold slock; by rewrite (core_slocks _ _ Hc1)).
  rewrite bind_eq, wp_bind. unfold fuel, get_slock at 1. unfold while; fold @while. kred. fold (slock k1 l). rewrite El. unfold nz. rewrite (proj2 (Z.eqb_neq _ _) Hl). cbn [negb]. cbn match.
  rewrite bind_eq, wp_bind. rewrite <-(core_fs _ _ Hc1), <-(core_slocks _ _ Hc1).
  eapply wp_mono; [|apply (sleep_stuck k1 c i (ChSleep l) (LKsleep l) Hk1)]; [done|by rewrite (core_proc_on c _ _ Hc1)|].
  destruct Hp as (p & Hp & _). rewrite (core_ps _ _ Hc1). by exists p.
Qed.

(** The holder of a lock finds that it is. *)
Lemma holdingsleep_mine k c i q l :
  me k c i q -> sl_locked (slock k l) <> 0 -> sl_pid (slock k l) = q ->
  runs (holdingsleep l) k (fun r k' => r = true /\ goes_on c i q k k' /\ k_fs k' = k_fs k /\ k_slocks k' = k_slocks k).
Proof.
  intros Hm Hl Hq. pose proof Hm as [Hk Hon Hp Hlen]. unfold runs, holdingsleep.
  wp_call (acquire_holds k c 0 [] (LKsleep l) Hk (not_elem_of_nil _)); [|lia]. intros _ k1 [Hk1 Hc1].
  assert (slock k1 l = slock k l) as El by (unfold slock; by rewrite (core_slocks _ _ Hc1)).
  unfold get_slock. kred. fold (slock k1 l). rewrite El.
  replace (nz (sl_locked (slock k l))) with true by (unfold nz; destruct (sl_locked (slock k l) =? 0) eqn:E; [lia|done]).
  rewrite bind_eq, wp_bind, wp_bind.
  eapply wp_mono; [|apply (my_pid_holds k1 c i q 1 [LKsleep l] Hk1); [lia|..]].
  - intros r k2 (-> & Hk2 & Hc2). kred. cbn [wp]. rewrite bind_eq, wp_bind.
    eapply wp_mono; [|apply (release_holds k2 c 0 [] (LKsleep l) Hk2); [apply not_elem_of_nil|lia]].
    intros _ k3 [Hk3 Hc3]. kred. assert (core k3 = core k) as Hc by congruence.
    split; [by rewrite Hq, Z.eqb_refl|]. split; [by apply goes_on_core|].
    by rewrite (core_fs _ _ Hc), (core_slocks _ _ Hc).
  - by rewrite <- (core_proc_on c _ _ Hc1) in Hon.
  - by rewrite (core_ps _ _ Hc1).
Qed.

(** The end of a critical section: sleepers are woken and the lock is
    released.  The changes made before, those of [kx], are kept. *)
Lemma wake_release k kx c i q l ch :
  holds k c 1 [l] -> core k = core kx -> me kx c i q -> l <> LKptable ->
  runs (wakeup ch ;; release l) k (fun _ k' => goes_on c i q kx k' /\ k_fs k' = k_fs kx /\ k_slocks k' = k_slocks kx /\
    procs (k_ps k') = woken (Some ch) (ticks (k_ps kx)) <$> procs (k_ps kx)).
Proof.
  intros Hk Hc [Hkx Hon (p & Hp & Hq) Hlen] Hl. unfold runs.
  wp_call (wakeup_holds k c 1 [l] ch Hk); [|set_solver|lia|by rewrite (core_ps _ _ Hc)].
  intros _ k1 (Hk1 & t & Hc1). rewrite core_set_ps, Hc, <- core_set_ps, (core_ps _ _ Hc) in Hc1.
  eapply wp_mono; [|apply (release_holds k1 c 0 [] l Hk1); [apply not_elem_of_nil|lia]]. intros _ k2 [Hk2 Hc2].
  rewrite Hc1 in Hc2. set (ps := set_totalTicketCount _ _) in Hc2.
  rewrite (core_fs _ _ Hc2), (core_slocks _ _ Hc2), (core_ps _ _ Hc2). split; [|done].
  split; [|by rewrite (core_ms _ _ Hc2), (core_cons _ _ Hc2)]. eapply me_core; [done|exact Hc2|]. split.
  - by eapply holds_ext; [..|exact Hkx].
  - done.
  - exists (woken (Some ch) (ticks (k_ps kx)) p). unfold ps. simpl. rewrite list_lookup_fmap, Hp.
    split; [done|]. unfold woken. by case_decide.
  - unfold ps. simpl. by rewrite length_fmap.
Qed.

(** Releasing a lock leaves it free. *)
Lemma releasesleep_frees k c i q l :
  me k c i q ->
  runs (releasesleep l) k (fun _ k' => goes_on c i q k k' /\ k_fs k' = k_fs k /\
    k_slocks k' = <[l := mkSleeplock 0 (sl_name (slock k l)) 0]> (k_slocks k)).
Proof.
  intros Hm. pose proof Hm as [Hk Hon Hp Hlen]. unfold runs, releasesleep.
  wp_call (acquire_holds k c 0 [] (LKsleep l) Hk (not_elem_of_nil _)); [|lia]. intros _ k1 [Hk1 Hc1].
  assert (slock k1 l = slock k l) as El by (unfold slock; by rewrite (core_slocks _ _ Hc1)).
  unfold get_slock, put_slock. kred. fold (slock k1 l). rewrite El, (core_slocks _ _ Hc1).
  set (g := <[l := _]> _).
  eapply wp_mono; [|apply (wake_release _ (set_k_slocks g k) c i q (LKsleep l) (ChSleep l))].
  - intros _ k2 (Hg & Ef & Es & _). by split.
  - by eapply holds_ext; [..|exact Hk1].
  - by rewrite !core_set_slocks, Hc1.
  - by apply me_slocks.
  - done.
Qed.

End SleeplockSpec.
