(* ===== verification/Ring.v ===== *)
(** * Doubly linked lists through arrays

    The buffer cache keeps its buffers on a circular list through two links per
    buffer.  [chain nx pv x l y]: following [nx] from [x] one meets the members
    of [l] and then [y], and [pv] leads back. *)

From S2P Require Import Prelude.

Fixpoint chain (nx pv : nat -> nat) (x : nat) (l : list nat) (y : nat) : Prop :=
  match l with
  | [] => nx x = y /\ pv y = x
  | z :: l' => nx x = z /\ pv z = x /\ chain nx pv z l' y
  end.

(** A function changed at one point. *)
Definition upd (f : nat -> nat) (a v : nat) : nat -> nat := fun x => if decide (x = a) then v else f x.

Lemma upd_eq f a v : upd f a v a = v.
Proof. unfold upd. by rewrite decide_True. Qed.

Lemma upd_ne f a v x : x <> a -> upd f a v x = f x.
Proof. intros H. unfold upd. by rewrite decide_False. Qed.

Lemma upd_ext f g a v x : (forall y, f y = g y) -> upd f a v x = upd g a v x.
Proof. intros H. unfold upd. case_decide; [done|apply H]. Qed.

Lemma chain_app nx pv x l1 z l2 y :
  chain nx pv x (l1 ++ z :: l2) y <-> chain nx pv x l1 z /\ chain nx pv z l2 y.
Proof. revert x. induction l1 as [|a l1 IH]; intros x; simpl; [tauto|]. rewrite IH. tauto. Qed.

Lemma chain_ext nx pv nx' pv' x l y :
  (forall a, a ∈ x :: l -> nx' a = nx a) -> (forall a, a ∈ l ++ [y] -> pv' a = pv a) ->
  chain nx pv x l y -> chain nx' pv' x l y.
Proof.
  revert x. induction l as [|z l IH]; intros x Hn Hp; simpl.
  - intros [H1 H2]. rewrite Hn, Hp by set_solver. done.
  - intros (H1 & H2 & H3). rewrite Hn, Hp by set_solver. split; [done|]. split; [done|].
    apply IH; [|intros a Ha; apply Hp; set_solver|done]. intros a Ha. apply Hn. by right.
Qed.

(** The last link of a chain is led elsewhere. *)
Lemma chain_retarget nx pv x l i s :
  NoDup (x :: l) -> s ∉ l -> chain nx pv x l i ->
  chain (upd nx (pv i) s) (upd pv s (pv i)) x l s /\ pv i ∈ x :: l.
Proof.
  intros Hnd Hs Hc. destruct l as [|p l _] using rev_ind.
  - destruct Hc as [_ Hp]. simpl. rewrite Hp, !upd_eq. split; [done|left].
  - apply chain_app in Hc as [Hc [Hn Hp]]. rewrite Hp. split; [|set_solver].
    rewrite app_comm_cons in Hnd. apply list.NoDup_app in Hnd as (_ & Hd & _).
    apply chain_app. split; [|simpl; by rewrite !upd_eq].
    eapply chain_ext; [..|exact Hc]; intros a Ha; apply upd_ne.
    + intros ->. apply (Hd p Ha). left.
    + intros ->. done.
Qed.

(** The element [i] is taken out. *)
Lemma chain_unlink nx pv x l1 i l2 y :
  NoDup (x :: l1 ++ i :: l2) -> y ∉ l1 ++ i :: l2 -> chain nx pv x (l1 ++ i :: l2) y ->
  chain (upd nx (pv i) (nx i)) (upd pv (nx i) (pv i)) x (l1 ++ l2) y.
Proof.
  intros Hnd Hy Hc. apply chain_app in Hc as [H1 H2].
  rewrite app_comm_cons in Hnd. apply list.NoDup_app in Hnd as (Hn1 & Hd & Hn2).
  apply list.NoDup_cons in Hn2 as [Hi Hn2].
  destruct l2 as [|s l2].
  - destruct H2 as [-> _]. rewrite app_nil_r. apply (chain_retarget nx pv x l1 i y Hn1); [set_solver|done].
  - destruct H2 as (-> & _ & H2). apply list.NoDup_cons in Hn2 as [Hsl Hn2].
    assert (s ∉ l1) as Hs1 by (intros Hs; apply (Hd s); set_solver).
    destruct (chain_retarget nx pv x l1 i s Hn1 Hs1 H1) as [Hc Hin]. apply chain_app. split; [done|].
    eapply chain_ext; [..|exact H2]; intros a Ha; apply upd_ne.
    + intros ->. apply (Hd (pv i) Hin). by right.
    + intros ->. set_solver.
Qed.

(** The element [i] is put in front. *)
Lemma chain_push nx pv x l i y :
  i ∉ x :: l -> i <> y -> x ∉ l -> y ∉ l -> NoDup l -> chain nx pv x l y ->
  chain (upd (upd nx i (nx x)) x i) (upd (upd pv i x) (nx x) i) x (i :: l) y.
Proof.
  intros Hi Hiy Hx Hy Hnd Hc. assert (i <> x) as Hix by set_solver. simpl. rewrite upd_eq. split; [done|].
  assert (nx x <> i) as Hni.
  { destruct l as [|z l]; destruct Hc as [-> _]; [done|]. set_solver. }
  split; [rewrite upd_ne, upd_eq by done; done|].
  destruct l as [|z l]; simpl.
  - destruct Hc as [E _]. rewrite upd_ne, upd_eq by done. rewrite E, upd_eq. done.
  - destruct Hc as (E & _ & Hc). rewrite (upd_ne _ x), upd_eq by done. rewrite E, upd_eq.
    split; [done|]. split; [done|]. apply list.NoDup_cons in Hnd as [Hz Hnd].
    eapply chain_ext; [..|exact Hc]; intros a Ha; rewrite !upd_ne; try done; set_solver.
Qed.

(** The first member that satisfies a test, forwards and backwards. *)
Lemma chain_first nx pv x l y : chain nx pv x l y -> nx x = hd y l.
Proof. destruct l; simpl; tauto. Qed.

Lemma chain_rev nx pv x l y : chain nx pv x l y -> chain pv nx y (rev l) x.
Proof.
  revert x. induction l as [|z l IH]; intros x; simpl; [tauto|].
  intros (H1 & H2 & H3). apply chain_app. split; [by apply IH|]. done.
Qed.
