(* ===== verification/BlockDev.v ===== *)
(** * Block devices

    The buffer cache calls [iderw] to bring a locked buffer and its disk block
    in line.  The kernel is linked with one of two drivers: ide.c (Ide.v), which
    gives the disk controller a command and sleeps until the interrupt, or
    memide.c (Memide.v), which keeps the disk in memory.  The class [BlockDev]
    is what the layers above know of a driver. *)

From S2P Require Import Prelude Params State Spinlock Apic Seg Proc FsState Sleeplock.

(** A disk driver: the transfer of a buffer, and the interrupt handler. *)
Class BlockDev : Type := {
  iderw : nat -> M K unit;
  ideintr : M K unit
}.

Definition block0 : list Z := replicate (Z.to_nat BSIZE) 0.

(** The contents of a disk block. *)
Definition disk_block (s : fstate) (drive b : Z) : list Z := default block0 (disk s !! (drive, b)).

(** The device carries out the command it was given. *)
Definition ide_complete (s : fstate) : fstate :=
  match ide_cmd s with
  | None => s
  | Some (mkCmd d b None) => set_ide_data (disk_block s d b) (set_ide_cmd None s)
  | Some (mkCmd d b (Some data)) => set_disk (<[(d, b) := data]> (disk s)) (set_ide_cmd None s)
  end.

(** The part of a buffer the driver looks at. *)
Definition flagged (f : Z) (b : buf) : bool := nz (Z.land (b_flags b) f).

Definition in_sync (b : buf) : bool := Z.land (b_flags b) (Z.lor B_VALID B_DIRTY) =? B_VALID.
