(* ===== verification/Ide.v ===== *)
(** * The IDE driver (ide.c)

    The controller itself is modelled by the command it was given last, the
    sector it holds for reading and its error flag; [ide_complete] is the
    device finishing the command.  The busy-waits for its status register end
    at once. *)

From S2P Require Import Prelude Params State Spinlock Apic Seg Proc FsState Sleeplock BlockDev.

Module Ide.
Section Ide.
  Context {LK : Linker} {FU : Fuel}.

(* ide.c 38-48: idewait *)
Definition idewait (checkerr : bool) : M K Z :=
  e <- get_fs ide_err ;;
  ret (if checkerr && e then -1 else 0).

(** [present]: whether drive 1 answers. *)
(* ide.c 50-70: ideinit *)
Definition ideinit (present : bool) : M K unit :=
  initlock LKide "ide" ;;
  n <- gets (fun k => ncpu (k_hw k)) ;;
  ioapicenable IRQ_IDE (n - 1) ;;
  idewait false ;;
  when present (on_fs (set_havedisk1 1)).

(* ide.c 73-100: idestart *)
Definition idestart (o : option nat) : M K unit :=
  match o with
  | None => panic "idestart"
  | Some i =>
      b <- get_buf i ;;
      if b_blockno b >=? FSSIZE then panic "incorrect blockno" else
      let sector_per_block := BSIZE / 512 in
      let sector := b_blockno b * sector_per_block in
      if sector_per_block >? 7 then panic "idestart" else
      idewait false ;;
      on_fs (set_ide_cmd (Some (mkCmd (Z.land (b_dev b) 1) sector
        (if flagged B_DIRTY b then Some (b_data b) else None))))
  end.

(* ide.c 103-131: ideintr *)
Definition ideintr : M K unit :=
  acquire LKide ;;
  q <- get_fs idequeue ;;
  match q with
  | None => release LKide
  | Some i =>
      b <- get_buf i ;;
      on_fs (set_idequeue (b_qnext b)) ;;
      when (negb (flagged B_DIRTY b))
        (r <- idewait true ;;
         when (r >=? 0)
           (d <- get_fs ide_data ;;
            upd_buf i (set_b_data d))) ;;
      upd_buf i (fun b => set_b_flags (Z.lor (b_flags b) B_VALID) b) ;;
      upd_buf i (fun b => set_b_flags (Z.land (b_flags b) (Z.lnot B_DIRTY)) b) ;;
      wakeup (ChBuf i) ;;
      q <- get_fs idequeue ;;
      when (bool_decide (q <> None)) (idestart q) ;;
      release LKide
  end.

(** The loop that follows [qnext] to the end of the queue, which has at most
    [NBUF] members, and puts the buffer there. *)
(* ide.c 153-155: iderw *)
Fixpoint enqueue (n : nat) (last : nat) (i : nat) : M K unit :=
  b <- get_buf last ;;
  match b_qnext b, n with
  | None, _ => upd_buf last (set_b_qnext (Some i))
  | Some _, O => fun k => NoFuel k
  | Some j, S n' => enqueue n' j i
  end.

(* ide.c 137-168: iderw *)
Definition iderw (i : nat) : M K unit :=
  h <- holdingsleep (SLbuf i) ;;
  if negb h then panic "iderw: buf not locked" else
  b <- get_buf i ;;
  if in_sync b then panic "iderw: nothing to do" else
  d1 <- get_fs havedisk1 ;;
  if nz (b_dev b) && negb (nz d1) then panic "iderw: ide disk 1 not present" else
  acquire LKide ;;
  upd_buf i (set_b_qnext None) ;;
  q <- get_fs idequeue ;;
  match q with
  | None => on_fs (set_idequeue (Some i))
  | Some j => enqueue (Z.to_nat NBUF) j i
  end ;;
  q <- get_fs idequeue ;;
  when (bool_decide (q = Some i)) (idestart (Some i)) ;;
  while fuel (b <- get_buf i ;; ret (negb (in_sync b))) (sleep (ChBuf i) LKide) ;;
  release LKide.

End Ide.
End Ide.

#[export] Instance ide_dev {LK : Linker} {FU : Fuel} : BlockDev | 10 :=
  { iderw := Ide.iderw; ideintr := Ide.ideintr }.
