(* ===== verification/Memide.v ===== *)
(** * The memory disk (memide.c)

    A driver with the interface of the IDE one, which copies blocks from and to
    an image in memory. *)

From S2P Require Import Prelude Params State Spinlock Apic Seg Proc FsState Sleeplock BlockDev.

Module Memide.
Section Memide.
  Context {LK : Linker} {FU : Fuel}.

(** [n]: the size of the image linked into the kernel. *)
(* memide.c 21-26: ideinit *)
Definition ideinit (n : Z) : M K unit := on_fs (set_disksize (n / BSIZE)).

(* memide.c 29-33: ideintr *)
Definition ideintr : M K unit := ret tt.

(* memide.c 38-60: iderw *)
Definition iderw (i : nat) : M K unit :=
  h <- holdingsleep (SLbuf i) ;;
  if negb h then panic "iderw: buf not locked" else
  b <- get_buf i ;;
  if in_sync b then panic "iderw: nothing to do" else
  if negb (b_dev b =? 1) then panic "iderw: request not for disk 1" else
  n <- get_fs disksize ;;
  if b_blockno b >=? n then panic "iderw: block out of range" else
  (if flagged B_DIRTY b then
     upd_buf i (fun b => set_b_flags (Z.land (b_flags b) (Z.lnot B_DIRTY)) b) ;;
     on_fs (fun s => set_disk (<[(1, b_blockno b) := b_data b]> (disk s)) s)
   else
     d <- get_fs (fun s => disk_block s 1 (b_blockno b)) ;;
     upd_buf i (set_b_data d)) ;;
  upd_buf i (fun b => set_b_flags (Z.lor (b_flags b) B_VALID) b).

End Memide.
End Memide.

Definition memide_dev {LK : Linker} {FU : Fuel} : BlockDev :=
  {| iderw := Memide.iderw; ideintr := Memide.ideintr |}.
