(* ===== verification/Bio.v ===== *)
(** * The buffer cache (bio.c)

    Buffers cache disk blocks; the list through [b_prev] and [b_next] orders
    them by recent use, with buffer [NBUF] as its head. *)

From S2P Require Import Prelude Params State Spinlock Seg Proc FsState Sleeplock BlockDev Ide.

(** The list head, and the buffers of the array. *)
Definition head : nat := Z.to_nat NBUF.

Definition buf_slots : list nat := seq 0 (Z.to_nat NBUF).

Section Bio.
  Context {LK : Linker} {FU : Fuel} {BD : BlockDev}.

(** Insert [i] at the front of the list. *)
(* bio.c 50-54: binit *)
Definition push_front (i : nat) : M K unit :=
  h <- get_buf head ;;
  upd_buf i (set_b_next (b_next h)) ;;
  upd_buf i (set_b_prev head) ;;
  h <- get_buf head ;;
  upd_buf (b_next h) (set_b_prev i) ;;
  upd_buf head (set_b_next i).

(* bio.c 38-56: binit *)
Definition binit : M K unit :=
  initlock LKbcache "bcache" ;;
  upd_buf head (set_b_prev head) ;;
  upd_buf head (set_b_next head) ;;
  for_all buf_slots (fun i =>
    h <- get_buf head ;;
    upd_buf i (set_b_next (b_next h)) ;;
    upd_buf i (set_b_prev head) ;;
    initsleeplock (SLbuf i) "buffer" ;;
    h <- get_buf head ;;
    upd_buf (b_next h) (set_b_prev i) ;;
    upd_buf head (set_b_next i)).

(** [for(b = ...; b != &bcache.head; b = link(b))]: the first buffer on the way
    that satisfies the test.  The list has at most [NBUF] members. *)
(* bio.c 69-91: bget *)
Fixpoint find_buf (n : nat) (link : buf -> nat) (test : buf -> bool) (i : nat) :
    M K (option nat) :=
  if Nat.eqb i head then ret None else
  match n with
  | O => fun k => NoFuel k
  | S n' =>
      b <- get_buf i ;;
      if test b then ret (Some i) else find_buf n' link test (link b)
  end.

(* bio.c 61-93: bget *)
Definition bget (dev blockno : Z) : M K nat :=
  acquire LKbcache ;;
  h <- get_buf head ;;
  o <- find_buf (Z.to_nat NBUF) b_next
         (fun b => (b_dev b =? dev) && (b_blockno b =? blockno)) (b_next h) ;;
  match o with
  | Some i =>
      upd_buf i (fun b => set_b_refcnt (u32 (b_refcnt b + 1)) b) ;;
      release LKbcache ;;
      acquiresleep (SLbuf i) ;;
      ret i
  | None =>
      h <- get_buf head ;;
      o <- find_buf (Z.to_nat NBUF) b_prev
             (fun b => (b_refcnt b =? 0) && negb (flagged B_DIRTY b)) (b_prev h) ;;
      match o with
      | Some i =>
          upd_buf i (set_b_dev dev) ;;
          upd_buf i (set_b_blockno blockno) ;;
          upd_buf i (set_b_flags 0) ;;
          upd_buf i (set_b_refcnt 1) ;;
          release LKbcache ;;
          acquiresleep (SLbuf i) ;;
          ret i
      | None => panic "bget: no buffers"
      end
  end.

(* bio.c 96-106: bread *)
Definition bread (dev blockno : Z) : M K nat :=
  i <- bget dev blockno ;;
  b <- get_buf i ;;
  when (negb (flagged B_VALID b)) (iderw i) ;;
  ret i.

(* bio.c 109-116: bwrite *)
Definition bwrite (i : nat) : M K unit :=
  h <- holdingsleep (SLbuf i) ;;
  if negb h then panic "bwrite" else
  upd_buf i (fun b => set_b_flags (Z.lor (b_flags b) B_DIRTY) b) ;;
  iderw i.

(* bio.c 120-141: brelse *)
Definition brelse (i : nat) : M K unit :=
  h <- holdingsleep (SLbuf i) ;;
  if negb h then panic "brelse" else
  releasesleep (SLbuf i) ;;
  acquire LKbcache ;;
  upd_buf i (fun b => set_b_refcnt (u32 (b_refcnt b - 1)) b) ;;
  b <- get_buf i ;;
  when (b_refcnt b =? 0)
    (upd_buf (b_next b) (set_b_prev (b_prev b)) ;;
     b <- get_buf i ;;
     upd_buf (b_prev b) (set_b_next (b_next b)) ;;
     push_front i) ;;
  release LKbcache.

End Bio.
