(* ===== verification/BioSpec.v ===== *)
(** * Correctness of the buffer cache (bio.c, memide.c)

    The cache shows one process a coherent view of the disk: [content k x] is
    what the process reads from block [x].  The memory disk may lose power at
    any write ([power_dev]): what is proved of it covers every point at which
    the machine can stop.  [cache] is the invariant of the buffer list, the
    buffers' locks and their contents. *)

From S2P Require Import Prelude Params State Spinlock Seg Proc ProcSpec ProcRefine SleepWake FsState Sleeplock.
From S2P Require Import SleeplockSpec Ring BlockDev Ide Memide Bio.

(** ** Computations that may be cut off *)

Definition power_off : string := "power off".

(** The computation returns in [Q], or the machine stops in [C]. *)
Definition ends {A} (r : res K A) (Q : A -> K -> Prop) (C : K -> Prop) : Prop :=
  match r with
  | Done a s => Q a s
  | Panic m s => m = power_off /\ C s
  | _ => False
  end.

Lemma ends_bind {A B} (r : res K A) (f : A -> M K B) Q C :
  ends (res_bind r f) Q C <-> ends r (fun a s => ends (f a s) Q C) C.
Proof. destruct r; simpl; done. Qed.

Lemma ends_mono {A} (r : res K A) (P Q : A -> K -> Prop) (C D : K -> Prop) :
  (forall a s, P a s -> Q a s) -> (forall s, C s -> D s) -> ends r P C -> ends r Q D.
Proof. destruct r; simpl; naive_solver. Qed.

Lemma ends_runs {A} (m : M K A) k Q C : runs m k Q -> ends (m k) Q C.
Proof. intros (a & s' & -> & HQ)%runs_Done. exact HQ. Qed.

(** Use a specification of the first routine of a sequence. *)
Tactic Notation "ends_run" uconstr(l) :=
  rewrite ?bind_eq, ?ends_bind; eapply ends_runs, wp_mono; [|eapply l].

(** ** The memory disk under power failures *)

(** [lost d x]: the machine stops instead of writing block [x] when the disk
    is [d]. *)
Definition power_iderw {LK : Linker} {FU : Fuel} (lost : gmap (Z * Z) (list Z) -> Z -> bool) (i : nat) : M K unit :=
  b <- get_buf i ;;
  d <- get_fs disk ;;
  if flagged B_DIRTY b && lost d (b_blockno b) then panic power_off else Memide.iderw i.

Definition power_dev {LK : Linker} {FU : Fuel} (lost : gmap (Z * Z) (list Z) -> Z -> bool) : BlockDev :=
  {| iderw := power_iderw lost; ideintr := Memide.ideintr |}.

(** ** The cache *)

Definition cbufs (k : K) : list buf := bufs (k_fs k).

Definition with_bufs (bs : list buf) (k : K) : K := set_k_fs (set_bufs bs (k_fs k)) k.

(** Block [x] of the disk. *)
Definition dblock (k : K) (x : Z) : list Z := disk_block (k_fs k) 1 x.

Definition nxf (bs : list buf) (i : nat) : nat := from_option b_next 0%nat (bs !! i).

Definition pvf (bs : list buf) (i : nat) : nat := from_option b_prev 0%nat (bs !! i).

(** A buffer nobody uses holds nothing, or its block, or a newer version. *)
Definition idle_ok (k : K) (b : buf) : Prop :=
  b_flags b = 0 \/
  (b_flags b = 2 /\ b_dev b = 1 /\ b_data b = dblock k (b_blockno b)) \/
  (b_flags b = 6 /\ b_dev b = 1 /\ length (b_data b) = 512%nat).

(** The locks of the buffers: process [q] has those of [held]. *)
Definition locks_ok (k : K) (q : Z) (held : gset nat) : Prop :=
  forall i, (i < 30)%nat ->
    if decide (i ∈ held)
    then sl_locked (slock k (SLbuf i)) <> 0 /\ sl_pid (slock k (SLbuf i)) = q
    else sl_locked (slock k (SLbuf i)) = 0.

Record cache (k : K) (q : Z) (order : list nat) (held : gset nat) : Prop := {
  ca_len : length (cbufs k) = 31%nat;
  ca_order : order ≡ₚ seq 0 30;
  ca_ring : chain (nxf (cbufs k)) (pvf (cbufs k)) head order head;
  ca_locks : locks_ok k q held;
  ca_held : forall i, i ∈ held -> (i < 30)%nat;
  ca_ref : forall i b, cbufs k !! i = Some b -> (i < 30)%nat ->
    b_refcnt b = if decide (i ∈ held) then 1 else 0;
  ca_uniq : forall i j b b', cbufs k !! i = Some b -> cbufs k !! j = Some b' -> (i < 30)%nat -> (j < 30)%nat ->
    b_dev b = 1 -> b_dev b' = 1 -> b_blockno b = b_blockno b' -> i = j;
  ca_idle : forall i b, cbufs k !! i = Some b -> (i < 30)%nat -> i ∉ held -> idle_ok k b;
  ca_disk : forall x, length (dblock k x) = 512%nat
}.

(** Buffer [b] has the contents of block [x]. *)
Definition caches (x : Z) (b : buf) : Prop := b_dev b = 1 /\ b_blockno b = x /\ flagged B_VALID b = true.

#[export] Instance caches_dec x b : Decision (caches x b).
Proof. unfold caches. apply _. Defined.

(** What is read from block [x]: the cached contents, or the disk's. *)
Definition content (k : K) (x : Z) : list Z :=
  match list_find (caches x) (take 30 (cbufs k)) with
  | Some (_, b) => b_data b
  | None => dblock k x
  end.

(** Block [x] is cached and has not been written to disk. *)
Definition dirty (k : K) (x : Z) : Prop :=
  exists i b, (i < 30)%nat /\ cbufs k !! i = Some b /\ b_dev b = 1 /\ b_blockno b = x /\ b_flags b = 6.

(** A buffer that can be reused. *)
Definition spare (k : K) (held : gset nat) (i : nat) : Prop :=
  (i < 30)%nat /\ (i ∉ held) /\ exists b, cbufs k !! i = Some b /\ b_flags b <> 6.

Section BioSpec.
Context {LK : Linker} {FU : Fuel}.
Implicit Types (k : K).

Lemma flagged_valid f : nz (Z.land f B_VALID) = Z.testbit f 1.
Proof.
  pose proof (land_bit_testbit f 1 ltac:(lia)) as H. change (2 ^ 1) with B_VALID in H.
  unfold nz. by rewrite H, negb_involutive.
Qed.

Lemma content_at k q order held i b x :
  cache k q order held -> cbufs k !! i = Some b -> (i < 30)%nat -> caches x b -> content k x = b_data b.
Proof.
  intros Hc Hb Hi Hx. unfold content.
  assert (take 30 (cbufs k) !! i = Some b) as Hb' by (by rewrite lookup_take_lt).
  destruct (list_find (caches x) (take 30 (cbufs k))) as [[j b']|] eqn:E.
  - apply list_find_Some in E as (Hj & (Hd & Hn & _) & _). apply lookup_take_Some in Hj as [Hj Hlt].
    destruct Hx as (Hd' & Hn' & _).
    rewrite (ca_uniq _ _ _ _ Hc j i b' b) in Hj by (done || congruence). congruence.
  - apply list_find_None in E. rewrite list.Forall_forall in E. exfalso. apply (E b); [|done].
    by eapply list_elem_of_lookup_2.
Qed.

Lemma content_none k x :
  (forall i b, cbufs k !! i = Some b -> (i < 30)%nat -> ~ caches x b) -> content k x = dblock k x.
Proof.
  intros H. unfold content. destruct (list_find (caches x) (take 30 (cbufs k))) as [[j b']|] eqn:E; [|done].
  apply list_find_Some in E as (Hj & Hx & _). apply lookup_take_Some in Hj as [Hj Hlt]. by destruct (H j b').
Qed.

Lemma get_buf_eq k i b : cbufs k !! i = Some b -> get_buf i k = Done b k.
Proof. intros H. unfold get_buf, get_fs. kred. unfold cbufs in H. by rewrite H. Qed.

Lemma upd_buf_eq k i f : (i < length (cbufs k))%nat -> upd_buf i f k = Done tt (with_bufs (alter f i (cbufs k)) k).
Proof.
  intros H. destruct (lookup_lt_is_Some_2 (cbufs k) i H) as [b Hb]. unfold upd_buf.
  rewrite bind_eq, (get_buf_eq _ _ _ Hb). cbn [res_bind]. unfold on_fs. by rewrite modify_eq.
Qed.

Lemma cbufs_with bs k : cbufs (with_bufs bs k) = bs.
Proof. done. Qed.

Lemma set_bufs_twice a b (s : fstate) : set_bufs a (set_bufs b s) = set_bufs a s.
Proof. done. Qed.

Lemma with_bufs_twice bs bs' k : with_bufs bs (with_bufs bs' k) = with_bufs bs k.
Proof. done. Qed.

(** The walk along the list finds the first member that passes the test. *)
Lemma find_buf_first k n link nf pf test x l :
  (forall i b, cbufs k !! i = Some b -> nf i = link b) -> length (cbufs k) = 31%nat ->
  chain nf pf x l head -> (forall i, i ∈ l -> (i < 30)%nat) -> (length l <= n)%nat ->
  find_buf n link test (nf x) k = Done (List.find (fun i => from_option test false (cbufs k !! i)) l) k.
Proof.
  intros Hnf Hlen. revert n x. induction l as [|z l IH]; intros n x Hc Hl Hn.
  - destruct Hc as [-> _]. destruct n; simpl; by rewrite ret_eq.
  - destruct Hc as (-> & _ & Hc). simpl in Hn. destruct n as [|n]; [lia|]. cbn [find_buf].
    assert (z < 30)%nat as Hz by (apply Hl; left).
    replace (Nat.eqb z head) with false by (symmetry; apply Nat.eqb_neq; unfold head, NBUF, MAXOPBLOCKS; simpl; lia).
    destruct (lookup_lt_is_Some_2 (cbufs k) z) as [b Hb]; [lia|].
    rewrite bind_eq, (get_buf_eq _ _ _ Hb). cbn [res_bind List.find]. rewrite Hb. simpl.
    destruct (test b); [by rewrite ret_eq|]. rewrite <- (Hnf z b Hb). apply IH; [done| |lia].
    intros i Hi. apply Hl. by right.
Qed.

Lemma order_lt k q order held i : cache k q order held -> i ∈ order <-> (i < 30)%nat.
Proof. intros Hc. rewrite (ca_order _ _ _ _ Hc), elem_of_seq. lia. Qed.

(** *** The memory disk *)

Lemma locked_mine k c pi q l :
  me k c pi q -> sl_locked (slock k l) <> 0 /\ sl_pid (slock k l) = q ->
  runs (holdingsleep l) k (fun r k' => r = true /\ goes_on c pi q k k' /\ k_fs k' = k_fs k /\ k_slocks k' = k_slocks k).
Proof. intros Hm [H1 H2]. by apply holdingsleep_mine. Qed.

(** Reading a block into an empty buffer. *)
Lemma iderw_read lost k c pi q i b :
  me k c pi q -> sl_locked (slock k (SLbuf i)) <> 0 /\ sl_pid (slock k (SLbuf i)) = q ->
  cbufs k !! i = Some b -> b_flags b = 0 -> b_dev b = 1 -> b_blockno b < disksize (k_fs k) ->
  runs (power_iderw lost i) k (fun _ k' => goes_on c pi q k k' /\ k_slocks k' = k_slocks k /\
    k_fs k' = set_bufs (alter (fun b => set_b_flags 2 (set_b_data (dblock k (b_blockno b)) b)) i (cbufs k)) (k_fs k)).
Proof.
  intros Hm Hl Hb Hf Hd Hs. unfold runs, power_iderw. rewrite bind_eq, (get_buf_eq _ _ _ Hb). cbn [res_bind].
  unfold get_fs at 1. kred. unfold flagged. rewrite Hf.
  change (nz (Z.land 0 B_DIRTY)) with false. cbn [andb]. cbv iota. unfold Memide.iderw.
  wp_call (locked_mine k c pi q (SLbuf i) Hm Hl). intros r k1 (-> & Hg & Ef & Es). cbn [negb].
  assert (cbufs k1 = cbufs k) as Eb by (unfold cbufs; by rewrite Ef).
  rewrite bind_eq, (get_buf_eq k1 i b) by (by rewrite Eb). cbn [res_bind].
  replace (in_sync b) with false by (unfold in_sync; by rewrite Hf). rewrite Hd.
  change (negb (1 =? 1)) with false. cbv iota. unfold get_fs at 1. kred. rewrite Ef, Z.geb_leb.
  replace (disksize (k_fs k) <=? b_blockno b) with false by lia.
  replace (flagged B_DIRTY b) with false by (unfold flagged; by rewrite Hf). cbv iota. unfold get_fs. kred. rewrite Ef.
  assert (i < length (cbufs k))%nat as Hi by (by apply lookup_lt_Some in Hb).
  rewrite upd_buf_eq by (by rewrite Eb). cbn [res_bind]. rewrite upd_buf_eq by (unfold cbufs; simpl; rewrite length_alter, Ef; done).
  split; [|split; [done|]].
  - eapply goes_on_trans; [exact Hg|]. split; [by apply me_fs, me_fs, Hg|done].
  - rewrite cbufs_with. simpl. rewrite Ef, Eb, set_bufs_twice. f_equal. rewrite alter_alter_eq. apply list_alter_ext; [|done].
    intros b' Hb'. rewrite Hb in Hb'. injection Hb' as <-. simpl. by rewrite Hf.
Qed.

(** Writing a buffer to its block, or stopping before. *)
Lemma iderw_write lost k c pi q i b :
  me k c pi q -> sl_locked (slock k (SLbuf i)) <> 0 /\ sl_pid (slock k (SLbuf i)) = q ->
  cbufs k !! i = Some b -> b_flags b = 6 -> b_dev b = 1 -> b_blockno b < disksize (k_fs k) ->
  ends (power_iderw lost i k) (fun _ k' => goes_on c pi q k k' /\ k_slocks k' = k_slocks k /\
      k_fs k' = set_bufs (alter (set_b_flags 2) i (cbufs k))
                  (set_disk (<[(1, b_blockno b) := b_data b]> (disk (k_fs k))) (k_fs k)))
    (fun k' => k' = k).
Proof.
  intros Hm Hl Hb Hf Hd Hs. unfold power_iderw. rewrite bind_eq, (get_buf_eq _ _ _ Hb). cbn [res_bind].
  unfold get_fs at 1. kred. replace (flagged B_DIRTY b) with true by (unfold flagged; by rewrite Hf). cbn [andb].
  destruct (lost _ _); [by rewrite panic_eq|]. unfold Memide.iderw.
  ends_run (locked_mine k c pi q (SLbuf i) Hm Hl). intros r k1 (-> & Hg & Ef & Es). cbn [negb].
  assert (cbufs k1 = cbufs k) as Eb by (unfold cbufs; by rewrite Ef).
  assert (i < length (cbufs k))%nat as Hi by (by apply lookup_lt_Some in Hb).
  rewrite bind_eq, (get_buf_eq k1 i b) by (by rewrite Eb). cbn [res_bind].
  replace (in_sync b) with false by (unfold in_sync; by rewrite Hf). rewrite Hd.
  change (negb (1 =? 1)) with false. cbv iota. unfold get_fs at 1. kred. rewrite Ef, Z.geb_leb.
  replace (disksize (k_fs k) <=? b_blockno b) with false by lia.
  replace (flagged B_DIRTY b) with true by (unfold flagged; by rewrite Hf). cbv iota.
  rewrite !bind_eq, upd_buf_eq by (by rewrite Eb). cbn [res_bind]. unfold on_fs. kred.
  rewrite upd_buf_eq by (unfold cbufs; simpl; rewrite length_alter, Ef; done).
  split; [|split; [done|]].
  - eapply goes_on_trans; [exact Hg|]. split; [by apply me_fs, me_fs, me_fs, Hg|done].
  - unfold cbufs at 1. simpl. rewrite Ef, Eb.
    match goal with |- set_bufs ?x (set_disk ?y (set_bufs _ ?s)) = _ => change (set_bufs x (set_disk y s) = set_bufs (alter (set_b_flags 2) i (cbufs k)) (set_disk y s)) end.
    f_equal. rewrite alter_alter_eq. apply list_alter_ext; [|done].
    intros b' Hb'. rewrite Hb in Hb'. injection Hb' as <-. simpl. by rewrite Hf.
Qed.

(** *** Taking a buffer *)

Lemma alter_insert (bs : list buf) i b f : bs !! i = Some b -> alter f i bs = <[i := f b]> bs.
Proof.
  intros Hb. apply list_eq. intros j. destruct (decide (j = i)) as [->|Hne].
  - rewrite list_lookup_alter_eq, Hb, list_lookup_insert_eq by (by eapply lookup_lt_Some). done.
  - by rewrite list_lookup_alter_ne, list_lookup_insert_ne.
Qed.

Lemma lookup_inserted (bs : list buf) i j b b' :
  <[i := b']> bs !! j = Some b -> (j = i /\ b = b') \/ (j <> i /\ bs !! j = Some b).
Proof.
  rewrite list_lookup_insert_Some. intros [(-> & -> & _)|[Hne Hb]]; [by left|right; auto].
Qed.

Lemma slock_insert k g l v : k_slocks k = <[l := v]> g -> forall l', slock k l' = if decide (l' = l) then v else default sleeplock0 (g !! l').
Proof.
  intros E l'. unfold slock. rewrite E. case_decide as H; [subst; by rewrite lookup_insert_eq|].
  by rewrite lookup_insert_ne.
Qed.

Lemma nxf_insert bs i b b' j : bs !! i = Some b -> b_next b' = b_next b -> nxf (<[i := b']> bs) j = nxf bs j.
Proof.
  intros Hb E. unfold nxf. destruct (decide (j = i)) as [->|Hne]; [|by rewrite list_lookup_insert_ne].
  rewrite list_lookup_insert_eq by (by eapply lookup_lt_Some). by rewrite Hb.
Qed.

Lemma pvf_insert bs i b b' j : bs !! i = Some b -> b_prev b' = b_prev b -> pvf (<[i := b']> bs) j = pvf bs j.
Proof.
  intros Hb E. unfold pvf. destruct (decide (j = i)) as [->|Hne]; [|by rewrite list_lookup_insert_ne].
  rewrite list_lookup_insert_eq by (by eapply lookup_lt_Some). by rewrite Hb.
Qed.

Lemma caches_flags x b : caches x b -> b_flags b <> 0.
Proof. intros (_ & _ & Hv) E. unfold flagged in Hv. by rewrite E in Hv. Qed.

Lemma content_spec k q order held y :
  cache k q order held ->
  (exists j b, (j < 30)%nat /\ cbufs k !! j = Some b /\ caches y b /\ content k y = b_data b) \/
  (forall j b, cbufs k !! j = Some b -> (j < 30)%nat -> ~ caches y b) /\ content k y = dblock k y.
Proof.
  intros Hc. destruct (list_find (caches y) (take 30 (cbufs k))) as [[j b]|] eqn:E.
  - left. apply list_find_Some in E as (Hj & Hx & _). apply lookup_take_Some in Hj as [Hj Hlt].
    exists j, b. split; [done|]. split; [done|]. split; [done|]. by eapply content_at.
  - right. assert (forall j b, cbufs k !! j = Some b -> (j < 30)%nat -> ~ caches y b) as Hno.
    { intros j b Hb Hj Hx. apply list_find_None in E. rewrite list.Forall_forall in E. apply (E b); [|done].
      apply (list_elem_of_lookup_2 _ j). by rewrite lookup_take_lt. }
    split; [done|]. by apply content_none.
Qed.

(** Buffer [i], which nobody used, now belongs to the caller and has block [x]. *)
Section Claimed.
Context (k k' : K) (q x : Z) (order : list nat) (held : gset nat) (i : nat) (b b' : buf) (nm : string).
Hypothesis (Hc : cache k q order held) (Hi : (i < 30)%nat) (Hih : i ∉ held) (Hb : cbufs k !! i = Some b).
Hypothesis (Hfs : k_fs k' = set_bufs (<[i := b']> (cbufs k)) (k_fs k)).
Hypothesis (Hsl : k_slocks k' = <[SLbuf i := mkSleeplock 1 nm q]> (k_slocks k)).
Hypothesis (Hb' : b_dev b' = 1 /\ b_blockno b' = x /\ b_refcnt b' = 1 /\ b_next b' = b_next b /\ b_prev b' = b_prev b).
Hypothesis (Hother : forall j bj, j <> i -> (j < 30)%nat -> cbufs k !! j = Some bj -> b_dev bj = 1 -> b_blockno bj <> x).
Hypothesis (Hdata : (b_flags b' = 2 /\ b_data b' = dblock k x /\ b_flags b <> 6) \/
  (b_flags b' = 6 /\ b_flags b = 6 /\ b_dev b = 1 /\ b_blockno b = x /\ b_data b' = b_data b)).

Lemma claimed_bufs : cbufs k' = <[i := b']> (cbufs k).
Proof. unfold cbufs. by rewrite Hfs. Qed.

Lemma claimed_disk y : dblock k' y = dblock k y.
Proof. unfold dblock. by rewrite Hfs. Qed.

Lemma claimed_lookup j bj : j <> i -> cbufs k' !! j = Some bj <-> cbufs k !! j = Some bj.
Proof. intros H. by rewrite claimed_bufs, list_lookup_insert_ne. Qed.

Lemma claimed_at : cbufs k' !! i = Some b'.
Proof. rewrite claimed_bufs, list_lookup_insert_eq; [done|]. by eapply lookup_lt_Some. Qed.

Lemma claimed_cache : cache k' q order ({[i]} ∪ held).
Proof.
  destruct Hb' as (Hd & Hn & Hr & Hx & Hp). destruct Hc as [C1 C2 C3 C4 C5 C6 C7 C8 C9]. split.
  - by rewrite claimed_bufs, length_insert.
  - done.
  - rewrite claimed_bufs. eapply chain_ext; [..|exact C3]; intros a _; [by eapply nxf_insert|by eapply pvf_insert].
  - intros j Hj. rewrite (slock_insert k' _ _ _ Hsl). specialize (C4 j Hj).
    destruct (decide (SLbuf j = SLbuf i)) as [[= ->]|Hne]; [by rewrite decide_True by set_solver|].
    fold (slock k (SLbuf j)).
    destruct (decide (j ∈ held)); [rewrite decide_True by set_solver|rewrite decide_False by set_solver]; done.
  - intros j. rewrite elem_of_union, elem_of_singleton. intros [->|Hj]; auto.
  - intros j bj Hj Hlt. destruct (decide (j = i)) as [->|Hne].
    + rewrite claimed_at in Hj. injection Hj as <-. rewrite decide_True by set_solver. done.
    + apply claimed_lookup in Hj; [|done]. rewrite (C6 j bj Hj Hlt).
      destruct (decide (j ∈ held)); [rewrite decide_True by set_solver|rewrite decide_False by set_solver]; done.
  - intros j1 j2 b1 b2 H1 H2 L1 L2 D1 D2 E. rewrite claimed_bufs in H1, H2.
    apply lookup_inserted in H1 as [[-> ->]|[N1 H1]]; apply lookup_inserted in H2 as [[-> ->]|[N2 H2]]; try done.
    + exfalso. apply (Hother j2 b2); auto. congruence.
    + exfalso. apply (Hother j1 b1); auto. congruence.
    + eapply C7; eauto.
  - intros j bj Hj Hlt Hnh. assert (j <> i) as Hne by set_solver. apply claimed_lookup in Hj; [|done].
    assert (idle_ok k bj) as Hid by (apply (C8 j); set_solver). unfold idle_ok. by rewrite claimed_disk.
  - intros y. by rewrite claimed_disk.
Qed.

Lemma claimed_valid : caches x b'.
Proof.
  destruct Hb' as (Hd & Hn & _). split; [done|]. split; [done|]. unfold flagged.
  by destruct Hdata as [(-> & _)|(-> & _)].
Qed.

Lemma claimed_elsewhere y :
  y <> x -> (forall j bj, j <> i -> (j < 30)%nat -> cbufs k !! j = Some bj -> ~ caches y bj) -> content k' y = dblock k y.
Proof.
  intros Hyx Hno. rewrite content_none, claimed_disk; [done|]. intros j bj Hj Hlt Hcj.
  destruct (decide (j = i)) as [->|Hne].
  - rewrite claimed_at in Hj. injection Hj as <-. destruct Hcj as (_ & E' & _), Hb' as (_ & E'' & _). congruence.
  - apply claimed_lookup in Hj; [|done]. by apply (Hno j bj).
Qed.

Lemma claimed_content y : content k' y = content k y.
Proof.
  pose proof claimed_cache as Hc'. destruct (content_spec k q order held y Hc) as [(j & bj & Hj & Hbj & Hv & ->)|[Hno ->]].
  - destruct (decide (j = i)) as [->|Hne].
    2:{ apply (content_at k' q order ({[i]} ∪ held) j bj y Hc'); [by apply claimed_lookup|done|done]. }
    rewrite Hb in Hbj. injection Hbj as <-. pose proof (ca_idle _ _ _ _ Hc i b Hb Hi Hih) as Hid.
    pose proof (caches_flags _ _ Hv) as Hnz. destruct Hv as (Hvd & Hvn & Hvv).
    destruct (decide (y = x)) as [->|Hyx].
    + rewrite (content_at k' q order ({[i]} ∪ held) i b' x Hc' claimed_at Hi claimed_valid).
      destruct Hdata as [(_ & Ed & N6)|(_ & _ & _ & _ & Ed)]; [|done].
      destruct Hid as [?|[(_ & _ & Eb)|[? _]]]; [done| |done]. congruence.
    + destruct Hdata as [(_ & _ & N6)|(_ & _ & _ & En & _)]; [|congruence].
      destruct Hid as [?|[(_ & _ & Eb)|[? _]]]; [done| |done].
      rewrite Eb, Hvn. apply claimed_elsewhere; [done|]. intros j bj Hne Hlt Hbj (Hjd & Hjn & _). apply Hne.
      apply (ca_uniq _ _ _ _ Hc j i bj b); auto. congruence.
  - destruct (decide (y = x)) as [->|Hyx]; [|apply claimed_elsewhere; eauto].
    rewrite (content_at k' q order ({[i]} ∪ held) i b' x Hc' claimed_at Hi claimed_valid).
    destruct Hdata as [(_ & E & _)|(_ & E6 & Ed & En & _)]; [done|]. exfalso. apply (Hno i b Hb Hi).
    split; [done|]. split; [done|]. unfold flagged. by rewrite E6.
Qed.

Lemma claimed_dirty y : dirty k' y <-> dirty k y.
Proof.
  destruct Hb' as (Hd & Hn & _). split; intros (j & bj & Hj & Hl & Hdj & Hnj & Hfj).
  - destruct (decide (j = i)) as [->|Hne].
    + rewrite claimed_at in Hl. injection Hl as <-. destruct Hdata as [(E & _)|(_ & E6 & Ed & En & _)]; [lia|].
      exists i, b. repeat split; auto. congruence.
    + apply claimed_lookup in Hl; [|done]. by exists j, bj.
  - destruct (decide (j = i)) as [->|Hne].
    + rewrite Hb in Hl. injection Hl as <-. destruct Hdata as [(_ & _ & N)|(E & _ & Ed & En & _)]; [done|].
      exists i, b'. rewrite claimed_at. repeat split; auto. congruence.
    + exists j, bj. rewrite claimed_lookup by done. done.
Qed.

End Claimed.

Lemma find_some (f : nat -> bool) l i : List.find f l = Some i -> i ∈ l /\ f i = true.
Proof. intros H. apply List.find_some in H as [Hin Hf]. by rewrite list_elem_of_In. Qed.

Lemma find_none (f : nat -> bool) l : List.find f l = None -> forall i, i ∈ l -> f i = false.
Proof. intros H i Hi. apply (List.find_none _ _ H). by rewrite <- list_elem_of_In. Qed.

(** The end of a critical section of the cache's lock that changed buffers. *)
Lemma unlock_bcache k k1 c pi q bs :
  me k c pi q -> holds k1 c 1 [LKbcache] -> core k1 = core k ->
  runs (release LKbcache) (with_bufs bs k1) (fun _ k' =>
    goes_on c pi q k k' /\ k_fs k' = set_bufs bs (k_fs k) /\ k_slocks k' = k_slocks k).
Proof.
  intros Hm Hk1 Hc1. assert (holds (with_bufs bs k1) c (0 + 1) [LKbcache]) as Hk2 by (by eapply holds_ext; [..|exact Hk1]).
  eapply wp_mono; [|apply (release_holds _ c 0 [] LKbcache Hk2); [apply not_elem_of_nil|lia]].
  intros _ k3 [Hk3 Hc3]. assert (core k3 = core (with_bufs bs k)) as Hc.
  { rewrite Hc3. unfold with_bufs. by rewrite !core_set_fs, Hc1, (core_fs _ _ Hc1). }
  split; [|by rewrite (core_fs _ _ Hc), (core_slocks _ _ Hc)].
  eapply goes_on_core in Hc as (H1 & H2 & H3); [|done|by apply me_fs]. done.
Qed.

(** What [bget] leaves of buffer [b], which becomes [b']. *)
Definition got (k : K) (x : Z) (i : nat) (b b' : buf) : Prop :=
  b_dev b' = 1 /\ b_blockno b' = x /\ b_refcnt b' = 1 /\ b_next b' = b_next b /\ b_prev b' = b_prev b /\
  (forall j bj, j <> i -> (j < 30)%nat -> cbufs k !! j = Some bj -> b_dev bj = 1 -> b_blockno bj <> x) /\
  (b_dev b = 1 /\ b_blockno b = x /\ b_flags b' = b_flags b /\ b_data b' = b_data b \/
   b_flags b' = 0 /\ b_flags b <> 6).

(** The end of [bget]: buffer [i] is the caller's. *)
Lemma take_lock k k1 c pi q order held bs i :
  me k c pi q -> cache k q order held -> holds k1 c 1 [LKbcache] -> core k1 = core k -> (i < 30)%nat -> i ∉ held ->
  runs (release LKbcache ;; acquiresleep (SLbuf i) ;; ret i) (with_bufs bs k1) (fun r k' =>
    r = i /\ goes_on c pi q k k' /\ k_fs k' = set_bufs bs (k_fs k) /\
    exists nm, k_slocks k' = <[SLbuf i := mkSleeplock 1 nm q]> (k_slocks k)).
Proof.
  intros Hm Hc Hk1 Hc1 Hi Hih. unfold runs. wp_call (unlock_bcache k k1 c pi q bs Hm Hk1 Hc1).
  intros _ k2 (Hg2 & Ef2 & Es2).
  assert (slock k2 (SLbuf i) = slock k (SLbuf i)) as El by (unfold slock; by rewrite Es2).
  pose proof (ca_locks _ _ _ _ Hc i Hi) as Hl. rewrite decide_False in Hl by done.
  wp_call (acquiresleep_free k2 c pi q (SLbuf i) (proj1 Hg2)); [|by rewrite El].
  intros _ k3 (Hg3 & Ef3 & Es3). kred. split; [done|]. split; [by eapply goes_on_trans|].
  split; [by rewrite Ef3, Ef2|]. eexists. by rewrite Es3, Es2.
Qed.

(** A walk over all buffers, forwards or backwards. *)
Lemma walk k k1 c pi q order held h test :
  me k c pi q -> cache k q order held -> cbufs k1 = cbufs k -> cbufs k !! head = Some h ->
  find_buf (Z.to_nat NBUF) b_next test (b_next h) k1
    = Done (List.find (fun i => from_option test false (cbufs k !! i)) order) k1 /\
  find_buf (Z.to_nat NBUF) b_prev test (b_prev h) k1
    = Done (List.find (fun i => from_option test false (cbufs k !! i)) (rev order)) k1.
Proof.
  intros Hm Hc Eb Hh. pose proof (ca_len _ _ _ _ Hc) as Hlen.
  assert (forall i, i ∈ order -> (i < 30)%nat) as Hord by (intros i; apply (order_lt _ _ _ _ _ Hc)).
  assert (length order = 30%nat) as Hol by (rewrite (ca_order _ _ _ _ Hc); apply length_seq).
  rewrite <- Eb. split.
  - replace (b_next h) with (nxf (cbufs k1) head) by (unfold nxf; by rewrite Eb, Hh).
    eapply find_buf_first; [|by rewrite Eb|rewrite Eb; apply Hc|done|by rewrite Hol].
    intros i b Hb. unfold nxf. by rewrite Hb.
  - replace (b_prev h) with (pvf (cbufs k1) head) by (unfold pvf; by rewrite Eb, Hh).
    eapply find_buf_first; [|by rewrite Eb|rewrite Eb; apply chain_rev, Hc| |by rewrite length_rev, Hol].
    + intros i b Hb. unfold pvf. by rewrite Hb.
    + intros i Hi. apply Hord. by rewrite <- (Permutation_rev order) in Hi.
Qed.

(** There is a buffer to take unless the block is cached. *)
Lemma spare_found k q order held i :
  cache k q order held -> spare k held i ->
  List.find (fun i => from_option (fun b => (b_refcnt b =? 0) && negb (flagged B_DIRTY b)) false (cbufs k !! i)) (rev order) <> None.
Proof.
  intros Hc (Hi & Hih & b & Hb & Hf) E. apply (find_none _ _) with (i := i) in E.
  - rewrite Hb in E. simpl in E. rewrite (ca_ref _ _ _ _ Hc i b Hb Hi), decide_False in E by done.
    unfold flagged in E.
    by destruct (ca_idle _ _ _ _ Hc i b Hb Hi Hih) as [E0|[[E0 _]|[? _]]]; [rewrite E0 in E..|].
  - rewrite <- (Permutation_rev order). by apply (order_lt _ _ _ _ _ Hc).
Qed.

Lemma bget_gets {BD : BlockDev} k c pi q order held x :
  me k c pi q -> cache k q order held ->
  (forall i b, i ∈ held -> cbufs k !! i = Some b -> ~ (b_dev b = 1 /\ b_blockno b = x)) ->
  (dirty k x \/ exists i, spare k held i) ->
  runs (bget 1 x) k (fun i k' => goes_on c pi q k k' /\ (i < 30)%nat /\ (i ∉ held) /\
    exists b b' nm, cbufs k !! i = Some b /\ got k x i b b' /\
      k_fs k' = set_bufs (<[i := b']> (cbufs k)) (k_fs k) /\
      k_slocks k' = <[SLbuf i := mkSleeplock 1 nm q]> (k_slocks k)).
Proof.
  intros Hm Hc Hnh Hroom. pose proof (ca_len _ _ _ _ Hc) as Hlen. unfold runs, bget.
  wp_call (acquire_holds k c 0 [] LKbcache (me_holds _ _ _ _ Hm) (not_elem_of_nil _)); [|lia]. intros _ k1 [Hk1 Hc1].
  assert (cbufs k1 = cbufs k) as Eb by (unfold cbufs; by rewrite (core_fs _ _ Hc1)).
  destruct (lookup_lt_is_Some_2 (cbufs k) head) as [h Hh]; [rewrite Hlen; change head with 30%nat; lia|].
  rewrite bind_eq, (get_buf_eq k1 head h) by (by rewrite Eb). cbn [res_bind].
  rewrite bind_eq, (proj1 (walk k k1 c pi q order held h _ Hm Hc Eb Hh)). cbn [res_bind].
  destruct (List.find _ order) as [i|] eqn:Efind.
  - apply find_some in Efind as [Hin Ht]. apply (order_lt _ _ _ _ _ Hc) in Hin as Hi.
    destruct (lookup_lt_is_Some_2 (cbufs k) i) as [b Hb]; [lia|]. rewrite Hb in Ht. simpl in Ht.
    apply andb_true_iff in Ht as [Ed Ex]. apply Z.eqb_eq in Ed, Ex.
    assert (i ∉ held) as Hih by (intros Hih; by apply (Hnh i b)).
    rewrite bind_eq, upd_buf_eq, Eb by (rewrite Eb; lia). cbn [res_bind]. rewrite (alter_insert _ _ _ _ Hb).
    eapply wp_mono; [|by apply (take_lock k k1 c pi q order held _ i)].
    intros r k2 (-> & Hg & Ef & nm & Es). split; [done|]. split; [done|]. split; [done|].
    eexists b, _, nm. split; [done|]. split; [|done].
    pose proof (ca_ref _ _ _ _ Hc i b Hb Hi) as Hr. rewrite decide_False in Hr by done.
    unfold got. simpl. rewrite Hr. do 5 (split; [done|]). split; [|left; done].
    intros j bj Hne Hj Hbj Hdj Hxj. apply Hne. apply (ca_uniq _ _ _ _ Hc j i bj b); auto. congruence.
  - assert (forall j bj, (j < 30)%nat -> cbufs k !! j = Some bj -> b_dev bj = 1 -> b_blockno bj <> x) as Hno.
    { intros j bj Hj Hbj Hd Hx. eapply find_none in Efind; [|by apply (order_lt _ _ _ _ j Hc)].
      rewrite Hbj in Efind. simpl in Efind. by rewrite Hd, Hx, !Z.eqb_refl in Efind. }
    rewrite bind_eq, (get_buf_eq k1 head h) by (by rewrite Eb). cbn [res_bind].
    rewrite bind_eq, (proj2 (walk k k1 c pi q order held h _ Hm Hc Eb Hh)). cbn [res_bind].
    destruct Hroom as [(j & bj & Hj & Hbj & Hd & Hx & _)|[sp Hsp]]; [by destruct (Hno j bj)|].
    pose proof (spare_found _ _ _ _ _ Hc Hsp) as Hsome. destruct (List.find _ (rev order)) as [i|] eqn:Efind2; [|done].
    apply find_some in Efind2 as [Hin Ht]. rewrite <- (Permutation_rev order) in Hin.
    apply (order_lt _ _ _ _ _ Hc) in Hin as Hi.
    destruct (lookup_lt_is_Some_2 (cbufs k) i) as [b Hb]; [lia|]. rewrite Hb in Ht. simpl in Ht.
    apply andb_true_iff in Ht as [Er Ef]. apply Z.eqb_eq in Er.
    assert (i ∉ held) as Hih.
    { intros Hih. rewrite (ca_ref _ _ _ _ Hc i b Hb Hi), decide_True in Er by done. done. }
    do 4 (rewrite bind_eq, upd_buf_eq by (rewrite ?cbufs_with, ?length_alter, ?Eb; lia); cbn [res_bind];
      rewrite ?cbufs_with, ?with_bufs_twice, ?alter_alter_eq). rewrite Eb, (alter_insert _ _ _ _ Hb).
    eapply wp_mono; [|by apply (take_lock k k1 c pi q order held _ i)].
    intros r k2 (-> & Hg & Ef2 & nm & Es). split; [done|]. split; [done|]. split; [done|].
    eexists b, _, nm. split; [done|]. split; [|done]. unfold got. simpl. do 5 (split; [done|]).
    split; [by eauto|]. right. split; [done|]. intros E6. unfold flagged in Ef. by rewrite E6 in Ef.
Qed.

(** Nobody has a buffer for block [x] in hand. *)
Definition not_held (k : K) (held : gset nat) (x : Z) : Prop :=
  forall i b, i ∈ held -> cbufs k !! i = Some b -> ~ (b_dev b = 1 /\ b_blockno b = x).

(** Buffer [i] for block [x] is in the caller's hands; nothing else changed. *)
(** The locks of inodes are as they were. *)
Definition ilocks (k k' : K) : Prop := forall j, slock k' (SLinode j) = slock k (SLinode j).

Record took (k k' : K) (c pi : nat) (q : Z) (order : list nat) (held : gset nat) (x : Z) (i : nat) : Prop := {
  tk_on : goes_on c pi q k k';
  tk_lt : (i < 30)%nat;
  tk_new : i ∉ held;
  tk_fs : k_fs k' = set_bufs (cbufs k') (k_fs k);
  tk_cache : cache k' q order ({[i]} ∪ held);
  tk_buf : exists b, cbufs k' !! i = Some b /\ b_dev b = 1 /\ b_blockno b = x /\ b_data b = content k x /\
    (b_flags b = 2 /\ b_data b = dblock k x \/ b_flags b = 6 /\ dirty k x /\ length (b_data b) = 512%nat);
  tk_content : forall y, content k' y = content k y;
  tk_dirty : forall y, dirty k' y <-> dirty k y;
  tk_others : forall j, j <> i -> cbufs k' !! j = cbufs k !! j;
  tk_ilocks : ilocks k k'
}.

Lemma took_claimed k k' c pi q order held x i b b' nm :
  cache k q order held -> goes_on c pi q k k' -> (i < 30)%nat -> i ∉ held -> cbufs k !! i = Some b ->
  k_fs k' = set_bufs (<[i := b']> (cbufs k)) (k_fs k) ->
  k_slocks k' = <[SLbuf i := mkSleeplock 1 nm q]> (k_slocks k) ->
  b_dev b' = 1 /\ b_blockno b' = x /\ b_refcnt b' = 1 /\ b_next b' = b_next b /\ b_prev b' = b_prev b ->
  (forall j bj, j <> i -> (j < 30)%nat -> cbufs k !! j = Some bj -> b_dev bj = 1 -> b_blockno bj <> x) ->
  (b_flags b' = 2 /\ b_data b' = dblock k x /\ b_flags b <> 6) \/
    (b_flags b' = 6 /\ b_flags b = 6 /\ b_dev b = 1 /\ b_blockno b = x /\ b_data b' = b_data b) ->
  took k k' c pi q order held x i.
Proof.
  intros Hc Hg Hi Hih Hb Hfs Hsl Hb' Hoth Hdata.
  assert (cbufs k' = <[i := b']> (cbufs k)) as Ebs by (unfold cbufs; by rewrite Hfs).
  assert (cbufs k' !! i = Some b') as Eat by (by eapply claimed_at).
  assert (cache k' q order ({[i]} ∪ held)) as Hc' by (by eapply claimed_cache).
  assert (forall y, content k' y = content k y) as Hcont by (intros y; by eapply claimed_content).
  split; auto.
  - by rewrite Ebs.
  - exists b'. split; [done|]. destruct Hb' as (H1 & H2 & _). split; [done|]. split; [done|]. split.
    + rewrite <- Hcont. symmetry. eapply content_at; [done|done|done|].
      split; [done|]. split; [done|]. unfold flagged. by destruct Hdata as [(-> & _)|(-> & _)].
    + destruct Hdata as [(E1 & E2 & _)|(E1 & E2 & E3 & E4 & E5)]; [by left|right].
      split; [done|]. split; [by exists i, b|]. rewrite E5.
      by destruct (ca_idle _ _ _ _ Hc i b Hb Hi Hih) as [?|[[? _]|(_ & _ & ?)]]; [lia..|].
  - intros y. by eapply claimed_dirty.
  - intros j Hne. by rewrite Ebs, list_lookup_insert_ne.
  - intros j. by rewrite (slock_insert k' _ _ _ Hsl), decide_False.
Qed.

(** *** Links *)

Definition rff (bs : list buf) (i : nat) : Z := from_option b_refcnt 0 (bs !! i).

(** What a buffer is for, apart from the list and the reference count. *)
Definition bcore (b : buf) : Z * Z * Z * list Z := (b_flags b, b_dev b, b_blockno b, b_data b).

Lemma from_alter {A} (g : buf -> A) (f : buf -> buf) d (bs : list buf) (a x : nat) :
  (forall b, g (f b) = g b) -> from_option g d (alter f a bs !! x) = from_option g d (bs !! x).
Proof.
  intros H. destruct (decide (x = a)) as [->|Hne]; [|by rewrite list_lookup_alter_ne].
  rewrite list_lookup_alter_eq. destruct (bs !! a); simpl; [apply H|done].
Qed.

Lemma nxf_alter_next bs a v x : (a < length bs)%nat -> nxf (alter (set_b_next v) a bs) x = upd (nxf bs) a v x.
Proof.
  intros Ha. unfold nxf, upd. case_decide as E; [subst|by rewrite list_lookup_alter_ne].
  rewrite list_lookup_alter_eq. destruct (lookup_lt_is_Some_2 bs a Ha) as [b ->]. done.
Qed.

Lemma pvf_alter_prev bs a v x : (a < length bs)%nat -> pvf (alter (set_b_prev v) a bs) x = upd (pvf bs) a v x.
Proof.
  intros Ha. unfold pvf, upd. case_decide as E; [subst|by rewrite list_lookup_alter_ne].
  rewrite list_lookup_alter_eq. destruct (lookup_lt_is_Some_2 bs a Ha) as [b ->]. done.
Qed.

Lemma nxf_alter_prev bs a v x : nxf (alter (set_b_prev v) a bs) x = nxf bs x.
Proof. by apply from_alter. Qed.

Lemma pvf_alter_next bs a v x : pvf (alter (set_b_next v) a bs) x = pvf bs x.
Proof. by apply from_alter. Qed.

Lemma map_alter {A} (g : buf -> A) (f : buf -> buf) (a : nat) (bs : list buf) : (forall b, g (f b) = g b) -> g <$> alter f a bs = g <$> bs.
Proof.
  intros H. apply list_eq. intros j. rewrite !list_lookup_fmap. destruct (decide (j = a)) as [->|Hne].
  - rewrite list_lookup_alter_eq. destruct (bs !! a); simpl; [by rewrite H|done].
  - by rewrite list_lookup_alter_ne.
Qed.

(** The list operations of [brelse] on the array of buffers. *)
Definition unlinked (i : nat) (bs : list buf) : list buf :=
  alter (set_b_next (nxf bs i)) (pvf bs i) (alter (set_b_prev (pvf bs i)) (nxf bs i) bs).

Definition pushed_front (i : nat) (bs : list buf) : list buf :=
  alter (set_b_next i) head (alter (set_b_prev i) (nxf bs head)
    (alter (set_b_prev head) i (alter (set_b_next (nxf bs head)) i bs))).

Lemma length_pushed i bs : length (pushed_front i bs) = length bs.
Proof. unfold pushed_front. by rewrite !length_alter. Qed.

Lemma length_unlinked i bs : length (unlinked i bs) = length bs.
Proof. unfold unlinked. by rewrite !length_alter. Qed.

Lemma map_unlinked {A} (g : buf -> A) i bs :
  (forall b v, g (set_b_next v b) = g b) -> (forall b v, g (set_b_prev v b) = g b) -> g <$> unlinked i bs = g <$> bs.
Proof. intros H1 H2. unfold unlinked. rewrite !map_alter; auto. Qed.

Lemma map_pushed {A} (g : buf -> A) i bs :
  (forall b v, g (set_b_next v b) = g b) -> (forall b v, g (set_b_prev v b) = g b) -> g <$> pushed_front i bs = g <$> bs.
Proof. intros H1 H2. unfold pushed_front. rewrite !map_alter; auto. Qed.

(** All links lead to buffers. *)
Lemma chain_links nx pv x l y :
  chain nx pv x l y -> forall a, a ∈ x :: l -> nx a ∈ l ++ [y].
Proof.
  revert x. induction l as [|z l IH]; intros x Hc a Ha; simpl in *.
  - destruct Hc as [E _]. set_solver.
  - destruct Hc as (E & _ & Hc). apply elem_of_cons in Ha as [->|Ha]; [rewrite E; left|].
    right. by apply (IH z).
Qed.

Section Moved.
Context (bs : list buf) (l1 l2 : list nat) (i : nat).
Hypothesis (Hlen : length bs = 31%nat) (Hnd : NoDup (l1 ++ i :: l2)) (Hlt : forall a, a ∈ l1 ++ i :: l2 -> (a < 30)%nat).
Hypothesis (Hch : chain (nxf bs) (pvf bs) head (l1 ++ i :: l2) head).

Lemma moved_head a : a ∈ l1 ++ i :: l2 -> a <> head.
Proof. intros Ha ->. apply Hlt in Ha. change head with 30%nat in Ha. lia. Qed.

Lemma moved_next a : a ∈ head :: l1 ++ i :: l2 -> (nxf bs a < 31)%nat.
Proof.
  intros Ha. pose proof (chain_links _ _ _ _ _ Hch a Ha) as Hin. rewrite elem_of_app, list_elem_of_singleton in Hin.
  destruct Hin as [Hin| ->]; [apply Hlt in Hin; lia|]. change head with 30%nat. lia.
Qed.

Lemma moved_prev a : a ∈ head :: l1 ++ i :: l2 -> (pvf bs a < 31)%nat.
Proof.
  intros Ha. pose proof (chain_links _ _ _ _ _ (chain_rev _ _ _ _ _ Hch) a) as Hin.
  rewrite elem_of_cons, elem_of_app, list_elem_of_singleton, <- !(Permutation_rev (l1 ++ i :: l2)), <- elem_of_cons in Hin.
  destruct (Hin Ha) as [Hin'| ->]; [apply Hlt in Hin'; lia|]. change head with 30%nat. lia.
Qed.

Lemma unlinked_chain : chain (nxf (unlinked i bs)) (pvf (unlinked i bs)) head (l1 ++ l2) head.
Proof.
  assert (i ∈ head :: l1 ++ i :: l2) as Hi by set_solver.
  eapply chain_ext; [..|apply (chain_unlink (nxf bs) (pvf bs) head l1 i l2 head)]; try done.
  - intros a _. unfold unlinked. rewrite nxf_alter_next by (rewrite length_alter, Hlen; by apply moved_prev).
    unfold upd. case_decide; [done|]. apply nxf_alter_prev.
  - intros a _. unfold unlinked. rewrite pvf_alter_next. apply pvf_alter_prev. rewrite Hlen. by apply moved_next.
  - apply list.NoDup_cons. split; [|done]. intros Hh. by apply moved_head in Hh.
  - intros Hh. by apply moved_head in Hh.
Qed.

Lemma moved_chain :
  let bs' := pushed_front i (unlinked i bs) in chain (nxf bs') (pvf bs') head (i :: l1 ++ l2) head.
Proof.
  intros bs'. pose proof unlinked_chain as Hu. set (us := unlinked i bs) in *.
  assert (length us = 31%nat) as Hul by (unfold us; by rewrite length_unlinked).
  assert (i < 30)%nat as Hi by (apply Hlt; set_solver). change head with 30%nat in *.
  assert (forall a, a ∈ l1 ++ l2 -> (a < 30)%nat) as Hl by (intros a Ha; apply Hlt; set_solver).
  assert (nxf us 30 < 31)%nat as Hn.
  { pose proof (chain_links _ _ _ _ _ Hu 30%nat (list_elem_of_here _ _)) as Hin.
    rewrite elem_of_app, list_elem_of_singleton in Hin. destruct Hin as [Hin| ->]; [apply Hl in Hin; lia|lia]. }
  rewrite <- Permutation_middle in Hnd. apply list.NoDup_cons in Hnd as [Hin Hnd'].
  eapply chain_ext; [..|apply (chain_push (nxf us) (pvf us) 30 (l1 ++ l2) i 30)]; try done; try lia.
  - intros a _. unfold bs', pushed_front. fold us. change head with 30%nat. rewrite nxf_alter_next by (rewrite !length_alter; lia).
    apply upd_ext. intros y. rewrite !nxf_alter_prev. apply nxf_alter_next. lia.
  - intros a _. unfold bs', pushed_front. fold us. change head with 30%nat.
    rewrite pvf_alter_next, pvf_alter_prev by (rewrite !length_alter; lia). apply upd_ext. intros y.
    rewrite pvf_alter_prev by (rewrite length_alter; lia). apply upd_ext. intros z. apply pvf_alter_next.
  - rewrite elem_of_cons. intros [->|?]; [lia|done].
  - intros Hh. apply Hl in Hh. lia.
  - intros Hh. apply Hl in Hh. lia.
Qed.

End Moved.

(** *** Changing a buffer in hand *)

(** Buffer [i] in the caller's hands is [b] in [k] and [b'] in [k']; of the disk
    at most its block differs. *)
Section HeldChanged.
Context (k k' : K) (q x : Z) (order : list nat) (held : gset nat) (i : nat) (b b' : buf).
Hypothesis (Hc : cache k q order held) (Hih : i ∈ held) (Hb : cbufs k !! i = Some b).
Hypothesis (Ebs : cbufs k' = <[i := b']> (cbufs k)) (Hsl : k_slocks k' = k_slocks k).
Hypothesis (Hb' : b_dev b' = b_dev b /\ b_blockno b' = b_blockno b /\ b_refcnt b' = b_refcnt b /\
  b_next b' = b_next b /\ b_prev b' = b_prev b).
Hypothesis (Hx : b_dev b = 1 /\ b_blockno b = x).
Hypothesis (Hdisk : forall y, y <> x -> dblock k' y = dblock k y) (Hlen : length (dblock k' x) = 512%nat).

Lemma changed_lt : (i < 30)%nat.
Proof. by apply (ca_held _ _ _ _ Hc). Qed.

Lemma changed_other j bj : j <> i -> cbufs k' !! j = Some bj <-> cbufs k !! j = Some bj.
Proof. intros H. by rewrite Ebs, list_lookup_insert_ne. Qed.

Lemma changed_at : cbufs k' !! i = Some b'.
Proof. rewrite Ebs, list_lookup_insert_eq; [done|]. by eapply lookup_lt_Some. Qed.

Lemma changed_apart j bj : j <> i -> (j < 30)%nat -> cbufs k !! j = Some bj -> b_dev bj = 1 -> b_blockno bj <> x.
Proof.
  intros Hne Hj Hbj Hd E. apply Hne. destruct Hx. apply (ca_uniq _ _ _ _ Hc j i bj b); auto using changed_lt. congruence.
Qed.

Lemma changed_cache : cache k' q order held.
Proof.
  destruct Hb' as (E1 & E2 & E3 & E4 & E5). pose proof changed_apart as Hap.
  destruct Hc as [C1 C2 C3 C4 C5 C6 C7 C8 C9]. split; auto.
  - by rewrite Ebs, length_insert.
  - rewrite Ebs. eapply chain_ext; [..|exact C3]; intros a _; [by eapply nxf_insert|by eapply pvf_insert].
  - intros j Hj. specialize (C4 j Hj). unfold slock in *. by rewrite Hsl.
  - intros j bj Hj Hlt. rewrite Ebs in Hj. apply lookup_inserted in Hj as [[-> ->]|[_ Hj]]; [|auto].
    rewrite E3. auto.
  - intros j1 j2 b1 b2 H1 H2 L1 L2 D1 D2 E. rewrite Ebs in H1, H2.
    apply lookup_inserted in H1 as [[-> ->]|[N1 H1]]; apply lookup_inserted in H2 as [[-> ->]|[N2 H2]]; try done.
    + apply (C7 i j2 b b2); auto; congruence.
    + apply (C7 j1 i b1 b); auto; congruence.
    + eapply C7; eauto.
  - intros j bj Hj Hlt Hnh. assert (j <> i) as Hne by congruence. apply changed_other in Hj; [|done].
    destruct (C8 j bj Hj Hlt Hnh) as [?|[(? & Hd & ?)|?]]; [by left|right; left|by right; right].
    rewrite Hdisk by eauto. done.
  - intros y. destruct (decide (y = x)) as [->|]; [done|]. by rewrite Hdisk.
Qed.

Lemma changed_content y : y <> x -> content k' y = content k y.
Proof.
  intros Hy. destruct Hb' as (E1 & E2 & _). destruct Hx as [Hd Hn].
  destruct (content_spec k q order held y Hc) as [(j & bj & Hj & Hbj & Hv & ->)|[Hno ->]].
  - assert (j <> i). { intros ->. rewrite Hb in Hbj. injection Hbj as <-. destruct Hv as (_ & ? & _). congruence. }
    eapply (content_at k' q order held j); [apply changed_cache|by apply changed_other|done|done].
  - rewrite content_none; [by apply Hdisk|]. intros j bj Hbj Hj Hv. rewrite Ebs in Hbj.
    apply lookup_inserted in Hbj as [[-> ->]|[_ Hbj]]; [destruct Hv as (_ & ? & _); congruence|].
    by apply (Hno j bj).
Qed.

Lemma changed_content_at : flagged B_VALID b' = true -> content k' x = b_data b'.
Proof.
  intros Hv. destruct Hb' as (E1 & E2 & _). destruct Hx as [Hd Hn].
  eapply (content_at k' q order held i); [apply changed_cache|apply changed_at|apply changed_lt|].
  split; [congruence|]. split; [congruence|done].
Qed.

Lemma changed_dirty y : y <> x -> dirty k' y <-> dirty k y.
Proof.
  intros Hy. destruct Hb' as (E1 & E2 & _). destruct Hx as [Hd Hn].
  split; intros (j & bj & Hj & Hbj & Hdj & Hnj & Hfj); assert (j <> i) as Hne.
  - intros ->. rewrite changed_at in Hbj. congruence.
  - exists j, bj. by rewrite <- changed_other.
  - intros ->. rewrite Hb in Hbj. congruence.
  - exists j, bj. by rewrite changed_other.
Qed.

Lemma changed_dirty_at : dirty k' x <-> b_flags b' = 6.
Proof.
  destruct Hb' as (E1 & E2 & _). destruct Hx as [Hd Hn]. split.
  - intros (j & bj & Hj & Hbj & Hdj & Hnj & Hfj). rewrite Ebs in Hbj.
    apply lookup_inserted in Hbj as [[-> ->]|[Hne Hbj]]; [done|]. by destruct (changed_apart j bj).
  - intros E. exists i, b'. rewrite changed_at. repeat split; auto using changed_lt; congruence.
Qed.

End HeldChanged.

(** *** Giving a buffer back *)

Lemma bcore_lookup (bs bs' : list buf) i b :
  bcore <$> bs' = bcore <$> bs -> bs !! i = Some b -> exists b', bs' !! i = Some b' /\ bcore b' = bcore b.
Proof.
  intros E Hb. apply (f_equal (.!! i)) in E. rewrite !list_lookup_fmap, Hb in E.
  destruct (bs' !! i) as [b'|]; [|done]. simpl in E. exists b'. split; [done|congruence].
Qed.

Lemma bcore_content k k' q order held order' held' :
  cache k q order held -> cache k' q order' held' -> bcore <$> cbufs k' = bcore <$> cbufs k ->
  (forall y, dblock k' y = dblock k y) -> forall y, content k' y = content k y.
Proof.
  intros Hc Hc' E Hd y.
  destruct (content_spec k q order held y Hc) as [(j & bj & Hj & Hbj & Hv & ->)|[Hno ->]].
  - destruct (bcore_lookup _ _ _ _ E Hbj) as (b' & Hb' & Ec). injection Ec as E1 E2 E3 E4. rewrite <- E4.
    eapply (content_at k' q order' held' j); [done|done|done|]. unfold caches, flagged in *. by rewrite E1, E2, E3.
  - rewrite content_none; [done|]. intros j b' Hb' Hj Hv.
    destruct (bcore_lookup _ _ _ _ (eq_sym E) Hb') as (b & Hb & Ec). injection Ec as E1 E2 E3 E4.
    apply (Hno j b Hb Hj). unfold caches, flagged in *. by rewrite E1, E2, E3.
Qed.

Lemma bcore_dirty k k' : bcore <$> cbufs k' = bcore <$> cbufs k -> forall y, dirty k' y <-> dirty k y.
Proof.
  assert (forall k k', bcore <$> cbufs k' = bcore <$> cbufs k -> forall y, dirty k y -> dirty k' y) as H.
  { clear. intros k k' E y (j & b & Hj & Hb & H1 & H2 & H3).
    destruct (bcore_lookup _ _ _ _ E Hb) as (b' & Hb' & Ec). injection Ec as E1 E2 E3 E4.
    exists j, b'. repeat split; congruence. }
  intros E y. split; apply H; auto.
Qed.

(** A cache whose buffer [i] was moved to the front, with nobody using it. *)
Lemma released_cache k k' q l1 l2 held i b nm :
  cache k q (l1 ++ i :: l2) held -> i ∈ held -> cbufs k !! i = Some b -> idle_ok k b ->
  k_fs k' = set_bufs (pushed_front i (unlinked i (<[i := set_b_refcnt 0 b]> (cbufs k)))) (k_fs k) ->
  k_slocks k' = <[SLbuf i := mkSleeplock 0 nm 0]> (k_slocks k) ->
  cache k' q (i :: l1 ++ l2) (held ∖ {[i]}) /\ bcore <$> cbufs k' = bcore <$> cbufs k.
Proof.
  intros Hc Hih Hb Hid Hfs Hsl. pose proof (ca_held _ _ _ _ Hc i Hih) as Hi.
  set (bs := <[i := set_b_refcnt 0 b]> (cbufs k)) in *.
  assert (cbufs k' = pushed_front i (unlinked i bs)) as Eb by (unfold cbufs; by rewrite Hfs).
  assert (forall y, dblock k' y = dblock k y) as Hdb by (intros y; unfold dblock; by rewrite Hfs).
  assert (bcore <$> cbufs k' = bcore <$> cbufs k) as Ec.
  { rewrite Eb, map_pushed, map_unlinked by done. unfold bs. rewrite <- (alter_insert _ _ b (set_b_refcnt 0)) by done.
    by apply map_alter. }
  assert (b_refcnt <$> cbufs k' = b_refcnt <$> bs) as Er by (by rewrite Eb, map_pushed, map_unlinked).
  destruct Hc as [C1 C2 C3 C4 C5 C6 C7 C8 C9]. split; [|done]. split.
  - by rewrite Eb, length_pushed, length_unlinked; unfold bs; rewrite length_insert.
  - by rewrite Permutation_middle.
  - rewrite Eb. apply moved_chain.
    + unfold bs. by rewrite length_insert.
    + rewrite C2. apply NoDup_seq.
    + intros a. rewrite C2, elem_of_seq. lia.
    + unfold bs. eapply chain_ext; [..|exact C3]; intros a _; [by eapply nxf_insert|by eapply pvf_insert].
  - intros j Hj. rewrite (slock_insert k' _ _ _ Hsl). specialize (C4 j Hj).
    destruct (decide (SLbuf j = SLbuf i)) as [[= ->]|Hne]; [by rewrite decide_False by set_solver|].
    fold (slock k (SLbuf j)). assert (j <> i) by congruence.
    destruct (decide (j ∈ held)); [rewrite decide_True by set_solver|rewrite decide_False by set_solver]; done.
  - intros j Hj. apply C5. set_solver.
  - intros j bj Hbj Hj. apply (f_equal (.!! j)) in Er. rewrite !list_lookup_fmap, Hbj in Er. simpl in Er. unfold bs in Er.
    destruct (decide (j = i)) as [->|Hne].
    + rewrite list_lookup_insert_eq in Er by lia. simpl in Er. rewrite decide_False by set_solver. congruence.
    + rewrite list_lookup_insert_ne in Er by done. destruct (cbufs k !! j) as [bj'|] eqn:Ebj; [|done].
      simpl in Er. injection Er as ->. rewrite (C6 j bj' Ebj Hj).
      destruct (decide (j ∈ held)); [rewrite decide_True by set_solver|rewrite decide_False by set_solver]; done.
  - intros j1 j2 b1 b2 H1 H2 L1 L2 D1 D2 E.
    destruct (bcore_lookup _ _ _ _ (eq_sym Ec) H1) as (b1' & H1' & [= E11 E12 E13 E14]).
    destruct (bcore_lookup _ _ _ _ (eq_sym Ec) H2) as (b2' & H2' & [= E21 E22 E23 E24]).
    apply (C7 j1 j2 b1' b2'); auto; congruence.
  - intros j bj Hbj Hj Hnh. destruct (bcore_lookup _ _ _ _ (eq_sym Ec) Hbj) as (bj' & Hbj' & [= E1 E2 E3 E4]).
    assert (idle_ok k bj') as Hok.
    { destruct (decide (j = i)) as [->|Hne]; [congruence|]. apply (C8 j); [done|done|]. set_solver. }
    unfold idle_ok in *. rewrite Hdb. by rewrite <- E1, <- E2, <- E3, <- E4.
  - intros y. by rewrite Hdb.
Qed.

Lemma get_buf_links k i :
  (i < length (cbufs k))%nat ->
  exists b, get_buf i k = Done b k /\ b_next b = nxf (cbufs k) i /\ b_prev b = pvf (cbufs k) i.
Proof.
  intros Hi. destruct (lookup_lt_is_Some_2 (cbufs k) i Hi) as [b Hb]. exists b.
  unfold nxf, pvf. by rewrite Hb, (get_buf_eq _ _ _ Hb).
Qed.

Lemma push_front_eq {BD : BlockDev} k i :
  length (cbufs k) = 31%nat -> (i < 30)%nat -> (nxf (cbufs k) head < 31)%nat ->
  push_front i k = Done tt (with_bufs (pushed_front i (cbufs k)) k).
Proof.
  intros Hlen Hi Hn. unfold push_front. change head with 30%nat in *.
  destruct (get_buf_links k 30) as (h & Eh & En & _); [lia|]. rewrite bind_eq, Eh. cbn [res_bind].
  do 2 (rewrite bind_eq, upd_buf_eq by (rewrite ?cbufs_with, ?length_alter; lia); cbn [res_bind];
    rewrite ?cbufs_with, ?with_bufs_twice).
  match goal with |- bind _ _ ?x = _ => destruct (get_buf_links x 30) as (h' & Eh' & En' & _) end.
  { rewrite cbufs_with, !length_alter. lia. }
  rewrite bind_eq, Eh'. cbn [res_bind]. rewrite cbufs_with, nxf_alter_prev, nxf_alter_next, upd_ne in En' by lia.
  rewrite En', En. rewrite bind_eq, upd_buf_eq by (rewrite cbufs_with, !length_alter; lia). cbn [res_bind].
  rewrite !cbufs_with, !with_bufs_twice, upd_buf_eq by (rewrite cbufs_with, !length_alter; lia). by rewrite cbufs_with, with_bufs_twice.
Qed.

Lemma relink_eq {BD : BlockDev} k i l1 l2 b :
  length (cbufs k) = 31%nat -> NoDup (l1 ++ i :: l2) -> (forall a, a ∈ l1 ++ i :: l2 -> (a < 30)%nat) ->
  chain (nxf (cbufs k)) (pvf (cbufs k)) head (l1 ++ i :: l2) head -> cbufs k !! i = Some b ->
  (upd_buf (b_next b) (set_b_prev (b_prev b)) ;;
   b <- get_buf i ;;
   upd_buf (b_prev b) (set_b_next (b_next b)) ;;
   push_front i) k = Done tt (with_bufs (pushed_front i (unlinked i (cbufs k))) k).
Proof.
  intros Hlen Hnd Hlt Hch Hb. assert (i ∈ head :: l1 ++ i :: l2) as Hin by set_solver.
  assert (i < 30)%nat as Hi by (apply Hlt; set_solver).
  pose proof (moved_next _ _ _ _ Hlen Hlt Hch i Hin) as Hn. pose proof (moved_prev _ _ _ _ Hlen Hlt Hch i Hin) as Hp.
  assert (b_next b = nxf (cbufs k) i /\ b_prev b = pvf (cbufs k) i) as [-> ->] by (unfold nxf, pvf; by rewrite Hb).
  assert (nxf (cbufs k) i <> i) as Hne.
  { intros E. apply chain_app in Hch as [_ Hch]. rewrite (chain_first _ _ _ _ _ Hch) in E.
    apply list.NoDup_app in Hnd as (_ & _ & Hnd). apply list.NoDup_cons in Hnd as [Hnd _].
    destruct l2; simpl in E; [|set_solver]. change head with 30%nat in E. lia. }
  rewrite bind_eq, upd_buf_eq by lia. cbn [res_bind].
  match goal with |- bind _ _ ?x = _ => destruct (get_buf_links x i) as (b' & Eb' & En' & Ep') end.
  { rewrite cbufs_with, length_alter. lia. }
  rewrite cbufs_with, nxf_alter_prev in En'. rewrite cbufs_with, pvf_alter_prev, upd_ne in Ep' by (lia || done).
  rewrite bind_eq, Eb'. cbn [res_bind]. rewrite En', Ep'.
  rewrite bind_eq, upd_buf_eq by (rewrite cbufs_with, length_alter; lia). cbn [res_bind].
  rewrite cbufs_with, with_bufs_twice. fold (unlinked i (cbufs k)). rewrite push_front_eq; [done|..|].
  - by rewrite cbufs_with, length_unlinked.
  - done.
  - rewrite cbufs_with. pose proof (unlinked_chain _ _ _ _ Hlen Hnd Hlt Hch) as Hu.
    rewrite (chain_first _ _ _ _ _ Hu). destruct (l1 ++ l2) as [|a l] eqn:El; simpl; [change head with 30%nat; lia|].
    assert (a ∈ l1 ++ l2) as Ha by (rewrite El; left). assert (a < 30)%nat; [|lia]. apply Hlt. set_solver.
Qed.

(** [brelse] gives back a buffer that agrees with the disk or is marked dirty. *)
Lemma brelse_full {BD : BlockDev} k c pi q order held i b :
  me k c pi q -> cache k q order held -> i ∈ held -> cbufs k !! i = Some b -> idle_ok k b ->
  runs (brelse i) k (fun _ k' => ilocks k k' /\ goes_on c pi q k k' /\ k_fs k' = set_bufs (cbufs k') (k_fs k) /\
    bcore <$> cbufs k' = bcore <$> cbufs k /\ exists order', cache k' q order' (held ∖ {[i]})).
Proof.
  intros Hm Hc Hih Hb Hid. pose proof (ca_held _ _ _ _ Hc i Hih) as Hi. pose proof (ca_len _ _ _ _ Hc) as Hlen.
  pose proof (ca_locks _ _ _ _ Hc i Hi) as Hl. rewrite decide_True in Hl by done.
  assert (exists l1 l2, order = l1 ++ i :: l2) as (l1 & l2 & ->) by (apply list_elem_of_split, (order_lt _ _ _ _ _ Hc), Hi).
  unfold runs, brelse. wp_call (locked_mine k c pi q (SLbuf i) Hm Hl). intros r k1 (-> & Hg1 & Ef1 & Es1). cbn [negb].
  wp_call (releasesleep_frees k1 c pi q (SLbuf i) (proj1 Hg1)). intros _ k2 (Hg2 & Ef2 & Es2).
  wp_call (acquire_holds k2 c 0 [] LKbcache (me_holds _ _ _ _ (proj1 Hg2)) (not_elem_of_nil _)); [|lia].
  intros _ k3 [Hk3 Hc3]. assert (cbufs k3 = cbufs k) as Eb by (unfold cbufs; by rewrite (core_fs _ _ Hc3), Ef2, Ef1).
  rewrite bind_eq, upd_buf_eq by (rewrite Eb; lia). cbn [res_bind]. rewrite Eb, (alter_insert _ _ _ _ Hb).
  pose proof (ca_ref _ _ _ _ Hc i b Hb Hi) as Hr. rewrite decide_True in Hr by done. rewrite Hr.
  change (u32 (1 - 1)) with 0. set (b0 := set_b_refcnt 0 b). set (bs := <[i := b0]> (cbufs k)).
  assert (bs !! i = Some b0) as Hb0 by (unfold bs; rewrite list_lookup_insert_eq by lia; done).
  rewrite bind_eq, (get_buf_eq _ i b0) by (by rewrite cbufs_with). cbn [res_bind].
  change (b_refcnt b0 =? 0) with true. cbn [when]. rewrite bind_eq, (relink_eq _ i l1 l2 b0); rewrite ?cbufs_with; try done.
  - cbn [res_bind]. rewrite with_bufs_twice.
    eapply wp_mono; [|apply (unlock_bcache k2 k3 c pi q _ (proj1 Hg2) Hk3 Hc3)].
    intros _ k4 (Hg4 & Ef4 & Es4). rewrite Ef2, Ef1 in Ef4. rewrite Es2, Es1 in Es4.
    destruct (released_cache k k4 q l1 l2 held i b _ Hc Hih Hb Hid Ef4 Es4) as [Hc4 Ec4].
    split; [intros j; by rewrite (slock_insert k4 _ _ _ Es4), decide_False|].
    split; [eapply goes_on_trans; [exact Hg1|]; eapply goes_on_trans; [exact Hg2|exact Hg4]|].
    split; [rewrite Ef4; unfold cbufs; by rewrite Ef4|]. split; [done|]. by eexists.
  - unfold bs. by rewrite length_insert.
  - rewrite (ca_order _ _ _ _ Hc). apply NoDup_seq.
  - intros a. apply (order_lt _ _ _ _ _ Hc).
  - unfold bs. eapply chain_ext; [..|apply Hc]; intros a _; [by eapply nxf_insert|by eapply pvf_insert].
Qed.

Lemma brelse_spec {BD : BlockDev} k c pi q order held i b :
  me k c pi q -> cache k q order held -> i ∈ held -> cbufs k !! i = Some b -> idle_ok k b ->
  runs (brelse i) k (fun _ k' => goes_on c pi q k k' /\ k_fs k' = set_bufs (cbufs k') (k_fs k) /\
    bcore <$> cbufs k' = bcore <$> cbufs k /\ exists order', cache k' q order' (held ∖ {[i]})).
Proof. intros Hm Hc Hih Hb Hid. eapply runs_mono; [by eapply brelse_full|]. by intros _ k' [_ H]. Qed.

Context (lost : gmap (Z * Z) (list Z) -> Z -> bool).

#[local] Instance power : BlockDev := power_dev lost.

(** [bread] returns the block's buffer with the current contents. *)
Lemma bread_spec k c pi q order held x :
  me k c pi q -> cache k q order held -> x < disksize (k_fs k) -> not_held k held x ->
  (dirty k x \/ exists i, spare k held i) ->
  runs (bread 1 x) k (fun i k' => took k k' c pi q order held x i).
Proof.
  intros Hm Hc Hx Hnh Hroom. unfold runs, bread. wp_call (bget_gets k c pi q order held x Hm Hc Hnh Hroom).
  intros i k1 (Hg1 & Hi & Hih & b & b1 & nm & Hb & (E1 & E2 & E3 & E4 & E5 & Hoth & Hcase) & Ef1 & Es1).
  assert (cbufs k1 = <[i := b1]> (cbufs k)) as Ebs by (unfold cbufs; by rewrite Ef1).
  assert (cbufs k1 !! i = Some b1) as Hb1.
  { rewrite Ebs, list_lookup_insert_eq; [done|]. by eapply lookup_lt_Some. }
  rewrite bind_eq, (get_buf_eq _ _ _ Hb1). cbn [res_bind].
  pose proof (ca_idle _ _ _ _ Hc i b Hb Hi Hih) as Hid.
  destruct (decide (b_flags b1 = 0)) as [E0|N0].
  - replace (flagged B_VALID b1) with false by (unfold flagged; by rewrite E0). cbn [negb when].
    unfold iderw, power, power_dev.
    wp_call (iderw_read lost k1 c pi q i b1 (proj1 Hg1)); [|..|done|done|done|by rewrite E2, Ef1].
    2:{ rewrite (slock_insert k1 _ _ _ Es1), decide_True by done. done. }
    intros _ k2 (Hg2 & Es2 & Ef2). kred. eapply (took_claimed k k2 c pi q order held x i b
      (set_b_flags 2 (set_b_data (dblock k1 (b_blockno b1)) b1))); try done.
    + by eapply goes_on_trans.
    + rewrite Ef2, Ef1, (alter_insert _ _ _ _ Hb1), Ebs, set_bufs_twice, list_insert_insert_eq. done.
    + by rewrite Es2, Es1.
    + left. simpl. split; [done|]. split; [unfold dblock; by rewrite E2, Ef1|].
      destruct Hcase as [(_ & _ & <- & _)|[_ ?]]; [lia|done].
  - destruct Hcase as [(D1 & D2 & D3 & D4)|[? _]]; [|done].
    replace (flagged B_VALID b1) with true.
    2:{ unfold flagged. rewrite D3. by destruct Hid as [?|[[-> _]|[-> _]]]; [congruence|..]. }
    cbn [negb when]. kred. eapply (took_claimed k k1 c pi q order held x i b b1); try done.
    destruct Hid as [?|[(F & _ & Fd)|(F & Fl & _)]]; [congruence|left|right].
    + rewrite D3, D4, F, Fd, D2. done.
    + rewrite D3, D4. done.
Qed.

Lemma disk_block_set k x d y :
  disk_block (set_disk (<[(1, x) := d]> (disk (k_fs k))) (k_fs k)) 1 y = if decide (y = x) then d else dblock k y.
Proof.
  unfold dblock, disk_block. simpl. case_decide as E; [subst; by rewrite lookup_insert_eq|].
  rewrite lookup_insert_ne by congruence. done.
Qed.

(** [bwrite] writes the buffer to disk, or the machine stops before that. *)
Lemma bwrite_spec k c pi q order held i b x :
  me k c pi q -> cache k q order held -> i ∈ held -> cbufs k !! i = Some b -> b_dev b = 1 -> b_blockno b = x ->
  (b_flags b = 2 \/ b_flags b = 6) -> length (b_data b) = 512%nat -> x < disksize (k_fs k) ->
  ends (bwrite i k) (fun _ k' => goes_on c pi q k k' /\ k_slocks k' = k_slocks k /\
      k_fs k' = set_bufs (<[i := set_b_flags 2 b]> (cbufs k)) (set_disk (<[(1, x) := b_data b]> (disk (k_fs k))) (k_fs k)) /\
      cache k' q order held)
    (fun k' => disk (k_fs k') = disk (k_fs k)).
Proof.
  intros Hm Hc Hih Hb Hd Hn Hf Hlen Hx. pose proof (ca_held _ _ _ _ Hc i Hih) as Hi.
  pose proof (ca_locks _ _ _ _ Hc i Hi) as Hl. rewrite decide_True in Hl by done.
  unfold bwrite. ends_run (locked_mine k c pi q (SLbuf i) Hm Hl). intros r k1 (-> & Hg1 & Ef1 & Es1). cbn [negb].
  assert (cbufs k1 = cbufs k) as Eb by (unfold cbufs; by rewrite Ef1). pose proof (ca_len _ _ _ _ Hc) as Hl31.
  rewrite bind_eq, upd_buf_eq by (rewrite Eb; lia). cbn [res_bind]. rewrite Eb, (alter_insert _ _ _ _ Hb).
  set (k2 := with_bufs _ k1). assert (cbufs k2 !! i = Some (set_b_flags 6 b)) as Hb2.
  { unfold k2. rewrite cbufs_with, list_lookup_insert_eq by lia. do 2 f_equal. by destruct Hf as [-> | ->]. }
  unfold iderw, power, power_dev. eapply ends_mono; [..|apply (iderw_write lost k2 c pi q i (set_b_flags 6 b))].
  - intros _ k3 (Hg3 & Es3 & Ef3).
    rewrite (alter_insert _ _ _ _ Hb2) in Ef3. unfold k2 in Ef3. rewrite cbufs_with, list_insert_insert_eq in Ef3.
    simpl in Ef3. rewrite Ef1, Hn in Ef3. split; [|split; [by rewrite Es3|split; [done|]]].
    + eapply goes_on_trans; [exact Hg1|]. eapply goes_on_trans; [|exact Hg3]. split; [apply me_fs, Hg1|done].
    + assert (forall y, dblock k3 y = if decide (y = x) then b_data b else dblock k y) as Hdb.
      { intros y. rewrite <- disk_block_set. unfold dblock. by rewrite Ef3. }
      eapply (changed_cache k k3 q x order held i b (set_b_flags 2 b)); try done.
      * unfold cbufs. by rewrite Ef3.
      * by rewrite Es3.
      * intros y Hy. by rewrite Hdb, decide_False.
      * by rewrite Hdb, decide_True.
  - intros s' ->. unfold k2. simpl. by rewrite Ef1.
  - apply me_fs, Hg1.
  - unfold k2, slock. simpl. by rewrite Es1.
  - done.
  - done.
  - done.
  - unfold k2. simpl. by rewrite Ef1, Hn.
Qed.

End BioSpec.
