(* ===== verification/Log.v ===== *)
(** * The log (log.c)

    File-system calls run between [begin_op] and [end_op]; the blocks they
    change are recorded with [log_write] and written to disk together when the
    last call in progress ends: first to the log, then the header (the commit
    point), then to their places. *)

From S2P Require Import Prelude Params State Spinlock Seg Proc FsState Sleeplock BlockDev Ide Bio.

Section Log.
  Context {LK : Linker} {FU : Fuel} {BD : BlockDev}.

(** [log.lh.block[i]] for reading and writing. *)
Definition get_lh_block (i : Z) : M K Z :=
  l <- get_log ;; deref "log.lh.block" (lh_block (lg_lh l) !! Z.to_nat i).

Definition put_lh_block (i v : Z) : M K unit :=
  get_lh_block i ;;
  upd_log (fun l => set_lg_lh (set_lh_block (<[Z.to_nat i := s32 v]> (lh_block (lg_lh l))) (lg_lh l)) l).

Definition set_n (n : Z) : M K unit := upd_log (fun l => set_lg_lh (set_lh_n n (lg_lh l)) l).

(** [for(tail = ...; tail < log.lh.n; tail++) body]: past the end of the array
    of [LOGSIZE] block numbers the body is undefined, so that [fuel] steps,
    one more than the array has, are enough. *)
(* log.c 74-74: install_trans *)
Fixpoint for_logged (n : nat) (tail : Z) (body : Z -> M K unit) : M K unit :=
  l <- get_log ;;
  if negb (tail <? lh_n (lg_lh l)) then ret tt else
  match n with
  | O => fun k => NoFuel k
  | S n' => body tail ;; for_logged n' (tail + 1) body
  end.

Definition log_slots : nat := S (Z.to_nat LOGSIZE).

(* log.c 69-82: install_trans *)
Definition install_trans : M K unit :=
  for_logged log_slots 0 (fun tail =>
    l <- get_log ;;
    lbuf <- bread (u32 (lg_dev l)) (u32 (lg_start l + tail + 1)) ;;
    l <- get_log ;;
    bn <- get_lh_block tail ;;
    dbuf <- bread (u32 (lg_dev l)) (u32 bn) ;;
    b <- get_buf lbuf ;;
    upd_buf dbuf (set_b_data (b_data b)) ;;
    bwrite dbuf ;;
    brelse lbuf ;;
    brelse dbuf).

(* log.c 85-96: read_head *)
Definition read_head : M K unit :=
  l <- get_log ;;
  i <- bread (u32 (lg_dev l)) (u32 (lg_start l)) ;;
  b <- get_buf i ;;
  set_n (s32 (word_at (b_data b) 0)) ;;
  for_logged log_slots 0 (fun j =>
    b <- get_buf i ;;
    put_lh_block j (word_at (b_data b) (4 + 4 * Z.to_nat j))) ;;
  brelse i.

(* log.c 101-113: write_head *)
Definition write_head : M K unit :=
  l <- get_log ;;
  i <- bread (u32 (lg_dev l)) (u32 (lg_start l)) ;;
  l <- get_log ;;
  upd_buf i (fun b => set_b_data (put_word (b_data b) 0 (lh_n (lg_lh l))) b) ;;
  for_logged log_slots 0 (fun j =>
    bn <- get_lh_block j ;;
    upd_buf i (fun b => set_b_data (put_word (b_data b) (4 + 4 * Z.to_nat j) bn) b)) ;;
  bwrite i ;;
  brelse i.

(* log.c 115-122: recover_from_log *)
Definition recover_from_log : M K unit :=
  read_head ;;
  install_trans ;;
  set_n 0 ;;
  write_head.

(** One pass of the loop of [begin_op]: whether the call may start. *)
(* log.c 129-140: begin_op *)
Definition begin_op_pass : M K (option unit) :=
  l <- get_log ;;
  if nz (lg_committing l) then sleep ChLog LKlog ;; ret None
  else if lh_n (lg_lh l) + (lg_outstanding l + 1) * MAXOPBLOCKS >? LOGSIZE
  then sleep ChLog LKlog ;; ret None
  else
    upd_log (fun l => set_lg_outstanding (lg_outstanding l + 1) l) ;;
    release LKlog ;;
    ret (Some tt).

(* log.c 125-141: begin_op *)
Definition begin_op : M K unit :=
  acquire LKlog ;;
  loop fuel begin_op_pass.

(* log.c 177-190: write_log *)
Definition write_log : M K unit :=
  for_logged log_slots 0 (fun tail =>
    l <- get_log ;;
    to <- bread (u32 (lg_dev l)) (u32 (lg_start l + tail + 1)) ;;
    l <- get_log ;;
    bn <- get_lh_block tail ;;
    from <- bread (u32 (lg_dev l)) (u32 bn) ;;
    b <- get_buf from ;;
    upd_buf to (set_b_data (b_data b)) ;;
    bwrite to ;;
    brelse from ;;
    brelse to).

(* log.c 192-202: commit *)
Definition commit : M K unit :=
  l <- get_log ;;
  when (lh_n (lg_lh l) >? 0)
    (write_log ;;
     write_head ;;
     install_trans ;;
     set_n 0 ;;
     write_head).

(* log.c 145-174: end_op *)
Definition end_op : M K unit :=
  acquire LKlog ;;
  upd_log (fun l => set_lg_outstanding (lg_outstanding l - 1) l) ;;
  l <- get_log ;;
  if nz (lg_committing l) then panic "log.committing" else
  do_commit <- (if lg_outstanding l =? 0 then upd_log (set_lg_committing 1) ;; ret true
                else wakeup ChLog ;; ret false) ;;
  release LKlog ;;
  when do_commit
    (commit ;;
     acquire LKlog ;;
     upd_log (set_lg_committing 0) ;;
     wakeup ChLog ;;
     release LKlog).

(** The index of the block in the log, or the first free one. *)
(* log.c 224-227: log_write *)
Fixpoint find_logged (n : nat) (i bn : Z) : M K Z :=
  l <- get_log ;;
  if negb (i <? lh_n (lg_lh l)) then ret i else
  match n with
  | O => fun k => NoFuel k
  | S n' =>
      x <- get_lh_block i ;;
      if u32 x =? bn then ret i else find_logged n' (i + 1) bn
  end.

(* log.c 213-233: log_write *)
Definition log_write (b : nat) : M K unit :=
  l <- get_log ;;
  if (lh_n (lg_lh l) >=? LOGSIZE) || (lh_n (lg_lh l) >=? lg_size l - 1)
  then panic "too big a transaction" else
  if lg_outstanding l <? 1 then panic "log_write outside of trans" else
  acquire LKlog ;;
  bb <- get_buf b ;;
  i <- find_logged log_slots 0 (b_blockno bb) ;;
  put_lh_block i (b_blockno bb) ;;
  l <- get_log ;;
  when (i =? lh_n (lg_lh l)) (set_n (lh_n (lg_lh l) + 1)) ;;
  upd_buf b (fun b => set_b_flags (Z.lor (b_flags b) B_DIRTY) b) ;;
  release LKlog.

(** The super block in the bytes of its block. *)
Definition get_superblock (bs : list Z) : superblock :=
  mkSb (word_at bs 0) (word_at bs 4) (word_at bs 8) (word_at bs 12) (word_at bs 16) (word_at bs 20) (word_at bs 24).

(* fs.c 31-39: readsb *)
Definition readsb (dev : Z) : M K superblock :=
  i <- bread (u32 dev) 1 ;;
  b <- get_buf i ;;
  let s := get_superblock (b_data b) in
  brelse i ;;
  ret s.

(** The size of the header is a constant: 124 bytes, less than a block. *)
(* log.c 53-66: initlog *)
Definition initlog (dev : Z) : M K unit :=
  if 4 + 4 * LOGSIZE >=? BSIZE then panic "initlog: too big logheader" else
  initlock LKlog "log" ;;
  s <- readsb dev ;;
  upd_log (set_lg_start (s32 (sb_logstart s))) ;;
  upd_log (set_lg_size (s32 (sb_nlog s))) ;;
  upd_log (set_lg_dev dev) ;;
  recover_from_log.

End Log.
