(* ===== verification/LogSpec.v ===== *)
(** * Crash safety of the log (log.c)

    A commit makes the blocks of a transaction durable all together or not at
    all, at whatever disk write the machine stops; recovery after a crash may
    itself be cut off any number of times.  The disk is seen as a function from
    block numbers to contents; [recovered] is what recovery makes of it. *)

From S2P Require Import Prelude Params State Spinlock Seg Proc ProcSpec ProcRefine SleepWake FsState Sleeplock Demo DemoFs.
From S2P Require Import SleeplockSpec Ring BlockDev Ide Memide Bio BioSpec Log.

(** ** What is on the disk *)

(** The home addresses in the header block [h]. *)
Definition header (h : list Z) : list Z :=
  (fun j => word_at h (4 + 4 * j)) <$> seq 0 (Z.to_nat (s32 (word_at h 0))).

(** Log blocks [st + 1 + j], ... are copied to their homes. *)
Fixpoint installs (st j : Z) (homes : list Z) (d : Z -> list Z) : Z -> list Z :=
  match homes with
  | [] => d
  | b :: bs => installs st (j + 1) bs (fun x => if x =? b then d (st + 1 + j) else d x)
  end.

(** The contents after recovery of a disk whose log starts at [st]. *)
Definition recovered (st : Z) (d : Z -> list Z) : Z -> list Z := installs st 0 (header (d st)) d.

(** Block [y] gets the last log block recorded for it; others are unchanged. *)
Lemma installs_spec st i l d y :
  (forall b, b ∈ l -> b < st \/ st + 29 < b) -> 0 <= i -> i + Z.of_nat (length l) <= 29 ->
  (forall t, l !! t = Some y -> (forall t', (t < t')%nat -> l !! t' <> Some y) ->
     installs st i l d y = d (st + 1 + i + Z.of_nat t)) /\
  (y ∉ l -> installs st i l d y = d y).
Proof.
  revert i d. induction l as [|b l IH]; intros i d Hl Hi Hn; cbn [installs length] in *; [done|].
  set (d' := fun x => if x =? b then d (st + 1 + i) else d x).
  destruct (IH (i + 1) d') as [IH1 IH2]; [|lia|lia|].
  { intros b' Hb'. apply Hl. by right. }
  assert (b < st \/ st + 29 < b) as Hb by (apply Hl; left).
  split.
  - intros t Ht Hlast. destruct t as [|t].
    + simpl in Ht. injection Ht as ->. rewrite IH2.
      * unfold d'. rewrite Z.eqb_refl. f_equal. lia.
      * intros [t' Ht']%list_elem_of_lookup_1. apply (Hlast (S t')); [lia|done].
    + rewrite (IH1 t Ht); [|intros t' Ht'; apply (Hlast (S t')); lia].
      apply lookup_lt_Some in Ht. simpl in Ht. unfold d'.
      replace (st + 1 + (i + 1) + Z.of_nat t =? b) with false by lia. f_equal. lia.
  - intros Hy. rewrite IH2 by set_solver. unfold d'. replace (y =? b) with false; [done|]. symmetry. apply Z.eqb_neq. set_solver.
Qed.

Lemma installs_ext st i l d e y : (forall y, e y = d y) -> installs st i l e y = installs st i l d y.
Proof.
  revert i d e. induction l as [|b l IH]; intros i d e He; cbn [installs]; [done|]. apply IH. intros y'. by rewrite !He.
Qed.

(** There is a last occurrence. *)
Lemma last_occurrence (l : list Z) y :
  y ∈ l -> exists t, l !! t = Some y /\ forall t', (t < t')%nat -> l !! t' <> Some y.
Proof.
  induction l as [|b l IH]; intros Hy; [by apply elem_of_nil in Hy|].
  destruct (decide (y ∈ l)) as [Hin|Hout].
  - destruct (IH Hin) as (t & Ht & Hl). exists (S t). split; [done|]. intros [|t'] Hlt; [lia|]. apply Hl. lia.
  - apply elem_of_cons in Hy as [<-|?]; [|done]. exists 0%nat. split; [done|]. intros [|t'] Hlt; [lia|].
    simpl. intros E. apply Hout. by eapply list_elem_of_lookup_2.
Qed.

Lemma in_take (l : list Z) j b : b ∈ take j l -> b ∈ l.
Proof. rewrite elem_of_take. intros (t & Ht & _). by eapply list_elem_of_lookup_2. Qed.

Section Installs.
Context (st : Z) (l : list Z) (d : Z -> list Z).
Hypothesis (Hl : forall b, b ∈ l -> b < st \/ st + 29 < b) (Hn : (length l <= 29)%nat).

Lemma installs_log y : st <= y <= st + 29 -> forall j, installs st 0 (take j l) d y = d y.
Proof.
  intros Hy j. apply (installs_spec st 0 (take j l) d y); [|lia|rewrite length_take; lia|].
  - intros b Hb. apply Hl. by apply in_take in Hb.
  - intros Hin%in_take. apply Hl in Hin. lia.
Qed.

Lemma installs_snoc i b y :
  installs st i (l ++ [b]) d y = if y =? b then installs st i l d (st + 1 + i + Z.of_nat (length l)) else installs st i l d y.
Proof.
  clear Hl Hn. revert i d. induction l as [|x l' IH]; intros i d'; cbn [app installs length].
  - by rewrite Z.add_0_r.
  - rewrite IH. by replace (st + 1 + (i + 1) + Z.of_nat (length l')) with (st + 1 + i + Z.of_nat (S (length l'))) by lia.
Qed.

(** Starting over after a part was installed gives the same. *)
Lemma installs_again e j :
  (forall y, e y = installs st 0 (take j l) d y) -> forall y, installs st 0 l e y = installs st 0 l d y.
Proof.
  intros He y. destruct (decide (y ∈ l)) as [Hy|Hy].
  - destruct (last_occurrence l y Hy) as (t & Ht & Hlast).
    rewrite (proj1 (installs_spec st 0 l e y Hl ltac:(lia) ltac:(lia)) t Ht Hlast).
    rewrite (proj1 (installs_spec st 0 l d y Hl ltac:(lia) ltac:(lia)) t Ht Hlast).
    apply lookup_lt_Some in Ht. rewrite He. apply installs_log. lia.
  - rewrite (proj2 (installs_spec st 0 l e y Hl ltac:(lia) ltac:(lia)) Hy).
    rewrite (proj2 (installs_spec st 0 l d y Hl ltac:(lia) ltac:(lia)) Hy). rewrite He.
    apply (installs_spec st 0 (take j l) d y); [|lia|rewrite length_take; lia|].
    + intros b Hb. apply Hl. by apply in_take in Hb.
    + intros Hin. apply Hy. by apply in_take in Hin.
Qed.

End Installs.

(** The header block that [write_head] makes of [h]. *)
Fixpoint put_homes (h : list Z) (j : nat) (homes : list Z) : list Z :=
  match homes with
  | [] => h
  | b :: bs => put_homes (put_word h (4 + 4 * j) b) (S j) bs
  end.

Definition head_block (h : list Z) (homes : list Z) : list Z :=
  put_homes (put_word h 0 (Z.of_nat (length homes))) 0 homes.

Lemma put_homes_snoc h j l b : put_homes h j (l ++ [b]) = put_word (put_homes h j l) (4 + 4 * (j + length l)) b.
Proof.
  revert h j. induction l as [|x l IH]; intros h j; cbn [app put_homes length].
  - by rewrite Nat.add_0_r.
  - rewrite IH. f_equal. lia.
Qed.

Lemma length_put_homes h j l : (4 + 4 * (j + length l) <= length h)%nat -> length (put_homes h j l) = length h.
Proof.
  revert h j. induction l as [|x l IH]; intros h j H; cbn [put_homes length] in *; [done|].
  rewrite IH; rewrite length_put_word; lia.
Qed.

Lemma put_homes_out h j l x :
  (4 + 4 * (j + length l) <= length h)%nat -> (x + 4 <= 4 + 4 * j)%nat -> word_at (put_homes h j l) x = word_at h x.
Proof.
  revert h j. induction l as [|b l IH]; intros h j H Hx; cbn [put_homes length] in *; [done|].
  rewrite IH; [|rewrite length_put_word; lia|lia]. apply word_at_put_word_out; lia.
Qed.

Lemma put_homes_at h j l t b :
  (4 + 4 * (j + length l) <= length h)%nat -> l !! t = Some b -> word_at (put_homes h j l) (4 + 4 * (j + t)) = u32 b.
Proof.
  revert h j t. induction l as [|x l IH]; intros h j t H Ht; cbn [put_homes length] in *; [done|].
  destruct t as [|t]; simpl in Ht.
  - injection Ht as ->. rewrite Nat.add_0_r, put_homes_out; [|rewrite length_put_word; lia|lia].
    apply word_at_put_word. lia.
  - replace (4 + 4 * (j + S t))%nat with (4 + 4 * (S j + t))%nat by lia. apply IH; [|done].
    rewrite length_put_word; lia.
Qed.

(** Reading the header gives the homes it was written with. *)
Lemma header_head_block h homes :
  length h = 512%nat -> (length homes <= 30)%nat -> Forall (fun b => 0 <= b < 2 ^ 32) homes ->
  header (head_block h homes) = homes /\ length (head_block h homes) = 512%nat.
Proof.
  intros Hl Hn Hh. unfold head_block. set (h1 := put_word h 0 _).
  assert (length h1 = 512%nat) as H1 by (unfold h1; rewrite length_put_word; lia).
  split; [|rewrite length_put_homes; lia]. unfold header. rewrite put_homes_out by lia.
  assert (s32 (word_at h1 0) = Z.of_nat (length homes)) as ->.
  { unfold h1. rewrite word_at_put_word, u32_small, s32_small by lia. done. }
  rewrite Nat2Z.id.
  apply list_eq. intros t. rewrite list_lookup_fmap. destruct (decide (t < length homes)%nat) as [Ht|Ht].
  - rewrite lookup_seq_lt by done. simpl. destruct (lookup_lt_is_Some_2 homes t Ht) as [b Hb]. rewrite Hb. f_equal.
    assert (word_at (put_homes h1 0 homes) (4 + 4 * (0 + t)) = u32 b) as E by (apply put_homes_at; [lia|done]).
    etrans; [exact E|]. apply u32_small.
    rewrite list.Forall_forall in Hh. apply Hh. by eapply list_elem_of_lookup_2.
  - rewrite lookup_seq_ge by lia. symmetry. apply lookup_ge_None_2. lia.
Qed.

(** ** Copying a block *)

(** The file system differs at most in its buffers and its disk. *)
Definition io_only (k k' : K) : Prop := k_fs k' = set_bufs (cbufs k') (set_disk (disk (k_fs k')) (k_fs k)).

(** Block [b] has been written with [d]; no buffer is in use. *)
Record stored (k k' : K) (c pi : nat) (q b : Z) (d : list Z) : Prop := {
  st_on : goes_on c pi q k k';
  st_io : io_only k k';
  st_cache : exists order, cache k' q order ∅;
  st_disk : forall y, dblock k' y = if decide (y = b) then d else dblock k y;
  st_content : forall y, content k' y = if decide (y = b) then d else content k y;
  st_dirty : forall y, dirty k' y <-> dirty k y /\ y <> b;
  st_spare : exists i, spare k' ∅ i
}.

Section LogSpec.
Context {LK : Linker} {FU : Fuel}.
Context (lost : gmap (Z * Z) (list Z) -> Z -> bool).
Implicit Types (k : K).

#[local] Instance power : BlockDev := power_dev lost.

Lemma io_only_refl k : io_only k k.
Proof. unfold io_only, cbufs. by destruct k as [? ? ? ? ? ? []]. Qed.

Lemma io_only_trans k1 k2 k3 : io_only k1 k2 -> io_only k2 k3 -> io_only k1 k3.
Proof. unfold io_only. intros H1 H2. rewrite H2, H1. done. Qed.

Lemma io_only_bufs k k' bs : k_fs k' = set_bufs bs (k_fs k) -> io_only k k'.
Proof. unfold io_only, cbufs. intros ->. by destruct k as [? ? ? ? ? ? []]. Qed.

Lemma io_only_lg k k' : io_only k k' -> lg (k_fs k') = lg (k_fs k) /\ disksize (k_fs k') = disksize (k_fs k).
Proof. intros ->. done. Qed.

Lemma idle_bcore k k' b b' :
  bcore b' = bcore b -> (forall y, dblock k' y = dblock k y) -> idle_ok k b -> idle_ok k' b'.
Proof. intros [= E1 E2 E3 E4] Hd. unfold idle_ok. by rewrite E1, E2, E3, E4, Hd. Qed.

(** Two buffers are given back. *)
Lemma give_back k c pi q order s t src dst :
  me k c pi q -> cache k q order {[s; t]} -> s <> t ->
  cbufs k !! s = Some src -> idle_ok k src -> cbufs k !! t = Some dst -> idle_ok k dst ->
  runs (brelse s ;; brelse t) k (fun _ k' => goes_on c pi q k k' /\ k_fs k' = set_bufs (cbufs k') (k_fs k) /\
    bcore <$> cbufs k' = bcore <$> cbufs k /\ exists order', cache k' q order' ∅).
Proof.
  intros Hm Hc Hst Hs Hsid Ht Htid. unfold runs.
  wp_call (brelse_spec k c pi q order {[s; t]} s src Hm Hc); [|set_solver|done|done].
  intros _ k1 (Hg1 & Ef1 & Ec1 & order1 & Hc1).
  destruct (bcore_lookup _ _ _ _ Ec1 Ht) as (dst' & Ht' & Ec).
  replace ({[s; t]} ∖ {[s]}) with ({[t]} : gset nat) in Hc1 by set_solver.
  eapply wp_mono; [|apply (brelse_spec k1 c pi q order1 {[t]} t dst' (proj1 Hg1) Hc1); [set_solver|done|]].
  - intros _ k2 (Hg2 & Ef2 & Ec2 & order2 & Hc2). split; [by eapply goes_on_trans|].
    split; [rewrite Ef2, Ef1; done|]. split; [congruence|]. exists order2.
    by replace ({[t]} ∖ {[t]}) with (∅ : gset nat) in Hc2 by set_solver.
  - eapply idle_bcore; [exact Ec| |exact Htid]. intros y. unfold dblock. by rewrite Ef1.
Qed.

(** Buffer [t] for block [b] was given the contents [d] and written. *)
Record wrote (k k' : K) (c pi : nat) (q : Z) (order : list nat) (held : gset nat) (t : nat) (dst : buf) (b : Z) (d : list Z) : Prop := {
  wr_on : goes_on c pi q k k';
  wr_io : io_only k k';
  wr_cache : cache k' q order held;
  wr_bufs : cbufs k' = <[t := set_b_flags 2 (set_b_data d dst)]> (cbufs k);
  wr_disk : forall y, dblock k' y = if decide (y = b) then d else dblock k y;
  wr_content : forall y, content k' y = if decide (y = b) then d else content k y;
  wr_dirty : forall y, dirty k' y <-> dirty k y /\ y <> b
}.

Lemma write_back k c pi q order held t dst b d :
  me k c pi q -> cache k q order held -> t ∈ held ->
  cbufs k !! t = Some dst -> b_dev dst = 1 -> b_blockno dst = b -> b_flags dst = 2 \/ b_flags dst = 6 ->
  length d = 512%nat -> b < disksize (k_fs k) ->
  ends (bwrite t (with_bufs (<[t := set_b_data d dst]> (cbufs k)) k))
    (fun _ k' => wrote k k' c pi q order held t dst b d) (fun k' => disk (k_fs k') = disk (k_fs k)).
Proof.
  intros Hm Hc Hth Ht Htd Htb Htf Hdl Hb. pose proof (ca_len _ _ _ _ Hc) as Hlen.
  assert (t < 30)%nat as Htlt by (by apply (ca_held _ _ _ _ Hc)). set (k1 := with_bufs _ k).
  assert (cache k1 q order held) as Hc1.
  { eapply (changed_cache k k1 q b order held t dst (set_b_data d dst)); try done. apply Hc. }
  assert (cbufs k1 !! t = Some (set_b_data d dst)) as Ht1.
  { unfold k1. rewrite cbufs_with, list_lookup_insert_eq by lia. done. }
  eapply ends_mono; [..|apply (bwrite_spec lost k1 c pi q order held t (set_b_data d dst) b); try done].
  2:{ intros k' ->. done. }
  2:{ by apply me_fs. }
  intros _ k2 (Hg2 & Es2 & Ef2 & Hc2).
  assert (cbufs k2 = <[t := set_b_flags 2 (set_b_data d dst)]> (cbufs k)) as Eb2.
  { unfold cbufs at 1. rewrite Ef2. simpl. unfold k1. by rewrite cbufs_with, list_insert_insert_eq. }
  assert (forall y, dblock k2 y = if decide (y = b) then d else dblock k y) as Hd2.
  { intros y. rewrite <- (disk_block_set k). unfold dblock. by rewrite Ef2. }
  assert (forall y, y <> b -> dblock k2 y = dblock k y) as Hdo by (intros y Hy; by rewrite Hd2, decide_False).
  assert (length (dblock k2 b) = 512%nat) as Hbl by (by rewrite Hd2, decide_True).
  split; auto.
  - unfold io_only, cbufs. rewrite Ef2. unfold k1. simpl. done.
  - intros y. case_decide as E.
    + subst y. by rewrite (changed_content_at k k2 q b order held t dst (set_b_flags 2 (set_b_data d dst))).
    + by rewrite (changed_content k k2 q b order held t dst (set_b_flags 2 (set_b_data d dst))).
  - intros y. destruct (decide (y = b)) as [->|E].
    + rewrite (changed_dirty_at k k2 q b order held t dst (set_b_flags 2 (set_b_data d dst))); try done. simpl. lia.
    + rewrite (changed_dirty k k2 b t dst (set_b_flags 2 (set_b_data d dst))); try done. tauto.
Qed.

(** When the buffers written are given back. *)
Lemma wrote_stored k k2 k3 c pi q order order' held t dst b d :
  wrote k k2 c pi q order held t dst b d -> (t < 30)%nat -> (t < length (cbufs k))%nat ->
  goes_on c pi q k2 k3 -> k_fs k3 = set_bufs (cbufs k3) (k_fs k2) -> bcore <$> cbufs k3 = bcore <$> cbufs k2 ->
  cache k3 q order' ∅ -> stored k k3 c pi q b d.
Proof.
  intros [W1 W2 W3 W4 W5 W6 W7] Ht Htl Hg3 Ef3 Ec3 Hc3.
  assert (forall y, dblock k3 y = dblock k2 y) as Hd3 by (intros y; unfold dblock; by rewrite Ef3).
  pose proof (bcore_content k2 k3 q _ _ _ _ W3 Hc3 Ec3 Hd3) as Hcont. pose proof (bcore_dirty k2 k3 Ec3) as Hdirty.
  split.
  - by eapply goes_on_trans.
  - eapply io_only_trans; [exact W2|]. by eapply io_only_bufs.
  - by exists order'.
  - intros y. by rewrite Hd3.
  - intros y. by rewrite Hcont.
  - intros y. by rewrite Hdirty.
  - exists t. split; [done|]. split; [set_solver|].
    destruct (bcore_lookup _ _ t (set_b_flags 2 (set_b_data d dst)) Ec3) as (b3 & Hb3 & [= E1 _ _ _]).
    + rewrite W4, list_lookup_insert_eq; done.
    + exists b3. split; [done|]. rewrite E1. simpl. lia.
Qed.

(** From buffer [s] to buffer [t], and to disk; both are given back. *)
Lemma copy_tail k c pi q order held s t src dst a b :
  me k c pi q -> cache k q order held -> held = {[s; t]} -> s <> t ->
  cbufs k !! s = Some src -> b_dev src = 1 -> b_blockno src = a -> idle_ok k src -> length (b_data src) = 512%nat ->
  cbufs k !! t = Some dst -> b_dev dst = 1 -> b_blockno dst = b -> b_flags dst = 2 \/ b_flags dst = 6 ->
  a <> b -> b < disksize (k_fs k) ->
  ends ((x <- get_buf s ;; upd_buf t (set_b_data (b_data x)) ;; bwrite t ;; brelse s ;; brelse t) k)
    (fun _ k' => stored k k' c pi q b (b_data src)) (fun k' => disk (k_fs k') = disk (k_fs k)).
Proof.
  intros Hm Hc -> Hst Hs Hsd Hsa Hsid Hsl Ht Htd Htb Htf Hab Hb. pose proof (ca_len _ _ _ _ Hc) as Hlen.
  assert (t ∈ ({[s; t]} : gset nat)) as Hth by set_solver.
  assert (t < 30)%nat as Htlt by (apply (ca_held _ _ _ _ Hc); set_solver).
  rewrite bind_eq, (get_buf_eq _ _ _ Hs). cbn [res_bind]. rewrite bind_eq, upd_buf_eq by lia. cbn [res_bind].
  rewrite (alter_insert _ _ _ _ Ht), bind_eq, ends_bind.
  eapply ends_mono; [..|by apply (write_back k c pi q order {[s; t]} t dst b (b_data src))]; [|done].
  intros ? k2 Hw. cbv beta in Hw. pose proof Hw as [W1 W2 W3 W4 W5 W6 W7].
  assert (cbufs k2 !! t = Some (set_b_flags 2 (set_b_data (b_data src) dst))) as Ht2.
  { rewrite W4, list_lookup_insert_eq by lia. done. }
  assert (cbufs k2 !! s = Some src) as Hs2 by (by rewrite W4, list_lookup_insert_ne).
  eapply ends_runs, wp_mono; [|eapply (give_back k2 c pi q order s t src _ (proj1 W1) W3 Hst Hs2)]; [|..|exact Ht2|].
  - intros _ k3 (Hg3 & Ef3 & Ec3 & order3 & Hc3). eapply wrote_stored; eauto. lia.
  - destruct Hsid as [?|[(? & ? & Hdat)|?]]; [by left|right; left|by right; right].
    split; [done|]. split; [done|]. rewrite W5, decide_False by congruence. done.
  - right. left. simpl. split; [done|]. split; [done|]. by rewrite W5, decide_True.
Qed.

(** ** Two blocks in hand *)

Record two (k k' : K) (c pi : nat) (q : Z) (order : list nat) (i1 i2 : nat) (x1 x2 : Z) : Prop := {
  tw_on : goes_on c pi q k k';
  tw_fs : k_fs k' = set_bufs (cbufs k') (k_fs k);
  tw_ne : i1 <> i2;
  tw_cache : cache k' q order {[i1; i2]};
  tw_buf1 : exists b, cbufs k' !! i1 = Some b /\ b_dev b = 1 /\ b_blockno b = x1 /\ b_data b = content k x1 /\
    idle_ok k' b /\ length (b_data b) = 512%nat /\ (b_flags b = 2 \/ b_flags b = 6);
  tw_buf2 : exists b, cbufs k' !! i2 = Some b /\ b_dev b = 1 /\ b_blockno b = x2 /\ b_data b = content k x2 /\
    idle_ok k' b /\ length (b_data b) = 512%nat /\ (b_flags b = 2 \/ b_flags b = 6);
  tw_content : forall y, content k' y = content k y;
  tw_dirty : forall y, dirty k' y <-> dirty k y
}.

(** Room for a block and for another one. *)
Definition room2 (k : K) (x2 : Z) : Prop :=
  (exists i, spare k ∅ i) /\ (dirty k x2 \/ exists i j, i <> j /\ spare k ∅ i /\ spare k ∅ j).

Lemma took_idle k k' c pi q order held x i b :
  took k k' c pi q order held x i -> cache k q order held -> cbufs k' !! i = Some b ->
  b_dev b = 1 /\ b_blockno b = x /\ b_data b = content k x /\ idle_ok k' b /\ length (b_data b) = 512%nat /\
  (b_flags b = 2 \/ b_flags b = 6).
Proof.
  intros Ht Hc Hb. destruct (tk_buf _ _ _ _ _ _ _ _ _ Ht) as (b' & Hb' & E1 & E2 & E3 & Hf).
  rewrite Hb in Hb'. injection Hb' as <-. split; [done|]. split; [done|]. split; [done|].
  assert (dblock k' x = dblock k x) as Hd by (unfold dblock; by rewrite (tk_fs _ _ _ _ _ _ _ _ _ Ht)).
  destruct Hf as [[F D]|(F & _ & L)].
  - split; [right; left; rewrite E2, Hd; done|]. split; [|by left]. rewrite D. apply Hc.
  - split; [by right; right|]. split; [done|by right].
Qed.

Lemma second_read k k1 c pi q order x1 x2 i :
  took k k1 c pi q order ∅ x1 i -> x1 <> x2 -> room2 k x2 ->
  not_held k1 ({[i]} ∪ ∅) x2 /\ (dirty k1 x2 \/ exists j, spare k1 ({[i]} ∪ ∅) j).
Proof.
  intros Ht Hx [_ Hroom]. split.
  - intros i' b Hi' Hb [_ E]. assert (i' = i) as -> by set_solver.
    destruct (tk_buf _ _ _ _ _ _ _ _ _ Ht) as (b' & Hb' & _ & E2 & _). congruence.
  - destruct Hroom as [Hd|(a & b & Hab & Ha & Hb)]; [left; by apply (tk_dirty _ _ _ _ _ _ _ _ _ Ht)|right].
    assert (forall j, spare k ∅ j -> j <> i -> spare k1 ({[i]} ∪ ∅) j) as Hsp.
    { intros j (Hj & _ & bj & Hbj & Hf) Hne. split; [done|]. split; [set_solver|]. exists bj.
      by rewrite (tk_others _ _ _ _ _ _ _ _ _ Ht). }
    destruct (decide (a = i)) as [->|Hne]; [exists b|exists a]; by apply Hsp.
Qed.

Lemma two_took k k1 k2 c pi q order x1 x2 i j :
  cache k q order ∅ -> took k k1 c pi q order ∅ x1 i -> took k1 k2 c pi q order ({[i]} ∪ ∅) x2 j ->
  two k k2 c pi q order i j x1 x2.
Proof.
  intros Hc H1 H2. pose proof (tk_new _ _ _ _ _ _ _ _ _ H2) as Hnew. assert (i <> j) as Hne by set_solver.
  destruct (tk_buf _ _ _ _ _ _ _ _ _ H1) as (b1 & Hb1 & _). destruct (tk_buf _ _ _ _ _ _ _ _ _ H2) as (b2 & Hb2 & _).
  destruct (took_idle _ _ _ _ _ _ _ _ _ _ H1 Hc Hb1) as (A1 & A2 & A3 & A4 & A5 & A6).
  destruct (took_idle _ _ _ _ _ _ _ _ _ _ H2 (tk_cache _ _ _ _ _ _ _ _ _ H1) Hb2) as (B1 & B2 & B3 & B4 & B5 & B6).
  assert (k_fs k2 = set_bufs (cbufs k2) (k_fs k)) as Ef.
  { rewrite (tk_fs _ _ _ _ _ _ _ _ _ H2), (tk_fs _ _ _ _ _ _ _ _ _ H1). done. }
  assert (forall y, dblock k2 y = dblock k1 y) as Hd.
  { intros y. unfold dblock. by rewrite (tk_fs _ _ _ _ _ _ _ _ _ H2). }
  split; [|done|done|..].
  - eapply goes_on_trans; eapply tk_on; eauto.
  - pose proof (tk_cache _ _ _ _ _ _ _ _ _ H2) as Hc2.
    by replace ({[j]} ∪ ({[i]} ∪ ∅)) with ({[i; j]} : gset nat) in Hc2 by set_solver.
  - exists b1. rewrite (tk_others _ _ _ _ _ _ _ _ _ H2) by done. do 4 (split; [done|]). split; [|done].
    by eapply (idle_bcore k1).
  - exists b2. rewrite B3, (tk_content _ _ _ _ _ _ _ _ _ H1) in *. done.
  - intros y. by rewrite (tk_content _ _ _ _ _ _ _ _ _ H2), (tk_content _ _ _ _ _ _ _ _ _ H1).
  - intros y. by rewrite (tk_dirty _ _ _ _ _ _ _ _ _ H2), (tk_dirty _ _ _ _ _ _ _ _ _ H1).
Qed.

Lemma content_clean k q order x : cache k q order ∅ -> ~ dirty k x -> content k x = dblock k x.
Proof.
  intros Hc Hn. destruct (content_spec k q order ∅ x Hc) as [(j & b & Hj & Hb & Hv & ->)|[_ ->]]; [|done].
  pose proof (caches_flags _ _ Hv). destruct Hv as (Hd & Hx & _).
  destruct (ca_idle _ _ _ _ Hc j b Hb Hj) as [?|[(_ & _ & ->)|(? & _)]]; [set_solver|done|by rewrite Hx|].
  destruct Hn. by exists j, b.
Qed.

(** ** The log in memory *)

(** The log on disk starts at block [st]; [homes] are the blocks recorded. *)
Record logged (k : K) (st : Z) (homes : list Z) : Prop := {
  lo_dev : lg_dev (lg (k_fs k)) = 1;
  lo_start : lg_start (lg (k_fs k)) = st;
  lo_n : lh_n (lg_lh (lg (k_fs k))) = Z.of_nat (length homes);
  lo_blocks : take (length homes) (lh_block (lg_lh (lg (k_fs k)))) = homes;
  lo_len : length (lh_block (lg_lh (lg (k_fs k)))) = 30%nat;
  lo_few : (length homes <= 29)%nat;
  lo_range : 0 <= st /\ st + 29 < disksize (k_fs k) < 2 ^ 31;
  lo_homes : Forall (fun b => 0 <= b < disksize (k_fs k) /\ (b < st \/ st + 29 < b)) homes
}.

Lemma logged_io k k' st homes : io_only k k' -> logged k st homes -> logged k' st homes.
Proof.
  intros Hio [H1 H2 H3 H4 H5 H6 H7 H8]. destruct (io_only_lg _ _ Hio) as [El Ed].
  split; rewrite ?El, ?Ed; done.
Qed.

Lemma logged_home k st homes j b :
  logged k st homes -> homes !! j = Some b ->
  get_lh_block (Z.of_nat j) k = Done b k /\ u32 b = b /\ 0 <= b < disksize (k_fs k) /\ (b < st \/ st + 29 < b) /\
  u32 (st + Z.of_nat j + 1) = st + 1 + Z.of_nat j /\ st + 1 + Z.of_nat j <= st + 29 /\ st + 1 + Z.of_nat j <> b.
Proof.
  intros Hl Hj. pose proof (lo_few _ _ _ Hl). pose proof (lo_range _ _ _ Hl). pose proof (lookup_lt_Some _ _ _ Hj).
  pose proof (lo_homes _ _ _ Hl) as Hh. rewrite list.Forall_forall in Hh.
  specialize (Hh b (list_elem_of_lookup_2 _ _ _ Hj)). cbv beta in Hh.
  split; [|rewrite !u32_small by lia; lia]. unfold get_lh_block, get_log, get_fs. kred. rewrite Nat2Z.id.
  rewrite <- (lo_blocks _ _ _ Hl) in Hj. apply lookup_take_Some in Hj as [-> _]. done.
Qed.

Lemma get_log_eq k : get_log k = Done (lg (k_fs k)) k.
Proof. unfold get_log, get_fs. by rewrite gets_eq. Qed.

Lemma stored_two k k1 k2 c pi q order i1 i2 x1 x2 b d :
  two k k1 c pi q order i1 i2 x1 x2 -> stored k1 k2 c pi q b d -> stored k k2 c pi q b d.
Proof.
  intros [T1 T2 T3 T4 T5 T6 T7 T8] [S1 S2 S3 S4 S5 S6 S7]. split; auto.
  - by eapply goes_on_trans.
  - eapply io_only_trans; [by eapply io_only_bufs|done].
  - intros y. rewrite S4. unfold dblock. by rewrite T2.
  - intros y. rewrite S5. by rewrite T7.
  - intros y. by rewrite S6, T8.
Qed.

(** The log block [j] and its home are read. *)
Lemma read_both k c pi q order st homes j b (f : nat -> nat -> M K unit) Q C :
  me k c pi q -> cache k q order ∅ -> logged k st homes -> homes !! j = Some b -> room2 k b ->
  (forall i1 i2 k2, two k k2 c pi q order i1 i2 (st + 1 + Z.of_nat j) b -> ends (f i1 i2 k2) Q C) ->
  ends ((l <- get_log ;;
    i1 <- bread (u32 (lg_dev l)) (u32 (lg_start l + Z.of_nat j + 1)) ;;
    l <- get_log ;;
    bn <- get_lh_block (Z.of_nat j) ;;
    i2 <- bread (u32 (lg_dev l)) (u32 bn) ;;
    f i1 i2) k) Q C.
Proof.
  intros Hm Hc Hl Hj Hroom0 Hf. destruct (logged_home _ _ _ _ _ Hl Hj) as (_ & Eb & Hb & Hlog & Ex & Hx & Hne).
  pose proof (lo_range _ _ _ Hl). set (x := st + 1 + Z.of_nat j) in *.
  rewrite bind_eq, get_log_eq. cbn [res_bind]. rewrite (lo_dev _ _ _ Hl), (lo_start _ _ _ Hl), Ex. change (u32 1) with 1.
  ends_run (bread_spec lost k c pi q order ∅ x Hm Hc ltac:(lia)); [|by intros i b' ?%elem_of_empty|right; apply Hroom0].
  intros i1 k1 Ht1. pose proof (io_only_bufs _ _ _ (tk_fs _ _ _ _ _ _ _ _ _ Ht1)) as Hio1.
  pose proof (logged_io _ _ _ _ Hio1 Hl) as Hl1. destruct (io_only_lg _ _ Hio1) as [El1 Ed1].
  rewrite bind_eq, get_log_eq. cbn [res_bind].
  rewrite bind_eq, (proj1 (logged_home _ _ _ _ _ Hl1 Hj)). cbn [res_bind]. rewrite (lo_dev _ _ _ Hl1), Eb. change (u32 1) with 1.
  destruct (second_read _ _ _ _ _ _ _ b _ Ht1 Hne Hroom0) as [Hnh Hroom].
  ends_run (bread_spec lost k1 c pi q order ({[i1]} ∪ ∅) b (proj1 (tk_on _ _ _ _ _ _ _ _ _ Ht1)) (tk_cache _ _ _ _ _ _ _ _ _ Ht1));
    [|by rewrite Ed1; lia|done|done].
  intros i2 k2 Ht2. apply Hf. exact (two_took _ _ _ _ _ _ _ _ _ _ _ Hc Ht1 Ht2).
Qed.

(** One iteration of [write_log]: block [b] goes to the log. *)
Lemma write_log_pass k c pi q order st homes j b :
  me k c pi q -> cache k q order ∅ -> logged k st homes -> homes !! j = Some b -> room2 k b ->
  ends ((l <- get_log ;;
    to <- bread (u32 (lg_dev l)) (u32 (lg_start l + Z.of_nat j + 1)) ;;
    l <- get_log ;;
    bn <- get_lh_block (Z.of_nat j) ;;
    from <- bread (u32 (lg_dev l)) (u32 bn) ;;
    b <- get_buf from ;;
    upd_buf to (set_b_data (b_data b)) ;;
    bwrite to ;;
    brelse from ;;
    brelse to) k)
    (fun _ k' => stored k k' c pi q (st + 1 + Z.of_nat j) (content k b)) (fun k' => disk (k_fs k') = disk (k_fs k)).
Proof.
  intros Hm Hc Hl Hj Hroom. destruct (logged_home _ _ _ _ _ Hl Hj) as (_ & _ & _ & _ & _ & Hx & Hne).
  pose proof (lo_range _ _ _ Hl). eapply (read_both k c pi q order st homes j b); [done..|].
  intros i1 i2 k2 [T1 T2 T3 T4 (dst & D1 & D2 & D3 & D4 & D5 & D6 & D7) (src & S1 & S2 & S3 & S4 & S5 & S6 & S7) T7 T8].
  eapply ends_mono; [..|apply (copy_tail k2 c pi q order {[i1; i2]} i2 i1 src dst b (st + 1 + Z.of_nat j)); try done].
  - intros ? k3 Hs. cbv beta in *. rewrite <- S4. eapply (stored_two k k2 k3 c pi q order i1 i2); [|done]. split; eauto 10.
  - intros k3 ->. by rewrite T2.
  - apply T1.
  - set_solver.
  - rewrite T2. simpl. lia.
Qed.

(** One iteration of [install_trans]: block [b] comes from the log. *)
Lemma install_pass k c pi q order st homes j b :
  me k c pi q -> cache k q order ∅ -> logged k st homes -> homes !! j = Some b -> room2 k b ->
  ends ((l <- get_log ;;
    lbuf <- bread (u32 (lg_dev l)) (u32 (lg_start l + Z.of_nat j + 1)) ;;
    l <- get_log ;;
    bn <- get_lh_block (Z.of_nat j) ;;
    dbuf <- bread (u32 (lg_dev l)) (u32 bn) ;;
    b <- get_buf lbuf ;;
    upd_buf dbuf (set_b_data (b_data b)) ;;
    bwrite dbuf ;;
    brelse lbuf ;;
    brelse dbuf) k)
    (fun _ k' => stored k k' c pi q b (content k (st + 1 + Z.of_nat j))) (fun k' => disk (k_fs k') = disk (k_fs k)).
Proof.
  intros Hm Hc Hl Hj Hroom. destruct (logged_home _ _ _ _ _ Hl Hj) as (_ & _ & Hb & _ & _ & Hx & Hne).
  pose proof (lo_range _ _ _ Hl). eapply (read_both k c pi q order st homes j b); [done..|].
  intros i1 i2 k2 [T1 T2 T3 T4 (src & S1 & S2 & S3 & S4 & S5 & S6 & S7) (dst & D1 & D2 & D3 & D4 & D5 & D6 & D7) T7 T8].
  eapply ends_mono; [..|apply (copy_tail k2 c pi q order {[i1; i2]} i1 i2 src dst (st + 1 + Z.of_nat j) b); try done].
  - intros ? k3 Hs. cbv beta in *. rewrite <- S4. eapply (stored_two k k2 k3 c pi q order i1 i2); [|done]. split; eauto 10.
  - intros k3 ->. by rewrite T2.
  - apply T1.
  - rewrite T2. simpl. lia.
Qed.

(** The loops over the log: [I j] holds before iteration [j]. *)
Lemma for_logged_ends (I : nat -> K -> Prop) (C : K -> Prop) N body m j k :
  (forall j k, I j k -> lh_n (lg_lh (lg (k_fs k))) = Z.of_nat N) ->
  (forall j k, (j < N)%nat -> I j k -> ends (body (Z.of_nat j) k) (fun _ k' => I (S j) k') C) ->
  (j <= N <= j + m)%nat -> I j k ->
  ends (for_logged m (Z.of_nat j) body k) (fun _ k' => I N k') C.
Proof.
  intros Hn Hb. revert j k. induction m as [|m IH]; intros j k Hj HI; cbn [for_logged];
    rewrite bind_eq, get_log_eq; cbn [res_bind]; rewrite (Hn j k HI).
  - replace (Z.of_nat j <? Z.of_nat N) with false by lia. cbn [negb]. rewrite ret_eq. simpl.
    by replace N with j by lia.
  - destruct (Z.of_nat j <? Z.of_nat N) eqn:E; cbn [negb].
    + rewrite bind_eq, ends_bind. eapply ends_mono; [..|apply (Hb j k); [lia|done]]; [|done].
      intros ? k' HI'. replace (Z.of_nat j + 1) with (Z.of_nat (S j)) by lia. apply IH; [lia|done].
    + rewrite ret_eq. simpl. by replace N with j by lia.
Qed.

(** *** The header *)

Lemma lookup_take_S (l : list Z) j b : l !! j = Some b -> take (S j) l = take j l ++ [b].
Proof. intros H. by rewrite (take_S_r l j b H). Qed.

(** The only buffer in hand is changed, written and given back. *)
Lemma write_taken k k1 c pi q order x i b d :
  cache k q order ∅ -> took k k1 c pi q order ∅ x i -> cbufs k1 !! i = Some b -> length d = 512%nat ->
  x < disksize (k_fs k) ->
  ends ((bwrite i ;; brelse i) (with_bufs (<[i := set_b_data d b]> (cbufs k1)) k1))
    (fun _ k' => stored k k' c pi q x d) (fun k' => disk (k_fs k') = disk (k_fs k)).
Proof.
  intros Hc Ht1 Hb Hd Hx. destruct (took_idle _ _ _ _ _ _ _ _ _ _ Ht1 Hc Hb) as (B1 & B2 & B3 & B4 & B5 & B6).
  pose proof Ht1 as [T1 Hi T3 T4 Hc1 _ T7 T8 _ _]. pose proof (io_only_bufs _ _ _ T4) as Hio1.
  replace ({[i]} ∪ ∅) with ({[i]} : gset nat) in Hc1 by set_solver. pose proof (ca_len _ _ _ _ Hc1) as Hlen.
  assert (i ∈ ({[i]} : gset nat)) as Hin by set_solver. destruct (io_only_lg _ _ Hio1) as [_ Ed1].
  rewrite bind_eq, ends_bind.
  eapply ends_mono; [..|apply (write_back k1 c pi q order {[i]} i b x d (proj1 T1) Hc1 Hin Hb B1 B2 B6 Hd); lia].
  2:{ intros k3 ->. by rewrite T4. }
  intros ? k3 Hw. pose proof Hw as [W1 W2 W3 W4 W5 W6 W7].
  eapply ends_runs, wp_mono; [|apply (brelse_spec k3 c pi q order {[i]} i (set_b_flags 2 (set_b_data d b)) (proj1 W1) W3 Hin)].
  - intros ? k4 (Hg4 & Ef4 & Ec4 & order4 & Hc4).
    replace ({[i]} ∖ {[i]}) with (∅ : gset nat) in Hc4 by set_solver.
    assert (stored k1 k4 c pi q x d) as [S1 S2 S3 S4 S5 S6 S7]
      by (apply (wrote_stored k1 k3 k4 c pi q order order4 {[i]} i b x _ Hw); done || lia).
    split; auto.
    + by eapply goes_on_trans.
    + by eapply io_only_trans.
    + intros y. rewrite S4. unfold dblock. by rewrite T4.
    + intros y. by rewrite S5, T7.
    + intros y. by rewrite S6, T8.
  - rewrite W4, list_lookup_insert_eq by lia. done.
  - right. left. simpl. rewrite W5, B2, decide_True by done. done.
Qed.

(** [write_head] writes the header, or the machine stops before. *)
Lemma write_head_spec k c pi q order st homes :
  me k c pi q -> cache k q order ∅ -> logged k st homes -> ~ dirty k st -> (exists i, spare k ∅ i) ->
  ends (write_head k) (fun _ k' => stored k k' c pi q st (head_block (dblock k st) homes))
    (fun k' => disk (k_fs k') = disk (k_fs k)).
Proof.
  intros Hm Hc Hl Hnd Hsp. pose proof (lo_range _ _ _ Hl) as Hr. pose proof (lo_few _ _ _ Hl) as Hfew.
  unfold write_head. rewrite bind_eq, get_log_eq. cbn [res_bind]. rewrite (lo_dev _ _ _ Hl), (lo_start _ _ _ Hl).
  rewrite (u32_small st) by lia. change (u32 1) with 1.
  ends_run (bread_spec lost k c pi q order ∅ st Hm Hc ltac:(lia)); [|by intros i b' ?%elem_of_empty|by right].
  intros i k1 Ht1. destruct (tk_buf _ _ _ _ _ _ _ _ _ Ht1) as (b & Hb & _ & _ & B3 & _).
  pose proof (tk_lt _ _ _ _ _ _ _ _ _ Ht1) as Hi. pose proof (ca_len _ _ _ _ (tk_cache _ _ _ _ _ _ _ _ _ Ht1)) as Hlen.
  pose proof (logged_io _ _ _ _ (io_only_bufs _ _ _ (tk_fs _ _ _ _ _ _ _ _ _ Ht1)) Hl) as Hl1.
  rewrite bind_eq, get_log_eq. cbn [res_bind]. rewrite (lo_n _ _ _ Hl1).
  rewrite bind_eq, upd_buf_eq by lia. cbn [res_bind]. rewrite (alter_insert _ _ _ _ Hb).
  set (h1 := put_word (b_data b) 0 (Z.of_nat (length homes))).
  rewrite bind_eq, ends_bind. eapply ends_mono; [..|apply (for_logged_ends (fun j k' =>
     k' = with_bufs (<[i := set_b_data (put_homes h1 0 (take j homes)) b]> (cbufs k1)) k1)
     (fun k' => disk (k_fs k') = disk (k_fs k)) (length homes) _ log_slots 0)]; [|done|..].
  - intros ? k2 ->. rewrite take_ge by done. unfold h1. fold (head_block (b_data b) homes).
    rewrite B3, (content_clean k q order st Hc Hnd). apply (write_taken k k1 c pi q order); try done; [|lia].
    assert (length (dblock k st) = 512%nat) as Hdl by apply Hc. unfold head_block.
    rewrite length_put_homes; rewrite length_put_word; lia.
  - intros j k' ->. simpl. apply (lo_n _ _ _ Hl1).
  - intros j k' Hj ->. destruct (lookup_lt_is_Some_2 homes j Hj) as [bn Hbn].
    assert (logged (with_bufs (<[i := set_b_data (put_homes h1 0 (take j homes)) b]> (cbufs k1)) k1) st homes) as Hl2.
    { eapply logged_io; [|exact Hl1]. by eapply io_only_bufs. }
    rewrite bind_eq, (proj1 (logged_home _ _ _ _ _ Hl2 Hbn)). cbn [res_bind].
    rewrite upd_buf_eq by (rewrite cbufs_with, length_insert; lia). rewrite cbufs_with, with_bufs_twice.
    erewrite alter_insert by (apply list_lookup_insert_eq; lia). rewrite list_insert_insert_eq. simpl.
    rewrite (lookup_take_S _ _ _ Hbn), put_homes_snoc, length_take, Nat2Z.id, Nat.min_l by lia. done.
  - unfold log_slots, LOGSIZE, MAXOPBLOCKS. lia.
  - rewrite take_0. done.
Qed.

(** *** The two loops *)

(** The caller went on from [k0] by disk transfers; nothing is in use. *)
Record went (k0 k : K) (c pi : nat) (q : Z) : Prop := {
  we_on : goes_on c pi q k0 k;
  we_io : io_only k0 k;
  we_cache : exists order, cache k q order ∅;
  we_spare : exists i, spare k ∅ i
}.

Lemma went_stored k0 k k' c pi q b d : went k0 k c pi q -> stored k k' c pi q b d -> went k0 k' c pi q.
Proof.
  intros [W1 W2 _ _] [S1 S2 S3 _ _ _ S7]. split; [by eapply goes_on_trans|by eapply io_only_trans|done|done].
Qed.

(** Without new contents all buffers are free. *)
Lemma no_dirty_spares k q order1 :
  cache k q order1 ∅ -> (forall y, ~ dirty k y) -> exists i j, i <> j /\ spare k ∅ i /\ spare k ∅ j.
Proof.
  intros Hck Hno. assert (forall i, (i < 30)%nat -> spare k ∅ i) as H.
  { intros i Hi. split; [done|]. split; [set_solver|].
    destruct (lookup_lt_is_Some_2 (cbufs k) i) as [b Hb]; [rewrite (ca_len _ _ _ _ Hck); lia|]. exists b. split; [done|].
    intros E6. destruct (ca_idle _ _ _ _ Hck i b Hb Hi) as [?|[[? _]|(_ & Hd & _)]]; [set_solver|lia..|].
    apply (Hno (b_blockno b)). by exists i, b. }
  exists 0%nat, 1%nat. split; [done|]. split; apply H; lia.
Qed.

Section Loops.
Context (k0 : K) (c pi : nat) (q st : Z) (order : list nat) (homes : list Z).
Hypothesis (Hm : me k0 c pi q) (Hc : cache k0 q order ∅) (Hl : logged k0 st homes).
Hypothesis (Hsp : exists i, spare k0 ∅ i).
Hypothesis (Hclean : forall y, st <= y <= st + 29 -> ~ dirty k0 y).

Lemma went_start : went k0 k0 c pi q.
Proof. split; [by apply goes_on_refl|apply io_only_refl|by exists order|done]. Qed.

Lemma homes_apart b : b ∈ homes -> b < st \/ st + 29 < b.
Proof. intros Hb. pose proof (lo_homes _ _ _ Hl) as Hh. rewrite list.Forall_forall in Hh. by apply Hh. Qed.

(** [write_log]: the log has the new contents of the homes; the rest of the
    disk is as before, also when the machine stops. *)
Lemma write_log_spec :
  (forall b, b ∈ homes -> dirty k0 b) ->
  ends (write_log k0) (fun _ k => went k0 k c pi q /\
      (forall t b, homes !! t = Some b -> dblock k (st + 1 + Z.of_nat t) = content k0 b) /\
      (forall y, ~ (st < y <= st + 29) -> dblock k y = dblock k0 y /\ content k y = content k0 y) /\
      (forall y, dirty k y <-> dirty k0 y))
    (fun k => forall y, ~ (st < y <= st + 29) -> dblock k y = dblock k0 y).
Proof.
  intros Hd. pose proof (lo_few _ _ _ Hl) as Hfew. unfold write_log.
  eapply ends_mono; [..|apply (for_logged_ends (fun j k => went k0 k c pi q /\
    (forall t b, (t < j)%nat -> homes !! t = Some b -> dblock k (st + 1 + Z.of_nat t) = content k0 b) /\
    (forall y, ~ (st < y <= st + 29) -> dblock k y = dblock k0 y /\ content k y = content k0 y) /\
    (forall y, dirty k y <-> dirty k0 y))
    (fun k => forall y, ~ (st < y <= st + 29) -> dblock k y = dblock k0 y) (length homes) _ log_slots 0)].
  - intros _ k (H1 & H2 & H3). split; [done|]. split; [|done]. intros t b Ht. apply H2; [|done]. by eapply lookup_lt_Some.
  - done.
  - intros j k ([_ Hio _ _] & _). apply (lo_n k st homes). by eapply logged_io.
  - intros j k Hj (Hw & Hlog & Hout & Hdir). destruct (lookup_lt_is_Some_2 homes j Hj) as [b Hb].
    pose proof Hw as [W1 W2 [order1 W3] W4]. pose proof (logged_io _ _ _ _ W2 Hl) as Hl1.
    destruct (logged_home _ _ _ _ _ Hl1 Hb) as (_ & _ & _ & Hbs & _ & Hx & Hne).
    assert (b ∈ homes) as Hin by (by eapply list_elem_of_lookup_2).
    eapply ends_mono; [..|apply (write_log_pass k c pi q order1 st homes j b (proj1 W1) W3 Hl1 Hb)].
    + intros ? k' Hs. pose proof Hs as [_ _ _ S4 S5 S6 _]. split; [eapply went_stored; [exact Hw|]; cbv beta in Hs; exact Hs|].
      split; [|split].
      * intros t b' Ht Hb'. rewrite S4. case_decide as E.
        -- assert (t = j) as -> by lia. rewrite Hb in Hb'. injection Hb' as <-. apply Hout. lia.
        -- apply Hlog; [lia|done].
      * intros y Hy. rewrite S4, S5, !decide_False by lia. by apply Hout.
      * intros y. rewrite S6, Hdir. split; [tauto|]. intros Hdy. split; [done|]. intros ->. apply (Hclean _) in Hdy; [done|lia].
    + intros k' E y Hy. unfold dblock, disk_block. rewrite E. fold (disk_block (k_fs k) 1 y). apply (Hout y Hy).
    + split; [done|]. left. apply Hdir. by apply Hd.
  - unfold log_slots, LOGSIZE, MAXOPBLOCKS. lia.
  - split; [apply went_start|]. split; [lia|]. done.
Qed.

(** [install_trans]: the homes get the contents of the log; when the machine
    stops, the first ones have them. *)
Lemma install_trans_spec :
  (NoDup homes /\ (forall b, b ∈ homes -> dirty k0 b)) \/ (forall y, ~ dirty k0 y) ->
  ends (install_trans k0) (fun _ k => went k0 k c pi q /\
      (forall y, dblock k y = installs st 0 homes (dblock k0) y) /\
      (forall y, dirty k y <-> dirty k0 y /\ y ∉ homes))
    (fun k => exists j, forall y, dblock k y = installs st 0 (take j homes) (dblock k0) y).
Proof.
  intros Hroom. pose proof (lo_few _ _ _ Hl) as Hfew. unfold install_trans.
  eapply ends_mono; [..|apply (for_logged_ends (fun j k => went k0 k c pi q /\
    (forall y, dblock k y = installs st 0 (take j homes) (dblock k0) y) /\
    (forall y, dirty k y <-> dirty k0 y /\ y ∉ take j homes))
    (fun k => exists j, forall y, dblock k y = installs st 0 (take j homes) (dblock k0) y) (length homes) _ log_slots 0)].
  - intros ? k. cbv beta. by rewrite take_ge.
  - done.
  - intros j k ([_ Hio _ _] & _). apply (lo_n k st homes). by eapply logged_io.
  - intros j k Hj (Hw & Hdisk & Hdir). destruct (lookup_lt_is_Some_2 homes j Hj) as [b Hb].
    pose proof Hw as [W1 W2 [order1 W3] W4]. pose proof (logged_io _ _ _ _ W2 Hl) as Hl1.
    destruct (logged_home _ _ _ _ _ Hl1 Hb) as (_ & _ & _ & Hbs & _ & Hx & Hne).
    assert (b ∈ homes) as Hin by (by eapply list_elem_of_lookup_2).
    eapply ends_mono; [..|apply (install_pass k c pi q order1 st homes j b (proj1 W1) W3 Hl1 Hb)].
    + intros ? k' Hs. pose proof Hs as [_ _ _ S4 S5 S6 _]. split; [eapply went_stored; [exact Hw|]; cbv beta in Hs; exact Hs|].
      rewrite (lookup_take_S _ _ _ Hb). split.
      * intros y. rewrite S4, installs_snoc, length_take, Nat.min_l by lia.
        rewrite (content_clean k q order1) by (done || (rewrite Hdir; intros [Hdy _]; revert Hdy; apply Hclean; lia)).
        rewrite !Hdisk. case_decide as E; [subst; by rewrite Z.eqb_refl, Z.add_0_r|].
        apply Z.eqb_neq in E. by rewrite E.
      * intros y. rewrite S6, Hdir. rewrite elem_of_app, list_elem_of_singleton. tauto.
    + intros k' E. exists j. intros y. unfold dblock at 1, disk_block. rewrite E. apply Hdisk.
    + split; [done|]. destruct Hroom as [[Hnd Hd]|Hno].
      * left. apply Hdir. split; [by apply Hd|]. rewrite elem_of_take. intros (t & Ht & Hlt).
        pose proof (NoDup_lookup _ _ _ _ Hnd Ht Hb). lia.
      * right. apply (no_dirty_spares k q order1 W3). intros y. rewrite Hdir. naive_solver.
  - unfold log_slots, LOGSIZE, MAXOPBLOCKS. lia.
  - split; [apply went_start|]. rewrite take_0. split; [done|]. set_solver.
Qed.

End Loops.

(** *** Commit *)

Definition with_lg (f : logst -> logst) (k : K) : K := set_k_fs (set_lg (f (lg (k_fs k))) (k_fs k)) k.

Lemma set_n_eq n k : set_n n k = Done tt (with_lg (fun l => set_lg_lh (set_lh_n n (lg_lh l)) l) k).
Proof. done. Qed.

Lemma cache_lg f k q order held : cache k q order held -> cache (with_lg f k) q order held.
Proof. intros [C1 C2 C3 C4 C5 C6 C7 C8 C9]. by split. Qed.

(** Outside the log. *)
Definition outside (st y : Z) : Prop := y < st \/ st + 29 < y.

(** The header is empty and all blocks outside the log are as in [d]. *)
Definition settled (st : Z) (k : K) (d : Z -> list Z) : Prop :=
  header (dblock k st) = [] /\ forall y, outside st y -> dblock k y = d y.

(** The last steps of [commit] and of recovery: install, clear the header. *)
Lemma finish_spec k c pi q order st homes :
  me k c pi q -> cache k q order ∅ -> logged k st homes -> (exists i, spare k ∅ i) ->
  (forall y, st <= y <= st + 29 -> ~ dirty k y) ->
  (NoDup homes /\ (forall b, b ∈ homes -> dirty k b)) \/ (forall y, ~ dirty k y) ->
  header (dblock k st) = homes ->
  ends ((install_trans ;; set_n 0 ;; write_head) k)
    (fun _ k' => me k' c pi q /\ (exists order', cache k' q order' ∅) /\ logged k' st [] /\
       settled st k' (recovered st (dblock k)) /\ (forall y, dirty k' y <-> dirty k y /\ y ∉ homes))
    (fun k' => forall y, outside st y -> recovered st (dblock k') y = recovered st (dblock k) y).
Proof.
  intros Hm Hc Hl Hsp Hclean Hroom Hhead. pose proof (lo_few _ _ _ Hl) as Hfew.
  pose proof (homes_apart k st homes Hl) as Hap. pose proof (lo_range _ _ _ Hl) as Hr.
  assert (forall j e, (forall y, e y = installs st 0 (take j homes) (dblock k) y) ->
    forall y, recovered st e y = recovered st (dblock k) y) as Hagain.
  { intros j e He y. unfold recovered. rewrite He, (installs_log st homes _ Hap Hfew), Hhead by lia.
    by apply (installs_again st homes (dblock k) Hap Hfew e j). }
  rewrite bind_eq, ends_bind.
  eapply ends_mono; [..|by apply (install_trans_spec k c pi q st order homes)]; [|intros k' [j Hj] y _; by eapply Hagain].
  intros _ k1 ([W1 W2 [order1 W3] W4] & Hd1 & Hdir1). rewrite bind_eq, set_n_eq. cbn [res_bind].
  set (k2 := with_lg _ k1). pose proof (logged_io _ _ _ _ W2 Hl) as [L1 L2 L3 L4 L5 L6 L7 L8].
  assert (logged k2 st []) as Hl2 by (split; [exact L1|exact L2|done|done|exact L5|simpl; lia|exact L7|constructor]).
  assert (forall y, dblock k1 y = recovered st (dblock k) y) as Hrec.
  { intros y. rewrite Hd1. unfold recovered. by rewrite Hhead. }
  assert (~ dirty k2 st) as Hst by (intros Hdy; apply (proj1 (Hdir1 st)) in Hdy as [Hdy _]; revert Hdy; apply Hclean; lia).
  eapply ends_mono; [..|apply (write_head_spec k2 c pi q order1 st []); try done].
  - intros _ k3 [S1 S2 S3 S4 S5 S6 S7]. split; [apply S1|]. split; [done|]. split; [by eapply logged_io|]. split.
    + split; [|intros y Hy; rewrite S4, decide_False by (unfold outside in Hy; lia); apply Hrec].
      rewrite S4, decide_True by done. apply header_head_block; [apply W3|simpl; lia|constructor].
    + intros y. rewrite S6. change (dirty k2 y) with (dirty k1 y). rewrite Hdir1. split; [tauto|]. intros Hdy. split; [done|].
      intros ->. destruct Hdy as [Hdy _]. revert Hdy. apply Hclean. lia.
  - intros k3 E y _. apply (Hagain (length homes)). intros y'. unfold dblock at 1, disk_block. rewrite E.
    rewrite take_ge by done. apply Hd1.
  - apply me_fs, W1.
  - by apply cache_lg.
Qed.

(** Fewer than 30 recorded blocks and locked buffers leave a buffer free. *)
Lemma spare_exists k q order held homes :
  cache k q order held -> (forall y, dirty k y -> y ∈ homes) -> (length homes + size held < 30)%nat -> exists i, spare k held i.
Proof.
  intros Hc Hd Hn. pose proof (ca_len _ _ _ _ Hc) as Hlen. set (N := elements (list_to_set (seq 0 30) ∖ held : gset nat)).
  assert (forall i, i ∈ N <-> (i < 30)%nat /\ i ∉ held) as HN.
  { intros i. unfold N. rewrite elem_of_elements, elem_of_difference, elem_of_list_to_set, elem_of_seq. split; (intros [? ?]; split; [lia|done]). }
  assert (30 <= length N + size held)%nat as Hcount.
  { unfold N. change (length (elements ?X)) with (size X). rewrite size_difference_alt.
    pose proof (subseteq_size (list_to_set (seq 0 30) ∩ held) held ltac:(set_solver)).
    assert (size (list_to_set (seq 0 30) : gset nat) = 30%nat) as E by (rewrite size_list_to_set by apply NoDup_seq; by rewrite length_seq).
    lia. }
  assert (forall i, i ∈ N -> is_Some (cbufs k !! i)) as Hbuf.
  { intros i [Hi _]%HN. apply lookup_lt_is_Some. lia. }
  destruct (decide (Exists (fun i => from_option b_flags 0 (cbufs k !! i) <> 6) N)) as [Hex|Hall].
  { apply list.Exists_exists in Hex as (i & Hi & Hf). destruct (Hbuf i Hi) as [b Hb]. rewrite Hb in Hf.
    exists i. apply HN in Hi as [Hi Hh]. split; [done|]. split; [done|]. by exists b. }
  exfalso. assert (forall i, i ∈ N -> exists b, cbufs k !! i = Some b /\ b_flags b = 6 /\ b_dev b = 1) as Hdirty.
  { intros i Hi. destruct (Hbuf i Hi) as [b Hb]. exists b. split; [done|].
    assert (b_flags b = 6) as Hf.
    { destruct (decide (b_flags b = 6)) as [?|Hf]; [done|]. destruct Hall. apply list.Exists_exists. exists i. by rewrite Hb. }
    apply HN in Hi as [Hi Hh]. by destruct (ca_idle _ _ _ _ Hc i b Hb Hi Hh) as [?|[[? _]|(_ & ? & _)]]; [lia..|]. }
  set (l := (fun i => from_option b_blockno 0 (cbufs k !! i)) <$> N).
  assert (NoDup l) as Hnd.
  { apply NoDup_fmap_2_strong; [|apply NoDup_elements]. intros i j Hi Hj.
    destruct (Hdirty i Hi) as (b & Hb & _ & Hdb), (Hdirty j Hj) as (b' & Hb' & _ & Hdb'). rewrite Hb, Hb'. simpl.
    apply HN in Hi as [Hi _], Hj as [Hj _]. by apply (ca_uniq _ _ _ _ Hc). }
  assert (length l <= length homes)%nat as Hle.
  { apply submseteq_length, NoDup_submseteq; [done|]. intros x (i & -> & Hi)%list_elem_of_fmap.
    destruct (Hdirty i Hi) as (b & Hb & Hf & Hdb). apply Hd. exists i, b. rewrite Hb. apply HN in Hi as [Hi _]. done. }
  unfold l in Hle. rewrite length_fmap in Hle. lia.
Qed.

Lemma recovered_empty st d y : header (d st) = [] -> recovered st d y = d y.
Proof. intros H. unfold recovered. by rewrite H. Qed.

(** What recovery makes of a disk with the new contents in the log. *)
Lemma recovered_log k k' st homes y :
  logged k st homes -> header (dblock k' st) = homes ->
  (forall t b, homes !! t = Some b -> dblock k' (st + 1 + Z.of_nat t) = content k b) ->
  (forall y, outside st y -> y ∉ homes -> dblock k' y = content k y) ->
  outside st y -> recovered st (dblock k') y = content k y.
Proof.
  intros Hl Hh Hlog Hout Hy. pose proof (lo_few _ _ _ Hl). pose proof (homes_apart k st homes Hl) as Hap.
  unfold recovered. rewrite Hh. destruct (decide (y ∈ homes)) as [Hin|Hin].
  - destruct (last_occurrence homes y Hin) as (t & Ht & Hlast).
    rewrite (proj1 (installs_spec st 0 homes (dblock k') y Hap ltac:(lia) ltac:(lia)) t Ht Hlast), Z.add_0_r. by apply Hlog.
  - rewrite (proj2 (installs_spec st 0 homes (dblock k') y Hap ltac:(lia) ltac:(lia)) Hin). auto.
Qed.

(** [commit]: the blocks outside the log get the contents the processes saw;
    when the machine stops at a write, recovery makes of the disk the state
    before the transaction or the one after it. *)
Lemma commit_spec k c pi q order st homes
    (Hm : me k c pi q) (Hc : cache k q order ∅) (Hl : logged k st homes) (Hnd : NoDup homes)
    (Hn : (length homes < 30)%nat) (Hd : forall y, dirty k y <-> y ∈ homes) (Hh : header (dblock k st) = []) :
  ends (commit k)
    (fun _ k' => me k' c pi q /\ (exists order', cache k' q order' ∅) /\ logged k' st [] /\
       settled st k' (content k) /\ forall y, ~ dirty k' y)
    (fun k' => (forall y, outside st y -> recovered st (dblock k') y = dblock k y) \/
               (forall y, outside st y -> recovered st (dblock k') y = content k y)).
Proof.
  pose proof (lo_range _ _ _ Hl) as Hr. pose proof (homes_apart k st homes Hl) as Hap.
  assert (exists i, spare k ∅ i) as Hsp by (eapply (spare_exists _ _ _ _ homes); [exact Hc| |rewrite size_empty; lia]; intros y; apply Hd).
  assert (forall y, y ∉ homes -> content k y = dblock k y) as Hclean.
  { intros y Hy. apply (content_clean k q order); [done|]. by rewrite Hd. }
  assert (forall y, st <= y <= st + 29 -> ~ dirty k y) as Hlogc.
  { intros y Hy Hdy. apply Hd, Hap in Hdy. lia. }
  unfold commit. rewrite bind_eq, get_log_eq. cbn [res_bind]. rewrite (lo_n _ _ _ Hl).
  destruct homes as [|h homes]; [|set (hs := h :: homes) in *].
  { change (Z.of_nat (length []) >? 0) with false. cbn [when]. rewrite ret_eq. split; [done|]. split; [by exists order|].
    split; [done|]. split; [|intros y; rewrite Hd; set_solver]. split; [done|]. intros y _. symmetry. apply Hclean. set_solver. }
  change (Z.of_nat (length hs) >? 0) with true. cbn [when].
  rewrite bind_eq, ends_bind.
  eapply ends_mono; [..|apply (write_log_spec k c pi q st order hs); try done; intros b; apply Hd].
  2:{ intros k' Hk'. left. intros y Hy. unfold outside in Hy. rewrite recovered_empty by (by rewrite Hk' by lia). apply Hk'. lia. }
  intros _ k1 ([W1 W2 [order1 W3] W4] & Hlog1 & Hout1 & Hdir1). pose proof (logged_io _ _ _ _ W2 Hl) as Hl1.
  assert (~ dirty k1 st) as Hst1 by (rewrite Hdir1; apply Hlogc; lia).
  rewrite bind_eq, ends_bind.
  eapply ends_mono; [..|apply (write_head_spec k1 c pi q order1 st hs (proj1 W1) W3 Hl1 Hst1 W4)].
  2:{ intros k' E. left. intros y Hy. unfold outside in Hy.
      assert (forall y, dblock k' y = dblock k1 y) as E' by (intros y'; unfold dblock, disk_block; by rewrite E).
      rewrite recovered_empty by (by rewrite E', (proj1 (Hout1 st ltac:(lia)))). rewrite E'. apply Hout1. lia. }
  intros _ k2 [S1 S2 [order2 S3] S4 S5 S6 S7]. pose proof (logged_io _ _ _ _ S2 Hl1) as Hl2.
  assert (forall y, dirty k2 y <-> y ∈ hs) as Hdir2.
  { intros y. rewrite S6, Hdir1, Hd. split; [tauto|]. intros Hy. split; [done|]. intros ->. apply Hap in Hy. lia. }
  assert (header (dblock k2 st) = hs) as Hh2.
  { rewrite S4, decide_True by done. apply header_head_block; [apply W3|lia|].
    eapply list.Forall_impl; [exact (lo_homes _ _ _ Hl1)|]. intros b Hb. cbv beta in Hb. pose proof (lo_range _ _ _ Hl1). lia. }
  assert (forall y, outside st y -> recovered st (dblock k2) y = content k y) as Hrec.
  { intros y Hy. apply (recovered_log k k2 st hs y Hl Hh2); [| |done].
    - intros t b Ht. rewrite S4, decide_False by lia. by apply Hlog1.
    - intros y' Hy' Hin. unfold outside in Hy'. rewrite S4, decide_False, (Hclean y' Hin) by lia. apply Hout1. lia. }
  eapply ends_mono; [..|apply (finish_spec k2 c pi q order2 st hs (proj1 S1) S3 Hl2 S7); try done].
  - intros _ k3 (F1 & F2 & F3 & [F4 F5] & F6). split; [done|]. split; [done|]. split; [done|]. split.
    + split; [done|]. intros y Hy. by rewrite F5, Hrec.
    + intros y. rewrite F6, Hdir2. tauto.
  - intros k3 H3. right. intros y Hy. by rewrite H3, Hrec.
  - intros y Hy Hdy. apply Hdir2, Hap in Hdy. lia.
  - left. split; [done|]. intros b Hb. by apply Hdir2.
Qed.

(** *** Recovery *)

(** The log's place is known and the header on disk is a sound one. *)
Record bootable (k : K) (st : Z) : Prop := {
  bo_dev : lg_dev (lg (k_fs k)) = 1;
  bo_start : lg_start (lg (k_fs k)) = st;
  bo_len : length (lh_block (lg_lh (lg (k_fs k)))) = 30%nat;
  bo_range : 0 <= st /\ st + 29 < disksize (k_fs k) < 2 ^ 31;
  bo_n : 0 <= s32 (word_at (dblock k st) 0) <= 29;
  bo_homes : Forall (fun b => 0 <= b < disksize (k_fs k) /\ (b < st \/ st + 29 < b)) (header (dblock k st))
}.

Lemma header_at h t b : header h !! t = Some b -> b = word_at h (4 + 4 * t).
Proof.
  unfold header. rewrite list_lookup_fmap. destruct (decide (t < Z.to_nat (s32 (word_at h 0)))%nat) as [H|H].
  - rewrite lookup_seq_lt by done. simpl. by intros [= <-].
  - rewrite lookup_seq_ge by lia. done.
Qed.

Lemma put_lh_block_eq j v k :
  (j < length (lh_block (lg_lh (lg (k_fs k)))))%nat ->
  put_lh_block (Z.of_nat j) v k =
  Done tt (with_lg (fun l => set_lg_lh (set_lh_block (<[j := s32 v]> (lh_block (lg_lh l))) (lg_lh l)) l) k).
Proof.
  intros Hj. destruct (lookup_lt_is_Some_2 _ _ Hj) as [x Hx]. unfold put_lh_block, get_lh_block.
  rewrite !bind_eq, get_log_eq. cbn [res_bind]. by rewrite Nat2Z.id, Hx.
Qed.

(** [read_head] makes the in-memory header that of the disk. *)
Lemma read_head_spec k c pi q order st C :
  me k c pi q -> cache k q order ∅ -> bootable k st -> (forall y, ~ dirty k y) ->
  ends (read_head k) (fun _ k' => me k' c pi q /\ (exists order', cache k' q order' ∅) /\
    logged k' st (header (dblock k st)) /\ (forall y, dblock k' y = dblock k y) /\ (forall y, ~ dirty k' y)) C.
Proof.
  intros Hm Hc [Bd Bs Bl Br Bn Bh] Hnd. set (homes := header (dblock k st)) in *.
  assert (Z.of_nat (length homes) = s32 (word_at (dblock k st) 0)) as Hlen
    by (unfold homes, header; rewrite length_fmap, length_seq; lia).
  destruct (no_dirty_spares k q order Hc Hnd) as (i0 & _ & _ & Hi0 & _).
  unfold read_head. rewrite bind_eq, get_log_eq. cbn [res_bind]. rewrite Bd, Bs, (u32_small st) by lia. change (u32 1) with 1.
  ends_run (bread_spec lost k c pi q order ∅ st Hm Hc ltac:(lia)); [|by intros i b' ?%elem_of_empty|right; by exists i0].
  intros i k1 Ht1. destruct (tk_buf _ _ _ _ _ _ _ _ _ Ht1) as (b & Hb & _ & _ & B3 & _).
  destruct (took_idle _ _ _ _ _ _ _ _ _ _ Ht1 Hc Hb) as (_ & B2 & _ & Hid & _). destruct Ht1 as [[Hm1 _] _ _ T4 Hc1 _ _ T8 _ _].
  rewrite (content_clean k q order st Hc (Hnd st)) in B3.
  rewrite bind_eq, (get_buf_eq _ _ _ Hb). cbn [res_bind]. rewrite bind_eq, set_n_eq, B3, <- Hlen. cbn [res_bind].
  set (at_ bl := with_lg (fun l => set_lg_lh (mkLh (Z.of_nat (length homes)) bl) l) k1).
  rewrite bind_eq, ends_bind. eapply ends_mono; [..|apply (for_logged_ends (fun j k' => exists bl,
     k' = at_ bl /\ length bl = 30%nat /\ take j bl = take j homes) C (length homes) _ log_slots 0)]; [|done|..].
  - intros ? k2 (bl & -> & Hbl & Htk). rewrite (take_ge homes) in Htk by done.
    eapply ends_runs, wp_mono; [|apply (brelse_spec (at_ bl) c pi q order ({[i]} ∪ ∅) i b)]; [|by apply me_fs|by apply cache_lg|set_solver|done|done].
    intros ? k3 (Hg3 & Ef3 & Ec3 & order3 & Hc3). split; [apply Hg3|].
    replace (({[i]} ∪ ∅) ∖ {[i]}) with (∅ : gset nat) in Hc3 by set_solver. split; [by exists order3|]. split; [|split].
    + apply (logged_io (at_ bl)); [by eapply io_only_bufs|].
      split; try done; unfold at_; simpl; rewrite ?T4; try done. lia.
    + intros y. unfold dblock. rewrite Ef3. unfold at_. simpl. by rewrite T4.
    + intros y. rewrite (bcore_dirty (at_ bl) k3 Ec3). change (dirty (at_ bl) y) with (dirty k1 y). by rewrite T8.
  - intros j k' (bl & -> & _). done.
  - intros j k' Hj (bl & -> & Hbl & Htk). destruct (lookup_lt_is_Some_2 homes j Hj) as [x Hx].
    rewrite bind_eq, (get_buf_eq (at_ bl) _ _ Hb). cbn [res_bind]. rewrite put_lh_block_eq by (unfold at_; simpl; lia).
    rewrite Nat2Z.id, B3, <- (header_at _ _ _ Hx), s32_small.
    2:{ rewrite list.Forall_forall in Bh. specialize (Bh x (list_elem_of_lookup_2 _ _ _ Hx)). cbv beta in Bh. lia. }
    exists (<[j := x]> bl). split; [done|]. split; [by rewrite length_insert|].
    rewrite (lookup_take_S _ j x), (lookup_take_S homes j x) by (done || (apply list_lookup_insert_eq; lia)).
    by rewrite take_insert_ge, Htk by lia.
  - unfold log_slots, LOGSIZE, MAXOPBLOCKS. lia.
  - exists (lh_block (lg_lh (lg (k_fs k1)))). split; [done|]. split; [by rewrite T4|done].
Qed.

(** C5. Recovery.  Run when the machine starts, with a cache that holds nothing
    new, [recover_from_log] leaves the disk outside the log as the committed
    transaction makes it and the log empty.  It may itself be interrupted at any
    write: recovery started again has the same outcome. *)
Theorem recover_restores k c pi q order st
    (Hm : me k c pi q) (Hc : cache k q order ∅) (Hb : bootable k st) (Hd : forall y, ~ dirty k y) :
  ends (recover_from_log k)
    (fun _ k' => me k' c pi q /\ (exists order', cache k' q order' ∅) /\ logged k' st [] /\
       settled st k' (recovered st (dblock k)) /\ forall y, ~ dirty k' y)
    (fun k' => forall y, outside st y -> recovered st (dblock k') y = recovered st (dblock k) y).
Proof.
  unfold recover_from_log. rewrite bind_eq, ends_bind.
  eapply ends_mono; [..|apply (read_head_spec k c pi q order st (fun _ => False) Hm Hc Hb Hd)]; [|done].
  intros _ k1 (Hm1 & [order1 Hc1] & Hl1 & E1 & Hd1). destruct (no_dirty_spares k1 q order1 Hc1 Hd1) as (i0 & _ & _ & Hi0 & _).
  assert (forall y, recovered st (dblock k1) y = recovered st (dblock k) y) as Er.
  { intros y. unfold recovered. rewrite E1. apply installs_ext, E1. }
  eapply ends_mono; [..|apply (finish_spec k1 c pi q order1 st _ Hm1 Hc1 Hl1)].
  - intros _ k2 (F1 & F2 & F3 & [F4 F5] & F6). do 3 (split; [done|]). split.
    + split; [done|]. intros y Hy. by rewrite F5, Er.
    + intros y [Hdy _]%F6. by apply (Hd1 y).
  - intros k2 H2 y Hy. by rewrite H2, Er.
  - by exists i0.
  - auto.
  - by right.
  - by rewrite E1.
Qed.

End LogSpec.

(** ** A small disk *)

(** Process 2 runs; block 40 has been changed in the cache and recorded. *)
Definition new40 : buf := mkBuf 6 1 40 0 1 30 None (replicate 512 7).

Definition kernel_tx : K :=
  kernel_fs (kernel_running 0 ∅)
    (set_lg (mkLog 2 30 1 0 1 (mkLh 1 (40 :: replicate 29 0))) (set_bufs (<[0%nat := new40]> (bufs fs0)) fs0)).

(** The machine starts again with the transaction in the log. *)
Definition logged40 : gmap (Z * Z) (list Z) :=
  {[(1, 2) := head_block (replicate 512 0) [40]; (1, 3) := replicate 512 7]}.

Definition kernel_boot : K :=
  kernel_fs (kernel_running 0 ∅)
    (set_disk logged40 (set_bufs (<[0%nat := mkBuf 0 1 40 0 1 30 None (replicate 512 0)]> (bufs fs0)) fs0)).

Lemma kernel_running_me s : me (kernel_fs (kernel_running 0 ∅) s) 0 1 2.
Proof.
  split; try done; [|by eexists]. destruct kernel_running_holds. by split.
Qed.

(** A list of buffers is looked at one by one. *)
Lemma forall_bufs (bs : list buf) (P : nat -> buf -> Prop) :
  Forall (fun x => P (fst x) (snd x)) (imap pair bs) -> forall i b, bs !! i = Some b -> P i b.
Proof.
  intros H i b Hb. rewrite list.Forall_forall in H. apply (H (i, b)). apply list_elem_of_lookup_2 with i.
  by rewrite list_lookup_imap, Hb.
Qed.

Lemma kernel_tx_dirty y : dirty kernel_tx y <-> y ∈ [40].
Proof.
  rewrite list_elem_of_singleton. split.
  - intros (i & b & _ & Hb & _ & <- & Hf).
    apply (forall_bufs (cbufs kernel_tx) (fun _ b => b_flags b = 6 -> b_blockno b = 40)) with i; [|done..].
    vm_compute. repeat constructor; congruence.
  - intros ->. exists 0%nat, new40. repeat split. lia.
Qed.

(** The cache as [binit] leaves it, but for buffer 0; it may be locked. *)
Definition demo_held (h : bool) : gset nat := if h then {[0%nat]} else ∅.

Definition demo_slocks (h : bool) : gmap slid sleeplock :=
  if h then {[SLbuf 0 := mkSleeplock 1 "buffer" 2]} else ∅.

Lemma demo_cache (h : bool) (f : Z) (d : list Z) (s : fstate) :
  bufs s = <[0%nat := mkBuf f 1 40 (if h then 1 else 0) 1 30 None d]> (bufs fs0) ->
  (forall x, length (disk_block s 1 x) = 512%nat) ->
  h = true \/ f = 0 \/ f = 6 /\ length d = 512%nat ->
  cache (set_k_slocks (demo_slocks h) (kernel_fs (kernel_running 0 ∅) s)) 2 (reverse (seq 0 30)) (demo_held h).
Proof.
  intros Hs Hx Hf.
  set (bs := <[0%nat := _]> (bufs fs0)) in Hs. pose proof (forall_bufs bs) as Hall.
  split; unfold cbufs; cbn [kernel_fs k_fs set_k_slocks].
  - by rewrite Hs.
  - apply reverse_Permutation.
  - rewrite Hs. unfold bs. vm_compute. repeat split.
  - intros i Hi. unfold demo_held. destruct h; case_decide as E; try (by apply elem_of_empty in E).
    + apply elem_of_singleton in E as ->. by vm_compute.
    + unfold slock. simpl. rewrite lookup_singleton_ne; [done|]. set_solver.
    + done.
  - intros i Hi. unfold demo_held in Hi. destruct h; [apply elem_of_singleton in Hi; lia|by apply elem_of_empty in Hi].
  - intros i b Hb _. rewrite Hs in Hb. revert i b Hb.
    apply (Hall (fun i b => b_refcnt b = if decide (i ∈ demo_held h) then 1 else 0)). unfold bs.
    destruct h; vm_compute; repeat constructor.
  - intros i j b b' Hb Hb' _ _ Hd Hd' _. rewrite Hs in Hb, Hb'.
    assert (forall i b, bs !! i = Some b -> b_dev b = 1 -> i = 0%nat) as H0.
    { apply (Hall (fun i b => b_dev b = 1 -> i = 0%nat)). vm_compute. repeat constructor; congruence. }
    rewrite (H0 _ _ Hb Hd), (H0 _ _ Hb' Hd'). done.
  - intros i b Hb _. rewrite Hs in Hb. revert i b Hb. apply (Hall (fun i b => i ∉ demo_held h -> idle_ok _ b)).
    constructor; [|repeat constructor]. simpl. intros Hi. destruct Hf as [->|[->|[-> ?]]]; [set_solver|by left|by right; right].
  - intros x. apply Hx.
Qed.

Lemma kernel_tx_cache : cache kernel_tx 2 (reverse (seq 0 30)) ∅.
Proof. apply (demo_cache false 6 (replicate 512 7)); [done|intros x; done|by right; right]. Qed.

Lemma kernel_tx_logged : logged kernel_tx 2 [40].
Proof.
  split; try done; simpl; try lia. repeat constructor; lia.
Qed.

Lemma kernel_boot_blocks x : length (dblock kernel_boot x) = 512%nat.
Proof.
  unfold dblock, disk_block. simpl. unfold logged40.
  destruct (decide (x = 2)) as [->|H2]; [by vm_compute|]. destruct (decide (x = 3)) as [->|H3]; [by vm_compute|].
  rewrite lookup_insert_ne, lookup_singleton_ne by congruence. done.
Qed.

Lemma kernel_boot_cache : cache kernel_boot 2 (reverse (seq 0 30)) ∅.
Proof. apply (demo_cache false 0 (replicate 512 0)); [done|exact kernel_boot_blocks|by right; left]. Qed.

Lemma kernel_boot_clean y : ~ dirty kernel_boot y.
Proof.
  intros (i & b & _ & Hb & _ & _ & Hf).
  apply (forall_bufs (cbufs kernel_boot) (fun _ b => b_flags b = 6 -> False)) with i b; [|done..].
  vm_compute. repeat constructor; congruence.
Qed.

Lemma kernel_bootable : bootable kernel_boot 2.
Proof.
  assert (header (dblock kernel_boot 2) = [40]) as E by (by vm_compute).
  split; rewrite ?E; try done; simpl; try lia. repeat constructor; lia.
Qed.

Lemma recover_restores_witness :
  ends (recover_from_log (BD := power (fun _ _ => false)) kernel_boot)
    (fun _ k' => settled 2 k' (recovered 2 (dblock kernel_boot)))
    (fun k' => forall y, outside 2 y -> recovered 2 (dblock k') y = recovered 2 (dblock kernel_boot) y) /\
  recovered 2 (dblock kernel_boot) 40 = replicate 512 7.
Proof.
  split; [|by vm_compute].
  eapply ends_mono; [..|apply (recover_restores (fun _ _ => false) kernel_boot 0 1 2 (reverse (seq 0 30)) 2
    (kernel_running_me _) kernel_boot_cache kernel_bootable kernel_boot_clean)].
  - intros ? k' (_ & _ & _ & H & _). exact H.
  - intros k' H. exact H.
Defined.
