(* ===== verification/TxSpec.v ===== *)
(** * Transactions: [log_write], [end_op] (log.c)

    A file-system call changes blocks in the cache and records them with
    [log_write]; the [end_op] of the last call in progress commits. *)

From S2P Require Import Prelude Params State Spinlock Seg Proc ProcSpec ProcRefine SleepWake FsState Sleeplock Demo DemoFs.
From S2P Require Import SleeplockSpec Ring BlockDev Ide Memide Bio BioSpec Log LogSpec.

(** The blocks recorded after block [x] is: one already there is not recorded
    again. *)
Definition absorb (x : Z) (homes : list Z) : list Z := if decide (x ∈ homes) then homes else homes ++ [x].

Lemma absorb_length x homes : (length homes <= length (absorb x homes) <= S (length homes))%nat.
Proof. unfold absorb. case_decide; rewrite ?length_app; simpl; lia. Qed.

(** The place of [x], or the first free one. *)
Fixpoint pos (x : Z) (l : list Z) : nat :=
  match l with
  | [] => 0
  | y :: l' => if decide (y = x) then 0 else S (pos x l')
  end.

Lemma pos_spec x l : (x ∈ l -> l !! pos x l = Some x) /\ (x ∉ l -> pos x l = length l) /\ (pos x l <= length l)%nat.
Proof.
  induction l as [|y l (IH1 & IH2 & IH3)]; simpl; [set_solver|]. case_decide as E; [subst; set_solver by lia|].
  split; [|split; [|lia]].
  - intros [->|H]%elem_of_cons; [done|]. by apply IH1.
  - intros H. rewrite IH2 by set_solver. done.
Qed.

Section TxSpec.
Context {LK : Linker} {FU : Fuel}.
Context (lost : gmap (Z * Z) (list Z) -> Z -> bool).
Implicit Types (k : K).

#[local] Instance tx_power : BlockDev := power lost.

(** A change of the file system is published by releasing the lock. *)
Lemma unlock_fs k k1 c pi q l f :
  me k c pi q -> holds k1 c 1 [l] -> core k1 = core k ->
  runs (release l) (set_k_fs f k1) (fun _ k' => goes_on c pi q k k' /\ k_fs k' = f /\ k_slocks k' = k_slocks k).
Proof.
  intros Hm Hk1 Hc1. assert (holds (set_k_fs f k1) c (0 + 1) [l]) as Hk2 by (by eapply holds_ext; [..|exact Hk1]).
  eapply wp_mono; [|apply (release_holds _ c 0 [] l Hk2); [apply not_elem_of_nil|lia]].
  intros _ k3 [Hk3 Hc3]. assert (core k3 = core (set_k_fs f k)) as Hc by (by rewrite Hc3, !core_set_fs, Hc1).
  split; [|by rewrite (core_fs _ _ Hc), (core_slocks _ _ Hc)].
  eapply goes_on_core in Hc as (H1 & H2 & H3); [|done|by apply me_fs]. done.
Qed.

(** ** Recording a block *)

Lemma find_logged_eq k st homes x m j :
  logged k st homes -> (length homes <= j + m)%nat -> (j <= length homes)%nat ->
  find_logged m (Z.of_nat j) x k = Done (Z.of_nat (j + pos x (drop j homes))) k.
Proof.
  intros Hl. revert j. induction m as [|m IH]; intros j Hm Hj; cbn [find_logged];
    rewrite bind_eq, get_log_eq; cbn [res_bind]; rewrite (lo_n _ _ _ Hl).
  - replace (Z.of_nat j <? Z.of_nat (length homes)) with false by lia. cbn [negb].
    rewrite ret_eq, drop_ge by lia. simpl. by rewrite Nat.add_0_r.
  - destruct (Z.of_nat j <? Z.of_nat (length homes)) eqn:E; cbn [negb].
    2:{ rewrite ret_eq, drop_ge by lia. simpl. by rewrite Nat.add_0_r. }
    destruct (lookup_lt_is_Some_2 homes j) as [b Hb]; [lia|].
    destruct (logged_home _ _ _ _ _ Hl Hb) as (Hg & Hu & _). rewrite bind_eq, Hg. cbn [res_bind]. rewrite Hu.
    rewrite (drop_S _ _ _ Hb). simpl. case_decide as Ex.
    + subst b. rewrite Z.eqb_refl, ret_eq. by rewrite Nat.add_0_r.
    + apply Z.eqb_neq in Ex. rewrite Ex. replace (Z.of_nat j + 1) with (Z.of_nat (S j)) by lia.
      rewrite IH by lia. do 2 f_equal. lia.
Qed.

(** The header in memory with [x] at its place. *)
Definition recorded (x : Z) (homes : list Z) (l : logst) : logst :=
  set_lg_lh (mkLh (Z.of_nat (length (absorb x homes))) (<[pos x homes := x]> (lh_block (lg_lh l)))) l.

Lemma recorded_logged k k' st homes x :
  logged k st homes -> lg (k_fs k') = recorded x homes (lg (k_fs k)) -> disksize (k_fs k') = disksize (k_fs k) ->
  (length homes < 29)%nat -> 0 <= x < disksize (k_fs k) -> outside st x -> logged k' st (absorb x homes).
Proof.
  intros [L1 L2 L3 L4 L5 L6 L7 L8] El Ed Hn Hx Ho. destruct (pos_spec x homes) as (P1 & P2 & P3).
  assert (forall t b, homes !! t = Some b -> lh_block (lg_lh (lg (k_fs k))) !! t = Some b) as Hall.
  { intros t b Ht. apply (lookup_take_Some _ (length homes)). by rewrite L4. }
  split; rewrite ?El, ?Ed; try done; unfold recorded; simpl.
  - unfold absorb. case_decide as E.
    + rewrite list_insert_id; [done|]. by apply Hall, P1.
    + rewrite (P2 E), length_app. simpl. rewrite Nat.add_1_r, (lookup_take_S _ _ x) by (apply list_lookup_insert_eq; lia).
      by rewrite take_insert_ge, L4 by lia.
  - by rewrite length_insert.
  - unfold absorb. case_decide; [done|]. rewrite length_app. simpl. lia.
  - unfold absorb. case_decide; [done|]. apply Forall_app. split; [done|]. by apply Forall_singleton.
Qed.

(** The body of [log_write], with the log's lock. *)
Lemma record_eq k st homes i b :
  logged k st homes -> cbufs k !! i = Some b -> 0 <= b_blockno b < 2 ^ 31 -> (length homes < 29)%nat ->
  b_flags b = 2 \/ b_flags b = 6 ->
  (bb <- get_buf i ;;
   t <- find_logged log_slots 0 (b_blockno bb) ;;
   put_lh_block t (b_blockno bb) ;;
   l <- get_log ;;
   when (t =? lh_n (lg_lh l)) (set_n (lh_n (lg_lh l) + 1)) ;;
   upd_buf i (fun b => set_b_flags (Z.lor (b_flags b) B_DIRTY) b) ;;
   release LKlog) k =
  release LKlog (set_k_fs (set_bufs (<[i := set_b_flags 6 b]> (cbufs k))
    (set_lg (recorded (b_blockno b) homes (lg (k_fs k))) (k_fs k))) k).
Proof.
  intros Hl Hb Hx Hn Hf. destruct (pos_spec (b_blockno b) homes) as (P1 & P2 & P3).
  pose proof (lookup_lt_Some _ _ _ Hb) as Hi. set (x := b_blockno b) in *.
  rewrite bind_eq, (get_buf_eq _ _ _ Hb). cbn [res_bind]. fold x.
  rewrite bind_eq. change (find_logged log_slots 0 x k) with (find_logged log_slots (Z.of_nat 0) x k).
  rewrite (find_logged_eq k st homes x log_slots 0 Hl) by (unfold log_slots, LOGSIZE, MAXOPBLOCKS; lia). cbn [res_bind].
  rewrite drop_0, Nat.add_0_l. rewrite bind_eq, put_lh_block_eq by (rewrite (lo_len _ _ _ Hl); lia). cbn [res_bind].
  rewrite (s32_small x) by lia. rewrite bind_eq, get_log_eq. cbn [res_bind].
  set (k1 := with_lg _ k). change (lh_n (lg_lh (lg (k_fs k1)))) with (lh_n (lg_lh (lg (k_fs k)))). rewrite (lo_n _ _ _ Hl).
  assert (Z.lor (b_flags b) B_DIRTY = 6) as E6 by (by destruct Hf as [->| ->]).
  assert (forall f, bind (upd_buf i (fun b => set_b_flags (Z.lor (b_flags b) B_DIRTY) b)) (fun _ => release LKlog) (with_lg f k) =
    release LKlog (set_k_fs (set_bufs (<[i := set_b_flags 6 b]> (cbufs k)) (set_lg (f (lg (k_fs k))) (k_fs k))) k)) as Hend.
  { intros f. rewrite bind_eq, upd_buf_eq by done. cbn [res_bind]. change (cbufs (with_lg f k)) with (cbufs k).
    by rewrite (alter_insert _ _ _ _ Hb), E6. }
  unfold recorded, absorb. case_decide as E.
  - assert (pos x homes < length homes)%nat by (by eapply lookup_lt_Some, P1).
    replace (Z.of_nat (pos x homes) =? Z.of_nat (length homes)) with false by lia. cbn [when].
    rewrite bind_eq, ret_eq. cbn [res_bind]. unfold k1. rewrite Hend. rewrite <- (lo_n _ _ _ Hl). done.
  - unfold k1. rewrite (P2 E), Z.eqb_refl. cbn [when]. rewrite bind_eq, set_n_eq. cbn [res_bind].
    rewrite length_app. simpl length. rewrite Nat2Z.inj_add. exact (Hend (fun l => set_lg_lh (mkLh (Z.of_nat (length homes) + 1) (<[length homes := x]> (lh_block (lg_lh l)))) l)).
Qed.

(** [log_write] of a buffer the caller has locked. *)
Lemma log_write_spec k c pi q order held i b st homes
    (Hm : me k c pi q) (Hc : cache k q order held) (Hi : i ∈ held) (Hb : cbufs k !! i = Some b)
    (Hdev : b_dev b = 1) (Hf : b_flags b = 2 \/ b_flags b = 6) (Hl : logged k st homes)
    (Hx : 0 <= b_blockno b < disksize (k_fs k)) (Ho : outside st (b_blockno b))
    (Hn : (length homes < 29)%nat) (Hsz : Z.of_nat (length homes) < lg_size (lg (k_fs k)) - 1)
    (Hout : 1 <= lg_outstanding (lg (k_fs k))) :
  runs (log_write i) k (fun _ k' => goes_on c pi q k k' /\ k_slocks k' = k_slocks k /\ cache k' q order held /\
    k_fs k' = set_bufs (<[i := set_b_flags 6 b]> (cbufs k)) (set_lg (recorded (b_blockno b) homes (lg (k_fs k))) (k_fs k)) /\
    logged k' st (absorb (b_blockno b) homes) /\ cbufs k' !! i = Some (set_b_flags 6 b) /\
    (forall y, dblock k' y = dblock k y) /\ (forall y, dirty k' y <-> dirty k y \/ y = b_blockno b) /\
    (forall y, content k' y = if decide (y = b_blockno b) then b_data b else content k y)).
Proof.
  unfold runs, log_write. rewrite bind_eq, get_log_eq. cbn [res_bind]. rewrite (lo_n _ _ _ Hl).
  change LOGSIZE with 30. replace (Z.of_nat (length homes) >=? 30) with false by lia.
  replace (Z.of_nat (length homes) >=? lg_size (lg (k_fs k)) - 1) with false by lia. cbn [orb].
  replace (lg_outstanding (lg (k_fs k)) <? 1) with false by lia. cbv iota.
  wp_call (acquire_holds k c 0 [] LKlog (me_holds _ _ _ _ Hm) (not_elem_of_nil _)); [|lia]. intros _ k1 [Hk1 Hc1].
  pose proof (core_fs _ _ Hc1) as Ef. pose proof (lo_range _ _ _ Hl).
  assert (cbufs k1 = cbufs k) as Eb by (unfold cbufs; by rewrite Ef).
  rewrite (record_eq k1 st homes i b); [|apply (logged_io k); [|done]|by rewrite Eb|lia|done|done].
  2:{ unfold io_only. rewrite Eb, Ef. unfold cbufs. by destruct (k_fs k). }
  eapply wp_mono; [|apply (unlock_fs k k1 c pi q LKlog _ Hm Hk1 Hc1)].
  intros _ k2 (Hg & Ef2 & Es2). rewrite Eb, Ef in Ef2. set (b' := set_b_flags 6 b) in *.
  assert (cbufs k2 = <[i := b']> (cbufs k)) as Eb2 by (unfold cbufs; by rewrite Ef2).
  assert (forall y, dblock k2 y = dblock k y) as Hd by (intros y; unfold dblock; by rewrite Ef2).
  assert (length (dblock k2 (b_blockno b)) = 512%nat) as Hlen by (rewrite Hd; apply Hc).
  split; [exact Hg|]. split; [done|]. split; [by eapply (changed_cache k k2 q (b_blockno b) order held i b b')|]. split; [done|].
  split; [by apply (recorded_logged k k2); try done; rewrite Ef2|].
  split; [rewrite Eb2; apply list_lookup_insert_eq; by eapply lookup_lt_Some|]. split; [done|]. split; intros y.
  - destruct (decide (y = b_blockno b)) as [->|Hne].
    + rewrite (changed_dirty_at k k2 q (b_blockno b) order held i b b'); try done. simpl. tauto.
    + rewrite (changed_dirty k k2 (b_blockno b) i b b'); try done. tauto.
  - case_decide as E; [subst y|].
    + by apply (changed_content_at k k2 q (b_blockno b) order held i b b').
    + by apply (changed_content k k2 q (b_blockno b) order held i b b').
Qed.

(** [log_write] of a buffer the caller has locked: the block is recorded
    once, its new contents are what the processes see and are kept in the cache
    until the commit, and the disk is as before. *)
Theorem log_write_records k c pi q order held i b st homes
    (Hm : me k c pi q) (Hc : cache k q order held) (Hi : i ∈ held) (Hb : cbufs k !! i = Some b)
    (Hdev : b_dev b = 1) (Hf : b_flags b = 2 \/ b_flags b = 6) (Hl : logged k st homes)
    (Hx : 0 <= b_blockno b < disksize (k_fs k)) (Ho : outside st (b_blockno b))
    (Hn : (length homes < 29)%nat) (Hsz : Z.of_nat (length homes) < lg_size (lg (k_fs k)) - 1)
    (Hout : 1 <= lg_outstanding (lg (k_fs k))) :
  runs (log_write i) k (fun _ k' => me k' c pi q /\ cache k' q order held /\
    logged k' st (absorb (b_blockno b) homes) /\ cbufs k' !! i = Some (set_b_flags 6 b) /\
    (forall y, dblock k' y = dblock k y) /\ (forall y, dirty k' y <-> dirty k y \/ y = b_blockno b) /\
    (forall y, content k' y = if decide (y = b_blockno b) then b_data b else content k y)).
Proof.
  eapply runs_mono; [by eapply log_write_spec|].
  intros _ k' (Hg & _ & H1 & _ & H2 & H3 & H4 & H5 & H6). by destruct Hg.
Qed.

(** ** The end of a transaction *)

(** What the log and the cache are depends only on the part of the file system
    they are in. *)
Lemma logged_lg k k' st homes f :
  logged k st homes -> lg (k_fs k') = f (lg (k_fs k)) -> disksize (k_fs k') = disksize (k_fs k) ->
  (forall l, lg_dev (f l) = lg_dev l /\ lg_start (f l) = lg_start l /\ lg_lh (f l) = lg_lh l) -> logged k' st homes.
Proof.
  intros [L1 L2 L3 L4 L5 L6 L7 L8] El Ed Hf. destruct (Hf (lg (k_fs k))) as (F1 & F2 & F3).
  split; rewrite ?El, ?Ed, ?F1, ?F2, ?F3; done.
Qed.

Lemma cache_same k k' q order held :
  cache k q order held -> cbufs k' = cbufs k -> disk (k_fs k') = disk (k_fs k) -> k_slocks k' = k_slocks k -> cache k' q order held.
Proof.
  intros [C1 C2 C3 C4 C5 C6 C7 C8 C9] Eb Ed Es.
  assert (forall y, dblock k' y = dblock k y) as E by (intros y; unfold dblock, disk_block; by rewrite Ed).
  split; rewrite ?Eb; auto.
  - unfold locks_ok, slock. rewrite Es. exact C4.
  - intros i b Hb Hi Hh. unfold idle_ok. rewrite E. by apply (C8 i b).
  - intros x. by rewrite E.
Qed.

(** The first critical section: this is the last call, so it will commit. *)
Lemma end_op_enter k c pi q :
  me k c pi q -> lg_outstanding (lg (k_fs k)) = 1 -> lg_committing (lg (k_fs k)) = 0 ->
  forall (f : bool -> M K unit) Q C,
  (forall k', goes_on c pi q k k' -> k_slocks k' = k_slocks k ->
     k_fs k' = set_lg (set_lg_committing 1 (set_lg_outstanding 0 (lg (k_fs k)))) (k_fs k) -> ends (f true k') Q C) ->
  ends ((acquire LKlog ;;
    upd_log (fun l => set_lg_outstanding (lg_outstanding l - 1) l) ;;
    l <- get_log ;;
    if nz (lg_committing l) then panic "log.committing" else
    do_commit <- (if lg_outstanding l =? 0 then upd_log (set_lg_committing 1) ;; ret true
                  else wakeup ChLog ;; ret false) ;;
    release LKlog ;;
    f do_commit) k) Q C.
Proof.
  intros Hm Ho Hcm f Q C Hf.
  ends_run (acquire_holds k c 0 [] LKlog (me_holds _ _ _ _ Hm) (not_elem_of_nil _)); [|lia]. intros _ k1 [Hk1 Hc1].
  unfold upd_log, on_fs, get_log, get_fs. kred.
  cbn [k_fs set_k_fs lg set_lg lg_committing set_lg_outstanding lg_outstanding]. rewrite (core_fs _ _ Hc1), Hcm. change (nz 0) with false. cbv iota. kred.
  rewrite Ho. change (1 - 1 =? 0) with true. cbv iota. kred.
  set (f2 := set_lg (set_lg_committing 1 (set_lg_outstanding 0 (lg (k_fs k)))) (k_fs k)).
  change (set_k_fs _ (set_k_fs _ k1)) with (set_k_fs f2 k1). ends_run (unlock_fs k k1 c pi q LKlog f2 Hm Hk1 Hc1).
  intros _ k2 (Hg & Ef & Es). by apply Hf.
Qed.

(** The last one: others may start again. *)
Lemma end_op_leave k c pi q :
  me k c pi q ->
  runs (acquire LKlog ;; upd_log (set_lg_committing 0) ;; wakeup ChLog ;; release LKlog) k (fun _ k' =>
    goes_on c pi q k k' /\ k_slocks k' = k_slocks k /\ k_fs k' = set_lg (set_lg_committing 0 (lg (k_fs k))) (k_fs k)).
Proof.
  intros Hm. unfold runs.
  wp_call (acquire_holds k c 0 [] LKlog (me_holds _ _ _ _ Hm) (not_elem_of_nil _)); [|lia]. intros _ k1 [Hk1 Hc1].
  unfold upd_log, on_fs. kred. rewrite (core_fs _ _ Hc1). set (g := set_lg _ _).
  eapply wp_mono; [|apply (wake_release _ (set_k_fs g k) c pi q LKlog ChLog)].
  - intros _ k2 (Hg & Ef & Es & _). split; [exact Hg|]. by rewrite Ef, Es.
  - by eapply holds_ext; [..|exact Hk1].
  - by rewrite !core_set_fs, Hc1.
  - by apply me_fs.
  - done.
Qed.

(** C2. A transaction is atomic.  The [end_op] of the last call in progress,
    with the changed blocks [homes] recorded and cached, ends with all blocks
    of the disk outside the log as the processes saw them, the log empty and
    the buffers clean.  When the machine stops at whatever write, recovery makes
    of the disk either the state before the transaction or the one after it. *)
Theorem end_op_atomic k c pi q order st homes
    (Hm : me k c pi q) (Hc : cache k q order ∅) (Hl : logged k st homes) (Hnd : NoDup homes)
    (Hn : (length homes < 30)%nat) (Hd : forall y, dirty k y <-> y ∈ homes) (Hh : header (dblock k st) = [])
    (Ho : lg_outstanding (lg (k_fs k)) = 1) (Hcm : lg_committing (lg (k_fs k)) = 0) :
  ends (end_op k)
    (fun _ k' => me k' c pi q /\ (exists order', cache k' q order' ∅) /\ logged k' st [] /\
       settled st k' (content k) /\ (forall y, ~ dirty k' y) /\ lg_committing (lg (k_fs k')) = 0)
    (fun k' => (forall y, outside st y -> recovered st (dblock k') y = dblock k y) \/
               (forall y, outside st y -> recovered st (dblock k') y = content k y)).
Proof.
  unfold end_op. apply (end_op_enter k c pi q Hm Ho Hcm). intros k1 Hg1 Es1 Ef1. cbn [when].
  assert (cbufs k1 = cbufs k) as Eb1 by (unfold cbufs; by rewrite Ef1).
  assert (forall y, dblock k1 y = dblock k y) as Ed1 by (intros y; unfold dblock; by rewrite Ef1).
  assert (forall y, content k1 y = content k y) as Ec1 by (intros y; unfold content; by rewrite Eb1, Ed1).
  rewrite bind_eq, ends_bind. eapply ends_mono; [..|apply (commit_spec lost k1 c pi q order st homes)].
  - intros _ k2 (C1 & [order2 C2] & C3 & [C4 C5] & C6). eapply ends_runs, wp_mono; [|apply (end_op_leave k2 c pi q C1)].
    intros _ k3 (Hg3 & Es3 & Ef3). assert (cbufs k3 = cbufs k2) as Eb3 by (unfold cbufs; by rewrite Ef3).
    assert (forall y, dblock k3 y = dblock k2 y) as Ed3 by (intros y; unfold dblock; by rewrite Ef3).
    split; [apply Hg3|]. split; [exists order2; apply (cache_same k2); [done|done|by rewrite Ef3|done]|].
    split; [apply (logged_lg k2 k3 st [] (set_lg_committing 0)); [done|by rewrite Ef3..|done]|]. split; [|split].
    + split; [by rewrite Ed3|]. intros y Hy. by rewrite Ed3, C5, Ec1.
    + intros y. unfold dirty. rewrite Eb3. apply C6.
    + by rewrite Ef3.
  - intros k2 [H2|H2]; [left|right]; intros y Hy; by rewrite (H2 y Hy), ?Ed1, ?Ec1.
  - apply Hg1.
  - apply (cache_same k); [done|done|by rewrite Ef1|done].
  - apply (logged_lg k k1 st homes (fun l => set_lg_committing 1 (set_lg_outstanding 0 l))); [done|by rewrite Ef1..|done].
  - done.
  - done.
  - intros y. unfold dirty. rewrite Eb1. apply Hd.
  - by rewrite Ed1.
Qed.

End TxSpec.

(** Process 2 has locked the buffer of block 40 and changed it. *)
Definition kernel_lw : K :=
  set_k_slocks (demo_slocks true) (kernel_fs (kernel_running 0 ∅)
    (set_lg (mkLog 2 30 1 0 1 (mkLh 0 (replicate 30 0)))
       (set_bufs (<[0%nat := mkBuf 2 1 40 1 1 30 None (replicate 512 7)]> (bufs fs0)) fs0))).

Lemma kernel_lw_logged : logged kernel_lw 2 [].
Proof. split; try done; simpl; lia. Qed.

Lemma log_write_records_witness :
  dblock kernel_lw 40 = replicate 512 0 /\
  runs (log_write 0) kernel_lw (fun _ k' => logged k' 2 (absorb 40 []) /\ dirty k' 40 /\
    content k' 40 = replicate 512 7 /\ dblock k' 40 = replicate 512 0).
Proof.
  split; [done|].
  eapply runs_mono; [exact (log_write_records kernel_lw 0 1 2 (reverse (seq 0 30)) {[0%nat]} 0
    (mkBuf 2 1 40 1 1 30 None (replicate 512 7)) 2 [] (me_slocks _ _ _ _ _ (kernel_running_me _))
    (demo_cache true 2 (replicate 512 7) (k_fs kernel_lw) eq_refl (fun _ => eq_refl) (or_introl eq_refl))
    (proj2 (elem_of_singleton _ _) eq_refl) eq_refl eq_refl (or_introl eq_refl) kernel_lw_logged
    ltac:(simpl; lia) ltac:(right; simpl; lia) ltac:(simpl; lia) ltac:(simpl; lia) ltac:(simpl; lia))|].
  intros _ k' (_ & _ & Hl & _ & Hd & Hdir & Hcon). split; [exact Hl|]. split; [apply Hdir; by right|].
  rewrite Hcon, Hd. done.
Defined.

Lemma end_op_atomic_witness :
  let k := kernel_tx in
  content k 40 = replicate 512 7 /\ dblock k 40 = replicate 512 0 /\
  ends (end_op (BD := tx_power (fun _ x => x =? 40)) k)
    (fun _ k' => settled 2 k' (content k))
    (fun k' => (forall y, outside 2 y -> recovered 2 (dblock k') y = dblock k y) \/
               (forall y, outside 2 y -> recovered 2 (dblock k') y = content k y)).
Proof.
  cbv zeta. split; [by vm_compute|]. split; [by vm_compute|].
  eapply ends_mono; [..|apply (end_op_atomic (fun _ x => x =? 40) kernel_tx 0 1 2 (reverse (seq 0 30)) 2 [40]
    (kernel_running_me _) kernel_tx_cache kernel_tx_logged)].
  - intros ? k' (_ & _ & _ & H & _). exact H.
  - intros k' H. exact H.
  - by apply NoDup_singleton.
  - simpl. lia.
  - exact kernel_tx_dirty.
  - by vm_compute.
  - done.
  - done.
Defined.
