(* ===== verification/Inode.v ===== *)
(** * Disk blocks and inodes (fs.c, lower half)

    The block allocator over the free bitmap, the inode cache over the on-disk
    inodes, and the map from file blocks to disk blocks.  Pointers to inodes
    are indices into [icache.inode]; on-disk structures are views of the bytes
    of their block. *)

From S2P Require Import Prelude Params State Spinlock Seg Str Cprintf Proc FsState Sleeplock BlockDev Ide Bio.
From S2P Require Import Log.

(** ** Layout *)

(** Block of the bitmap with the bit for block [b], and block with inode [i]. *)
(* fs.h 48-48: BBLOCK *)
Definition BBLOCK (b : Z) (s : superblock) : Z := u32 (b / BPB + sb_bmapstart s).

(* fs.h 42-42: IBLOCK *)
Definition IBLOCK (i : Z) (s : superblock) : Z := u32 (i / IPB + sb_inodestart s).

Definition sizeof_dinode : nat := 64.

(** Offset of inode [i] in its block. *)
Definition dinode_off (i : Z) : nat := sizeof_dinode * Z.to_nat (i `mod` IPB).

(** The bytes of the array of block addresses, and back. *)
Definition words_at (bs : list Z) (off n : nat) : list Z :=
  (fun j => word_at bs (off + 4 * j)) <$> seq 0 n.

(* fs.h 29-36: dinode *)
Definition get_dinode (bs : list Z) (off : nat) : dinode :=
  mkDinode (s16 (half_at bs off)) (s16 (half_at bs (off + 2))) (s16 (half_at bs (off + 4)))
    (s16 (half_at bs (off + 6))) (word_at bs (off + 8)) (words_at bs (off + 12) 13).

(* fs.h 29-36: dinode *)
Definition dinode_bytes (d : dinode) : list Z :=
  le_bytes 2 (d_type d) ++ le_bytes 2 (d_major d) ++ le_bytes 2 (d_minor d) ++
  le_bytes 2 (d_nlink d) ++ le_bytes 4 (d_size d) ++ concat (le_bytes 4 <$> d_addrs d).

Definition put_dinode (bs : list Z) (off : nat) (d : dinode) : list Z :=
  splice bs off (dinode_bytes d).

(** Bit [bi] of a bitmap block. *)
Definition bit_mask (bi : Z) : Z := Z.shiftl 1 (bi `mod` 8).

Definition bit_byte (bs : list Z) (bi : Z) : Z := bs !!! Z.to_nat (bi / 8).

Definition bit_clear (bs : list Z) (bi : Z) : bool := Z.land (bit_byte bs bi) (bit_mask bi) =? 0.

Definition set_bit (bs : list Z) (bi : Z) : list Z :=
  <[Z.to_nat (bi / 8) := Z.lor (bit_byte bs bi) (bit_mask bi)]> bs.

Definition reset_bit (bs : list Z) (bi : Z) : list Z :=
  <[Z.to_nat (bi / 8) := Z.land (bit_byte bs bi) (Z.lnot (bit_mask bi))]> bs.

(** The slots of [icache.inode], in order. *)
Definition inode_slots : list nat := seq 0 (Z.to_nat NINODE).

Section Inode.
  Context {LK : Linker} {FU : Fuel} {BD : BlockDev}.

Definition get_sb : M K superblock := get_fs sb.

(** ** Blocks *)

(* fs.c 42-51: bzero *)
Definition bzero (dev bno : Z) : M K unit :=
  bp <- bread dev (u32 bno) ;;
  upd_buf bp (set_b_data block0) ;;
  log_write bp ;;
  brelse bp.

(** The scan of one bitmap block, for the blocks from [b] on. *)
(* fs.c 65-74: balloc *)
Definition scan_bitmap (dev : Z) (bp : nat) (b size : Z) : M K (option Z) :=
  for_each (zseq (Z.to_nat (Z.min BPB (size - b)))) (fun bi =>
    bb <- get_buf bp ;;
    if bit_clear (b_data bb) bi then
      upd_buf bp (fun bb => set_b_data (set_bit (b_data bb) bi) bb) ;;
      log_write bp ;;
      brelse bp ;;
      bzero dev (b + bi) ;;
      ret (Some (b + bi))
    else ret None).

(* fs.c 56-78: balloc *)
Definition balloc (dev : Z) : M K Z :=
  s <- get_sb ;;
  o <- for_each ((fun n => n * BPB) <$> zseq (Z.to_nat ((sb_size s + BPB - 1) / BPB))) (fun b =>
    bp <- bread dev (BBLOCK b s) ;;
    r <- scan_bitmap dev bp b (sb_size s) ;;
    match r with
    | Some a => ret (Some a)
    | None => brelse bp ;; ret None
    end) ;;
  match o with
  | Some a => ret a
  | None => panic "balloc: out of blocks"
  end.

(* fs.c 81-95: bfree *)
Definition bfree (dev b : Z) : M K unit :=
  s <- get_sb ;;
  bp <- bread dev (BBLOCK b s) ;;
  let bi := b `mod` BPB in
  bb <- get_buf bp ;;
  if bit_clear (b_data bb) bi then panic "freeing free block" else
  upd_buf bp (fun bb => set_b_data (reset_bit (b_data bb) bi) bb) ;;
  log_write bp ;;
  brelse bp.

(** ** The inode cache *)

(* fs.c 171-186: iinit *)
Definition iinit (dev : Z) : M K unit :=
  initlock LKicache "icache" ;;
  for_all inode_slots (fun i => initsleeplock (SLinode i) "inode") ;;
  s <- readsb dev ;;
  on_fs (set_sb s) ;;
  cprintf ("sb: size %d nblocks %d ninodes %d nlog %d logstart %d inodestart %d bmap start %d" ++ nl)
    [CInt (s32 (sb_size s)); CInt (s32 (sb_nblocks s)); CInt (s32 (sb_ninodes s)); CInt (s32 (sb_nlog s));
     CInt (s32 (sb_logstart s)); CInt (s32 (sb_inodestart s)); CInt (s32 (sb_bmapstart s))].

(** The search of [iget]: the entry of the inode, or the first free one. *)
(* fs.c 249-258: iget *)
Fixpoint iget_scan (l : list nat) (dev inum : Z) (empty : option nat) : M K (option nat * option nat) :=
  match l with
  | [] => ret (None, empty)
  | i :: l' =>
      ip <- get_inode i ;;
      if (i_ref ip >? 0) && (i_dev ip =? dev) && (i_inum ip =? inum) then ret (Some i, empty)
      else iget_scan l' dev inum
             (match empty with None => if i_ref ip =? 0 then Some i else None | Some e => Some e end)
  end.

(* fs.c 241-272: iget *)
Definition iget (dev inum : Z) : M K nat :=
  acquire LKicache ;;
  r <- iget_scan inode_slots dev inum None ;;
  match r with
  | (Some i, _) =>
      upd_inode i (fun ip => set_i_ref (i_ref ip + 1) ip) ;;
      release LKicache ;;
      ret i
  | (None, None) => panic "iget: no inodes"
  | (None, Some i) =>
      upd_inode i (set_i_dev dev) ;;
      upd_inode i (set_i_inum inum) ;;
      upd_inode i (set_i_ref 1) ;;
      upd_inode i (set_i_valid 0) ;;
      release LKicache ;;
      ret i
  end.

(* fs.c 194-214: ialloc *)
Definition ialloc (dev type : Z) : M K nat :=
  s <- get_sb ;;
  o <- for_each (drop 1 (zseq (Z.to_nat (sb_ninodes s)))) (fun inum =>
    bp <- bread dev (IBLOCK inum s) ;;
    bb <- get_buf bp ;;
    if d_type (get_dinode (b_data bb) (dinode_off inum)) =? 0 then
      upd_buf bp (fun bb => set_b_data
        (put_half (splice (b_data bb) (dinode_off inum) (replicate sizeof_dinode 0))
           (dinode_off inum) type) bb) ;;
      log_write bp ;;
      brelse bp ;;
      i <- iget dev inum ;;
      ret (Some i)
    else brelse bp ;; ret None) ;;
  match o with
  | Some i => ret i
  | None => panic "ialloc: no inodes"
  end.

(** The fields of an inode that live on disk. *)
(* fs.c 228-233: iupdate *)
Definition to_dinode (ip : inode) : dinode :=
  mkDinode (i_type ip) (i_major ip) (i_minor ip) (i_nlink ip) (i_size ip) (i_addrs ip).

(* fs.c 301-306: ilock *)
Definition of_dinode (d : dinode) (ip : inode) : inode :=
  mkInode (i_dev ip) (i_inum ip) (i_ref ip) (i_valid ip) (d_type d) (d_major d) (d_minor d)
    (d_nlink d) (d_size d) (d_addrs d).

(* fs.c 220-236: iupdate *)
Definition iupdate (i : nat) : M K unit :=
  s <- get_sb ;;
  ip <- get_inode i ;;
  bp <- bread (i_dev ip) (IBLOCK (i_inum ip) s) ;;
  ip <- get_inode i ;;
  upd_buf bp (fun bb => set_b_data
    (put_dinode (b_data bb) (dinode_off (i_inum ip)) (to_dinode ip)) bb) ;;
  log_write bp ;;
  brelse bp.

(* fs.c 276-283: idup *)
Definition idup (i : nat) : M K nat :=
  acquire LKicache ;;
  upd_inode i (fun ip => set_i_ref (i_ref ip + 1) ip) ;;
  release LKicache ;;
  ret i.

(* fs.c 287-312: ilock *)
Definition ilock (o : option nat) : M K unit :=
  match o with
  | None => panic "ilock"
  | Some i =>
      ip <- get_inode i ;;
      if i_ref ip <? 1 then panic "ilock" else
      acquiresleep (SLinode i) ;;
      ip <- get_inode i ;;
      when (i_valid ip =? 0)
        (s <- get_sb ;;
         bp <- bread (i_dev ip) (IBLOCK (i_inum ip) s) ;;
         bb <- get_buf bp ;;
         ip <- get_inode i ;;
         upd_inode i (of_dinode (get_dinode (b_data bb) (dinode_off (i_inum ip)))) ;;
         brelse bp ;;
         upd_inode i (set_i_valid 1) ;;
         ip <- get_inode i ;;
         if i_type ip =? 0 then panic "ilock: no type" else ret tt)
  end.

(* fs.c 315-322: iunlock *)
Definition iunlock (o : option nat) : M K unit :=
  match o with
  | None => panic "iunlock"
  | Some i =>
      h <- holdingsleep (SLinode i) ;;
      if negb h then panic "iunlock" else
      ip <- get_inode i ;;
      if i_ref ip <? 1 then panic "iunlock" else
      releasesleep (SLinode i)
  end.

(** ** Inode content *)

(** [ip->addrs[bn]], allocating the block when there is none. *)
(* fs.c 379-380: bmap *)
Definition addr_or_alloc (i : nat) (bn : nat) : M K Z :=
  ip <- get_inode i ;;
  addr <- deref "ip->addrs" (i_addrs ip !! bn) ;;
  if addr =? 0 then
    addr <- balloc (i_dev ip) ;;
    upd_inode i (fun ip => set_i_addrs (<[bn := addr]> (i_addrs ip)) ip) ;;
    ret addr
  else ret addr.

(* fs.c 372-400: bmap *)
Definition bmap (i : nat) (bn : Z) : M K Z :=
  if bn <? NDIRECT then addr_or_alloc i (Z.to_nat bn) else
  let bn := bn - NDIRECT in
  if bn <? NINDIRECT then
    addr <- addr_or_alloc i (Z.to_nat NDIRECT) ;;
    ip <- get_inode i ;;
    bp <- bread (i_dev ip) addr ;;
    bb <- get_buf bp ;;
    let addr := word_at (b_data bb) (4 * Z.to_nat bn) in
    addr <- (if addr =? 0 then
               addr <- balloc (i_dev ip) ;;
               upd_buf bp (fun bb => set_b_data (put_word (b_data bb) (4 * Z.to_nat bn) addr) bb) ;;
               log_write bp ;;
               ret addr
             else ret addr) ;;
    brelse bp ;;
    ret addr
  else panic "bmap: out of range".

(* fs.c 407-435: itrunc *)
Definition itrunc (i : nat) : M K unit :=
  for_all (seq 0 (Z.to_nat NDIRECT)) (fun n =>
    ip <- get_inode i ;;
    a <- deref "ip->addrs" (i_addrs ip !! n) ;;
    when (nz a)
      (bfree (i_dev ip) a ;;
       upd_inode i (fun ip => set_i_addrs (<[n := 0]> (i_addrs ip)) ip))) ;;
  ip <- get_inode i ;;
  a <- deref "ip->addrs" (i_addrs ip !! Z.to_nat NDIRECT) ;;
  when (nz a)
    (bp <- bread (i_dev ip) a ;;
     for_all (seq 0 (Z.to_nat NINDIRECT)) (fun j =>
       bb <- get_buf bp ;;
       let aj := word_at (b_data bb) (4 * j) in
       when (nz aj) (bfree (i_dev ip) aj)) ;;
     brelse bp ;;
     bfree (i_dev ip) a ;;
     upd_inode i (fun ip => set_i_addrs (<[Z.to_nat NDIRECT := 0]> (i_addrs ip)) ip)) ;;
  upd_inode i (set_i_size 0) ;;
  iupdate i.

(* fs.c 331-352: iput *)
Definition iput (i : nat) : M K unit :=
  acquiresleep (SLinode i) ;;
  ip <- get_inode i ;;
  when (nz (i_valid ip) && (i_nlink ip =? 0))
    (acquire LKicache ;;
     ip <- get_inode i ;;
     let r := i_ref ip in
     release LKicache ;;
     when (r =? 1)
       (itrunc i ;;
        upd_inode i (set_i_type 0) ;;
        iupdate i ;;
        upd_inode i (set_i_valid 0))) ;;
  releasesleep (SLinode i) ;;
  acquire LKicache ;;
  upd_inode i (fun ip => set_i_ref (i_ref ip - 1) ip) ;;
  release LKicache.

(* fs.c 355-360: iunlockput *)
Definition iunlockput (i : nat) : M K unit :=
  iunlock (Some i) ;;
  iput i.

(** The fields of [struct stat] are stored one by one at user address [st]. *)
(* fs.c 439-447: stati *)
Definition stati (i : nat) (st : Z) : M K unit :=
  ip <- get_inode i ;;
  ustore (st + 4) (le_bytes 4 (i_dev ip)) ;;
  ustore (st + 8) (le_bytes 4 (i_inum ip)) ;;
  ustore st (le_bytes 2 (i_type ip)) ;;
  ustore (st + 12) (le_bytes 2 (i_nlink ip)) ;;
  ustore (st + 16) (le_bytes 4 (i_size ip)).

End Inode.
