(* ===== verification/BlockTx.v ===== *)
(** * Blocks in a transaction (bio.c, log.c)

    What the code between [begin_op] and [end_op] relies on: it reads a block
    with [bread], changes its buffer, records it with [log_write] and gives it
    back with [brelse].  [tx] is the state in between, with the buffers the
    process holds and the blocks recorded so far; the steps are described by
    what they make of the contents of the blocks. *)

From S2P Require Import Prelude Params State Spinlock Seg Proc ProcSpec ProcRefine SleepWake FsState Sleeplock Demo DemoFs.
From S2P Require Import SleeplockSpec Ring BlockDev Ide Memide Bio BioSpec Log LogSpec TxSpec Inode.

(** The process has buffer [i], for block [x]. *)
Definition has (k : K) (i : nat) (x : Z) : Prop :=
  exists b, cbufs k !! i = Some b /\ b_dev b = 1 /\ b_blockno b = x /\ idle_ok k b /\ b_flags b <> 0.

Record tx (k : K) (c pi : nat) (q : Z) (held : gset nat) (st : Z) (homes : list Z) : Prop := {
  tx_me : me k c pi q;
  tx_cache : exists order, cache k q order held;
  tx_log : logged k st homes;
  tx_size : 30 <= lg_size (lg (k_fs k));
  tx_out : 1 <= lg_outstanding (lg (k_fs k));
  tx_dirty : forall y, dirty k y -> y ∈ homes
}.

(** Memory, the console and the locks of inodes are as before. *)
Definition stays (c pi : nat) (q : Z) (k k' : K) : Prop := goes_on c pi q k k' /\ ilocks k k'.

(** Of the file system only the buffers and the log have changed. *)
Definition blocks_only (c pi : nat) (q : Z) (k k' : K) : Prop :=
  stays c pi q k k' /\ k_fs k' = set_bufs (cbufs k') (set_lg (lg (k_fs k')) (k_fs k)).

(** Every buffer held is still held, for the same block. *)
Definition keeps (held : gset nat) (k k' : K) : Prop := forall i x, i ∈ held -> has k i x -> has k' i x.

(** The buffers held are not for block [x]. *)
Definition others (k : K) (held : gset nat) (x : Z) : Prop := forall i, i ∈ held -> exists y, has k i y /\ y <> x.

Section BlockTx.
Context {LK : Linker} {FU : Fuel}.
Context (lost : gmap (Z * Z) (list Z) -> Z -> bool).
Implicit Types (k : K).

#[local] Instance block_power : BlockDev := power lost.

Lemma stays_refl c pi q k : me k c pi q -> stays c pi q k k.
Proof. intros H. split; [by apply goes_on_refl|done]. Qed.

Lemma stays_trans c pi q k1 k2 k3 : stays c pi q k1 k2 -> stays c pi q k2 k3 -> stays c pi q k1 k3.
Proof. intros [G1 L1] [G2 L2]. split; [by eapply goes_on_trans|]. intros j. by rewrite L2. Qed.

Lemma blocks_only_trans c pi q k1 k2 k3 : blocks_only c pi q k1 k2 -> blocks_only c pi q k2 k3 -> blocks_only c pi q k1 k3.
Proof.
  intros [G1 E1] [G2 E2]. split; [by eapply stays_trans|]. rewrite E2, E1. by destruct (k_fs k1).
Qed.

Lemma blocks_only_refl c pi q k : me k c pi q -> blocks_only c pi q k k.
Proof. intros H. split; [by apply stays_refl|]. unfold cbufs. by destruct (k_fs k). Qed.

Lemma keeps_trans held k1 k2 k3 : keeps held k1 k2 -> keeps held k2 k3 -> keeps held k1 k3.
Proof. intros H1 H2 i x Hi Hx. by apply H2, H1. Qed.

Lemma keeps_sub held held' k k' : held' ⊆ held -> keeps held k k' -> keeps held' k k'.
Proof. intros Hs H i x Hi. apply H. set_solver. Qed.

Lemma others_keeps held k k' x : others k held x -> keeps held k k' -> others k' held x.
Proof. intros H Hk i Hi. destruct (H i Hi) as (y & Hy & Hne). exists y. auto. Qed.

Lemma blocks_only_disk c pi q k k' : blocks_only c pi q k k' ->
  disksize (k_fs k') = disksize (k_fs k) /\ inodes (k_fs k') = inodes (k_fs k) /\ sb (k_fs k') = sb (k_fs k) /\
  forall y, dblock k' y = dblock k y.
Proof. intros [_ E]. rewrite E. split; [done|]. split; [done|]. split; [done|]. intros y. unfold dblock. by rewrite E. Qed.

Lemma idle_ok_disk k k' b : (forall y, dblock k' y = dblock k y) -> idle_ok k b -> idle_ok k' b.
Proof. intros E. unfold idle_ok. by rewrite E. Qed.

(** A buffer in hand has the contents of its block. *)
Lemma has_content k c pi q held st homes i x :
  tx k c pi q held st homes -> i ∈ held -> has k i x ->
  exists b, cbufs k !! i = Some b /\ b_dev b = 1 /\ b_blockno b = x /\ b_data b = content k x /\
    (b_flags b = 2 \/ b_flags b = 6) /\ length (content k x) = 512%nat.
Proof.
  intros [_ [order Hc] _ _ _ _] Hi (b & Hb & Hd & Hx & Hid & Hf). exists b.
  assert (b_flags b = 2 \/ b_flags b = 6) as Hf' by (destruct Hid as [?|[[? _]|[? _]]]; auto; lia).
  assert (content k x = b_data b) as E.
  { eapply content_at; [exact Hc|exact Hb|by apply (ca_held _ _ _ _ Hc)|]. split; [done|]. split; [done|].
    unfold flagged. by destruct Hf' as [->| ->]. }
  rewrite E. repeat split; auto. destruct Hid as [?|[(_ & _ & ->)|(_ & _ & ?)]]; [lia|apply Hc|done].
Qed.

Lemma others_not_held k c pi q held st homes x : tx k c pi q held st homes -> others k held x -> not_held k held x.
Proof.
  intros Ht Ho i b Hi Hb [_ E]. destruct (Ho i Hi) as (y & (b' & Hb' & _ & Hy & _) & Hne). rewrite Hb in Hb'. congruence.
Qed.

Lemma tx_bread k c pi q held st homes x :
  tx k c pi q held st homes -> others k held x -> x < disksize (k_fs k) -> (length homes + size held < 30)%nat ->
  runs (bread 1 x) k (fun i k' => tx k' c pi q ({[i]} ∪ held) st homes /\ (i ∉ held) /\ has k' i x /\ keeps held k k' /\
    blocks_only c pi q k k' /\ forall y, content k' y = content k y).
Proof.
  intros Ht Ho Hx Hn. pose proof Ht as [Hm [order Hc] Hl Hsz Hout Hd].
  eapply runs_mono; [apply (bread_spec lost k c pi q order held x); try done|].
  - by eapply others_not_held.
  - right. by eapply spare_exists.
  - intros i k' [T1 T2 T3 T4 T5 (b & Hb & B1 & B2 & B3 & B4) T7 T8 T9 T10].
    assert (blocks_only c pi q k k') as Hbo by (split; [by split|]; rewrite T4; by destruct (k_fs k)).
    destruct (blocks_only_disk _ _ _ _ _ Hbo) as (Eds & _ & _ & Edb).
    split; [|split; [done|split; [|split; [|by split]]]].
    + split; [apply T1|by exists order|eapply (logged_io k); [|done]|by rewrite T4|by rewrite T4|].
      * unfold io_only. rewrite T4. by destruct (k_fs k).
      * intros y Hy. by apply Hd, T8.
    + exists b. split; [done|]. split; [done|]. split; [done|]. unfold idle_ok. rewrite B2.
      destruct B4 as [[E1 E2]|(E1 & _ & E2)]; rewrite E1, ?Edb; split; try lia; auto.
    + intros j y Hj (b' & Hb' & H1 & H2 & H3 & H4). exists b'. rewrite T9 by (intros ->; done). split; [done|].
      split; [done|]. split; [done|]. split; [|done]. by eapply idle_ok_disk.
Qed.

Lemma tx_get_buf k c pi q held st homes i x :
  tx k c pi q held st homes -> i ∈ held -> has k i x ->
  exists b, get_buf i k = Done b k /\ b_data b = content k x /\ length (b_data b) = 512%nat.
Proof.
  intros Ht Hi Hh. destruct (has_content _ _ _ _ _ _ _ _ _ Ht Hi Hh) as (b & Hb & _ & _ & E & _ & El).
  exists b. rewrite E. split; [by apply get_buf_eq|done].
Qed.

Lemma tx_brelse k c pi q held st homes i x :
  tx k c pi q held st homes -> i ∈ held -> has k i x ->
  runs (brelse i) k (fun _ k' => tx k' c pi q (held ∖ {[i]}) st homes /\ keeps (held ∖ {[i]}) k k' /\
    blocks_only c pi q k k' /\ forall y, content k' y = content k y).
Proof.
  intros Ht Hi (b & Hb & B1 & B2 & B3 & B4). pose proof Ht as [Hm [order Hc] Hl Hsz Hout Hd].
  eapply runs_mono; [by apply (brelse_full k c pi q order held i b)|].
  intros ? k' (Hlk & Hg & Ef & Ec & order' & Hc').
  assert (blocks_only c pi q k k') as Hbo by (split; [by split|]; rewrite Ef; by destruct (k_fs k)).
  destruct (blocks_only_disk _ _ _ _ _ Hbo) as (Eds & _ & _ & Edb).
  split; [|split; [|split; [done|by eapply bcore_content]]].
  - split; [apply Hg|by exists order'|eapply (logged_io k); [|done]|by rewrite Ef|by rewrite Ef|].
    + unfold io_only. rewrite Ef. by destruct (k_fs k).
    + intros y Hy. apply Hd. by eapply bcore_dirty.
  - intros j y Hj (b' & Hb' & H1 & H2 & H3 & H4). destruct (bcore_lookup _ _ _ _ Ec Hb') as (b2 & Hb2 & E).
    injection E as E1 E2 E3 E4. exists b2. split; [done|]. rewrite E1, E2, E3. split; [done|]. split; [done|].
    split; [|done]. unfold idle_ok in *. by rewrite E1, E2, E3, E4, Edb.
Qed.

(** Changing a buffer in hand and recording it. *)
Lemma tx_modify k c pi q held st homes i x f d :
  tx k c pi q held st homes -> i ∈ held -> has k i x -> outside st x -> 0 <= x < disksize (k_fs k) ->
  length d = 512%nat -> (forall b, b_data b = content k x -> f b = set_b_data d b) -> (length homes < 29)%nat ->
  runs (upd_buf i f ;; log_write i) k (fun _ k' => tx k' c pi q held st (absorb x homes) /\ keeps held k k' /\
    blocks_only c pi q k k' /\ forall y, content k' y = if decide (y = x) then d else content k y).
Proof.
  intros Ht Hi Hh Ho Hx Hd Hf Hn. pose proof Ht as [Hm [order Hc] Hl Hsz Hout Hdir].
  destruct (has_content _ _ _ _ _ _ _ _ _ Ht Hi Hh) as (b & Hb & B1 & B2 & B3 & B4 & _).
  pose proof (lookup_lt_Some _ _ _ Hb) as Hlt. unfold runs.
  rewrite bind_eq, upd_buf_eq by done. cbn [res_bind]. rewrite (alter_insert _ _ _ _ Hb), Hf by done.
  set (b' := set_b_data d b). set (k1 := with_bufs (<[i := b']> (cbufs k)) k).
  assert (cbufs k1 !! i = Some b') as Hb1 by (by apply list_lookup_insert_eq).
  assert (cache k1 q order held) as Hc1 by (by eapply (changed_cache k k1 q x order held i b b'); try done; apply Hc).
  assert (forall y, y <> x -> dirty k1 y <-> dirty k y) as Hd1 by (intros y; by apply (changed_dirty k k1 x i b b')).
  assert (forall y, y <> x -> content k1 y = content k y) as Hct1 by (intros y; apply (changed_content k k1 q x order held i b b'); try done; apply Hc).
  eapply wp_mono; [|apply (log_write_spec k1 c pi q order held i b' st homes); try done; try lia].
  - intros ? k' (Hg & Hsl & Hc' & Ef & Hl' & Hb' & Edb & Hdir' & Hct). change (b_blockno b') with (b_blockno b) in *. rewrite B2 in *.
    assert (cbufs k' = <[i := set_b_flags 6 b']> (cbufs k1)) as Eb by (unfold cbufs; by rewrite Ef).
    assert (blocks_only c pi q k k') as Hbo.
    { split; [split; [exact Hg|intros j; unfold slock; by rewrite Hsl]|]. rewrite Eb, Ef. simpl. by destruct (k_fs k). }
    split; [|split; [|split; [done|]]].
    + split; [apply Hg|by exists order|done|by rewrite Ef|by rewrite Ef|].
      intros y Hy. apply Hdir' in Hy. unfold absorb. destruct (decide (y = x)) as [->|Hne].
      * case_decide; [done|]. set_solver.
      * destruct Hy as [Hy|?]; [|done]. apply Hd1, Hdir in Hy; [|done]. case_decide; set_solver.
    + intros j y Hj (bj & Hbj & J1 & J2 & J3 & J4). destruct (decide (j = i)) as [->|Hne].
      * rewrite Hb in Hbj. injection Hbj as <-. exists (set_b_flags 6 b'). split; [done|]. split; [done|]. split; [done|].
        split; [|done]. right. right. done.
      * exists bj. split; [|split; [done|split; [done|split; [|done]]]].
        -- rewrite Eb. unfold k1. by rewrite cbufs_with, !list_lookup_insert_ne.
        -- eapply idle_ok_disk; [|exact J3]. intros z. by rewrite Edb.
    + intros y. rewrite Hct. case_decide; [done|]. by apply Hct1.
  - by apply me_fs.
  - eapply (logged_io k); [|done]. unfold io_only. simpl. by destruct (k_fs k).
  - change (b_blockno b') with (b_blockno b). by rewrite B2.
  - change (b_blockno b') with (b_blockno b). by rewrite B2.
  - change (lg_size (lg (k_fs k1))) with (lg_size (lg (k_fs k))). lia.
Qed.

(** A whole block written. *)
Lemma tx_bzero k c pi q held st homes x :
  tx k c pi q held st homes -> others k held x -> outside st x -> 0 <= x < disksize (k_fs k) ->
  (length homes < 29)%nat -> (length homes + size held < 30)%nat ->
  runs (bzero 1 x) k (fun _ k' => tx k' c pi q held st (absorb x homes) /\ keeps held k k' /\
    blocks_only c pi q k k' /\ forall y, content k' y = if decide (y = x) then block0 else content k y).
Proof.
  intros Ht Ho Hout Hx Hn Hs. pose proof (lo_range _ _ _ (tx_log _ _ _ _ _ _ _ Ht)) as Hr. unfold runs, bzero. rewrite u32_small by lia.
  wp_call (tx_bread k c pi q held st homes x Ht Ho ltac:(lia) Hs).
  intros i k1 (Ht1 & Hi & Hh & Hk1 & Hb1 & Hc1). destruct (blocks_only_disk _ _ _ _ _ Hb1) as (Eds & _).
  apply wp_assoc. eapply wp_mono; [|apply (tx_modify k1 c pi q ({[i]} ∪ held) st homes i x _ block0 Ht1); try done; try set_solver; try lia].
  intros ? k2 (Ht2 & Hk2 & Hb2 & Hc2).
  eapply wp_mono; [|apply (tx_brelse k2 c pi q ({[i]} ∪ held) st _ i x Ht2); [set_solver|apply Hk2; [set_solver|done]]].
  intros ? k3 (Ht3 & Hk3 & Hb3 & Hc3).
  replace (({[i]} ∪ held) ∖ {[i]}) with held in * by set_solver.
  split; [done|]. split.
  - eapply keeps_trans; [exact Hk1|]. eapply keeps_trans; [|exact Hk3]. eapply keeps_sub; [|exact Hk2]. set_solver.
  - split; [eapply blocks_only_trans; [exact Hb1|]; by eapply blocks_only_trans|].
    intros y. rewrite Hc3, Hc2. case_decide; [done|]. apply Hc1.
Qed.

End BlockTx.
