(* ===== verification/Balloc.v ===== *)
(** * The free bitmap (fs.c: balloc, bfree)

    Each block of the disk has a bit in the bitmap.  [balloc] hands out the
    first block whose bit is clear, zeroed; [bfree] clears the bit again.  The
    contents of the disk are a function from block numbers to blocks, as a
    transaction sees them (BlockTx.v). *)

From S2P Require Import Prelude Params State Spinlock Seg Proc ProcSpec ProcRefine SleepWake FsState Sleeplock Demo DemoFs.
From S2P Require Import SleeplockSpec Ring BlockDev Ide Memide Bio BioSpec Log LogSpec TxSpec Inode BlockTx.

(** The contents of the disk with block [x] replaced. *)
Definition put (d : Z -> list Z) (x : Z) (v : list Z) : Z -> list Z := fun y => if decide (y = x) then v else d y.

(** Block [b] is free. *)
Definition free_in (s : superblock) (d : Z -> list Z) (b : Z) : Prop :=
  bit_clear (d (BBLOCK b s)) (b `mod` BPB) = true.

#[export] Instance free_in_dec s d b : Decision (free_in s d b).
Proof. unfold free_in. apply _. Defined.

(** The first block after the bitmap. *)
Definition data_start (s : superblock) : Z := sb_bmapstart s + (sb_size s - 1) / BPB + 1.

(** The layout of the disk: the log from [st] on, inodes, bitmap, data. *)
Record layout (k : K) (st : Z) (s : superblock) : Prop := {
  la_sb : sb (k_fs k) = s;
  la_log : 0 <= st /\ st + 29 < sb_inodestart s;
  la_inodes : 0 <= sb_ninodes s /\ sb_inodestart s + sb_ninodes s / IPB < sb_bmapstart s;
  la_size : data_start s <= sb_size s <= disksize (k_fs k);
  la_disk : disksize (k_fs k) < 2 ^ 31
}.

(** Only blocks of the data area are free. *)
Definition meta_used (s : superblock) (d : Z -> list Z) : Prop :=
  forall b, 0 <= b < sb_size s -> free_in s d b -> data_start s <= b.

(** The state of the disk after block [a] has been handed out. *)
Definition handed_out (s : superblock) (d : Z -> list Z) (a : Z) : Z -> list Z :=
  put (put d (BBLOCK a s) (set_bit (d (BBLOCK a s)) (a `mod` BPB))) a block0.

(** ** Bits *)

Lemma bit_clear_testbit bs bi : 0 <= bi -> bit_clear bs bi = negb (Z.testbit (bit_byte bs bi) (bi `mod` 8)).
Proof.
  intros H. unfold bit_clear, bit_mask. rewrite Z.shiftl_1_l. apply land_bit_testbit. by apply Z.mod_pos_bound.
Qed.

Lemma bit_byte_set bs bi v bj :
  0 <= bi -> 0 <= bj -> (Z.to_nat (bi / 8) < length bs)%nat ->
  bit_byte (<[Z.to_nat (bi / 8) := v]> bs) bj = if decide (bj / 8 = bi / 8) then v else bit_byte bs bj.
Proof.
  intros Hi Hj Hl. unfold bit_byte. case_decide as E.
  - rewrite E. by rewrite list_lookup_total_insert_eq.
  - apply list_lookup_total_insert_ne. pose proof (Z.div_pos bi 8). pose proof (Z.div_pos bj 8). lia.
Qed.

Lemma testbit_mask bi bj : 0 <= bi -> 0 <= bj -> bj / 8 = bi / 8 -> Z.testbit (bit_mask bi) (bj `mod` 8) = bool_decide (bj = bi).
Proof.
  intros Hi Hj E. unfold bit_mask. rewrite Z.shiftl_1_l, Z.pow2_bits_eqb by (by apply Z.mod_pos_bound).
  pose proof (Z.div_mod bi 8). pose proof (Z.div_mod bj 8). case_bool_decide; [subst; apply Z.eqb_refl|]. apply Z.eqb_neq. lia.
Qed.

Lemma bit_clear_set bs bi bj :
  0 <= bi -> 0 <= bj -> (Z.to_nat (bi / 8) < length bs)%nat ->
  bit_clear (set_bit bs bi) bj = bit_clear bs bj && bool_decide (bj <> bi).
Proof.
  intros Hi Hj Hl. rewrite !bit_clear_testbit by done. unfold set_bit. rewrite bit_byte_set by done.
  case_decide as E.
  - rewrite Z.lor_spec, testbit_mask by done. unfold bit_byte. rewrite E.
    case_bool_decide; case_bool_decide; try congruence; destruct (Z.testbit _ _); done.
  - rewrite bool_decide_eq_true_2 by congruence. by rewrite andb_true_r.
Qed.

Lemma bit_clear_reset bs bi bj :
  0 <= bi -> 0 <= bj -> (Z.to_nat (bi / 8) < length bs)%nat ->
  bit_clear (reset_bit bs bi) bj = bit_clear bs bj || bool_decide (bj = bi).
Proof.
  intros Hi Hj Hl. rewrite !bit_clear_testbit by done. unfold reset_bit. rewrite bit_byte_set by done.
  case_decide as E.
  - rewrite Z.land_spec, Z.lnot_spec, testbit_mask by (done || by apply Z.mod_pos_bound). unfold bit_byte. rewrite E.
    case_bool_decide; destruct (Z.testbit _ _); done.
  - rewrite bool_decide_eq_false_2 by congruence. by rewrite orb_false_r.
Qed.

Section Balloc.
Context {LK : Linker} {FU : Fuel}.
Context (lost : gmap (Z * Z) (list Z) -> Z -> bool).
Implicit Types (k : K).

#[local] Instance balloc_power : BlockDev := power lost.

Section State.
Context (c pi : nat) (q st : Z) (s : superblock).

Lemma layout_frame k k' : blocks_only c pi q k k' -> layout k st s -> layout k' st s.
Proof.
  intros Hb [H1 H2 H3 H4 H5]. destruct (blocks_only_disk _ _ _ _ _ Hb) as (Ed & _ & Es & _).
  split; rewrite ?Es, ?Ed; done.
Qed.

(** The bitmap blocks. *)
Lemma layout_bitmap k b : layout k st s -> 0 <= b < sb_size s ->
  BBLOCK b s = b / 4096 + sb_bmapstart s /\ sb_bmapstart s <= BBLOCK b s < data_start s /\
  outside st (BBLOCK b s) /\ 0 <= BBLOCK b s < disksize (k_fs k) /\ (Z.to_nat (b `mod` 4096 / 8) < 512)%nat.
Proof.
  intros [H1 H2 H3 H4 H5] Hb. unfold data_start, outside, BBLOCK in *. change BPB with 4096 in *. change IPB with 8 in *.
  pose proof (Z.div_pos b 4096). pose proof (Z.div_le_mono b (sb_size s - 1) 4096). pose proof (Z.div_pos (sb_ninodes s) 8).
  pose proof (Z.mod_pos_bound b 4096). pose proof (Z.div_lt_upper_bound (b `mod` 4096) 8 512). pose proof (Z.div_pos (b `mod` 4096) 8).
  rewrite u32_small by lia. lia.
Qed.

(** The data blocks. *)
Lemma layout_data k x : layout k st s -> data_start s <= x < sb_size s -> outside st x /\ 0 <= x < disksize (k_fs k).
Proof.
  intros Hla Hx. pose proof Hla as [_ H2 H3 H4 _]. change IPB with 8 in *. pose proof (Z.div_pos (sb_ninodes s) 8).
  assert (0 < data_start s) as Hds.
  { unfold data_start in *. change BPB with 4096 in *. pose proof (Z.div_mod (sb_size s - 1) 4096). pose proof (Z.mod_pos_bound (sb_size s - 1) 4096). nia. }
  destruct (layout_bitmap k x Hla ltac:(lia)) as (_ & HB & _). unfold outside. lia.
Qed.

(** The blocks held are in use. *)
Definition held_used (k : K) (held : gset nat) : Prop :=
  forall i, i ∈ held -> exists y, has k i y /\ data_start s <= y /\ ~ free_in s (content k) y.

Lemma scan_none k held homes i x b size :
  tx k c pi q held st homes -> i ∈ held -> has k i x ->
  (forall bi, 0 <= bi < Z.min BPB (size - b) -> bit_clear (content k x) bi = false) ->
  scan_bitmap 1 i b size k = Done None k.
Proof.
  intros Ht Hi Hh Hall. unfold scan_bitmap. rewrite <-(app_nil_r (zseq _)). rewrite for_each_skip; [done|].
  intros bi [Hb0 Hb1]%elem_of_zseq. destruct (tx_get_buf _ _ _ _ _ _ _ _ _ Ht Hi Hh) as (bb & Eb & Ed & _).
  rewrite bind_eq, Eb. cbn [res_bind]. rewrite Ed, Hall by lia. done.
Qed.

(** The blocks of one bitmap block. *)
Lemma free_in_bit d a bj : 0 <= bj < BPB ->
  free_in s d (a - a `mod` BPB + bj) <-> bit_clear (d (BBLOCK a s)) bj = true.
Proof.
  intros Hj. assert (a - a `mod` BPB + bj = a / BPB * BPB + bj) as ->.
  { pose proof (Z.div_mod a BPB). change BPB with 4096 in *. lia. }
  unfold free_in, BBLOCK. change BPB with 4096 in *. rewrite Z.div_add_l, (Z.div_small bj), Z.add_0_r by lia.
  by rewrite (Z.add_comm (a / 4096 * 4096)), Z_mod_plus_full, Z.mod_small by lia.
Qed.

Lemma scan_found k held homes i a :
  tx k c pi q ({[i]} ∪ held) st homes -> i ∉ held -> has k i (BBLOCK a s) -> layout k st s ->
  0 <= a < sb_size s -> free_in s (content k) a -> data_start s <= a -> held_used k held ->
  (forall b, a - a `mod` BPB <= b < a -> ~ free_in s (content k) b) -> (length homes + size held < 28)%nat ->
  runs (scan_bitmap 1 i (a - a `mod` BPB) (sb_size s)) k (fun r k' => r = Some a /\
    tx k' c pi q held st (absorb a (absorb (BBLOCK a s) homes)) /\ keeps held k k' /\ blocks_only c pi q k k' /\
    forall y, content k' y = handed_out s (content k) a y).
Proof.
  intros Ht Hi Hh Hla Ha Hfree Hdata Hheld Hbefore Hn. set (bi := a `mod` BPB).
  destruct (layout_bitmap k a Hla Ha) as (EB & HB & Ho & Hd & Hbyte). change 4096 with BPB in *.
  assert (i ∈ {[i]} ∪ held) as Hin by set_solver. pose proof (la_size _ _ _ Hla) as Hsz.
  assert (0 <= bi < BPB) as Hbi by (by apply Z.mod_pos_bound).
  destruct (zseq_split (Z.to_nat (Z.min BPB (sb_size s - (a - bi)))) bi) as [l El]; [lia|].
  destruct (tx_get_buf _ _ _ _ _ _ _ _ _ Ht Hin Hh) as (bb & Eb & Edd & Elen). rewrite Edd in Elen.
  unfold runs, scan_bitmap. rewrite El, for_each_skip, for_each_cons.
  2:{ intros bj [Hj0 Hj1]%elem_of_zseq. rewrite bind_eq, Eb. cbn [res_bind]. rewrite Edd.
      destruct (bit_clear (content k (BBLOCK a s)) bj) eqn:E; [|done]. exfalso.
      apply (Hbefore (a - bi + bj)); [fold bi; lia|]. apply free_in_bit; [lia|done]. }
  rewrite bind_eq, Eb. cbn [res_bind]. unfold free_in in Hfree. fold bi in Hfree. rewrite Edd, Hfree, !wp_bind. apply wp_assoc.
  eapply wp_mono; [|apply (tx_modify k c pi q _ st homes i (BBLOCK a s) _ (set_bit (content k (BBLOCK a s)) bi) Ht Hin Hh Ho Hd)].
  - intros ? k1 (Ht1 & Hk1 & Hb1 & Hc1).
    wp_call (tx_brelse lost k1 c pi q _ st _ i _ Ht1 Hin (Hk1 _ _ Hin Hh)). intros ? k2 (Ht2 & Hk2 & Hb2 & Hc2).
    replace (({[i]} ∪ held) ∖ {[i]}) with held in * by set_solver.
    assert (keeps held k k2) as Hkk by (eapply keeps_trans; [|exact Hk2]; eapply keeps_sub; [|exact Hk1]; set_solver).
    pose proof (blocks_only_trans _ _ _ _ _ _ Hb1 Hb2) as Hbb. destruct (blocks_only_disk _ _ _ _ _ Hbb) as (Eds & _).
    replace (a - bi + bi) with a by lia.
    wp_call (tx_bzero lost k2 c pi q held st _ a Ht2).
    + intros ? k3 (Ht3 & Hk3 & Hb3 & Hc3). kred. split; [done|]. split; [done|]. split; [by eapply keeps_trans|].
      split; [by eapply blocks_only_trans|]. intros y. rewrite Hc3, Hc2, Hc1. done.
    + eapply others_keeps; [|exact Hkk]. intros j Hj. destruct (Hheld j Hj) as (y & Hy & _ & Hnf). exists y.
      split; [done|]. by intros ->.
    + apply (layout_data k); [done|lia].
    + rewrite Eds. lia.
    + pose proof (absorb_length (BBLOCK a s) homes). lia.
    + pose proof (absorb_length (BBLOCK a s) homes). lia.
  - unfold set_bit. by rewrite length_insert.
  - intros b Eb'. by rewrite Eb'.
  - lia.
Qed.

(** The step from [k] to [k'] shows no difference in the blocks. *)
Definition unseen (held : gset nat) (homes : list Z) (k k' : K) : Prop :=
  tx k' c pi q held st homes /\ keeps held k k' /\ blocks_only c pi q k k' /\ forall y, content k' y = content k y.

Lemma unseen_refl held homes k : tx k c pi q held st homes -> unseen held homes k k.
Proof. intros H. split; [done|]. split; [by intros ? ?|]. split; [apply blocks_only_refl, H|done]. Qed.

Lemma unseen_trans held homes k1 k2 k3 : unseen held homes k1 k2 -> unseen held homes k2 k3 -> unseen held homes k1 k3.
Proof.
  intros (_ & K1 & B1 & C1) (T2 & K2 & B2 & C2). split; [done|]. split; [by eapply keeps_trans|].
  split; [by eapply blocks_only_trans|]. intros y. by rewrite C2, C1.
Qed.

Lemma free_in_ext d d' b : (forall y, d' y = d y) -> free_in s d' b <-> free_in s d b.
Proof. intros E. unfold free_in. by rewrite E. Qed.

Lemma held_used_same held k k' :
  keeps held k k' -> (forall y, content k' y = content k y) -> held_used k held -> held_used k' held.
Proof.
  intros Hk Hc H i Hi. destruct (H i Hi) as (y & Hy & Hd & Hf). exists y. split; [by apply Hk|]. split; [done|].
  by rewrite (free_in_ext _ _ _ Hc).
Qed.

Lemma bitmap_others k held b : layout k st s -> 0 <= b < sb_size s -> held_used k held -> others k held (BBLOCK b s).
Proof.
  intros Hla Hb H i Hi. destruct (H i Hi) as (y & Hy & Hd & _). exists y. split; [done|].
  destruct (layout_bitmap k b Hla Hb) as (_ & ? & _). lia.
Qed.

(** The pass of [balloc] over one bitmap block. *)
Definition try_bitmap (b : Z) : M K (option Z) :=
  bp <- bread 1 (BBLOCK b s) ;;
  r <- scan_bitmap 1 bp b (sb_size s) ;;
  match r with
  | Some a => ret (Some a)
  | None => brelse bp ;; ret None
  end.

(** A bitmap block without a free block is passed. *)
Lemma balloc_full k held homes n :
  tx k c pi q held st homes -> layout k st s -> held_used k held -> (length homes + size held < 30)%nat ->
  0 <= n -> n * BPB < sb_size s -> (forall b, n * BPB <= b < Z.min (n * BPB + BPB) (sb_size s) -> ~ free_in s (content k) b) ->
  runs (try_bitmap (n * BPB)) k (fun r k' => r = None /\ unseen held homes k k').
Proof.
  intros Ht Hla Hh Hn Hn0 Hsz Hfull. change BPB with 4096 in *. assert (0 <= n * 4096 < sb_size s) as Hb by lia.
  destruct (layout_bitmap k (n * 4096) Hla Hb) as (EB & HB & Ho & Hd & Hbyte). unfold runs, try_bitmap.
  wp_call (tx_bread lost k c pi q held st homes _ Ht (bitmap_others k held _ Hla Hb Hh) ltac:(lia) Hn).
  intros i k1 (Ht1 & Hi & Hhas & Hk1 & Hb1 & Hc1). rewrite bind_eq.
  rewrite (scan_none k1 ({[i]} ∪ held) homes i _ (n * 4096) (sb_size s) Ht1 ltac:(set_solver) Hhas).
  - cbn [res_bind]. wp_call (tx_brelse lost k1 c pi q _ st homes i _ Ht1 ltac:(set_solver) Hhas).
    intros ? k2 (Ht2 & Hk2 & Hb2 & Hc2). kred. split; [done|].
    replace (({[i]} ∪ held) ∖ {[i]}) with held in * by set_solver.
    split; [done|]. split; [by eapply keeps_trans|]. split; [by eapply blocks_only_trans|]. intros y. by rewrite Hc2.
  - intros bi Hbi. rewrite Hc1. change BPB with 4096 in Hbi.
    destruct (bit_clear (content k (BBLOCK (n * 4096) s)) bi) eqn:E; [|done]. exfalso.
    apply (Hfull (n * 4096 + bi)); [lia|].
    pose proof (free_in_bit (content k) (n * 4096) bi) as HF. change BPB with 4096 in HF.
    rewrite Z_mod_mult, Z.sub_0_r in HF. apply HF; [lia|done].
Qed.

Lemma balloc_skip k held homes l l' Q :
  tx k c pi q held st homes -> layout k st s -> held_used k held -> (length homes + size held < 30)%nat ->
  (forall n, n ∈ l -> 0 <= n /\ n * BPB < sb_size s /\
     forall b, n * BPB <= b < Z.min (n * BPB + BPB) (sb_size s) -> ~ free_in s (content k) b) ->
  (forall k', unseen held homes k k' -> wp (alone K) (for_each ((fun n => n * BPB) <$> l') try_bitmap k') Q) ->
  wp (alone K) (for_each ((fun n => n * BPB) <$> l ++ l') try_bitmap k) Q.
Proof.
  revert k. induction l as [|n l IH]; intros k Ht Hla Hh Hn Hl HQ; cbn [app fmap list_fmap].
  - apply HQ. by apply unseen_refl.
  - rewrite for_each_cons, wp_bind. destruct (Hl n ltac:(set_solver)) as (Hn0 & Hsz & Hfull).
    eapply wp_mono; [|apply (balloc_full k held homes n Ht Hla Hh Hn Hn0 Hsz Hfull)].
    intros r k1 (-> & Hu). destruct (Hu) as (Ht1 & Hk1 & Hb1 & Hc1). apply IH; [done|by eapply layout_frame|by eapply held_used_same|done|..].
    + intros m Hm. destruct (Hl m ltac:(set_solver)) as (Hm0 & Hm1 & Hm2). split; [done|]. split; [done|].
      intros b Hb. rewrite (free_in_ext _ _ _ Hc1). by apply Hm2.
    + intros k' Hu'. apply HQ. by eapply unseen_trans.
Qed.

(** [a] is the first free block. *)
Definition first_free (d : Z -> list Z) (a : Z) : Prop :=
  0 <= a < sb_size s /\ free_in s d a /\ forall b, 0 <= b < a -> ~ free_in s d b.

Lemma balloc_spec k held homes a :
  tx k c pi q held st homes -> layout k st s -> meta_used s (content k) -> held_used k held ->
  first_free (content k) a -> (length homes + size held < 28)%nat ->
  runs (balloc 1) k (fun r k' => r = a /\ tx k' c pi q held st (absorb a (absorb (BBLOCK a s) homes)) /\
    keeps held k k' /\ blocks_only c pi q k k' /\ forall y, content k' y = handed_out s (content k) a y).
Proof.
  intros Ht Hla Hmeta Hh (Ha & Hfree & Hbefore) Hn. unfold runs, balloc, get_sb, get_fs. kred. rewrite (la_sb _ _ _ Hla).
  change BPB with 4096 in *. set (N := Z.to_nat ((sb_size s + 4096 - 1) / 4096)).
  pose proof (Z.div_mod a 4096). pose proof (Z.mod_pos_bound a 4096). pose proof (Z.div_pos a 4096).
  assert (a / 4096 < (sb_size s + 4096 - 1) / 4096).
  { apply Z.div_lt_upper_bound; [lia|]. pose proof (Z.div_mod (sb_size s + 4096 - 1) 4096). pose proof (Z.mod_pos_bound (sb_size s + 4096 - 1) 4096). nia. }
  destruct (zseq_split N (a / 4096)) as [l El]; [unfold N; lia|]. rewrite El, wp_bind.
  change (fun n => n * 4096) with (fun n => n * BPB). apply (balloc_skip k held homes); [done|done|done|lia|..].
  - intros n [Hn0 Hn1]%elem_of_zseq. change BPB with 4096. split; [lia|]. split; [lia|]. intros b Hb. apply Hbefore. lia.
  - intros k1 Hu. destruct (Hu) as (Ht1 & Hk1 & Hb1 & Hc1). cbn [fmap list_fmap]. rewrite for_each_cons, wp_bind.
    pose proof (layout_frame _ _ Hb1 Hla) as Hla1. pose proof (held_used_same _ _ _ Hk1 Hc1 Hh) as Hh1.
    destruct (layout_bitmap k1 a Hla1 Ha) as (EB & HB & Ho & Hd & Hbyte).
    assert (BBLOCK (a / 4096 * BPB) s = BBLOCK a s) as EB' by (unfold BBLOCK; change BPB with 4096; by rewrite Z.div_mul).
    replace (a / 4096 * BPB) with (a - a `mod` BPB) in * by (change BPB with 4096; lia). unfold try_bitmap. rewrite EB'.
    wp_call (tx_bread lost k1 c pi q held st homes _ Ht1 (bitmap_others k1 held a Hla1 Ha Hh1) ltac:(lia) ltac:(lia)).
    intros i k2 (Ht2 & Hi & Hhas & Hk2 & Hb2 & Hc2).
    assert (forall y, content k2 y = content k y) as Hc by (intros y; by rewrite Hc2).
    assert (blocks_only c pi q k k2) as Hb by (by eapply blocks_only_trans).
    wp_call (scan_found k2 held homes i a Ht2 Hi Hhas).
    + intros r k3 (-> & Ht3 & Hk3 & Hb3 & Hc3). kred. split; [done|]. split; [done|].
      split; [eapply keeps_trans; [exact Hk1|]; by eapply keeps_trans|]. split; [by eapply blocks_only_trans|].
      intros y. rewrite Hc3. unfold handed_out, put. by rewrite !Hc.
    + by eapply layout_frame.
    + done.
    + by rewrite (free_in_ext _ _ _ Hc).
    + by apply Hmeta.
    + by eapply held_used_same.
    + intros b Hb'. rewrite (free_in_ext _ _ _ Hc). apply Hbefore. change BPB with 4096 in Hb'. lia.
    + done.
Qed.

(** Handing out [a] changes only its bit. *)
Lemma put_bit_free k d a v b :
  layout k st s -> 0 <= a < sb_size s -> 0 <= b < sb_size s ->
  (forall bj, 0 <= bj -> bj <> a `mod` BPB -> bit_clear v bj = bit_clear (d (BBLOCK a s)) bj) ->
  b <> a -> free_in s (put d (BBLOCK a s) v) b <-> free_in s d b.
Proof.
  intros Hla Ha Hb Hv Hne. unfold free_in, put. case_decide as E; [|done].
  rewrite E, Hv; [done| |].
  - change BPB with 4096. pose proof (Z.mod_pos_bound b 4096). lia.
  - destruct (layout_bitmap k a Hla Ha) as (EA & _), (layout_bitmap k b Hla Hb) as (EB & _).
    change BPB with 4096. pose proof (Z.div_mod a 4096). pose proof (Z.div_mod b 4096). intros Em. lia.
Qed.

Lemma handed_out_free k d a b :
  layout k st s -> data_start s <= a < sb_size s -> 0 <= b < sb_size s -> length (d (BBLOCK a s)) = 512%nat ->
  free_in s (handed_out s d a) b <-> free_in s d b /\ b <> a.
Proof.
  intros Hla Ha Hb Hlen. assert (0 <= data_start s) as Hds.
  { destruct (layout_bitmap k b Hla Hb) as (_ & HB & _ & HD & _). lia. }
  assert (0 <= a < sb_size s) as Ha' by lia. destruct (layout_bitmap k a Hla Ha') as (EA & HA & _ & _ & Hby).
  destruct (layout_bitmap k b Hla Hb) as (EB & HB & _). change 4096 with BPB in Hby.
  unfold handed_out. assert (free_in s (put (put d (BBLOCK a s) (set_bit (d (BBLOCK a s)) (a `mod` BPB))) a block0) b <->
    free_in s (put d (BBLOCK a s) (set_bit (d (BBLOCK a s)) (a `mod` BPB))) b) as ->.
  { unfold free_in, put. rewrite (decide_False (P := BBLOCK b s = a)) by lia. done. }
  assert (0 <= a `mod` BPB) by (by apply Z.mod_pos_bound).
  destruct (decide (b = a)) as [->|Hne].
  - split; [|tauto]. unfold free_in, put. rewrite decide_True, bit_clear_set by (done || lia).
    rewrite bool_decide_eq_false_2 by tauto. by rewrite andb_false_r.
  - rewrite (put_bit_free k); try done; [tauto|]. intros bj Hj Hne'. rewrite bit_clear_set by (done || lia).
    rewrite bool_decide_eq_true_2 by done. by rewrite andb_true_r.
Qed.

(** [bfree] of a block in use. *)
Lemma bfree_spec k held homes b :
  tx k c pi q held st homes -> layout k st s -> held_used k held -> (length homes + size held < 28)%nat ->
  0 <= b < sb_size s -> ~ free_in s (content k) b ->
  runs (bfree 1 b) k (fun _ k' => tx k' c pi q held st (absorb (BBLOCK b s) homes) /\ keeps held k k' /\
    blocks_only c pi q k k' /\
    (forall y, content k' y = put (content k) (BBLOCK b s) (reset_bit (content k (BBLOCK b s)) (b `mod` BPB)) y) /\
    forall b', 0 <= b' < sb_size s -> free_in s (content k') b' <-> free_in s (content k) b' \/ b' = b).
Proof.
  intros Ht Hla Hh Hn Hb Hused. destruct (layout_bitmap k b Hla Hb) as (EB & HB & Ho & Hd & Hbyte).
  unfold runs, bfree, get_sb, get_fs. kred. rewrite (la_sb _ _ _ Hla).
  wp_call (tx_bread lost k c pi q held st homes _ Ht (bitmap_others k held b Hla Hb Hh) ltac:(lia) ltac:(lia)).
  intros i k1 (Ht1 & Hi & Hhas & Hk1 & Hb1 & Hc1). assert (i ∈ {[i]} ∪ held) as Hin by set_solver.
  destruct (tx_get_buf _ _ _ _ _ _ _ _ _ Ht1 Hin Hhas) as (bb & Eb & Edd & Elen). rewrite bind_eq, Eb. cbn [res_bind].
  rewrite Edd, Hc1 in *. destruct (bit_clear (content k (BBLOCK b s)) (b `mod` BPB)) eqn:E; [done|].
  destruct (blocks_only_disk _ _ _ _ _ Hb1) as (Eds & _). apply wp_assoc.
  eapply wp_mono; [|apply (tx_modify k1 c pi q _ st homes i _ _ (reset_bit (content k (BBLOCK b s)) (b `mod` BPB)) Ht1 Hin Hhas Ho)].
  - intros ? k2 (Ht2 & Hk2 & Hb2 & Hc2).
    eapply wp_mono; [|apply (tx_brelse lost k2 c pi q _ st _ i _ Ht2 Hin (Hk2 _ _ Hin Hhas))]. intros ? k3 (Ht3 & Hk3 & Hb3 & Hc3).
    replace (({[i]} ∪ held) ∖ {[i]}) with held in * by set_solver.
    assert (forall y, content k3 y = put (content k) (BBLOCK b s) (reset_bit (content k (BBLOCK b s)) (b `mod` BPB)) y) as Hc.
    { intros y. rewrite Hc3, Hc2. unfold put. case_decide; [done|]. apply Hc1. }
    split; [done|]. split; [eapply keeps_trans; [exact Hk1|]; eapply keeps_trans; [|exact Hk3]; eapply keeps_sub; [|exact Hk2]; set_solver|].
    split; [eapply blocks_only_trans; [exact Hb1|]; by eapply blocks_only_trans|]. split; [done|].
    intros b' Hb'. rewrite (free_in_ext _ _ _ Hc). assert (0 <= b `mod` BPB) by (by apply Z.mod_pos_bound).
    destruct (decide (b' = b)) as [->|Hne].
    + split; [tauto|]. intros _. unfold free_in, put. rewrite decide_True, bit_clear_reset by (done || (change BPB with 4096; lia)).
      rewrite bool_decide_eq_true_2 by done. by rewrite orb_true_r.
    + rewrite (put_bit_free k); try done; [tauto|]. intros bj Hj Hne'. rewrite bit_clear_reset by (done || (change BPB with 4096; lia)).
      rewrite bool_decide_eq_false_2 by done. by rewrite orb_false_r.
  - by rewrite Eds.
  - unfold reset_bit. by rewrite length_insert.
  - intros b0 Eb0. rewrite Eb0. by rewrite Hc1.
  - lia.
Qed.

End State.
End Balloc.
