(* ===== verification/Console.v ===== *)
(** * Console and keyboard input (console.c, uart.c, kbd.c)

    Characters typed are collected in the ring buffer [input]; a finished line
    is handed to the readers.  The interrupt handlers drain a device: they are
    given the list of bytes it has ready, and the [getc] function is applied to
    one after the other.

    Reading and writing devices and files moves bytes to or from user memory,
    kernel memory or a local variable of the caller: [dest] and [source]. *)

From S2P Require Import Prelude Params State Spinlock Seg Str Cprintf Apic Proc FsState Sleeplock BlockDev Ide.
From S2P Require Import Bio Log Inode.

(** ** The keyboard *)

(** An array of 256 bytes given by its first elements and some later ones. *)
Definition table (front : list Z) (later : list (Z * Z)) : list Z :=
  foldr (fun kv l => <[Z.to_nat kv.1 := kv.2]> l)
    (front ++ replicate (256 - length front) 0) later.

(* kbd.h 34-42: shiftcode *)
Definition shiftcode : list Z :=
  table []
    [(0x1D, 2); (0x2A, 1); (0x36, 1); (0x38, 4); (0x9D, 2); (0xB8, 4)].

(* kbd.h 44-49: togglecode *)
Definition togglecode : list Z :=
  table []
    [(0x3A, 8); (0x45, 16); (0x46, 32)].

(* kbd.h 51-71: normalmap *)
Definition normalmap : list Z :=
  table [0; 27; 49; 50; 51; 52; 53; 54; 55; 56; 57; 48; 45; 61; 8; 9; 113; 119; 101; 114; 116;
    121; 117; 105; 111; 112; 91; 93; 10; 0; 97; 115; 100; 102; 103; 104; 106; 107; 108; 59; 39;
    96; 0; 92; 122; 120; 99; 118; 98; 110; 109; 44; 46; 47; 0; 42; 0; 32; 0; 0; 0; 0; 0; 0; 0;
    0; 0; 0; 0; 0; 0; 55; 56; 57; 45; 52; 53; 54; 43; 49; 50; 51; 48; 46; 0; 0; 0; 0]
    [(0x97, 224); (0x9C, 10); (0xB5, 47); (0xC8, 226); (0xC9, 230); (0xCB, 228); (0xCD, 229);
     (0xCF, 225); (0xD0, 227); (0xD1, 231); (0xD2, 232); (0xD3, 233)].

(* kbd.h 73-93: shiftmap *)
Definition shiftmap : list Z :=
  table [0; 27; 33; 64; 35; 36; 37; 94; 38; 42; 40; 41; 95; 43; 8; 9; 81; 87; 69; 82; 84; 89;
    85; 73; 79; 80; 123; 125; 10; 0; 65; 83; 68; 70; 71; 72; 74; 75; 76; 58; 34; 126; 0; 124;
    90; 88; 67; 86; 66; 78; 77; 60; 62; 63; 0; 42; 0; 32; 0; 0; 0; 0; 0; 0; 0; 0; 0; 0; 0; 0; 0;
    55; 56; 57; 45; 52; 53; 54; 43; 49; 50; 51; 48; 46; 0; 0; 0; 0]
    [(0x97, 224); (0x9C, 10); (0xB5, 47); (0xC8, 226); (0xC9, 230); (0xCB, 228); (0xCD, 229);
     (0xCF, 225); (0xD0, 227); (0xD1, 231); (0xD2, 232); (0xD3, 233)].

(* kbd.h 95-111: ctlmap *)
Definition ctlmap : list Z :=
  table [0; 0; 0; 0; 0; 0; 0; 0; 0; 0; 0; 0; 0; 0; 0; 0; 17; 23; 5; 18; 20; 25; 21; 9; 15; 16;
    0; 0; 13; 0; 1; 19; 4; 6; 7; 8; 10; 11; 12; 0; 0; 0; 0; 28; 26; 24; 3; 22; 2; 14; 13; 0; 0;
    239; 0; 0]
    [(0x97, 224); (0x9C, 13); (0xB5, 239); (0xC8, 226); (0xC9, 230); (0xCB, 228); (0xCD, 229);
     (0xCF, 225); (0xD0, 227); (0xD1, 231); (0xD2, 232); (0xD3, 233)].

(** Bits of the shift state. *)
Definition CTL_SHIFT : Z := 3.

Definition CAPSLOCK : Z := 8.

Definition E0ESC : Z := 64.

(** The character for a scan code, and the new shift state; 0 when there is none. *)
(* kbd.c 20-43: kbdgetc *)
Definition kbd_decode (shift data : Z) : Z * Z :=
  if data =? 0xE0 then (0, Z.lor shift E0ESC)
  else if nz (Z.land data 0x80) then
    let data := if nz (Z.land shift E0ESC) then data else Z.land data 0x7F in
    (0, Z.land shift (Z.lnot (Z.lor (shiftcode !!! Z.to_nat data) E0ESC)))
  else
    let '(data, shift) :=
      if nz (Z.land shift E0ESC) then (Z.lor data 0x80, Z.land shift (Z.lnot E0ESC)) else (data, shift) in
    let shift := Z.lor shift (shiftcode !!! Z.to_nat data) in
    let shift := Z.lxor shift (togglecode !!! Z.to_nat data) in
    let map := match Z.land shift CTL_SHIFT with 0 => normalmap | 1 => shiftmap | _ => ctlmap end in
    let c := map !!! Z.to_nat data in
    let c := if nz (Z.land shift CAPSLOCK) then
               if (97 <=? c) && (c <=? 122) then c - 32
               else if (65 <=? c) && (c <=? 90) then c + 32 else c
             else c in
    (c, shift).

(* console.c 187-187: INPUT_BUF *)
Definition INPUT_BUF : Z := 128.

Section Devices.
  Context {LK : Linker} {FU : Fuel} {BD : BlockDev}.

(** The byte read from the data port. *)
(* kbd.c 6-44: kbdgetc *)
Definition kbdgetc (data : Z) : M K Z :=
  shift <- gets (fun k => kbd_shift (k_cons k)) ;;
  let '(c, shift) := kbd_decode shift data in
  on_cons (set_kbd_shift shift) ;;
  ret c.

(* uart.c 63-71: uartgetc *)
Definition uartgetc (data : Z) : M K Z :=
  u <- gets (fun k => uart (k_cons k)) ;;
  ret (if nz u then data else -1).

(** [present]: whether the line status is not 0xFF.  The settings of the line
    have no effect in the model. *)
(* uart.c 19-49: uartinit *)
Definition uartinit (present : bool) : M K unit :=
  if negb present then ret tt else
  on_cons (set_uart 1) ;;
  ioapicenable IRQ_COM1 0 ;;
  for_all (bytes_of ("xv6..." ++ nl)) uartputc.

(** ** Process listing *)

(** The frames from [ebp] on: at most [n] return addresses, then zeros. *)
(* spinlock.c 77-85: getcallerpcs *)
Fixpoint frames (n : nat) (ebp : Z) : M K (list Z) :=
  match n with
  | O => ret []
  | S n' =>
      if (ebp =? 0) || (ebp <? KERNBASE) || (ebp =? 0xffffffff) then ret (replicate n 0) else
      pc <- kload32 (ebp + 4) ;;
      ebp <- kload32 ebp ;;
      pcs <- frames n' ebp ;;
      ret (pc :: pcs)
  end.

(* spinlock.c 71-86: getcallerpcs *)
Definition getcallerpcs (v : Z) : M K (list Z) := frames 10 (u32 (v - 8)).

(* proc.c 817-824: states *)
Definition state_name (s : procstate) : string :=
  match s with
  | UNUSED => "unused"
  | EMBRYO => "embryo"
  | SLEEPING => "sleep "
  | RUNNABLE => "runble"
  | RUNNING => "run   "
  | ZOMBIE => "zombie"
  end.

(** The saved [ebp] is the fourth word of the context. *)
(* proc.c 814-845: procdump *)
Definition procdump : M K unit :=
  for_all slots (fun i =>
    p <- get_proc i ;;
    if bool_decide (state p = UNUSED) then ret tt else
    cprintf "%d %s %s" [CInt (pid p); CStr (Some (bytes_of (state_name (state p))));
                        CStr (Some (cstr 16 (name p)))] ;;
    when (bool_decide (state p = SLEEPING))
      (ebp <- kload32 (context p + 12) ;;
       pcs <- getcallerpcs (u32 (ebp + 8)) ;;
       for_each pcs (fun pc =>
         if pc =? 0 then ret (Some tt) else cprintf " %p" [CInt pc] ;; ret None) ;;
       ret tt) ;;
    cprintf nl []).

(** ** Typed characters *)

Definition get_in : M K cstate := gets (fun k => k_cons k).

(** [input.buf[i % INPUT_BUF]] *)
Definition in_char (cs : cstate) (i : Z) : Z := in_buf cs !!! Z.to_nat (u32 i `mod` INPUT_BUF).

(** The line being edited is erased up to the last newline. *)
(* console.c 210-214: consoleintr *)
Fixpoint kill_line (n : nat) : M K unit :=
  cs <- get_in ;;
  if (in_e cs =? in_w cs) || (in_char cs (in_e cs - 1) =? 10) then ret tt else
  match n with
  | O => fun k => NoFuel k
  | S n' =>
      on_cons (fun cs => set_in_e (u32 (in_e cs - 1)) cs) ;;
      consputc BACKSPACE ;;
      kill_line n'
  end.

(** One character; whether a process listing is wanted. *)
(* console.c 204-233: consoleintr *)
Definition console_char (c : Z) : M K bool :=
  if c =? 16 then ret true
  else if c =? 21 then
    cs <- get_in ;;
    kill_line (Z.to_nat (u32 (in_e cs - in_w cs))) ;;
    ret false
  else if (c =? 8) || (c =? 127) then
    cs <- get_in ;;
    when (negb (in_e cs =? in_w cs))
      (on_cons (fun cs => set_in_e (u32 (in_e cs - 1)) cs) ;;
       consputc BACKSPACE) ;;
    ret false
  else
    cs <- get_in ;;
    when (negb (c =? 0) && (u32 (in_e cs - in_r cs) <? INPUT_BUF))
      (let c := if c =? 13 then 10 else c in
       on_cons (fun cs => set_in_e (u32 (in_e cs + 1))
         (set_in_buf (<[Z.to_nat (in_e cs `mod` INPUT_BUF) := u8 c]> (in_buf cs)) cs)) ;;
       consputc c ;;
       cs <- get_in ;;
       when ((c =? 10) || (c =? 4) || (in_e cs =? u32 (in_r cs + INPUT_BUF)))
         (on_cons (fun cs => set_in_w (in_e cs) cs) ;;
          wakeup ChInput)) ;;
    ret false.

(* console.c 203-234: consoleintr *)
Fixpoint console_chars (getc : Z -> M K Z) (ready : list Z) (doprocdump : bool) : M K bool :=
  match ready with
  | [] => ret doprocdump
  | d :: ready' =>
      c <- getc d ;;
      if c <? 0 then ret doprocdump else
      b <- console_char c ;;
      console_chars getc ready' (doprocdump || b)
  end.

(* console.c 197-239: consoleintr *)
Definition consoleintr (getc : Z -> M K Z) (ready : list Z) : M K unit :=
  acquire LKcons ;;
  doprocdump <- console_chars getc ready false ;;
  release LKcons ;;
  when doprocdump procdump.

(* kbd.c 46-50: kbdintr *)
Definition kbdintr (ready : list Z) : M K unit := consoleintr kbdgetc ready.

(* uart.c 73-77: uartintr *)
Definition uartintr (ready : list Z) : M K unit := consoleintr uartgetc ready.

(** ** The console as a device *)

Inductive dest : Type :=
| DUser (va : Z)
| DKern (va : Z)
| DLocal.

Inductive source : Type :=
| SUser (va : Z)
| SLocal (bs : list Z).

(** Bytes stored from offset [off] of the destination on; those for a local
    variable are returned by the reading function. *)
Definition put_dest (d : dest) (off : Z) (bs : list Z) : M K unit :=
  match d with
  | DUser va => ustore (va + off) bs
  | DKern va => kstore (va + off) bs
  | DLocal => ret tt
  end.

Definition get_source (s : source) (off : Z) (n : nat) : M K (list Z) :=
  match s with
  | SUser va => uload (va + off) n
  | SLocal bs => ret (slice bs (Z.to_nat off) n)
  end.

(** Waiting for input: [true] when the process has been killed. *)
(* console.c 251-258: consoleread *)
Definition wait_input : M K bool :=
  loop fuel (
    cs <- get_in ;;
    if negb (in_r cs =? in_w cs) then ret (Some false) else
    op <- myproc ;;
    i <- deref "myproc()" op ;;
    p <- get_proc i ;;
    if nz (killed p) then ret (Some true) else
    sleep ChInput LKcons ;;
    ret None).

(** The bytes read, or [None] when killed; [got] are those already stored. *)
(* console.c 250-272: consoleread *)
Fixpoint read_chars (n : nat) (d : dest) (got : list Z) : M K (option (list Z)) :=
  match n with
  | O => ret (Some got)
  | S n' =>
      dead <- wait_input ;;
      if (dead : bool) then ret None else
      cs <- get_in ;;
      let c := in_char cs (in_r cs) in
      on_cons (fun cs => set_in_r (u32 (in_r cs + 1)) cs) ;;
      if c =? 4 then
        when (0 <? Z.of_nat (length got)) (on_cons (fun cs => set_in_r (u32 (in_r cs - 1)) cs)) ;;
        ret (Some got)
      else
        put_dest d (Z.of_nat (length got)) [c] ;;
        if c =? 10 then ret (Some (got ++ [c])) else read_chars n' d (got ++ [c])
  end.

(* console.c 241-277: consoleread *)
Definition consoleread (i : nat) (d : dest) (n : Z) : M K (Z * list Z) :=
  iunlock (Some i) ;;
  acquire LKcons ;;
  o <- read_chars (Z.to_nat n) d [] ;;
  release LKcons ;;
  ilock (Some i) ;;
  match o with
  | None => ret (-1, [])
  | Some got => ret (Z.of_nat (length got), got)
  end.

(* console.c 279-292: consolewrite *)
Definition consolewrite (i : nat) (s : source) (n : Z) : M K Z :=
  iunlock (Some i) ;;
  acquire LKcons ;;
  for_all (zseq (Z.to_nat n)) (fun j =>
    bs <- get_source s j 1 ;;
    consputc (Z.land (hd 0 bs) 0xff)) ;;
  release LKcons ;;
  ilock (Some i) ;;
  ret n.

(* console.c 294-304: consoleinit *)
Definition consoleinit : M K unit :=
  initlock LKcons "console" ;;
  on_fs (fun s => set_devsw (alter (fun d => (d.1, Some Dconsolewrite)) (Z.to_nat CONSOLE) (devsw s)) s) ;;
  on_fs (fun s => set_devsw (alter (fun d => (Some Dconsoleread, d.2)) (Z.to_nat CONSOLE) (devsw s)) s) ;;
  on_cons (set_cons_locking 1) ;;
  ioapicenable IRQ_KBD 0.

End Devices.
