(* ===== verification/Fs.v ===== *)
(** * Files, directories and paths (fs.c, upper half)

    Reading and writing the contents of an inode, directories as files of
    fixed-size entries, and the resolution of path names. *)

From S2P Require Import Prelude Params State Spinlock Seg Str Proc FsState Sleeplock BlockDev Ide Bio Log.
From S2P Require Import Inode Console.

(* fs.h 53-56: dirent *)
Record dirent : Type := mkDirent {
  de_inum : Z;
  de_name : list Z
}.

Definition sizeof_dirent : Z := 16.

(* fs.h 53-56: dirent *)
Definition get_dirent (bs : list Z) : dirent := mkDirent (half_at bs 0) (slice bs 2 14).

(* fs.h 53-56: dirent *)
Definition dirent_bytes (de : dirent) : list Z := le_bytes 2 (de_inum de) ++ de_name de.

(* fs.c 516-520: namecmp *)
Definition namecmp (s t : list Z) : Z := strncmp s t (Z.to_nat DIRSIZ).

(** ** Path elements *)

Definition slash : Z := 47.

(* fs.c 601-602: skipelem *)
Fixpoint skip_slashes (path : list Z) : list Z :=
  match path with
  | c :: path' => if c =? slash then skip_slashes path' else path
  | [] => []
  end.

(** The characters up to the next slash or the end, and what follows. *)
(* fs.c 605-608: skipelem *)
Fixpoint take_elem (path : list Z) : list Z * list Z :=
  match path with
  | c :: path' =>
      if (c =? slash) || (c =? 0) then ([], path)
      else let '(e, rest) := take_elem path' in (c :: e, rest)
  | [] => ([], [])
  end.

(** [name] is the array the element is copied to; a path is the list of its
    characters, ended by a null or the end of the list. *)
(* fs.c 595-618: skipelem *)
Definition skipelem (path name : list Z) : option (list Z * list Z) :=
  let path := skip_slashes path in
  if chr path =? 0 then None else
  let '(e, path) := take_elem path in
  let len := length e in
  let name := if Z.of_nat len >=? DIRSIZ then splice name 0 (take (Z.to_nat DIRSIZ) e)
              else splice (splice name 0 e) len [0] in
  Some (skip_slashes path, name).

Section Fs.
  Context {LK : Linker} {FU : Fuel} {BD : BlockDev}.

(** ** Inode content *)

(** The loop over the blocks of [n] bytes from [off] on, after [tot] bytes;
    every step but the last ends at a block boundary, so that [fuel] is one
    more than the number of blocks of [n] bytes. *)
(* fs.c 469-474: readi *)
Fixpoint read_blocks (fuel : nat) (i : nat) (d : dest) (off n tot : Z) (got : list Z) : M K (list Z) :=
  if negb (tot <? n) then ret got else
  match fuel with
  | O => fun k => NoFuel k
  | S f =>
      ip <- get_inode i ;;
      a <- bmap i (off / BSIZE) ;;
      bp <- bread (i_dev ip) a ;;
      let m := Z.min (n - tot) (BSIZE - off `mod` BSIZE) in
      bb <- get_buf bp ;;
      let bs := slice (b_data bb) (Z.to_nat (off `mod` BSIZE)) (Z.to_nat m) in
      put_dest d tot bs ;;
      brelse bp ;;
      read_blocks f i d (off + m) n (tot + m) (got ++ bs)
  end.

(** The device function for [ip->major], when there is one. *)
(* fs.c 459-460: readi *)
Definition dev_fn {A} (sel : option devfn * option devfn -> option A) (major : Z) : M K (option A) :=
  t <- get_fs devsw ;;
  ret (if (major <? 0) || (major >=? NDEV) then None else t !! Z.to_nat major ≫= sel).

Definition blocks_for (n : Z) : nat := Z.to_nat (n / BSIZE + 2).

(** The value returned, and the bytes read. *)
(* fs.c 452-476: readi *)
Definition readi (i : nat) (d : dest) (off n : Z) : M K (Z * list Z) :=
  ip <- get_inode i ;;
  if i_type ip =? T_DEV then
    f <- dev_fn fst (i_major ip) ;;
    match f with
    | Some Dconsoleread => consoleread i d (s32 n)
    | Some Dconsolewrite => undef "devsw.read"
    | None => ret (-1, [])
    end
  else
  if (off >? i_size ip) || (u32 (off + n) <? off) then ret (-1, []) else
  let n := if off + n >? i_size ip then i_size ip - off else n in
  bs <- read_blocks (blocks_for n) i d off n 0 [] ;;
  ret (s32 n, bs).

(* fs.c 498-504: writei *)
Fixpoint write_blocks (fuel : nat) (i : nat) (s : source) (off n tot : Z) : M K Z :=
  if negb (tot <? n) then ret off else
  match fuel with
  | O => fun k => NoFuel k
  | S f =>
      ip <- get_inode i ;;
      a <- bmap i (off / BSIZE) ;;
      bp <- bread (i_dev ip) a ;;
      let m := Z.min (n - tot) (BSIZE - off `mod` BSIZE) in
      bs <- get_source s tot (Z.to_nat m) ;;
      upd_buf bp (fun bb => set_b_data (splice (b_data bb) (Z.to_nat (off `mod` BSIZE)) bs) bb) ;;
      log_write bp ;;
      brelse bp ;;
      write_blocks f i s (off + m) n (tot + m)
  end.

(* fs.c 481-511: writei *)
Definition writei (i : nat) (s : source) (off n : Z) : M K Z :=
  ip <- get_inode i ;;
  if i_type ip =? T_DEV then
    f <- dev_fn snd (i_major ip) ;;
    match f with
    | Some Dconsolewrite => consolewrite i s (s32 n)
    | Some Dconsoleread => undef "devsw.write"
    | None => ret (-1)
    end
  else
  if (off >? i_size ip) || (u32 (off + n) <? off) then ret (-1) else
  if off + n >? MAXFILE * BSIZE then ret (-1) else
  off <- write_blocks (blocks_for n) i s off n 0 ;;
  ip <- get_inode i ;;
  when ((n >? 0) && (off >? i_size ip)) (upd_inode i (set_i_size off) ;; iupdate i) ;;
  ret (s32 n).

(** ** Directories *)

(** [for(off = 0; off < dp->size; off += sizeof(de))]: the first entry that
    satisfies the test, with its offset; the last component is the last entry
    read and the offset the loop ended with. *)
(* fs.c 533-545: dirlookup *)
Fixpoint dir_scan (fuel : nat) (dp : nat) (msg : string) (test : dirent -> bool) (off : Z)
    (last : dirent) : M K (bool * Z * dirent) :=
  ip <- get_inode dp ;;
  if negb (off <? i_size ip) then ret (false, off, last) else
  match fuel with
  | O => fun k => NoFuel k
  | S f =>
      r <- readi dp DLocal off sizeof_dirent ;;
      if negb (r.1 =? sizeof_dirent) then panic msg else
      let de := get_dirent r.2 in
      if test de then ret (true, off, de) else dir_scan f dp msg test (off + sizeof_dirent) de
  end.

Definition no_dirent : dirent := mkDirent 0 (replicate (Z.to_nat DIRSIZ) 0).

Definition dir_fuel (ip : inode) : nat := Z.to_nat (i_size ip / sizeof_dirent + 1).

(** The inode and the offset of the entry ([*poff]). *)
(* fs.c 524-548: dirlookup *)
Definition dirlookup (dp : nat) (name : list Z) : M K (option (nat * Z)) :=
  ip <- get_inode dp ;;
  if negb (i_type ip =? T_DIR) then panic "dirlookup not DIR" else
  r <- dir_scan (dir_fuel ip) dp "dirlookup read"
         (fun de => nz (de_inum de) && (namecmp name (de_name de) =? 0)) 0 no_dirent ;;
  let '(found, off, de) := r in
  if (found : bool) then
    i <- iget (i_dev ip) (de_inum de) ;;
    ret (Some (i, off))
  else ret None.

(** The local [de] holds the entry read last; all of its bytes are written. *)
(* fs.c 551-578: dirlink *)
Definition dirlink (dp : nat) (name : list Z) (inum : Z) : M K Z :=
  o <- dirlookup dp name ;;
  match o with
  | Some (i, _) => iput i ;; ret (-1)
  | None =>
      ip <- get_inode dp ;;
      r <- dir_scan (dir_fuel ip) dp "dirlink read" (fun de => de_inum de =? 0) 0 no_dirent ;;
      let '(_, off, de) := r in
      let de := mkDirent (u16 inum) (strncpy (de_name de) name (Z.to_nat DIRSIZ)) in
      r <- writei dp (SLocal (dirent_bytes de)) off sizeof_dirent ;;
      if negb (r =? sizeof_dirent) then panic "dirlink" else ret 0
  end.

(** ** Paths *)

(** The array a caller passes for the name, before anything is copied to it. *)
Definition name0 : list Z := replicate (Z.to_nat DIRSIZ) 0.

(** Every step consumes a character of the path; [fuel] is more than its length. *)
(* fs.c 634-651: namex *)
Fixpoint namex_loop (fuel : nat) (i : nat) (path : list Z) (parent : bool) (name : list Z) :
    M K (option (nat * list Z)) :=
  match skipelem path name with
  | None => if parent then iput i ;; ret None else ret (Some (i, name))
  | Some (path, name) =>
      match fuel with
      | O => fun k => NoFuel k
      | S f =>
          ilock (Some i) ;;
          ip <- get_inode i ;;
          if negb (i_type ip =? T_DIR) then iunlockput i ;; ret None
          else if parent && (chr path =? 0) then
            iunlock (Some i) ;;
            ret (Some (i, name))
          else
            o <- dirlookup i name ;;
            match o with
            | None => iunlockput i ;; ret None
            | Some (next, _) => iunlockput i ;; namex_loop f next path parent name
            end
      end
  end.

(* fs.c 624-657: namex *)
Definition namex (path : list Z) (parent : bool) (name : list Z) : M K (option (nat * list Z)) :=
  i <- (if chr path =? slash then iget ROOTDEV ROOTINO
        else
          op <- myproc ;;
          p <- deref "myproc()" op ;;
          pr <- get_proc p ;;
          c <- deref "cwd" (cwd pr) ;;
          idup c) ;;
  namex_loop (S (length path)) i path parent name.

(* fs.c 659-664: namei *)
Definition namei (path : list Z) : M K (option nat) :=
  o <- namex path false name0 ;;
  ret (fst <$> o).

(* fs.c 666-670: nameiparent *)
Definition nameiparent (path : list Z) : M K (option (nat * list Z)) := namex path true name0.

End Fs.
