(* ===== verification/FileSpec.v ===== *)
(** * The blocks of a file (fs.c: bmap)

    A file is a list of bytes, [file_bytes], kept in the blocks its inode leads
    to, directly or through the indirect block.  [bmap] finds the block for an
    offset, or takes one from the free bitmap, and leaves all other blocks in
    use alone. *)

From S2P Require Import Prelude Params State Spinlock Seg Proc ProcSpec ProcRefine SleepWake FsState Sleeplock Demo DemoFs.
From S2P Require Import SleeplockSpec Ring BlockDev Ide Memide Bio BioSpec Log LogSpec TxSpec Inode BlockTx Balloc Console Fs.

(** The address of the indirect block. *)
Definition ind (ip : inode) : Z := default 0 (i_addrs ip !! 12%nat).

(** The address of block [n] of the file; 0 when there is none. *)
Definition baddr (d : Z -> list Z) (ip : inode) (n : Z) : Z :=
  if n <? 12 then default 0 (i_addrs ip !! Z.to_nat n)
  else if ind ip =? 0 then 0 else word_at (d (ind ip)) (4 * Z.to_nat (n - 12)).

(** Byte [o] of the file. *)
Definition fbyte (d : Z -> list Z) (ip : inode) (o : Z) : Z := default 0 (d (baddr d ip (o / 512)) !! Z.to_nat (o `mod` 512)).

Definition file_bytes (d : Z -> list Z) (ip : inode) : list Z := fbyte d ip <$> zseq (Z.to_nat (i_size ip)).

(** Block [a] is a data block that is in use. *)
Definition in_use (s : superblock) (d : Z -> list Z) (a : Z) : Prop := data_start s <= a < sb_size s /\ ~ free_in s d a.

(** The addresses [f] of a file's blocks, with the indirect block [x]; [U] are
    the blocks in use. *)
Record map_ok (U : Z -> Prop) (f : Z -> Z) (x : Z) : Prop := {
  mo_use : forall n, 0 <= n < 140 -> f n <> 0 -> U (f n) /\ f n <> x;
  mo_ind : x <> 0 -> U x;
  mo_inj : forall n m, 0 <= n < 140 -> 0 <= m < 140 -> f n <> 0 -> f n = f m -> n = m
}.

Record inode_ok (s : superblock) (d : Z -> list Z) (ip : inode) : Prop := {
  io_dev : i_dev ip = 1;
  io_len : length (i_addrs ip) = 13%nat;
  io_size : 0 <= i_size ip <= 140 * 512 /\ 0 <= i_inum ip < sb_ninodes s;
  io_map : map_ok (in_use s d) (baddr d ip) (ind ip)
}.

(** The blocks up to the end of the file are there. *)
Definition complete (d : Z -> list Z) (ip : inode) : Prop :=
  forall n, 0 <= n -> n * 512 < i_size ip -> baddr d ip n <> 0.

(** At least [m] blocks are free. *)
Definition plenty (s : superblock) (d : Z -> list Z) (m : nat) : Prop :=
  exists l, NoDup l /\ length l = m /\ Forall (fun b => 0 <= b < sb_size s /\ free_in s d b) l.

(** The disk as a transaction sees it. *)
Record disk_ok (s : superblock) (d : Z -> list Z) : Prop := {
  do_len : forall y, length (d y) = 512%nat;
  do_meta : meta_used s d
}.

(** ** Addresses of blocks *)

Lemma map_ok_ext (U U' : Z -> Prop) f f' x x' :
  (forall y, U y -> U' y) -> (forall n, 0 <= n < 140 -> f' n = f n) -> x' = x -> map_ok U f x -> map_ok U' f' x'.
Proof.
  intros Hu Hf -> [H1 H2 H3]. split.
  - intros n Hn. rewrite Hf by done. intros Hne. destruct (H1 n Hn Hne). auto.
  - auto.
  - intros n m Hn Hm. rewrite !Hf by done. by apply H3.
Qed.

Lemma map_ok_add (U : Z -> Prop) f f' x n a :
  map_ok U f x -> 0 <= n < 140 -> U a -> a <> x -> (forall m, 0 <= m < 140 -> f m <> a) ->
  (forall m, 0 <= m < 140 -> f' m = if decide (m = n) then a else f m) -> map_ok U f' x.
Proof.
  intros [H1 H2 H3] Hn Ha Hax Hfa Hf'. split; [|done|].
  - intros m Hm. rewrite Hf' by done. case_decide; [auto|]. by apply H1.
  - intros m m' Hm Hm'. rewrite !Hf' by done. repeat case_decide; subst; auto.
    + intros _ E. exfalso. by apply (Hfa m').
    + intros _ E. exfalso. by apply (Hfa m).
Qed.

Section Disk.
Context (k0 : K) (st : Z) (s : superblock).
Hypothesis Hla : layout k0 st s.
Implicit Types (d : Z -> list Z).

Lemma data_start_pos : 0 < data_start s.
Proof.
  destruct Hla as [_ H2 H3 H4 _]. unfold data_start in *. change BPB with 4096 in *. change IPB with 8 in *.
  pose proof (Z.div_pos (sb_ninodes s) 8). pose proof (Z.div_mod (sb_size s - 1) 4096). pose proof (Z.mod_pos_bound (sb_size s - 1) 4096).
  nia.
Qed.

(** Bitmap blocks are not data blocks. *)
Lemma bitmap_not_data b y : 0 <= b < sb_size s -> data_start s <= y -> BBLOCK b s <> y.
Proof. intros Hb Hy. destruct (layout_bitmap st s k0 b Hla Hb) as (_ & ? & _). lia. Qed.

Lemma handed_out_facts d a :
  disk_ok s d -> first_free s d a -> let d' := handed_out s d a in
  disk_ok s d' /\ in_use s d' a /\ d' a = block0 /\ (forall y, in_use s d y -> d' y = d y /\ in_use s d' y /\ y <> a) /\
  (forall b, 0 <= b < sb_size s -> free_in s d' b -> free_in s d b /\ b <> a).
Proof.
  intros [Hl Hm] (Ha & Hf & _) d'. pose proof data_start_pos as Hds. pose proof (Hm a Ha Hf) as Had.
  assert (forall b, 0 <= b < sb_size s -> free_in s d' b <-> free_in s d b /\ b <> a) as Hfr.
  { intros b Hb. apply (handed_out_free st s k0); [done|lia|done|apply Hl]. }
  split; [split|].
  - intros y. unfold d', handed_out, put. repeat case_decide; [done|unfold set_bit; by rewrite length_insert|done].
  - intros b Hb [Hfb _]%Hfr; [|done]. by apply Hm.
  - split; [split; [lia|]; rewrite Hfr by lia; tauto|]. split; [unfold d', handed_out, put; by rewrite decide_True|]. split.
    + intros y [Hy Hny]. assert (y <> a) as Hne by (intros ->; tauto). split; [|split; [split; [done|]|done]].
      * unfold d', handed_out, put. rewrite decide_False by done. rewrite decide_False; [done|].
        apply not_eq_sym. apply bitmap_not_data; [lia|apply Hy].
      * rewrite Hfr by lia. tauto.
    + intros b Hb. by apply Hfr.
Qed.

Lemma write_facts d x v :
  disk_ok s d -> (forall b, 0 <= b < sb_size s -> BBLOCK b s <> x) -> length v = 512%nat -> let d' := put d x v in
  disk_ok s d' /\ (forall b, 0 <= b < sb_size s -> free_in s d' b <-> free_in s d b) /\
  (forall y, in_use s d' y <-> in_use s d y) /\ d' x = v /\ (forall y, y <> x -> d' y = d y).
Proof.
  intros [Hl Hm] Hx Hv d'. assert (forall b, 0 <= b < sb_size s -> free_in s d' b <-> free_in s d b) as Hf.
  { intros b Hb. unfold free_in, d', put. rewrite decide_False; [done|]. by apply Hx. }
  split; [split|].
  - intros y. unfold d', put. by case_decide.
  - intros b Hb. rewrite Hf by done. by apply Hm.
  - split; [done|]. split; [|unfold d', put; split; [by rewrite decide_True|intros y Hy; by rewrite decide_False]].
    intros y. unfold in_use. pose proof data_start_pos. split; intros [H1 H2]; (split; [done|]); rewrite Hf in *; (done || lia).
Qed.

Lemma baddr_ext d d' ip n : (ind ip <> 0 -> d' (ind ip) = d (ind ip)) -> baddr d' ip n = baddr d ip n.
Proof.
  intros H. unfold baddr. destruct (n <? 12); [done|]. destruct (Z.eqb_spec (ind ip) 0); [done|]. by rewrite H.
Qed.

Lemma inode_ok_ext d d' ip :
  (forall y, in_use s d y -> in_use s d' y) -> (ind ip <> 0 -> d' (ind ip) = d (ind ip)) -> inode_ok s d ip -> inode_ok s d' ip.
Proof.
  intros Hu Hi [H1 H2 H3 H4]. split; [done..|]. eapply map_ok_ext; [exact Hu|..|exact H4]; [|done].
  intros n _. by apply baddr_ext.
Qed.

(** A fresh block is none of the file's. *)
Lemma fresh_addr d ip a :
  inode_ok s d ip -> a <> 0 -> ~ in_use s d a -> (forall m, 0 <= m < 140 -> baddr d ip m <> a) /\ (ind ip <> a).
Proof.
  intros [_ _ _ [H1 H2 _]] Ha Hu. split.
  - intros m Hm <-. destruct (H1 m Hm Ha). done.
  - intros <-. auto.
Qed.

End Disk.

(** ** Free blocks *)

Lemma plenty_first s d m : plenty s d (S m) -> exists a, first_free s d a.
Proof.
  intros (l & _ & Hlen & Hl). destruct l as [|b l]; [done|]. apply list.Forall_cons in Hl as [[Hb Hf] _].
  destruct (list_find (free_in s d) (zseq (Z.to_nat (sb_size s)))) as [[j a]|] eqn:E.
  - apply list_find_Some in E as (Hj & Ha & Hmin). unfold zseq in *. exists a.
    apply list_lookup_fmap_Some in Hj as (j' & -> & Hj). apply lookup_seq in Hj as [-> Hj]. cbn in *.
    split; [lia|]. split; [done|]. intros b' Hb'. apply (Hmin (Z.to_nat b')); [|lia].
    rewrite list_lookup_fmap, lookup_seq_lt by lia. cbn. f_equal. lia.
  - apply list_find_None in E. rewrite list.Forall_forall in E. exfalso. apply (E b); [|done]. apply elem_of_zseq. lia.
Qed.

Lemma plenty_less s d d' m a :
  plenty s d (S m) -> (forall b, 0 <= b < sb_size s -> free_in s d b -> b <> a -> free_in s d' b) -> plenty s d' m.
Proof.
  intros (l & Hnd & Hlen & Hl) Hd. rewrite list.Forall_forall in Hl.
  destruct (decide (a ∈ l)) as [Hin|Hout].
  - apply list_elem_of_split in Hin as (l1 & l2 & ->). exists (l1 ++ l2).
    assert (NoDup (a :: l1 ++ l2)) as [Hna Hnd']%list.NoDup_cons by (by rewrite Permutation_middle).
    split; [done|]. split; [rewrite length_app in *; cbn in Hlen; lia|]. apply list.Forall_forall. intros b Hb.
    destruct (Hl b) as [H1 H2]; [set_solver|]. split; [done|]. apply Hd; [done..|]. by intros ->.
  - destruct l as [|b l]; [done|]. apply list.NoDup_cons in Hnd as [_ Hnd]. exists l. split; [done|]. split; [by injection Hlen|].
    apply list.Forall_forall. intros b' Hb'. destruct (Hl b') as [H1 H2]; [set_solver|]. split; [done|].
    apply Hd; [done..|]. intros ->. apply Hout. set_solver.
Qed.

(** From [d] to [d'] blocks may have been handed out; the blocks in use are as
    before, except [x], and so are the blocks before the bitmap. *)
Record grows (s : superblock) (d d' : Z -> list Z) (x : Z) : Prop := {
  gr_disk : disk_ok s d';
  gr_use : forall y, in_use s d y -> in_use s d' y;
  gr_same : forall y, in_use s d y -> y <> x -> d' y = d y;
  gr_free : forall b, 0 <= b < sb_size s -> free_in s d' b -> free_in s d b;
  gr_meta : forall y, y < sb_bmapstart s -> d' y = d y
}.

Lemma grows_trans s d1 d2 d3 x : grows s d1 d2 x -> grows s d2 d3 x -> grows s d1 d3 x.
Proof.
  intros [A1 A2 A3 A4 A5] [B1 B2 B3 B4 B5]. split; auto.
  - intros y Hy Hne. rewrite B3, A3; auto.
  - intros y Hy. rewrite B5, A5; auto.
Qed.

Lemma disk_ok_ext s d d' : (forall y, d' y = d y) -> disk_ok s d -> disk_ok s d'.
Proof.
  intros E [H1 H2]. split; [intros y; by rewrite E|]. intros b Hb. rewrite (free_in_ext _ d d' _ E). by apply H2.
Qed.

Lemma in_use_ext s d d' y : (forall y, d' y = d y) -> in_use s d' y <-> in_use s d y.
Proof. intros E. unfold in_use. by rewrite (free_in_ext _ d d' _ E). Qed.

Lemma grows_ext s d d' e e' x : (forall y, e y = d y) -> (forall y, e' y = d' y) -> grows s d d' x -> grows s e e' x.
Proof.
  intros E E' [H1 H2 H3 H4 H5]. split; [by eapply disk_ok_ext|..].
  - intros y. rewrite (in_use_ext _ _ _ _ E), (in_use_ext _ _ _ _ E'). auto.
  - intros y. rewrite (in_use_ext _ _ _ _ E). intros Hy Hne. rewrite E, E'. auto.
  - intros b. rewrite (free_in_ext _ _ _ _ E), (free_in_ext _ _ _ _ E'). auto.
  - intros y Hy. rewrite E, E'. auto.
Qed.

(** ** The code *)

(** Only the buffers, the log and inode [i] have changed; it is now [ip]. *)
Definition on_file (c pi : nat) (q : Z) (i : nat) (ip : inode) (k k' : K) : Prop :=
  stays c pi q k k' /\
  k_fs k' = set_bufs (cbufs k') (set_lg (lg (k_fs k')) (set_inodes (<[i := ip]> (inodes (k_fs k))) (k_fs k))).

(** The file system in a transaction, with [homes] recorded. *)
Record fsys (k : K) (c pi : nat) (q : Z) (held : gset nat) (st : Z) (homes : list Z) (s : superblock) : Prop := {
  fy_tx : tx k c pi q held st homes;
  fy_layout : layout k st s;
  fy_disk : disk_ok s (content k)
}.

Section FileSpec.
Context {LK : Linker} {FU : Fuel}.
Context (lost : gmap (Z * Z) (list Z) -> Z -> bool).
Implicit Types (k : K).

#[local] Instance file_power : BlockDev := power lost.

Context (c pi : nat) (q st : Z) (s : superblock).

Lemma on_file_refl i ip k : me k c pi q -> inodes (k_fs k) !! i = Some ip -> on_file c pi q i ip k k.
Proof.
  intros Hm Hi. split; [by apply stays_refl|]. rewrite list_insert_id by done. unfold cbufs. by destruct (k_fs k).
Qed.

Lemma on_file_trans i ip1 ip2 k1 k2 k3 :
  on_file c pi q i ip1 k1 k2 -> on_file c pi q i ip2 k2 k3 -> on_file c pi q i ip2 k1 k3.
Proof.
  intros [G1 E1] [G2 E2]. split; [by eapply stays_trans|]. rewrite E2, E1. cbn.
  by rewrite list_insert_insert_eq.
Qed.

Lemma on_file_blocks i ip k k' : inodes (k_fs k) !! i = Some ip -> blocks_only c pi q k k' -> on_file c pi q i ip k k'.
Proof. intros Hi [G E]. split; [done|]. rewrite list_insert_id, E by done. by destruct (k_fs k). Qed.

Lemma on_file_at i ip ip' k k' : inodes (k_fs k) !! i = Some ip' -> on_file c pi q i ip k k' -> inodes (k_fs k') !! i = Some ip.
Proof. intros Hi [_ E]. rewrite E. cbn. apply list_lookup_insert_eq. by eapply lookup_lt_Some. Qed.

Lemma on_file_layout i ip k k' : on_file c pi q i ip k k' -> layout k st s -> layout k' st s.
Proof.
  intros [_ E] [H1 H2 H3 H4 H5]. assert (sb (k_fs k') = sb (k_fs k) /\ disksize (k_fs k') = disksize (k_fs k)) as [E1 E2] by (by rewrite E).
  split; [congruence|done|done|congruence..].
Qed.

Lemma get_inode_eq k i ip : inodes (k_fs k) !! i = Some ip -> get_inode i k = Done ip k.
Proof. intros H. unfold get_inode, get_fs. kred. by rewrite H. Qed.

(** Writing the inode in memory. *)
Lemma upd_inode_eq k i ip f : inodes (k_fs k) !! i = Some ip ->
  upd_inode i f k = Done tt (set_k_fs (set_inodes (<[i := f ip]> (inodes (k_fs k))) (k_fs k)) k).
Proof.
  intros H. unfold upd_inode. rewrite bind_eq, (get_inode_eq _ _ _ H). cbn [res_bind]. unfold on_fs. kred.
  do 4 f_equal. apply list_eq. intros j. destruct (decide (i = j)) as [<-|Hne].
  - rewrite list_lookup_alter_eq, H, list_lookup_insert_eq; [done|]. by eapply lookup_lt_Some.
  - by rewrite list_lookup_alter_ne, list_lookup_insert_ne.
Qed.

Lemma tx_inodes k held homes v : tx k c pi q held st homes -> tx (set_k_fs (set_inodes v (k_fs k)) k) c pi q held st homes.
Proof.
  intros [H1 [order H2] H3 H4 H5 H6]. split; [by apply me_fs| |by destruct H3|done|done|done].
  exists order. by apply (cache_same k).
Qed.

Lemma on_file_set k i ip : me k c pi q -> inodes (k_fs k) !! i = Some ip -> forall ip',
  on_file c pi q i ip' k (set_k_fs (set_inodes (<[i := ip']> (inodes (k_fs k))) (k_fs k)) k).
Proof. intros Hm Hi ip'. split; [split; [split; [by apply me_fs|done]|done]|]. unfold cbufs. cbn. by destruct (k_fs k). Qed.

Lemma addr_or_alloc_there k i ip bn a :
  inodes (k_fs k) !! i = Some ip -> i_addrs ip !! bn = Some a -> a <> 0 -> addr_or_alloc i bn k = Done a k.
Proof.
  intros Hi Ha Hne. unfold addr_or_alloc. rewrite bind_eq, (get_inode_eq _ _ _ Hi). cbn [res_bind]. rewrite Ha. kred.
  by rewrite (proj2 (Z.eqb_neq _ _)).
Qed.

Lemma addr_or_alloc_new k homes i ip bn a :
  fsys k c pi q ∅ st homes s -> inodes (k_fs k) !! i = Some ip -> i_dev ip = 1 -> i_addrs ip !! bn = Some 0 ->
  first_free s (content k) a -> (length homes < 28)%nat ->
  runs (addr_or_alloc i bn) k (fun r k' => r = a /\ tx k' c pi q ∅ st (absorb a (absorb (BBLOCK a s) homes)) /\
    on_file c pi q i (set_i_addrs (<[bn := a]> (i_addrs ip)) ip) k k' /\
    forall y, content k' y = handed_out s (content k) a y).
Proof.
  intros [Ht Hla Hd] Hi Hdev Hbn Hff Hn. unfold runs, addr_or_alloc. rewrite bind_eq, (get_inode_eq _ _ _ Hi). cbn [res_bind].
  rewrite Hbn. kred. rewrite Z.eqb_refl, Hdev.
  wp_call (balloc_spec lost c pi q st s k ∅ homes a Ht Hla (do_meta _ _ Hd)); [| |done|rewrite size_empty; lia].
  2:{ intros j Hj. set_solver. }
  intros r k1 (-> & Ht1 & _ & Hb1 & Hc1). pose proof (on_file_blocks i ip k k1 Hi Hb1) as Hof.
  pose proof (on_file_at _ _ _ _ _ Hi Hof) as Hi1. rewrite bind_eq, (upd_inode_eq _ _ _ _ Hi1). cbn [res_bind]. kred.
  split; [done|]. split; [by apply tx_inodes|]. split; [|exact Hc1].
  eapply on_file_trans; [exact Hof|]. eapply on_file_set; [apply Ht1|exact Hi1].
Qed.

(** What [bmap] leaves: block [n] of the file is at [r]. *)
Record bmapped (k : K) (homes : list Z) (i : nat) (ip : inode) (n r : Z) (k' : K) (ip' : inode) (homes' : list Z) : Prop := {
  bm_sys : fsys k' c pi q ∅ st homes' s;
  bm_file : on_file c pi q i ip' k k';
  bm_ip : ip' = set_i_addrs (i_addrs ip') ip;
  bm_ok : inode_ok s (content k') ip';
  bm_addr : r = baddr (content k') ip' n /\ r <> 0;
  bm_rest : forall m, 0 <= m < 140 -> m <> n -> baddr (content k') ip' m = baddr (content k) ip m;
  bm_ind : ind ip' = ind ip \/ ~ in_use s (content k) (ind ip');
  bm_grows : grows s (content k) (content k') (ind ip);
  bm_same : baddr (content k) ip n <> 0 -> homes' = homes /\ ip' = ip /\ forall y, content k' y = content k y;
  bm_new : baddr (content k) ip n = 0 -> content k' r = block0 /\ ~ in_use s (content k) r;
  bm_homes : (length homes' <= length homes + 5)%nat;
  bm_plenty : forall p, plenty s (content k) (2 + p) -> plenty s (content k') p
}.

Lemma set_addrs_id ip : ip = set_i_addrs (i_addrs ip) ip.
Proof. by destruct ip. Qed.

Lemma plenty_mono d d' m p : (m <= p)%nat -> (forall b, 0 <= b < sb_size s -> free_in s d b -> free_in s d' b) -> plenty s d p -> plenty s d' m.
Proof.
  intros Hm Hd (l & Hnd & Hlen & Hl). exists (take m l). split; [|split].
  - rewrite <-(take_drop m l) in Hnd. by apply list.NoDup_app in Hnd as [? _].
  - rewrite length_take. lia.
  - apply Forall_take. eapply list.Forall_impl; [exact Hl|]. intros b [? ?]. auto.
Qed.

Lemma handed_out_left k d a b :
  layout k st s -> disk_ok s d -> first_free s d a -> 0 <= b < sb_size s -> free_in s d b -> b <> a ->
  free_in s (handed_out s d a) b.
Proof.
  intros Hla [Hl Hm] (Ha & Hf & _) Hb Hfb Hne. pose proof (Hm a Ha Hf).
  apply (handed_out_free st s k); [done|lia|done|apply Hl|done].
Qed.

Lemma handed_out_meta k d a y :
  layout k st s -> disk_ok s d -> first_free s d a -> y < sb_bmapstart s -> handed_out s d a y = d y.
Proof.
  intros Hla [Hl Hm] (Ha & Hf & _) Hy. pose proof (Hm a Ha Hf). destruct (layout_bitmap st s k a Hla Ha) as (_ & Hb & _).
  unfold handed_out, put. rewrite !decide_False by lia. done.
Qed.

Lemma plenty_out k d a p :
  layout k st s -> disk_ok s d -> first_free s d a -> plenty s d (S p) -> plenty s (handed_out s d a) p.
Proof. intros Hla Hd Hf Hp. eapply plenty_less; [exact Hp|]. intros b. by apply (handed_out_left k). Qed.

(** The block was there. *)
Lemma bmapped_there k homes i ip n k' :
  fsys k c pi q ∅ st homes s -> inode_ok s (content k) ip -> inodes (k_fs k) !! i = Some ip ->
  baddr (content k) ip n <> 0 -> tx k' c pi q ∅ st homes -> blocks_only c pi q k k' ->
  (forall y, content k' y = content k y) -> bmapped k homes i ip n (baddr (content k) ip n) k' ip homes.
Proof.
  intros [Ht Hla Hd] Hok Hi Hne Ht' Hb Hc. assert (forall m, baddr (content k') ip m = baddr (content k) ip m) as Hba.
  { intros m. by apply baddr_ext. }
  split.
  - split; [done|by eapply layout_frame|by eapply disk_ok_ext].
  - by apply on_file_blocks.
  - apply set_addrs_id.
  - eapply inode_ok_ext; [..|exact Hok]; [|done]. intros y. by rewrite (in_use_ext _ _ _ _ Hc).
  - by rewrite Hba.
  - done.
  - by left.
  - split; [by eapply disk_ok_ext|..].
    + intros y. by rewrite (in_use_ext _ _ _ _ Hc).
    + done.
    + intros b _. by rewrite (free_in_ext _ _ _ _ Hc).
    + done.
  - done.
  - done.
  - lia.
  - intros p Hp. eapply plenty_mono; [|..|exact Hp]; [lia|]. intros b _. by rewrite (free_in_ext _ _ _ _ Hc).
Qed.

(** A direct block is added. *)
Lemma bmapped_direct k homes i ip n a k' :
  fsys k c pi q ∅ st homes s -> inode_ok s (content k) ip -> inodes (k_fs k) !! i = Some ip ->
  0 <= n < 12 -> baddr (content k) ip n = 0 -> first_free s (content k) a ->
  tx k' c pi q ∅ st (absorb a (absorb (BBLOCK a s) homes)) ->
  on_file c pi q i (set_i_addrs (<[Z.to_nat n := a]> (i_addrs ip)) ip) k k' ->
  (forall y, content k' y = handed_out s (content k) a y) ->
  bmapped k homes i ip n a k' (set_i_addrs (<[Z.to_nat n := a]> (i_addrs ip)) ip) (absorb a (absorb (BBLOCK a s) homes)).
Proof.
  intros [Ht Hla Hd] Hok Hi Hn H0 Hff Ht' Hof Hc. set (ip' := set_i_addrs _ ip).
  pose proof (data_start_pos k st s Hla) as Hds.
  destruct (handed_out_facts k st s Hla (content k) a Hd Hff) as (Hd' & Hua & Hz & Hus & Hfr). set (d' := handed_out s (content k) a) in *.
  assert (ind ip' = ind ip) as Ei by (unfold ind, ip'; cbn; rewrite list_lookup_insert_ne by lia; done).
  pose proof (io_len _ _ _ Hok) as Hlen.
  assert (~ in_use s (content k) a) as Hnu by (intros [_ Hf]; by apply Hf, Hff).
  assert (a <> 0) as Ha0 by (destruct Hua; lia).
  assert (forall m, 0 <= m -> baddr (content k') ip' m = if decide (m = n) then a else baddr (content k) ip m) as Hba.
  { intros m Hm. unfold baddr. rewrite Ei. destruct (Z.ltb_spec m 12).
    - unfold ip'. cbn. case_decide as E; [subst; by rewrite list_lookup_insert_eq by lia|].
      by rewrite list_lookup_insert_ne by lia.
    - rewrite decide_False by lia. destruct (Z.eqb_spec (ind ip) 0); [done|]. rewrite Hc. fold d'.
      destruct (Hus (ind ip)) as [-> _]; [|done]. by apply (io_map _ _ _ Hok). }
  destruct (fresh_addr s (content k) ip a Hok Ha0 Hnu) as [Hfresh Hni].
  split.
  - split; [done|by eapply on_file_layout|by eapply disk_ok_ext].
  - done.
  - done.
  - split; [apply Hok|unfold ip'; cbn; by rewrite length_insert|apply Hok|]. rewrite Ei.
    apply (map_ok_add _ (baddr (content k) ip) _ _ n a); try done; try lia.
    + eapply map_ok_ext; [..|apply Hok]; [|done|done]. intros y Hy. rewrite (in_use_ext _ _ _ _ Hc). by apply Hus.
    + by rewrite (in_use_ext _ _ _ _ Hc).
    + intros m Hm. apply Hba. lia.
  - rewrite Hba by lia. by rewrite decide_True.
  - intros m Hm Hne. rewrite Hba by lia. by rewrite decide_False.
  - by left.
  - eapply (grows_ext s (content k) d'); [done|done|]. split; [done|..].
    + intros y Hy. by apply Hus.
    + intros y Hy _. by apply Hus.
    + intros b Hb Hf. by apply Hfr.
    + intros y Hy. by apply (handed_out_meta k).
  - done.
  - intros _. split; [|done]. by rewrite Hc.
  - pose proof (absorb_length a (absorb (BBLOCK a s) homes)). pose proof (absorb_length (BBLOCK a s) homes). lia.
  - intros p Hp. apply (plenty_mono d' _ p (S p)); [lia| |by apply (plenty_out k)].
    intros b _. by rewrite (free_in_ext _ _ _ _ Hc).
Qed.

(** An entry is added to the indirect block. *)
Lemma bmapped_entry k homes i ip n a k' homes' :
  fsys k c pi q ∅ st homes s -> inode_ok s (content k) ip -> inodes (k_fs k) !! i = Some ip ->
  12 <= n < 140 -> ind ip <> 0 -> baddr (content k) ip n = 0 -> first_free s (content k) a ->
  tx k' c pi q ∅ st homes' -> (length homes' <= length homes + 3)%nat -> blocks_only c pi q k k' ->
  (forall y, content k' y = put (handed_out s (content k) a) (ind ip)
     (put_word (content k (ind ip)) (4 * Z.to_nat (n - 12)) a) y) ->
  bmapped k homes i ip n a k' ip homes'.
Proof.
  intros [Ht Hla Hd] Hok Hi Hn Hind H0 Hff Ht' Hlen Hb Hc.
  pose proof (data_start_pos k st s Hla) as Hds. pose proof (la_size _ _ _ Hla) as Hsz. pose proof (la_disk _ _ _ Hla) as Hdk.
  destruct (handed_out_facts k st s Hla (content k) a Hd Hff) as (Hd1 & Hua & Hz & Hus & Hfr). set (d1 := handed_out s (content k) a) in *.
  pose proof (mo_ind _ _ _ (io_map _ _ _ Hok) Hind) as Hui. pose proof (do_len _ _ Hd (ind ip)) as Hli.
  assert (length (put_word (content k (ind ip)) (4 * Z.to_nat (n - 12)) a) = 512%nat) as Hl by (rewrite length_put_word by lia; lia).
  destruct (write_facts k st s Hla d1 (ind ip) _ Hd1 (fun b Hb => bitmap_not_data k st s Hla b _ Hb (proj1 (proj1 Hui))) Hl) as (Hd2 & Hf2 & Hu2 & Hx2 & Hy2).
  set (d2 := put d1 (ind ip) _) in *.
  assert (~ in_use s (content k) a) as Hnu by (intros [_ Hf]; by apply Hf, Hff).
  assert (a <> 0) as Ha0 by (destruct Hua; lia). destruct (fresh_addr s (content k) ip a Hok Ha0 Hnu) as [Hfresh Hni].
  assert (forall m, 0 <= m < 140 -> baddr (content k') ip m = if decide (m = n) then a else baddr (content k) ip m) as Hba.
  { intros m Hm. unfold baddr. rewrite Hc, Hx2. destruct (Z.ltb_spec m 12); [by rewrite decide_False by lia|].
    rewrite (proj2 (Z.eqb_neq _ _)) by done. case_decide as E.
    - subst. rewrite word_at_put_word by lia. apply u32_small. destruct Hua. lia.
    - apply word_at_put_word_out; lia. }
  assert (forall y, in_use s (content k') y <-> in_use s d1 y) as Hu by (intros y; rewrite (in_use_ext _ _ _ _ Hc); apply Hu2).
  split.
  - split; [done|by eapply layout_frame|by eapply disk_ok_ext].
  - by apply on_file_blocks.
  - apply set_addrs_id.
  - split; [apply Hok..|]. apply (map_ok_add _ (baddr (content k) ip) _ _ n a); try done; try lia.
    + eapply map_ok_ext; [..|apply Hok]; [|done|done]. intros y Hy. by apply Hu, Hus.
    + by apply Hu.
  - rewrite Hba by lia. by rewrite decide_True.
  - intros m Hm Hne. rewrite Hba by lia. by rewrite decide_False.
  - by left.
  - eapply (grows_ext s (content k) d2); [done|done|]. split; [done|..].
    + intros y Hy. by apply Hu2, Hus.
    + intros y Hy Hne. rewrite Hy2 by done. by apply Hus.
    + intros b Hb' Hf. apply Hfr; [done|]. by apply Hf2.
    + intros y Hy. rewrite Hy2; [by apply (handed_out_meta k)|]. intros ->.
      destruct (layout_bitmap st s k 0 Hla ltac:(lia)) as (_ & Hbm & _). destruct Hui. lia.
  - done.
  - intros _. split; [|done]. rewrite Hc, Hy2 by done. done.
  - lia.
  - intros p Hp. apply (plenty_mono d1 _ p (S p)); [lia| |by apply (plenty_out k)].
    intros b Hb' Hf. rewrite (free_in_ext _ _ _ _ Hc). by apply Hf2.
Qed.

(** The second half of [bmap], for a block behind the indirect block. *)
Definition bmap_entry (i : nat) (addr bn : Z) : M K Z :=
  ip <- get_inode i ;;
  bp <- bread (i_dev ip) addr ;;
  bb <- get_buf bp ;;
  let addr := word_at (b_data bb) (4 * Z.to_nat bn) in
  addr <- (if addr =? 0 then
             addr <- balloc (i_dev ip) ;;
             upd_buf bp (fun bb => set_b_data (put_word (b_data bb) (4 * Z.to_nat bn) addr) bb) ;;
             log_write bp ;;
             ret addr
           else ret addr) ;;
  brelse bp ;;
  ret addr.

Lemma bmap_entry_spec k homes i ip n :
  fsys k c pi q ∅ st homes s -> inode_ok s (content k) ip -> inodes (k_fs k) !! i = Some ip ->
  12 <= n < 140 -> ind ip <> 0 -> (baddr (content k) ip n = 0 -> plenty s (content k) 1) -> (length homes < 26)%nat ->
  runs (bmap_entry i (ind ip) (n - 12)) k (fun r k' => exists ip' homes', bmapped k homes i ip n r k' ip' homes' /\
    (length homes' <= length homes + 3)%nat /\ forall p, plenty s (content k) (1 + p) -> plenty s (content k') p).
Proof.
  intros Hfs Hok Hi Hn Hind Hp Hh. pose proof Hfs as [Ht Hla Hd].
  pose proof (mo_ind _ _ _ (io_map _ _ _ Hok) Hind) as Hui. pose proof (la_size _ _ _ Hla) as Hsz. pose proof (la_disk _ _ _ Hla) as Hdk.
  unfold runs, bmap_entry. rewrite bind_eq, (get_inode_eq _ _ _ Hi). cbn [res_bind]. rewrite (io_dev _ _ _ Hok).
  wp_call (tx_bread lost k c pi q ∅ st homes (ind ip) Ht ltac:(intros ? ?; set_solver) ltac:(destruct Hui; lia) ltac:(rewrite size_empty; lia)).
  intros b k1 (Ht1 & Hbn & Hhas & _ & Hb1 & Hc1). assert (b ∈ {[b]} ∪ (∅ : gset nat)) as Hin by set_solver.
  destruct (tx_get_buf _ _ _ _ _ _ _ _ _ Ht1 Hin Hhas) as (bb & Eb & Edd & Elen). rewrite bind_eq, Eb. cbn [res_bind]. cbv zeta.
  rewrite Edd, Hc1.
  assert (baddr (content k) ip n = word_at (content k (ind ip)) (4 * Z.to_nat (n - 12))) as Eba.
  { unfold baddr. rewrite (proj2 (Z.ltb_ge n 12)), (proj2 (Z.eqb_neq (ind ip) 0)) by (done || lia). done. }
  rewrite <-Eba. destruct (Z.eqb_spec (baddr (content k) ip n) 0) as [E0|E0].
  - destruct (plenty_first s (content k) 0 (Hp E0)) as [a Ha].
    assert (held_used s k1 ({[b]} ∪ ∅)) as Hhu.
    { intros j Hj. assert (j = b) as -> by set_solver. exists (ind ip). split; [done|]. destruct Hui as [? Hnf].
      split; [lia|]. by rewrite (free_in_ext _ _ _ _ Hc1). }
    assert (first_free s (content k1) a) as Ha1.
    { destruct Ha as (H1 & H2 & H3). split; [done|]. split; [by rewrite (free_in_ext _ _ _ _ Hc1)|].
      intros b' Hb'. rewrite (free_in_ext _ _ _ _ Hc1). by apply H3. }
    pose proof (disk_ok_ext _ _ _ Hc1 Hd) as Hd1. pose proof (layout_frame _ _ _ _ _ _ _ Hb1 Hla) as Hla1.
    rewrite !bind_eq, !wp_bind.
    eapply wp_mono; [|apply (balloc_spec lost c pi q st s k1 _ homes a Ht1 Hla1 (do_meta _ _ Hd1) Hhu Ha1)].
    2:{ rewrite union_empty_r_L, size_singleton. lia. }
    intros r k2 (-> & Ht2 & Hk2 & Hb2 & Hc2). apply wp_assoc.
    pose proof (Hk2 _ _ Hin Hhas) as Hhas2. destruct (blocks_only_disk _ _ _ _ _ Hb2) as (Eds2 & _).
    destruct (blocks_only_disk _ _ _ _ _ Hb1) as (Eds1 & _).
    assert (content k2 (ind ip) = content k (ind ip)) as Eind.
    { rewrite Hc2, <-Hc1. destruct (handed_out_facts k1 st s Hla1 (content k1) a Hd1 Ha1) as (_ & _ & _ & Hus & _).
      apply Hus. by rewrite (in_use_ext _ _ _ _ Hc1). }
    pose proof (absorb_length a (absorb (BBLOCK a s) homes)) as Hl1. pose proof (absorb_length (BBLOCK a s) homes) as Hl2.
    eapply wp_mono; [|apply (tx_modify k2 c pi q _ st _ b (ind ip) _
      (put_word (content k (ind ip)) (4 * Z.to_nat (n - 12)) a) Ht2 Hin Hhas2)].
    + intros ? k3 (Ht3 & Hk3 & Hb3 & Hc3). kred. cbn [wp].
      wp_call (tx_brelse lost k3 c pi q _ st _ b _ Ht3 Hin (Hk3 _ _ Hin Hhas2)). intros ? k4 (Ht4 & _ & Hb4 & Hc4). kred.
      replace (({[b]} ∪ (∅ : gset nat)) ∖ {[b]}) with (∅ : gset nat) in * by set_solver.
      pose proof (absorb_length (ind ip) (absorb a (absorb (BBLOCK a s) homes))) as Hl3.
      eexists ip, _. split; [eapply bmapped_entry; try done|split; [lia|]].
      * lia.
      * eapply blocks_only_trans; [exact Hb1|]. eapply blocks_only_trans; [exact Hb2|]. by eapply blocks_only_trans.
      * intros y. rewrite Hc4, Hc3. unfold put. case_decide; [done|]. rewrite Hc2. unfold handed_out, put. by rewrite !Hc1.
      * intros p Hp'. eapply (plenty_mono (handed_out s (content k) a)); [reflexivity| |by apply (plenty_out k)].
        intros b' Hb' Hf. unfold free_in in *. rewrite Hc4, Hc3, decide_False by (by apply (bitmap_not_data k st); [..|apply Hui]).
        rewrite Hc2. unfold handed_out, put in *. by rewrite !Hc1.
    + apply (layout_data st s k); [done|apply Hui].
    + rewrite Eds2, Eds1. apply (layout_data st s k); [done|apply Hui].
    + rewrite length_put_word; rewrite (do_len _ _ Hd); lia.
    + intros b0 Eb0. rewrite Eb0, Eind. done.
    + lia.
  - kred. wp_call (tx_brelse lost k1 c pi q _ st homes b _ Ht1 Hin Hhas). intros ? k2 (Ht2 & _ & Hb2 & Hc2). kred.
    replace (({[b]} ∪ (∅ : gset nat)) ∖ {[b]}) with (∅ : gset nat) in * by set_solver.
    assert (forall y, content k2 y = content k y) as Hc by (intros y; by rewrite Hc2).
    exists ip, homes. split; [apply bmapped_there; try done; by eapply blocks_only_trans|]. split; [lia|].
    intros p Hp'. eapply plenty_mono; [|..|exact Hp']; [lia|]. intros b' _. by rewrite (free_in_ext _ _ _ _ Hc).
Qed.

Lemma block0_word off : (off + 4 <= 512)%nat -> word_at block0 off = 0.
Proof.
  intros H. unfold word_at, slice, block0. change (Z.to_nat BSIZE) with 512%nat.
  rewrite drop_replicate, take_replicate. by rewrite Nat.min_l by lia.
Qed.

(** The indirect block is added to the inode, empty. *)
Lemma added_indirect k homes i ip a k1 :
  fsys k c pi q ∅ st homes s -> inode_ok s (content k) ip -> inodes (k_fs k) !! i = Some ip -> ind ip = 0 ->
  first_free s (content k) a -> on_file c pi q i (set_i_addrs (<[12%nat := a]> (i_addrs ip)) ip) k k1 ->
  (forall y, content k1 y = handed_out s (content k) a y) ->
  let ip1 := set_i_addrs (<[12%nat := a]> (i_addrs ip)) ip in
  ind ip1 = a /\ a <> 0 /\ inode_ok s (content k1) ip1 /\ disk_ok s (content k1) /\
  (forall m, 0 <= m < 140 -> baddr (content k1) ip1 m = baddr (content k) ip m) /\
  (forall y, in_use s (content k) y -> content k1 y = content k y /\ in_use s (content k1) y /\ y <> a) /\
  (forall b, 0 <= b < sb_size s -> free_in s (content k1) b -> free_in s (content k) b).
Proof.
  intros [Ht Hla Hd] Hok Hi H0 Hff Hof Hc ip1. pose proof (io_len _ _ _ Hok) as Hlen.
  pose proof (data_start_pos k st s Hla) as Hds.
  destruct (handed_out_facts k st s Hla (content k) a Hd Hff) as (Hd' & Hua & Hz & Hus & Hfr).
  assert (ind ip1 = a) as Ei by (unfold ind, ip1; cbn; by rewrite list_lookup_insert_eq by lia).
  assert (a <> 0) as Ha0 by (destruct Hua; lia).
  assert (~ in_use s (content k) a) as Hnu by (intros [_ Hf]; by apply Hf, Hff).
  destruct (fresh_addr s (content k) ip a Hok Ha0 Hnu) as [Hfresh _].
  assert (forall m, 0 <= m < 140 -> baddr (content k1) ip1 m = baddr (content k) ip m) as Hba.
  { intros m Hm. unfold baddr. rewrite Ei, H0. destruct (Z.ltb_spec m 12).
    - unfold ip1. cbn. by rewrite list_lookup_insert_ne by lia.
    - rewrite (proj2 (Z.eqb_neq _ _)) by done. rewrite Hc, Hz. apply block0_word. lia. }
  assert (forall y, in_use s (content k1) y <-> in_use s (handed_out s (content k) a) y) as Hu by (intros y; by apply in_use_ext).
  split; [done|]. split; [done|]. split; [|split; [by eapply disk_ok_ext|split; [done|split]]].
  - split; [apply Hok|unfold ip1; cbn; by rewrite length_insert|apply Hok|]. rewrite Ei. destruct (io_map _ _ _ Hok) as [M1 M2 M3]. split.
    + intros m Hm. rewrite Hba by done. intros Hne. destruct (M1 m Hm Hne). split; [by apply Hu, Hus|]. by apply Hfresh.
    + intros _. by apply Hu.
    + intros m m' Hm Hm'. rewrite !Hba by done. by apply M3.
  - intros y Hy. destruct (Hus y Hy) as (E & Hy' & Hne). split; [by rewrite Hc|]. split; [by apply Hu|done].
  - intros b Hb. rewrite (free_in_ext _ _ _ _ Hc). intros Hf. by apply Hfr.
Qed.

Lemma bmap_spec k homes i ip n :
  fsys k c pi q ∅ st homes s -> inode_ok s (content k) ip -> inodes (k_fs k) !! i = Some ip ->
  0 <= n < 140 -> (baddr (content k) ip n = 0 -> plenty s (content k) 2) -> (length homes < 24)%nat ->
  runs (bmap i n) k (fun r k' => exists ip' homes', bmapped k homes i ip n r k' ip' homes').
Proof.
  intros Hfs Hok Hi Hn Hp Hh. pose proof Hfs as [Ht Hla Hd]. pose proof (io_len _ _ _ Hok) as Hlen.
  unfold runs, bmap. change NDIRECT with 12. change NINDIRECT with 128. destruct (Z.ltb_spec n 12) as [Hd12|Hd12].
  - destruct (lookup_lt_is_Some_2 (i_addrs ip) (Z.to_nat n)) as [a0 Ea0]; [lia|].
    assert (baddr (content k) ip n = a0) as Eb by (unfold baddr; rewrite (proj2 (Z.ltb_lt n 12)), Ea0 by lia; done).
    destruct (decide (a0 = 0)) as [->|Hne].
    + destruct (plenty_first s (content k) 1 (Hp Eb)) as [a Ha].
      eapply wp_mono; [|apply (addr_or_alloc_new k homes i ip (Z.to_nat n) a Hfs Hi (io_dev _ _ _ Hok) Ea0 Ha); lia].
      intros r k' (-> & Ht' & Hof & Hc). eexists _, _. eapply bmapped_direct; (done || lia).
    + rewrite (addr_or_alloc_there _ _ _ _ _ Hi Ea0 Hne). cbn [wp]. exists ip, homes. rewrite <-Eb.
      apply bmapped_there; try done; [by rewrite Eb|]. by apply blocks_only_refl, Ht.
  - rewrite (proj2 (Z.ltb_lt (n - 12) 128)) by lia. change (Z.to_nat 12) with 12%nat.
    destruct (lookup_lt_is_Some_2 (i_addrs ip) 12%nat) as [a0 Ea0]; [lia|].
    assert (ind ip = a0) as Ei by (unfold ind; by rewrite Ea0).
    destruct (decide (a0 = 0)) as [->|Hne].
    + assert (baddr (content k) ip n = 0) as Eb by (unfold baddr; by rewrite (proj2 (Z.ltb_ge n 12)), Ei by lia).
      specialize (Hp Eb). destruct (plenty_first s (content k) 1 Hp) as [a Ha].
      wp_call (addr_or_alloc_new k homes i ip 12 a Hfs Hi (io_dev _ _ _ Hok) Ea0 Ha ltac:(lia)).
      intros r k1 (-> & Ht1 & Hof & Hc). set (ip1 := set_i_addrs (<[12%nat := a]> (i_addrs ip)) ip) in *.
      destruct (added_indirect k homes i ip a k1 Hfs Hok Hi Ei Ha Hof Hc) as (Ei1 & Ha0 & Hok1 & Hd1 & Hba & Hus & Hfr). fold ip1 in Ei1, Hok1, Hba.
      pose proof (on_file_at _ _ _ _ _ Hi Hof) as Hi1. pose proof (on_file_layout _ _ _ _ Hof Hla) as Hla1.
      pose proof (absorb_length a (absorb (BBLOCK a s) homes)) as Hl1. pose proof (absorb_length (BBLOCK a s) homes) as Hl2.
      assert (forall p, plenty s (content k) (S p) -> plenty s (content k1) p) as Hpl.
      { intros p Hp'. eapply (plenty_mono (handed_out s (content k) a)); [reflexivity| |by apply (plenty_out k)].
        intros b Hb. by rewrite (free_in_ext _ _ _ _ Hc). }
      rewrite <-Ei1.
      eapply wp_mono; [|apply (bmap_entry_spec k1 _ i ip1 n (Build_fsys _ _ _ _ _ _ _ _ Ht1 Hla1 Hd1) Hok1 Hi1); try done; try lia; intros _; by apply Hpl].
      intros r k2 (ip2 & homes2 & [B1 B2 B3 B4 B5 B6 BI B7 B8 B9 B10 B11] & Hl3 & Hp2). exists ip2, homes2. split; try done.
      * by eapply on_file_trans.
      * intros m Hm Hne. rewrite B6, Hba by done. done.
      * right. destruct BI as [->|Hni]; [rewrite Ei1; intros [_ Hnf]; by apply Hnf, Ha|]. intros Hy. by apply Hni, Hus.
      * destruct B7 as [G1 G2 G3 G4 G5]. split; [done|..].
        -- intros y Hy. by apply G2, Hus.
        -- intros y Hy Hne. destruct (Hus y Hy) as (E & Hy1 & Hya). rewrite G3; [done|done|]. by rewrite Ei1.
        -- intros b Hb Hf. by apply Hfr, G4.
        -- intros y Hy. rewrite G5, Hc by done. by apply (handed_out_meta k).
      * intros _. destruct B9 as [E Hnu]; [by rewrite Hba|]. split; [done|]. intros Hy. by apply Hnu, Hus.
      * lia.
      * intros p Hp'. apply Hp2, Hpl. done.
    + rewrite bind_eq, (addr_or_alloc_there _ _ _ _ _ Hi Ea0 Hne). cbn [res_bind]. rewrite <-Ei in *.
      eapply wp_mono; [|apply (bmap_entry_spec k homes i ip n Hfs Hok Hi); try done; try lia].
      * intros r k' (ip' & homes' & Hb & _). by exists ip', homes'.
      * intros E0. eapply plenty_mono; [|..|exact (Hp E0)]; [lia|done].
Qed.

End FileSpec.
