(* ===== verification/RwSpec.v ===== *)
(** * Reading and writing files (fs.c: readi, writei, iupdate)

    [readi] returns a part of the bytes of a file; [writei] replaces a part of
    them or appends to them, leaves the blocks of all other files alone and
    brings the inode on disk in line. *)

From S2P Require Import Prelude Params State Spinlock Seg Proc ProcSpec ProcRefine SleepWake FsState Sleeplock Demo DemoFs.
From S2P Require Import SleeplockSpec Ring BlockDev Ide Memide Bio BioSpec Log LogSpec TxSpec Inode BlockTx Balloc Console Fs FileSpec.

(** [len] bytes of the file from [off] on. *)
Definition frange (d : Z -> list Z) (ip : inode) (off : Z) (len : nat) : list Z :=
  (fun j => fbyte d ip (off + j)) <$> zseq len.

Lemma zseq_app a b : zseq (a + b) = zseq a ++ ((fun j => Z.of_nat a + j) <$> zseq b).
Proof.
  unfold zseq. rewrite seq_app, fmap_app. f_equal. rewrite Nat.add_comm, <-(fmap_add_seq a), <-!list_fmap_compose.
  apply list_fmap_ext. intros ? x _. cbn. lia.
Qed.

Lemma length_zseq n : length (zseq n) = n.
Proof. unfold zseq. by rewrite length_fmap, length_seq. Qed.

Lemma lookup_zseq n (j : nat) : (j < n)%nat -> zseq n !! j = Some (Z.of_nat j).
Proof. intros H. unfold zseq. by rewrite list_lookup_fmap, lookup_seq_lt by done. Qed.

Lemma frange_app d ip off a b : frange d ip off (a + b) = frange d ip off a ++ frange d ip (off + Z.of_nat a) b.
Proof.
  unfold frange. rewrite zseq_app, fmap_app. f_equal. rewrite <-list_fmap_compose. apply list_fmap_ext. intros ? x _. cbn. f_equal. lia.
Qed.

Lemma length_frange d ip off len : length (frange d ip off len) = len.
Proof. unfold frange. by rewrite length_fmap, length_zseq. Qed.

Lemma frange_lookup d ip off len (j : nat) : (j < len)%nat -> frange d ip off len !! j = Some (fbyte d ip (off + Z.of_nat j)).
Proof. intros H. unfold frange. by rewrite list_lookup_fmap, lookup_zseq by done. Qed.

(** A part of the file's bytes. *)
Lemma slice_file_bytes d ip off len :
  0 <= off -> off + Z.of_nat len <= i_size ip -> slice (file_bytes d ip) (Z.to_nat off) len = frange d ip off len.
Proof.
  intros H0 H1. unfold slice, file_bytes. apply (list_eq_same_length _ _ len).
  - by rewrite length_frange.
  - rewrite length_take, length_drop, length_fmap, length_zseq. lia.
  - intros j x y Hj Hx Hy. rewrite frange_lookup in Hy by done.
    apply lookup_take_Some in Hx as [Hx _]. rewrite lookup_drop, list_lookup_fmap, lookup_zseq in Hx by lia. cbn in Hx.
    simplify_eq. f_equal. lia.
Qed.

Lemma same_block off j : 0 <= j -> off `mod` 512 + j < 512 -> (off + j) / 512 = off / 512 /\ (off + j) `mod` 512 = off `mod` 512 + j.
Proof.
  intros Hj Hm. pose proof (Z.div_mod off 512). pose proof (Z.mod_pos_bound off 512).
  pose proof (Z.div_mod (off + j) 512). pose proof (Z.mod_pos_bound (off + j) 512). lia.
Qed.

(** The bytes of one block. *)
Lemma slice_block d ip off m :
  0 <= off -> length (d (baddr d ip (off / 512))) = 512%nat -> off `mod` 512 + Z.of_nat m <= 512 ->
  slice (d (baddr d ip (off / 512))) (Z.to_nat (off `mod` 512)) m = frange d ip off m.
Proof.
  intros H0 Hl Hm. pose proof (Z.mod_pos_bound off 512). unfold slice. apply (list_eq_same_length _ _ m).
  - by rewrite length_frange.
  - rewrite length_take, length_drop, Hl. lia.
  - intros j x y Hj Hx Hy. rewrite frange_lookup in Hy by done. injection Hy as <-.
    apply lookup_take_Some in Hx as [Hx _]. rewrite lookup_drop in Hx. unfold fbyte.
    destruct (same_block off (Z.of_nat j)) as [-> ->]; [lia|lia|].
    rewrite Z2Nat.inj_add, Nat2Z.id by lia. by rewrite Hx.
Qed.

(** ** Inodes on disk *)

(** The fields have the width they have on disk. *)
Definition fits (d : dinode) : Prop :=
  Forall (fun z => - 2 ^ 15 <= z < 2 ^ 15) [d_type d; d_major d; d_minor d; d_nlink d] /\ 0 <= d_size d < 2 ^ 32 /\
  length (d_addrs d) = 13%nat /\ Forall (fun a => 0 <= a < 2 ^ 32) (d_addrs d).

Lemma slice_slice {A} (l : list A) i n j m : (j + m <= n)%nat -> slice (slice l i n) j m = slice l (i + j) m.
Proof. intros H. unfold slice. rewrite skipn_firstn_comm, take_take, drop_drop. f_equal. lia. Qed.

(** A record is read from its 64 bytes. *)
Lemma get_dinode_slice bs off : get_dinode bs off = get_dinode (slice bs off 64) 0.
Proof.
  unfold get_dinode, half_at, word_at, words_at. rewrite !slice_slice by lia. rewrite Nat.add_0_r. f_equal.
  apply list_fmap_ext. intros j x Hx. apply lookup_seq in Hx as [-> Hj]. unfold word_at. rewrite slice_slice by lia. f_equal. f_equal. lia.
Qed.

Lemma s16_mod z : - 2 ^ 15 <= z < 2 ^ 15 -> s16 (z `mod` 256 ^ 2) = z.
Proof.
  intros H. unfold s16, swrap. change (256 ^ 2) with (2 ^ 16). rewrite Zplus_mod_idemp_l, Z.mod_small; lia.
Qed.

(** What is read back from the bytes of a record is the record. *)
Lemma get_dinode_bytes d : fits d -> get_dinode (dinode_bytes d) 0 = d /\ length (dinode_bytes d) = 64%nat.
Proof.
  destruct d as [ty ma mi nl sz ad]. intros (H1 & H2 & H3 & H4). cbn in H1, H2, H3, H4.
  do 14 (destruct ad as [|? ad]; try discriminate H3). split; [|done].
  repeat match goal with H : Forall _ (_ :: _) |- _ => apply list.Forall_cons in H as [? ?] end.
  transitivity (mkDinode (s16 (le_val (le_bytes 2 ty))) (s16 (le_val (le_bytes 2 ma))) (s16 (le_val (le_bytes 2 mi)))
    (s16 (le_val (le_bytes 2 nl))) (le_val (le_bytes 4 sz)) ((fun z => le_val (le_bytes 4 z)) <$> [z; z0; z1; z2; z3; z4; z5; z6; z7; z8; z9; z10; z11])); [reflexivity|].
  rewrite !le_val_bytes. change (Z.of_nat 2) with 2. rewrite !s16_mod by done. f_equal.
  - by apply Z.mod_small.
  - cbn [fmap list_fmap]. rewrite !le_val_bytes. by rewrite !Z.mod_small by done.
Qed.

Lemma get_put_dinode bs off d : fits d -> (off + 64 <= length bs)%nat -> get_dinode (put_dinode bs off d) off = d.
Proof.
  intros Hf Hl. destruct (get_dinode_bytes d Hf) as [E El]. rewrite get_dinode_slice. unfold put_dinode.
  rewrite <-El at 1. rewrite slice_splice; [done|lia].
Qed.

Lemma get_put_dinode_out bs off off' d : fits d -> (off + 64 <= length bs)%nat -> (off' + 64 <= off \/ off + 64 <= off')%nat ->
  get_dinode (put_dinode bs off d) off' = get_dinode bs off'.
Proof.
  intros Hf Hl Ho. destruct (get_dinode_bytes d Hf) as [_ El]. rewrite get_dinode_slice, (get_dinode_slice bs).
  unfold put_dinode. by rewrite slice_splice_out by lia.
Qed.

Section RwSpec.
Context {LK : Linker} {FU : Fuel}.
Context (lost : gmap (Z * Z) (list Z) -> Z -> bool).
Implicit Types (k : K).

#[local] Instance rw_power : BlockDev := power lost.

Context (c pi : nat) (q st : Z) (s : superblock).

(** Nothing has changed but which blocks are in memory. *)
Definition unchanged (homes : list Z) (k k' : K) : Prop :=
  fsys k' c pi q ∅ st homes s /\ blocks_only c pi q k k' /\ forall y, content k' y = content k y.

Lemma unchanged_refl homes k : fsys k c pi q ∅ st homes s -> unchanged homes k k.
Proof. intros H. split; [done|]. split; [|done]. apply blocks_only_refl, H. Qed.

Lemma unchanged_trans homes k1 k2 k3 : unchanged homes k1 k2 -> unchanged homes k2 k3 -> unchanged homes k1 k3.
Proof.
  intros (F1 & B1 & C1) (F2 & B2 & C2). split; [done|]. split; [by eapply blocks_only_trans|]. intros y. by rewrite C2.
Qed.

Lemma fsys_same homes k k' :
  fsys k c pi q ∅ st homes s -> tx k' c pi q ∅ st homes -> blocks_only c pi q k k' -> (forall y, content k' y = content k y) ->
  unchanged homes k k'.
Proof.
  intros [Ht Hla Hd] Ht' Hb Hc. split; [|done]. split; [done|by eapply layout_frame|by eapply disk_ok_ext].
Qed.

Lemma frange_ext d d' ip off len : (forall y, d' y = d y) -> frange d' ip off len = frange d ip off len.
Proof.
  intros H. unfold frange, fbyte. apply list_fmap_ext. intros ? j _. rewrite (baddr_ext d d') by auto. by rewrite H.
Qed.

Lemma on_inode_ok homes k k' ip i :
  unchanged homes k k' -> inode_ok s (content k) ip -> inodes (k_fs k) !! i = Some ip ->
  inode_ok s (content k') ip /\ inodes (k_fs k') !! i = Some ip.
Proof.
  intros (_ & Hb & Hc) Hok Hi. split.
  - eapply inode_ok_ext; [..|exact Hok]; [|auto]. intros y. by rewrite (in_use_ext _ _ _ _ Hc).
  - by destruct (blocks_only_disk _ _ _ _ _ Hb) as (_ & -> & _).
Qed.

(** The block of the file at [off] is found. *)
Lemma bmap_there k homes i ip off :
  fsys k c pi q ∅ st homes s -> inode_ok s (content k) ip -> inodes (k_fs k) !! i = Some ip ->
  0 <= off < 140 * 512 -> baddr (content k) ip (off / 512) <> 0 -> (length homes < 24)%nat ->
  runs (bmap i (off / BSIZE)) k (fun a k' => a = baddr (content k) ip (off / 512) /\ unchanged homes k k').
Proof.
  intros Hfs Hok Hi Ho Hba Hh. change BSIZE with 512.
  assert (0 <= off / 512 < 140) by (split; [apply Z.div_pos; lia|apply Z.div_lt_upper_bound; lia]).
  eapply runs_mono; [apply (bmap_spec lost c pi q st s k homes i ip (off / 512) Hfs Hok Hi ltac:(lia) ltac:(done) Hh)|].
  intros a k1 (ip' & homes' & [B1 [B2 B2'] _ B4 [-> Ha] _ _ _ B8 _ _ _]). destruct (B8 Hba) as (-> & -> & Hc1).
  split; [apply baddr_ext; auto|]. split; [done|]. split; [|done]. split; [done|].
  rewrite B2', list_insert_id by done. by destruct (k_fs k).
Qed.

Lemma read_blocks_spec i ip homes n : forall fuel k off tot got,
  fsys k c pi q ∅ st homes s -> inode_ok s (content k) ip -> inodes (k_fs k) !! i = Some ip -> complete (content k) ip ->
  (length homes < 24)%nat -> 0 <= off -> 0 <= tot <= n -> off + (n - tot) <= i_size ip ->
  (tot < n -> (n - tot) + off `mod` 512 <= 512 * Z.of_nat fuel) ->
  runs (read_blocks fuel i DLocal off n tot got) k (fun bs k' =>
    bs = got ++ frange (content k) ip off (Z.to_nat (n - tot)) /\ unchanged homes k k').
Proof.
  induction fuel as [|fuel IH]; intros k off tot got Hfs Hok Hi Hcp Hh H0 Ht Hn Hf; unfold runs; cbn [read_blocks].
  all: pose proof (Z.mod_pos_bound off 512 ltac:(lia)) as Hmod.
  all: destruct (Z.ltb_spec tot n) as [Hlt|Hge]; cbn [negb]; [|kred; split; [|by apply unchanged_refl]].
  - exfalso. lia.
  - replace (n - tot) with 0 by lia. cbn. by rewrite app_nil_r.
  - rewrite bind_eq, (get_inode_eq _ _ _ Hi). cbn [res_bind]. pose proof (io_size _ _ _ Hok) as [Hsz _].
    pose proof (Z.div_mod off 512 ltac:(lia)) as Hdm. change BSIZE with 512.
    assert (baddr (content k) ip (off / 512) <> 0) as Hba by (apply Hcp; [apply Z.div_pos; lia|lia]).
    wp_call (bmap_there k homes i ip off Hfs Hok Hi ltac:(lia) Hba Hh). intros a k1 (-> & Hu1).
    destruct (on_inode_ok _ _ _ _ _ Hu1 Hok Hi) as [Hok1 Hi1]. pose proof Hu1 as ([Ht1 Hla1 Hd1] & Hb1 & Hc1).
    rewrite (io_dev _ _ _ Hok). set (x := baddr (content k) ip (off / 512)) in *.
    assert (in_use s (content k) x) as [Hx _].
    { apply (io_map _ _ _ Hok); [|done]. split; [apply Z.div_pos; lia|apply Z.div_lt_upper_bound; lia]. }
    pose proof (la_size _ _ _ Hla1) as Hsz1.
    wp_call (tx_bread lost k1 c pi q ∅ st homes x Ht1 ltac:(intros ? ?; set_solver) ltac:(lia) ltac:(rewrite size_empty; lia)).
    intros b k2 (Ht2 & _ & Hhas & _ & Hb2 & Hc2). assert (b ∈ {[b]} ∪ (∅ : gset nat)) as Hin by set_solver.
    destruct (tx_get_buf _ _ _ _ _ _ _ _ _ Ht2 Hin Hhas) as (bb & Eb & Edd & Elen). rewrite bind_eq, Eb. cbn [res_bind]. cbv zeta.
    set (m := Z.min (n - tot) (512 - off `mod` 512)). assert (m = Z.min (n - tot) (512 - off `mod` 512)) as Em by done. rewrite bind_eq. cbn [put_dest]. kred.
    wp_call (tx_brelse lost k2 c pi q _ st homes b _ Ht2 Hin Hhas). intros ? k3 (Ht3 & _ & Hb3 & Hc3).
    replace (({[b]} ∪ (∅ : gset nat)) ∖ {[b]}) with (∅ : gset nat) in * by set_solver.
    assert (unchanged homes k k3) as Hu3.
    { eapply unchanged_trans; [exact Hu1|]. apply fsys_same; [apply Hu1|done|by eapply blocks_only_trans|]. intros y. by rewrite Hc3. }
    destruct (on_inode_ok _ _ _ _ _ Hu3 Hok Hi) as [Hok3 Hi3]. pose proof Hu3 as (Hfs3 & Hb03 & Hc03).
    eapply wp_mono; [|apply (IH k3 (off + m) (tot + m)); try done; try lia].
    + intros bs k4 (-> & Hu4). split; [|by eapply unchanged_trans].
      rewrite Edd, Hc2, Hc1, <-app_assoc. f_equal. unfold x. rewrite slice_block; [|done|apply (do_len _ _ (fy_disk _ _ _ _ _ _ _ _ Hfs))|lia].
      replace (Z.to_nat (n - tot)) with (Z.to_nat m + Z.to_nat (n - (tot + m)))%nat by lia. rewrite frange_app.
      f_equal. rewrite Z2Nat.id by lia. by apply frange_ext.
    + intros z Hz Hz'. rewrite (baddr_ext (content k)) by auto. by apply Hcp.
    + intros Hlt'. assert (m = 512 - off `mod` 512) as -> by lia.
      replace (off + (512 - off `mod` 512)) with (0 + (off / 512 + 1) * 512) by lia. rewrite Z_mod_plus_full, Z.mod_0_l by lia. lia.
  - replace (n - tot) with 0 by lia. cbn. by rewrite app_nil_r.
Qed.

(** What a read of [n] bytes at [off] returns. *)
Definition read_result (d : Z -> list Z) (ip : inode) (off n : Z) : Z * list Z :=
  if (off >? i_size ip) || (off + n >=? 2 ^ 32) then (-1, [])
  else let n := Z.min n (i_size ip - off) in (n, slice (file_bytes d ip) (Z.to_nat off) (Z.to_nat n)).

Lemma readi_spec k homes i ip off n :
  fsys k c pi q ∅ st homes s -> inode_ok s (content k) ip -> inodes (k_fs k) !! i = Some ip -> complete (content k) ip ->
  i_type ip <> T_DEV -> (length homes < 24)%nat -> 0 <= off < 2 ^ 32 -> 0 <= n < 2 ^ 32 ->
  runs (readi i DLocal off n) k (fun r k' => r = read_result (content k) ip off n /\ unchanged homes k k').
Proof.
  intros Hfs Hok Hi Hcp Hty Hh Ho Hn. unfold runs, readi. rewrite bind_eq, (get_inode_eq _ _ _ Hi). cbn [res_bind].
  rewrite (proj2 (Z.eqb_neq _ _) Hty). pose proof (io_size _ _ _ Hok) as [Hsz _]. unfold read_result.
  destruct (Z.gtb_spec off (i_size ip)) as [Hgt|Hle]; cbn [orb]; [kred; split; [done|by apply unchanged_refl]|].
  assert ((u32 (off + n) <? off) = (off + n >=? 2 ^ 32)) as ->.
  { unfold u32. destruct (Z.geb_spec (off + n) (2 ^ 32)).
    - apply Z.ltb_lt. replace (off + n) with (off + n - 2 ^ 32 + 1 * 2 ^ 32) by lia. rewrite Z_mod_plus_full, Z.mod_small by lia. lia.
    - apply Z.ltb_ge. rewrite Z.mod_small by lia. lia. }
  destruct (Z.geb_spec (off + n) (2 ^ 32)) as [Hge|Hlt]; [kred; split; [done|by apply unchanged_refl]|]. cbv zeta.
  replace (if off + n >? i_size ip then i_size ip - off else n) with (Z.min n (i_size ip - off)) by (destruct (Z.gtb_spec (off + n) (i_size ip)); lia).
  set (n' := Z.min n (i_size ip - off)). assert (0 <= n' <= i_size ip - off) as Hn' by (unfold n'; lia).
  pose proof (Z.mod_pos_bound off 512 ltac:(lia)). pose proof (Z.div_mod n' 512 ltac:(lia)). pose proof (Z.mod_pos_bound n' 512 ltac:(lia)).
  assert (0 <= n' / 512) by (apply Z.div_pos; lia).
  wp_call (read_blocks_spec i ip homes n' (blocks_for n') k off 0 [] Hfs Hok Hi Hcp Hh); try lia.
  2:{ intros _. unfold blocks_for. change BSIZE with 512. rewrite Z2Nat.id by lia. lia. }
  intros bs k' (-> & Hu). kred. split; [|done]. rewrite s32_small by lia. f_equal. rewrite Z.sub_0_r. cbn [app].
  symmetry. apply slice_file_bytes; lia.
Qed.

(** ** Writing *)

(** Block [y] belongs to the file. *)
Definition file_block (d : Z -> list Z) (ip : inode) (y : Z) : Prop :=
  y <> 0 /\ (y = ind ip \/ exists n, 0 <= n < 140 /\ baddr d ip n = y).

(** The bytes [bs] have been written to the file at [off]; the inode has become
    [ip'], and blocks of other files are as before. *)
Record written (k : K) (i : nat) (ip : inode) (off : Z) (bs : list Z) (k' : K) (ip' : inode) (homes' : list Z) : Prop := {
  wr_sys : fsys k' c pi q ∅ st homes' s;
  wr_file : on_file c pi q i ip' k k';
  wr_ip : ip' = set_i_addrs (i_addrs ip') ip;
  wr_ok : inode_ok s (content k') ip';
  wr_addr : forall n, 0 <= n < 140 -> baddr (content k) ip n <> 0 -> baddr (content k') ip' n = baddr (content k) ip n;
  wr_there : forall o, off <= o < off + Z.of_nat (length bs) -> baddr (content k') ip' (o / 512) <> 0;
  wr_use : forall y, in_use s (content k) y -> in_use s (content k') y;
  wr_other : forall y, in_use s (content k) y -> ~ file_block (content k) ip y -> content k' y = content k y;
  wr_own : forall y, in_use s (content k) y -> file_block (content k') ip' y -> file_block (content k) ip y;
  wr_meta : forall y, y < sb_bmapstart s -> content k' y = content k y;
  wr_bytes : forall o, 0 <= o -> off <= o < off + Z.of_nat (length bs) -> fbyte (content k') ip' o = default 0 (bs !! Z.to_nat (o - off));
  wr_kept : forall o, 0 <= o < 140 * 512 -> ~ (off <= o < off + Z.of_nat (length bs)) -> baddr (content k) ip (o / 512) <> 0 ->
    fbyte (content k') ip' o = fbyte (content k) ip o;
  wr_same : (forall o, off <= o < off + Z.of_nat (length bs) -> baddr (content k) ip (o / 512) <> 0) -> ip' = ip
}.

Lemma block_index o : 0 <= o < 140 * 512 -> 0 <= o / 512 < 140.
Proof. intros H. split; [apply Z.div_pos; lia|apply Z.div_lt_upper_bound; lia]. Qed.

Lemma written_nil k homes i ip off :
  fsys k c pi q ∅ st homes s -> inode_ok s (content k) ip -> inodes (k_fs k) !! i = Some ip -> written k i ip off [] k ip homes.
Proof.
  intros Hfs Hok Hi. split; try done; cbn; try lia.
  - apply on_file_refl; [apply Hfs|done].
  - apply set_addrs_id.
Qed.

Lemma written_trans k i ip off bs k1 ip1 homes1 bs2 k2 ip2 homes2 :
  0 <= off -> off + Z.of_nat (length bs) + Z.of_nat (length bs2) <= 140 * 512 ->
  written k i ip off bs k1 ip1 homes1 -> written k1 i ip1 (off + Z.of_nat (length bs)) bs2 k2 ip2 homes2 ->
  written k i ip off (bs ++ bs2) k2 ip2 homes2.
Proof.
  intros H0 Hle [A1 A2 A3 A4 A5 A6 A7 A8 A9 A10 A11 A12 A13] [B1 B2 B3 B4 B5 B6 B7 B8 B9 B10 B11 B12 B13]. split; try done; rewrite ?length_app.
  - by eapply on_file_trans.
  - rewrite B3 at 1. rewrite A3 at 1. by destruct ip.
  - intros n Hn Hne. rewrite <-A5 in * by done. by apply B5.
  - intros o Ho. destruct (decide (o < off + Z.of_nat (length bs))).
    + rewrite B5; [by apply A6; lia|apply block_index; lia|by apply A6; lia].
    + apply B6. lia.
  - auto.
  - intros y Hy Hnf. rewrite B8, A8; auto.
  - auto.
  - intros y Hy. rewrite B10, A10; auto.
  - intros o Ho Ho'. destruct (decide (o < off + Z.of_nat (length bs))).
    + rewrite B12; [|lia|lia|apply A6; lia]. rewrite A11 by lia. by rewrite lookup_app_l by lia.
    + rewrite B11 by lia. rewrite lookup_app_r by lia. do 2 f_equal. lia.
  - intros o Ho Ho' Hne. rewrite B12, A12; [done|done|lia|done|done|lia|]. rewrite A5; [done|by apply block_index|done].
  - intros Hth. rewrite B13, A13; [done|intros o Ho; apply Hth; lia|]. intros o Ho. rewrite A5; [|apply block_index|]; try apply Hth; lia.
Qed.

(** One block: [bmap] found or added it, and a part of it has been replaced. *)
Lemma written_block k homes i ip off bs r k1 ip1 homes1 k' homes' :
  fsys k c pi q ∅ st homes s -> inode_ok s (content k) ip -> 0 <= off < 140 * 512 ->
  0 < Z.of_nat (length bs) <= 512 - off `mod` 512 -> bmapped c pi q st s k homes i ip (off / 512) r k1 ip1 homes1 ->
  tx k' c pi q ∅ st homes' -> blocks_only c pi q k1 k' -> inodes (k_fs k1) !! i = Some ip1 ->
  (forall y, content k' y = put (content k1) r (splice (content k1 r) (Z.to_nat (off `mod` 512)) bs) y) ->
  written k i ip off bs k' ip1 homes'.
Proof.
  intros Hfs Hok Ho Hm [B1 B2 B3 B4 [B5 Br] B6 BI B7 B8 B9 _ _] Ht' Hb' Hi1 Hc. destruct B1 as [Ht1 Hla1 Hd1].
  pose proof (block_index off Ho) as Hn. set (n := off / 512) in *. pose proof (Z.mod_pos_bound off 512 ltac:(lia)) as Hmod.
  destruct (mo_use _ _ _ (io_map _ _ _ B4) n Hn) as [Hur Hri]; [by rewrite <-B5|]. rewrite <-B5 in Hur, Hri.
  pose proof (do_len _ _ Hd1 r) as Hlr. set (v := splice (content k1 r) (Z.to_nat (off `mod` 512)) bs) in *.
  assert (length v = 512%nat) as Hv by (unfold v; rewrite length_splice; lia).
  destruct (write_facts k1 st s Hla1 (content k1) r v Hd1 (fun b Hb => bitmap_not_data k1 st s Hla1 b _ Hb (proj1 (proj1 Hur))) Hv)
    as (Hd2 & Hf2 & Hu2 & Hx2 & Hy2).
  pose proof (data_start_pos k1 st s Hla1) as Hds.
  assert (forall m, baddr (content k') ip1 m = baddr (content k1) ip1 m) as Hba.
  { intros m. apply baddr_ext. intros _. rewrite Hc. by apply Hy2, not_eq_sym. }
  assert (forall y, in_use s (content k') y <-> in_use s (content k1) y) as Hu by (intros y; rewrite (in_use_ext _ _ _ _ Hc); apply Hu2).
  assert (baddr (content k) ip n <> 0 -> r = baddr (content k) ip n /\ content k1 r = content k r) as Hold.
  { intros Hne. destruct (B8 Hne) as (_ & -> & E). split; [|done]. rewrite B5. by apply baddr_ext. }
  assert (baddr (content k) ip n = 0 -> ~ in_use s (content k) r) as Hnew by (intros E; by apply B9).
  split.
  - split; [done|by eapply layout_frame|by eapply disk_ok_ext].
  - eapply on_file_trans; [exact B2|]. by apply on_file_blocks.
  - done.
  - eapply inode_ok_ext; [..|exact B4]; [intros y; apply Hu|]. intros _. rewrite Hc. by apply Hy2, not_eq_sym.
  - intros m Hm' Hne. rewrite Hba. destruct (decide (m = n)) as [->|Hmn]; [|by apply B6]. rewrite <-B5. by apply Hold.
  - intros o Ho'. rewrite Hba. replace o with (off + (o - off)) by lia. destruct (same_block off (o - off)) as [-> _]; [lia|lia|].
    fold n. by rewrite <-B5.
  - intros y Hy. by apply Hu, (gr_use _ _ _ _ B7).
  - intros y Hy Hnf. assert (y <> 0) as Hy0 by (destruct Hy; lia). rewrite Hc, Hy2.
    + apply (gr_same _ _ _ _ B7); [done|]. intros ->. apply Hnf. split; auto.
    + intros ->. destruct (decide (baddr (content k) ip n = 0)) as [E|Hne]; [by apply Hnew|].
      apply Hnf. split; [done|]. right. exists n. split; [done|]. symmetry. by apply Hold.
  - intros y Hy [Hy0 Hfb]. split; [done|]. destruct Hfb as [->|(m & Hm' & <-)].
    + left. destruct BI as [?|?]; done.
    + right. rewrite Hba in *. destruct (decide (m = n)) as [->|Hmn].
      * exists n. split; [done|]. rewrite <-B5 in *. destruct (decide (baddr (content k) ip n = 0)) as [E|Hne]; [by apply Hnew in Hy|].
        symmetry. by apply Hold.
      * exists m. split; [done|]. symmetry. by apply B6.
  - intros y Hy. rewrite Hc, Hy2; [by apply (gr_meta _ _ _ _ B7)|]. intros ->. destruct Hur.
    destruct (layout_bitmap st s k1 0 Hla1 ltac:(lia)) as (_ & Hbm & _). lia.
  - intros o Ho' Hr. unfold fbyte. rewrite Hba. destruct (same_block off (o - off)) as [E1 E2]; [lia|lia|].
    replace (off + (o - off)) with o in * by lia. rewrite E1, E2. fold n. rewrite <-B5, Hc, Hx2. unfold v.
    rewrite lookup_splice_in by lia. do 2 f_equal. lia.
  - intros o Ho' Hr Hne. unfold fbyte. rewrite Hba. pose proof (Z.mod_pos_bound o 512 ltac:(lia)).
    destruct (decide (o / 512 = n)) as [En|Hon].
    + rewrite En in *. destruct (Hold Hne) as [<- E]. rewrite <-B5, Hc, Hx2. unfold v. rewrite lookup_splice_out, E; [done|lia|].
      pose proof (Z.div_mod o 512 ltac:(lia)). pose proof (Z.div_mod off 512 ltac:(lia)). subst n. lia.
    + pose proof (block_index o Ho') as Hmo. rewrite B6 by done. set (x := baddr (content k) ip (o / 512)) in *.
      destruct (mo_use _ _ _ (io_map _ _ _ Hok) (o / 512) Hmo Hne) as [Hux Hxi].
      rewrite Hc, Hy2, (gr_same _ _ _ _ B7); [done|done|done|]. intros E. apply Hon.
      apply (mo_inj _ _ _ (io_map _ _ _ B4)); [done|done|by rewrite B6|]. by rewrite <-B5, B6.
  - intros Hth. apply B8. apply (Hth off). lia.
Qed.

Lemma write_blocks_done fuel i src off n k : write_blocks fuel i src off n n k = Done off k.
Proof. destruct fuel; cbn [write_blocks]; by rewrite Z.ltb_irrefl. Qed.

(** A block of the file is in the data area. *)
Lemma block_data k d ip n : layout k st s -> inode_ok s d ip -> 0 <= n < 140 -> baddr d ip n <> 0 ->
  outside st (baddr d ip n) /\ 0 <= baddr d ip n < disksize (k_fs k) /\ data_start s <= baddr d ip n.
Proof.
  intros Hla Hok Hn Hne. destruct (mo_use _ _ _ (io_map _ _ _ Hok) n Hn Hne) as [[Hx _] _].
  destruct (layout_data st s k _ Hla Hx). tauto.
Qed.

Lemma write_blocks_spec i bs n : n = Z.of_nat (length bs) -> forall B fuel k ip homes off tot,
  (B <= fuel)%nat -> fsys k c pi q ∅ st homes s -> inode_ok s (content k) ip -> inodes (k_fs k) !! i = Some ip ->
  0 <= off -> 0 <= tot <= n -> off + (n - tot) <= 140 * 512 -> (tot < n -> (n - tot) + off `mod` 512 <= 512 * Z.of_nat B) ->
  (length homes + 6 * B <= 24)%nat -> plenty s (content k) (2 * B) ->
  runs (write_blocks fuel i (SLocal bs) off n tot) k (fun r k' => r = off + (n - tot) /\ exists ip' homes',
    written k i ip off (drop (Z.to_nat tot) bs) k' ip' homes' /\ (length homes' <= length homes + 6 * B)%nat).
Proof.
  intros En. induction B as [|B IH]; intros fuel k ip homes off tot HB Hfs Hok Hi H0 Ht Hn Hf Hh Hp; unfold runs.
  all: pose proof (Z.mod_pos_bound off 512 ltac:(lia)) as Hmod.
  all: destruct (decide (tot = n)) as [->|Hne]; [rewrite write_blocks_done; cbn [wp]; split; [lia|]; exists ip, homes; split; [|lia];
         rewrite drop_ge by lia; by apply written_nil|].
  - lia.
  - destruct fuel as [|fuel]; [lia|]. cbn [write_blocks]. rewrite (proj2 (Z.ltb_lt tot n)) by lia. cbn [negb].
    rewrite bind_eq, (get_inode_eq _ _ _ Hi). cbn [res_bind]. pose proof Hfs as [Ht0 Hla Hd]. change BSIZE with 512.
    pose proof (block_index off ltac:(lia)) as Hnb.
    wp_call (bmap_spec lost c pi q st s k homes i ip (off / 512) Hfs Hok Hi Hnb).
    2:{ intros _. eapply plenty_mono; [|done|exact Hp]. lia. }
    2: lia.
    intros r k1 (ip1 & homes1 & Hbm). pose proof Hbm as [[Ht1 Hla1 Hd1] B2 B3 B4 [B5 Br] _ _ _ _ _ B10 B11].
    pose proof (on_file_at _ _ _ _ _ _ _ _ Hi B2) as Hi1.
    destruct (block_data k1 _ _ _ Hla1 B4 Hnb) as (Hxo & Hxd & Hxs); [by rewrite <-B5|]. rewrite <-B5 in Hxo, Hxd, Hxs.
    rewrite (io_dev _ _ _ Hok).
    wp_call (tx_bread lost k1 c pi q ∅ st homes1 r Ht1 ltac:(intros ? ?; set_solver) ltac:(lia) ltac:(rewrite size_empty; lia)).
    intros b k2 (Ht2 & _ & Hhas & _ & Hb2 & Hc2). assert (b ∈ {[b]} ∪ (∅ : gset nat)) as Hin by set_solver. cbv zeta.
    set (m := Z.min (n - tot) (512 - off `mod` 512)). assert (m = Z.min (n - tot) (512 - off `mod` 512)) as Em by done.
    cbn [get_source]. kred. set (ch := slice bs (Z.to_nat tot) (Z.to_nat m)).
    assert (length ch = Z.to_nat m) as Hch by (unfold ch, slice; rewrite length_take, length_drop; lia).
    destruct (blocks_only_disk _ _ _ _ _ Hb2) as (Eds2 & Ein2 & _).
    apply wp_assoc. eapply wp_mono; [|apply (tx_modify k2 c pi q _ st homes1 b r _
      (splice (content k1 r) (Z.to_nat (off `mod` 512)) ch) Ht2 Hin Hhas Hxo)].
    2: by rewrite Eds2.
    2: rewrite length_splice; rewrite (do_len _ _ Hd1); lia.
    2: intros b0 Eb0; by rewrite Eb0, Hc2.
    2: lia.
    intros ? k3 (Ht3 & Hk3 & Hb3 & Hc3).
    wp_call (tx_brelse lost k3 c pi q _ st _ b _ Ht3 Hin (Hk3 _ _ Hin Hhas)). intros ? k4 (Ht4 & _ & Hb4 & Hc4).
    replace (({[b]} ∪ (∅ : gset nat)) ∖ {[b]}) with (∅ : gset nat) in * by set_solver.
    assert (forall y, content k4 y = put (content k1) r (splice (content k1 r) (Z.to_nat (off `mod` 512)) ch) y) as Hc.
    { intros y. rewrite Hc4, Hc3. unfold put. case_decide; [done|]. apply Hc2. }
    pose proof (absorb_length r homes1) as Hl.
    assert (written k i ip off ch k4 ip1 (absorb r homes1)) as Hw.
    { eapply (written_block k homes i ip off ch r k1 ip1 homes1); try done; try lia.
      eapply blocks_only_trans; [exact Hb2|]. by eapply blocks_only_trans. }
    pose proof (on_file_at _ _ _ _ _ _ _ _ Hi (wr_file _ _ _ _ _ _ _ _ Hw)) as Hi4.
    eapply wp_mono; [|apply (IH fuel k4 ip1 (absorb r homes1) (off + m) (tot + m)); try done; try lia].
    + intros r' k5 (-> & ip' & homes' & Hw' & Hl'). split; [lia|]. exists ip', homes'. split; [|lia].
      replace (drop (Z.to_nat tot) bs) with (ch ++ drop (Z.to_nat (tot + m)) bs).
      * eapply written_trans; [done|..|exact Hw|]; [rewrite length_drop; lia|]. by replace (off + Z.of_nat (length ch)) with (off + m) by lia.
      * unfold ch, slice. rewrite Z2Nat.inj_add, <-drop_drop by lia. apply take_drop.
    + apply Hw.
    + apply Hw.
    + intros Hlt'. assert (m = 512 - off `mod` 512) as -> by lia. pose proof (Z.div_mod off 512 ltac:(lia)).
      replace (off + (512 - off `mod` 512)) with (0 + (off / 512 + 1) * 512) by lia. rewrite Z_mod_plus_full, Z.mod_0_l by lia. lia.
    + eapply (plenty_mono s (content k1)); [reflexivity| |apply B11; eapply plenty_mono; [|done|exact Hp]; lia].
      intros b' Hb' Hfr. unfold free_in in *. rewrite Hc. unfold put. rewrite decide_False; [done|].
      by apply (bitmap_not_data k1 st).
Qed.

(** ** The inode on disk *)

Definition inode_on_disk (d : Z -> list Z) (inum : Z) : dinode := get_dinode (d (IBLOCK inum s)) (dinode_off inum).

Lemma inode_block k inum : layout k st s -> 0 <= inum < sb_ninodes s ->
  IBLOCK inum s = inum / 8 + sb_inodestart s /\ IBLOCK inum s < sb_bmapstart s /\ outside st (IBLOCK inum s) /\
  0 <= IBLOCK inum s < disksize (k_fs k) /\ (dinode_off inum + 64 <= 512)%nat.
Proof.
  intros [_ H2 H3 H4 H5] Hi. unfold IBLOCK, dinode_off, sizeof_dinode, outside, data_start in *. change IPB with 8 in *. change BPB with 4096 in *.
  pose proof (Z.div_pos inum 8). pose proof (Z.div_le_mono inum (sb_ninodes s) 8). pose proof (Z.mod_pos_bound inum 8).
  pose proof (Z.div_mod (sb_size s - 1) 4096). pose proof (Z.mod_pos_bound (sb_size s - 1) 4096).
  assert (0 < sb_size s) by nia. pose proof (Z.div_pos (sb_size s - 1) 4096). rewrite u32_small by lia. lia.
Qed.

Lemma iupdate_spec k homes i ip :
  fsys k c pi q ∅ st homes s -> inodes (k_fs k) !! i = Some ip -> i_dev ip = 1 -> 0 <= i_inum ip < sb_ninodes s ->
  fits (to_dinode ip) -> (length homes < 29)%nat ->
  runs (iupdate i) k (fun _ k' => let x := IBLOCK (i_inum ip) s in tx k' c pi q ∅ st (absorb x homes) /\ blocks_only c pi q k k' /\
    forall y, content k' y = put (content k) x (put_dinode (content k x) (dinode_off (i_inum ip)) (to_dinode ip)) y).
Proof.
  intros [Ht Hla Hd] Hi Hdev Hin Hfi Hh. destruct (inode_block k _ Hla Hin) as (_ & Hlt & Hout & Hdk & Hoff).
  unfold runs, iupdate, get_sb, get_fs. kred. rewrite (la_sb _ _ _ Hla), (get_inode_eq _ _ _ Hi). cbn [res_bind].
  set (x := IBLOCK (i_inum ip) s) in *. rewrite Hdev.
  wp_call (tx_bread lost k c pi q ∅ st homes x Ht ltac:(intros ? ?; set_solver) ltac:(lia) ltac:(rewrite size_empty; lia)).
  intros b k1 (Ht1 & _ & Hhas & _ & Hb1 & Hc1). assert (b ∈ {[b]} ∪ (∅ : gset nat)) as Hinb by set_solver.
  destruct (blocks_only_disk _ _ _ _ _ Hb1) as (Eds & Ein & _). rewrite bind_eq, (get_inode_eq k1 i ip) by (by rewrite Ein). cbn [res_bind].
  apply wp_assoc. eapply wp_mono; [|apply (tx_modify k1 c pi q _ st homes b x _
    (put_dinode (content k x) (dinode_off (i_inum ip)) (to_dinode ip)) Ht1 Hinb Hhas Hout)].
  - intros ? k2 (Ht2 & Hk2 & Hb2 & Hc2).
    eapply wp_mono; [|apply (tx_brelse lost k2 c pi q _ st _ b _ Ht2 Hinb (Hk2 _ _ Hinb Hhas))]. intros ? k3 (Ht3 & _ & Hb3 & Hc3).
    replace (({[b]} ∪ (∅ : gset nat)) ∖ {[b]}) with (∅ : gset nat) in * by set_solver. split; [done|].
    split; [eapply blocks_only_trans; [exact Hb1|]; by eapply blocks_only_trans|].
    intros y. rewrite Hc3, Hc2. unfold put. case_decide; [done|]. apply Hc1.
  - by rewrite Eds.
  - unfold put_dinode. destruct (get_dinode_bytes _ Hfi) as [_ El]. rewrite length_splice; rewrite (do_len _ _ Hd); lia.
  - intros b0 E0. by rewrite E0, Hc1.
  - done.
Qed.

(** The inodes on disk after one of them has been written. *)
Lemma inode_on_disk_put k d ip j :
  layout k st s -> disk_ok s d -> 0 <= i_inum ip < sb_ninodes s -> 0 <= j < sb_ninodes s -> fits (to_dinode ip) ->
  let x := IBLOCK (i_inum ip) s in
  inode_on_disk (put d x (put_dinode (d x) (dinode_off (i_inum ip)) (to_dinode ip))) j =
  if decide (j = i_inum ip) then to_dinode ip else inode_on_disk d j.
Proof.
  intros Hla Hd Hi Hj Hf x. destruct (inode_block k _ Hla Hi) as (Ei & _ & _ & _ & Hoi). destruct (inode_block k _ Hla Hj) as (Ej & _ & _ & _ & Hoj).
  unfold inode_on_disk, put. pose proof (do_len _ _ Hd x) as Hlx. destruct (decide (j = i_inum ip)) as [->|E]; [rewrite decide_True by done|].
  - apply get_put_dinode; [done|lia].
  - case_decide as E'; [|done]. rewrite E'. apply get_put_dinode_out; [done|lia|].
    unfold x in E'. rewrite Ei, Ej in E'. unfold dinode_off, sizeof_dinode in *. change IPB with 8 in *.
    pose proof (Z.div_mod j 8 ltac:(lia)). pose proof (Z.div_mod (i_inum ip) 8 ltac:(lia)).
    pose proof (Z.mod_pos_bound j 8 ltac:(lia)). pose proof (Z.mod_pos_bound (i_inum ip) 8 ltac:(lia)). lia.
Qed.

Lemma inode_fits k d ip :
  layout k st s -> inode_ok s d ip -> Forall (fun z => - 2 ^ 15 <= z < 2 ^ 15) [i_type ip; i_major ip; i_minor ip; i_nlink ip] ->
  fits (to_dinode ip).
Proof.
  intros Hla [_ H2 [H3 _] [M1 M2 _]] Hty. pose proof (data_start_pos k st s Hla). pose proof (la_size _ _ _ Hla). pose proof (la_disk _ _ _ Hla).
  split; [done|]. split; [cbn; lia|]. split; [done|]. apply Forall_lookup. cbn. intros j a Ha. pose proof (lookup_lt_Some _ _ _ Ha).
  destruct (decide (a = 0)) as [->|Hne]; [lia|]. assert (in_use s d a) as [Hu _]; [|lia].
  destruct (decide (j = 12%nat)) as [->|Hj12].
  - assert (ind ip = a) as <- by (unfold ind; by rewrite Ha). auto.
  - assert (baddr d ip (Z.of_nat j) = a) as <-; [|apply M1; [lia|done]].
    unfold baddr. rewrite (proj2 (Z.ltb_lt _ _)) by lia. by rewrite Nat2Z.id, Ha.
Qed.

(** ** The whole of writei *)

Lemma fbyte_size d ip v o : fbyte d (set_i_size v ip) o = fbyte d ip o.
Proof. by destruct ip. Qed.

Lemma lookup_splice {A} (l : list A) i new j : (i <= length l)%nat ->
  splice l i new !! j = if decide (i <= j < i + length new)%nat then new !! (j - i)%nat else l !! j.
Proof.
  intros Hi. unfold splice. case_decide as Hj.
  - rewrite lookup_app_r, length_take, lookup_app_l; rewrite ?length_take; [f_equal; lia|lia..].
  - destruct (decide (j < i)%nat).
    + rewrite lookup_app_l by (rewrite length_take; lia). by apply lookup_take_lt.
    + rewrite !lookup_app_r, length_take, lookup_drop; rewrite ?length_take; [f_equal; lia|lia..].
Qed.

Lemma file_bytes_lookup d ip (j : nat) : file_bytes d ip !! j = if decide (j < Z.to_nat (i_size ip))%nat then Some (fbyte d ip (Z.of_nat j)) else None.
Proof.
  unfold file_bytes. rewrite list_lookup_fmap. case_decide; [by rewrite lookup_zseq|].
  rewrite lookup_ge_None_2; [done|]. rewrite length_zseq. lia.
Qed.

(** The contents after the write: the bytes replaced, the file longer when they
    go past its end. *)
Lemma written_bytes k i ip off bs k' ip' homes' :
  written k i ip off bs k' ip' homes' -> complete (content k) ip -> 0 <= off <= i_size ip -> i_size ip <= 140 * 512 ->
  off + Z.of_nat (length bs) <= 140 * 512 ->
  let ip2 := set_i_size (Z.max (i_size ip) (off + Z.of_nat (length bs))) ip' in
  complete (content k') ip2 /\ file_bytes (content k') ip2 = splice (file_bytes (content k) ip) (Z.to_nat off) bs.
Proof.
  intros [_ _ _ _ A5 A6 _ _ _ _ A11 A12 _] Hcp Ho Hsz Hle ip2.
  assert (forall n, 0 <= n -> n * 512 < i_size ip -> baddr (content k') ip' n = baddr (content k) ip n) as Hold.
  { intros n Hn Hlt. apply A5; [lia|]. by apply Hcp. }
  split.
  - intros n Hn Hlt. change (baddr (content k') ip2 n) with (baddr (content k') ip' n).
    destruct (decide (n * 512 < i_size ip)); [rewrite Hold by done; by apply Hcp|].
    assert (off <= n * 512 < off + Z.of_nat (length bs)) as Hr by (cbn in Hlt; lia).
    apply A6 in Hr. by rewrite Z.div_mul in Hr by lia.
  - apply list_eq. intros j. rewrite lookup_splice by (unfold file_bytes; rewrite length_fmap, length_zseq; lia).
    rewrite !file_bytes_lookup. change (i_size ip2) with (Z.max (i_size ip) (off + Z.of_nat (length bs))). unfold ip2. rewrite fbyte_size.
    destruct (decide (_ <= j < _)%nat) as [Hj|Hj].
    + rewrite decide_True by lia. rewrite A11 by lia.  destruct (lookup_lt_is_Some_2 bs (j - Z.to_nat off)) as [x Hx]; [lia|]. rewrite Hx. replace (Z.to_nat (Z.of_nat j - off)) with (j - Z.to_nat off)%nat by lia. by rewrite Hx.
    + destruct (decide (j < Z.to_nat (i_size ip))%nat); [|by rewrite decide_False by lia]. rewrite decide_True by lia. f_equal.
      apply A12; [lia|lia|]. apply Hcp; [apply Z.div_pos; lia|]. pose proof (Z.mul_div_le (Z.of_nat j) 512). lia.
Qed.

(** The number of blocks a write of [n] bytes at [off] touches, at most. *)
Definition blocks_of (off n : Z) : nat := Z.to_nat ((off `mod` 512 + n + 511) / 512).

(** The write has been done: the inode has become [ip']. *)
Record wrote (k : K) (i : nat) (ip : inode) (off : Z) (bs : list Z) (k' : K) (ip' : inode) (homes' : list Z) : Prop := {
  we_sys : fsys k' c pi q ∅ st homes' s;
  we_file : on_file c pi q i ip' k k';
  we_ok : inode_ok s (content k') ip';
  we_complete : complete (content k') ip';
  we_ip : ip' = set_i_addrs (i_addrs ip') (set_i_size (Z.max (i_size ip) (off + Z.of_nat (length bs))) ip);
  we_bytes : file_bytes (content k') ip' = splice (file_bytes (content k) ip) (Z.to_nat off) bs;
  we_others : forall y, in_use s (content k) y -> ~ file_block (content k) ip y ->
    content k' y = content k y /\ in_use s (content k') y /\ ~ file_block (content k') ip' y;
  we_disk : forall j, 0 <= j < sb_ninodes s ->
    inode_on_disk (content k') j = if decide (j = i_inum ip) then to_dinode ip' else inode_on_disk (content k) j
}.

Lemma fsys_inodes k homes v : fsys k c pi q ∅ st homes s -> fsys (set_k_fs (set_inodes v (k_fs k)) k) c pi q ∅ st homes s.
Proof. intros [Ht [L1 L2 L3 L4 L5] Hd]. split; [by apply tx_inodes|by split|done]. Qed.

(** No block was added: the inode is as it was. *)
Lemma wrote_inside k i ip off bs k' ip' homes' :
  written k i ip off bs k' ip' homes' -> complete (content k) ip -> 0 <= off <= i_size ip -> i_size ip <= 140 * 512 ->
  layout k st s -> inode_on_disk (content k) (i_inum ip) = to_dinode ip ->
  off + Z.of_nat (length bs) <= i_size ip -> wrote k i ip off bs k' ip' homes'.
Proof.
  intros Hw Hcp Ho Hsz Hla Hdk Hin. destruct (written_bytes _ _ _ _ _ _ _ _ Hw Hcp Ho Hsz ltac:(lia)) as [Hc Hb].
  assert (ip' = ip) as ->.
  { apply (wr_same _ _ _ _ _ _ _ _ Hw). intros o Hr. apply Hcp; [apply Z.div_pos; lia|]. pose proof (Z.mul_div_le o 512). lia. }
  rewrite Z.max_l in Hc, Hb by lia. assert (set_i_size (i_size ip) ip = ip) as E by (by destruct ip). rewrite E in Hc, Hb.
  destruct Hw as [A1 A2 _ A4 _ _ A7 A8 A9 A10 _ _ _]. split; try done.
  - rewrite Z.max_l, E by lia. apply set_addrs_id.
  - intros y Hy Hn. split; [auto|]. split; [auto|]. intros Hf. by apply Hn, A9.
  - intros j Hj. destruct (inode_block k j Hla Hj) as (_ & Hlt & _). unfold inode_on_disk in *. rewrite A10 by done. case_decide; [by subst|done].
Qed.

(** The file has become longer: the inode is written too. *)
Lemma wrote_longer k i ip off bs k1 ip1 homes1 k3 homes3 :
  written k i ip off bs k1 ip1 homes1 -> complete (content k) ip -> 0 <= off <= i_size ip -> i_size ip <= 140 * 512 ->
  layout k st s -> 0 <= i_inum ip < sb_ninodes s -> inodes (k_fs k) !! i = Some ip ->
  i_size ip < off + Z.of_nat (length bs) <= 140 * 512 ->
  let ip2 := set_i_size (off + Z.of_nat (length bs)) ip1 in let x := IBLOCK (i_inum ip) s in
  fits (to_dinode ip2) -> tx k3 c pi q ∅ st homes3 -> 
  blocks_only c pi q (set_k_fs (set_inodes (<[i := ip2]> (inodes (k_fs k1))) (k_fs k1)) k1) k3 ->
  (forall y, content k3 y = put (content k1) x (put_dinode (content k1 x) (dinode_off (i_inum ip)) (to_dinode ip2)) y) ->
  wrote k i ip off bs k3 ip2 homes3.
Proof.
  intros Hw Hcp Ho Hsz Hla Hinum Hi Hle ip2 x Hfits Ht3 Hb3 Hc3.
  destruct (written_bytes _ _ _ _ _ _ _ _ Hw Hcp Ho Hsz ltac:(lia)) as [Hc Hb]. rewrite Z.max_r in Hc, Hb by lia. fold ip2 in Hc, Hb.
  destruct Hw as [[Ht1 Hla1 Hd1] A2 A3 A4 _ _ A7 A8 A9 A10 _ _ _]. pose proof (on_file_at _ _ _ _ _ _ _ _ Hi A2) as Hi1.
  assert (i_inum ip2 = i_inum ip) as Ein by (unfold ip2; cbn; by rewrite A3).
  destruct (inode_block k1 _ Hla1 Hinum) as (_ & Hlt & _ & _ & Hoff). fold x in Hlt.
  assert (forall b, 0 <= b < sb_size s -> BBLOCK b s <> x) as Hnb.
  { intros b Hb'. destruct (layout_bitmap st s k1 b Hla1 Hb') as (_ & ? & _). lia. }
  assert (forall y, in_use s (content k1) y -> y <> x) as Hux.
  { intros y [Hy _]. destruct (layout_bitmap st s k1 0 Hla1) as (_ & ? & _); pose proof (data_start_pos k1 st s Hla1); lia. }
  destruct (get_dinode_bytes _ Hfits) as [_ Elen]. pose proof (do_len _ _ Hd1 x) as Hlx.
  set (v := put_dinode (content k1 x) (dinode_off (i_inum ip)) (to_dinode ip2)) in *.
  assert (length v = 512%nat) as Hv by (unfold v, put_dinode; rewrite length_splice; lia).
  destruct (write_facts k1 st s Hla1 (content k1) x v Hd1 Hnb Hv) as (Hd3 & _ & Hu3 & Hx3 & Hy3).
  assert (forall y, in_use s (content k3) y <-> in_use s (content k1) y) as Hu by (intros y; rewrite (in_use_ext _ _ _ _ Hc3); apply Hu3).
  assert (forall y, in_use s (content k1) y -> content k3 y = content k1 y) as Hs3.
  { intros y Hy. rewrite Hc3. by apply Hy3, Hux. }
  assert (ind ip2 <> 0 -> content k3 (ind ip2) = content k1 (ind ip2)) as Hind by (intros Hne; by apply Hs3, (io_map _ _ _ A4)).
  assert (forall n, baddr (content k3) ip2 n = baddr (content k1) ip1 n) as Hba by (intros n; by rewrite (baddr_ext (content k1))).
  split.
  - split; [done|eapply layout_frame; [exact Hb3|]; by destruct Hla1|by eapply disk_ok_ext].
  - eapply on_file_trans; [exact A2|]. eapply on_file_trans; [by apply (on_file_set _ _ _ k1 i ip1); [apply Ht1|]|].
    apply on_file_blocks; [|exact Hb3]. apply list_lookup_insert_eq. by eapply lookup_lt_Some.
  - destruct A4 as [B1 B2 [_ B3] B4]. split; [done|done|split; [cbn; lia|done]|].
    eapply map_ok_ext; [| | |exact B4]; [intros y; apply Hu|auto|done].
  - intros n Hn Hlt'. rewrite Hba. by apply Hc.
  - rewrite Z.max_r by lia. unfold ip2. rewrite A3. by destruct ip.
  - rewrite <-Hb. unfold file_bytes. apply list_fmap_ext. intros ? o Ho'. apply list_elem_of_lookup_2, elem_of_zseq in Ho'.
    change (i_size ip2) with (off + Z.of_nat (length bs)) in Ho'. unfold fbyte. rewrite Hba. change (baddr (content k1) ip2) with (baddr (content k1) ip1).
    rewrite Hs3; [done|]. apply (io_map _ _ _ A4); [apply block_index; lia|]. apply Hc; [apply Z.div_pos; lia|].
    change (i_size ip2) with (off + Z.of_nat (length bs)). pose proof (Z.mul_div_le o 512). lia.
  - intros y Hy Hn. pose proof (A7 y Hy) as Hy1. split; [rewrite Hs3 by done; auto|]. split; [by apply Hu|]. intros [H0 Hf].
    apply Hn, A9; [done|]. split; [done|]. destruct Hf as [?|(n & Hn' & E)]; [by left|right]. exists n. by rewrite <-Hba.
  - intros j Hj. transitivity (inode_on_disk (put (content k1) x v) j); [unfold inode_on_disk; by rewrite Hc3|].
    pose proof (inode_on_disk_put k1 (content k1) ip2 j Hla1 Hd1 ltac:(by rewrite Ein) Hj Hfits) as E. cbv zeta in E. rewrite Ein in E. 
    unfold v. fold x in E. rewrite E. case_decide; [done|]. destruct (inode_block k1 j Hla1 Hj) as (_ & Hlj & _).
    unfold inode_on_disk. by rewrite A10.
Qed.

Lemma blocks_of_enough off n : 0 <= off -> 0 <= n -> (blocks_of off n <= blocks_for n)%nat /\ n + off `mod` 512 <= 512 * Z.of_nat (blocks_of off n).
Proof.
  intros Ho Hn. unfold blocks_of, blocks_for. change BSIZE with 512. pose proof (Z.mod_pos_bound off 512 ltac:(lia)).
  pose proof (Z.div_pos n 512). set (w := off `mod` 512 + n + 511).
  pose proof (Z.div_mod w 512 ltac:(lia)). pose proof (Z.mod_pos_bound w 512 ltac:(lia)). pose proof (Z.div_mod n 512 ltac:(lia)).
  pose proof (Z.mod_pos_bound n 512 ltac:(lia)). lia.
Qed.

(** What makes a write to inode [ip] safe to run. *)
Record writable (k : K) (homes : list Z) (i : nat) (ip : inode) (off n : Z) : Prop := {
  wa_sys : fsys k c pi q ∅ st homes s;
  wa_ok : inode_ok s (content k) ip;
  wa_inode : inodes (k_fs k) !! i = Some ip;
  wa_complete : complete (content k) ip;
  wa_disk : inode_on_disk (content k) (i_inum ip) = to_dinode ip;
  wa_type : i_type ip <> T_DEV;
  wa_short : Forall (fun z => - 2 ^ 15 <= z < 2 ^ 15) [i_type ip; i_major ip; i_minor ip; i_nlink ip];
  wa_log : (length homes + 6 * blocks_of off n <= 24)%nat;
  wa_free : plenty s (content k) (2 * blocks_of off n)
}.

Lemma writei_spec k homes i ip off bs :
  writable k homes i ip off (Z.of_nat (length bs)) -> 0 <= off < 2 ^ 32 -> Z.of_nat (length bs) < 2 ^ 32 ->
  runs (writei i (SLocal bs) off (Z.of_nat (length bs))) k (fun r k' =>
    if (off >? i_size ip) || (off + Z.of_nat (length bs) >? 140 * 512) then r = -1 /\ k' = k
    else r = Z.of_nat (length bs) /\ exists ip' homes', wrote k i ip off bs k' ip' homes' /\ (length homes' <= length homes + 6 * blocks_of off (Z.of_nat (length bs)) + 1)%nat).
Proof.
  intros [Hfs Hok Hi Hcp Hdk Hty Hsh Hlg Hfr] Ho Hn. set (n := Z.of_nat (length bs)) in *. unfold runs, writei.
  rewrite bind_eq, (get_inode_eq _ _ _ Hi). cbn [res_bind]. rewrite (proj2 (Z.eqb_neq _ _) Hty).
  pose proof (io_size _ _ _ Hok) as [Hsz Hin]. change (MAXFILE * BSIZE) with (140 * 512).
  destruct (Z.gtb_spec off (i_size ip)) as [Hgt|Hle]; cbn [orb]; [by kred|].
  destruct (Z.gtb_spec (off + n) (140 * 512)) as [Hbig|Hsmall]; [destruct (u32 (off + n) <? off); by kred|].
  rewrite u32_small by lia. rewrite (proj2 (Z.ltb_ge (off + n) off)) by lia.
  destruct (blocks_of_enough off n) as [HB Hbl]; [lia|lia|].
  wp_call (write_blocks_spec i bs n eq_refl (blocks_of off n) (blocks_for n) k ip homes off 0 HB Hfs Hok Hi); try lia; try done.
  intros r k1 (-> & ip1 & homes1 & Hw & Hh1). rewrite Z.sub_0_r in *. cbn [Z.to_nat] in Hw. rewrite drop_0 in Hw.
  pose proof (on_file_at _ _ _ _ _ _ _ _ Hi (wr_file _ _ _ _ _ _ _ _ Hw)) as Hi1.
  rewrite bind_eq, (get_inode_eq _ _ _ Hi1). cbn [res_bind]. pose proof (wr_ip _ _ _ _ _ _ _ _ Hw) as E1.
  assert (i_size ip1 = i_size ip /\ i_inum ip1 = i_inum ip /\ i_dev ip1 = i_dev ip) as (Es & En & Ed) by (by rewrite E1).
  rewrite s32_small by lia. rewrite Es. destruct (Z.gtb_spec (off + n) (i_size ip)) as [Hlong|Hin'].
  - rewrite (proj2 (Z.gtb_lt n 0)) by lia. cbn [andb when].
    rewrite !bind_eq, (upd_inode_eq _ _ _ _ Hi1). cbn [res_bind]. set (ip2 := set_i_size (off + n) ip1).
    set (k2 := set_k_fs _ k1). assert (inodes (k_fs k2) !! i = Some ip2) as Hi2 by (apply list_lookup_insert_eq; by eapply lookup_lt_Some).
    assert (fits (to_dinode ip2)) as Hf2.
    { apply (inode_fits k1 (content k1)); [apply Hw|destruct (wr_ok _ _ _ _ _ _ _ _ Hw) as [O1 O2 [_ O3] O4]; split; [done|done|split; [cbn; lia|done]|done]|].
      unfold ip2. by rewrite E1. }
    rewrite wp_bind. eapply wp_mono; [|apply (iupdate_spec k2 homes1 i ip2); try done].
    + intros ? k3 (Ht3 & Hb3 & Hc3). kred. split; [done|]. exists ip2, (absorb (IBLOCK (i_inum ip) s) homes1).
      pose proof (absorb_length (IBLOCK (i_inum ip) s) homes1). split; [|lia].
      cbn in Hc3, Ht3. rewrite En in Hc3, Ht3. eapply (wrote_longer k i ip off bs k1 ip1 homes1 k3); try done; try apply Hfs; fold n; try lia.
    + apply fsys_inodes, Hw.
    + cbn. by rewrite Ed, (io_dev _ _ _ Hok).
    + cbn. by rewrite En.
    + lia.
  - rewrite andb_false_r. kred. split; [done|]. exists ip1, homes1. split; [|lia].
    apply wrote_inside; try done; try lia. apply Hfs.
Qed.

End RwSpec.
