(* ===== verification/FileIo.v ===== *)
(** * Files as the file system keeps them (fs.c: balloc, readi, writei)

    What the allocator of blocks, reading and writing guarantee to their
    callers, and a small disk with one file on which they run. *)

From S2P Require Import Prelude Params State Spinlock Seg Str Proc ProcSpec ProcRefine SleepWake FsState Sleeplock Demo DemoFs.
From S2P Require Import SleeplockSpec Ring BlockDev Ide Memide Bio BioSpec Log LogSpec TxSpec Inode BlockTx Balloc Console Fs FileSpec RwSpec.

(** ** A small disk with a file and a directory *)

Definition hello : list Z := bytes_of "hello".

(** Inode 3, in the first slot of the table: a file of five bytes, in block 40. *)
Definition inode_hello : inode := mkInode 1 3 1 1 2 0 0 1 5 (40 :: replicate 12 0).

(** Inode 1, in the second slot: the root, in block 41. *)
Definition inode_root : inode := mkInode 1 1 1 1 1 0 0 1 48 (41 :: replicate 12 0).

Definition entry_hello (inum : Z) (name : string) : list Z := dirent_bytes (mkDirent inum (strncpy (replicate 14 0) (bytes_of name ++ [0]) 14)).

(** Blocks 0 to 41 are in use. *)
Definition disk_hello : gmap (Z * Z) (list Z) :=
  {[ (1, 32) := put_dinode (put_dinode (replicate 512 0) (dinode_off 3) (to_dinode inode_hello)) (dinode_off 1) (to_dinode inode_root);
     (1, 35) := replicate 5 255 ++ 3 :: replicate 506 0;
     (1, 40) := hello ++ replicate 507 0;
     (1, 41) := entry_hello 1 "." ++ entry_hello 1 ".." ++ entry_hello 3 "hello" ++ replicate 464 0 ]}.

(** A transaction has begun. *)
Definition kernel_hello : K :=
  kernel_fs (kernel_running 0 ∅)
    (set_disk disk_hello (set_lg (mkLog 2 30 1 0 1 (mkLh 0 (replicate 30 0)))
      (set_inodes (inode_hello :: inode_root :: replicate 48 inode0)
        (set_bufs (<[0%nat := mkBuf 0 1 40 0 1 30 None (replicate 512 0)]> (bufs fs0)) fs0)))).

Lemma kernel_hello_blocks x : length (dblock kernel_hello x) = 512%nat.
Proof.
  unfold dblock, disk_block. simpl. unfold disk_hello.
  destruct (decide (x = 32)) as [->|?]; [by vm_compute|]. destruct (decide (x = 35)) as [->|?]; [by vm_compute|].
  destruct (decide (x = 40)) as [->|?]; [by vm_compute|]. destruct (decide (x = 41)) as [->|?]; [by vm_compute|].
  rewrite !lookup_insert_ne, lookup_singleton_ne by congruence. done.
Qed.

Lemma kernel_hello_content y : content kernel_hello y = dblock kernel_hello y.
Proof.
  unfold content. rewrite (proj2 (list_find_None _ _)); [done|]. apply list.Forall_forall. intros b Hb (_ & _ & Hf).
  apply list_elem_of_lookup in Hb as [i Hi]. apply lookup_take_Some in Hi as [Hi _].
  apply (forall_bufs (cbufs kernel_hello) (fun _ b => flagged B_VALID b = true -> False)) with i b; [|done..].
  vm_compute. repeat constructor; congruence.
Qed.

(** A property of the numbers below [n], looked at one by one. *)
Lemma below_by_eval n (P : Z -> bool) : forallb P (zseq n) = true -> forall z, 0 <= z < Z.of_nat n -> P z = true.
Proof. intros H z Hz. rewrite forallb_forall in H. apply H, list_elem_of_In, elem_of_zseq. lia. Qed.

Lemma kernel_hello_free b : 0 <= b < 100 -> free_in sb0 (content kernel_hello) b <-> 42 <= b.
Proof.
  intros Hb. pose proof (below_by_eval 100 (fun b => eqb (bit_clear (dblock kernel_hello (BBLOCK b sb0)) (b `mod` BPB)) (42 <=? b)) ltac:(by vm_compute) b Hb) as E.
  apply eqb_prop in E. unfold free_in. rewrite kernel_hello_content, E. apply Z.leb_le.
Qed.

(** An inode with one block. *)
Lemma one_block d ip a n : i_addrs ip = a :: replicate 12 0 -> 0 <= n < 140 -> baddr d ip n = if decide (n = 0) then a else 0.
Proof.
  intros E Hn. unfold baddr, ind. rewrite E. destruct (decide (n = 0)) as [->|Hne]; [done|]. destruct (Z.ltb_spec n 12); [|done].
  destruct (Z.to_nat n) as [|m] eqn:Em; [lia|]. change ((a :: replicate 12 0) !! S m) with (replicate 12 0 !! m). rewrite (proj2 (lookup_replicate 12 0 0 m)); [done|]. lia.
Qed.

Lemma kernel_hello_cache : cache kernel_hello 2 (reverse (seq 0 30)) ∅.
Proof. apply (demo_cache false 0 (replicate 512 0)); [done|exact kernel_hello_blocks|by right; left]. Qed.

Lemma kernel_hello_clean y : ~ dirty kernel_hello y.
Proof.
  intros (i & b & _ & Hb & _ & _ & Hf).
  apply (forall_bufs (cbufs kernel_hello) (fun _ b => b_flags b = 6 -> False)) with i b; [|done..].
  vm_compute. repeat constructor; congruence.
Qed.

Lemma kernel_hello_sys : fsys kernel_hello 0 1 2 ∅ 2 [] sb0.
Proof.
  split.
  - split; [apply kernel_running_me|exists (reverse (seq 0 30)); exact kernel_hello_cache|split; try done; simpl; lia|done|done|].
    intros y Hy. by apply kernel_hello_clean in Hy.
  - split; try done; vm_compute; split; congruence.
  - split; [intros y; rewrite kernel_hello_content; apply kernel_hello_blocks|].
    intros b Hb Hf. change (data_start sb0) with 36. change (sb_size sb0) with 100 in Hb. apply kernel_hello_free in Hf; lia.
Qed.

Lemma one_block_ok ip a : i_addrs ip = a :: replicate 12 0 -> i_dev ip = 1 -> 0 <= i_inum ip < 16 -> 0 <= i_size ip <= 512 -> 36 <= a < 42 ->
  inode_ok sb0 (content kernel_hello) ip.
Proof.
  intros E Hd Hi Hs Ha. assert (in_use sb0 (content kernel_hello) a) as Hu.
  { split; [change (data_start sb0) with 36; change (sb_size sb0) with 100; lia|]. rewrite kernel_hello_free; lia. }
  assert (ind ip = 0) as Ei by (unfold ind; by rewrite E).
  split; [done|by rewrite E|split; [lia|done]|]. rewrite Ei. split; [|done|].
  - intros n Hn. rewrite (one_block _ _ a) by done. case_decide; [|done]. split; [done|lia].
  - intros n m Hn Hm. rewrite !(one_block _ _ a) by done. repeat case_decide; congruence.
Qed.

Lemma kernel_hello_ok : inode_ok sb0 (content kernel_hello) inode_hello.
Proof. apply (one_block_ok _ 40); cbn; done || lia. Qed.

Lemma one_block_complete d ip a : i_addrs ip = a :: replicate 12 0 -> a <> 0 -> i_size ip <= 512 -> complete d ip.
Proof. intros E Ha Hs n Hn Hlt. rewrite (one_block _ _ a), decide_True by (done || lia). done. Qed.

Lemma kernel_hello_complete : complete (content kernel_hello) inode_hello.
Proof. by apply (one_block_complete _ _ 40). Qed.

Lemma kernel_hello_plenty : plenty sb0 (content kernel_hello) 2.
Proof.
  exists [50; 51]. split; [repeat constructor; set_solver|]. split; [done|].
  repeat (apply list.Forall_cons; split); [| |done]; (split; [by vm_compute|]); apply kernel_hello_free; lia.
Qed.

Section FileIo.
Context {LK : Linker} {FU : Fuel}.
Context (lost : gmap (Z * Z) (list Z) -> Z -> bool).
Implicit Types (k : K).

#[local] Instance file_io_power : BlockDev := power lost.

Context (c pi : nat) (q st : Z) (s : superblock).

(** C8. Allocating a block.  In a transaction with room in the log and some
    block free, [balloc] returns the first free block of the disk; it is now in
    use and zeroed.  The other blocks are free or not as before, and the blocks
    in use have the contents they had. *)
Theorem balloc_hands_out k homes
    (Hf : fsys k c pi q ∅ st homes s) (Hp : plenty s (content k) 1) (Hn : (length homes < 28)%nat) :
  runs (balloc 1) k (fun a k' => first_free s (content k) a /\ (exists homes', fsys k' c pi q ∅ st homes' s) /\
    blocks_only c pi q k k' /\ content k' a = block0 /\ in_use s (content k') a /\
    (forall b, 0 <= b < sb_size s -> free_in s (content k') b <-> free_in s (content k) b /\ b <> a) /\
    forall y, in_use s (content k) y -> content k' y = content k y).
Proof.
  destruct Hf as [Ht Hla Hd]. destruct (plenty_first s (content k) 0 Hp) as [a Ha].
  eapply runs_mono; [apply (balloc_spec lost c pi q st s k ∅ homes a Ht Hla (do_meta _ _ Hd)); [|done|rewrite size_empty; lia]|].
  { intros j Hj. set_solver. }
  intros r k' (-> & Ht' & _ & Hb & Hc). destruct (handed_out_facts k st s Hla (content k) a Hd Ha) as (Hd' & Hu & Hz & Hs & Hfr).
  split; [done|]. split; [eexists; split; [exact Ht'|by eapply layout_frame|by eapply disk_ok_ext]|]. split; [done|].
  split; [by rewrite Hc|]. split; [by rewrite (in_use_ext _ _ _ _ Hc)|]. split.
  - intros b Hb'. rewrite (free_in_ext _ _ _ _ Hc). split; [by apply Hfr|]. intros [? ?]. by apply (handed_out_left st s k).
  - intros y Hy. rewrite Hc. by apply Hs.
Qed.

(** C7. Reading a file.  Reading [n] bytes at [off] of a file (not a device)
    fails when [off] is past its end or [off + n] does not fit 32 bits, and
    otherwise returns the bytes of the file from [off] on, [n] of them or as many
    as there are; no block, inode or bit of the bitmap changes. *)
Theorem readi_reads k homes i ip off n
    (Hf : fsys k c pi q ∅ st homes s) (Hok : inode_ok s (content k) ip) (Hi : inodes (k_fs k) !! i = Some ip)
    (Hc : complete (content k) ip) (Ht : i_type ip <> T_DEV) (Hh : (length homes < 24)%nat)
    (Ho : 0 <= off < 2 ^ 32) (Hn : 0 <= n < 2 ^ 32) :
  runs (readi i DLocal off n) k (fun r k' =>
    r = (if (off >? i_size ip) || (off + n >=? 2 ^ 32) then (-1, [])
         else let m := Z.min n (i_size ip - off) in (m, slice (file_bytes (content k) ip) (Z.to_nat off) (Z.to_nat m))) /\
    blocks_only c pi q k k' /\ forall y, content k' y = content k y).
Proof.
  eapply runs_mono; [by apply (readi_spec lost c pi q st s k homes i ip off n)|]. intros r k' (-> & _ & Hb & Hs). done.
Qed.

(** C6. Writing a file.  A write that starts past the end of the file, or would
    make it longer than the largest file, fails and changes nothing.  Any other
    write puts the bytes in place of those at [off], or behind the last one; the
    file becomes as long as it must, its inode on disk agrees with the one in
    memory and no other inode on disk changes; blocks in use that are not the
    file's keep their contents and do not become the file's. *)
Theorem writei_writes k homes i ip off bs
    (Hw : writable c pi q st s k homes i ip off (Z.of_nat (length bs)))
    (Ho : 0 <= off < 2 ^ 32) (Hn : Z.of_nat (length bs) < 2 ^ 32) :
  runs (writei i (SLocal bs) off (Z.of_nat (length bs))) k (fun r k' =>
    if (off >? i_size ip) || (off + Z.of_nat (length bs) >? 140 * 512) then r = -1 /\ k' = k
    else r = Z.of_nat (length bs) /\ exists ip' homes', wrote c pi q st s k i ip off bs k' ip' homes').
Proof.
  eapply runs_mono; [by apply (writei_spec lost c pi q st s k homes i ip off bs)|]. intros r k'. cbv beta.
  destruct (_ || _); [done|]. intros (-> & ip' & homes' & H & _). split; [done|]. by exists ip', homes'.
Qed.

Lemma slice_splice_le {A} (l : list A) i new : (i <= length l)%nat -> slice (splice l i new) i (length new) = new.
Proof.
  intros Hi. unfold slice, splice. rewrite drop_app_ge by (rewrite length_take; lia). rewrite length_take, Nat.min_l by done.
  rewrite Nat.sub_diag, drop_0. apply take_app_length.
Qed.

(** What is written is read back.  After a write within the largest file, a
    read of as many bytes at the same offset returns the bytes written. *)
Theorem writei_then_readi k homes i ip off bs
    (Hw : writable c pi q st s k homes i ip off (Z.of_nat (length bs)))
    (Hl : (length homes + 6 * blocks_of off (Z.of_nat (length bs)) < 23)%nat)
    (Ho : 0 <= off <= i_size ip) (Hn : off + Z.of_nat (length bs) <= 140 * 512) :
  runs (writei i (SLocal bs) off (Z.of_nat (length bs)) ;; readi i DLocal off (Z.of_nat (length bs))) k
    (fun r _ => r = (Z.of_nat (length bs), bs)).
Proof.
  pose proof (io_size _ _ _ (wa_ok _ _ _ _ _ _ _ _ _ _ _ Hw)) as [Hsz _]. unfold runs.
  wp_call (writei_spec lost c pi q st s k homes i ip off bs Hw ltac:(lia) ltac:(lia)).
  intros r k1. destruct (Z.gtb_spec off (i_size ip)); [lia|]. cbn [orb]. destruct (Z.gtb_spec (off + Z.of_nat (length bs)) (140 * 512)); [lia|].
  intros (-> & ip1 & homes1 & [W1 W2 W3 W4 W5 W6 _ _] & Hh1). pose proof (wa_inode _ _ _ _ _ _ _ _ _ _ _ Hw) as Hi.
  eapply wp_mono; [|apply (readi_spec lost c pi q st s k1 homes1 i ip1 off); try done; try lia].
  - intros ? k2 [-> _]. unfold read_result. assert (i_size ip1 = Z.max (i_size ip) (off + Z.of_nat (length bs))) as -> by (by rewrite W5).
    destruct (Z.gtb_spec off (Z.max (i_size ip) (off + Z.of_nat (length bs)))); [lia|]. cbn [orb].
    destruct (Z.geb_spec (off + Z.of_nat (length bs)) (2 ^ 32)); [lia|]. cbv zeta. rewrite Z.min_l by lia. rewrite Nat2Z.id, W6.
    f_equal. apply slice_splice_le. unfold file_bytes. rewrite length_fmap, length_zseq. lia.
  - by eapply on_file_at.
  - rewrite W5. apply (wa_type _ _ _ _ _ _ _ _ _ _ _ Hw).
Qed.

End FileIo.

(** ** On the small disk *)

Lemma balloc_hands_out_witness :
  first_free sb0 (content kernel_hello) 42 /\
  runs (balloc (BD := power (fun _ _ => false)) 1) kernel_hello (fun a k' => a = 42 /\ content k' 40 = content kernel_hello 40).
Proof.
  assert (first_free sb0 (content kernel_hello) 42) as H42.
  { split; [by vm_compute|]. split; [apply kernel_hello_free; lia|]. intros b Hb. rewrite kernel_hello_free; lia. }
  split; [exact H42|]. eapply runs_mono; [apply (balloc_hands_out (fun _ _ => false) 0 1 2 2 sb0 kernel_hello [] kernel_hello_sys)|].
  - eapply plenty_mono; [|intros b _ Hb; exact Hb|exact kernel_hello_plenty]. lia.
  - simpl. lia.
  - intros a k' ((Ha & Hf & Hmin) & _ & _ & _ & _ & _ & Hs). split.
    + apply kernel_hello_free in Hf; [|exact Ha]. destruct (decide (42 < a)); [|lia]. exfalso. apply (Hmin 42); [lia|]. apply H42.
    + apply Hs. split; [by vm_compute|]. rewrite kernel_hello_free; lia.
Defined.

Lemma readi_reads_witness :
  runs (readi (BD := power (fun _ _ => false)) 0 DLocal 1 100) kernel_hello (fun r _ => r = (4, bytes_of "ello")).
Proof.
  eapply runs_mono; [apply (readi_reads (fun _ _ => false) 0 1 2 2 sb0 kernel_hello [] 0 inode_hello 1 100
    kernel_hello_sys kernel_hello_ok eq_refl kernel_hello_complete)|].
  - by vm_compute.
  - simpl. lia.
  - lia.
  - lia.
  - intros r k' (-> & _). by vm_compute.
Defined.

Lemma kernel_hello_writable : writable 0 1 2 2 sb0 kernel_hello [] 0 inode_hello 3 4.
Proof.
  split; [exact kernel_hello_sys|exact kernel_hello_ok|done|exact kernel_hello_complete|..].
  - unfold inode_on_disk. rewrite kernel_hello_content. by vm_compute.
  - by vm_compute.
  - repeat constructor; vm_compute; congruence.
  - vm_compute. lia.
  - exact kernel_hello_plenty.
Qed.

Lemma writei_writes_witness :
  runs (writei (BD := power (fun _ _ => false)) 0 (SLocal (bytes_of "p me")) 3 4) kernel_hello (fun r k' => r = 4 /\ exists ip',
    inodes (k_fs k') !! 0%nat = Some ip' /\ file_bytes (content k') ip' = bytes_of "help me").
Proof.
  eapply runs_mono; [apply (writei_writes (fun _ _ => false) 0 1 2 2 sb0 kernel_hello [] 0 inode_hello 3 (bytes_of "p me")
    kernel_hello_writable)|].
  - lia.
  - vm_compute. congruence.
  - intros r k' (-> & ip' & homes' & H). split; [done|]. exists ip'. split.
    + eapply on_file_at; [|exact (we_file _ _ _ _ _ _ _ _ _ _ _ _ _ H)]. reflexivity.
    + rewrite (we_bytes _ _ _ _ _ _ _ _ _ _ _ _ _ H). vm_compute. reflexivity.
Defined.

Lemma writei_then_readi_witness :
  runs (writei (BD := power (fun _ _ => false)) 0 (SLocal (bytes_of "p me")) 3 4 ;; readi (BD := power (fun _ _ => false)) 0 DLocal 3 4) kernel_hello
    (fun r _ => r = (4, bytes_of "p me")).
Proof.
  apply (writei_then_readi (fun _ _ => false) 0 1 2 2 sb0 kernel_hello [] 0 inode_hello 3 (bytes_of "p me") kernel_hello_writable).
  - vm_compute. lia.
  - simpl. lia.
  - vm_compute. congruence.
Defined.
