(* ===== verification/DirSpec.v ===== *)
(** * Directories (fs.c: iget, dirlookup, dirlink)

    A directory is a file of entries; seen from outside it is a map from names
    to inode numbers.  [dirlookup] looks a name up in this map and takes a
    reference to the inode it finds; [dirlink] adds a name. *)

From S2P Require Import Prelude Params State Spinlock Seg Str Proc ProcSpec ProcRefine SleepWake FsState Sleeplock Demo DemoFs.
From S2P Require Import SleeplockSpec Ring BlockDev Ide Memide Bio BioSpec Log LogSpec TxSpec Inode BlockTx Balloc Console Fs FileSpec RwSpec FileIo.

(** ** Entries *)

(** Entry [j] of a directory with the contents [bs]. *)
Definition entry (bs : list Z) (j : nat) : dirent := get_dirent (slice bs (16 * j) 16).

Definition entries (bs : list Z) : list dirent := entry bs <$> seq 0 (length bs / 16).

(** The characters of a name, up to 14. *)
Definition key (name : list Z) : list Z := cstr 14 name.

(** The map that the entries make: the first of several with the same name counts. *)
Definition dir_map (es : list dirent) : gmap (list Z) Z :=
  foldr (fun de m => if de_inum de =? 0 then m else <[key (de_name de) := de_inum de]> m) ∅ es.

(** The first entry that satisfies the test. *)
Fixpoint scan (test : dirent -> bool) (es : list dirent) (off : Z) (last : dirent) : bool * Z * dirent :=
  match es with
  | [] => (false, off, last)
  | de :: es' => if test de then (true, off, de) else scan test es' (off + 16) de
  end.

Definition named (name : list Z) (de : dirent) : bool := nz (de_inum de) && (namecmp name (de_name de) =? 0).

Definition bytes (bs : list Z) : Prop := Forall (fun b => 0 <= b < 256) bs.

Lemma named_key name de : bytes name -> bytes (de_name de) -> named name de = true <-> de_inum de <> 0 /\ key name = key (de_name de).
Proof.
  intros H1 H2. unfold named, namecmp, key. change (Z.to_nat DIRSIZ) with 14%nat. rewrite andb_true_iff, nz_true, Z.eqb_eq. by rewrite strncmp_cstr.
Qed.

(** The scan finds what is in the map. *)
Lemma scan_map name es : bytes name -> Forall (fun de => bytes (de_name de)) es -> forall off last,
  match scan (named name) es off last with
  | (true, off', de) => dir_map es !! key name = Some (de_inum de) /\ de_inum de <> 0 /\ exists j, es !! j = Some de /\ off' = off + 16 * Z.of_nat j
  | (false, off', _) => dir_map es !! key name = None /\ off' = off + 16 * Z.of_nat (length es)
  end.
Proof.
  intros Hn Hes. induction Hes as [|de es Hde Hes IH]; intros off last; cbn [scan dir_map foldr]; [cbn; split; [done|lia]|].
  pose proof (named_key name de Hn Hde) as Hk. fold (dir_map es). destruct (named name de) eqn:E.
  - destruct (proj1 Hk eq_refl) as [H0 Ek]. rewrite (proj2 (Z.eqb_neq _ _) H0), Ek, lookup_insert_eq. split; [done|]. split; [done|].
    exists 0%nat. split; [done|lia].
  - specialize (IH (off + 16) de).
    assert ((if de_inum de =? 0 then dir_map es else <[key (de_name de) := de_inum de]> (dir_map es)) !! key name = dir_map es !! key name) as ->.
    { destruct (Z.eqb_spec (de_inum de) 0); [done|]. rewrite lookup_insert_ne; [done|]. intros Ek.
      assert (false = true) by (apply Hk; done). done. }
    destruct (scan (named name) es (off + 16) de) as [[[] off'] de'].
    + destruct IH as (H1 & H2 & j & H3 & ->). split; [done|]. split; [done|]. exists (S j). split; [done|lia].
    + destruct IH as [H1 ->]. split; [done|]. cbn [length]. lia.
Qed.

(** ** Adding an entry *)

Lemma dir_map_skip es1 de es2 : de_inum de = 0 -> dir_map (es1 ++ de :: es2) = dir_map (es1 ++ es2).
Proof.
  intros H. unfold dir_map. rewrite !foldr_app. cbn [foldr]. by rewrite H.
Qed.

Lemma dir_map_add es1 de es2 : de_inum de <> 0 -> dir_map (es1 ++ es2) !! key (de_name de) = None ->
  dir_map (es1 ++ de :: es2) = <[key (de_name de) := de_inum de]> (dir_map (es1 ++ es2)).
Proof.
  intros H. unfold dir_map. induction es1 as [|x es1 IH]; cbn [app foldr]; intros Hn.
  - by rewrite (proj2 (Z.eqb_neq _ _) H).
  - fold (dir_map (es1 ++ es2)) in *. fold (dir_map (es1 ++ de :: es2)) in *. destruct (de_inum x =? 0); [by apply IH|].
    destruct (decide (key (de_name x) = key (de_name de))) as [E|E]; [by rewrite E, lookup_insert_eq in Hn|]. rewrite lookup_insert_ne in Hn by done.
    rewrite IH by done. by rewrite insert_insert_ne.
Qed.

Lemma get_dirent_bytes de : 0 <= de_inum de < 2 ^ 16 -> length (de_name de) = 14%nat -> get_dirent (dirent_bytes de) = de.
Proof.
  intros H1 H2. destruct de as [n nm]. cbn [de_inum de_name] in *. unfold get_dirent, dirent_bytes, half_at. cbn [de_inum de_name]. f_equal.
  - change (slice (le_bytes 2 n ++ nm) 0 2) with (le_bytes 2 n). rewrite le_val_bytes. by apply Z.mod_small.
  - unfold slice. rewrite drop_app_ge by (by rewrite length_le_bytes). rewrite length_le_bytes, Nat.sub_diag, drop_0. by apply take_ge; rewrite H2.
Qed.

Lemma length_entries bs : length (entries bs) = (length bs / 16)%nat.
Proof. unfold entries. by rewrite length_fmap, length_seq. Qed.

Lemma entries_lookup bs j : (j < length bs / 16)%nat -> entries bs !! j = Some (entry bs j).
Proof. intros H. unfold entries. by rewrite list_lookup_fmap, lookup_seq_lt by done. Qed.

(** An entry written over an old one, or behind the last. *)
Lemma entries_splice bs n j de : length bs = (16 * n)%nat -> (j <= n)%nat -> 0 <= de_inum de < 2 ^ 16 -> length (de_name de) = 14%nat ->
  entries (splice bs (16 * j) (dirent_bytes de)) = take j (entries bs) ++ de :: drop (S j) (entries bs).
Proof.
  intros Hl Hj H1 H2. set (b := dirent_bytes de). assert (length b = 16%nat) as Hb by (unfold b, dirent_bytes; by rewrite length_app, length_le_bytes, H2).
  assert (length (splice bs (16 * j) b) = (16 * Nat.max n (S j))%nat) as Hl'.
  { unfold splice. rewrite !length_app, length_take, length_drop. lia. }
  assert (length bs / 16 = n)%nat as Hn by (rewrite Hl, Nat.mul_comm; by apply Nat.div_mul).
  assert (length (splice bs (16 * j) b) / 16 = Nat.max n (S j))%nat as Hn' by (rewrite Hl', Nat.mul_comm; by apply Nat.div_mul).
  apply (list_eq_same_length _ _ (Nat.max n (S j))).
  - rewrite length_app, length_take. cbn [length]. rewrite length_drop, length_entries. lia.
  - by rewrite length_entries.
  - intros i x y Hi Hx Hy. rewrite entries_lookup in Hx by lia. apply (inj Some) in Hx as <-.
    assert (forall m, m <> j -> (m < n)%nat -> entry (splice bs (16 * j) b) m = entry bs m) as Hother.
    { intros m Hm Hmn. unfold entry. f_equal. apply list_eq. intros o. unfold slice. destruct (decide (o < 16)%nat); [|by rewrite !lookup_take_ge by lia].
      rewrite !lookup_take_lt, !lookup_drop by lia. rewrite lookup_splice by lia. by rewrite decide_False by lia. }
    destruct (decide (i < j)%nat); [|destruct (decide (i = j)) as [->|]].
    + rewrite lookup_app_l, lookup_take_lt, entries_lookup in Hy by (rewrite ?length_take, ?length_entries; lia). apply (inj Some) in Hy as <-. apply Hother; lia.
    + rewrite lookup_app_r in Hy by (rewrite length_take, length_entries; lia). rewrite length_take, length_entries, Nat.min_l, Nat.sub_diag in Hy by lia.
      apply (inj Some) in Hy as <-. unfold entry. pose proof (slice_splice_le bs (16 * j) b ltac:(lia)) as Hs. rewrite Hb in Hs. rewrite Hs. by apply get_dirent_bytes.
    + rewrite lookup_app_r in Hy by (rewrite length_take, length_entries; lia). rewrite length_take, length_entries, Nat.min_l, lookup_cons_ne_0 in Hy by lia.
      rewrite lookup_drop in Hy. replace (S j + pred (i - j))%nat with i in Hy by lia.
      rewrite entries_lookup in Hy by lia. apply (inj Some) in Hy as <-. apply Hother; lia.
Qed.

(** Looking for a free entry ends at the first one, or behind the last entry. *)
Lemma scan_free (P : dirent -> Prop) es off last : Forall P (last :: es) ->
  let '(_, off', de) := scan (fun de => de_inum de =? 0) es off last in
  P de /\ exists j, off' = off + 16 * Z.of_nat j /\
    (j = length es \/ exists de0, es !! j = Some de0 /\ de_inum de0 = 0).
Proof.
  revert off last. induction es as [|x es IH]; intros off last H; cbn [scan]; apply list.Forall_cons in H as [Hl H].
  - split; [done|]. exists 0%nat. split; [lia|by left].
  - destruct (Z.eqb_spec (de_inum x) 0) as [E|E].
    + split; [by apply list.Forall_cons in H as [? _]|]. exists 0%nat. split; [lia|]. right. by exists x.
    + specialize (IH (off + 16) x H). destruct (scan _ es (off + 16) x) as [[? off'] de]. destruct IH as (H1 & j & -> & H2).
      split; [done|]. exists (S j). split; [lia|]. destruct H2 as [->|(de0 & H2 & H3)]; [by left|right]. by exists de0.
Qed.

Lemma entries_names bs : Forall (fun de => length (de_name de) = 14%nat) (entries bs).
Proof.
  unfold entries. apply Forall_fmap. apply list.Forall_forall. intros j Hj%elem_of_seq. cbn. unfold slice. rewrite !length_take, !length_drop, length_take, length_drop.
  pose proof (Nat.div_mod_eq (length bs) 16). lia.
Qed.

(** The map after an entry has been written over a free one or behind the last. *)
Lemma dir_map_written es j de :
  (j = length es \/ exists de0, es !! j = Some de0 /\ de_inum de0 = 0) -> de_inum de <> 0 -> dir_map es !! key (de_name de) = None ->
  dir_map (take j es ++ de :: drop (S j) es) = <[key (de_name de) := de_inum de]> (dir_map es).
Proof.
  intros Hj Hi Hn. assert (dir_map es = dir_map (take j es ++ drop (S j) es)) as E.
  { destruct Hj as [->|(de0 & Hj & H0)]; [by rewrite drop_ge, take_ge, app_nil_r by lia|].
    rewrite <-(take_drop_middle es j de0 Hj) at 1. by apply dir_map_skip. }
  rewrite E in Hn |- *. by apply dir_map_add.
Qed.

Section DirSpec.
Context {LK : Linker} {FU : Fuel}.
Context (lost : gmap (Z * Z) (list Z) -> Z -> bool).
Implicit Types (k : K).

#[local] Instance dir_power : BlockDev := power lost.

Context (c pi : nat) (q st : Z) (s : superblock).

(** A directory that is ready to be read. *)
Record directory (k : K) (homes : list Z) (dp : nat) (ip : inode) : Prop := {
  di_sys : fsys k c pi q ∅ st homes s;
  di_ok : inode_ok s (content k) ip;
  di_inode : inodes (k_fs k) !! dp = Some ip;
  di_complete : complete (content k) ip;
  di_type : i_type ip = T_DIR;
  di_size : i_size ip `mod` 16 = 0;
  di_bytes : bytes (file_bytes (content k) ip);
  di_log : (length homes < 24)%nat
}.

Lemma length_file_bytes d ip : length (file_bytes d ip) = Z.to_nat (i_size ip).
Proof. unfold file_bytes. by rewrite length_fmap, length_zseq. Qed.

Lemma file_bytes_ext d d' ip : (forall y, d' y = d y) -> file_bytes d' ip = file_bytes d ip.
Proof.
  intros H. unfold file_bytes, fbyte. apply list_fmap_ext. intros ? o _. rewrite (baddr_ext d d') by auto. by rewrite H.
Qed.

Lemma directory_same k k' homes dp ip : unchanged c pi q st s homes k k' -> directory k homes dp ip -> directory k' homes dp ip.
Proof.
  intros Hu [D1 D2 D3 D4 D5 D6 D7 D8]. destruct (on_inode_ok c pi q st s homes k k' ip dp Hu D2 D3) as [Hok Hi]. destruct Hu as (Hf & _ & Hc). split; try done.
  - intros n Hn Hlt. rewrite (baddr_ext (content k)) by auto. by apply D4.
  - by rewrite (file_bytes_ext (content k)).
Qed.

(** The number of entries. *)
Lemma entries_size k homes dp ip : directory k homes dp ip ->
  length (entries (file_bytes (content k) ip)) = Z.to_nat (i_size ip / 16) /\ i_size ip = 16 * Z.of_nat (Z.to_nat (i_size ip / 16)) /\
  0 <= i_size ip <= 140 * 512.
Proof.
  intros Hd. pose proof (io_size _ _ _ (di_ok _ _ _ _ Hd)) as [Hs _]. pose proof (di_size _ _ _ _ Hd) as Hm. pose proof (Z.div_mod (i_size ip) 16 ltac:(lia)) as E.
  pose proof (Z.div_pos (i_size ip) 16 ltac:(lia) ltac:(lia)). unfold entries. rewrite length_fmap, length_seq, length_file_bytes. split; [|lia].
  rewrite Z2Nat.inj_div by lia. done.
Qed.

Lemma entries_drop bs j : (j < length bs / 16)%nat -> drop j (entries bs) = entry bs j :: drop (S j) (entries bs).
Proof.
  intros Hj. apply drop_S. unfold entries. by rewrite list_lookup_fmap, lookup_seq_lt by done.
Qed.

Lemma dir_scan_spec homes dp ip msg test : forall fuel k j last,
  directory k homes dp ip -> (j <= length (entries (file_bytes (content k) ip)))%nat ->
  (length (entries (file_bytes (content k) ip)) - j <= fuel)%nat ->
  runs (dir_scan fuel dp msg test (16 * Z.of_nat j) last) k (fun r k' =>
    r = scan test (drop j (entries (file_bytes (content k) ip))) (16 * Z.of_nat j) last /\ unchanged c pi q st s homes k k').
Proof.
  induction fuel as [|fuel IH]; intros k j last Hd Hj Hf; pose proof (entries_size _ _ _ _ Hd) as (El & Es & Hs).
  all: unfold runs; cbn [dir_scan]; rewrite bind_eq, (get_inode_eq _ _ _ (di_inode _ _ _ _ Hd)); cbn [res_bind].
  all: destruct (decide (j = length (entries (file_bytes (content k) ip)))) as [->|Hne];
    [rewrite (proj2 (Z.ltb_ge _ _)) by lia; cbn [negb]; kred; rewrite drop_ge by lia; split; [done|]; by apply unchanged_refl, Hd|].
  - lia.
  - rewrite (proj2 (Z.ltb_lt _ _)) by lia. cbn [negb].
    assert (i_type ip <> T_DEV) as Hty by (by rewrite (di_type _ _ _ _ Hd)).
    wp_call (readi_spec lost c pi q st s k homes dp ip (16 * Z.of_nat j) 16 (di_sys _ _ _ _ Hd) (di_ok _ _ _ _ Hd) (di_inode _ _ _ _ Hd)
      (di_complete _ _ _ _ Hd) Hty (di_log _ _ _ _ Hd) ltac:(lia) ltac:(lia)).
    intros r k1 [-> Hu]. unfold read_result. destruct (Z.gtb_spec (16 * Z.of_nat j) (i_size ip)); [lia|]. destruct (Z.geb_spec (16 * Z.of_nat j + 16) (2 ^ 32)); [lia|].
    cbn [orb]. cbv zeta. rewrite Z.min_l by lia. cbn [fst snd]. change (negb (16 =? sizeof_dirent)) with false. cbv iota.
    replace (Z.to_nat (16 * Z.of_nat j)) with (16 * j)%nat by lia. change (Z.to_nat 16) with 16%nat.
    change (get_dirent (slice (file_bytes (content k) ip) (16 * j) 16)) with (entry (file_bytes (content k) ip) j).
    rewrite entries_drop by (unfold entries in El, Hj, Hne; rewrite length_fmap, length_seq in El, Hj, Hne; lia). cbn [scan].
    destruct (test (entry (file_bytes (content k) ip) j)); [kred; by split|]. change sizeof_dirent with 16.
    replace (16 * Z.of_nat j + 16) with (16 * Z.of_nat (S j)) by lia. pose proof Hu as (_ & _ & Hc).
    eapply wp_mono; [|apply (IH k1 (S j)); [by eapply directory_same|..]]; rewrite ?(file_bytes_ext (content k) _ ip Hc); [|lia|lia].
    intros r k2 [-> Hu2]. split; [done|]. by eapply unchanged_trans.
Qed.

(** ** References to inodes *)

(** Slot [i] of the table is in use for inode [inum]. *)
Definition refers (ips : list inode) (inum : Z) (i : nat) : Prop :=
  exists ip, ips !! i = Some ip /\ 0 < i_ref ip /\ i_dev ip = 1 /\ i_inum ip = inum.

(** [iget] has taken a reference: to the slot in use for the inode, or to the
    first free one. *)
Definition referred (ips : list inode) (inum : Z) (i : nat) (ip' : inode) : Prop :=
  exists ip, ips !! i = Some ip /\
    ((0 < i_ref ip /\ i_dev ip = 1 /\ i_inum ip = inum /\ ip' = set_i_ref (i_ref ip + 1) ip) \/
     (i_ref ip = 0 /\ (forall j, ~ refers ips inum j) /\
      ip' = set_i_valid 0 (set_i_ref 1 (set_i_inum inum (set_i_dev 1 ip))))).

Lemma iget_scan_spec k inum : forall l e, (forall i, i ∈ l -> (i < length (inodes (k_fs k)))%nat) ->
  exists r e', iget_scan l 1 inum e k = Done (r, e') k /\
    match r with
    | Some i => refers (inodes (k_fs k)) inum i
    | None => (forall i, i ∈ l -> ~ refers (inodes (k_fs k)) inum i) /\
        match e, e' with
        | Some _, _ => e' = e
        | None, Some i => i ∈ l /\ exists ip, inodes (k_fs k) !! i = Some ip /\ i_ref ip = 0
        | None, None => forall i ip, i ∈ l -> inodes (k_fs k) !! i = Some ip -> i_ref ip <> 0
        end
    end.
Proof.
  induction l as [|i l IH]; intros e Hl; cbn [iget_scan].
  - exists None, e. split; [done|]. split; [intros i Hi; set_solver|]. destruct e; [done|]. intros i ip Hi. set_solver.
  - destruct (lookup_lt_is_Some_2 (inodes (k_fs k)) i) as [ip Hip]; [apply Hl; left|].
    rewrite bind_eq, (get_inode_eq _ _ _ Hip). cbn [res_bind].
    destruct ((i_ref ip >? 0) && (i_dev ip =? 1) && (i_inum ip =? inum)) eqn:E.
    + exists (Some i), e. split; [done|]. exists ip. split; [done|]. lia.
    + destruct (IH (match e with None => if i_ref ip =? 0 then Some i else None | Some e => Some e end)) as (r & e' & Er & H); [intros j Hj; apply Hl; by right|].
      exists r, e'. split; [done|]. destruct r as [j|]; [done|]. destruct H as [H1 H2]. split.
      * intros j [->|Hj]%elem_of_cons; [|auto]. intros (ip2 & H3 & H4 & H5 & H6). rewrite Hip in H3. injection H3 as <-. lia.
      * destruct e as [e|]; [done|]. destruct (Z.eqb_spec (i_ref ip) 0) as [E0|E0].
        -- subst e'. split; [by left|]. by exists ip.
        -- destruct e' as [e'|]; [destruct H2; split; [by right|done]|].
           intros j ipj [->|Hj]%elem_of_cons Hjp; [congruence|]. by apply (H2 j).
Qed.

(** The locks of buffers are as they were. *)
Definition same_buf_locks (k k' : K) : Prop := forall j, slock k' (SLbuf j) = slock k (SLbuf j).

Lemma same_locks k k' : goes_on c pi q k k' -> k_slocks k' = k_slocks k -> stays c pi q k k' /\ same_buf_locks k k'.
Proof. intros Hg E. split; [split; [done|]|]; intros j; unfold slock; by rewrite E. Qed.

Lemma cache_buf_locks k k' order held :
  cache k q order held -> cbufs k' = cbufs k -> disk (k_fs k') = disk (k_fs k) -> same_buf_locks k k' -> cache k' q order held.
Proof.
  intros [C1 C2 C3 C4 C5 C6 C7 C8 C9] Eb Ed Es.
  assert (forall y, dblock k' y = dblock k y) as E by (intros y; unfold dblock, disk_block; by rewrite Ed).
  split; rewrite ?Eb; auto.
  - intros i Hi. specialize (C4 i Hi). by rewrite !Es.
  - intros i b Hb Hlt Hh. specialize (C8 i b Hb Hlt Hh). unfold idle_ok in *. by rewrite E.
  - intros x. by rewrite E.
Qed.

(** Only the table of inodes and the locks of inodes have changed. *)
Lemma fsys_table k k' homes i ip : fsys k c pi q ∅ st homes s -> stays c pi q k k' ->
  k_fs k' = set_inodes (<[i := ip]> (inodes (k_fs k))) (k_fs k) -> same_buf_locks k k' ->
  fsys k' c pi q ∅ st homes s /\ on_file c pi q i ip k k' /\ forall y, content k' y = content k y.
Proof.
  intros [[T1 [order T2] T3 T4 T5 T6] Hla Hdk] Hg Ef Hl.
  assert (on_file c pi q i ip k k') as Hof by (split; [done|]; unfold cbufs; rewrite Ef; by destruct (k_fs k)).
  assert (forall y, content k' y = content k y) as Hc by (intros y; unfold content, cbufs, dblock; by rewrite Ef).
  split; [|done]. split; [|eapply on_file_layout; [exact Hof|done]|eapply disk_ok_ext; [exact Hc|done]].
  split; [apply Hg|exists order; apply (cache_buf_locks k); [done|unfold cbufs; by rewrite Ef|by rewrite Ef|done]| | | |].
  - destruct T3. split; unfold dblock in *; rewrite ?Ef; done.
  - by rewrite Ef.
  - by rewrite Ef.
  - intros y. unfold dirty, cbufs. rewrite Ef. apply T6.
Qed.

(** The inode in slot [i] is [ip]. *)
Definition with_inode (i : nat) (ip : inode) (k : K) : K := set_k_fs (set_inodes (<[i := ip]> (inodes (k_fs k))) (k_fs k)) k.

Lemma upd_with_inode k i ip f : (i < length (inodes (k_fs k)))%nat ->
  upd_inode i f (with_inode i ip k) = Done tt (with_inode i (f ip) k).
Proof.
  intros Hi. rewrite (upd_inode_eq _ i ip) by (by apply list_lookup_insert_eq). unfold with_inode. cbn.
  by rewrite list_insert_insert_eq.
Qed.

Lemma iget_spec k inum :
  me k c pi q -> length (inodes (k_fs k)) = 50%nat ->
  (exists i, refers (inodes (k_fs k)) inum i) \/ (exists i ip, inodes (k_fs k) !! i = Some ip /\ i_ref ip = 0) ->
  runs (iget 1 inum) k (fun i k' => exists ip', referred (inodes (k_fs k)) inum i ip' /\
    k_fs k' = set_inodes (<[i := ip']> (inodes (k_fs k))) (k_fs k) /\ stays c pi q k k' /\ same_buf_locks k k').
Proof.
  intros Hm Hlen Hroom. unfold runs, iget.
  wp_call (acquire_holds k c 0 [] LKicache (me_holds _ _ _ _ Hm) (not_elem_of_nil _)); [|lia]. intros _ k1 [Hk1 Hc1].
  pose proof (core_fs _ _ Hc1) as Ef. change inode_slots with (seq 0 50).
  destruct (iget_scan_spec k1 inum (seq 0 50) None) as (r & e' & Er & H); [intros i Hi%elem_of_seq; rewrite Ef, Hlen; lia|].
  rewrite bind_eq, Er. cbn [res_bind]. rewrite Ef in H. destruct r as [i|].
  - destruct H as (ip & Hi & H1 & H2 & H3). rewrite bind_eq, (upd_inode_eq k1 i ip) by (by rewrite Ef). cbn [res_bind].
    wp_call (unlock_fs k k1 c pi q LKicache _ Hm Hk1 Hc1). intros _ k2 (Hg & Ef2 & Es2). kred. rewrite Ef in Ef2.
    exists (set_i_ref (i_ref ip + 1) ip). split; [|split; [done|by apply same_locks]]. exists ip. split; [done|]. by left.
  - destruct H as [Hno He]. assert (forall j, ~ refers (inodes (k_fs k)) inum j) as Hno'.
    { intros j Hj. apply (Hno j); [|done]. destruct Hj as (ip & Hj & _). apply lookup_lt_Some in Hj. apply elem_of_seq. lia. }
    destruct e' as [i|].
    + destruct He as (_ & ip & Hi & H0). assert (i < length (inodes (k_fs k1)))%nat as Hlt by (rewrite Ef; by eapply lookup_lt_Some).
      rewrite bind_eq, (upd_inode_eq k1 i ip) by (by rewrite Ef). cbn [res_bind]. fold (with_inode i (set_i_dev 1 ip) k1).
      rewrite !bind_eq, upd_with_inode by done. cbn [res_bind]. rewrite bind_eq, upd_with_inode by done. cbn [res_bind].
      rewrite bind_eq, upd_with_inode by done. cbn [res_bind]. unfold with_inode.
      wp_call (unlock_fs k k1 c pi q LKicache _ Hm Hk1 Hc1). intros _ k2 (Hg & Ef2 & Es2). kred. rewrite Ef in Ef2.
      eexists. split; [|split; [done|by apply same_locks]]. exists ip. split; [done|]. by right.
    + exfalso. destruct Hroom as [[i Hi]|(i & ip & Hi & H0)]; [by apply (Hno' i)|]. apply (He i ip); [|done..].
      apply lookup_lt_Some in Hi. apply elem_of_seq. lia.
Qed.

(** ** Looking up a name *)

Lemma bytes_slice bs i n : bytes bs -> bytes (slice bs i n).
Proof. intros H. unfold slice. by apply Forall_take, Forall_drop. Qed.

Lemma entries_bytes bs : bytes bs -> Forall (fun de => bytes (de_name de)) (entries bs).
Proof.
  intros H. unfold entries. apply Forall_fmap. apply list.Forall_forall. intros j _. by apply (bytes_slice _ 2 14), bytes_slice.
Qed.

(** The name is looked up in the map of the directory; a reference is taken to
    the inode found. *)
Definition looked_up (homes : list Z) (k : K) (es : list dirent) (name : list Z) (o : option (nat * Z)) (k' : K) : Prop :=
  match dir_map es !! key name with
  | None => o = None /\ unchanged c pi q st s homes k k'
  | Some inum => exists i j de ip', o = Some (i, 16 * Z.of_nat j) /\ es !! j = Some de /\ de_inum de = inum /\
      referred (inodes (k_fs k)) inum i ip' /\ fsys k' c pi q ∅ st homes s /\ on_file c pi q i ip' k k' /\
      forall y, content k' y = content k y
  end.

Lemma dirlookup_spec k homes dp ip name :
  directory k homes dp ip -> bytes name -> length (inodes (k_fs k)) = 50%nat ->
  (exists i ipf, inodes (k_fs k) !! i = Some ipf /\ i_ref ipf = 0) ->
  runs (dirlookup dp name) k (looked_up homes k (entries (file_bytes (content k) ip)) name).
Proof.
  intros Hd Hn Hlen Hfree. pose proof (entries_size _ _ _ _ Hd) as (El & Es & Hs). unfold runs, dirlookup.
  rewrite bind_eq, (get_inode_eq _ _ _ (di_inode _ _ _ _ Hd)). cbn [res_bind]. rewrite (di_type _ _ _ _ Hd). change (negb (T_DIR =? T_DIR)) with false. cbv iota.
  set (es := entries (file_bytes (content k) ip)) in *. pose proof (Z.div_pos (i_size ip) 16 ltac:(lia) ltac:(lia)).
  wp_call (dir_scan_spec homes dp ip "dirlookup read" (named name) (dir_fuel ip) k 0 no_dirent Hd).
  2: lia. 2:{ fold es. unfold dir_fuel. change sizeof_dirent with 16. lia. }
  intros r k1 [-> Hu]. rewrite drop_0. fold es. change (16 * Z.of_nat 0) with 0.
  pose proof (scan_map name es Hn (entries_bytes _ (di_bytes _ _ _ _ Hd)) 0 no_dirent) as Hsc.
  unfold looked_up. destruct (scan (named name) es 0 no_dirent) as [[[] off] de].
  - destruct Hsc as (Hmap & H0 & j & Hj & ->). rewrite Hmap, (io_dev _ _ _ (di_ok _ _ _ _ Hd)). pose proof Hu as (Hf1 & Hb1 & Hc1).
    destruct (blocks_only_disk _ _ _ _ _ Hb1) as (_ & Ein & _).
    wp_call (iget_spec k1 (de_inum de) (tx_me _ _ _ _ _ _ _ (fy_tx _ _ _ _ _ _ _ _ Hf1)) ltac:(by rewrite Ein) ltac:(right; by rewrite Ein)).
    intros i k2 (ip' & Href & Ef2 & Hg2 & Es2). kred. rewrite Ein in Href, Ef2.
    destruct (fsys_table k1 k2 homes i ip' Hf1 Hg2) as (Hf2 & Hof & Hc2); [by rewrite Ein|done|].
    exists i, j, de, ip'. split; [by rewrite Z.add_0_l|]. do 4 (split; [done|]). split; [|intros y; by rewrite Hc2].
    split; [eapply stays_trans; [apply Hb1|done]|]. unfold cbufs. rewrite Ef2. destruct Hb1 as [_ E1]. rewrite E1. by destruct (k_fs k).
  - destruct Hsc as [-> _]. kred. by split.
Qed.

(** ** Adding a name *)

(** What is needed to write an entry: the inode on the disk is the one in
    memory, and there is room in the log, on the disk and in the directory. *)
Record linkable (k : K) (homes : list Z) (dp : nat) (ip : inode) : Prop := {
  li_dir : directory k homes dp ip;
  li_disk : inode_on_disk s (content k) (i_inum ip) = to_dinode ip;
  li_short : Forall (fun z => - 2 ^ 15 <= z < 2 ^ 15) [i_type ip; i_major ip; i_minor ip; i_nlink ip];
  li_log : (length homes + 7 < 24)%nat;
  li_free : plenty s (content k) 2;
  li_room : i_size ip < 140 * 512;
  li_ref : 0 < i_ref ip
}.

Lemma blocks_of_entry j : 0 <= j -> blocks_of (16 * j) 16 = 1%nat.
Proof.
  intros Hj. unfold blocks_of. pose proof (Z.mod_pos_bound (16 * j) 512 ltac:(lia)). assert ((16 * j) `mod` 512 = 16 * (j `mod` 32)) as E.
  { change 512 with (16 * 32). apply Z.mul_mod_distr_l; lia. }
  replace (_ / 512) with 1; [done|]. apply Z.div_unique with ((16 * j) `mod` 512 + 15); lia.
Qed.

Lemma linkable_writable k homes dp ip j : linkable k homes dp ip -> 0 <= j -> writable c pi q st s k homes dp ip (16 * j) 16.
Proof.
  intros [[D1 D2 D3 D4 D5 D6 D7 D8] L1 L2 L3 L4 L5 L6] Hj. split; try done; rewrite ?blocks_of_entry by done; [by rewrite D5|lia|done].
Qed.

Lemma linkable_same k k' homes dp ip : unchanged c pi q st s homes k k' -> linkable k homes dp ip -> linkable k' homes dp ip.
Proof.
  intros Hu [L0 L1 L2 L3 L4 L5 L6]. pose proof (directory_same _ _ _ _ _ Hu L0). destruct Hu as (_ & _ & Hc). split; try done.
  - unfold inode_on_disk in *. by rewrite Hc.
  - eapply plenty_mono; [|intros b _ Hb; by rewrite (free_in_ext _ _ _ _ Hc)|exact L4]. lia.
Qed.

(** Slot [i] of the directory's table now holds [de]; the map has the new name. *)
Lemma entry_written k homes dp ip k' ip' homes' j de :
  directory k homes dp ip -> (j <= length (entries (file_bytes (content k) ip)))%nat -> 0 <= de_inum de < 2 ^ 16 ->
  length (de_name de) = 14%nat -> bytes (de_name de) -> (length homes' < 24)%nat ->
  wrote c pi q st s k dp ip (16 * Z.of_nat j) (dirent_bytes de) k' ip' homes' ->
  directory k' homes' dp ip' /\
  entries (file_bytes (content k') ip') = take j (entries (file_bytes (content k) ip)) ++ de :: drop (S j) (entries (file_bytes (content k) ip)).
Proof.
  intros Hd Hj Hi Hl Hb Hh [W1 W2 W3 W4 W5 W6 W7 W8]. pose proof (entries_size _ _ _ _ Hd) as (El & Es & Hs).
  assert (length (dirent_bytes de) = 16%nat) as Hlen by (unfold dirent_bytes; by rewrite length_app, length_le_bytes, Hl).
  replace (Z.to_nat (16 * Z.of_nat j)) with (16 * j)%nat in W6 by lia. split.
  - split; try done.
    + rewrite (proj2 W2). cbn. apply list_lookup_insert_eq. by eapply lookup_lt_Some, (di_inode _ _ _ _ Hd).
    + rewrite W5. cbn. apply (di_type _ _ _ _ Hd).
    + rewrite W5. cbn [i_size set_i_addrs set_i_size]. rewrite Hlen. destruct (Z.max_spec (i_size ip) (16 * Z.of_nat j + Z.of_nat 16)) as [[_ ->]|[_ ->]]; [|apply (di_size _ _ _ _ Hd)].
      replace (16 * Z.of_nat j + Z.of_nat 16) with ((Z.of_nat j + 1) * 16) by lia. by apply Z.mod_mul.
    + rewrite W6. unfold splice. repeat apply Forall_app_2; [by apply Forall_take, (di_bytes _ _ _ _ Hd)|apply le_bytes_range|done|by apply Forall_drop, (di_bytes _ _ _ _ Hd)].
  - rewrite W6. apply (entries_splice _ (Z.to_nat (i_size ip / 16))); [|by rewrite <-El|done..]. rewrite length_file_bytes. lia.
Qed.

(** The name is new: it is in the map of the directory afterwards, with the
    inode's number. *)
Definition linked (k : K) (homes : list Z) (dp : nat) (ip : inode) (name : list Z) (inum : Z) (k' : K) : Prop :=
  exists ip' homes', directory k' homes' dp ip' /\ on_file c pi q dp ip' k k' /\
    dir_map (entries (file_bytes (content k') ip')) = <[key name := inum]> (dir_map (entries (file_bytes (content k) ip))) /\
    (forall y, in_use s (content k) y -> ~ file_block (content k) ip y -> content k' y = content k y) /\
    forall j, 0 <= j < sb_ninodes s -> inode_on_disk s (content k') j = if decide (j = i_inum ip) then to_dinode ip' else inode_on_disk s (content k) j.

Lemma link_write k homes dp ip name inum old j :
  let es := entries (file_bytes (content k) ip) in
  linkable k homes dp ip -> bytes name -> 0 < inum < 2 ^ 16 -> length old = 14%nat -> bytes old ->
  (j = length es \/ exists de0, es !! j = Some de0 /\ de_inum de0 = 0) -> dir_map es !! key name = None ->
  runs (r <- writei dp (SLocal (dirent_bytes (mkDirent (u16 inum) (strncpy old name (Z.to_nat DIRSIZ))))) (16 * Z.of_nat j) sizeof_dirent ;;
        if negb (r =? sizeof_dirent) then panic "dirlink" else ret 0) k
    (fun r k' => r = 0 /\ linked k homes dp ip name inum k').
Proof.
  intros es Hlk Hn Hi Ho Hob Hj Hno. pose proof (li_dir _ _ _ _ Hlk) as Hd. pose proof (entries_size _ _ _ _ Hd) as (El & Es & Hs). fold es in El.
  change (Z.to_nat DIRSIZ) with 14%nat. change sizeof_dirent with 16. replace (u16 inum) with inum by (symmetry; by apply Z.mod_small; lia).
  set (de := mkDirent inum (strncpy old name 14)). assert (length (de_name de) = 14%nat) as Hl by (cbn; by rewrite length_strncpy).
  assert (length (dirent_bytes de) = 16%nat) as Hlen by (unfold dirent_bytes; by rewrite length_app, length_le_bytes, Hl).
  assert (key (de_name de) = key name) as Ek by (apply cstr_strncpy; lia).
  assert (j <= length es)%nat as Hjl by (destruct Hj as [->|(de0 & Hj%lookup_lt_Some & _)]; lia).
  pose proof (li_room _ _ _ _ Hlk) as Hroom. pose proof (li_log _ _ _ _ Hlk) as Hlog.
  pose proof (writei_spec lost c pi q st s k homes dp ip (16 * Z.of_nat j) (dirent_bytes de)) as Hw. rewrite Hlen in Hw. change (Z.of_nat 16) with 16 in Hw.
  specialize (Hw (linkable_writable _ _ _ _ (Z.of_nat j) Hlk ltac:(lia)) ltac:(lia) ltac:(lia)). unfold runs. rewrite bind_eq, wp_bind. eapply wp_mono; [|exact Hw].
  intros r k' H. destruct (Z.gtb_spec (16 * Z.of_nat j) (i_size ip)); [lia|]. destruct (Z.gtb_spec (16 * Z.of_nat j + 16) (140 * 512)); [lia|]. cbn [orb] in H.
  destruct H as (-> & ip' & homes' & Hwr & Hh). change (negb (16 =? 16)) with false. kred. split; [done|].
  rewrite blocks_of_entry in Hh by lia. exists ip', homes'.
  destruct (entry_written k homes dp ip k' ip' homes' j de Hd) as [Hd' Ee]; [done|cbn; lia|done|by apply strncpy_bytes|lia|done|].
  split; [done|]. split; [apply Hwr|]. split; [|split; [intros y Hy Hy'; by apply (we_others _ _ _ _ _ _ _ _ _ _ _ _ _ Hwr)|apply Hwr]].
  rewrite Ee. fold es. rewrite <-Ek. apply dir_map_written; [done|cbn; lia|by rewrite Ek].
Qed.

Lemma linked_from k k1 homes dp ip name inum k' :
  unchanged c pi q st s homes k k1 -> inodes (k_fs k) !! dp = Some ip -> linked k1 homes dp ip name inum k' -> linked k homes dp ip name inum k'.
Proof.
  intros (_ & Hb & Hc) Hi (ip' & homes' & H1 & H2 & H3 & H4 & H5). exists ip', homes'. split; [done|].
  split; [eapply on_file_trans; [exact (on_file_blocks _ _ _ _ _ _ _ Hi Hb)|exact H2]|]. rewrite (file_bytes_ext (content k) (content k1)) in H3 by done. split; [done|]. split.
  - intros y Hy Hf. rewrite <-Hc. apply H4; [by rewrite (in_use_ext _ _ _ _ Hc)|]. intros [H0 Hy']. apply Hf. split; [done|].
    destruct Hy' as [?|(n & Hn & <-)]; [by left|right]. exists n. split; [done|]. symmetry. by apply baddr_ext.
  - intros j Hj. rewrite H5 by done. case_decide; [done|]. unfold inode_on_disk. by rewrite Hc.
Qed.

Lemma dirlink_absent k homes dp ip name inum :
  linkable k homes dp ip -> bytes name -> 0 < inum < 2 ^ 16 -> length (inodes (k_fs k)) = 50%nat ->
  (exists i ipf, inodes (k_fs k) !! i = Some ipf /\ i_ref ipf = 0) ->
  dir_map (entries (file_bytes (content k) ip)) !! key name = None ->
  runs (dirlink dp name inum) k (fun r k' => r = 0 /\ linked k homes dp ip name inum k').
Proof.
  intros Hlk Hn Hi Hlen Hfree Hno. pose proof (li_dir _ _ _ _ Hlk) as Hd. pose proof (entries_size _ _ _ _ Hd) as (El & Es & Hs).
  set (es := entries (file_bytes (content k) ip)) in *. unfold runs, dirlink.
  wp_call (dirlookup_spec k homes dp ip name Hd Hn Hlen Hfree). intros o k1. unfold looked_up. fold es. rewrite Hno. intros [-> Hu]. cbv beta iota.
  pose proof (linkable_same _ _ _ _ _ Hu Hlk) as Hlk1. pose proof (li_dir _ _ _ _ Hlk1) as Hd1. pose proof Hu as (Hf1 & Hb1 & Hc1).
  assert (file_bytes (content k1) ip = file_bytes (content k) ip) as Efb by (by apply file_bytes_ext).
  rewrite bind_eq, (get_inode_eq _ _ _ (di_inode _ _ _ _ Hd1)). cbn [res_bind].
  wp_call (dir_scan_spec homes dp ip "dirlink read" (fun de => de_inum de =? 0) (dir_fuel ip) k1 0 no_dirent Hd1).
  2: lia. 2:{ rewrite Efb. fold es. unfold dir_fuel. change sizeof_dirent with 16. lia. }
  intros r k2 [-> Hu2]. rewrite drop_0, Efb. fold es. change (16 * Z.of_nat 0) with 0.
  pose proof (scan_free (fun de => length (de_name de) = 14%nat /\ bytes (de_name de)) es 0 no_dirent) as Hsc.
  destruct (scan _ es 0 no_dirent) as [[? off] de]. destruct Hsc as ((Hl & Hb) & j & -> & Hj).
  { apply list.Forall_cons. split; [split; [done|by repeat constructor]|]. apply list.Forall_and. split; [apply entries_names|by apply entries_bytes, (di_bytes _ _ _ _ Hd)]. }
  rewrite Z.add_0_l. pose proof (unchanged_trans _ _ _ _ _ _ _ _ _ Hu Hu2) as Hu3. pose proof Hu3 as (_ & _ & Hc3).
  assert (file_bytes (content k2) ip = file_bytes (content k) ip) as Efb2 by (by apply file_bytes_ext).
  eapply wp_mono; [|apply (link_write k2 homes dp ip name inum (de_name de) j)]; rewrite ?Efb2; [|by eapply linkable_same|done..].
  intros r k' [-> Hlkd]. split; [done|]. eapply linked_from; [exact Hu3|apply (di_inode _ _ _ _ Hd)|done].
Qed.

(** ** Giving a reference back *)

(** Nobody has locked the inode. *)
Definition unlocked (k : K) (i : nat) : Prop := sl_locked (slock k (SLinode i)) = 0 /\ sl_pid (slock k (SLinode i)) = 0.

(** The test of [iput]: the inode is not to be freed. *)
Lemma iput_keeps k i ip (free : M K unit) : me k c pi q -> inodes (k_fs k) !! i = Some ip -> (i_valid ip = 0 \/ i_ref ip <> 1) ->
  runs (when (nz (i_valid ip) && (i_nlink ip =? 0))
    (acquire LKicache ;; ip <- get_inode i ;; let r := i_ref ip in release LKicache ;; when (r =? 1) free)) k
    (fun _ k' => goes_on c pi q k k' /\ k_fs k' = k_fs k /\ k_slocks k' = k_slocks k).
Proof.
  intros Hm Hi Hor. unfold runs. destruct (nz (i_valid ip) && (i_nlink ip =? 0)) eqn:E; cbn [when]; [|kred; split; [by apply goes_on_refl|done]].
  wp_call (acquire_holds k c 0 [] LKicache (me_holds _ _ _ _ Hm) (not_elem_of_nil _)); [|lia]. intros _ k1 [Hk1 Hc1].
  rewrite bind_eq, (get_inode_eq k1 i ip) by (by rewrite (core_fs _ _ Hc1)). cbn [res_bind]. cbv zeta.
  wp_call (release_holds k1 c 0 [] LKicache Hk1 (not_elem_of_nil _)); [|lia]. intros _ k2 [Hk2 Hc2]. assert (core k2 = core k) as Hc by congruence.
  rewrite (proj2 (Z.eqb_neq (i_ref ip) 1)); [|unfold nz in E; lia]. cbn [when]. kred.
  split; [by eapply goes_on_core|]. by rewrite (core_fs _ _ Hc), (core_slocks _ _ Hc).
Qed.

Lemma iput_spec k homes i ip :
  fsys k c pi q ∅ st homes s -> inodes (k_fs k) !! i = Some ip -> unlocked k i ->
  (i_valid ip = 0 \/ i_ref ip <> 1) ->
  runs (iput i) k (fun _ k' => fsys k' c pi q ∅ st homes s /\ on_file c pi q i (set_i_ref (i_ref ip - 1) ip) k k' /\ forall y, content k' y = content k y).
Proof.
  intros Hf Hi [Hl Hl'] Hor. pose proof (tx_me _ _ _ _ _ _ _ (fy_tx _ _ _ _ _ _ _ _ Hf)) as Hm. unfold runs, iput.
  wp_call (acquiresleep_free k c pi q (SLinode i) Hm Hl). intros _ k1 (Hg1 & Ef1 & Es1).
  assert (inodes (k_fs k1) !! i = Some ip) as Hi1 by (by rewrite Ef1). rewrite bind_eq, (get_inode_eq k1 i ip Hi1). cbn [res_bind].
  wp_call (iput_keeps k1 i ip _ (proj1 Hg1) Hi1 Hor). intros _ k2 (Hg2 & Ef2 & Es2).
  wp_call (releasesleep_frees k2 c pi q (SLinode i) (proj1 Hg2)). intros _ k3 (Hg3 & Ef3 & Es3).
  wp_call (acquire_holds k3 c 0 [] LKicache (me_holds _ _ _ _ (proj1 Hg3)) (not_elem_of_nil _)); [|lia]. intros _ k4 [Hk4 Hc4].
  assert (k_fs k4 = k_fs k) as Ef4 by (by rewrite (core_fs _ _ Hc4), Ef3, Ef2, Ef1).
  rewrite bind_eq, (upd_inode_eq k4 i ip) by (by rewrite Ef4). cbn [res_bind]. rewrite Ef4.
  eapply wp_mono; [|apply (unlock_fs k3 k4 c pi q LKicache _ (proj1 Hg3) Hk4 Hc4)]. intros _ k5 (Hg5 & Ef5 & Es5).
  assert (forall l, slock k5 l = slock k l) as Hsl.
  { intros l. unfold slock. rewrite Es5, Es3, Es2, Es1. destruct (decide (l = SLinode i)) as [->|Hne]; [|by rewrite !lookup_insert_ne by done].
    rewrite lookup_insert_eq. unfold slock. rewrite Es2, Es1, lookup_insert_eq. cbn. fold (slock k (SLinode i)). by destruct (slock k (SLinode i)); cbn in *; subst. }
  apply fsys_table; [done| |done|by intros j]. split; [|by intros j].
  eapply goes_on_trans; [exact Hg1|]. eapply goes_on_trans; [exact Hg2|]. by eapply goes_on_trans.
Qed.


(** The name is there: nothing changes but an unused slot of the table. *)
Definition not_linked (homes : list Z) (k k' : K) : Prop :=
  fsys k' c pi q ∅ st homes s /\ stays c pi q k k' /\ i_ref <$> inodes (k_fs k') = i_ref <$> inodes (k_fs k) /\
  forall y, content k' y = content k y.

Lemma dirlink_present k homes dp ip name inum inum' :
  linkable k homes dp ip -> bytes name -> length (inodes (k_fs k)) = 50%nat ->
  (exists i ipf, inodes (k_fs k) !! i = Some ipf /\ i_ref ipf = 0) ->
  dir_map (entries (file_bytes (content k) ip)) !! key name = Some inum' -> inum' <> i_inum ip ->
  (forall i, i <> dp -> unlocked k i) ->
  runs (dirlink dp name inum) k (fun r k' => r = -1 /\ not_linked homes k k').
Proof.
  intros Hlk Hn Hlen Hfree Hmap Hne Hun. pose proof (li_dir _ _ _ _ Hlk) as Hd. unfold runs, dirlink.
  wp_call (dirlookup_spec k homes dp ip name Hd Hn Hlen Hfree). intros o k1. unfold looked_up. rewrite Hmap.
  intros (i & j & de & ip' & -> & Hj & Hde & (ip0 & Hi0 & Hcase) & Hf1 & [[Hg1 Hl1] Ef1] & Hc1). cbv beta iota.
  assert (i <> dp) as Hidp.
  { intros ->. rewrite (di_inode _ _ _ _ Hd) in Hi0. injection Hi0 as <-. pose proof (li_ref _ _ _ _ Hlk). destruct Hcase as [(_ & _ & ? & _)|(? & _)]; [congruence|lia]. }
  assert (inodes (k_fs k1) = <[i := ip']> (inodes (k_fs k))) as Ein by (by rewrite Ef1).
  assert (inodes (k_fs k1) !! i = Some ip') as Hi1 by (rewrite Ein; apply list_lookup_insert_eq; by eapply lookup_lt_Some).
  assert (unlocked k1 i) as Hu1 by (unfold unlocked; rewrite Hl1; by apply Hun).
  assert (i_ref ip' - 1 = i_ref ip0 /\ (i_valid ip' = 0 \/ i_ref ip' <> 1)) as [Hr Hor].
  { destruct Hcase as [(? & _ & _ & ->)|(? & _ & ->)]; cbn; split; (lia || (by left) || (right; lia)). }
  wp_call (iput_spec k1 homes i ip' Hf1 Hi1 Hu1 Hor). intros _ k2 (Hf2 & [[Hg2 Hl2] Ef2] & Hc2). kred. split; [done|].
  split; [done|]. split; [split; [by eapply goes_on_trans|intros l; by rewrite Hl2]|]. split; [|intros y; by rewrite Hc2].
  rewrite Ef2. cbn. rewrite Ein, list_insert_insert_eq, list_fmap_insert. cbn. rewrite Hr. apply list_insert_id. by rewrite list_lookup_fmap, Hi0.
Qed.

(** The name is one of the directory itself. *)
Lemma dirlink_itself k homes dp ip name inum :
  linkable k homes dp ip -> bytes name -> length (inodes (k_fs k)) = 50%nat ->
  (exists i ipf, inodes (k_fs k) !! i = Some ipf /\ i_ref ipf = 0) ->
  dir_map (entries (file_bytes (content k) ip)) !! key name = Some (i_inum ip) ->
  (forall i, refers (inodes (k_fs k)) (i_inum ip) i -> i = dp) -> sl_locked (slock k (SLinode dp)) <> 0 ->
  wp (mkEnv (fun _ k' => asleep pi (ChSleep (SLinode dp)) k' /\ slock k' (SLinode dp) = slock k (SLinode dp)) (fun _ _ _ => False) False)
    (dirlink dp name inum k) (fun _ _ => False).
Proof.
  intros Hlk Hn Hlen Hfree Hmap Huq Hlock. pose proof (li_dir _ _ _ _ Hlk) as Hd. unfold dirlink. rewrite bind_eq, wp_bind.
  eapply wp_mono; [|apply wp_runs, (dirlookup_spec k homes dp ip name Hd Hn Hlen Hfree)]. intros o k1. unfold looked_up. rewrite Hmap.
  intros (i & j & de & ip' & -> & Hj & Hde & (ip0 & Hi0 & Hcase) & Hf1 & [[Hg1 Hl1] Ef1] & Hc1). cbv beta iota.
  assert (refers (inodes (k_fs k)) (i_inum ip) dp) as Hrf by (exists ip; split; [apply (di_inode _ _ _ _ Hd)|]; split; [apply (li_ref _ _ _ _ Hlk)|]; split; [apply (io_dev _ _ _ (di_ok _ _ _ _ Hd))|done]).
  assert (i = dp) as ->.
  { destruct Hcase as [(? & ? & ? & _)|(_ & Hno & _)]; [apply Huq; by exists ip0|by apply Hno in Hrf]. }
  unfold iput. rewrite !bind_eq, !wp_bind. eapply (wp_mono _ _ (fun _ _ => False)); [done|]. eapply wp_env; [| | |apply (acquiresleep_waits k1 c pi q (SLinode dp) (tx_me _ _ _ _ _ _ _ (fy_tx _ _ _ _ _ _ _ _ Hf1))); by rewrite Hl1].
  - cbn. intros _ k2 (Ha & _ & Es). split; [done|]. rewrite <-Hl1. unfold slock. by rewrite Es.
  - by cbn.
  - by cbn.
Qed.

End DirSpec.
