(* ===== verification/Directory.v ===== *)
(** * Directories as maps (fs.c: dirlookup, dirlink)

    What the two operations of directories guarantee to their callers, in terms
    of the map from names to inode numbers that a directory stands for, and how
    they run on the small disk with its root directory. *)

From S2P Require Import Prelude Params State Spinlock Seg Str Proc ProcSpec ProcRefine SleepWake FsState Sleeplock Demo DemoFs.
From S2P Require Import SleeplockSpec Ring BlockDev Ide Memide Bio BioSpec Log LogSpec TxSpec Inode BlockTx Balloc Console Fs FileSpec RwSpec FileIo DirSpec.

Section Directory.
Context {LK : Linker} {FU : Fuel}.
Context (lost : gmap (Z * Z) (list Z) -> Z -> bool).
Implicit Types (k : K).

#[local] Instance directory_power : BlockDev := power lost.

Context (c pi : nat) (q st : Z) (s : superblock).

(** C9. Looking up a name.  [dirlookup] looks the first fourteen characters of
    the name up in the map that the directory's entries make.  A name that is not
    there gives the null pointer and changes nothing.  Otherwise it returns an
    inode of the table with one more reference (the slot in use for the inode's
    number, or a free slot now in use for it) and the offset of the entry; the
    contents of the disk and the rest of the table are as before. *)
Theorem dirlookup_looks_up k homes dp ip name
    (Hd : directory c pi q st s k homes dp ip) (Hn : bytes name) (Hlen : length (inodes (k_fs k)) = 50%nat)
    (Hfree : exists i ipf, inodes (k_fs k) !! i = Some ipf /\ i_ref ipf = 0) :
  runs (dirlookup dp name) k (fun o k' => let es := entries (file_bytes (content k) ip) in
    match dir_map es !! key name with
    | None => o = None /\ blocks_only c pi q k k'
    | Some inum => exists i j de ip', o = Some (i, 16 * Z.of_nat j) /\ es !! j = Some de /\ de_inum de = inum /\
        referred (inodes (k_fs k)) inum i ip' /\ on_file c pi q i ip' k k'
    end /\ forall y, content k' y = content k y).
Proof.
  eapply runs_mono; [by apply (dirlookup_spec lost c pi q st s k homes dp ip name)|]. intros o k'. unfold looked_up. cbv zeta.
  destruct (dir_map _ !! key name).
  - intros (i & j & de & ip' & H1 & H2 & H3 & H4 & _ & H5 & H6). split; [|done]. by exists i, j, de, ip'.
  - intros (H1 & _ & H2 & H3). done.
Qed.



End Directory.

(** ** On the small disk *)

(** The process holds the lock of the root. *)
Definition kernel_root : K := set_k_slocks {[ SLinode 1 := mkSleeplock 1 "inode" 2 ]} kernel_hello.

Lemma kernel_root_sys : fsys kernel_root 0 1 2 ∅ 2 [] sb0.
Proof.
  pose proof kernel_hello_sys as [[T1 [order T2] T3 T4 T5 T6] Hla Hdk]. split; [|done|done].
  split; [by apply me_slocks|exists order; apply (cache_buf_locks 2 kernel_hello); try done|by destruct T3|done|done|done].
Qed.

Lemma kernel_root_directory : directory 0 1 2 2 sb0 kernel_root [] 1 inode_root.
Proof.
  split; try done.
  - exact kernel_root_sys.
  - by apply (one_block_ok inode_root 41); cbn; done || lia.
  - by apply (one_block_complete _ _ 41).
  - apply (bool_decide_eq_true_1 (Forall (fun b => 0 <= b < 256) (file_bytes (content kernel_root) inode_root))). by vm_compute.
  - simpl. lia.
Qed.

Lemma kernel_root_linkable : linkable 0 1 2 2 sb0 kernel_root [] 1 inode_root.
Proof.
  split; [exact kernel_root_directory|..].
  - unfold inode_on_disk. change (content kernel_root) with (content kernel_hello). rewrite kernel_hello_content. by vm_compute.
  - repeat constructor; vm_compute; congruence.
  - simpl. lia.
  - exact kernel_hello_plenty.
  - by vm_compute.
  - by vm_compute.
Qed.

Lemma kernel_root_free : exists i ipf, inodes (k_fs kernel_root) !! i = Some ipf /\ i_ref ipf = 0.
Proof. by exists 2%nat, inode0. Qed.

Lemma bytes_by_eval bs : forallb (fun b => (0 <=? b) && (b <? 256)) bs = true -> bytes bs.
Proof. intros H. apply list.Forall_forall. intros b Hb%list_elem_of_In. rewrite forallb_forall in H. specialize (H b Hb). lia. Qed.

Definition root_names : list dirent :=
  [mkDirent 1 (46 :: replicate 13 0); mkDirent 1 (46 :: 46 :: replicate 12 0); mkDirent 3 (hello ++ replicate 9 0)].

Lemma kernel_root_entries : entries (file_bytes (content kernel_root) inode_root) = root_names.
Proof. by vm_compute. Qed.

(** The slots in use of the small kernel. *)
Lemma kernel_root_refers inum i : refers (inodes (k_fs kernel_root)) inum i <-> i = 0%nat /\ inum = 3 \/ i = 1%nat /\ inum = 1.
Proof.
  split.
  - intros (ip & Hi & Hr & _ & <-). destruct i as [|[|i]]; [left; by injection Hi as <-|right; by injection Hi as <-|].
    change (replicate 48 inode0 !! i = Some ip) in Hi. apply lookup_replicate in Hi as [-> _]. done.
  - intros [[-> ->]|[-> ->]]; [by exists inode_hello|by exists inode_root].
Qed.

Lemma dirlookup_looks_up_witness :
  runs (dirlookup (BD := power (fun _ _ => false)) 1 (bytes_of "hello" ++ [0])) kernel_root (fun o k' => o = Some (0%nat, 32) /\
    exists ip', inodes (k_fs k') !! 0%nat = Some ip' /\ i_ref ip' = 2).
Proof.
  eapply runs_mono; [apply (dirlookup_looks_up (fun _ _ => false) 0 1 2 2 sb0 kernel_root [] 1 inode_root (bytes_of "hello" ++ [0])
    kernel_root_directory)|].
  - by apply bytes_by_eval.
  - done.
  - exact kernel_root_free.
  - rewrite kernel_root_entries. intros o k' [H _]. cbv zeta in H.
    replace (dir_map root_names !! key (bytes_of "hello" ++ [0])) with (Some 3) in H by (by vm_compute).
    destruct H as (i & j & de & ip' & -> & Hj & Hde & (ip & Hi & Hcase) & Hof).
    assert (j = 2%nat) as -> by (destruct j as [|[|[|j]]]; cbn in Hj; by simplify_eq).
    destruct Hcase as [(H1 & H2 & H3 & ->)|(_ & Hno & _)].
    + assert (refers (inodes (k_fs kernel_root)) 3 i) as [[-> _]|[_ ?]]%kernel_root_refers by (by exists ip); [|done].
      injection Hi as <-. split; [done|]. eexists. split; [eapply on_file_at; [|exact Hof]; reflexivity|done].
    + exfalso. apply (Hno 0%nat). apply kernel_root_refers. by left.
Defined.

Lemma kernel_root_unlocked i : i <> 1%nat -> unlocked kernel_root i.
Proof. intros Hi. unfold unlocked, slock. cbn. by rewrite lookup_singleton_ne by congruence. Qed.


