(* ===== verification/Mkfs.v ===== *)
(** * Building the disk image (mkfs.c)

    The host program that writes the first file system: super block, inodes,
    the root directory with the files of the command line, bitmap.  The image
    is a file of sectors; structures in memory are kept as their bytes, in the
    byte order of the host, [big] or not, which [xshort] and [xint] convert to
    that of the disk. *)

From S2P Require Import Prelude Params State FsState BlockDev Inode Fs.

(* mkfs.c 29-33: fsfd *)
Record image : Type := mkImage {
  img : list (list Z);
  freeinode : Z;
  freeblock : Z
}.

Definition set_img (v : list (list Z)) (r : image) : image := mkImage v (freeinode r) (freeblock r).

Definition set_freeinode (v : Z) (r : image) : image := mkImage (img r) v (freeblock r).

Definition set_freeblock (v : Z) (r : image) : image := mkImage (img r) (freeinode r) v.

(* mkfs.c 18-18: NINODES *)
Definition NINODES : Z := 200.

(* mkfs.c 23-23: nbitmap *)
Definition nbitmap : Z := FSSIZE / (BSIZE * 8) + 1.

(* mkfs.c 24-24: ninodeblocks *)
Definition ninodeblocks : Z := NINODES / IPB + 1.

(* mkfs.c 25-25: nlog *)
Definition nlog : Z := LOGSIZE.

(* mkfs.c 94-94: nmeta *)
Definition nmeta : Z := 2 + nlog + ninodeblocks + nbitmap.

(* mkfs.c 95-95: nblocks *)
Definition nblocks : Z := FSSIZE - nmeta.

Section Mkfs.
Context (big : bool).

(** What the host offers: the sectors the image file can have, whether it can
    be opened, and the other files: the pieces successive calls of [read]
    return. *)
Context (room : Z) (creates : list Z -> bool) (contents : list Z -> option (list (list Z))).

(** The value of an integer in memory, and the bytes of a value. *)
Definition host_val (bs : list Z) : Z := le_val (if big then reverse bs else bs).

Definition host_bytes (n : nat) (v : Z) : list Z := if big then reverse (le_bytes n v) else le_bytes n v.

Definition host_word (bs : list Z) (off : nat) : Z := host_val (slice bs off 4).

Definition put_host_word (bs : list Z) (off : nat) (v : Z) : list Z := splice bs off (host_bytes 4 v).

(* mkfs.c 45-53: xshort *)
Definition xshort (x : Z) : Z := host_val [x `mod` 256; Z.shiftr x 8 `mod` 256].

(* mkfs.c 55-65: xint *)
Definition xint (x : Z) : Z :=
  host_val [x `mod` 256; Z.shiftr x 8 `mod` 256; Z.shiftr x 16 `mod` 256; Z.shiftr x 24 `mod` 256].

(** The super block, as it is in memory. *)
(* mkfs.c 97-103: main *)
Definition mkfs_sb : superblock :=
  mkSb (xint FSSIZE) (xint nblocks) (xint NINODES) (xint nlog) (xint 2) (xint (2 + nlog)) (xint (2 + nlog + ninodeblocks)).

Definition sb_mem : list Z :=
  concat (host_bytes 4 <$> [sb_size mkfs_sb; sb_nblocks mkfs_sb; sb_ninodes mkfs_sb; sb_nlog mkfs_sb;
    sb_logstart mkfs_sb; sb_inodestart mkfs_sb; sb_bmapstart mkfs_sb]).

(** The sector at which [lseek] leaves the file: [sec * BSIZE] is unsigned. *)
Definition sector (sec : Z) : nat := Z.to_nat (u32 (sec * BSIZE) / BSIZE).

(* mkfs.c 170-181: wsect *)
Definition wsect (sec : Z) (buf : list Z) : M image unit :=
  s <- gets (fun s => s) ;;
  let n := sector sec in
  if Z.of_nat n >=? room then panic "write" else
  modify (set_img (<[n := buf]> (img s ++ replicate (S n - length (img s)) block0))).

(* mkfs.c 210-221: rsect *)
Definition rsect (sec : Z) : M image (list Z) :=
  s <- gets (fun s => s) ;;
  match img s !! sector sec with
  | Some buf => ret buf
  | None => panic "read"
  end.

(* mkfs.c 183-195: winode *)
Definition winode (inum : Z) (ip : list Z) : M image unit :=
  let bn := IBLOCK inum mkfs_sb in
  buf <- rsect bn ;;
  wsect bn (splice buf (dinode_off inum) ip).

(* mkfs.c 197-208: rinode *)
Definition rinode (inum : Z) : M image (list Z) :=
  let bn := IBLOCK inum mkfs_sb in
  buf <- rsect bn ;;
  ret (slice buf (dinode_off inum) sizeof_dinode).

(** The fields of [struct dinode] in memory. *)
Definition din_size (din : list Z) : Z := host_word din 8.

Definition set_din_size (v : Z) (din : list Z) : list Z := put_host_word din 8 v.

Definition din_addr (din : list Z) (i : Z) : Z := host_word din (12 + 4 * Z.to_nat i).

Definition set_din_addr (i v : Z) (din : list Z) : list Z := put_host_word din (12 + 4 * Z.to_nat i) v.

(* mkfs.c 223-235: ialloc *)
Definition ialloc (type : Z) : M image Z :=
  s <- gets (fun s => s) ;;
  let inum := freeinode s in
  modify (set_freeinode (u32 (inum + 1))) ;;
  let din := replicate sizeof_dinode 0 in
  let din := splice din 0 (host_bytes 2 (xshort type)) in
  let din := splice din 6 (host_bytes 2 (xshort 1)) in
  let din := set_din_size (xint 0) din in
  winode inum din ;;
  ret inum.

(* mkfs.c 237-251: balloc *)
Definition balloc (used : Z) : M image unit :=
  if negb (used <? BSIZE * 8) then panic "assert: used < BSIZE*8" else
  wsect (sb_bmapstart mkfs_sb) (fold_left set_bit (zseq (Z.to_nat used)) (replicate (Z.to_nat BSIZE) 0)).

(** [freeblock++]. *)
Definition next_block : M image Z :=
  s <- gets (fun s => s) ;;
  modify (set_freeblock (u32 (freeblock s + 1))) ;;
  ret (freeblock s).

(** The block of the file for [fbn], taken when there is none; with the inode. *)
(* mkfs.c 271-286: iappend *)
Definition append_block (din : list Z) (fbn : Z) : M image (Z * list Z) :=
  if fbn <? NDIRECT then
    din <- (if xint (din_addr din fbn) =? 0 then b <- next_block ;; ret (set_din_addr fbn (xint b) din) else ret din) ;;
    ret (xint (din_addr din fbn), din)
  else
    din <- (if xint (din_addr din NDIRECT) =? 0 then b <- next_block ;; ret (set_din_addr NDIRECT (xint b) din) else ret din) ;;
    indirect <- rsect (xint (din_addr din NDIRECT)) ;;
    let at_ := (4 * Z.to_nat (fbn - NDIRECT))%nat in
    indirect <- (if host_word indirect at_ =? 0 then
                   b <- next_block ;;
                   let indirect := put_host_word indirect at_ (xint b) in
                   wsect (xint (din_addr din NDIRECT)) indirect ;;
                   ret indirect
                 else ret indirect) ;;
    ret (xint (host_word indirect at_), din).

(** Every step takes at least one byte of [p]. *)
(* mkfs.c 268-294: iappend *)
Fixpoint iappend_loop (fuel : nat) (p din : list Z) (off : Z) : M image (list Z * Z) :=
  if negb (0 <? Z.of_nat (length p)) then ret (din, off) else
  match fuel with
  | O => fun s => NoFuel s
  | S fuel' =>
      let fbn := off / BSIZE in
      if negb (fbn <? MAXFILE) then panic "assert: fbn < MAXFILE" else
      r <- append_block din fbn ;;
      let '(x, din) := r in
      let n1 := Z.min (Z.of_nat (length p)) ((fbn + 1) * BSIZE - off) in
      buf <- rsect x ;;
      wsect x (splice buf (Z.to_nat (off - fbn * BSIZE)) (take (Z.to_nat n1) p)) ;;
      iappend_loop fuel' (drop (Z.to_nat n1) p) din (off + n1)
  end.

(* mkfs.c 255-297: iappend *)
Definition iappend (inum : Z) (p : list Z) : M image unit :=
  din <- rinode inum ;;
  r <- iappend_loop (length p) p din (xint (din_size din)) ;;
  winode inum (set_din_size (xint r.2) r.1).

(** [struct dirent] with the name copied, cut and padded as [strncpy] does. *)
Definition dirent_mem (inum : Z) (name : list Z) : list Z :=
  host_bytes 2 (xshort inum) ++ take (Z.to_nat DIRSIZ) (name ++ replicate (Z.to_nat DIRSIZ) 0).

(** One file of the command line. *)
(* mkfs.c 131-155: main *)
Definition add_file (rootino : Z) (name : list Z) : M image unit :=
  if existsb (fun ch => ch =? 47) name then panic "assert: index(argv[i], '/') == 0" else
  match contents name with
  | None => panic "open"
  | Some pieces =>
      let name := match name with 95 :: name' => name' | _ => name end in
      inum <- ialloc T_FILE ;;
      iappend rootino (dirent_mem inum name) ;;
      for_all pieces (fun buf => iappend inum buf)
  end.

(* mkfs.c 67-168: main *)
Definition main (argv : list (list Z)) : M image unit :=
  match argv with
  | _ :: fsimg :: files =>
      if negb (creates fsimg) then panic "open" else
      modify (set_freeblock nmeta) ;;
      for_all (zseq (Z.to_nat FSSIZE)) (fun i => wsect i block0) ;;
      wsect 1 (splice block0 0 sb_mem) ;;
      rootino <- ialloc T_DIR ;;
      if negb (rootino =? ROOTINO) then panic "assert: rootino == ROOTINO" else
      iappend rootino (dirent_mem rootino (bytes_of ".")) ;;
      iappend rootino (dirent_mem rootino (bytes_of "..")) ;;
      for_all files (add_file rootino) ;;
      din <- rinode rootino ;;
      let off := (xint (din_size din) / BSIZE + 1) * BSIZE in
      winode rootino (set_din_size (xint off) din) ;;
      s <- gets (fun s => s) ;;
      balloc (freeblock s)
  | _ => panic "Usage: mkfs fs.img files..."
  end.

End Mkfs.

(** The globals when the program starts, with the file truncated. *)
(* mkfs.c 29-33: fsfd *)
Definition image0 : image := mkImage [] 1 0.
