(* ===== verification/MkfsFile.v ===== *)
(** * Files of the image mkfs builds (mkfs.c: iappend)

    On a little-endian host [iappend] adds bytes to a file of the image: it
    takes the blocks the file needs in order, writes the bytes behind the others
    and touches no block of another file. *)

From S2P Require Import Prelude Params State FsState BlockDev Inode BlockTx Balloc Console Fs FileSpec RwSpec Mkfs.

(** ** Sectors *)

(** The image as the blocks of a disk. *)
Definition dk (s : image) (x : Z) : list Z := if x <? 0 then block0 else default block0 (img s !! Z.to_nat x).

(** The state of the program: the disk is [d]. *)
Record rep (s : image) (d : Z -> list Z) (fi fb : Z) : Prop := {
  rp_len : length (img s) = 1000%nat;
  rp_img : forall y, dk s y = d y;
  rp_fi : freeinode s = fi;
  rp_fb : freeblock s = fb
}.

Lemma xint_little x : xint false x = u32 x.
Proof.
  unfold xint, host_val. transitivity (le_val (le_bytes 4 x)); [|apply le_val_bytes].
  f_equal. cbn [le_bytes]. rewrite !Z.shiftr_div_pow2, !Z.div_div by lia. done.
Qed.

Lemma xshort_little x : xshort false x = u16 x.
Proof.
  unfold xshort, host_val. transitivity (le_val (le_bytes 2 x)); [|apply le_val_bytes].
  f_equal. cbn [le_bytes]. by rewrite !Z.shiftr_div_pow2 by lia.
Qed.

Lemma mkfs_sb_little : mkfs_sb false = mkSb 1000 941 200 30 2 32 58.
Proof. by vm_compute. Qed.

Lemma sector_small x : 0 <= x < 1000 -> sector x = Z.to_nat x.
Proof. intros H. unfold sector. change BSIZE with 512. rewrite u32_small by lia. by rewrite Z.div_mul by lia. Qed.

Lemma rsect_spec s d fi fb x : rep s d fi fb -> 0 <= x < 1000 -> rsect x s = Done (d x) s.
Proof.
  intros [Hl Hd _ _] Hx. unfold rsect. kred. rewrite sector_small by done. specialize (Hd x). unfold dk in Hd.
  rewrite (proj2 (Z.ltb_ge x 0)) in Hd by lia. destruct (lookup_lt_is_Some_2 (img s) (Z.to_nat x)) as [b Hb]; [lia|].
  rewrite Hb in *. cbn in Hd. by subst.
Qed.

Section Little.
Context (room : Z).
Hypothesis Hroom : 1000 <= room.

Lemma wsect_spec s d fi fb x b : rep s d fi fb -> 0 <= x < 1000 ->
  exists s', wsect room x b s = Done tt s' /\ rep s' (put d x b) fi fb.
Proof.
  intros [Hl Hd Hfi Hfb] Hx. unfold wsect. kred. rewrite sector_small by done. rewrite Z2Nat.id by lia.
  rewrite Z.geb_leb, (proj2 (Z.leb_gt room x)) by lia. eexists. split; [reflexivity|].
  replace (S (Z.to_nat x) - length (img s))%nat with 0%nat by lia. cbn [replicate]. rewrite app_nil_r.
  split; [cbn; by rewrite length_insert| |done|done]. intros y. unfold put. rewrite <-Hd. unfold dk. cbn [img set_img].
  destruct (Z.ltb_spec y 0) as [Hy|Hy]; [by rewrite decide_False by lia|]. destruct (decide (y = x)) as [->|Hne].
  - by rewrite list_lookup_insert_eq by lia.
  - by rewrite list_lookup_insert_ne by lia.
Qed.

Lemma next_block_spec s d fi fb : rep s d fi fb -> 0 <= fb < 2 ^ 32 - 1 ->
  exists s', next_block s = Done fb s' /\ rep s' d fi (fb + 1).
Proof.
  intros [Hl Hd Hfi Hfb] Hr. unfold next_block. kred. rewrite Hfb, u32_small by lia. eexists. split; [reflexivity|]. by split.
Qed.

End Little.

(** ** Inodes in memory *)

Lemma dinode_bytes_length d : fits d -> length (dinode_bytes d) = 64%nat.
Proof. intros H. by apply get_dinode_bytes. Qed.

Lemma concat_words ad i : (i < length ad)%nat -> slice (concat (le_bytes 4 <$> ad)) (4 * i) 4 = le_bytes 4 (ad !!! i).
Proof.
  revert i. induction ad as [|a ad IH]; intros i Hi; cbn [length] in Hi; [lia|]. destruct i as [|i].
  - cbn. done.
  - replace (4 * S i)%nat with (4 + 4 * i)%nat by lia. unfold slice in *. cbn [fmap list_fmap concat].
    rewrite drop_app_ge by (rewrite length_le_bytes; lia). rewrite length_le_bytes. replace (4 + 4 * i - 4)%nat with (4 * i)%nat by lia.
    rewrite IH by lia. done.
Qed.

Lemma concat_words_put ad i v : (i < length ad)%nat ->
  splice (concat (le_bytes 4 <$> ad)) (4 * i) (le_bytes 4 v) = concat (le_bytes 4 <$> <[i := v]> ad).
Proof.
  revert i. induction ad as [|a ad IH]; intros i Hi; cbn [length] in Hi; [lia|]. destruct i as [|i].
  - done.
  - cbn [fmap list_fmap concat]. change (<[S i := v]> (a :: ad)) with (a :: <[i := v]> ad). cbn [fmap list_fmap concat].
    rewrite <-IH by lia. unfold splice. rewrite length_le_bytes. 
    rewrite take_app_ge, drop_app_ge by (rewrite length_le_bytes; lia). rewrite length_le_bytes, <-app_assoc.
    do 2 f_equal; [|f_equal]; f_equal; lia.
Qed.

Lemma slice_app_r {A} (a b : list A) i n : slice (a ++ b) (length a + i) n = slice b i n.
Proof. unfold slice. rewrite drop_app_ge by lia. by replace (length a + i - length a)%nat with i by lia. Qed.

Lemma splice_app_r {A} (a b : list A) i x : splice (a ++ b) (length a + i) x = a ++ splice b i x.
Proof.
  unfold splice. rewrite take_app_ge, drop_app_ge by lia. rewrite <-app_assoc.
  by replace (length a + i - length a)%nat with i by lia; replace (length a + i + length x - length a)%nat with (i + length x)%nat by lia.
Qed.

(** The first fields, and the size with the addresses. *)
Definition dinode_front (d : dinode) : list Z :=
  le_bytes 2 (d_type d) ++ le_bytes 2 (d_major d) ++ le_bytes 2 (d_minor d) ++ le_bytes 2 (d_nlink d).

Lemma dinode_bytes_split d : dinode_bytes d = dinode_front d ++ le_bytes 4 (d_size d) ++ concat (le_bytes 4 <$> d_addrs d).
Proof. unfold dinode_bytes, dinode_front. by rewrite <-!app_assoc. Qed.

Lemma length_dinode_front d : length (dinode_front d) = 8%nat.
Proof. done. Qed.

Lemma din_size_bytes d : fits d -> din_size false (dinode_bytes d) = d_size d.
Proof.
  intros (_ & H & _). unfold din_size, host_word, host_val. rewrite dinode_bytes_split.
  change 8%nat with (length (dinode_front d) + 0)%nat. rewrite slice_app_r. unfold slice. rewrite drop_0, take_app_length' by done.
  rewrite le_val_bytes. by apply Z.mod_small.
Qed.

Lemma set_din_size_bytes v d : set_din_size false v (dinode_bytes d) = dinode_bytes (set_d_size v d).
Proof.
  unfold set_din_size, put_host_word, host_bytes. rewrite !dinode_bytes_split. change 8%nat with (length (dinode_front d) + 0)%nat.
  by rewrite splice_app_r.
Qed.

Lemma din_addr_bytes d i : fits d -> 0 <= i < 13 -> din_addr false (dinode_bytes d) i = d_addrs d !!! Z.to_nat i.
Proof.
  intros (_ & _ & Hl & Hr) Hi. unfold din_addr, host_word, host_val. rewrite dinode_bytes_split, app_assoc.
  replace (12 + 4 * Z.to_nat i)%nat with (length (dinode_front d ++ le_bytes 4 (d_size d)) + 4 * Z.to_nat i)%nat
    by (rewrite length_app, length_le_bytes, length_dinode_front; lia).
  rewrite slice_app_r, concat_words by lia. rewrite le_val_bytes. apply Z.mod_small.
  rewrite list.Forall_forall in Hr. apply Hr, list_elem_of_lookup_total_2. lia.
Qed.

Lemma set_din_addr_bytes d i v : length (d_addrs d) = 13%nat -> 0 <= i < 13 ->
  set_din_addr false i v (dinode_bytes d) = dinode_bytes (set_d_addrs (<[Z.to_nat i := v]> (d_addrs d)) d).
Proof.
  intros Hl Hi. unfold set_din_addr, put_host_word, host_bytes. rewrite !dinode_bytes_split, !app_assoc.
  replace (12 + 4 * Z.to_nat i)%nat with (length (dinode_front d ++ le_bytes 4 (d_size d)) + 4 * Z.to_nat i)%nat
    by (rewrite length_app, length_le_bytes, length_dinode_front; lia).
  rewrite splice_app_r, concat_words_put by lia. done.
Qed.

(** ** One file *)

(** An inode with the addresses [ad]. *)
Definition nod (ad : list Z) : inode := mkInode 1 0 0 0 0 0 0 0 0 ad.

(** The blocks handed out so far. *)
Definition used (fb a : Z) : Prop := 59 <= a < fb.

(** The blocks for [L] bytes, with the indirect block. *)
Definition nb (L : Z) : Z := (L + 511) / 512 + (if L >? 12 * 512 then 1 else 0).

(** The addresses [ad] lead to exactly the blocks that [bs] needs, and these hold
    [bs] with zeroes behind. *)
Record holds_file (U : Z -> Prop) (d : Z -> list Z) (ad bs : list Z) : Prop := {
  hf_len : length ad = 13%nat /\ Z.of_nat (length bs) <= 140 * 512;
  hf_map : map_ok U (baddr d (nod ad)) (ind (nod ad));
  hf_there : forall n, 0 <= n < 140 -> baddr d (nod ad) n <> 0 <-> n * 512 < Z.of_nat (length bs);
  hf_ind : ind (nod ad) <> 0 <-> 12 * 512 < Z.of_nat (length bs);
  hf_bytes : forall o, 0 <= o -> o / 512 * 512 < Z.of_nat (length bs) -> fbyte d (nod ad) o = default 0 (bs !! Z.to_nat o)
}.

(** It depends only on the file's own blocks. *)
Lemma holds_file_frame (U U' : Z -> Prop) d d' ad bs :
  (forall y, U y -> U' y) -> (forall y, file_block d (nod ad) y -> d' y = d y) ->
  holds_file U d ad bs -> holds_file U' d' ad bs /\ forall y, file_block d' (nod ad) y <-> file_block d (nod ad) y.
Proof.
  intros Hu Hd [H1 H2 H3 H4 H5].
  assert (forall n, baddr d' (nod ad) n = baddr d (nod ad) n) as Hba.
  { intros n. apply baddr_ext. intros Hne. apply Hd. split; [done|by left]. }
  split.
  - split; [done| |intros n; rewrite Hba; apply H3|done|].
    + eapply map_ok_ext; [exact Hu|auto|done|done].
    + intros o Ho Hlt. rewrite <-H5 by done. unfold fbyte. rewrite Hba, Hd; [done|].
      assert (0 <= o / 512 < 140) as Hn by (split; [apply Z.div_pos; lia|lia]).
      split; [by apply H3|]. right. by exists (o / 512).
  - intros y. unfold file_block. by setoid_rewrite Hba.
Qed.

(** Block [n] of the file has been found or taken, at [x]. *)
Record alloced (d : Z -> list Z) (fb : Z) (ad : list Z) (n : Z) (d' : Z -> list Z) (fb' : Z) (ad' : list Z) (x : Z) : Prop := {
  al_len : length ad' = 13%nat;
  al_blocks : forall y, length (d' y) = 512%nat;
  al_map : map_ok (used fb') (baddr d' (nod ad')) (ind (nod ad'));
  al_addr : x = baddr d' (nod ad') n /\ x <> 0;
  al_rest : forall m, 0 <= m < 140 -> m <> n -> baddr d' (nod ad') m = baddr d (nod ad) m;
  al_same : forall y, y < fb -> (ind (nod ad) <> 0 -> y <> ind (nod ad)) -> d' y = d y;
  al_zero : forall y, fb' <= y -> d' y = d y;
  al_x : d' x = if decide (baddr d (nod ad) n = 0) then block0 else d x;
  al_old : baddr d (nod ad) n <> 0 -> x = baddr d (nod ad) n /\ fb' = fb;
  al_new : baddr d (nod ad) n = 0 -> fb <= x /\ fb' = fb + (if decide (12 <= n /\ ind (nod ad) = 0) then 2 else 1);
  al_ind : ind (nod ad') <> 0 <-> ind (nod ad) <> 0 \/ 12 <= n;
  al_own : ind (nod ad') = ind (nod ad) \/ fb <= ind (nod ad')
}.

Section Alloc.
Context (d : Z -> list Z) (fb : Z).
Hypotheses (Hlen : forall y, length (d y) = 512%nat) (Hzero : forall y, fb <= y -> d y = block0) (Hfb : 59 <= fb < 2 ^ 31).

Lemma used_more fb1 fb2 y : fb1 <= fb2 -> used fb1 y -> used fb2 y.
Proof. unfold used. lia. Qed.

(** Nothing of a file is at a block not handed out. *)
Lemma not_used_yet ad a : map_ok (used fb) (baddr d (nod ad)) (ind (nod ad)) -> fb <= a ->
  (forall m, 0 <= m < 140 -> baddr d (nod ad) m <> a) /\ (ind (nod ad) <> a).
Proof.
  intros [H1 H2 _] Ha. split.
  - intros m Hm E. destruct (H1 m Hm) as [[_ ?] _]; lia.
  - intros E. destruct H2; lia.
Qed.

Lemma alloc_there ad n : length ad = 13%nat -> map_ok (used fb) (baddr d (nod ad)) (ind (nod ad)) -> 0 <= n < 140 ->
  baddr d (nod ad) n <> 0 -> alloced d fb ad n d fb ad (baddr d (nod ad) n).
Proof.
  intros Hl Hm Hn Hne. split; try done.
  - by rewrite decide_False.
  - split; [by left|]. intros [?|Hn12]; [done|]. unfold baddr in Hne. rewrite (proj2 (Z.ltb_ge n 12)) in Hne by lia.
    by destruct (Z.eqb_spec (ind (nod ad)) 0).
  - by left.
Qed.

Lemma baddr_direct ad n a m : length ad = 13%nat -> 0 <= n < 12 -> 0 <= m ->
  baddr d (nod (<[Z.to_nat n := a]> ad)) m = if decide (m = n) then a else baddr d (nod ad) m.
Proof.
  intros Hl Hn Hm. unfold baddr, ind. cbn [i_addrs nod]. destruct (Z.ltb_spec m 12).
  - case_decide; [subst; by rewrite list_lookup_insert_eq by lia|]. by rewrite list_lookup_insert_ne by lia.
  - rewrite decide_False by lia. by rewrite list_lookup_insert_ne by lia.
Qed.

Lemma alloc_direct ad n : length ad = 13%nat -> map_ok (used fb) (baddr d (nod ad)) (ind (nod ad)) -> 0 <= n < 12 ->
  baddr d (nod ad) n = 0 -> alloced d fb ad n d (fb + 1) (<[Z.to_nat n := fb]> ad) fb.
Proof.
  intros Hl Hm Hn H0. pose proof (fun m => baddr_direct ad n fb m Hl Hn) as Hba.
  assert (ind (nod (<[Z.to_nat n := fb]> ad)) = ind (nod ad)) as Ei by (unfold ind; cbn [i_addrs nod]; by rewrite list_lookup_insert_ne by lia).
  destruct (not_used_yet ad fb Hm ltac:(lia)) as [Hf Hi]. split.
  - by rewrite length_insert.
  - done.
  - apply (map_ok_add _ (baddr d (nod ad)) _ _ n fb); [|lia|unfold used; lia|rewrite Ei; by apply not_eq_sym|done|intros m Hm'; apply Hba; lia].
    eapply map_ok_ext; [|done|exact Ei|exact Hm]. intros y. apply used_more. lia.
  - rewrite Hba by lia. rewrite decide_True by done. lia.
  - intros m Hm' Hne. rewrite Hba by lia. by rewrite decide_False.
  - done.
  - done.
  - rewrite decide_True by done. apply Hzero. lia.
  - done.
  - intros _. rewrite decide_False by lia. lia.
  - rewrite Ei. split; [by left|]. intros [?|?]; [done|lia].
  - by left.
Qed.

Lemma baddr_entry ad n a m : ind (nod ad) <> 0 -> 12 <= n < 140 -> 0 <= a < 2 ^ 32 -> 0 <= m < 140 ->
  baddr (put d (ind (nod ad)) (put_word (d (ind (nod ad))) (4 * Z.to_nat (n - 12)) a)) (nod ad) m =
  if decide (m = n) then a else baddr d (nod ad) m.
Proof.
  intros Hi Hn Ha Hm. pose proof (Hlen (ind (nod ad))) as Hl. unfold baddr. destruct (Z.ltb_spec m 12); [by rewrite decide_False by lia|].
  rewrite (proj2 (Z.eqb_neq _ _) Hi). unfold put. rewrite decide_True by done. case_decide as E.
  - subst. rewrite word_at_put_word by lia. by apply u32_small.
  - apply word_at_put_word_out; lia.
Qed.

Lemma alloc_entry ad n : length ad = 13%nat -> map_ok (used fb) (baddr d (nod ad)) (ind (nod ad)) -> 12 <= n < 140 ->
  ind (nod ad) <> 0 -> baddr d (nod ad) n = 0 ->
  alloced d fb ad n (put d (ind (nod ad)) (put_word (d (ind (nod ad))) (4 * Z.to_nat (n - 12)) fb)) (fb + 1) ad fb.
Proof.
  intros Hl Hm Hn Hi H0. pose proof (fun m => baddr_entry ad n fb m Hi Hn ltac:(lia)) as Hba.
  set (d' := put d _ _) in *. destruct (not_used_yet ad fb Hm ltac:(lia)) as [Hf Hni].
  pose proof (mo_ind _ _ _ Hm Hi) as Hui. pose proof (Hlen (ind (nod ad))) as Hli.
  split.
  - done.
  - intros y. unfold d', put. case_decide; [|apply Hlen]. rewrite length_put_word; lia.
  - apply (map_ok_add _ (baddr d (nod ad)) _ _ n fb); [|lia|unfold used; lia|done|done|done].
    eapply map_ok_ext; [|done|done|exact Hm]. intros y. apply used_more. lia.
  - rewrite Hba by lia. rewrite decide_True by done. lia.
  - intros m Hm' Hne. rewrite Hba by lia. by rewrite decide_False.
  - intros y Hy Hne. unfold d', put. by rewrite decide_False by auto.
  - intros y Hy. unfold d', put. destruct Hui. by rewrite decide_False by lia.
  - rewrite decide_True by done. unfold d', put. rewrite decide_False by (by apply not_eq_sym). apply Hzero. lia.
  - done.
  - intros _. rewrite decide_False by tauto. lia.
  - split; [by left|done].
  - by left.
Qed.

End Alloc.

(** The indirect block is taken first. *)
Lemma alloc_indirect d fb ad n : (forall y, length (d y) = 512%nat) -> (forall y, fb <= y -> d y = block0) -> 59 <= fb < 2 ^ 31 - 1 ->
  length ad = 13%nat -> map_ok (used fb) (baddr d (nod ad)) (ind (nod ad)) -> 12 <= n < 140 -> ind (nod ad) = 0 ->
  alloced d fb ad n (put d fb (put_word (d fb) (4 * Z.to_nat (n - 12)) (fb + 1))) (fb + 2) (<[12%nat := fb]> ad) (fb + 1).
Proof.
  intros Hlen Hzero Hfb Hl Hm Hn Hi. set (ad1 := <[12%nat := fb]> ad).
  assert (ind (nod ad1) = fb) as Ei by (unfold ind, ad1; cbn [i_addrs nod]; by rewrite list_lookup_insert_eq by lia).
  assert (forall m, 0 <= m < 140 -> baddr d (nod ad1) m = baddr d (nod ad) m) as Hba.
  { intros m Hm'. unfold baddr. rewrite Ei, Hi. destruct (Z.ltb_spec m 12).
    - unfold ad1. cbn [i_addrs nod]. by rewrite list_lookup_insert_ne by lia.
    - rewrite (proj2 (Z.eqb_neq fb 0)) by lia. rewrite Hzero by lia. apply block0_word. lia. }
  destruct (not_used_yet d fb ltac:(lia) ad fb Hm ltac:(lia)) as [Hf _].
  assert (map_ok (used (fb + 1)) (baddr d (nod ad1)) (ind (nod ad1))) as Hm1.
  { rewrite Ei. destruct Hm as [M1 M2 M3]. split.
    - intros m Hm'. rewrite Hba by done. intros Hne. destruct (M1 m Hm' Hne). split; [eapply used_more; [|done]; lia|by apply Hf].
    - unfold used. lia.
    - intros m m' Hm' Hm''. rewrite !Hba by done. by apply M3. }
  assert (baddr d (nod ad) n = 0) as H0 by (unfold baddr; by rewrite (proj2 (Z.ltb_ge n 12)), Hi by lia).
  assert (forall y, fb + 1 <= y -> d y = block0) as Hz1 by (intros y Hy; apply Hzero; lia).
  assert (length ad1 = 13%nat) as Hl1 by (unfold ad1; by rewrite length_insert).
  pose proof (alloc_entry d (fb + 1) Hlen Hz1 ltac:(lia) ad1 n Hl1 Hm1 Hn ltac:(rewrite Ei; lia) ltac:(rewrite Hba by lia; done)) as Ha.
  rewrite Ei in Ha. replace (fb + 1 + 1) with (fb + 2) in Ha by lia. destruct Ha as [A1 A2 A3 A4 A5 A6 A7 A8 A9 A10 A11 A12].
  split; try done.
  - intros m Hm' Hne. rewrite A5 by done. by apply Hba.
  - intros y Hy _. apply A6; [lia|]. fold ad1. rewrite Ei. lia.
  - rewrite decide_True by done. rewrite A8. rewrite Hba by lia. by rewrite decide_True.
  - intros _. rewrite decide_True by lia. lia.
  - fold ad1. rewrite Ei. split; [lia|]. intros _. lia.
  - right. fold ad1. rewrite Ei. lia.
Qed.

(** ** Appending *)

Lemma map_fits d fb ad : length ad = 13%nat -> 59 <= fb < 2 ^ 31 -> map_ok (used fb) (baddr d (nod ad)) (ind (nod ad)) ->
  Forall (fun a => 0 <= a < 2 ^ 32) ad.
Proof.
  intros Hl Hfb [M1 M2 _]. apply Forall_lookup. intros j a Ha. pose proof (lookup_lt_Some _ _ _ Ha).
  destruct (decide (a = 0)) as [->|Hne]; [lia|]. assert (used fb a) as Hu; [|unfold used in Hu; lia].
  destruct (decide (j = 12%nat)) as [->|Hj12].
  - assert (ind (nod ad) = a) as <- by (unfold ind; cbn [i_addrs nod]; by rewrite Ha). auto.
  - assert (baddr d (nod ad) (Z.of_nat j) = a) as <-; [|apply M1; [lia|done]].
    unfold baddr. rewrite (proj2 (Z.ltb_lt _ _)) by lia. cbn [i_addrs nod]. by rewrite Nat2Z.id, Ha.
Qed.

Lemma fits_addrs di ad : fits di -> length ad = 13%nat -> Forall (fun a => 0 <= a < 2 ^ 32) ad -> fits (set_d_addrs ad di).
Proof. intros (H1 & H2 & _ & _) Hl Hr. by split. Qed.

Lemma fits_size di v : fits di -> 0 <= v < 2 ^ 32 -> fits (set_d_size v di).
Proof. intros (H1 & _ & H3 & H4) Hv. by split. Qed.

Lemma addr_lookup di i : fits di -> 0 <= i < 13 -> xint false (din_addr false (dinode_bytes di) i) = default 0 (d_addrs di !! Z.to_nat i).
Proof.
  intros Hf Hi. rewrite din_addr_bytes by done. destruct Hf as (_ & _ & Hl & Hr).
  rewrite (list_lookup_lookup_total_lt _ (Z.to_nat i)) by lia. rewrite xint_little. apply u32_small.
  rewrite list.Forall_forall in Hr. apply Hr, list_elem_of_lookup_total_2. lia.
Qed.

Section Append.
Context (room : Z).
Hypothesis Hroom : 1000 <= room.

(** The address [i] of the inode, taken when it is 0. *)
Lemma take_addr s d fi fb di i : rep s d fi fb -> fits di -> 0 <= i < 13 -> 0 <= fb < 2 ^ 31 ->
  exists s1, (if xint false (din_addr false (dinode_bytes di) i) =? 0
    then b <- next_block ;; ret (set_din_addr false i (xint false b) (dinode_bytes di)) else ret (dinode_bytes di)) s =
    Done (dinode_bytes (if default 0 (d_addrs di !! Z.to_nat i) =? 0 then set_d_addrs (<[Z.to_nat i := fb]> (d_addrs di)) di else di)) s1 /\
    rep s1 d fi (if default 0 (d_addrs di !! Z.to_nat i) =? 0 then fb + 1 else fb).
Proof.
  intros Hrep Hfits Hi Hfb. rewrite (addr_lookup di i) by done. destruct (default 0 (d_addrs di !! Z.to_nat i) =? 0); [|by eexists].
  destruct (next_block_spec s d fi fb Hrep ltac:(lia)) as (s1 & E1 & Hr1). exists s1. rewrite bind_eq, E1. cbn [res_bind]. kred.
  rewrite xint_little, u32_small by lia. rewrite set_din_addr_bytes by (done || apply Hfits). done.
Qed.

(** The entry of the indirect block, taken when it is 0. *)
Definition entry_of (din : list Z) (fbn : Z) : M image (Z * list Z) :=
  indirect <- rsect (xint false (din_addr false din 12)) ;;
  let at_ := (4 * Z.to_nat (fbn - 12))%nat in
  indirect <- (if host_word false indirect at_ =? 0 then
                 b <- next_block ;;
                 let indirect := put_host_word false indirect at_ (xint false b) in
                 wsect room (xint false (din_addr false din 12)) indirect ;;
                 ret indirect
               else ret indirect) ;;
  ret (xint false (host_word false indirect at_), din).

Lemma take_entry s d fi fb di n : rep s d fi fb -> fits di -> (forall y, length (d y) = 512%nat) -> 12 <= n < 140 ->
  let x0 := ind (nod (d_addrs di)) in let at_ := (4 * Z.to_nat (n - 12))%nat in let a := word_at (d x0) at_ in
  0 < x0 < 1000 -> 0 <= fb < 2 ^ 31 -> 0 <= a < 2 ^ 32 ->
  exists s', entry_of (dinode_bytes di) n s = Done (if a =? 0 then fb else a, dinode_bytes di) s' /\
    if a =? 0 then rep s' (put d x0 (put_word (d x0) at_ fb)) fi (fb + 1) else rep s' d fi fb.
Proof.
  intros Hrep Hfits Hlen Hn x0 at_ a Hx0 Hfb Ha. unfold entry_of. rewrite (addr_lookup di 12 Hfits) by lia.
  change (default 0 (d_addrs di !! Z.to_nat 12)) with x0. rewrite bind_eq, (rsect_spec s d fi fb x0 Hrep) by lia. cbn [res_bind]. cbv zeta. fold at_.
  change (host_word false (d x0) at_) with a. destruct (Z.eqb_spec a 0) as [E|E].
  - destruct (next_block_spec s d fi fb Hrep ltac:(lia)) as (s1 & E1 & Hr1). rewrite !bind_eq, E1. cbn [res_bind].
    rewrite xint_little, u32_small by lia. change (put_host_word false (d x0) at_ fb) with (put_word (d x0) at_ fb).
    destruct (wsect_spec room Hroom s1 d fi (fb + 1) x0 (put_word (d x0) at_ fb) Hr1 ltac:(lia)) as (s2 & E2 & Hr2).
    rewrite bind_eq, E2. cbn [res_bind]. kred. change (host_word false) with word_at.
    rewrite word_at_put_word by (rewrite Hlen; lia). rewrite xint_little, !u32_small by (rewrite ?u32_small; lia). by exists s2.
  - kred. change (host_word false (d x0) at_) with a. rewrite xint_little, u32_small by done. by exists s.
Qed.

Lemma append_block_spec s d fi fb di n :
  rep s d fi fb -> fits di -> (forall y, length (d y) = 512%nat) -> (forall y, fb <= y -> d y = block0) -> 59 <= fb <= 1000 ->
  map_ok (used fb) (baddr d (nod (d_addrs di))) (ind (nod (d_addrs di))) -> 0 <= n < 140 ->
  fb + (if decide (baddr d (nod (d_addrs di)) n = 0) then if decide (12 <= n /\ ind (nod (d_addrs di)) = 0) then 2 else 1 else 0) <= 1000 ->
  exists s' d' fb' ad' x, append_block false room (dinode_bytes di) n s = Done (x, dinode_bytes (set_d_addrs ad' di)) s' /\
    rep s' d' fi fb' /\ alloced d fb (d_addrs di) n d' fb' ad' x.
Proof.
  intros Hrep Hfits Hlen Hz Hfb Hm Hn Hroom'. set (ad := d_addrs di) in *. pose proof Hfits as (_ & _ & Hl & _). fold ad in Hl.
  assert (set_d_addrs ad di = di) as Eid by (by destruct di). unfold append_block. change NDIRECT with 12.
  destruct (Z.ltb_spec n 12) as [Hd|Hd].
  - destruct (take_addr s d fi fb di n Hrep Hfits ltac:(lia) ltac:(lia)) as (s1 & E1 & Hr1). fold ad in E1, Hr1.
    rewrite bind_eq, E1. cbn [res_bind]. kred.
    assert (baddr d (nod ad) n = default 0 (ad !! Z.to_nat n)) as Eb by (unfold baddr; by rewrite (proj2 (Z.ltb_lt n 12)) by lia).
    rewrite <-Eb in *. destruct (Z.eqb_spec (baddr d (nod ad) n) 0) as [E0|E0].
    + pose proof (alloc_direct d fb Hlen Hz ltac:(lia) ad n Hl Hm ltac:(lia) E0) as Ha. set (ad' := <[Z.to_nat n := fb]> ad) in *.
      assert (fits (set_d_addrs ad' di)) as Hf' by (apply fits_addrs; [done|apply Ha|eapply map_fits; [apply Ha| |apply Ha]; lia]).
      rewrite (addr_lookup _ n Hf') by lia. cbn [d_addrs set_d_addrs]. unfold ad' at 1. rewrite list_lookup_insert_eq by lia.
      eexists s1, d, _, ad', fb. done.
    + rewrite (addr_lookup di n Hfits) by lia. fold ad. rewrite <-Eb. eexists s1, d, fb, ad, _. split; [by rewrite Eid|].
      split; [done|]. apply alloc_there; (done || lia).
  - destruct (take_addr s d fi fb di 12 Hrep Hfits ltac:(lia) ltac:(lia)) as (s1 & E1 & Hr1). fold ad in E1, Hr1.
    rewrite bind_eq, E1. cbn [res_bind]. change (Z.to_nat 12) with 12%nat in *. change (default 0 (ad !! 12%nat)) with (ind (nod ad)) in *.
    match goal with |- context [?m s1] => change m with (entry_of
      (dinode_bytes (if ind (nod ad) =? 0 then set_d_addrs (<[12%nat := fb]> ad) di else di)) n) end.
    destruct (Z.eqb_spec (ind (nod ad)) 0) as [Ei|Ei].
    + pose proof (alloc_indirect d fb ad n Hlen Hz ltac:(lia) Hl Hm ltac:(lia) Ei) as Ha. set (ad' := <[12%nat := fb]> ad) in *.
      assert (baddr d (nod ad) n = 0) as E0 by (unfold baddr; by rewrite (proj2 (Z.ltb_ge n 12)), Ei by lia).
      rewrite !decide_True in Hroom' by (done || lia).
      assert (fits (set_d_addrs ad' di)) as Hf' by (apply fits_addrs; [done|apply Ha|eapply map_fits; [apply Ha| |apply Ha]; lia]).
      assert (ind (nod ad') = fb) as Ei' by (unfold ind, ad'; cbn [i_addrs nod]; by rewrite list_lookup_insert_eq by lia).
      pose proof (take_entry s1 d fi (fb + 1) _ n Hr1 Hf' Hlen ltac:(lia)) as Hte. cbv zeta in Hte. change (d_addrs (set_d_addrs ad' di)) with ad' in Hte.
      rewrite Ei', Hz, block0_word in Hte by lia. destruct Hte as (s2 & E2 & Hr2); [lia|lia|lia|].
      rewrite Z.eqb_refl in E2, Hr2. replace (fb + 1 + 1) with (fb + 2) in Hr2 by lia. rewrite <-(Hz fb) in Hr2 by lia.
      by eexists s2, _, _, ad', _.
    + pose proof (mo_ind _ _ _ Hm Ei) as Hui. unfold used in Hui.
      assert (baddr d (nod ad) n = word_at (d (ind (nod ad))) (4 * Z.to_nat (n - 12))) as Eb.
      { unfold baddr. rewrite (proj2 (Z.ltb_ge n 12)), (proj2 (Z.eqb_neq (ind (nod ad)) 0)) by (done || lia). done. }
      assert (0 <= baddr d (nod ad) n < 2 ^ 32) as Hra.
      { destruct (decide (baddr d (nod ad) n = 0)) as [->|Hne]; [lia|]. destruct (mo_use _ _ _ Hm n Hn Hne) as [Hu _]. unfold used in Hu. lia. }
      destruct (take_entry s1 d fi fb di n Hr1 Hfits Hlen ltac:(lia)) as (s2 & E2 & Hr2); fold ad; [lia|lia|by rewrite <-Eb|].
      fold ad in E2, Hr2. rewrite <-Eb in E2, Hr2. rewrite E2. destruct (Z.eqb_spec (baddr d (nod ad) n) 0) as [E0|E0].
      * eexists s2, _, _, ad, _. split; [by rewrite Eid|]. split; [exact Hr2|]. apply alloc_entry; (done || lia).
      * eexists s2, d, fb, ad, _. split; [by rewrite Eid|]. split; [done|]. apply alloc_there; (done || lia).
Qed.

End Append.

(** What an append has done to the disk. *)
Record appended (d : Z -> list Z) (fb : Z) (ad bs p : list Z) (d' : Z -> list Z) (fb' : Z) (ad' : list Z) : Prop := {
  ap_file : holds_file (used fb') d' ad' (bs ++ p);
  ap_blocks : forall y, length (d' y) = 512%nat;
  ap_same : forall y, y < fb -> ~ file_block d (nod ad) y -> d' y = d y;
  ap_zero : forall y, fb' <= y -> d' y = d y;
  ap_own : forall y, file_block d' (nod ad') y -> file_block d (nod ad) y \/ fb <= y < fb';
  ap_fb : fb' = fb + nb (Z.of_nat (length bs) + Z.of_nat (length p)) - nb (Z.of_nat (length bs))
}.

(** The length of a file. *)
Definition flen (bs : list Z) : Z := Z.of_nat (length bs).

Lemma last_block_of (bs : list Z) : flen bs < 140 * 512 -> 0 <= flen bs / 512 < 140 /\ 0 <= flen bs `mod` 512 < 512 /\ flen bs = 512 * (flen bs / 512) + flen bs `mod` 512.
Proof.
  intros HL. assert (0 <= flen bs) by (unfold flen; lia). split; [by apply block_index|]. split; [by apply Z.mod_pos_bound|by apply Z.div_mod].
Qed.

Section OneBlock.
Context (d : Z -> list Z) (fb : Z) (ad bs p : list Z).
Hypotheses (Hf : holds_file (used fb) d ad bs) (HL : flen bs < 140 * 512)
  (Hp : 0 < Z.of_nat (length p) <= 512 - flen bs `mod` 512).

Lemma block_there : baddr d (nod ad) (flen bs / 512) = 0 <-> flen bs `mod` 512 = 0.
Proof.
  destruct (last_block_of bs HL) as (Hn & Hm & E). pose proof (hf_there _ _ _ _ Hf (flen bs / 512) Hn) as Ht. fold (flen bs) in Ht.
  destruct (decide (baddr d (nod ad) (flen bs / 512) = 0)); lia.
Qed.

(** The blocks that must be taken. *)
Lemma nb_need : (if decide (baddr d (nod ad) (flen bs / 512) = 0) then if decide (12 <= flen bs / 512 /\ ind (nod ad) = 0) then 2 else 1 else 0) =
  nb (flen bs + Z.of_nat (length p)) - nb (flen bs).
Proof.
  destruct (last_block_of bs HL) as (Hn & Hm & E). pose proof (hf_ind _ _ _ _ Hf) as Hi. fold (flen bs) in Hi. set (n := (flen bs) / 512) in *. unfold nb.
  assert ((flen bs + Z.of_nat (length p) + 511) / 512 = n + 1) as -> by (symmetry; apply (Z.div_unique_pos _ _ _ (flen bs + Z.of_nat (length p) + 511 - 512 * (n + 1))); lia).
  pose proof block_there as Hb; fold n in Hb. destruct (decide (baddr d (nod ad) n = 0)) as [E0|E0].
  - apply Hb in E0. assert ((flen bs + 511) / 512 = n) as -> by (symmetry; apply (Z.div_unique_pos _ _ _ 511); lia).
    destruct (Z.gtb_spec (flen bs + Z.of_nat (length p)) (12 * 512)), (Z.gtb_spec (flen bs) (12 * 512)); case_decide; lia.
  - assert (flen bs `mod` 512 <> 0) as Hne by tauto.
    assert ((flen bs + 511) / 512 = n + 1) as -> by (symmetry; apply (Z.div_unique_pos _ _ _ (flen bs + 511 - 512 * (n + 1))); lia).
    destruct (Z.gtb_spec (flen bs + Z.of_nat (length p)) (12 * 512)), (Z.gtb_spec (flen bs) (12 * 512)); lia.
Qed.

Context (d' : Z -> list Z) (fb' : Z) (ad' : list Z) (x : Z).
Hypothesis Ha : alloced d fb ad (flen bs / 512) d' fb' ad' x.

Lemma nb_step : fb' = fb + nb (flen bs + Z.of_nat (length p)) - nb (flen bs).
Proof.
  pose proof nb_need as Hn. case_decide as E0; [destruct (al_new _ _ _ _ _ _ _ _ Ha E0)|destruct (al_old _ _ _ _ _ _ _ _ Ha E0)]; lia.
Qed.

Definition put_piece : Z -> list Z := put d' x (splice (d' x) (Z.to_nat (flen bs `mod` 512)) p).

Lemma baddr_piece m : baddr put_piece (nod ad') m = baddr d' (nod ad') m.
Proof.
  destruct (last_block_of bs HL) as (Hn & _). destruct (al_addr _ _ _ _ _ _ _ _ Ha) as [Ex Hx0].
  destruct (mo_use _ _ _ (al_map _ _ _ _ _ _ _ _ Ha) (flen bs / 512) Hn) as [_ Hne]; [by rewrite <-Ex|]. rewrite <-Ex in Hne.
  apply baddr_ext. intros _. unfold put_piece, put. by rewrite decide_False by (by apply not_eq_sym).
Qed.

(** The block written is the file's own or a new one. *)
Lemma piece_other y : y < fb -> ~ file_block d (nod ad) y -> put_piece y = d y.
Proof.
  intros Hy Hnf. destruct (last_block_of bs HL) as (Hn & _). destruct (al_addr _ _ _ _ _ _ _ _ Ha) as [Ex Hx0]. unfold put_piece, put. rewrite decide_False.
  - apply (al_same _ _ _ _ _ _ _ _ Ha); [done|]. intros Hi ->. apply Hnf. split; [done|by left].
  - intros ->. destruct (decide (baddr d (nod ad) (flen bs / 512) = 0)) as [E|E].
    + destruct (al_new _ _ _ _ _ _ _ _ Ha E). lia.
    + destruct (al_old _ _ _ _ _ _ _ _ Ha E) as [-> _]. apply Hnf. split; [done|]. right. by exists (flen bs / 512).
Qed.

Lemma piece_zero y : 59 <= fb -> fb' <= y -> put_piece y = d y.
Proof.
  intros Hfb Hy. destruct (last_block_of bs HL) as (Hn & _). destruct (al_addr _ _ _ _ _ _ _ _ Ha) as [Ex Hx0].
  destruct (mo_use _ _ _ (al_map _ _ _ _ _ _ _ _ Ha) (flen bs / 512) Hn) as [[_ Hu] _]; [by rewrite <-Ex|]. rewrite <-Ex in Hu.
  unfold put_piece, put. rewrite decide_False by lia. by apply (al_zero _ _ _ _ _ _ _ _ Ha).
Qed.

Lemma piece_own y : file_block put_piece (nod ad') y -> file_block d (nod ad) y \/ fb <= y < fb'.
Proof.
  intros [Hy0 Hf']. destruct (last_block_of bs HL) as (Hn & _). destruct (al_addr _ _ _ _ _ _ _ _ Ha) as [Ex Hx0].
  destruct Hf' as [->|(m & Hm & E)].
  - destruct (al_own _ _ _ _ _ _ _ _ Ha) as [E|E]; [left; rewrite E in *; split; [done|by left]|right].
    destruct (mo_ind _ _ _ (al_map _ _ _ _ _ _ _ _ Ha) Hy0). lia.
  - rewrite baddr_piece in E. destruct (decide (m = (flen bs) / 512)) as [->|Hne].
    + rewrite <-Ex in E. subst y. destruct (decide (baddr d (nod ad) (flen bs / 512) = 0)) as [E|E].
      * right. destruct (al_new _ _ _ _ _ _ _ _ Ha E). destruct (mo_use _ _ _ (al_map _ _ _ _ _ _ _ _ Ha) (flen bs / 512) Hn) as [[_ Hu] _]; [by rewrite <-Ex|].
        rewrite <-Ex in Hu. lia.
      * left. destruct (al_old _ _ _ _ _ _ _ _ Ha E) as [-> _]. split; [done|]. right. by exists (flen bs / 512).
    + left. rewrite (al_rest _ _ _ _ _ _ _ _ Ha) in E by done. split; [done|]. right. by exists m.
Qed.

Lemma piece_bytes o : 0 <= o -> o / 512 * 512 < (flen bs) + Z.of_nat (length p) ->
  fbyte put_piece (nod ad') o = default 0 ((bs ++ p) !! Z.to_nat o).
Proof.
  intros Ho Hlt. destruct (last_block_of bs HL) as (Hn & Hm & E). destruct (al_addr _ _ _ _ _ _ _ _ Ha) as [Ex Hx0]. unfold fbyte. rewrite baddr_piece.
  pose proof (Z.mod_pos_bound o 512 ltac:(lia)) as Hmo. pose proof (Z.div_mod o 512 ltac:(lia)) as Edm. pose proof (al_blocks _ _ _ _ _ _ _ _ Ha x) as Hlx.
  destruct (decide (o / 512 = (flen bs) / 512)) as [En|En].
  - rewrite En, <-Ex. unfold put_piece, put. rewrite decide_True, lookup_splice by (done || lia).
    assert (o = 512 * (flen bs / 512) + o `mod` 512) as Eo by lia.
    case_decide as Hr; [rewrite lookup_app_r by (unfold flen in *; lia); do 2 f_equal; unfold flen in *; lia|].
    assert (default 0 (bs !! Z.to_nat o) = default 0 ((bs ++ p) !! Z.to_nat o)) as <-.
    { destruct (decide (o < (flen bs))); [by rewrite lookup_app_l by (unfold flen in *; lia)|]. unfold flen in *.
      rewrite !lookup_ge_None_2; rewrite ?length_app; [done|lia|lia]. }
    rewrite (al_x _ _ _ _ _ _ _ _ Ha). destruct (decide (baddr d (nod ad) (flen bs / 512) = 0)) as [E0|E0].
    + apply block_there in E0. rewrite (lookup_ge_None_2 bs) by (unfold flen in *; lia). unfold block0. change (Z.to_nat BSIZE) with 512%nat.
      by rewrite lookup_replicate_2 by lia.
    + assert (flen bs `mod` 512 <> 0) by (by rewrite <-block_there). rewrite <-(hf_bytes _ _ _ _ Hf) by (fold (flen bs); lia). unfold fbyte. rewrite En.
      by destruct (al_old _ _ _ _ _ _ _ _ Ha E0) as [<- _].
  - assert (0 <= o / 512 < flen bs / 512) as Hlo by (split; [apply Z.div_pos; lia|lia]).
    assert (baddr d (nod ad) (o / 512) <> 0) as Hne by (apply (hf_there _ _ _ _ Hf); fold (flen bs); lia).
    destruct (mo_use _ _ _ (hf_map _ _ _ _ Hf) (o / 512) ltac:(lia) Hne) as [[_ Hu] Hui].
    rewrite (al_rest _ _ _ _ _ _ _ _ Ha) by lia. rewrite lookup_app_l by (unfold flen in *; lia). rewrite <-(hf_bytes _ _ _ _ Hf) by (fold (flen bs); lia).
    unfold fbyte, put_piece, put. rewrite decide_False.
    + by rewrite (al_same _ _ _ _ _ _ _ _ Ha).
    + intros Exx. apply En. apply (mo_inj _ _ _ (al_map _ _ _ _ _ _ _ _ Ha)); [lia|done|by rewrite (al_rest _ _ _ _ _ _ _ _ Ha) by lia|].
      by rewrite <-Ex, (al_rest _ _ _ _ _ _ _ _ Ha) by lia.
Qed.

Lemma appended_block : 59 <= fb -> appended d fb ad bs p put_piece fb' ad'.
Proof.
  intros Hfb. destruct (last_block_of bs HL) as (Hn & Hm & E). destruct (al_addr _ _ _ _ _ _ _ _ Ha) as [Ex Hx0].
  pose proof (hf_ind _ _ _ _ Hf) as Hi. fold (flen bs) in Hi. split.
  - split; rewrite ?length_app, ?Nat2Z.inj_add; fold (flen bs).
    + split; [apply Ha|lia].
    + eapply map_ok_ext; [| |done|apply Ha]; [done|]. intros m _. apply baddr_piece.
    + intros m Hm'. rewrite baddr_piece. destruct (decide (m = (flen bs) / 512)) as [->|Hne]; [rewrite <-Ex; split; [lia|done]|].
      rewrite (al_rest _ _ _ _ _ _ _ _ Ha) by done. rewrite (hf_there _ _ _ _ Hf) by done. fold (flen bs). lia.
    + rewrite (al_ind _ _ _ _ _ _ _ _ Ha), Hi. lia.
    + intros o. apply piece_bytes.
  - intros y. unfold put_piece, put. case_decide; [|apply Ha]. rewrite length_splice; rewrite (al_blocks _ _ _ _ _ _ _ _ Ha); lia.
  - intros y. apply piece_other.
  - intros y. by apply piece_zero.
  - apply piece_own.
  - apply nb_step.
Qed.

End OneBlock.

Lemma nb_mono a b : a <= b -> nb a <= nb b.
Proof.
  intros H. unfold nb. pose proof (Z.div_le_mono (a + 511) (b + 511) 512). destruct (Z.gtb_spec a (12 * 512)), (Z.gtb_spec b (12 * 512)); lia.
Qed.

Lemma appended_le d fb ad bs p d' fb' ad' : appended d fb ad bs p d' fb' ad' -> fb <= fb'.
Proof. intros [_ _ _ _ _ E]. pose proof (nb_mono (Z.of_nat (length bs)) (Z.of_nat (length bs) + Z.of_nat (length p))). lia. Qed.

Lemma appended_nil d fb ad bs : holds_file (used fb) d ad bs -> (forall y, length (d y) = 512%nat) -> appended d fb ad bs [] d fb ad.
Proof.
  intros Hf Hl. split; try done; [by rewrite app_nil_r|by left|]. cbn. rewrite Z.add_0_r. lia.
Qed.

Lemma appended_trans d fb ad bs p1 d1 fb1 ad1 p2 d2 fb2 ad2 :
  appended d fb ad bs p1 d1 fb1 ad1 -> appended d1 fb1 ad1 (bs ++ p1) p2 d2 fb2 ad2 -> appended d fb ad bs (p1 ++ p2) d2 fb2 ad2.
Proof.
  intros HA HB. pose proof (appended_le _ _ _ _ _ _ _ _ HA). pose proof (appended_le _ _ _ _ _ _ _ _ HB).
  destruct HA as [A1 A2 A3 A4 A5 A6], HB as [B1 B2 B3 B4 B5 B6]. split.
  - by rewrite app_assoc.
  - done.
  - intros y Hy Hnf. rewrite B3, A3; [done|done|done|lia|]. intros [?|?]%A5; [done|lia].
  - intros y Hy. rewrite B4, A4 by lia. done.
  - intros y [[?|?]%A5|?]%B5; [by left|right; lia|right; lia].
  - rewrite !length_app, !Nat2Z.inj_add, Z.add_assoc in *. lia.
Qed.

Section Iappend.
Context (room : Z).
Hypothesis Hroom : 1000 <= room.

Lemma iappend_loop_spec : forall fuel p s d fi fb di bs,
  (length p <= fuel)%nat -> rep s d fi fb -> fits di -> holds_file (used fb) d (d_addrs di) bs ->
  (forall y, length (d y) = 512%nat) -> (forall y, fb <= y -> d y = block0) -> 59 <= fb <= 1000 ->
  Z.of_nat (length bs) + Z.of_nat (length p) <= 140 * 512 ->
  fb + nb (Z.of_nat (length bs) + Z.of_nat (length p)) - nb (Z.of_nat (length bs)) <= 1000 ->
  exists s' d' fb' ad', iappend_loop false room fuel p (dinode_bytes di) (Z.of_nat (length bs)) s =
      Done (dinode_bytes (set_d_addrs ad' di), Z.of_nat (length bs) + Z.of_nat (length p)) s' /\
    rep s' d' fi fb' /\ appended d fb (d_addrs di) bs p d' fb' ad'.
Proof.
  induction fuel as [|fuel IH]; intros p s d fi fb di bs Hfu Hrep Hfits Hf Hlen Hz Hfb HL Hr.
  all: destruct (decide (length p = 0%nat)) as [E0|E0];
    [destruct p; [|done]; exists s, d, fb, (d_addrs di); cbn; rewrite Z.add_0_r; split; [by destruct di|]; split; [done|by apply appended_nil]|].
  - lia.
  - cbn [iappend_loop]. rewrite (proj2 (Z.ltb_lt 0 (Z.of_nat (length p)))) by lia. cbn [negb]. change BSIZE with 512. change MAXFILE with 140.
    set (L := Z.of_nat (length bs)) in *. assert (flen bs = L) as EL by done.
    assert (flen bs < 140 * 512) as HLf by lia. destruct (last_block_of bs HLf) as (Hn & Hm & E). rewrite EL in Hn, Hm, E.
    rewrite (proj2 (Z.ltb_lt (L / 512) 140)) by lia. cbn [negb]. cbv zeta.
    replace ((L / 512 + 1) * 512 - L) with (512 - L `mod` 512) by lia. replace (L - L / 512 * 512) with (L `mod` 512) by lia.
    set (n1 := Z.min (Z.of_nat (length p)) (512 - L `mod` 512)). assert (n1 = Z.min (Z.of_nat (length p)) (512 - L `mod` 512)) as En1 by done.
    set (p1 := take (Z.to_nat n1) p). assert (Z.of_nat (length p1) = n1) as Hp1 by (unfold p1; rewrite length_take; lia).
    assert (0 < Z.of_nat (length p1) <= 512 - flen bs `mod` 512) as Hpf by (rewrite EL; lia).
    pose proof (nb_need d fb (d_addrs di) bs p1 Hf HLf Hpf) as Hneed. rewrite EL, Hp1 in Hneed.
    pose proof (nb_mono (L + n1) (L + Z.of_nat (length p)) ltac:(lia)).
    destruct (append_block_spec room Hroom s d fi fb di (L / 512) Hrep Hfits Hlen Hz Hfb (hf_map _ _ _ _ Hf) Hn ltac:(rewrite Hneed; lia))
      as (s1 & d1 & fb1 & ad1 & x & E1 & Hr1 & Ha).
    rewrite bind_eq, E1. cbn [res_bind]. destruct (al_addr _ _ _ _ _ _ _ _ Ha) as [Ex Hx0].
    destruct (mo_use _ _ _ (al_map _ _ _ _ _ _ _ _ Ha) (L / 512) Hn) as [Hu _]; [by rewrite <-Ex|]. rewrite <-Ex in Hu. unfold used in Hu.
    pose proof (nb_step d fb (d_addrs di) bs p1 Hf HLf Hpf d1 fb1 ad1 x Ha) as Efb. rewrite EL, Hp1 in Efb.
    rewrite bind_eq, (rsect_spec s1 d1 fi fb1 x Hr1) by lia. cbn [res_bind].
    destruct (wsect_spec room Hroom s1 d1 fi fb1 x (splice (d1 x) (Z.to_nat (L `mod` 512)) p1) Hr1 ltac:(lia)) as (s2 & E2 & Hr2).
    rewrite bind_eq, E2. cbn [res_bind].
    pose proof (appended_block d fb (d_addrs di) bs p1 Hf HLf Hpf d1 fb1 ad1 x Ha ltac:(lia)) as Hap.
    unfold put_piece in Hap. rewrite EL in Hap. set (d2 := put d1 x _) in *.
    pose proof (nb_mono L (L + n1) ltac:(lia)).
    destruct (IH (drop (Z.to_nat n1) p) s2 d2 fi fb1 (set_d_addrs ad1 di) (bs ++ p1)) as (s3 & d3 & fb3 & ad3 & E3 & Hr3 & Hap3).
    + rewrite length_drop. lia.
    + done.
    + apply fits_addrs; [done|apply Ha|]. eapply map_fits; [apply Ha| |apply Ha]. lia.
    + apply Hap.
    + apply Hap.
    + intros y Hy. rewrite (ap_zero _ _ _ _ _ _ _ _ Hap) by done. apply Hz. lia.
    + lia.
    + rewrite length_app, length_drop. fold L in HL. lia.
    + rewrite length_app, length_drop. replace (Z.of_nat (length bs + length p1) + Z.of_nat (length p - Z.to_nat n1)) with (L + Z.of_nat (length p)) by lia.
      replace (Z.of_nat (length bs + length p1)) with (L + n1) by lia. lia.
    + exists s3, d3, fb3, ad3. replace (L + n1) with (Z.of_nat (length (bs ++ p1))) by (rewrite length_app; lia). rewrite E3. split.
      * do 2 f_equal. rewrite length_app, length_drop. lia.
      * split; [done|]. replace p with (p1 ++ drop (Z.to_nat n1) p) by apply take_drop. by eapply appended_trans.
Qed.

End Iappend.
