(* ===== verification/MkfsSpec.v ===== *)
(** * The image mkfs builds (mkfs.c)

    On a little-endian host mkfs leaves a disk the kernel can use: the layout is
    the one of the super block, every file of the command line is in an inode
    of its own with its bytes and in the root directory under its name, files
    share no blocks, and the bitmap tells the blocks they use. *)

From S2P Require Import Prelude Params State FsState BlockDev Log Inode BlockTx Balloc Console Fs FileSpec RwSpec Mkfs MkfsFile.

(** ** Inodes on the image *)

Definition sb_mkfs : superblock := mkSb 1000 941 200 30 2 32 58.

(** The bytes of inode [j]. *)
Definition inode_at (d : Z -> list Z) (j : Z) : list Z := slice (d (IBLOCK j sb_mkfs)) (dinode_off j) 64.

Lemma mkfs_inode_block j : 0 <= j < 200 -> IBLOCK j sb_mkfs = j / 8 + 32 /\ 32 <= IBLOCK j sb_mkfs < 57 /\ (dinode_off j + 64 <= 512)%nat.
Proof.
  intros Hj. unfold IBLOCK, dinode_off, sizeof_dinode. change IPB with 8. cbn [sb_inodestart sb_mkfs].
  pose proof (Z.div_pos j 8). pose proof (Z.div_lt_upper_bound j 8 25). pose proof (Z.mod_pos_bound j 8). rewrite u32_small by lia. lia.
Qed.

(** Writing one inode changes no other. *)
Lemma inode_at_put d j j' din : (forall y, length (d y) = 512%nat) -> 0 <= j < 200 -> 0 <= j' < 200 -> length din = 64%nat ->
  inode_at (put d (IBLOCK j sb_mkfs) (splice (d (IBLOCK j sb_mkfs)) (dinode_off j) din)) j' = if decide (j' = j) then din else inode_at d j'.
Proof.
  intros Hl Hj Hj' Hd. destruct (mkfs_inode_block j Hj) as (Ej & _ & Ho). destruct (mkfs_inode_block j' Hj') as (Ej' & _ & Ho').
  pose proof (Hl (IBLOCK j sb_mkfs)) as Hlb. unfold inode_at, put. destruct (decide (j' = j)) as [->|Hne].
  - rewrite decide_True by done. rewrite <-Hd. apply slice_splice. lia.
  - case_decide as E; [|done]. rewrite E. apply slice_splice_out; [lia|].
    rewrite Ej, Ej' in E. unfold dinode_off, sizeof_dinode in *. change IPB with 8 in *.
    pose proof (Z.div_mod j 8 ltac:(lia)). pose proof (Z.div_mod j' 8 ltac:(lia)).
    pose proof (Z.mod_pos_bound j 8 ltac:(lia)). pose proof (Z.mod_pos_bound j' 8 ltac:(lia)). lia.
Qed.

Lemma inode_at_other d d' j : 0 <= j < 200 -> (forall y, 32 <= y < 57 -> d' y = d y) -> inode_at d' j = inode_at d j.
Proof. intros Hj Hd. destruct (mkfs_inode_block j Hj) as (_ & Hb & _). unfold inode_at. by rewrite Hd. Qed.

(** ** The files so far *)

(** The blocks that the files need. *)
Definition count (fs : list (dinode * list Z)) : Z := foldr (fun x acc => nb (Z.of_nat (length x.2)) + acc) 0 fs.

Lemma count_app fs x : count (fs ++ [x]) = count fs + nb (Z.of_nat (length x.2)).
Proof. unfold count. induction fs as [|y fs IH]; cbn [foldr app]; lia. Qed.

Lemma count_insert fs j x y : fs !! j = Some x -> count (<[j := y]> fs) = count fs - nb (Z.of_nat (length x.2)) + nb (Z.of_nat (length y.2)).
Proof.
  revert j. induction fs as [|z fs IH]; intros j Hj; [done|]. destruct j as [|j]; cbn in Hj.
  - injection Hj as ->. change (<[0%nat := y]> (x :: fs)) with (y :: fs). unfold count. cbn [foldr]. lia.
  - apply IH in Hj. change (<[S j := y]> (z :: fs)) with (z :: <[j := y]> fs). unfold count in *. cbn [foldr]. lia.
Qed.

(** The inodes and their contents, from inode 1 on, when [fi] is the next inode
    and [fb] the next block. *)
Record mk_inv (d : Z -> list Z) (fi fb : Z) (fs : list (dinode * list Z)) : Prop := {
  mv_fi : fi = 1 + Z.of_nat (length fs) /\ fi <= 200;
  mv_fb : 59 <= fb <= 1000 /\ fb = 59 + count fs;
  mv_blocks : forall y, length (d y) = 512%nat;
  mv_zero : forall y, fb <= y -> d y = block0;
  mv_file : forall j di bs, fs !! j = Some (di, bs) -> inode_at d (Z.of_nat j + 1) = dinode_bytes di /\ fits di /\
    d_size di = Z.of_nat (length bs) /\ holds_file (used fb) d (d_addrs di) bs;
  mv_apart : forall j j' di bs di' bs' y, fs !! j = Some (di, bs) -> fs !! j' = Some (di', bs') ->
    file_block d (nod (d_addrs di)) y -> file_block d (nod (d_addrs di')) y -> j = j';
  mv_free : forall j, fi <= j < 200 -> inode_at d j = replicate 64 0;
  mv_meta : forall y, y < 32 \/ 57 <= y < 59 -> d y = if decide (y = 1) then splice block0 0 (sb_mem false) else block0
}.

Lemma file_block_used U d ad bs y : holds_file U d ad bs -> file_block d (nod ad) y -> U y.
Proof.
  intros [_ [M1 M2 _] _ _ _] [Hy [->|(n & Hn & <-)]]; [auto|]. by apply M1.
Qed.

(** The steps of [iappend] on the whole image: the blocks, then the inode. *)
Section OneAppend.
Context (d : Z -> list Z) (fi fb : Z) (fs : list (dinode * list Z)) (j : nat) (di : dinode) (bs p : list Z) (d1 : Z -> list Z) (fb1 : Z) (ad1 : list Z).
Hypotheses (Hv : mk_inv d fi fb fs) (Hj : fs !! j = Some (di, bs)) (Hap : appended d fb (d_addrs di) bs p d1 fb1 ad1) (Hfb1 : fb1 <= 1000).

Definition din_after : dinode := set_d_size (Z.of_nat (length bs) + Z.of_nat (length p)) (set_d_addrs ad1 di).

Hypothesis Hfits : fits din_after.

Definition disk_after : Z -> list Z :=
  put d1 (IBLOCK (Z.of_nat j + 1) sb_mkfs) (splice (d1 (IBLOCK (Z.of_nat j + 1) sb_mkfs)) (dinode_off (Z.of_nat j + 1)) (dinode_bytes din_after)).

Lemma append_inum : 0 <= Z.of_nat j + 1 < 200.
Proof. pose proof (mv_fi _ _ _ _ Hv). apply lookup_lt_Some in Hj. lia. Qed.

Lemma append_own : holds_file (used fb) d (d_addrs di) bs.
Proof. by apply (mv_file _ _ _ _ Hv j). Qed.

Lemma append_low y : y < 59 -> d1 y = d y.
Proof.
  intros Hy. pose proof (mv_fb _ _ _ _ Hv). apply (ap_same _ _ _ _ _ _ _ _ Hap); [lia|]. intros Hf.
  apply (file_block_used _ _ _ _ _ append_own) in Hf. unfold used in Hf. lia.
Qed.

Lemma append_high y : y < 32 \/ 57 <= y -> disk_after y = d1 y.
Proof.
  intros Hy. destruct (mkfs_inode_block _ append_inum) as (_ & Hb & _). unfold disk_after, put. by rewrite decide_False by lia.
Qed.

(** Another file keeps its contents and its blocks. *)
Lemma append_other j' di' bs' : fs !! j' = Some (di', bs') -> j' <> j ->
  holds_file (used fb1) disk_after (d_addrs di') bs' /\ forall y, file_block disk_after (nod (d_addrs di')) y <-> file_block d (nod (d_addrs di')) y.
Proof.
  intros Hj' Hne. pose proof (appended_le _ _ _ _ _ _ _ _ Hap). destruct (mv_file _ _ _ _ Hv _ _ _ Hj') as (_ & _ & _ & Hf').
  apply (holds_file_frame (used fb)); [intros y; unfold used; lia| |done]. intros y Hy.
  pose proof (file_block_used _ _ _ _ _ Hf' Hy) as Hu. unfold used in Hu. rewrite append_high by lia.
  apply (ap_same _ _ _ _ _ _ _ _ Hap); [lia|]. intros Hy'. apply Hne. by eapply (mv_apart _ _ _ _ Hv).
Qed.

Lemma append_this : holds_file (used fb1) disk_after ad1 (bs ++ p) /\ forall y, file_block disk_after (nod ad1) y <-> file_block d1 (nod ad1) y.
Proof.
  apply (holds_file_frame (used fb1)); [done| |apply Hap]. intros y Hy.
  pose proof (file_block_used _ _ _ _ _ (ap_file _ _ _ _ _ _ _ _ Hap) Hy) as Hu. unfold used in Hu. apply append_high. lia.
Qed.

Lemma inode_after j' : 0 <= j' < 200 -> inode_at disk_after j' = if decide (j' = Z.of_nat j + 1) then dinode_bytes din_after else inode_at d j'.
Proof.
  intros Hj'. unfold disk_after. rewrite inode_at_put; [|apply Hap|apply append_inum|done|by apply dinode_bytes_length].
  case_decide; [done|]. apply inode_at_other; [done|]. intros y Hy. apply append_low. lia.
Qed.

Lemma mk_inv_append : mk_inv disk_after fi fb1 (<[j := (din_after, bs ++ p)]> fs).
Proof.
  pose proof (lookup_lt_Some _ _ _ Hj) as Hjl. pose proof (appended_le _ _ _ _ _ _ _ _ Hap) as Hle. pose proof append_inum as Hin.
  destruct (mv_fi _ _ _ _ Hv) as [Efi Hfi]. destruct (mv_fb _ _ _ _ Hv) as [Hfb Efb]. split.
  - by rewrite length_insert.
  - split; [lia|]. rewrite (count_insert _ _ _ _ Hj). cbn [snd]. rewrite length_app, Nat2Z.inj_add.
    pose proof (ap_fb _ _ _ _ _ _ _ _ Hap). lia.
  - intros y. unfold disk_after, put. pose proof (ap_blocks _ _ _ _ _ _ _ _ Hap) as Hl. case_decide; [|done].
    destruct (mkfs_inode_block _ Hin) as (_ & _ & Ho). rewrite length_splice; rewrite ?Hl, ?dinode_bytes_length by done; lia.
  - intros y Hy. rewrite append_high by lia. rewrite (ap_zero _ _ _ _ _ _ _ _ Hap) by done. apply (mv_zero _ _ _ _ Hv). lia.
  - intros j' di' bs' Hj'. destruct (decide (j' = j)) as [->|Hne].
    + rewrite list_lookup_insert_eq in Hj' by done. injection Hj' as <- <-. rewrite inode_after, decide_True by (done || lia).
      split; [done|]. split; [done|]. split; [cbn; rewrite length_app; lia|]. apply append_this.
    + rewrite list_lookup_insert_ne in Hj' by done. pose proof (lookup_lt_Some _ _ _ Hj'). destruct (mv_file _ _ _ _ Hv _ _ _ Hj') as (F1 & F2 & F3 & _).
      rewrite inode_after, decide_False by lia. do 3 (split; [done|]). by apply (append_other j' di' bs' Hj' Hne).
  - assert (forall y j' di' bs', fs !! j' = Some (di', bs') -> j' <> j -> file_block disk_after (nod ad1) y -> file_block disk_after (nod (d_addrs di')) y -> False) as Hno.
    { intros y j' di' bs' Hj' Hne H1 H2. apply (append_other _ _ _ Hj' Hne) in H2. apply append_this in H1.
      destruct (ap_own _ _ _ _ _ _ _ _ Hap y H1) as [Hf|Hf]; [by apply Hne; eapply (mv_apart _ _ _ _ Hv)|].
      destruct (mv_file _ _ _ _ Hv _ _ _ Hj') as (_ & _ & _ & Hf'). apply (file_block_used _ _ _ _ _ Hf') in H2. unfold used in H2. lia. }
    intros j1 j2 di1 bs1 di2 bs2 y H1 H2 F1 F2. destruct (decide (j1 = j)) as [->|N1], (decide (j2 = j)) as [->|N2].
    + done.
    + rewrite list_lookup_insert_eq in H1 by done. injection H1 as <- <-. rewrite list_lookup_insert_ne in H2 by done. exfalso. by eapply Hno.
    + rewrite list_lookup_insert_eq in H2 by done. injection H2 as <- <-. rewrite list_lookup_insert_ne in H1 by done. exfalso. by eapply Hno.
    + rewrite list_lookup_insert_ne in H1, H2 by done. apply (append_other _ _ _ H1 N1) in F1. apply (append_other _ _ _ H2 N2) in F2.
      by eapply (mv_apart _ _ _ _ Hv).
  - intros j' Hj'. rewrite inode_after, decide_False by lia. by apply (mv_free _ _ _ _ Hv).
  - intros y Hy. rewrite append_high, append_low by lia. by apply (mv_meta _ _ _ _ Hv).
Qed.

End OneAppend.

Section Steps.
Context (room : Z).
Hypothesis Hroom : 1000 <= room.

Lemma winode_spec s d fi fb j din : rep s d fi fb -> 0 <= j < 200 ->
  exists s', winode false room j din s = Done tt s' /\
    rep s' (put d (IBLOCK j sb_mkfs) (splice (d (IBLOCK j sb_mkfs)) (dinode_off j) din)) fi fb.
Proof.
  intros Hr Hj. destruct (mkfs_inode_block j Hj) as (_ & Hb & _). unfold winode. rewrite mkfs_sb_little. fold sb_mkfs.
  rewrite bind_eq, (rsect_spec s d fi fb) by (done || lia). cbn [res_bind]. by apply wsect_spec; [| |lia].
Qed.

Lemma rinode_spec s d fi fb j : rep s d fi fb -> 0 <= j < 200 -> rinode false j s = Done (inode_at d j) s.
Proof.
  intros Hr Hj. destruct (mkfs_inode_block j Hj) as (_ & Hb & _). unfold rinode. rewrite mkfs_sb_little. fold sb_mkfs.
  rewrite bind_eq, (rsect_spec s d fi fb) by (done || lia). done.
Qed.

Lemma iappend_spec s d fi fb fs j di bs p :
  rep s d fi fb -> mk_inv d fi fb fs -> fs !! j = Some (di, bs) -> Z.of_nat (length bs) + Z.of_nat (length p) <= 140 * 512 ->
  fb + nb (Z.of_nat (length bs) + Z.of_nat (length p)) - nb (Z.of_nat (length bs)) <= 1000 ->
  exists s' d' fb' di', iappend false room (Z.of_nat j + 1) p s = Done tt s' /\ rep s' d' fi fb' /\
    mk_inv d' fi fb' (<[j := (di', bs ++ p)]> fs) /\
    di' = set_d_addrs (d_addrs di') (set_d_size (Z.of_nat (length bs) + Z.of_nat (length p)) di).
Proof.
  intros Hr Hv Hj HL Hn. destruct (mv_file _ _ _ _ Hv _ _ _ Hj) as (F1 & F2 & F3 & F4). destruct (mv_fb _ _ _ _ Hv) as [Hfb _].
  pose proof (append_inum d fi fb fs j di bs Hv Hj) as Hin.
  unfold iappend. rewrite bind_eq, (rinode_spec s d fi fb) by done. cbn [res_bind]. rewrite F1, din_size_bytes, F3 by done.
  rewrite xint_little, u32_small by lia.
  destruct (iappend_loop_spec room Hroom (length p) p s d fi fb di bs) as (s1 & d1 & fb1 & ad1 & E1 & Hr1 & Hap); try done; try apply Hv.
  rewrite bind_eq, E1. cbn [res_bind fst snd]. rewrite set_din_size_bytes, xint_little, u32_small by lia.
  destruct (winode_spec s1 d1 fi fb1 (Z.of_nat j + 1) (dinode_bytes (din_after di bs p ad1)) Hr1 Hin) as (s2 & E2 & Hr2).
  pose proof (ap_fb _ _ _ _ _ _ _ _ Hap).
  assert (fits (din_after di bs p ad1)) as Hf.
  { apply fits_size; [|lia]. pose proof (ap_file _ _ _ _ _ _ _ _ Hap) as Ho. apply fits_addrs; [done|apply Ho|].
    pose proof (appended_le _ _ _ _ _ _ _ _ Hap). eapply map_fits; [apply Ho| |apply Ho]. lia. }
  eexists s2, _, fb1, (din_after di bs p ad1). split; [exact E2|]. split; [exact Hr2|]. split; [|by destruct di].
  apply (mk_inv_append d fi fb fs j di bs p d1 fb1 ad1); (done || lia).
Qed.

(** A fresh inode. *)
Definition dinode_new (type : Z) : dinode := mkDinode type 0 0 1 0 (replicate 13 0).

Lemma nod_empty d n : baddr d (nod (replicate 13 0)) n = 0 /\ ind (nod (replicate 13 0)) = 0.
Proof.
  assert (forall i, default 0 ((replicate 13 0 : list Z) !! i) = 0) as H.
  { intros i. destruct (replicate 13 0 !! i) as [x|] eqn:E; [|done]. by apply lookup_replicate in E as [-> _]. }
  split; [|done]. unfold baddr, ind. cbn [i_addrs nod]. rewrite !H. by destruct (n <? 12).
Qed.

Lemma no_file_block d y : ~ file_block d (nod (replicate 13 0)) y.
Proof. intros [Hy [->|(n & _ & <-)]]; apply Hy, (nod_empty d). exact 0. Qed.

Lemma holds_empty U d : holds_file U d (replicate 13 0) [].
Proof.
  split.
  - split; [done|cbn; lia].
  - split; [intros n _ Hn|intros Hi|intros n m _ _ Hn]; exfalso; [apply Hn|apply Hi|apply Hn]; apply (nod_empty d); exact 0.
  - intros n Hn. destruct (nod_empty d n) as [-> _]. cbn. lia.
  - split; [done|cbn; lia].
  - intros o Ho Hlt. cbn in Hlt. pose proof (Z.div_pos o 512). lia.
Qed.

Lemma new_bytes type : type = 1 \/ type = 2 ->
  set_din_size false (xint false 0) (splice (splice (replicate sizeof_dinode 0) 0 (host_bytes false 2 (xshort false type))) 6 (host_bytes false 2 (xshort false 1))) =
  dinode_bytes (dinode_new type) /\ fits (dinode_new type).
Proof.
  intros Ht. split; [by destruct Ht as [->| ->]; vm_compute|]. split; [|split; [cbn; lia|split; [done|]]].
  - repeat (apply list.Forall_cons; split); cbn; [lia..|done].
  - apply (Forall_replicate _ 13 0). lia.
Qed.

Lemma ialloc_spec s d fi fb fs type : rep s d fi fb -> mk_inv d fi fb fs -> type = 1 \/ type = 2 -> fi < 200 ->
  exists s' d', ialloc false room type s = Done fi s' /\ rep s' d' (fi + 1) fb /\ mk_inv d' (fi + 1) fb (fs ++ [(dinode_new type, [])]).
Proof.
  intros Hr Hv Ht Hlt. destruct (mv_fi _ _ _ _ Hv) as [Efi _]. destruct (mv_fb _ _ _ _ Hv) as [Hfb Efb]. destruct (new_bytes type Ht) as [Eb Hf].
  unfold ialloc. kred. rewrite (rp_fi _ _ _ _ Hr), u32_small by lia. cbv zeta. rewrite Eb.
  assert (rep (set_freeinode (fi + 1) s) d (fi + 1) fb) as Hr1 by (by destruct Hr).
  destruct (winode_spec _ d (fi + 1) fb fi (dinode_bytes (dinode_new type)) Hr1 ltac:(lia)) as (s2 & E2 & Hr2).
  rewrite E2. cbn [res_bind]. kred. eexists s2, _. split; [reflexivity|]. split; [exact Hr2|].
  destruct (mkfs_inode_block fi ltac:(lia)) as (_ & Hb & Ho). pose proof (dinode_bytes_length _ Hf) as Hlb. set (d2 := put d _ _) in *.
  assert (forall y, y < 32 \/ 57 <= y -> d2 y = d y) as Hhigh by (intros y Hy; unfold d2, put; by rewrite decide_False by lia).
  assert (forall j', 0 <= j' < 200 -> inode_at d2 j' = if decide (j' = fi) then dinode_bytes (dinode_new type) else inode_at d j') as Hat.
  { intros j' Hj'. apply inode_at_put; [apply Hv|lia|done|done]. }
  assert (forall j di bs, fs !! j = Some (di, bs) -> holds_file (used fb) d2 (d_addrs di) bs /\
    forall y, file_block d2 (nod (d_addrs di)) y <-> file_block d (nod (d_addrs di)) y) as Hold.
  { intros j di bs Hj. destruct (mv_file _ _ _ _ Hv _ _ _ Hj) as (_ & _ & _ & Hh). apply (holds_file_frame (used fb)); [done| |done].
    intros y Hy. apply Hhigh. apply (file_block_used _ _ _ _ _ Hh) in Hy. unfold used in Hy. lia. }
  split.
  - rewrite length_app. cbn. lia.
  - split; [lia|]. rewrite count_app. change (nb (Z.of_nat (length (dinode_new type, @nil Z).2))) with 0. lia.
  - intros y. unfold d2, put. case_decide; [|apply Hv]. rewrite length_splice; rewrite (mv_blocks _ _ _ _ Hv); lia.
  - intros y Hy. rewrite Hhigh by lia. by apply (mv_zero _ _ _ _ Hv).
  - intros j di bs [Hj|[Hj E]]%lookup_app_Some.
    + pose proof (lookup_lt_Some _ _ _ Hj). destruct (mv_file _ _ _ _ Hv _ _ _ Hj) as (F1 & F2 & F3 & _).
      rewrite Hat, decide_False by lia. do 3 (split; [done|]). by apply (Hold j).
    + apply list_lookup_singleton_Some in E as [E [= <- <-]]. rewrite Hat, decide_True by lia. do 2 (split; [done|]). split; [done|]. apply holds_empty.
  - intros j j' di bs di' bs' y [H1|[H1 E1]]%lookup_app_Some [H2|[H2 E3]]%lookup_app_Some F1 F2.
    + apply (Hold _ _ _ H1) in F1. apply (Hold _ _ _ H2) in F2. by eapply (mv_apart _ _ _ _ Hv).
    + apply list_lookup_singleton_Some in E3 as [_ [= <- _]]. by apply no_file_block in F2.
    + apply list_lookup_singleton_Some in E1 as [_ [= <- _]]. by apply no_file_block in F1.
    + apply list_lookup_singleton_Some in E1 as [_ [= <- _]]. by apply no_file_block in F1.
  - intros j Hj. rewrite Hat, decide_False by lia. apply (mv_free _ _ _ _ Hv). lia.
  - intros y Hy. rewrite Hhigh by lia. by apply (mv_meta _ _ _ _ Hv).
Qed.

(** All the pieces of a file. *)
Lemma iappend_all_spec j fi : forall pieces s d fb fs di bs,
  rep s d fi fb -> mk_inv d fi fb fs -> fs !! j = Some (di, bs) ->
  Z.of_nat (length bs) + Z.of_nat (length (concat pieces)) <= 140 * 512 ->
  fb + nb (Z.of_nat (length bs) + Z.of_nat (length (concat pieces))) - nb (Z.of_nat (length bs)) <= 1000 ->
  exists s' d' fb' di', for_all pieces (fun buf => iappend false room (Z.of_nat j + 1) buf) s = Done tt s' /\ rep s' d' fi fb' /\
    mk_inv d' fi fb' (<[j := (di', bs ++ concat pieces)]> fs) /\
    di' = set_d_addrs (d_addrs di') (set_d_size (Z.of_nat (length bs) + Z.of_nat (length (concat pieces))) di).
Proof.
  induction pieces as [|p pieces IH]; intros s d fb fs di bs Hr Hv Hj HL Hn.
  - exists s, d, fb, di. cbn. rewrite app_nil_r, Z.add_0_r, list_insert_id by done. do 3 (split; [done|]).
    destruct (mv_file _ _ _ _ Hv _ _ _ Hj) as (_ & _ & <- & _). by destruct di.
  - cbn [concat] in *. rewrite length_app, Nat2Z.inj_add in *.
    pose proof (nb_mono (Z.of_nat (length bs) + Z.of_nat (length p)) (Z.of_nat (length bs) + (Z.of_nat (length p) + Z.of_nat (length (concat pieces)))) ltac:(lia)).
    destruct (iappend_spec s d fi fb fs j di bs p Hr Hv Hj) as (s1 & d1 & fb1 & di1 & E1 & Hr1 & Hv1 & Ed1); [lia|lia|].
    rewrite for_all_cons, E1. cbn [res_bind]. pose proof (lookup_lt_Some _ _ _ Hj) as Hlt.
    assert (fb1 = fb + nb (Z.of_nat (length bs) + Z.of_nat (length p)) - nb (Z.of_nat (length bs))) as Efb.
    { destruct (mv_fb _ _ _ _ Hv) as [_ ->]. destruct (mv_fb _ _ _ _ Hv1) as [_ ->]. rewrite (count_insert _ _ _ _ Hj). cbn [snd].
      rewrite length_app, Nat2Z.inj_add. lia. }
    destruct (IH s1 d1 fb1 _ di1 (bs ++ p) Hr1 Hv1) as (s2 & d2 & fb2 & di2 & E2 & Hr2 & Hv2 & Ed2).
    + by rewrite list_lookup_insert_eq.
    + rewrite length_app. lia.
    + rewrite length_app, Nat2Z.inj_add, <-Z.add_assoc. lia.
    + exists s2, d2, fb2, di2. rewrite E2. do 2 (split; [done|]). rewrite list_insert_insert_eq, <-app_assoc in Hv2. split; [done|].
      rewrite Ed2, Ed1. rewrite length_app, Nat2Z.inj_add, <-Z.add_assoc. by destruct di.
Qed.

End Steps.

(** ** The command line *)

(** The name of a file on the disk. *)
Definition stripped (name : list Z) : list Z := match name with 95 :: name' => name' | _ => name end.

Definition dirent_of (inum : Z) (name : list Z) : dirent :=
  mkDirent inum (take (Z.to_nat DIRSIZ) (name ++ replicate (Z.to_nat DIRSIZ) 0)).

(** The root directory for the files of the command line. *)
Definition root_entries (names : list (list Z)) : list dirent :=
  dirent_of 1 (bytes_of ".") :: dirent_of 1 (bytes_of "..") :: imap (fun i name => dirent_of (Z.of_nat i + 2) (stripped name)) names.

Definition root_bytes (names : list (list Z)) : list Z := concat (dirent_bytes <$> root_entries names).

Lemma length_dirent inum name : length (dirent_bytes (dirent_of inum name)) = 16%nat.
Proof.
  unfold dirent_bytes. rewrite length_app, length_le_bytes. cbn [de_name dirent_of]. change (Z.to_nat DIRSIZ) with 14%nat.
  rewrite length_take, length_app, length_replicate. lia.
Qed.

Lemma length_root names : length (root_bytes names) = (16 * (2 + length names))%nat.
Proof.
  unfold root_bytes, root_entries. cbn [fmap list_fmap concat]. rewrite !length_app, !length_dirent.
  assert (forall f : nat -> Z, length (concat (dirent_bytes <$> imap (fun i name => dirent_of (f i) (stripped name)) names)) = (16 * length names)%nat) as ->; [|lia].
  induction names as [|n names IH]; intros f; [done|]. cbn [imap fmap list_fmap concat]. rewrite length_app, length_dirent.
  unfold compose. rewrite (IH (fun i => f (S i))). cbn. lia.
Qed.

Lemma root_bytes_snoc names name :
  root_bytes (names ++ [name]) = root_bytes names ++ dirent_bytes (dirent_of (Z.of_nat (length names) + 2) (stripped name)).
Proof.
  unfold root_bytes, root_entries. rewrite imap_app. cbn [imap fmap list_fmap concat]. rewrite !fmap_app, !concat_app, <-!app_assoc.
  do 2 f_equal. cbn. rewrite Nat.add_0_r, app_nil_r. done.
Qed.

Definition need (l : list (list Z)) : Z := foldr (fun bs acc => nb (Z.of_nat (length bs)) + acc) 0 l.

Lemma count_need fs : count fs = need (snd <$> fs).
Proof. unfold count, need. induction fs as [|x fs IH]; cbn [fmap list_fmap foldr]; [done|]. by rewrite IH. Qed.

Lemma nb_nonneg L : 0 <= L -> 0 <= nb L.
Proof. intros H. pose proof (nb_mono 0 L H). change (nb 0) with 0 in *. lia. Qed.

Lemma need_nonneg l : 0 <= need l.
Proof. unfold need. induction l as [|bs l IH]; cbn [foldr]; [done|]. pose proof (nb_nonneg (Z.of_nat (length bs)) ltac:(lia)). lia. Qed.

Lemma need_app l1 l2 : need (l1 ++ l2) = need l1 + need l2.
Proof. unfold need. induction l1 as [|bs l1 IH]; cbn [foldr app]; lia. Qed.

Lemma insert_snoc {A} (l : list A) x y : <[length l := x]> (l ++ [y]) = l ++ [x].
Proof. induction l as [|z l IH]; [done|]. cbn [length app]. change (<[S (length l) := x]> (z :: l ++ [y])) with (z :: <[length l := x]> (l ++ [y])). by rewrite IH. Qed.

(** The fields of an inode that do not depend on the contents. *)
Definition dinode_head (d : dinode) : Z * Z * Z * Z := (d_type d, d_major d, d_minor d, d_nlink d).

(** ** The disk the kernel sees *)

Lemma length_set_bits l bs : length (fold_left set_bit l bs) = length bs.
Proof. revert bs. induction l as [|x l IH]; intros bs; [done|]. cbn [fold_left]. rewrite IH. unfold set_bit. apply length_insert. Qed.

Lemma bits_set l bs b : Forall (fun x => 0 <= x < 4096) l -> length bs = 512%nat -> 0 <= b ->
  bit_clear (fold_left set_bit l bs) b = bit_clear bs b && bool_decide (b ∉ l).
Proof.
  revert bs. induction l as [|x l IH]; intros bs Hl Hb Hn; cbn [fold_left].
  - rewrite bool_decide_eq_true_2 by set_solver. by rewrite andb_true_r.
  - apply list.Forall_cons in Hl as [Hx Hl]. assert (Z.to_nat (x / 8) < length bs)%nat as Hi.
    { rewrite Hb. pose proof (Z.div_lt_upper_bound x 8 512). pose proof (Z.div_pos x 8). lia. }
    rewrite IH by (done || unfold set_bit; by rewrite length_insert). rewrite bit_clear_set by (done || lia). rewrite <-andb_assoc. f_equal.
    rewrite <-bool_decide_and. apply bool_decide_ext. set_solver.
Qed.

Definition bitmap (fb : Z) : list Z := fold_left set_bit (zseq (Z.to_nat fb)) (replicate 512 0).

Lemma bitmap_clear fb b : 0 <= fb < 4096 -> 0 <= b < 4096 -> bit_clear (bitmap fb) b = true <-> fb <= b.
Proof.
  intros Hf Hb. unfold bitmap. rewrite bits_set; [|apply list.Forall_forall; intros x Hx; apply elem_of_zseq in Hx; lia|done|lia].
  assert (bit_clear (replicate 512 0) b = true) as ->.
  { rewrite bit_clear_testbit by lia. unfold bit_byte. rewrite lookup_total_replicate_2; [by rewrite Z.testbit_0_l|].
    pose proof (Z.div_lt_upper_bound b 8 512). pose proof (Z.div_pos b 8). lia. }
  cbn [andb]. rewrite bool_decide_eq_true, elem_of_zseq. lia.
Qed.

(** Inode [j] as the kernel loads it. *)
Definition loaded (d : Z -> list Z) (j : Z) (ip : inode) : Prop :=
  i_dev ip = 1 /\ i_inum ip = j /\ inode_on_disk sb_mkfs d j = to_dinode ip.

Definition inode_of (j : Z) (di : dinode) : inode := of_dinode di (mkInode 1 j 1 1 0 0 0 0 0 []).

Lemma inode_of_loaded d j di : inode_at d j = dinode_bytes di -> fits di -> loaded d j (inode_of j di).
Proof.
  intros E Hf. split; [done|]. split; [done|]. unfold inode_on_disk. rewrite get_dinode_slice. unfold inode_at in E. rewrite E.
  destruct (get_dinode_bytes di Hf) as [-> _]. by destruct di.
Qed.

Section Seen.
Context (d : Z -> list Z) (fb : Z).
Hypothesis Huse : forall a, in_use sb_mkfs d a <-> used fb a.

Lemma seen_ok j di bs : holds_file (used fb) d (d_addrs di) bs -> 0 <= j < 200 -> 0 <= d_size di <= 140 * 512 -> inode_ok sb_mkfs d (inode_of j di).
Proof.
  intros [H1 H2 _ _ _] Hj Hs. split; [done|apply H1|done|]. eapply map_ok_ext; [|done|done|exact H2]. intros y. by rewrite Huse.
Qed.

Lemma seen_bytes j di bs n : holds_file (used fb) d (d_addrs di) bs -> d_size di = Z.of_nat (length bs + n) -> d_size di <= 140 * 512 ->
  (Z.of_nat (length bs) `mod` 512 + Z.of_nat n <= 512) -> (d 0 = block0) ->
  file_bytes d (inode_of j di) = bs ++ replicate n 0.
Proof.
  intros [[_ HL] _ H3 _ H5] Es Hs Hn H0. apply list_eq. intros i. rewrite file_bytes_lookup. change (i_size (inode_of j di)) with (d_size di). rewrite Es, Nat2Z.id.
  change (fbyte d (inode_of j di) (Z.of_nat i)) with (fbyte d (nod (d_addrs di)) (Z.of_nat i)).
  case_decide as Hi; [|rewrite lookup_ge_None_2; [done|rewrite length_app, length_replicate; lia]].
  assert ((bs ++ replicate n 0) !! i = Some (default 0 (bs !! i))) as ->.
  { destruct (decide (i < length bs)%nat) as [Hl|Hl].
    - rewrite lookup_app_l by done. destruct (lookup_lt_is_Some_2 bs i Hl) as [x ->]. done.
    - rewrite lookup_app_r by lia. rewrite lookup_replicate_2 by lia. by rewrite lookup_ge_None_2 by lia. }
  f_equal. destruct (decide (Z.of_nat i / 512 * 512 < Z.of_nat (length bs))) as [Hlt|Hge].
  - rewrite H5 by lia. by rewrite Nat2Z.id.
  - unfold fbyte. pose proof (Z.div_mod (Z.of_nat i) 512 ltac:(lia)). pose proof (Z.mod_pos_bound (Z.of_nat i) 512 ltac:(lia)).
    destruct (decide (baddr d (nod (d_addrs di)) (Z.of_nat i / 512) = 0)) as [->|Hne].
    + rewrite H0, (lookup_ge_None_2 bs) by lia. unfold block0. change (Z.to_nat BSIZE) with 512%nat. by rewrite lookup_replicate_2 by lia.
    + apply H3 in Hne; [lia|]. apply block_index. lia.
Qed.

(** The last block of the root directory is there when its entries begin it. *)
Lemma seen_complete j di bs : holds_file (used fb) d (d_addrs di) bs -> d_size di <= 140 * 512 ->
  complete d (inode_of j di) <-> forall n, 0 <= n -> n * 512 < d_size di -> n * 512 < Z.of_nat (length bs).
Proof.
  intros [_ _ H3 _ _] Hs. split; intros H n Hn Hlt.
  - apply H3; [lia|]. by apply H.
  - apply H3; [change (n * 512 < d_size di) in Hlt; lia|]. by apply H.
Qed.

End Seen.

Section Main.
Context (room : Z) (creates : list Z -> bool) (contents : list Z -> option (list (list Z))).
Hypothesis Hroom : 1000 <= room.

Definition file_of (name : list Z) : list Z := concat (default [] (contents name)).

(** The files are the root directory and those of the command line. *)
Record files_are (fs : list (dinode * list Z)) (names : list (list Z)) : Prop := {
  fa_bytes : snd <$> fs = root_bytes names :: (file_of <$> names);
  fa_head : dinode_head ∘ fst <$> fs = (1, 0, 0, 1) :: ((fun _ => (2, 0, 0, 1)) <$> names)
}.

(** What is asked of a file: no slash in its name, and not too long. *)
Definition good_file (name : list Z) : Prop :=
  existsb (fun ch => ch =? 47) name = false /\ is_Some (contents name) /\ Z.of_nat (length (file_of name)) <= 140 * 512.

Lemma files_are_length fs names : files_are fs names -> length fs = S (length names).
Proof. intros [H _]. apply (f_equal length) in H. rewrite length_fmap in H. cbn in H. by rewrite length_fmap in H. Qed.

Lemma dirent_mem_little inum name : 0 <= inum < 2 ^ 16 -> dirent_mem false inum name = dirent_bytes (dirent_of inum name).
Proof. intros H. unfold dirent_mem, dirent_bytes, host_bytes. rewrite xshort_little. unfold u16. by rewrite Z.mod_small. Qed.

Lemma add_file_spec s d fi fb fs names name :
  rep s d fi fb -> mk_inv d fi fb fs -> files_are fs names -> good_file name -> fi < 200 ->
  59 + need (root_bytes (names ++ [name]) :: (file_of <$> names ++ [name])) <= 1000 ->
  exists s' d' fb' fs', add_file false room contents 1 name s = Done tt s' /\ rep s' d' (fi + 1) fb' /\ mk_inv d' (fi + 1) fb' fs' /\
    files_are fs' (names ++ [name]).
Proof.
  intros Hr Hv Hfa (Hsl & [pieces Hpc] & Hlen) Hfi Hneed. pose proof (files_are_length _ _ Hfa) as Hlf. destruct Hfa as [Hb Hh].
  destruct (mv_fi _ _ _ _ Hv) as [Efi _]. destruct (mv_fb _ _ _ _ Hv) as [_ Efb]. rewrite count_need, Hb in Efb.
  assert (file_of name = concat pieces) as Ef by (unfold file_of; by rewrite Hpc). rewrite Ef in Hlen.
  cbn [need foldr] in Hneed, Efb. fold (need (file_of <$> names)) in Efb. fold (need (file_of <$> names ++ [name])) in Hneed.
  rewrite fmap_app, need_app in Hneed. cbn [fmap list_fmap need foldr] in Hneed. rewrite Ef, !length_root, length_app in *. cbn [length] in Hneed.
  unfold add_file. rewrite Hsl, Hpc. change (match name with 95 :: name' => name' | _ => name end) with (stripped name).
  destruct (ialloc_spec room Hroom s d fi fb fs T_FILE Hr Hv ltac:(by right) Hfi) as (s1 & d1 & E1 & Hr1 & Hv1). rewrite bind_eq, E1. cbn [res_bind].
  destruct fs as [|[dr rb] fs]; [done|]. cbn [fmap list_fmap snd] in Hb. injection Hb as -> Hb. cbn [length] in Hlf. injection Hlf as Hlf.
  rewrite dirent_mem_little by lia. cbn [length] in Efi. 
  assert (fi = Z.of_nat (length names) + 2) as -> by lia. set (de := dirent_bytes (dirent_of (Z.of_nat (length names) + 2) (stripped name))).
  assert (length de = 16%nat) as Hde by apply length_dirent. pose proof (nb_nonneg (Z.of_nat (length (concat pieces))) ltac:(lia)).
  replace (Z.of_nat (16 * (2 + (length names + 1)))) with (Z.of_nat (16 * (2 + length names)) + 16) in Hneed by lia.
  rewrite bind_eq. change 1 with (Z.of_nat 0 + 1) at 1.
  destruct (iappend_spec room Hroom s1 d1 _ fb _ 0%nat dr (root_bytes names) de Hr1 Hv1 eq_refl) as (s2 & d2 & fb2 & dr2 & E2 & Hr2 & Hv2 & Ed2);
    rewrite ?length_root, ?Hde; change (Z.of_nat 16) with 16; [lia|lia|].
  rewrite E2. cbn [res_bind]. change (<[0%nat := ?x]> (((dr, root_bytes names) :: fs) ++ ?l)) with (x :: (fs ++ l)) in Hv2.
  assert (fb2 = 59 + (nb (Z.of_nat (16 * (2 + length names)) + 16) + need (file_of <$> names))) as Efb2.
  { destruct (mv_fb _ _ _ _ Hv2) as [_ ->]. rewrite count_need. cbn [fmap list_fmap snd]. rewrite fmap_app, Hb.
    cbn [need foldr]. fold (need ((file_of <$> names) ++ (snd <$> [(dinode_new T_FILE, @nil Z)]))). rewrite need_app. cbn [fmap list_fmap snd need foldr length].
    rewrite length_app, length_root, Hde. change (nb (Z.of_nat 0)) with 0. replace (Z.of_nat (16 * (2 + length names) + 16)) with (Z.of_nat (16 * (2 + length names)) + 16) by lia. lia. }
  assert (((dr2, root_bytes names ++ de) :: fs ++ [(dinode_new T_FILE, [])]) !! (S (length fs)) = Some (dinode_new T_FILE, @nil Z)) as Hnew.
  { rewrite lookup_cons_ne_0 by done. cbn [Nat.pred]. by rewrite lookup_app_r, Nat.sub_diag by lia. }
  replace (Z.of_nat (length names) + 2) with (Z.of_nat (S (length fs)) + 1) by lia.
  replace (Z.of_nat (length names) + 2 + 1) with (Z.of_nat (length names) + 2 + 1) in Hr2 by lia.
  destruct (iappend_all_spec room Hroom (S (length fs)) _ pieces s2 d2 fb2 _ (dinode_new T_FILE) [] Hr2 Hv2 Hnew) as (s3 & d3 & fb3 & df & E3 & Hr3 & Hv3 & Ed3).
  - cbn [length]. lia.
  - cbn [length]. change (nb (Z.of_nat 0)) with 0. rewrite Z.add_0_l. lia.
  - change (<[S (length fs) := ?x]> (?y :: ?l)) with (y :: <[length fs := x]> l) in Hv3. rewrite insert_snoc in Hv3. cbn [app] in Hv3.
    eexists s3, d3, fb3, _. rewrite E3. split; [done|]. replace (Z.of_nat (S (length fs)) + 1 + 1) with (Z.of_nat (length names) + 2 + 1) by lia.
    split; [done|]. split; [exact Hv3|]. 
    assert (dinode_head dr = (1, 0, 0, 1)) as Hh1 by exact (f_equal (fun l => default (0, 0, 0, 0) (l !! 0%nat)) Hh).
    assert (dinode_head ∘ fst <$> fs = (fun _ => (2, 0, 0, 1)) <$> names) as Hh2 by exact (f_equal tail Hh). split.
    + cbn [fmap list_fmap snd]. rewrite !fmap_app, Hb, root_bytes_snoc. cbn [fmap list_fmap snd]. by rewrite Ef.
    + cbn [fmap list_fmap]. rewrite !fmap_app. cbn [fmap list_fmap compose fst]. rewrite Hh2. f_equal.
      * rewrite Ed2. by destruct dr.
      * by rewrite Ed3.
Qed.

Lemma need_prefix names rest :
  need (root_bytes names :: (file_of <$> names)) <= need (root_bytes (names ++ rest) :: (file_of <$> names ++ rest)).
Proof.
  cbn [need foldr]. fold (need (file_of <$> names)). fold (need (file_of <$> names ++ rest)). rewrite fmap_app, need_app, !length_root, length_app.
  pose proof (need_nonneg (file_of <$> rest)). pose proof (nb_mono (Z.of_nat (16 * (2 + length names))) (Z.of_nat (16 * (2 + (length names + length rest)))) ltac:(lia)). lia.
Qed.

Lemma add_files_spec : forall rest s d fi fb fs names,
  rep s d fi fb -> mk_inv d fi fb fs -> files_are fs names -> Forall good_file rest -> (2 + length (names ++ rest) <= 200)%nat ->
  59 + need (root_bytes (names ++ rest) :: (file_of <$> names ++ rest)) <= 1000 ->
  exists s' d' fi' fb' fs', for_all rest (add_file false room contents 1) s = Done tt s' /\ rep s' d' fi' fb' /\ mk_inv d' fi' fb' fs' /\
    files_are fs' (names ++ rest).
Proof.
  induction rest as [|name rest IH]; intros s d fi fb fs names Hr Hv Hfa Hg Hn Hneed.
  - rewrite app_nil_r in *. by exists s, d, fi, fb, fs.
  - apply list.Forall_cons in Hg as [Hg Hgs]. replace (names ++ name :: rest) with ((names ++ [name]) ++ rest) in * by (by rewrite <-app_assoc).
    pose proof (files_are_length _ _ Hfa). destruct (mv_fi _ _ _ _ Hv) as [Efi _]. pose proof (need_prefix (names ++ [name]) rest).
    rewrite !length_app in Hn. cbn [length] in Hn.
    destruct (add_file_spec s d fi fb fs names name Hr Hv Hfa Hg ltac:(lia) ltac:(lia)) as (s1 & d1 & fb1 & fs1 & E1 & Hr1 & Hv1 & Hfa1).
    rewrite for_all_cons, E1. cbn [res_bind]. apply (IH s1 d1 (fi + 1) fb1 fs1); try done. rewrite !length_app. cbn [length]. lia.
Qed.

(** ** The beginning *)

Lemma wipe : forall m k fi fb, (k + m <= 1000)%nat ->
  for_all (Z.of_nat <$> seq k m) (fun i => wsect room i block0) (mkImage (replicate k block0) fi fb) = Done tt (mkImage (replicate (k + m) block0) fi fb).
Proof.
  induction m as [|m IH]; intros k fi fb Hk; [by rewrite Nat.add_0_r|]. cbn [seq fmap list_fmap]. rewrite for_all_cons. unfold wsect at 1. kred.
  rewrite sector_small, Nat2Z.id by lia. rewrite Z.geb_leb, (proj2 (Z.leb_gt room (Z.of_nat k))) by lia. unfold modify. cbn [res_bind set_img img freeinode freeblock].
  rewrite length_replicate. replace (S k - k)%nat with 1%nat by lia. change (replicate 1 block0) with [block0].
  pose proof (insert_snoc (replicate k block0) block0 block0) as E. rewrite length_replicate in E. rewrite E, <-replicate_cons_app.
  change (block0 :: replicate k block0) with (replicate (S k) block0).
  unfold set_img. cbn [img freeinode freeblock]. rewrite IH by lia. do 3 f_equal. lia.
Qed.

Lemma replicate_default n i : default block0 (replicate n block0 !! i) = block0.
Proof. destruct (replicate n block0 !! i) as [b|] eqn:E; [|done]. by apply lookup_replicate in E as [-> _]. Qed.

Lemma wiped_rep fi fb : rep (mkImage (replicate 1000 block0) fi fb) (fun _ => block0) fi fb.
Proof. split; [apply length_replicate| |done|done]. intros y. unfold dk. cbn [img]. destruct (y <? 0); [done|apply replicate_default]. Qed.

Definition disk_start : Z -> list Z := put (fun _ => block0) 1 (splice block0 0 (sb_mem false)).

Lemma mk_inv_start : mk_inv disk_start 1 59 [].
Proof.
  assert (forall y, y <> 1 -> disk_start y = block0) as Hz by (intros y Hy; unfold disk_start, put; by rewrite decide_False).
  split; try done.
  - intros y. unfold disk_start, put. case_decide; [by vm_compute|done].
  - intros y Hy. apply Hz. lia.
  - intros j Hj. destruct (mkfs_inode_block j ltac:(lia)) as (_ & Hb & Ho). unfold inode_at. rewrite Hz by lia. unfold slice, block0.
    change (Z.to_nat BSIZE) with 512%nat. rewrite drop_replicate, take_replicate. f_equal. lia.
Qed.

(** ** The end *)

(** What the kernel finds on the disk. *)
Record well_built (d : Z -> list Z) (names : list (list Z)) : Prop := {
  wb_super : get_superblock (d 1) = sb_mkfs;
  wb_log : forall y, 2 <= y < 32 -> d y = block0;
  wb_disk : disk_ok sb_mkfs d;
  wb_bitmap : forall b, 0 <= b < 1000 -> free_in sb_mkfs d b <-> 59 + need (root_bytes names :: (file_of <$> names)) <= b;
  wb_root : exists ip, loaded d 1 ip /\ i_type ip = T_DIR /\ i_nlink ip = 1 /\ inode_ok sb_mkfs d ip /\
    file_bytes d ip = root_bytes names ++ replicate (512 - length (root_bytes names) `mod` 512) 0 /\
    (complete d ip <-> (length (root_bytes names) `mod` 512 <> 0)%nat);
  wb_files : forall j name, names !! j = Some name -> exists ip, loaded d (Z.of_nat j + 2) ip /\ i_type ip = T_FILE /\ i_nlink ip = 1 /\
    inode_ok sb_mkfs d ip /\ complete d ip /\ file_bytes d ip = file_of name;
  wb_apart : forall j j' ip ip' y, 1 <= j < 2 + Z.of_nat (length names) -> 1 <= j' < 2 + Z.of_nat (length names) ->
    loaded d j ip -> loaded d j' ip' -> file_block d ip y -> file_block d ip' y -> j = j';
  wb_free : forall j, 2 + Z.of_nat (length names) <= j < 200 -> d_type (inode_on_disk sb_mkfs d j) = 0
}.

Section Finish.
Context (d : Z -> list Z) (fi fb : Z) (fs : list (dinode * list Z)) (names : list (list Z)) (dr : dinode).
Hypotheses (Hv : mk_inv d fi fb fs) (Hfa : files_are fs names) (Hr : fs !! 0%nat = Some (dr, root_bytes names)).

Definition root_size : Z := (Z.of_nat (length (root_bytes names)) / 512 + 1) * 512.

Definition root_after : dinode := set_d_size root_size dr.

Definition disk_final : Z -> list Z :=
  put (put d (IBLOCK 1 sb_mkfs) (splice (d (IBLOCK 1 sb_mkfs)) (dinode_off 1) (dinode_bytes root_after))) 58 (bitmap fb).

Lemma final_root : root_size = Z.of_nat (length (root_bytes names) + (512 - length (root_bytes names) `mod` 512)) /\ 0 < root_size <= 140 * 512 /\ fits root_after.
Proof.
  unfold root_size. pose proof (files_are_length _ _ Hfa) as Hl. destruct (mv_fi _ _ _ _ Hv) as [Efi Hfi]. pose proof (length_root names) as Hlr.
  set (L := length (root_bytes names)) in *. pose proof (Nat.div_mod L 512 ltac:(lia)). pose proof (Nat.mod_upper_bound L 512 ltac:(lia)).
  pose proof (Nat2Z.inj_div L 512) as Ed. change (Z.of_nat 512) with 512 in Ed. rewrite <-Ed.
  assert (0 < (Z.of_nat (L / 512) + 1) * 512 <= 140 * 512) as Hs by lia. split; [lia|]. split; [done|].
  apply fits_size; [by apply (mv_file _ _ _ _ Hv 0%nat dr (root_bytes names))|]. unfold root_size. fold L. rewrite <-Ed. lia.
Qed.

Lemma final_same y : y < 32 \/ y = 57 \/ 59 <= y -> disk_final y = d y.
Proof.
  intros Hy. destruct (mkfs_inode_block 1 ltac:(lia)) as (_ & Hb & _). unfold disk_final, put. rewrite !decide_False by lia. done.
Qed.

Lemma final_inode j : 0 <= j < 200 -> inode_at disk_final j = if decide (j = 1) then dinode_bytes root_after else inode_at d j.
Proof.
  intros Hj. destruct final_root as (_ & _ & Hf). rewrite <-inode_at_put; [|apply Hv|lia|done|by apply dinode_bytes_length].
  apply inode_at_other; [done|]. intros y Hy. unfold disk_final. unfold put at 1. by rewrite decide_False by lia.
Qed.

Lemma final_blocks y : length (disk_final y) = 512%nat.
Proof.
  destruct final_root as (_ & _ & Hf). destruct (mkfs_inode_block 1 ltac:(lia)) as (_ & _ & Ho). unfold disk_final, put.
  case_decide; [unfold bitmap; by rewrite length_set_bits|]. case_decide; [|apply Hv]. rewrite length_splice; rewrite (mv_blocks _ _ _ _ Hv), ?dinode_bytes_length by done; lia.
Qed.

Lemma final_free b : 0 <= b < 1000 -> free_in sb_mkfs disk_final b <-> fb <= b.
Proof.
  intros Hb. destruct (mv_fb _ _ _ _ Hv) as [Hfb _]. unfold free_in, BBLOCK. change BPB with 4096. cbn [sb_bmapstart sb_mkfs].
  rewrite (Z.div_small b), Z.mod_small, u32_small by lia. unfold disk_final, put. rewrite decide_True by done. apply bitmap_clear; lia.
Qed.

Lemma final_use a : in_use sb_mkfs disk_final a <-> used fb a.
Proof.
  unfold in_use, used. change (data_start sb_mkfs) with 59. cbn [sb_size sb_mkfs]. destruct (mv_fb _ _ _ _ Hv) as [Hfb _].
  split; intros [H1 H2]; [rewrite final_free in H2 by lia; lia|]. split; [lia|]. rewrite final_free by lia. lia.
Qed.

(** Every file is as it was. *)
Lemma final_file j di bs : fs !! j = Some (di, bs) ->
  holds_file (used fb) disk_final (d_addrs di) bs /\ forall y, file_block disk_final (nod (d_addrs di)) y <-> file_block d (nod (d_addrs di)) y.
Proof.
  intros Hj. destruct (mv_file _ _ _ _ Hv _ _ _ Hj) as (_ & _ & _ & Hh). apply (holds_file_frame (used fb)); [done| |done].
  intros y Hy. apply final_same. apply (file_block_used _ _ _ _ _ Hh) in Hy. unfold used in Hy. lia.
Qed.

Lemma files_at j name : names !! j = Some name -> exists di, fs !! S j = Some (di, file_of name) /\ dinode_head di = (2, 0, 0, 1).
Proof.
  intros Hj. destruct Hfa as [Hb Hh].
  assert ((snd <$> fs) !! S j = Some (file_of name)) as Eb by (rewrite Hb, lookup_cons_ne_0 by done; cbn [Nat.pred]; by rewrite list_lookup_fmap, Hj).
  assert ((dinode_head ∘ fst <$> fs) !! S j = Some (2, 0, 0, 1)) as Eh by (rewrite Hh, lookup_cons_ne_0 by done; cbn [Nat.pred]; by rewrite list_lookup_fmap, Hj).
  rewrite list_lookup_fmap in Eb. rewrite list_lookup_fmap in Eh. destruct (fs !! S j) as [[di bs]|]; [|done]. cbn in Eb. injection Eb as ->. exists di. split; [done|].
  exact (f_equal (default (0, 0, 0, 0)) Eh).
Qed.

Lemma root_head : dinode_head dr = (1, 0, 0, 1).
Proof. destruct Hfa as [_ Hh]. apply (f_equal (fun l => default (0, 0, 0, 0) (l !! 0%nat))) in Hh. rewrite list_lookup_fmap, Hr in Hh. exact Hh. Qed.

Lemma final_dinode j : 0 <= j < 200 -> inode_on_disk sb_mkfs disk_final j = get_dinode (inode_at disk_final j) 0.
Proof. intros Hj. unfold inode_on_disk. by rewrite get_dinode_slice. Qed.

Lemma final_loaded j ip : 1 <= j < 2 + Z.of_nat (length names) -> loaded disk_final j ip ->
  exists di bs, fs !! Z.to_nat (j - 1) = Some (di, bs) /\ i_addrs ip = d_addrs di.
Proof.
  intros Hj (_ & _ & E). pose proof (files_are_length _ _ Hfa) as Hl. destruct (mv_fi _ _ _ _ Hv) as [Efi Hfi].
  destruct (lookup_lt_is_Some_2 fs (Z.to_nat (j - 1))) as [[di bs] Hd]; [lia|]. exists di, bs. split; [done|].
  destruct (mv_file _ _ _ _ Hv _ _ _ Hd) as (F1 & F2 & _). replace (Z.of_nat (Z.to_nat (j - 1)) + 1) with j in F1 by lia.
  rewrite final_dinode, final_inode in E by lia. apply (f_equal d_addrs) in E. cbn [to_dinode d_addrs] in E. rewrite <-E. case_decide as Ej.
  - destruct final_root as (_ & _ & Hf). destruct (get_dinode_bytes _ Hf) as [-> _]. subst j. change (Z.to_nat (1 - 1)) with 0%nat in Hd. rewrite Hr in Hd. by injection Hd as <- _.
  - rewrite F1. by destruct (get_dinode_bytes _ F2) as [-> _].
Qed.

Lemma final_built : well_built disk_final names.
Proof.
  pose proof (files_are_length _ _ Hfa) as Hl. destruct (mv_fi _ _ _ _ Hv) as [Efi Hfi]. destruct (mv_fb _ _ _ _ Hv) as [Hfb Efb].
  rewrite count_need, (fa_bytes _ _ Hfa) in Efb. destruct final_root as (Ers & Hrs & Hrf). split.
  - rewrite final_same, (mv_meta _ _ _ _ Hv) by lia. by vm_compute.
  - intros y Hy. rewrite final_same, (mv_meta _ _ _ _ Hv) by lia. by rewrite decide_False by lia.
  - split; [exact final_blocks|]. intros b Hb. change (data_start sb_mkfs) with 59. intros Hf. apply final_free in Hf; [lia|exact Hb].
  - intros b Hb. rewrite final_free by done. by rewrite Efb.
  - destruct (final_file _ _ _ Hr) as [Hh _]. exists (inode_of 1 root_after). pose proof root_head as Hhd. injection Hhd as T1 T2 T3 T4.
    split; [apply inode_of_loaded; [by rewrite final_inode, decide_True by lia|done]|]. split; [exact T1|]. split; [exact T4|].
    split; [eapply (seen_ok _ fb); [exact final_use|exact Hh|lia|cbn; lia]|]. split.
    + eapply (seen_bytes _ fb); [exact Hh|exact Ers|cbn; lia| |].
      * pose proof (Nat.mod_upper_bound (length (root_bytes names)) 512 ltac:(lia)). pose proof (Nat2Z.inj_mod (length (root_bytes names)) 512). lia.
      * rewrite final_same, (mv_meta _ _ _ _ Hv) by lia. done.
    + rewrite (seen_complete _ fb 1 root_after (root_bytes names) Hh) by (cbn; lia). change (d_size root_after) with root_size. rewrite Ers.
      set (L := length (root_bytes names)). pose proof (Nat.div_mod L 512 ltac:(lia)). pose proof (Nat.mod_upper_bound L 512 ltac:(lia)). split.
      * intros Hall E. specialize (Hall (Z.of_nat (L / 512))). lia.
      * intros Hne n Hn Hlt. lia.
  - intros j name Hj. destruct (files_at j name Hj) as (di & Hd & Hhd). destruct (mv_file _ _ _ _ Hv _ _ _ Hd) as (F1 & F2 & F3 & _).
    destruct (final_file _ _ _ Hd) as [Hh _]. pose proof (hf_len _ _ _ _ Hh) as [_ HL]. pose proof (lookup_lt_Some _ _ _ Hd). injection Hhd as T1 T2 T3 T4.
    replace (Z.of_nat (S j) + 1) with (Z.of_nat j + 2) in F1 by lia. exists (inode_of (Z.of_nat j + 2) di).
    split; [apply inode_of_loaded; [by rewrite final_inode, decide_False by lia|done]|]. split; [exact T1|]. split; [exact T4|].
    split; [eapply (seen_ok _ fb); [exact final_use|exact Hh|lia|lia]|]. split.
    + apply (seen_complete _ fb _ _ (file_of name)); [done|lia|]. rewrite F3. auto.
    + rewrite <-(app_nil_r (file_of name)). change [] with (replicate 0 0). eapply (seen_bytes _ fb); [exact Hh|rewrite F3; f_equal; lia|lia| |].
      * pose proof (Z.mod_pos_bound (Z.of_nat (length (file_of name))) 512). lia.
      * rewrite final_same, (mv_meta _ _ _ _ Hv) by lia. done.
  - intros j j' ip ip' y Hj Hj' Hld Hld' Hy Hy'. destruct (final_loaded j ip Hj Hld) as (di & bs & Hd & Ea). destruct (final_loaded j' ip' Hj' Hld') as (di' & bs' & Hd' & Ea').
    assert (Z.to_nat (j - 1) = Z.to_nat (j' - 1)) as E; [|lia]. eapply (mv_apart _ _ _ _ Hv _ _ _ _ _ _ y Hd Hd').
    + apply (final_file _ _ _ Hd). rewrite <-Ea. exact Hy.
    + apply (final_file _ _ _ Hd'). rewrite <-Ea'. exact Hy'.
  - intros j Hj. rewrite final_dinode, final_inode, decide_False by lia. rewrite (mv_free _ _ _ _ Hv) by lia. by vm_compute.
Qed.

End Finish.

(** The root directory with its first two entries. *)
Lemma root_spec s d fb : rep s d 1 fb -> mk_inv d 1 fb [] -> fb = 59 ->
  exists s1 s2 s' d' fi' fb' fs', ialloc false room T_DIR s = Done 1 s1 /\
    iappend false room 1 (dirent_mem false 1 (bytes_of ".")) s1 = Done tt s2 /\
    iappend false room 1 (dirent_mem false 1 (bytes_of "..")) s2 = Done tt s' /\
    rep s' d' fi' fb' /\ mk_inv d' fi' fb' fs' /\ files_are fs' [].
Proof.
  intros Hr Hv ->. destruct (ialloc_spec room Hroom s d 1 59 [] T_DIR Hr Hv ltac:(by left) ltac:(lia)) as (s1 & d1 & E1 & Hr1 & Hv1).
  rewrite !dirent_mem_little by lia. cbn [app] in Hv1.
  set (de1 := dirent_bytes _). set (de2 := dirent_bytes _).
  destruct (iappend_spec room Hroom s1 d1 _ 59 _ 0%nat _ [] de1 Hr1 Hv1 eq_refl) as (s2 & d2 & fb2 & dr2 & E2 & Hr2 & Hv2 & Ed2); [by vm_compute|by vm_compute|].
  cbn [app insert list_insert] in Hv2.
  assert (fb2 = 60) as -> by (destruct (mv_fb _ _ _ _ Hv2) as [_ ->]; by vm_compute).
  destruct (iappend_spec room Hroom s2 d2 _ 60 _ 0%nat dr2 de1 de2 Hr2 Hv2 eq_refl) as (s3 & d3 & fb3 & dr3 & E3 & Hr3 & Hv3 & Ed3); [by vm_compute|by vm_compute|].
  eexists s1, s2, s3, d3, _, fb3, _. split; [exact E1|]. split; [exact E2|]. split; [exact E3|]. split; [exact Hr3|]. split; [exact Hv3|]. split; [by vm_compute|].
  cbn [insert list_insert fmap list_fmap compose fst]. f_equal. rewrite Ed3, Ed2. done.
Qed.

(** C12. The disk that mkfs makes.  On a little-endian host with room for the
    image, and for files that fit, mkfs ends and its image is a disk on which the
    kernel finds the super block, an empty log, a bitmap in which exactly the
    blocks behind the last file are free, every file of the command line in the
    inode after its place with its bytes, the root directory with a name for
    each of them, no block in two files and all other inodes free.  The last
    block of the root directory is missing when the entries fill the others
    exactly. *)
Theorem mkfs_builds prog fsimg names
    (Hc : creates fsimg = true) (Hg : Forall good_file names) (Hn : (length names <= 198)%nat)
    (Hneed : 59 + need (root_bytes names :: (file_of <$> names)) <= 1000) :
  exists s', main false room creates contents (prog :: fsimg :: names) image0 = Done tt s' /\ length (img s') = 1000%nat /\
    exists d, (forall y, dk s' y = d y) /\ well_built d names.
Proof.
  unfold main. rewrite Hc. cbn [negb]. kred. change (set_freeblock nmeta image0) with (mkImage (replicate 0 block0) 1 59).
  change (zseq (Z.to_nat FSSIZE)) with (Z.of_nat <$> seq 0 1000). rewrite wipe by lia. change (0 + 1000)%nat with 1000%nat. cbn [res_bind].
  destruct (wsect_spec room Hroom _ _ 1 59 1 (splice block0 0 (sb_mem false)) (wiped_rep 1 59) ltac:(lia)) as (s1 & E1 & Hr1).
  rewrite bind_eq, E1. cbn [res_bind].
  destruct (root_spec s1 disk_start 59 Hr1 mk_inv_start eq_refl) as (s2 & s3 & s4 & d4 & fi4 & fb4 & fs4 & E2 & E3 & E4 & Hr4 & Hv4 & Hfa4).
  rewrite bind_eq, E2. cbn [res_bind]. change (negb (1 =? ROOTINO)) with false. cbv iota. rewrite bind_eq, E3. cbn [res_bind]. rewrite bind_eq, E4. cbn [res_bind].
  destruct (add_files_spec names s4 d4 fi4 fb4 fs4 [] Hr4 Hv4 Hfa4 Hg ltac:(cbn; lia) Hneed) as (s5 & d5 & fi5 & fb5 & fs5 & E5 & Hr5 & Hv5 & Hfa5).
  rewrite bind_eq, E5. cbn [res_bind]. cbn [app] in Hfa5.
  assert (exists dr, fs5 !! 0%nat = Some (dr, root_bytes names)) as [dr Hdr].
  { destruct Hfa5 as [Hb _]. destruct fs5 as [|[dr bs] fs5]; [done|]. cbn in Hb. injection Hb as -> _. by exists dr. }
  destruct (mv_file _ _ _ _ Hv5 _ _ _ Hdr) as (F1 & F2 & F3 & F4). destruct (final_root d5 fi5 fb5 fs5 names dr Hv5 Hfa5 Hdr) as (Ers & Hrs & Hrf).
  rewrite bind_eq, (rinode_spec s5 d5 fi5 fb5) by (done || lia). cbn [res_bind]. change (Z.of_nat 0 + 1) with 1 in F1. rewrite F1, din_size_bytes, F3 by done.
  destruct (hf_len _ _ _ _ F4) as [_ HL]. rewrite (xint_little (Z.of_nat _)), u32_small by lia. change BSIZE with 512. fold (root_size names).
  cbv zeta. rewrite xint_little, u32_small, set_din_size_bytes by lia.
  destruct (winode_spec room Hroom s5 d5 fi5 fb5 1 (dinode_bytes (root_after names dr)) Hr5 ltac:(lia)) as (s6 & E6 & Hr6).
  rewrite bind_eq. unfold root_after in E6 at 1. rewrite E6. cbn [res_bind]. kred. rewrite (rp_fb _ _ _ _ Hr6).
  destruct (mv_fb _ _ _ _ Hv5) as [Hfb5 _]. unfold balloc. change (BSIZE * 8) with 4096. rewrite (proj2 (Z.ltb_lt fb5 4096)) by lia. cbn [negb].
  rewrite mkfs_sb_little. cbn [sb_bmapstart]. change (replicate (Z.to_nat BSIZE) 0) with (replicate 512 0). fold (bitmap fb5).
  destruct (wsect_spec room Hroom s6 _ fi5 fb5 58 (bitmap fb5) Hr6 ltac:(lia)) as (s7 & E7 & Hr7).
  exists s7. split; [exact E7|]. split; [apply Hr7|]. eexists. split; [apply Hr7|]. by apply (final_built d5 fi5 fb5 fs5 names dr).
Qed.

End Main.

(** ** A small command line *)

Definition demo_contents (name : list Z) : option (list (list Z)) :=
  if decide (name = bytes_of "_cat") then Some [replicate 512 7; [1; 2; 3]]
  else if decide (name = bytes_of "README") then Some [bytes_of "xv6"] else None.

Lemma mkfs_builds_witness :
  exists s', main false 1000 (fun _ => true) demo_contents [bytes_of "mkfs"; bytes_of "fs.img"; bytes_of "_cat"; bytes_of "README"] image0 = Done tt s' /\
    exists d ip, (forall y, dk s' y = d y) /\ loaded d 3 ip /\ file_bytes d ip = bytes_of "xv6".
Proof.
  destruct (mkfs_builds 1000 (fun _ => true) demo_contents ltac:(lia) (bytes_of "mkfs") (bytes_of "fs.img") [bytes_of "_cat"; bytes_of "README"])
    as (s' & E & _ & d & Hd & Hw).
  - reflexivity.
  - repeat (apply list.Forall_cons; split); [..|done]; (split; [by vm_compute|]); (split; [by vm_compute; eexists|by vm_compute]).
  - cbn. lia.
  - by vm_compute.
  - exists s'. split; [exact E|]. destruct (wb_files _ _ _ Hw 1%nat (bytes_of "README") eq_refl) as (ip & Hl & _ & _ & _ & _ & Hb).
    exists d, ip. split; [exact Hd|]. split; [exact Hl|exact Hb].
Defined.

(** On a big-endian host the super block is converted, but [IBLOCK] and [balloc]
    use its fields unconverted: the inodes and the bitmap are written to the
    first sector. *)
Lemma big_endian_sectors :
  sector (IBLOCK 1 (mkfs_sb true)) = 0%nat /\ sector (sb_bmapstart (mkfs_sb true)) = 0%nat /\
  xint true (sb_inodestart (mkfs_sb true)) = 32.
Proof. by vm_compute. Qed.
