(* ===== verification/Pipe.v ===== *)
(** * Pipes (pipe.c)

    A pipe is a ring buffer of [PIPESIZE] bytes with counters of the bytes
    read and written so far, in a page of its own; it is identified by the
    address of that page. *)

From S2P Require Import Prelude Params State Mem Spinlock Seg Str Cprintf Kalloc Proc FsState.

(* pipe.c 11-11: PIPESIZE *)
Definition PIPESIZE : Z := 512.

Section Pipe.
  Context {LK : Linker} {FU : Fuel}.

(** [myproc()->killed] *)
Definition my_killed : M K bool :=
  op <- myproc ;;
  i <- deref "myproc()" op ;;
  p <- get_proc i ;;
  ret (nz (killed p)).

(* pipe.c 59-75: pipeclose *)
Definition pipeclose (p : Z) (writable : bool) : M K unit :=
  acquire (LKpipe p) ;;
  (if writable then
     upd_pipe p (set_p_writeopen 0) ;;
     wakeup (ChPipeRead p)
   else
     upd_pipe p (set_p_readopen 0) ;;
     wakeup (ChPipeWrite p)) ;;
  pp <- get_pipe p ;;
  if (p_readopen pp =? 0) && (p_writeopen pp =? 0) then
    release (LKpipe p) ;;
    on_fs (fun s => set_pipes (delete p (pipes s)) s) ;;
    kfree p
  else release (LKpipe p).

(** Waiting for room: [true] when the read end is closed or the process was
    killed. *)
(* pipe.c 85-92: pipewrite *)
Definition wait_room (p : Z) : M K bool :=
  loop fuel (
    pp <- get_pipe p ;;
    if negb (p_nwrite pp =? u32 (p_nread pp + PIPESIZE)) then ret (Some false) else
    dead <- (if p_readopen pp =? 0 then ret true else my_killed) ;;
    if (dead : bool) then ret (Some true) else
    wakeup (ChPipeRead p) ;;
    sleep (ChPipeWrite p) (LKpipe p) ;;
    ret None).

(** [p->data[p->nwrite++ % PIPESIZE] = c] *)
(* pipe.c 93-93: pipewrite *)
Definition pipe_push (c : Z) (pp : pipe) : pipe :=
  set_p_nwrite (u32 (p_nwrite pp + 1))
    (set_p_data (<[Z.to_nat (p_nwrite pp `mod` PIPESIZE) := c]> (p_data pp)) pp).

(* pipe.c 78-98: pipewrite *)
Definition pipewrite (p addr n : Z) : M K Z :=
  acquire (LKpipe p) ;;
  o <- for_each (zseq (Z.to_nat n)) (fun i =>
    dead <- wait_room p ;;
    if (dead : bool) then release (LKpipe p) ;; ret (Some (-1)) else
    c <- uload8 (addr + i) ;;
    upd_pipe p (pipe_push c) ;;
    ret None) ;;
  match o with
  | Some r => ret r
  | None =>
      wakeup (ChPipeRead p) ;;
      release (LKpipe p) ;;
      ret n
  end.

(** Waiting for data: [true] when the process was killed. *)
(* pipe.c 106-112: piperead *)
Definition wait_data (p : Z) : M K bool :=
  loop fuel (
    pp <- get_pipe p ;;
    if negb ((p_nread pp =? p_nwrite pp) && nz (p_writeopen pp)) then ret (Some false) else
    dead <- my_killed ;;
    if (dead : bool) then ret (Some true) else
    sleep (ChPipeRead p) (LKpipe p) ;;
    ret None).

(** The next byte to read, and [p->nread++]. *)
Definition pipe_front (pp : pipe) : Z := p_data pp !!! Z.to_nat (p_nread pp `mod` PIPESIZE).

Definition pipe_pop (pp : pipe) : pipe := set_p_nread (u32 (p_nread pp + 1)) pp.

(** The value of [i] when the loop ends. *)
(* pipe.c 113-117: piperead *)
Fixpoint pipe_copy (n : nat) (p addr i : Z) : M K Z :=
  match n with
  | O => ret i
  | S n' =>
      pp <- get_pipe p ;;
      if p_nread pp =? p_nwrite pp then ret i else
      upd_pipe p pipe_pop ;;
      ustore8 (addr + i) (pipe_front pp) ;;
      pipe_copy n' p addr (i + 1)
  end.

(* pipe.c 100-121: piperead *)
Definition piperead (p addr n : Z) : M K Z :=
  acquire (LKpipe p) ;;
  dead <- wait_data p ;;
  if (dead : bool) then release (LKpipe p) ;; ret (-1) else
  i <- pipe_copy (Z.to_nat n) p addr 0 ;;
  wakeup (ChPipeWrite p) ;;
  release (LKpipe p) ;;
  ret i.

End Pipe.
