(* ===== verification/File.v ===== *)
(** * Open files (file.c) and the creation of pipes (pipe.c)

    The table of open files with their reference counts; reading and writing
    dispatch on the kind of file. *)

From S2P Require Import Prelude Params State Mem Spinlock Seg Str Cprintf Kalloc Proc FsState Sleeplock.
From S2P Require Import BlockDev Ide Bio Log Inode Console Fs Pipe.

(** The slots of [ftable.file], in order. *)
Definition file_slots : list nat := seq 0 (Z.to_nat NFILE).

(** The bytes written in one transaction. *)
(* file.c 133-133: filewrite *)
Definition max_write : Z := ((MAXOPBLOCKS - 1 - 1 - 2) / 2) * 512.

Section File.
  Context {LK : Linker} {FU : Fuel} {BD : BlockDev}.

(* file.c 19-23: fileinit *)
Definition fileinit : M K unit := initlock LKftable "ftable".

(* file.c 26-41: filealloc *)
Definition filealloc : M K (option nat) :=
  acquire LKftable ;;
  o <- for_each file_slots (fun f =>
    ff <- get_file f ;;
    if f_ref ff =? 0 then
      upd_file f (set_f_ref 1) ;;
      release LKftable ;;
      ret (Some f)
    else ret None) ;;
  match o with
  | Some f => ret (Some f)
  | None => release LKftable ;; ret None
  end.

(* file.c 44-53: filedup *)
Definition filedup (f : nat) : M K nat :=
  acquire LKftable ;;
  ff <- get_file f ;;
  if f_ref ff <? 1 then panic "filedup" else
  upd_file f (fun ff => set_f_ref (f_ref ff + 1) ff) ;;
  release LKftable ;;
  ret f.

(* file.c 56-80: fileclose *)
Definition fileclose (f : nat) : M K unit :=
  acquire LKftable ;;
  ff <- get_file f ;;
  if f_ref ff <? 1 then panic "fileclose" else
  upd_file f (fun ff => set_f_ref (f_ref ff - 1) ff) ;;
  ff <- get_file f ;;
  if f_ref ff >? 0 then release LKftable else
  upd_file f (set_f_ref 0) ;;
  upd_file f (set_f_type FD_NONE) ;;
  release LKftable ;;
  match f_type ff with
  | FD_PIPE => p <- deref "ff.pipe" (f_pipe ff) ;; pipeclose p (nz (f_writable ff))
  | FD_INODE =>
      begin_op ;;
      i <- deref "ff.ip" (f_ip ff) ;;
      iput i ;;
      end_op
  | FD_NONE => ret tt
  end.

(* file.c 83-93: filestat *)
Definition filestat (f : nat) (st : Z) : M K Z :=
  ff <- get_file f ;;
  match f_type ff with
  | FD_INODE =>
      ilock (f_ip ff) ;;
      i <- deref "f->ip" (f_ip ff) ;;
      stati i st ;;
      iunlock (f_ip ff) ;;
      ret 0
  | _ => ret (-1)
  end.

(* file.c 96-113: fileread *)
Definition fileread (f : nat) (addr n : Z) : M K Z :=
  ff <- get_file f ;;
  if f_readable ff =? 0 then ret (-1) else
  match f_type ff with
  | FD_PIPE => p <- deref "f->pipe" (f_pipe ff) ;; piperead p addr n
  | FD_INODE =>
      ilock (f_ip ff) ;;
      i <- deref "f->ip" (f_ip ff) ;;
      ff <- get_file f ;;
      rb <- readi i (DUser addr) (f_off ff) (u32 n) ;;
      let r := rb.1 in
      when (r >? 0) (upd_file f (fun ff => set_f_off (u32 (f_off ff + r)) ff)) ;;
      iunlock (f_ip ff) ;;
      ret r
  | FD_NONE => panic "fileread"
  end.

(** The loop of [filewrite]; every transaction but the last writes [max_write]
    bytes, and the last step leaves the loop. *)
(* file.c 135-152: filewrite *)
Fixpoint write_chunks (fuel : nat) (f : nat) (addr n i : Z) : M K Z :=
  if negb (i <? n) then ret i else
  match fuel with
  | O => fun k => NoFuel k
  | S fu =>
      let n1 := Z.min (n - i) max_write in
      begin_op ;;
      ff <- get_file f ;;
      ilock (f_ip ff) ;;
      ip <- deref "f->ip" (f_ip ff) ;;
      ff <- get_file f ;;
      r <- writei ip (SUser (addr + i)) (f_off ff) (u32 n1) ;;
      when (r >? 0) (upd_file f (fun ff => set_f_off (u32 (f_off ff + r)) ff)) ;;
      iunlock (f_ip ff) ;;
      end_op ;;
      if r <? 0 then ret i else
      if negb (r =? n1) then panic "short filewrite" else
      write_chunks fu f addr n (i + r)
  end.

(* file.c 117-156: filewrite *)
Definition filewrite (f : nat) (addr n : Z) : M K Z :=
  ff <- get_file f ;;
  if f_writable ff =? 0 then ret (-1) else
  match f_type ff with
  | FD_PIPE => p <- deref "f->pipe" (f_pipe ff) ;; pipewrite p addr n
  | FD_INODE =>
      i <- write_chunks (Z.to_nat (n / max_write + 1)) f addr n 0 ;;
      ret (if i =? n then n else -1)
  | FD_NONE => panic "filewrite"
  end.

(** Offset of [data] in [struct pipe]: the lock comes first. *)
Definition pipe_data_off : Z := 52.

(** The page holds what it held before; only the named fields are set. *)
(* pipe.c 22-57: pipealloc *)
Definition pipealloc : M K (option (nat * nat)) :=
  let bad f0 f1 :=
    match f0 with Some f => fileclose f | None => ret tt end ;;
    match f1 with Some f => fileclose f | None => ret tt end ;;
    ret None in
  f0 <- filealloc ;;
  match f0 with
  | None => bad None None
  | Some a =>
      f1 <- filealloc ;;
      match f1 with
      | None => bad f0 None
      | Some b =>
          p <- kalloc ;;
          if p =? 0 then bad f0 f1 else
          data <- kload (p + pipe_data_off) (Z.to_nat PIPESIZE) ;;
          on_fs (fun s => set_pipes (<[p := mkPipe data 0 0 1 1]> (pipes s)) s) ;;
          initlock (LKpipe p) "pipe" ;;
          upd_file a (set_f_type FD_PIPE) ;;
          upd_file a (set_f_readable 1) ;;
          upd_file a (set_f_writable 0) ;;
          upd_file a (set_f_pipe (Some p)) ;;
          upd_file b (set_f_type FD_PIPE) ;;
          upd_file b (set_f_readable 0) ;;
          upd_file b (set_f_writable 1) ;;
          upd_file b (set_f_pipe (Some p)) ;;
          ret (Some (a, b))
      end
  end.

End File.
