(* ===== verification/ProcLife.v ===== *)
(** * Creating, ending and joining processes and threads (proc.c)

    [fork] gives the child a copy of the address space, [thread_create] shares
    the pages of the caller but the stack; [exit] leaves a zombie, which the
    parent ([diagwait], [wait]) or a thread of the same process ([thread_join])
    reaps. *)

From S2P Require Import Prelude Params State Mem Spinlock Seg Str Cprintf Kalloc Vm Proc FsState Sleeplock.
From S2P Require Import BlockDev Ide Bio Log Inode Console Fs Pipe File.

(** ** Trap frames *)

(** Offsets of the fields of a trap frame. *)
(* x86.h 150-183: trapframe *)
Definition tf_ebp : Z := 8.

Definition tf_eax : Z := 28.

Definition tf_es : Z := 40.

Definition tf_ds : Z := 44.

Definition tf_trapno : Z := 48.

Definition tf_err : Z := 52.

Definition tf_eip : Z := 56.

Definition tf_cs : Z := 60.

Definition tf_eflags : Z := 64.

Definition tf_esp : Z := 68.

Definition tf_ss : Z := 72.

Definition sizeof_tf : nat := 76.

(** [sizeof(struct context)], and the offset of its [eip]. *)
(* proc.h 31-37: context *)
Definition sizeof_context : Z := 20.

Definition context_eip : Z := 16.

(** The fields a slot of the table is left with when its process is reaped. *)
(* proc.c 348-359: diagwait *)
Definition cleared (p : proc) : proc :=
  put_ticketCount 0 (set_totalCBT 0 (set_totalWaitTime 0 (set_lastChangeTime 0
    (set_creationTime 0 (put_priority 0 (set_state UNUSED (set_killed 0
      (set_name (put_nul (name p)) (set_parent None (set_first_pid 0 (set_pid 0 p))))))))))).

Section ProcLife.
  Context {LK : Linker} {FU : Fuel} {BD : BlockDev}.

(** [myproc()], which is never null where it is used like this. *)
Definition curproc : M K nat :=
  op <- myproc ;; deref "myproc()" op.

(** ** Creation *)

(** Overflow of the signed counter [nextpid] is undefined. *)
(* proc.c 106-115: allocproc *)
Definition init_slot (i : nat) : M K unit :=
  upd_proc i (set_state EMBRYO) ;;
  upd_proc i (put_priority 3) ;;
  upd_proc i (put_ticketCount 10) ;;
  n <- gets (fun k => nextpid (k_ps k)) ;;
  if negb (n <? 2 ^ 31 - 1) then undef "nextpid++" else
  upd_proc i (set_pid n) ;;
  on_ps (set_nextpid (n + 1)) ;;
  when (n =? 1) (upd_proc i (put_priority 1)) ;;
  t <- get_ticks ;;
  upd_proc i (set_creationTime t) ;;
  upd_proc i (set_lastChangeTime t) ;;
  upd_proc i (set_totalWaitTime 0) ;;
  upd_proc i (set_totalCBT 0).

(* proc.c 90-140: allocproc *)
Definition allocproc : M K (option nat) :=
  acquire LKptable ;;
  o <- for_each slots (fun i =>
    p <- get_proc i ;;
    ret (if bool_decide (state p = UNUSED) then Some i else None)) ;;
  match o with
  | None => release LKptable ;; ret None
  | Some i =>
      init_slot i ;;
      release LKptable ;;
      ks <- kalloc ;;
      upd_proc i (set_kstack ks) ;;
      if ks =? 0 then upd_proc i (set_state UNUSED) ;; ret None else
      let sp := ks + KSTACKSIZE - Z.of_nat sizeof_tf in
      upd_proc i (set_tf sp) ;;
      let sp := sp - 4 in
      kstore32 sp sym_trapret ;;
      let sp := sp - sizeof_context in
      upd_proc i (set_context sp) ;;
      on_ms (fun m => set_ram (memset (ram m) (V2P sp) 0 sizeof_context) m) ;;
      kstore32 (sp + context_eip) sym_forkret ;;
      ret (Some i)
  end.

(** A process that becomes runnable can preempt under the priority policies. *)
(* proc.c 259-265: fork *)
Definition preempt_check : M K unit :=
  pushcli ;;
  c <- mycpu ;;
  cc <- get_cpu c ;;
  let alg := schedAlg cc in
  let shouldYield := (alg =? 2) || (alg =? 3) in
  popcli ;;
  when shouldYield yield.

(* proc.c 252-257: fork *)
Definition make_runnable (i : nat) : M K unit :=
  acquire LKptable ;;
  upd_proc i (set_state RUNNABLE) ;;
  t <- get_ticks ;;
  upd_proc i (set_lastChangeTime t) ;;
  p <- get_proc i ;;
  add_tickets (ticketCount p) ;;
  release LKptable.

(* proc.c 144-189: userinit *)
Definition userinit : M K unit :=
  o <- allocproc ;;
  on_ps (set_initproc o) ;;
  i <- deref "p" o ;;
  d <- setupkvm ;;
  upd_proc i (set_pgdir d) ;;
  if d =? 0 then panic "userinit: out of memory?" else
  inituvm d initcode ;;
  upd_proc i (set_sz PGSIZE) ;;
  p <- get_proc i ;;
  on_ms (fun m => set_ram (memset (ram m) (V2P (tf p)) 0 (Z.of_nat sizeof_tf)) m) ;;
  kstore (tf p + tf_cs) (le_bytes 2 (Z.lor (Z.shiftl SEG_UCODE 3) DPL_USER)) ;;
  kstore (tf p + tf_ds) (le_bytes 2 (Z.lor (Z.shiftl SEG_UDATA 3) DPL_USER)) ;;
  kstore (tf p + tf_es) (le_bytes 2 (Z.lor (Z.shiftl SEG_UDATA 3) DPL_USER)) ;;
  kstore (tf p + tf_ss) (le_bytes 2 (Z.lor (Z.shiftl SEG_UDATA 3) DPL_USER)) ;;
  kstore32 (tf p + tf_eflags) FL_IF ;;
  kstore32 (tf p + tf_esp) PGSIZE ;;
  kstore32 (tf p + tf_eip) 0 ;;
  upd_proc i (fun p => set_name (safestrcpy (name p) (bytes_of "initcode") 16) p) ;;
  ip <- namei (bytes_of "/") ;;
  upd_proc i (set_cwd ip) ;;
  make_runnable i ;;
  preempt_check.

(* proc.c 193-210: growproc *)
Definition growproc (n : Z) : M K Z :=
  i <- curproc ;;
  p <- get_proc i ;;
  sz <- (if n >? 0 then r <- allocuvm (pgdir p) (sz p) (u32 (sz p + n)) ;; ret (u32 r)
         else if n <? 0 then r <- deallocuvm (pgdir p) (sz p) (u32 (sz p + n)) ;; ret (u32 r)
         else ret (sz p)) ;;
  if negb (n =? 0) && (sz =? 0) then ret (-1) else
  upd_proc i (set_sz sz) ;;
  switchuvm (Some i) ;;
  ret 0.

(** Open files, the current directory and the name are inherited. *)
(* proc.c 243-248: fork *)
Definition inherit (i np : nat) : M K unit :=
  for_all (seq 0 (Z.to_nat NOFILE)) (fun fd =>
    p <- get_proc i ;;
    match ofile p !!! fd with
    | Some f => f <- filedup f ;; upd_proc np (fun q => set_ofile (<[fd := Some f]> (ofile q)) q)
    | None => ret tt
    end) ;;
  p <- get_proc i ;;
  c <- deref "cwd" (cwd p) ;;
  c <- idup c ;;
  upd_proc np (set_cwd (Some c)) ;;
  p <- get_proc i ;;
  upd_proc np (fun q => set_name (safestrcpy (name q) (name p) 16) q).

(** The address space could not be made: the slot is given back. *)
(* proc.c 230-233: fork *)
Definition abandon (np : nat) : M K unit :=
  q <- get_proc np ;;
  kfree (kstack q) ;;
  upd_proc np (set_kstack 0) ;;
  upd_proc np (set_state UNUSED).

(** [*np->tf = *curproc->tf; np->tf->eax = 0] *)
(* proc.c 238-241: fork *)
Definition copy_tf (i np : nat) : M K unit :=
  p <- get_proc i ;;
  q <- get_proc np ;;
  bs <- kload (tf p) sizeof_tf ;;
  kstore (tf q) bs ;;
  kstore32 (tf q + tf_eax) 0.

(* proc.c 215-268: fork *)
Definition fork : M K Z :=
  i <- curproc ;;
  o <- allocproc ;;
  match o with
  | None => ret (-1)
  | Some np =>
      p <- get_proc i ;;
      d <- copyuvm (pgdir p) (sz p) ;;
      upd_proc np (set_pgdir d) ;;
      if d =? 0 then abandon np ;; ret (-1) else
      q <- get_proc np ;;
      upd_proc np (set_first_pid (pid q)) ;;
      p <- get_proc i ;;
      upd_proc np (set_sz (sz p)) ;;
      upd_proc np (set_parent (Some i)) ;;
      copy_tf i np ;;
      inherit i np ;;
      q <- get_proc np ;;
      let pid := pid q in
      make_runnable np ;;
      preempt_check ;;
      ret pid
  end.

(* proc.c 862-922: thread_create *)
Definition thread_create (stack : Z) : M K Z :=
  i <- curproc ;;
  let sp := u32 stack in
  let spage := PGROUNDDOWN sp in
  p <- get_proc i ;;
  esp <- kload32 (tf p + tf_esp) ;;
  let orig_stack_beg := PGROUNDDOWN esp in
  o <- allocproc ;;
  match o with
  | None => cprintf ("allocproc failed" ++ nl) [] ;; ret (-1)
  | Some np =>
      p <- get_proc i ;;
      d <- linkuvm (pgdir p) (sz p) orig_stack_beg sp ;;
      upd_proc np (set_pgdir d) ;;
      if d =? 0 then abandon np ;; cprintf ("linkuvm failed" ++ nl) [] ;; ret (-1) else
      p <- get_proc i ;;
      upd_proc np (set_first_pid (first_pid p)) ;;
      upd_proc np (set_sz (u32 (orig_stack_beg + PGSIZE))) ;;
      upd_proc np (set_parent (Some i)) ;;
      copy_tf i np ;;
      q <- get_proc np ;;
      let esp := u32 (orig_stack_beg + (sp - spage)) in
      kstore32 (tf q + tf_esp) esp ;;
      eip <- uload32 esp ;;
      kstore32 (tf q + tf_eip) eip ;;
      kstore32 (tf q + tf_esp) (u32 (esp + 4)) ;;
      inherit i np ;;
      q <- get_proc np ;;
      let pid := pid q in
      make_runnable np ;;
      preempt_check ;;
      ret pid
  end.

(** The first code a new process runs. *)
(* proc.c 689-706: forkret *)
Definition forkret : M K unit :=
  release LKptable ;;
  f <- gets (fun k => first (k_ps k)) ;;
  when (nz f)
    (on_ps (set_first 0) ;;
     iinit ROOTDEV ;;
     initlog ROOTDEV).

(** ** The end *)

(* proc.c 284-294: exit *)
Definition close_files (i : nat) : M K unit :=
  for_all (seq 0 (Z.to_nat NOFILE)) (fun fd =>
    p <- get_proc i ;;
    match ofile p !!! fd with
    | Some f => fileclose f ;; upd_proc i (fun p => set_ofile (<[fd := None]> (ofile p)) p)
    | None => ret tt
    end) ;;
  begin_op ;;
  p <- get_proc i ;;
  c <- deref "cwd" (cwd p) ;;
  iput c ;;
  end_op ;;
  upd_proc i (set_cwd None).

(* proc.c 299-310: exit *)
Definition leave_family (i : nat) : M K unit :=
  for_all slots (fun j =>
    q <- get_proc j ;;
    if (pid q =? 0) || Nat.eqb j i then ret tt else
    if bool_decide (parent q = Some i) then
      ini <- gets (fun k => initproc (k_ps k)) ;;
      upd_proc j (set_parent ini) ;;
      when (bool_decide (state q = ZOMBIE)) (wakeup1 (ChProc <$> ini))
    else
      p <- get_proc i ;;
      when ((first_pid q =? first_pid p) || bool_decide (parent p = Some j))
        (wakeup1 (Some (ChProc j)))).

(* proc.c 273-317: exit *)
Definition exit : M K unit :=
  i <- curproc ;;
  ini <- gets (fun k => initproc (k_ps k)) ;;
  if bool_decide (ini = Some i) then panic "init exiting" else
  close_files i ;;
  acquire LKptable ;;
  leave_family i ;;
  upd_proc i (set_state ZOMBIE) ;;
  p <- get_proc i ;;
  add_tickets (- ticketCount p) ;;
  sched ;;
  panic "zombie exit".

(** The scan over the children: [Some pid] when one was reaped; otherwise
    whether there are any. *)
(* proc.c 332-363: diagwait *)
Fixpoint scan_children (l : list nat) (i : nat) (arg : Z) (havekids : bool) : M K (Z + bool) :=
  match l with
  | [] => ret (inr havekids)
  | j :: l' =>
      p <- get_proc j ;;
      if negb (pid p =? first_pid p) || negb (bool_decide (parent p = Some i))
      then scan_children l' i arg havekids else
      if bool_decide (state p = ZOMBIE) then
        let pid := pid p in
        when (nz arg)
          (ustore32 arg (totalCBT p) ;;
           ustore32 (arg + 4) (totalWaitTime p) ;;
           ustore32 (arg + 8) (u32 (lastChangeTime p - creationTime p))) ;;
        kfree (kstack p) ;;
        upd_proc j (set_kstack 0) ;;
        freevm (pgdir p) ;;
        upd_proc j cleared ;;
        release LKptable ;;
        ret (inl pid)
      else scan_children l' i arg true
  end.

(* proc.c 321-374: diagwait *)
Definition diagwait (arg : Z) : M K Z :=
  i <- curproc ;;
  acquire LKptable ;;
  loop fuel (
    r <- scan_children slots i arg false ;;
    match r with
    | inl pid => ret (Some pid)
    | inr havekids =>
        p <- get_proc i ;;
        if negb havekids || nz (killed p) then release LKptable ;; ret (Some (-1)) else
        sleep (ChProc i) LKptable ;;
        ret None
    end).

(* proc.c 376-379: wait *)
Definition wait : M K Z := diagwait 0.

(** The early return for a process created by [fork] keeps the lock. *)
(* proc.c 396-429: thread_join *)
Fixpoint scan_threads (l : list nat) (i : nat) (tid : Z) (targetexists : bool) : M K (Z + bool) :=
  match l with
  | [] => ret (inr targetexists)
  | j :: l' =>
      p <- get_proc j ;;
      cp <- get_proc i ;;
      if Nat.eqb j i || negb (first_pid p =? first_pid cp) || negb (pid p =? tid)
      then scan_threads l' i tid targetexists else
      if pid p =? first_pid p then ret (inl (-2)) else
      if bool_decide (state p = ZOMBIE) then
        let res := if nz (killed p) then -1 else 0 in
        kfree (kstack p) ;;
        upd_proc j (set_kstack 0) ;;
        esp <- kload32 (tf cp + tf_esp) ;;
        freethread (pgdir p) (PGROUNDDOWN esp) ;;
        upd_proc j cleared ;;
        release LKptable ;;
        ret (inl res)
      else scan_threads l' i tid true
  end.

(* proc.c 383-440: thread_join *)
Definition thread_join (tid : Z) : M K Z :=
  i <- curproc ;;
  p <- get_proc i ;;
  if tid =? pid p then ret (-2) else
  acquire LKptable ;;
  loop fuel (
    r <- scan_threads slots i tid false ;;
    match r with
    | inl res => ret (Some res)
    | inr targetexists =>
        p <- get_proc i ;;
        if negb targetexists || nz (killed p) then release LKptable ;; ret (Some (-2)) else
        sleep (ChProc i) LKptable ;;
        ret None
    end).

(* proc.c 775-808: kill *)
Definition kill (pid' : Z) : M K Z :=
  acquire LKptable ;;
  o <- for_each slots (fun i =>
    p <- get_proc i ;;
    if negb (pid p =? pid') then ret None else
    upd_proc i (set_killed 1) ;;
    woken <- (if bool_decide (state p = SLEEPING) then
                upd_proc i (set_state RUNNABLE) ;;
                t <- get_ticks ;;
                upd_proc i (set_lastChangeTime t) ;;
                add_tickets (ticketCount p) ;;
                ret true
              else ret false) ;;
    release LKptable ;;
    when woken preempt_check ;;
    ret (Some tt)) ;;
  match o with
  | Some _ => ret 0
  | None => release LKptable ;; ret (-1)
  end.

(** ** Pages of threads *)

(* proc.c 849-854: getpage *)
Definition getpage : M K Z :=
  i <- curproc ;;
  p <- get_proc i ;;
  palloc (pgdir p) (PGROUNDUP (sz p)).

(* proc.c 856-860: detachpage *)
Definition detachpage (loc : Z) : M K Z :=
  i <- curproc ;;
  p <- get_proc i ;;
  unmappages (pgdir p) loc PGSIZE.

(** ** Program segments *)

(* vm.c 223-243: loaduvm *)
Definition loaduvm (pgdir addr : Z) (ip : nat) (offset sz : Z) : M K Z :=
  if negb (addr `mod` PGSIZE =? 0) then panic "loaduvm: addr must be page aligned" else
  o <- for_each (page_offsets sz) (fun i =>
    pte <- walkpgdir pgdir (u32 (addr + i)) false ;;
    if pte =? 0 then panic "loaduvm: address should exist" else
    e <- kload32 pte ;;
    let pa := PTE_ADDR e in
    let n := if sz - i <? PGSIZE then sz - i else PGSIZE in
    r <- readi ip (DKern (P2V pa)) (u32 (offset + i)) n ;;
    ret (if negb (u32 r.1 =? n) then Some tt else None)) ;;
  ret (match o with Some _ => -1 | None => 0 end).

End ProcLife.
