(* ===== verification/ProcOps.v ===== *)
(** * Slots of the process table: [allocproc], [kill], [thread_join] (proc.c)

    What the routines that give out, mark and collect slots do on every branch,
    among them branches where the table or its lock is left in a state the rest
    of the kernel does not expect. *)

From S2P Require Import Prelude Params State Mem Spinlock Seg Str Cprintf Kalloc Vm VmSpec Proc ProcSpec ProcRefine SleepWake FsState Sleeplock.
From S2P Require Import SleeplockSpec BlockDev Ide Bio Log Inode Console Fs Pipe File ProcLife Demo DemoFs.

Definition with_slot (j : nat) (p : proc) (k : K) : K :=
  set_k_ps (set_procs (<[j := p]> (procs (k_ps k))) (k_ps k)) k.

Section ProcOps.
Context {LK : Linker} {LKO : LinkerOk} {FU : Fuel} {BD : BlockDev}.
Implicit Types (k : K).

Lemma upd_slot k j p f : procs (k_ps k) !! j = Some p -> upd_proc j f k = Done tt (with_slot j (f p) k).
Proof.
  intros H. unfold upd_proc, get_proc, on_ps. kred. rewrite H. kred. unfold with_slot. do 3 f_equal.
  apply list_eq. intros i. destruct (decide (i = j)) as [->|Hne].
  - rewrite list_lookup_alter_eq, list_lookup_insert_eq by (by eapply lookup_lt_Some). by rewrite H.
  - by rewrite list_lookup_alter_ne, list_lookup_insert_ne.
Qed.

Lemma with_slot_twice j a b k : with_slot j a (with_slot j b k) = with_slot j a k.
Proof. unfold with_slot. simpl. by rewrite list_insert_insert_eq. Qed.

Lemma with_slot_at j a p k : procs (k_ps k) !! j = Some p -> procs (k_ps (with_slot j a k)) !! j = Some a.
Proof. intros H. simpl. apply list_lookup_insert_eq. by eapply lookup_lt_Some. Qed.

(** A further change of the same slot. *)
Lemma upd_again k j p a f :
  procs (k_ps k) !! j = Some p -> upd_proc j f (with_slot j a k) = Done tt (with_slot j (f a) k).
Proof. intros H. rewrite (upd_slot _ _ a), with_slot_twice; [done|]. by eapply with_slot_at. Qed.

(** Searches of the table. *)
Definition first_slot (f : proc -> bool) (ps : list proc) (j : nat) : Prop :=
  (exists p, ps !! j = Some p /\ f p = true) /\ forall i p, (i < j)%nat -> ps !! i = Some p -> f p = false.

Lemma for_each_until {S R} (l1 : list nat) j l2 (body : nat -> M S (option R)) s s' r :
  (forall i, i ∈ l1 -> body i s = Done None s) -> body j s = Done (Some r) s' ->
  for_each (l1 ++ j :: l2) body s = Done (Some r) s'.
Proof.
  intros H1 H2. rewrite for_each_skip, for_each_cons, H2 by done. cbn [res_bind]. by rewrite ret_eq.
Qed.

Lemma slots_split j : (j < 64)%nat -> slots = seq 0 j ++ j :: seq (S j) (63 - j).
Proof.
  intros Hj. unfold slots. change (Z.to_nat NPROC) with 64%nat.
  replace 64%nat with (j + S (63 - j))%nat by lia. by rewrite seq_app.
Qed.

(** ** allocproc *)

(** The slot as [allocproc] leaves it under the lock: the killed flag is the
    one the slot had. *)
Definition embryo (n t : Z) (p : proc) : proc :=
  set_totalCBT 0 (set_totalWaitTime 0 (set_lastChangeTime t (set_creationTime t
    ((if n =? 1 then put_priority 1 else id) (set_pid n (put_ticketCount 10 (put_priority 3 (set_state EMBRYO p)))))))).

Lemma init_slot_eq k j p :
  procs (k_ps k) !! j = Some p -> nextpid (k_ps k) < 2 ^ 31 - 1 ->
  let n := nextpid (k_ps k) in
  init_slot j k = Done tt (set_k_ps (set_nextpid (n + 1)
    (set_procs (<[j := embryo n (ticks (k_ps k)) p]> (procs (k_ps k))) (k_ps k))) k).
Proof.
  intros Hp Hn. cbv zeta. unfold init_slot. set (n := nextpid (k_ps k)) in *.
  rewrite bind_eq, (upd_slot _ _ _ _ Hp). cbn [res_bind].
  rewrite bind_eq, (upd_again _ _ _ _ _ Hp). cbn [res_bind]. rewrite bind_eq, (upd_again _ _ _ _ _ Hp). cbn [res_bind].
  rewrite bind_eq, gets_eq. cbn [res_bind k_ps with_slot set_k_ps nextpid set_procs]. fold n.
  replace (n <? 2 ^ 31 - 1) with true by lia. cbn [negb].
  rewrite bind_eq, (upd_again _ _ _ _ _ Hp). cbn [res_bind].
  set (a := set_pid n _). unfold on_ps at 1. rewrite bind_eq, modify_eq. cbn [res_bind].
  set (kn := set_k_ps (set_nextpid (n + 1) (k_ps k)) k).
  change (set_k_ps _ (with_slot j a k)) with (with_slot j a kn).
  assert (procs (k_ps kn) !! j = Some p) as Hpn by exact Hp.
  assert (when (n =? 1) (upd_proc j (put_priority 1)) (with_slot j a kn) =
    Done tt (with_slot j ((if n =? 1 then put_priority 1 else id) a) kn)) as Hw.
  { destruct (n =? 1); cbn [when]; [by apply (upd_again _ _ _ _ _ Hpn)|done]. }
  rewrite bind_eq, Hw. cbn [res_bind]. unfold get_ticks. rewrite bind_eq, gets_eq. cbn [res_bind].
  do 3 (rewrite bind_eq, (upd_again _ _ _ _ _ Hpn); cbn [res_bind]). rewrite (upd_again _ _ _ _ _ Hpn). done.
Qed.

Lemma find_unused_eq k j :
  length (procs (k_ps k)) = 64%nat -> first_slot (fun p => bool_decide (state p = UNUSED)) (procs (k_ps k)) j ->
  for_each slots (fun i => p <- get_proc i ;; ret (if bool_decide (state p = UNUSED) then Some i else None)) k = Done (Some j) k.
Proof.
  intros Hlen [(p & Hp & Hu) Hb]. pose proof (lookup_lt_Some _ _ _ Hp) as Hj. rewrite (slots_split j) by lia.
  apply for_each_until.
  - intros i Hi. apply elem_of_seq in Hi. destruct (lookup_lt_is_Some_2 (procs (k_ps k)) i) as [pi Hpi]; [lia|].
    rewrite bind_eq, (get_proc_at _ _ _ Hpi). cbn [res_bind]. by rewrite (Hb i pi) by (lia || done).
  - rewrite bind_eq, (get_proc_at _ _ _ Hp). cbn [res_bind]. by rewrite Hu.
Qed.

(** The kernel stack as a new process finds it: it returns to [forkret], which
    returns to [trapret]. *)
Definition new_stack (m : gmap Z Z) (ks : Z) : gmap Z Z :=
  st32 (memset (st32 m (V2P (ks + 4016)) sym_trapret) (V2P (ks + 3996)) 0 20) (V2P (ks + 4012)) sym_forkret.

Lemma new_stack_spec m ks :
  page_ok ks ->
  ld32 (new_stack m ks) (V2P (ks + 4012)) = u32 sym_forkret /\ ld32 (new_stack m ks) (V2P (ks + 4016)) = u32 sym_trapret /\
  forall x, ~ in_page ks x -> ld8 (new_stack m ks) x = ld8 m x.
Proof.
  intros Hk. unfold new_stack. rewrite !(V2P_off ks) by (done || (unfold PGSIZE; lia)). unfold in_page, PGSIZE.
  split; [apply ld32_st32_same|]. split.
  - rewrite ld32_st32_out by lia. rewrite <- (ld32_st32_same m (V2P ks + 4016) sym_trapret). apply ld32_ext.
    intros x Hx. rewrite ld8_memset, decide_False by lia. done.
  - intros x Hx. rewrite ld8_st32_out by lia. rewrite ld8_memset, decide_False by lia. apply ld8_st32_out. lia.
Qed.

Lemma new_stack_eq k j e a ks :
  procs (k_ps k) !! j = Some e ->
  (upd_proc j (set_tf (ks + 4020)) ;;
   kstore32 (ks + 4016) sym_trapret ;;
   upd_proc j (set_context (ks + 3996)) ;;
   on_ms (fun m => set_ram (memset (ram m) (V2P (ks + 3996)) 0 20) m) ;;
   kstore32 (ks + 4012) sym_forkret ;;
   ret (Some j)) (with_slot j a k) =
  Done (Some j) (set_k_ms (set_ram (new_stack (ram (k_ms k)) ks) (k_ms k))
    (with_slot j (set_context (ks + 3996) (set_tf (ks + 4020) a)) k)).
Proof.
  intros He. rewrite bind_eq, (upd_again _ _ _ _ _ He). cbn [res_bind]. unfold kstore32 at 1, on_ms at 1.
  rewrite bind_eq, modify_eq. cbn [res_bind]. set (m1 := set_ram _ _). set (a1 := set_tf _ a).
  change (set_k_ms m1 (with_slot j a1 k)) with (with_slot j a1 (set_k_ms m1 k)).
  rewrite bind_eq, (upd_again (set_k_ms m1 k) _ _ _ _ He). done.
Qed.

(** The state [allocproc] leaves, up to locks: the table with the new slot, and the
    memory with the new stack. *)
Definition alloc_state (k : K) (j : nat) (p : proc) (l : list Z) : option nat * K :=
  let n := nextpid (k_ps k) in
  let e := embryo n (ticks (k_ps k)) p in
  let ps a := set_nextpid (n + 1) (set_procs (<[j := a]> (procs (k_ps k))) (k_ps k)) in
  match l with
  | [] => (None, set_k_ps (ps (set_state UNUSED (set_kstack 0 e))) k)
  | ks :: _ => (Some j, set_k_ms (set_ram (new_stack (ram (k_ms k)) ks) (popped_page (k_ms k)))
      (set_k_ps (ps (set_context (ks + 3996) (set_tf (ks + 4020) (set_kstack ks e)))) k))
  end.

Lemma allocproc_holds k c j p l
    (Hk : holds k c 0 []) (Hlen : length (procs (k_ps k)) = 64%nat) (Hm : kmem_inv k l)
    (Hf : first_slot (fun p => bool_decide (state p = UNUSED)) (procs (k_ps k)) j) (Hp : procs (k_ps k) !! j = Some p)
    (Hn : nextpid (k_ps k) < 2 ^ 31 - 1) :
  runs allocproc k (fun r k' => holds k' c 0 [] /\ r = (alloc_state k j p l).1 /\ core k' = core (alloc_state k j p l).2).
Proof.
  unfold alloc_state. set (n := nextpid (k_ps k)). set (e := embryo n (ticks (k_ps k)) p).
  unfold runs, allocproc. wp_call (acquire_holds k c 0 [] LKptable Hk (not_elem_of_nil _)); [|lia]. intros _ k1 [Hk1 Hc1].
  pose proof (core_ps _ _ Hc1) as Eps. rewrite bind_eq, (find_unused_eq k1 j) by (by rewrite Eps). cbn [res_bind].
  rewrite bind_eq, (init_slot_eq k1 j p) by (by rewrite Eps). cbn [res_bind]. rewrite Eps. fold n. fold e.
  set (ps := set_nextpid _ _).
  wp_call (release_holds (set_k_ps ps k1) c 0 [] LKptable (holds_set_ps _ _ _ _ _ Hk1) (not_elem_of_nil _)); [|lia].
  intros _ k2 [Hk2 Hc2]. rewrite core_set_ps, Hc1, <- core_set_ps in Hc2.
  assert (kmem_inv k2 l) as Hm2 by (destruct Hm as [M1 M2 M3]; split; rewrite ?(core_ms _ _ Hc2); done).
  wp_call (kalloc_holds k2 c 0 [] l Hk2); [|apply not_elem_of_nil|lia|done].
  intros r k3 (Hk3 & -> & _ & Hc3). rewrite core_set_ms, Hc2, <-core_set_ms, (core_ms _ _ Hc2) in Hc3. cbn [k_ms set_k_ps] in Hc3.
  pose proof (core_ps _ _ Hc3) as Eps3. cbn [k_ps set_k_ms set_k_ps] in Eps3.
  assert (procs (k_ps k3) !! j = Some e) as He.
  { rewrite Eps3. apply list_lookup_insert_eq. by eapply lookup_lt_Some. }
  rewrite bind_eq, (upd_slot _ _ _ _ He). cbn [res_bind].
  assert (forall a, core (with_slot j a k3) = core (set_k_ms (popped_page (k_ms k)) (set_k_ps (set_nextpid (n + 1) (set_procs (<[j := a]> (procs (k_ps k))) (k_ps k))) k))) as Hslot.
  { intros a. unfold with_slot. rewrite core_set_ps, Hc3, Eps3. cbn. by rewrite list_insert_insert_eq. }
  destruct l as [|ks l]; cbn [hd fst snd].
  - change (0 =? 0) with true. cbv iota. rewrite bind_eq, (upd_again _ _ _ _ _ He). cbn [res_bind]. kred.
    split; [by apply holds_set_ps|]. split; [done|]. rewrite Hslot. unfold popped_page. rewrite (km_list _ _ Hm). by destruct k.
  - assert (page_ok ks) as Hks by (apply (Forall_inv (km_pages _ _ Hm))). destruct (page_ok_V2P ks Hks) as [_ Hgt].
    unfold KERNBASE in Hgt. replace (ks =? 0) with false by lia. cbv iota zeta. change KSTACKSIZE with 4096.
    change (Z.of_nat sizeof_tf) with 76. change sizeof_context with 20. change context_eip with 16.
    replace (ks + 4096 - 76) with (ks + 4020) by lia. replace (ks + 4020 - 4) with (ks + 4016) by lia.
    replace (ks + 4016 - 20) with (ks + 3996) by lia. replace (ks + 3996 + 16) with (ks + 4012) by lia.
    rewrite (new_stack_eq k3 j e _ ks He). cbn [wp]. split; [eapply holds_ext; [..|exact Hk3]; done|]. split; [done|].
    rewrite core_set_ms, Hslot, <-core_set_ms, (core_ms _ _ Hc3). cbn [k_ms set_k_ms]. by rewrite popped_page_ram.
Qed.

(** The rest of the free list. *)
Lemma alloc_state_kmem k j p l : kmem_inv k l -> kmem_inv (alloc_state k j p l).2 (tail l).
Proof.
  intros Hm. destruct l as [|ks l]; [by destruct Hm|]. set (k1 := set_k_ms (popped_page (k_ms k)) k).
  destruct (popped_inv k k1 _ Hm eq_refl) as [_ Hm1]. pose proof (km_pages _ _ Hm) as Hpp. rewrite list.Forall_forall in Hpp.
  pose proof (km_nodup _ _ Hm) as [Hnk _]%list.NoDup_cons. apply (kmem_same k1); [done|done|]. intros pg x Hpg Hx.
  cbn. rewrite popped_page_ram. apply new_stack_spec; [apply Hpp; by left|].
  apply (pages_apart pg ks); [apply Hpp; by right|apply Hpp; by left| |done]. intros ->. by apply Hnk.
Qed.

(** [allocproc] takes the first free slot, gives it the next process id and
    a kernel stack on which the new process starts in [forkret] and returns
    through [trapret]; when there is no page for the stack the slot is free
    again.  In both cases the slot keeps the killed flag it had, and in the
    second the free slot keeps the process id. *)
Theorem allocproc_allocates k c j p l
    (Hk : holds k c 0 []) (Hlen : length (procs (k_ps k)) = 64%nat) (Hm : kmem_inv k l)
    (Hf : first_slot (fun p => bool_decide (state p = UNUSED)) (procs (k_ps k)) j) (Hp : procs (k_ps k) !! j = Some p)
    (Hn : nextpid (k_ps k) < 2 ^ 31 - 1) :
  let n := nextpid (k_ps k) in let e := embryo n (ticks (k_ps k)) p in
  runs allocproc k (fun r k' => holds k' c 0 [] /\ nextpid (k_ps k') = n + 1 /\ kmem_inv k' (tail l) /\ pid e = n /\
    killed e = killed p /\
    match l with
    | [] => r = None /\ procs (k_ps k') = <[j := set_state UNUSED (set_kstack 0 e)]> (procs (k_ps k))
    | ks :: _ => r = Some j /\
        procs (k_ps k') = <[j := set_context (ks + 3996) (set_tf (ks + 4020) (set_kstack ks e))]> (procs (k_ps k)) /\
        ld32 (ram (k_ms k')) (V2P (ks + 4012)) = u32 sym_forkret /\ ld32 (ram (k_ms k')) (V2P (ks + 4016)) = u32 sym_trapret /\
        forall x, ~ in_page ks x -> ld8 (ram (k_ms k')) x = ld8 (ram (k_ms k)) x
    end).
Proof.
  cbv zeta. eapply runs_mono; [by apply (allocproc_holds k c j p l)|]. intros r k' (Hk' & -> & Hc).
  pose proof (alloc_state_kmem k j p l Hm) as Hm'. pose proof (core_ps _ _ Hc) as Eps. pose proof (core_ms _ _ Hc) as Ems.
  split; [done|]. split; [rewrite Eps; by destruct l|]. split; [by eapply kmem_same; [exact Hm'|rewrite Ems..]|].
  split; [unfold embryo; by destruct (_ =? 1)|]. split; [unfold embryo; by destruct (_ =? 1)|].
  destruct l as [|ks l]; (split; [done|]); rewrite Eps, ?Ems; (split || idtac); try done.
  apply new_stack_spec, (Forall_inv (km_pages _ _ Hm)).
Qed.

(** ** thread_join *)

(** The test that skips a slot. *)
Definition joins (cp : proc) (tid : Z) (p : proc) : bool := (first_pid p =? first_pid cp) && (pid p =? tid).

Lemma scan_threads_main k l1 j l2 i tid cp p :
  procs (k_ps k) !! i = Some cp -> procs (k_ps k) !! j = Some p -> j <> i ->
  joins cp tid p = true -> pid p = first_pid p ->
  (forall x, x ∈ l1 -> x = i \/ exists px, procs (k_ps k) !! x = Some px /\ joins cp tid px = false) ->
  forall b, scan_threads (l1 ++ j :: l2) i tid b k = Done (inl (-2)) k.
Proof.
  intros Hi Hj Hne Hjoin Hmain. induction l1 as [|x l1 IH]; intros Hl1 b; cbn [app scan_threads].
  - rewrite bind_eq, (get_proc_at _ _ _ Hj). cbn [res_bind]. rewrite bind_eq, (get_proc_at _ _ _ Hi). cbn [res_bind].
    apply andb_prop in Hjoin as [E1 E2]. apply Nat.eqb_neq in Hne. rewrite Hne, E1, E2. cbn [negb orb].
    rewrite Hmain, Z.eqb_refl. done.
  - assert (exists px, procs (k_ps k) !! x = Some px /\ (Nat.eqb x i || negb (first_pid px =? first_pid cp) || negb (pid px =? tid)) = true)
      as (px & Hx & Ex).
    { destruct (Hl1 x) as [->|(px & Hx & Ex)]; [set_solver|exists cp; by rewrite Nat.eqb_refl|].
      exists px. split; [done|]. unfold joins in Ex. destruct (x =? i)%nat; [done|]. by destruct (first_pid px =? first_pid cp), (pid px =? tid). }
    rewrite bind_eq, (get_proc_at _ _ _ Hx). cbn [res_bind]. rewrite bind_eq, (get_proc_at _ _ _ Hi). cbn [res_bind].
    rewrite Ex. apply IH. set_solver.
Qed.

(** C31. A thread that joins the process it belongs to (the one whose id is the
    thread's [first_pid]) gets -2 with the lock of the process table still held:
    the next [acquire] of that lock on the CPU panics. *)
Theorem thread_join_keeps_lock k c i q tid j cp p
    (Hm : me k c i q) (Hi : procs (k_ps k) !! i = Some cp) (Hj : procs (k_ps k) !! j = Some p) (Hne : j <> i)
    (Htid : tid <> pid cp) (Hjoin : joins cp tid p = true) (Hmain : pid p = first_pid p)
    (Hfirst : forall x, (x < j)%nat -> x = i \/ exists px, procs (k_ps k) !! x = Some px /\ joins cp tid px = false) :
  runs (thread_join tid) k (fun r k' => r = -2 /\ holds k' c 1 [LKptable] /\ k_ps k' = k_ps k /\
    exists k'', acquire LKptable k' = Panic "acquire" k'').
Proof.
  unfold runs, thread_join, curproc. rewrite bind_eq, wp_bind, bind_eq, wp_bind.
  eapply wp_mono; [|apply (myproc_holds k c 0 [] (me_holds _ _ _ _ Hm)); lia]. intros o k1 (-> & Hk1 & Hc1).
  rewrite (me_on _ _ _ _ Hm). cbn [deref]. rewrite ret_eq. cbn [wp].
  rewrite bind_eq, (get_proc_at k1 i cp) by (by rewrite (core_ps _ _ Hc1)). cbn [res_bind].
  apply Z.eqb_neq in Htid. rewrite Htid.
  wp_call (acquire_holds k1 c 0 [] LKptable Hk1 (not_elem_of_nil _)); [|lia]. intros _ k2 [Hk2 Hc2].
  assert (k_ps k2 = k_ps k) as Eps by (rewrite (core_ps _ _ Hc2); apply (core_ps _ _ Hc1)).
  pose proof (lookup_lt_Some _ _ _ Hj) as Hjl. rewrite (me_len _ _ _ _ Hm) in Hjl.
  unfold fuel. erewrite loop_done.
  2:{ rewrite bind_eq, (slots_split j) by done. rewrite (scan_threads_main k2 _ j _ i tid cp p); rewrite ?Eps; try done.
      intros x [_ Hx]%elem_of_seq. apply Hfirst. lia. }
  cbn [wp]. split; [done|]. split; [exact Hk2|]. split; [done|].
  apply (acquire_again_panics k2 c 1 [LKptable] LKptable Hk2); [set_solver|lia].
Qed.

(** ** kill *)

(** C32. [kill] of a process id that only free slots have, 0 among them, succeeds
    and leaves the killed flag set in the first of them; [allocproc] does not
    clear it, so that the next process of that slot is killed from the start. *)
Theorem kill_marks_free_slot k c j p id
    (Hk : holds k c 0 []) (Hlen : length (procs (k_ps k)) = 64%nat)
    (Hf : first_slot (fun p => pid p =? id) (procs (k_ps k)) j) (Hp : procs (k_ps k) !! j = Some p) (Hu : state p = UNUSED) :
  runs (kill id) k (fun r k' => r = 0 /\ holds k' c 0 [] /\ procs (k_ps k') = <[j := set_killed 1 p]> (procs (k_ps k)) /\
    forall n t, killed (embryo n t (set_killed 1 p)) = 1).
Proof.
  unfold runs, kill. wp_call (acquire_holds k c 0 [] LKptable Hk (not_elem_of_nil _)); [|lia]. intros _ k1 [Hk1 Hc1].
  pose proof (core_ps _ _ Hc1) as Eps. destruct Hf as [(p' & Hp' & Hid) Hb]. rewrite Hp in Hp'. injection Hp' as <-.
  pose proof (lookup_lt_Some _ _ _ Hp) as Hjl. rewrite Hlen in Hjl.
  destruct (proj1 (runs_Done _ _ _) (release_holds (with_slot j (set_killed 1 p) k1) c 0 [] LKptable
    (holds_set_ps _ _ _ _ _ Hk1) (not_elem_of_nil _) ltac:(lia))) as (? & k2 & Er & Hk2 & Hc2).
  rewrite bind_eq, (slots_split j) by done. erewrite (for_each_until _ _ _ _ k1 k2 tt).
  - cbn [res_bind]. kred. split; [done|]. split; [done|]. rewrite (core_ps _ _ Hc2). simpl. rewrite Eps. split; [done|].
    intros n t. unfold embryo. by destruct (n =? 1).
  - intros i Hi. apply elem_of_seq in Hi. destruct (lookup_lt_is_Some_2 (procs (k_ps k)) i) as [px Hx]; [lia|].
    rewrite bind_eq, (get_proc_at k1 i px) by (by rewrite Eps). cbn [res_bind]. by rewrite (Hb i px) by (lia || done).
  - assert (procs (k_ps k1) !! j = Some p) as Hp1 by (by rewrite Eps).
    rewrite bind_eq, (get_proc_at k1 j p Hp1). cbn [res_bind]. rewrite Hid. cbn [negb].
    rewrite bind_eq, (upd_slot _ _ _ _ Hp1). cbn [res_bind]. rewrite Hu. rewrite bool_decide_eq_false_2 by done.
    rewrite bind_eq, ret_eq. cbn [res_bind]. rewrite bind_eq, Er. cbn [res_bind when]. kred. done.
Qed.

End ProcOps.

(** ** Concrete states *)

(** One free page. *)
Definition kernel_page : K := set_k_ms (mkMs ∅ 1 0x80120000 0x80130000) (kernel_fs (kernel_running 0 ∅) fs0).

Lemma kernel_page_holds : holds kernel_page 0 0 [].
Proof. destruct kernel_running_holds. by split. Qed.

Lemma kernel_page_kmem : kmem_inv kernel_page [0x80120000].
Proof.
  split; [done|by apply NoDup_singleton|]. repeat constructor; simpl; unfold V2P, PHYSTOP, KERNBASE; (by vm_compute) || lia.
Qed.

Lemma table_running_first (f : proc -> bool) :
  f (proc_in SLEEPING 1 1 10) = false -> f (proc_in RUNNING 2 3 10) = false -> f (proc_in RUNNABLE 3 2 30) = false ->
  f proc0 = true -> first_slot f table_running 3.
Proof.
  intros H0 H1 H2 H3. split; [by exists proc0|]. intros i p Hi Hp.
  destruct i as [|[|[|i]]]; [by injection Hp as <-..|lia].
Qed.

Lemma allocproc_allocates_witness :
  runs allocproc kernel_page (fun r k' => r = Some 3%nat /\ nextpid (k_ps k') = 5 /\ kmem_inv k' [] /\
    exists p, procs (k_ps k') !! 3%nat = Some p /\ pid p = 4 /\ state p = EMBRYO /\ kstack p = 0x80120000).
Proof.
  pose proof (allocproc_allocates kernel_page 0 3 proc0 [0x80120000] kernel_page_holds eq_refl kernel_page_kmem
    (table_running_first _ eq_refl eq_refl eq_refl eq_refl) eq_refl ltac:(simpl; lia)) as H. cbv zeta in H.
  eapply runs_mono; [exact H|]. intros r k' (_ & Hn & Hm & _ & _ & -> & Ep & _).
  split; [done|]. split; [exact Hn|]. split; [exact Hm|]. eexists. rewrite Ep. split; [by vm_compute|]. done.
Defined.

(** Slot 1 runs a thread of the process in slot 2. *)
Definition kernel_thread : K :=
  set_k_ps (set_procs (<[1%nat := set_first_pid 3 (proc_in RUNNING 2 3 10)]> table_running) (k_ps kernel_page)) kernel_page.

Lemma kernel_thread_me : me kernel_thread 0 1 2.
Proof. split; try done; [|by eexists]. destruct kernel_page_holds. by split. Qed.

Lemma thread_join_keeps_lock_witness :
  runs (thread_join 3) kernel_thread (fun r k' => r = -2 /\ exists k'', acquire LKptable k' = Panic "acquire" k'').
Proof.
  eapply runs_mono; [exact (thread_join_keeps_lock kernel_thread 0 1 2 3 2 (set_first_pid 3 (proc_in RUNNING 2 3 10))
    (proc_in RUNNABLE 3 2 30) kernel_thread_me eq_refl eq_refl ltac:(done) ltac:(done) eq_refl eq_refl
    ltac:(intros [|[|x]] Hx; [right; by eexists|by left|lia]))|].
  intros r k' (-> & _ & _ & H). done.
Defined.

Lemma kill_marks_free_slot_witness :
  runs (kill 0) kernel_page (fun r k' => r = 0 /\ procs (k_ps k') !! 3%nat = Some (set_killed 1 proc0)).
Proof.
  eapply runs_mono; [exact (kill_marks_free_slot kernel_page 0 3 proc0 0 kernel_page_holds eq_refl
    (table_running_first _ eq_refl eq_refl eq_refl eq_refl) eq_refl eq_refl)|].
  intros r k' (-> & _ & Ep & _). split; [done|]. by rewrite Ep.
Defined.
