(* ===== verification/Fork.v ===== *)
(** * Making a process (proc.c: fork)

    [fork] on every branch: the child gets a slot, a kernel stack with a copy of
    the trap frame, an address space with the contents of the caller's, and its
    files; or the caller gets -1 with no page lost. *)

From S2P Require Import Prelude Params State Mem Spinlock Seg Str Cprintf Kalloc Vm VmSpec AddrSpace UserMem Proc ProcSpec ProcRefine SleepWake FsState Sleeplock.
From S2P Require Import SleeplockSpec BlockDev Ide Bio Log Inode Console Fs Pipe File ProcLife ProcOps Demo DemoFs.

(** ** What a process inherits *)

Definition slot (j : nat) (a : proc) (ps : pstate) : pstate := set_procs (<[j := a]> (procs ps)) ps.

(** One more descriptor refers to file [f]. *)
Definition dup_file (f : nat) (s : fstate) : fstate :=
  set_files (alter (fun ff => set_f_ref (f_ref ff + 1) ff) f (files s)) s.

Definition dup_files (l : list (option nat)) (s : fstate) : fstate :=
  foldl (fun s o => match o with Some f => dup_file f s | None => s end) s l.

Definition dup_inode (i : nat) (s : fstate) : fstate :=
  set_inodes (alter (fun ip => set_i_ref (i_ref ip + 1) ip) i (inodes s)) s.

(** Of [own], the first [n] descriptors are those of [fds] where it has one. *)
Definition inherited (n : nat) (fds own : list (option nat)) : list (option nat) :=
  imap (fun x o => if (x <? n)%nat then match fds !! x with Some (Some f) => Some f | _ => o end else o) own.

(** The descriptors refer to open files. *)
Definition files_open (s : fstate) (fds : list (option nat)) : Prop :=
  Forall (fun o => match o with Some f => exists ff, files s !! f = Some ff /\ 1 <= f_ref ff | None => True end) fds.

(** The number of descriptors that refer to [f]. *)
Definition refs (f : nat) (fds : list (option nat)) : Z := Z.of_nat (length (filter (fun o => o = Some f) fds)).

Lemma dup_file_open f s fds : files_open s fds -> files_open (dup_file f s) fds.
Proof.
  apply Forall_impl. intros [g|] H; [|done]. destruct H as (ff & Hf & Hr). unfold dup_file. cbn [files set_files].
  destruct (decide (f = g)) as [->|Hne].
  - rewrite list_lookup_alter_eq, Hf. eexists. split; [done|]. cbn. lia.
  - rewrite list_lookup_alter_ne by done. by exists ff.
Qed.

(** Every file gets a reference for each descriptor copied. *)
Lemma dup_files_refs fds : forall s f ff, files s !! f = Some ff -> files (dup_files fds s) !! f = Some (set_f_ref (f_ref ff + refs f fds) ff).
Proof.
  induction fds as [|o fds IH]; intros s f ff Hf.
  - unfold refs. cbn. rewrite Z.add_0_r, Hf. by destruct ff.
  - change (dup_files (o :: fds) s) with (dup_files fds (match o with Some f => dup_file f s | None => s end)). unfold refs. rewrite filter_cons.
    destruct o as [g|].
    + destruct (decide (Some g = Some f)) as [[= ->]|Hne].
      * rewrite (IH _ _ (set_f_ref (f_ref ff + 1) ff)); [|unfold dup_file; cbn [files set_files]; by rewrite list_lookup_alter_eq, Hf].
        cbn. unfold refs, set_f_ref. cbn. do 2 f_equal. lia.
      * apply IH. unfold dup_file. cbn [files set_files]. rewrite list_lookup_alter_ne; [done|congruence].
    + rewrite decide_False by done. by apply IH.
Qed.

Lemma length_inherited n fds own : length (inherited n fds own) = length own.
Proof. apply length_imap. Qed.

Lemma inherited_0 fds own : inherited 0 fds own = own.
Proof. apply list_eq. intros x. unfold inherited. rewrite list_lookup_imap. by destruct (own !! x). Qed.

Lemma inherited_S n fds own o : fds !! n = Some o -> length own = length fds ->
  inherited (S n) fds own = match o with Some f => <[n := Some f]> (inherited n fds own) | None => inherited n fds own end.
Proof.
  intros Ho Hlen. pose proof (lookup_lt_Some _ _ _ Ho) as Hn. apply list_eq. intros x.
  assert (forall y, inherited y fds own !! x = (fun v => if (x <? y)%nat then match fds !! x with Some (Some f) => Some f | _ => v end else v) <$> own !! x) as Hl
    by (intros y; unfold inherited; by rewrite list_lookup_imap).
  destruct (decide (x = n)) as [->|Hne].
  - rewrite Hl, Ho. destruct (lookup_lt_is_Some_2 own n) as [v Hv]; [lia|]. rewrite Hv. cbn [fmap option_fmap option_map].
    rewrite (proj2 (Nat.ltb_lt _ _)) by lia. destruct o as [f|].
    + by rewrite list_lookup_insert_eq by (rewrite length_inherited; lia).
    + rewrite Hl, Hv. cbn [fmap option_fmap option_map]. by rewrite (proj2 (Nat.ltb_ge _ _)) by lia.
  - assert ((x <? S n)%nat = (x <? n)%nat) as E by (destruct (Nat.ltb_spec x (S n)), (Nat.ltb_spec x n); lia || done).
    destruct o as [f|]; rewrite ?list_lookup_insert_ne by done; by rewrite !Hl, E.
Qed.

(** An address space is a matter of memory alone. *)
Lemma uspace_ms {F G} {LK : Linker} (k : kernel F) (k' : kernel G) d ps T fl : k_ms k' = k_ms k -> uspace k d ps T fl -> uspace k' d ps T fl.
Proof.
  destruct k as [? ? ? ? m ? ?], k' as [? ? ? ? m' ? ?]. cbn [k_ms]. intros -> [[[? ? ?] ? ? ? ? ? ? ?] ? ? ?].
  constructor; [constructor; [constructor; assumption|assumption..]|assumption..].
Qed.

Lemma slot_twice j a b ps : slot j a (slot j b ps) = slot j a ps.
Proof. unfold slot. cbn. by rewrite list_insert_insert_eq. Qed.

(** The memory after [*np->tf = *curproc->tf; np->tf->eax = 0]. *)
Definition copied_tf (m : gmap Z Z) (src dst : Z) : gmap Z Z := st32 (st m (V2P dst) (ld m (V2P src) 76)) (V2P (dst + 28)) 0.

(** The policy of CPU [c]. *)
Definition policy (c : nat) (k : K) : Z := match cpus (k_hw k) !! c with Some cc => schedAlg cc | None => 0 end.

(** A process that becomes runnable preempts under the policies 2 and 3; the caller
    is then runnable, its time on the CPU charged. *)
Definition preempts (c : nat) (k : K) : bool := (policy c k =? 2) || (policy c k =? 3).

Definition preempted (i : nat) (ps : pstate) : pstate := upd i (fun p => charge_cpu (ticks ps) (set_state RUNNABLE p)) ps.

Section Fork.
Context {LK : Linker} {LKO : LinkerOk} {FU : Fuel} {BD : BlockDev}.
Implicit Types (k : K).

(** [k] is [k0] but for its process table, memory and file system; CPU [c] holds the
    locks [H]. *)
Record stage (c : nat) (k0 : K) (n : Z) (H : list lockid) (k : K) (ps : pstate) (ms : mstate) (fs : fstate) : Prop := {
  sg_holds : holds k c n H;
  sg_core : core k = core (set_k_fs fs (set_k_ms ms (set_k_ps ps k0)))
}.

Context (c : nat) (k0 : K).

Section Stage.
Context (n : Z) (H : list lockid) (k : K) (ps : pstate) (ms : mstate) (fs : fstate) (Hs : stage c k0 n H k ps ms fs).

Lemma stage_ps : k_ps k = ps.
Proof. exact (core_ps _ _ (sg_core _ _ _ _ _ _ _ _ Hs)). Qed.

Lemma stage_ms : k_ms k = ms.
Proof. exact (core_ms _ _ (sg_core _ _ _ _ _ _ _ _ Hs)). Qed.

Lemma stage_fs : k_fs k = fs.
Proof. exact (core_fs _ _ (sg_core _ _ _ _ _ _ _ _ Hs)). Qed.

Lemma stage_get i p : procs ps !! i = Some p -> get_proc i k = Done p k.
Proof. intros Hp. apply get_proc_at. by rewrite stage_ps. Qed.

Lemma stage_upd j a f : procs ps !! j = Some a -> exists k', upd_proc j f k = Done tt k' /\ stage c k0 n H k' (slot j (f a) ps) ms fs.
Proof.
  intros Hp. rewrite (upd_slot k j a) by (by rewrite stage_ps). eexists. split; [done|]. destruct Hs as [Hk Hc].
  split; [by apply holds_set_ps|]. unfold with_slot. rewrite core_set_ps, Hc, stage_ps. done.
Qed.

Lemma stage_on_ps f : exists k', on_ps f k = Done tt k' /\ stage c k0 n H k' (f ps) ms fs.
Proof.
  unfold on_ps. rewrite modify_eq. eexists. split; [done|]. destruct Hs as [Hk Hc]. split; [by apply holds_set_ps|]. by rewrite core_set_ps, Hc, stage_ps.
Qed.

Lemma stage_on_ms f : exists k', on_ms f k = Done tt k' /\ stage c k0 n H k' ps (f ms) fs.
Proof.
  unfold on_ms. rewrite modify_eq. eexists. split; [done|]. destruct Hs as [Hk Hc]. split; [by eapply holds_ext; [..|exact Hk]|]. by rewrite core_set_ms, Hc, stage_ms.
Qed.

Lemma stage_on_fs f : exists k', on_fs f k = Done tt k' /\ stage c k0 n H k' ps ms (f fs).
Proof.
  unfold on_fs. rewrite modify_eq. eexists. split; [done|]. destruct Hs as [Hk Hc]. split; [by eapply holds_ext; [..|exact Hk]|]. by rewrite core_set_fs, Hc, stage_fs.
Qed.

Lemma stage_acquire lk : lk ∉ H -> n < 2 ^ 30 - 2 -> runs (acquire lk) k (fun _ k' => stage c k0 (n + 1) (lk :: H) k' ps ms fs).
Proof.
  intros Hl Hn. destruct Hs as [Hk Hc]. eapply runs_mono; [apply (acquire_holds k c n H lk Hk Hl); lia|].
  intros _ k' [Hk' Hc']. split; [done|]. by rewrite Hc'.
Qed.
End Stage.

Lemma stage_release n H k ps ms fs lk : stage c k0 (n + 1) (lk :: H) k ps ms fs -> lk ∉ H -> 0 <= n < 2 ^ 30 - 2 ->
  runs (release lk) k (fun _ k' => stage c k0 n H k' ps ms fs).
Proof.
  intros [Hk Hc] Hl Hn. eapply runs_mono; [apply (release_holds k c n H lk Hk Hl); lia|].
  intros _ k' [Hk' Hc']. split; [done|]. by rewrite Hc'.
Qed.

(** ** The steps of fork *)

Lemma filedup_stage k ps ms fs f ff : stage c k0 0 [] k ps ms fs -> files fs !! f = Some ff -> 1 <= f_ref ff ->
  runs (filedup f) k (fun r k' => r = f /\ stage c k0 0 [] k' ps ms (dup_file f fs)).
Proof.
  intros Hs Hf Hr. unfold runs, filedup. wp_call (stage_acquire _ _ _ _ _ _ Hs LKftable); [|apply not_elem_of_nil|lia]. intros [] k1 Hs1.
  assert (get_file f k1 = Done ff k1) as Eg by (unfold get_file, get_fs; kred; rewrite (stage_fs _ _ _ _ _ _ Hs1), Hf; by kred).
  rewrite bind_eq, Eg. cbn [res_bind]. rewrite (proj2 (Z.ltb_ge _ _)) by lia. unfold upd_file. rewrite !bind_eq, Eg. cbn [res_bind].
  destruct (stage_on_fs _ _ _ _ _ _ Hs1 (fun s => set_files (alter (fun ff => set_f_ref (f_ref ff + 1) ff) f (files s)) s)) as (k2 & E & Hs2). rewrite E. cbn [res_bind].
  wp_call (stage_release 0 [] k2 ps ms (dup_file f fs) LKftable Hs2); [|apply not_elem_of_nil|lia]. intros [] k3 Hs3. kred. done.
Qed.

Lemma idup_stage k ps ms fs i : stage c k0 0 [] k ps ms fs -> is_Some (inodes fs !! i) ->
  runs (idup i) k (fun r k' => r = i /\ stage c k0 0 [] k' ps ms (dup_inode i fs)).
Proof.
  intros Hs [ip Hi]. unfold runs, idup. wp_call (stage_acquire _ _ _ _ _ _ Hs LKicache); [|apply not_elem_of_nil|lia]. intros [] k1 Hs1.
  assert (get_inode i k1 = Done ip k1) as Eg by (unfold get_inode, get_fs; kred; rewrite (stage_fs _ _ _ _ _ _ Hs1), Hi; by kred).
  unfold upd_inode. rewrite !bind_eq, Eg. cbn [res_bind].
  destruct (stage_on_fs _ _ _ _ _ _ Hs1 (fun s => set_inodes (alter (fun ip => set_i_ref (i_ref ip + 1) ip) i (inodes s)) s)) as (k2 & E & Hs2). rewrite E. cbn [res_bind].
  wp_call (stage_release 0 [] k2 ps ms (dup_inode i fs) LKicache Hs2); [|apply not_elem_of_nil|lia]. intros [] k3 Hs3. kred. done.
Qed.

Lemma slot_at j a ps : (j < length (procs ps))%nat -> procs (slot j a ps) !! j = Some a.
Proof. intros Hj. by apply list_lookup_insert_eq. Qed.

Lemma slot_other i j a ps : i <> j -> procs (slot j a ps) !! i = procs ps !! i.
Proof. intros Hne. unfold slot. cbn. by apply list_lookup_insert_ne. Qed.

(** A further change of the child's slot. *)
Lemma stage_child n H k j a ps ms fs f : stage c k0 n H k (slot j a ps) ms fs -> (j < length (procs ps))%nat ->
  exists k', upd_proc j f k = Done tt k' /\ stage c k0 n H k' (slot j (f a) ps) ms fs.
Proof. intros Hs Hj. rewrite <-(slot_twice j (f a) a). eapply stage_upd; [done|]. by apply slot_at. Qed.

Lemma dup_files_S fds a o s : fds !! a = Some o ->
  dup_files (take (S a) fds) s = match o with Some f => dup_file f (dup_files (take a fds) s) | None => dup_files (take a fds) s end.
Proof. intros Ho. unfold dup_files. by rewrite (take_S_r _ _ _ Ho), foldl_app. Qed.

Lemma dup_files_open l s fds : files_open s fds -> files_open (dup_files l s) fds.
Proof. revert s. induction l as [|[f|] l IH]; intros s Ho; [done|apply (IH (dup_file f s)); by apply dup_file_open|by apply (IH s)]. Qed.

Section Inherit.
Context (i j : nat) (p q : proc) (ps : pstate) (ms : mstate) (fs : fstate) (cw : nat).
Context (Hi : procs ps !! i = Some p) (Hij : i <> j) (Hj : (j < length (procs ps))%nat).
Context (Hp : length (ofile p) = 16%nat) (Hq : length (ofile q) = 16%nat) (Ho : files_open fs (ofile p)).
Context (Hcw : cwd p = Some cw) (Hin : is_Some (inodes fs !! cw)).

Lemma inherit_files m : forall a k, (a + m = 16)%nat ->
  stage c k0 0 [] k (slot j (set_ofile (inherited a (ofile p) (ofile q)) q) ps) ms (dup_files (take a (ofile p)) fs) ->
  runs (for_all (seq a m) (fun fd =>
    p <- get_proc i ;;
    match ofile p !!! fd with
    | Some f => f <- filedup f ;; upd_proc j (fun q => set_ofile (<[fd := Some f]> (ofile q)) q)
    | None => ret tt
    end)) k (fun _ k' => stage c k0 0 [] k' (slot j (set_ofile (inherited 16 (ofile p) (ofile q)) q) ps) ms (dup_files (ofile p) fs)).
Proof.
  induction m as [|m IH]; intros a k Ha Hs; cbn [seq].
  - replace a with 16%nat in Hs by lia. rewrite take_ge in Hs by lia. done.
  - unfold runs. destruct (lookup_lt_is_Some_2 (ofile p) a) as [o Eo]; [lia|].
    rewrite for_all_cons, bind_eq, (stage_get _ _ _ _ _ _ Hs i p) by (by rewrite slot_other). cbn [res_bind]. rewrite (list_lookup_total_correct _ _ _ Eo).
    pose proof (dup_files_S _ _ _ fs Eo) as Ed. pose proof (inherited_S a _ (ofile q) _ Eo ltac:(lia)) as Ein. destruct o as [f|].
    + destruct (proj1 (Forall_lookup _ _) (dup_files_open (take a (ofile p)) fs _ Ho) a _ Eo) as (ff & Hf & Hr).
      wp_call (filedup_stage _ _ _ _ f ff Hs Hf Hr). intros r k1 [-> Hs1].
      destruct (stage_child _ _ _ _ _ _ _ _ (fun q => set_ofile (<[a := Some f]> (ofile q)) q) Hs1 Hj) as (k2 & E & Hs2). rewrite E. cbn [wp].
      apply (IH (S a) k2); [lia|]. rewrite Ed, Ein. exact Hs2.
    + rewrite ret_eq. cbn [res_bind]. apply (IH (S a) k); [lia|]. rewrite Ed, Ein. exact Hs.
Qed.

Lemma inherit_stage k : stage c k0 0 [] k (slot j q ps) ms fs ->
  runs (inherit i j) k (fun _ k' => stage c k0 0 [] k'
    (slot j (set_name (safestrcpy (name q) (name p) 16) (set_cwd (Some cw) (set_ofile (inherited 16 (ofile p) (ofile q)) q))) ps) ms
    (dup_inode cw (dup_files (ofile p) fs))).
Proof.
  intros Hs. unfold runs, inherit. wp_call (inherit_files 16 0 k eq_refl).
  2:{ rewrite take_0, inherited_0. cbn. by replace (set_ofile (ofile q) q) with q by (by destruct q). }
  intros [] k1 Hs1. set (q1 := set_ofile _ q) in *.
  rewrite bind_eq, (stage_get _ _ _ _ _ _ Hs1 i p) by (by rewrite slot_other). cbn [res_bind]. rewrite bind_eq, Hcw. cbn [deref]. rewrite ret_eq. cbn [res_bind].
  wp_call (idup_stage _ _ _ _ cw Hs1).
  2:{ replace (inodes (dup_files (ofile p) fs)) with (inodes fs); [done|]. generalize (ofile p). intros l. clear. revert fs.
      induction l as [|[f|] l IH]; intros fs; [done|exact (IH (dup_file f fs))|exact (IH fs)]. }
  intros r k2 [-> Hs2]. destruct (stage_child _ _ _ _ _ _ _ _ (set_cwd (Some cw)) Hs2 Hj) as (k3 & E3 & Hs3). rewrite bind_eq, E3. cbn [res_bind].
  rewrite bind_eq, (stage_get _ _ _ _ _ _ Hs3 i p) by (by rewrite slot_other). cbn [res_bind].
  destruct (stage_child _ _ _ _ _ _ _ _ (fun q => set_name (safestrcpy (name q) (name p) 16) q) Hs3 Hj) as (k4 & E4 & Hs4). rewrite E4. exact Hs4.
Qed.
End Inherit.

Lemma make_runnable_stage k j q ps ms fs : stage c k0 0 [] k (slot j q ps) ms fs -> (j < length (procs ps))%nat ->
  runs (make_runnable j) k (fun _ k' => stage c k0 0 [] k'
    (set_totalTicketCount (s32 (totalTicketCount ps + ticketCount q)) (slot j (set_lastChangeTime (ticks ps) (set_state RUNNABLE q)) ps)) ms fs).
Proof.
  intros Hs Hj. unfold runs, make_runnable. wp_call (stage_acquire _ _ _ _ _ _ Hs LKptable); [|apply not_elem_of_nil|lia]. intros [] k1 Hs1.
  destruct (stage_child _ _ _ _ _ _ _ _ (set_state RUNNABLE) Hs1 Hj) as (k2 & E2 & Hs2). rewrite bind_eq, E2. cbn [res_bind].
  unfold get_ticks. rewrite bind_eq, gets_eq. cbn [res_bind]. rewrite (stage_ps _ _ _ _ _ _ Hs2). cbn [ticks slot set_procs].
  destruct (stage_child _ _ _ _ _ _ _ _ (set_lastChangeTime (ticks ps)) Hs2 Hj) as (k3 & E3 & Hs3). rewrite bind_eq, E3. cbn [res_bind].
  rewrite bind_eq, (stage_get _ _ _ _ _ _ Hs3 j _ (slot_at _ _ _ Hj)). cbn [res_bind]. unfold add_tickets.
  destruct (stage_on_ps _ _ _ _ _ _ Hs3 (fun ps => set_totalTicketCount (s32 (totalTicketCount ps + ticketCount (set_lastChangeTime (ticks ps) (set_state RUNNABLE q)))) ps)) as (k4 & E4 & Hs4).
  rewrite bind_eq. cbn [ticketCount set_lastChangeTime set_state] in E4 |- *. rewrite E4. cbn [res_bind].
  eapply stage_release; [exact Hs4|apply not_elem_of_nil|lia].
Qed.

Lemma stage_policy n H k ps ms fs cc : stage c k0 n H k ps ms fs -> cpus (k_hw k) !! c = Some cc -> schedAlg cc = policy c k0.
Proof.
  intros Hs Hcc. pose proof (f_equal (fun k => cpus (k_hw k) !! c) (sg_core _ _ _ _ _ _ _ _ Hs)) as Hc. cbn in Hc.
  rewrite !list_lookup_fmap, Hcc in Hc. unfold policy. destruct (cpus (k_hw k0) !! c) as [c0|]; [|done].
  exact (f_equal (fun o => match o with Some a => schedAlg a | None => 0 end) Hc).
Qed.

(** Under the policies with priorities the caller gives the CPU away, under the
    others it goes on. *)
Lemma preempt_check_hands i k ps ms fs (P : K -> Prop) : stage c k0 0 [] k ps ms fs -> proc_on c k0 = Some i -> is_Some (procs ps !! i) ->
  (preempts c k0 = true -> forall k1, core k1 = core (set_k_fs fs (set_k_ms ms (set_k_ps (preempted i ps) k0))) -> P k1) ->
  wp (handover i P) (preempt_check k) (fun _ k' => if preempts c k0 then exists c', holds k' c' 0 [] else stage c k0 0 [] k' ps ms fs).
Proof.
  intros Hs Hon Hi HP. pose proof (sg_holds _ _ _ _ _ _ _ _ Hs) as Hk. unfold preempt_check.
  wp_run (pushcli_holds k c 0 [] Hk); [|lia]. intros [] k1 (Hk1 & Hc1 & _). rewrite bind_eq, (mycpu_holds _ _ _ _ Hk1) by lia. cbn [res_bind].
  destruct (h_ncli _ _ _ _ Hk1) as (cc & Hcc & _). rewrite bind_eq, (get_cpu_eq _ _ _ Hcc). cbn [res_bind].
  assert (stage c k0 1 [] k1 ps ms fs) as Hs1 by (split; [done|]; rewrite Hc1; apply Hs).
  rewrite (stage_policy _ _ _ _ _ _ cc Hs1 Hcc). fold (preempts c k0).
  wp_run (popcli_holds k1 c 0 [] Hk1); [|lia]. intros [] k2 (Hk2 & Hc2 & _). assert (stage c k0 0 [] k2 ps ms fs) as Hs2 by (split; [done|]; rewrite Hc2; apply Hs1).
  destruct (preempts c k0) eqn:Ep; cbn [when]; [|rewrite ret_eq; exact Hs2].
  apply (yield_hands k2 c i); [done| |by rewrite (stage_ps _ _ _ _ _ _ Hs2)|].
  - rewrite <-Hon. pose proof (sg_core _ _ _ _ _ _ _ _ Hs2) as Hc. rewrite (core_proc_on c _ _ Hc). done.
  - intros k3 Hc3. apply HP; [done|]. rewrite Hc3, core_set_ps, (sg_core _ _ _ _ _ _ _ _ Hs2), (stage_ps _ _ _ _ _ _ Hs2). done.
Qed.

(** A new process or thread with id [n] has been made, or not. *)
Definition made (n : Z) (done : (pstate -> pstate) -> Z -> K -> Prop) (fails : Z -> K -> Prop) (r : Z) (k' : K) : Prop :=
  if preempts c k0 then r = n /\ (exists c', holds k' c' 0 []) \/ holds k' c 0 [] /\ fails r k'
  else holds k' c 0 [] /\ (done id r k' \/ fails r k').

Lemma made_fails n done fails r k' : holds k' c 0 [] -> fails r k' -> made n done fails r k'.
Proof. unfold made. destruct (preempts c k0); auto. Qed.

Lemma preempt_check_made i k ps ms fs n done fails : stage c k0 0 [] k ps ms fs -> proc_on c k0 = Some i -> is_Some (procs ps !! i) ->
  (forall tbl k', core k' = core (set_k_fs fs (set_k_ms ms (set_k_ps (tbl ps) k0))) -> done tbl n k') ->
  wp (handover i (fun k1 => preempts c k0 = true /\ done (preempted i) n k1)) (preempt_check k) (fun _ => made n done fails n).
Proof.
  intros Hs Hon Hi Hd. eapply wp_mono; [|apply (preempt_check_hands i k ps ms fs _ Hs Hon Hi); intros Ep k1 Hc; split; [done|by apply Hd]].
  intros [] k' Hk'. unfold made. destruct (preempts c k0); [by left|]. split; [apply Hk'|]. left. apply (Hd id), Hk'.
Qed.

Lemma copy_tf_stage k i j p q ps ms fs : stage c k0 0 [] k (slot j q ps) ms fs -> procs ps !! i = Some p -> i <> j -> (j < length (procs ps))%nat ->
  exists k', copy_tf i j k = Done tt k' /\ stage c k0 0 [] k' (slot j q ps) (set_ram (copied_tf (ram ms) (tf p) (tf q)) ms) fs.
Proof.
  intros Hs Hi Hij Hj. unfold copy_tf. rewrite bind_eq, (stage_get _ _ _ _ _ _ Hs i p) by (by rewrite slot_other). cbn [res_bind].
  rewrite bind_eq, (stage_get _ _ _ _ _ _ Hs j q) by (by apply slot_at). cbn [res_bind]. unfold kload. rewrite bind_eq, gets_eq. cbn [res_bind].
  rewrite (stage_ms _ _ _ _ _ _ Hs). unfold kstore.
  destruct (stage_on_ms _ _ _ _ _ _ Hs (fun m => set_ram (st (ram m) (V2P (tf q)) (ld (ram ms) (V2P (tf p)) sizeof_tf)) m)) as (k1 & E1 & Hs1). rewrite bind_eq, E1. cbn [res_bind].
  unfold kstore32. destruct (stage_on_ms _ _ _ _ _ _ Hs1 (fun m => set_ram (st32 (ram m) (V2P (tf q + tf_eax)) 0) m)) as (k2 & E2 & Hs2). by exists k2.
Qed.

Lemma stage_ms_only n H k k' ps ms fs n' H' : stage c k0 n H k ps ms fs -> holds k' c n' H' -> ms_only k k' -> stage c k0 n' H' k' ps (k_ms k') fs.
Proof.
  intros Hs Hk Ho. split; [done|]. unfold ms_only in Ho. pose proof (core_ms _ _ Ho) as Em. cbn [k_ms set_k_ms] in Em. rewrite <-Em in Ho.
  by rewrite Ho, core_set_ms, (sg_core _ _ _ _ _ _ _ _ Hs).
Qed.

(** The slot and its stack are given back. *)
Lemma abandon_stage k j q ps ms fs l : stage c k0 0 [] k (slot j q ps) ms fs -> (j < length (procs ps))%nat ->
  kmem_inv k l -> page_ok (kstack q) -> kstack q ∉ l ->
  runs (abandon j) k (fun _ k' => exists ms', stage c k0 0 [] k' (slot j (set_state UNUSED (set_kstack 0 q)) ps) ms' fs /\
    kmem_inv k' (kstack q :: l) /\ same_outside [kstack q] (ram ms) (ram ms')).
Proof.
  intros Hs Hj Hm Hp Hl. unfold runs, abandon. rewrite bind_eq, (stage_get _ _ _ _ _ _ Hs j q) by (by apply slot_at). cbn [res_bind].
  wp_call (kfree_holds k c 0 [] l (kstack q) (sg_holds _ _ _ _ _ _ _ _ Hs)); [|apply not_elem_of_nil|lia|done|done|done]. intros [] k1 (Hk1 & Hm1 & Hc1).
  assert (stage c k0 0 [] k1 (slot j q ps) (freed (k_ms k) (kstack q)) fs) as Hs1.
  { split; [done|]. rewrite Hc1, core_set_ms, (sg_core _ _ _ _ _ _ _ _ Hs). done. }
  destruct (stage_child _ _ _ _ _ _ _ _ (set_kstack 0) Hs1 Hj) as (k2 & E2 & Hs2). rewrite bind_eq, E2. cbn [res_bind].
  destruct (stage_child _ _ _ _ _ _ _ _ (set_state UNUSED) Hs2 Hj) as (k3 & E3 & Hs3). rewrite E3. cbn [wp].
  exists (freed (k_ms k) (kstack q)). split; [done|]. split.
  - apply (kmem_same k1); [done| |]; rewrite (stage_ms _ _ _ _ _ _ Hs3), (stage_ms _ _ _ _ _ _ Hs1); done.
  - rewrite (stage_ms _ _ _ _ _ _ Hs). intros x Hx. apply freed_outside. specialize (Hx (kstack q) ltac:(left)). lia.
Qed.

(** ** Memory *)

Lemma new_stack_bytes m ks : bytes_ok m -> bytes_ok (new_stack m ks).
Proof.
  intros Hb. unfold new_stack. apply bytes_ok_st32. intros x. rewrite ld8_memset by lia. case_decide; [by vm_compute|]. by apply bytes_ok_st32.
Qed.

(** The trap frame of the child, and the rest of memory. *)
Lemma copied_tf_spec m src ks : page_ok ks -> bytes_ok m ->
  bytes_ok (copied_tf m src (ks + 4020)) /\ (forall o, 0 <= o < 76 -> ld8 (copied_tf m src (ks + 4020)) (V2P (ks + 4020) + o) = if decide (28 <= o < 32) then 0 else ld8 m (V2P src + o)) /\
  forall x, x < V2P ks + 4020 \/ V2P ks + PGSIZE <= x -> ld8 (copied_tf m src (ks + 4020)) x = ld8 m x.
Proof.
  intros Hk Hb. unfold copied_tf. replace (ks + 4020 + 28) with (ks + 4048) by lia. rewrite !(V2P_off ks) by (done || (unfold PGSIZE; lia)). split; [|split].
  - apply bytes_ok_st32, bytes_ok_st; [done|]. by apply ld_bytes.
  - intros o Ho. unfold st32. rewrite ld8_st, length_le_bytes. destruct (decide (28 <= o < 32)) as [Hc|Hc].
    + rewrite decide_True by lia. change (le_bytes 4 0) with (replicate 4 0). rewrite lookup_replicate_2; [done|lia].
    + rewrite decide_False by lia. rewrite ld8_st, length_ld, decide_True by lia. rewrite lookup_ld by lia. cbn [default id]. f_equal. lia.
  - intros x Hx. unfold PGSIZE in Hx. rewrite ld8_st32_out by lia. apply ld8_st_out. rewrite length_ld. lia.
Qed.

Lemma embryo_pid n t f : pid (embryo n t f) = n.
Proof. unfold embryo. by destruct (n =? 1). Qed.

End Fork.

(** ** fork *)

(** Process [p] in slot [i] runs on CPU [c]; slot [j] is the first free one.  The
    pages of its address space are [us], its page tables [T], the free pages [fl],
    and its kernel stack with the trap frame is none of these. *)
Record forkable {LK : Linker} (k : K) (c i : nat) (p : proc) (j : nat) (f : proc) (us : list (Z * Z)) (T fl : list Z) : Prop := {
  fk_me : me k c i (pid p);
  fk_proc : procs (k_ps k) !! i = Some p;
  fk_used : state p <> UNUSED;
  fk_free : first_slot (fun p => bool_decide (state p = UNUSED)) (procs (k_ps k)) j;
  fk_slot : procs (k_ps k) !! j = Some f;
  fk_pid : nextpid (k_ps k) < 2 ^ 31 - 1;
  fk_space : uspace k (pgdir p) us T fl;
  fk_size : pages_to 0 (sz p) (length us) /\ 0 <= sz p /\ Z.of_nat (length us) * PGSIZE <= KERNBASE;
  fk_stack : page_ok (kstack p) /\ kstack p ∉ us.*1 ++ pgdir p :: T ++ fl /\ kstack p <= tf p <= kstack p + PGSIZE - 76;
  fk_files : length (ofile p) = 16%nat /\ length (ofile f) = 16%nat /\ files_open (k_fs k) (ofile p);
  fk_cwd : exists cw, cwd p = Some cw /\ is_Some (inodes (k_fs k) !! cw)
}.

(** The child [q] of [p] with id [n], of the process [fp], with an address space of
    [z] bytes, in a slot that was [f] before. *)
Record child_of (p f q : proc) (i : nat) (n fp z ks d : Z) : Prop := {
  ch_state : state q = RUNNABLE;
  ch_pid : pid q = n;
  ch_first_pid : first_pid q = fp;
  ch_parent : parent q = Some i;
  ch_sz : sz q = z;
  ch_pgdir : pgdir q = d;
  ch_kstack : kstack q = ks;
  ch_tf : tf q = ks + 4020;
  ch_context : context q = ks + 3996;
  ch_ofile : ofile q = inherited 16 (ofile p) (ofile f);
  ch_cwd : cwd q = cwd p;
  ch_name : name q = safestrcpy (name f) (name p) 16;
  ch_killed : killed q = killed f;
  ch_tickets : ticketCount q = 10
}.

(** The memory the child finds: an address space [us'] of its own in which every
    address is as for the caller, the trap frame of the caller with [eax] 0, and
    a stack that starts in [forkret] and returns through [trapret]. *)
Record fork_memory {LK : Linker} (k k' : K) (p : proc) (ks d : Z) (us us' : list (Z * Z)) (T T' fl fl' : list Z) : Prop := {
  fm_child : uspace k' d us' T' fl';
  fm_kernel : kernel_part k' d;
  fm_parent : uspace k' (pgdir p) us T fl';
  fm_pages : ks :: d :: T' ++ us'.*1 ++ fl' ≡ₚ fl;
  fm_flags : us'.*2 = us.*2;
  fm_copy : forall va w, 0 <= va < KERNBASE -> user_view (ram (k_ms k')) d va w = user_view (ram (k_ms k)) (pgdir p) va w;
  fm_view : forall va w, 0 <= va < KERNBASE -> user_view (ram (k_ms k')) (pgdir p) va w = user_view (ram (k_ms k)) (pgdir p) va w;
  fm_tf : forall o, 0 <= o < 76 -> ld8 (ram (k_ms k')) (V2P (ks + 4020) + o) = if decide (28 <= o < 32) then 0 else ld8 (ram (k_ms k)) (V2P (tf p) + o);
  fm_start : ld32 (ram (k_ms k')) (V2P (ks + 4012)) = u32 sym_forkret /\ ld32 (ram (k_ms k')) (V2P (ks + 4016)) = u32 sym_trapret
}.

Section Forks.
Context {LK : Linker} {LKO : LinkerOk} {FU : Fuel} {BD : BlockDev}.
Context (k0 : K) (c i : nat) (p : proc) (j : nat) (f : proc) (us : list (Z * Z)) (T fl : list Z) (HF : forkable k0 c i p j f us T fl).

(** A page of the free list is none of the others. *)
Lemma fork_free x : x ∈ fl -> page_ok x /\ x ∉ us.*1 ++ pgdir p :: T /\ x <> kstack p.
Proof.
  intros Hx. pose proof (fk_space _ _ _ _ _ _ _ _ _ HF) as HU. destruct (fk_stack _ _ _ _ _ _ _ _ _ HF) as (_ & Hk & _).
  split; [|split; [by eapply uspace_free|intros ->; apply Hk; set_solver]].
  exact (Forall_elem _ _ _ (km_pages _ _ (vi_kmem _ _ _ _ (us_vm _ _ _ _ _ HU))) Hx).
Qed.

(** What the caller sees does not change with the free pages. *)
Lemma fork_view m va w : same_outside fl (ram (k_ms k0)) m -> 0 <= va < KERNBASE ->
  user_view m (pgdir p) va w = user_view (ram (k_ms k0)) (pgdir p) va w.
Proof.
  intros Ho Hva. pose proof (fk_space _ _ _ _ _ _ _ _ _ HF) as HU.
  apply (view_frame k0 m (pgdir p) us T fl va w fl HU Ho); [|intros x Hx; by apply fork_free|done].
  exact (km_pages _ _ (vi_kmem _ _ _ _ (us_vm _ _ _ _ _ HU))).
Qed.

Section Memory.
Context (ks : Z) (fl1 : list Z) (Hfl : fl = ks :: fl1).

Lemma kstack_page : page_ok ks /\ ks ∉ us.*1 ++ pgdir p :: T ++ fl1 /\ ks <> kstack p.
Proof.
  destruct (fork_free ks) as (H1 & H2 & H3); [rewrite Hfl; left|]. split; [done|]. split; [|done].
  pose proof (km_nodup _ _ (vi_kmem _ _ _ _ (us_vm _ _ _ _ _ (fk_space _ _ _ _ _ _ _ _ _ HF)))) as Hn. rewrite Hfl in Hn. apply list.NoDup_cons in Hn as [Hn _]. set_solver.
Qed.

Context (k1 : K) (Hm1 : ram (k_ms k1) = new_stack (ram (k_ms k0)) ks).

Lemma kstack_frame : same_outside [ks] (ram (k_ms k0)) (ram (k_ms k1)).
Proof.
  destruct kstack_page as (Hk & _). rewrite Hm1. intros x Hx. apply (new_stack_spec (ram (k_ms k0)) ks Hk). apply Hx. left.
Qed.

Context (Hi1 : kmem_inv k1 fl1).

Lemma kstack_space : uspace k1 (pgdir p) us T fl1.
Proof.
  destruct kstack_page as (Hk & Hn & _). pose proof (fk_space _ _ _ _ _ _ _ _ _ HF) as HU. pose proof (us_apart _ _ _ _ _ HU) as Ha. rewrite Hfl in Ha.
  apply (uspace_frame k0 k1 (pgdir p) us T fl fl1 [ks]); [done|exact kstack_frame|by apply Forall_singleton|set_solver|done| |].
  - rewrite Hm1. apply new_stack_bytes, HU.
  - assert (us.*1 ++ pgdir p :: T ++ ks :: fl1 ≡ₚ ks :: us.*1 ++ pgdir p :: T ++ fl1) as E by solve_Permutation. rewrite E in Ha. by apply list.NoDup_cons in Ha as [_ Ha].
Qed.

Section Copied.
Context (k2 : K) (d : Z) (us' : list (Z * Z)) (T' fl' : list Z) (HC : copied k1 k2 d us us' T' fl1 fl').
Context (k3 : K) (Hm3 : k_ms k3 = set_ram (copied_tf (ram (k_ms k2)) (tf p) (ks + 4020)) (k_ms k2)).

Lemma copied_frame : same_outside fl1 (ram (k_ms k1)) (ram (k_ms k2)).
Proof. eapply same_outside_weaken; [|apply HC]. intros x Hx. rewrite <-(cp_pages _ _ _ _ _ _ _ _ HC). set_solver. Qed.

Lemma copied_stack x : in_page ks x -> ld8 (ram (k_ms k2)) x = ld8 (ram (k_ms k1)) x.
Proof.
  intros Hx. destruct kstack_page as (Hk & Hn & _). apply copied_frame. intros q Hq. apply (pages_apart ks q); [done|apply fork_free; rewrite Hfl; by right| |done].
  intros ->. apply Hn. set_solver.
Qed.

Lemma frame_frame : same_outside [ks] (ram (k_ms k2)) (ram (k_ms k3)).
Proof.
  destruct kstack_page as (Hk & _). rewrite Hm3. intros x Hx. apply (copied_tf_spec (ram (k_ms k2)) (tf p) ks Hk); [apply (cp_space _ _ _ _ _ _ _ _ HC)|].
  specialize (Hx ks ltac:(left)). lia.
Qed.

Lemma frame_other d' vs S : uspace k2 d' vs S fl' -> ks ∉ vs.*1 ++ d' :: S -> uspace k3 d' vs S fl'.
Proof.
  intros HU Hn. destruct kstack_page as (Hk & Hn1 & _). pose proof (us_vm _ _ _ _ _ HU) as HI.
  apply (uspace_frame k2 k3 d' vs S fl' fl' [ks]); [done|exact frame_frame|by apply Forall_singleton|set_solver| | |apply HU].
  - apply (kmem_same k2); [apply HI|by rewrite Hm3|]. intros q x Hq Hx. apply frame_frame. intros r ->%list_elem_of_singleton.
    apply (pages_apart q ks); [by apply (Forall_elem _ _ _ (km_pages _ _ (vi_kmem _ _ _ _ HI)))|done| |done].
    intros ->. apply Hn1. assert (ks ∈ fl1) by (rewrite <-(cp_pages _ _ _ _ _ _ _ _ HC); set_solver). set_solver.
  - rewrite Hm3. apply (copied_tf_spec _ (tf p) ks Hk). apply HI.
Qed.

Lemma fork_memory_holds : fork_memory k0 k3 p ks d us us' T T' fl fl'.
Proof.
  destruct kstack_page as (Hk & Hn & Hne). pose proof kstack_space as HU1. pose proof (copied_up _ _ _ _ _ _ _ _ HC) as HG.
  pose proof (given_up_source _ _ _ _ _ _ _ _ _ _ HG HU1) as HU2.
  assert (ks ∉ us'.*1 ++ d :: T') as Hn'.
  { intros Hin. apply Hn. assert (ks ∈ fl1) by (rewrite <-(cp_pages _ _ _ _ _ _ _ _ HC); set_solver). set_solver. }
  assert (Forall page_ok [ks]) as Hks by (by apply Forall_singleton).
  assert (forall m m' : gmap Z Z, same_outside [ks] m m' -> same_outside fl m m') as Hw by (intros m m'; apply same_outside_weaken; set_solver).
  assert (same_outside fl (ram (k_ms k0)) (ram (k_ms k2))) as H02.
  { intros x Hx. rewrite copied_frame by (intros q Hq; apply Hx; rewrite Hfl; by right). apply (Hw _ _ kstack_frame x Hx). }
  destruct (copied_tf_spec (ram (k_ms k2)) (tf p) ks Hk) as (_ & Htf & Hout); [apply HC|]. split.
  - apply frame_other; [apply HC|done].
  - intros va Hva. rewrite <-(cp_kernel _ _ _ _ _ _ _ _ HC va Hva).
    apply (pte0_outside k2 d T' fl' [ks]); [apply HC|exact frame_frame|done|set_solver|unfold KERNBASE in *; lia].
  - apply frame_other; [done|set_solver].
  - rewrite Hfl. by rewrite (cp_pages _ _ _ _ _ _ _ _ HC).
  - pose proof (cp_same _ _ _ _ _ _ _ _ HC) as Hs. clear -Hs. induction Hs as [|x y ? ? [E _] _ IH]; [done|]. cbn [fmap list_fmap]. by rewrite E, IH.
  - intros va w Hva. rewrite (view_frame k2 _ d us' T' fl' va w [ks] (cp_space _ _ _ _ _ _ _ _ HC) frame_frame Hks) by (done || set_solver).
    rewrite (copied_view k1 k2 (pgdir p) us T fl1 d us' T' fl' va w HU1 HC Hva). apply fork_view; [by apply Hw, kstack_frame|done].
  - intros va w Hva. apply fork_view; [|done]. intros x Hx. rewrite (Hw _ _ frame_frame x Hx). by apply H02.
  - intros o Ho. rewrite Hm3. cbn [ram set_ram]. rewrite (Htf o Ho). destruct (decide (28 <= o < 32)); [done|]. apply H02. intros q Hq.
    destruct (fk_stack _ _ _ _ _ _ _ _ _ HF) as (Pk & _ & Hr). destruct (fork_free q Hq) as (Pq & _ & Hqk).
    apply (pages_apart (kstack p) q); [done|done|congruence|]. unfold in_page, PGSIZE in *.
    replace (tf p) with (kstack p + (tf p - kstack p)) by lia. rewrite V2P_off by (done || unfold PGSIZE; lia). lia.
  - rewrite Hm3. cbn [ram set_ram]. destruct (new_stack_spec (ram (k_ms k0)) ks Hk) as (<- & <- & _).
    rewrite !(V2P_off ks) by (done || (unfold PGSIZE; lia)).
    split; apply ld32_ext; intros x Hx; rewrite Hout by lia; rewrite copied_stack, Hm1 by (unfold in_page, PGSIZE; lia); done.
Qed.
End Copied.
End Memory.

(** The table before the slot is taken. *)
Local Notation nid := (nextpid (k_ps k0)).

Local Notation psn := (set_nextpid (nextpid (k_ps k0) + 1) (k_ps k0)).

Definition fork_fails (r : Z) (k' : K) : Prop :=
  r = -1 /\ k_fs k' = k_fs k0 /\ (exists q, k_ps k' = slot j q psn /\ state q = UNUSED) /\
  (exists fl', kmem_inv k' fl' /\ fl' ≡ₚ fl) /\
  forall va w, 0 <= va < KERNBASE -> user_view (ram (k_ms k')) (pgdir p) va w = user_view (ram (k_ms k0)) (pgdir p) va w.

Definition fork_done (tbl : pstate -> pstate) (r : Z) (k' : K) : Prop :=
  r = nid /\ exists q cw ks d us' T' fl', cwd p = Some cw /\ k_fs k' = dup_inode cw (dup_files (ofile p) (k_fs k0)) /\
    k_ps k' = tbl (set_totalTicketCount (s32 (totalTicketCount (k_ps k0) + 10)) (slot j q psn)) /\ child_of p f q i nid nid (sz p) ks d /\
    fork_memory k0 k' p ks d us us' T T' fl fl'.

Lemma fork_slots : i <> j /\ (j < length (procs psn))%nat /\ procs psn !! i = Some p.
Proof.
  destruct (fk_free _ _ _ _ _ _ _ _ _ HF) as [(f' & Hf & Hu) _]. split; [|split; [by eapply lookup_lt_Some|apply HF]].
  intros <-. rewrite (fk_proc _ _ _ _ _ _ _ _ _ HF) in Hf. injection Hf as <-. apply (fk_used _ _ _ _ _ _ _ _ _ HF). by apply bool_decide_eq_true in Hu.
Qed.

(** The child [q] with what it inherits, ready. *)
Definition launched (q : proc) (cw : nat) : proc :=
  set_lastChangeTime (ticks (k_ps k0)) (set_state RUNNABLE
    (set_name (safestrcpy (name q) (name p) 16) (set_cwd (Some cw) (set_ofile (inherited 16 (ofile p) (ofile q)) q)))).

Lemma launch k q ms (P : K -> Prop) (Q : Z -> K -> Prop) :
  stage c k0 0 [] k (slot j q psn) ms (k_fs k0) -> length (ofile q) = 16%nat -> ticketCount q = 10 ->
  (forall cw k', cwd p = Some cw ->
     stage c k0 0 [] k' (set_totalTicketCount (s32 (totalTicketCount (k_ps k0) + 10)) (slot j (launched q cw) psn)) ms
       (dup_inode cw (dup_files (ofile p) (k_fs k0))) ->
     wp (handover i P) (preempt_check k') (fun _ => Q (pid q))) ->
  wp (handover i P) ((inherit i j ;; q <- get_proc j ;; let pid := pid q in make_runnable j ;; preempt_check ;; ret pid) k) Q.
Proof.
  intros Hs Hq Et HQ. destruct fork_slots as (Hij & Hj & Hi). destruct (fk_files _ _ _ _ _ _ _ _ _ HF) as (Hp & Hf & Ho). destruct (fk_cwd _ _ _ _ _ _ _ _ _ HF) as (cw & Hcw & Hin).
  wp_run (inherit_stage c k0 i j p q psn _ (k_fs k0) cw Hi Hij Hj Hp Hq Ho Hcw Hin k Hs). intros [] k5 Hs5. set (q5 := set_name _ _) in Hs5.
  rewrite bind_eq, (stage_get _ _ _ _ _ _ _ _ Hs5 j q5) by (by apply slot_at). cbn [res_bind]. cbv zeta.
  wp_run (make_runnable_stage _ _ _ _ _ _ _ _ Hs5 Hj). intros [] k6 Hs6. rewrite bind_eq, wp_bind.
  change (ticketCount q5) with (ticketCount q) in Hs6. rewrite Et in Hs6.
  eapply wp_mono; [|apply (HQ cw k6 Hcw Hs6)]. intros []; by intros.
Qed.

(** The child once its address space is there. *)
Lemma fork_rest k ks d ms (P : K -> Prop) (Q : Z -> K -> Prop) :
  let q := set_pgdir d (set_context (ks + 3996) (set_tf (ks + 4020) (set_kstack ks (embryo nid (ticks (k_ps k0)) f)))) in
  stage c k0 0 [] k (slot j q psn) ms (k_fs k0) ->
  (forall q cw k', cwd p = Some cw -> child_of p f q i nid nid (sz p) ks d ->
     stage c k0 0 [] k' (set_totalTicketCount (s32 (totalTicketCount (k_ps k0) + 10)) (slot j q psn))
       (set_ram (copied_tf (ram ms) (tf p) (ks + 4020)) ms) (dup_inode cw (dup_files (ofile p) (k_fs k0))) ->
     wp (handover i P) (preempt_check k') (fun _ => Q nid)) ->
  wp (handover i P) ((q <- get_proc j ;; upd_proc j (set_first_pid (pid q)) ;; p <- get_proc i ;; upd_proc j (set_sz (sz p)) ;; upd_proc j (set_parent (Some i)) ;;
        copy_tf i j ;; inherit i j ;; q <- get_proc j ;; let pid := pid q in make_runnable j ;; preempt_check ;; ret pid) k) Q.
Proof.
  intros q Hs HQ. destruct fork_slots as (Hij & Hj & Hi). destruct (fk_files _ _ _ _ _ _ _ _ _ HF) as (_ & Hf & _).
  assert (pid q = nid) as Epid by apply embryo_pid.
  rewrite bind_eq, (stage_get _ _ _ _ _ _ _ _ Hs j q) by (by apply slot_at). cbn [res_bind]. rewrite Epid.
  destruct (stage_child _ _ _ _ _ _ _ _ _ _ (set_first_pid nid) Hs Hj) as (k1 & E1 & Hs1). rewrite bind_eq, E1. cbn [res_bind]. clear E1.
  rewrite bind_eq, (stage_get _ _ _ _ _ _ _ _ Hs1 i p) by (by rewrite slot_other). cbn [res_bind].
  destruct (stage_child _ _ _ _ _ _ _ _ _ _ (set_sz (sz p)) Hs1 Hj) as (k2 & E2 & Hs2). rewrite bind_eq, E2. cbn [res_bind]. clear E2.
  destruct (stage_child _ _ _ _ _ _ _ _ _ _ (set_parent (Some i)) Hs2 Hj) as (k3 & E3 & Hs3). rewrite bind_eq, E3. cbn [res_bind]. clear E3. set (q3 := set_parent _ _) in Hs3.
  destruct (copy_tf_stage _ _ _ i j p q3 _ _ _ Hs3 Hi Hij Hj) as (k4 & E4 & Hs4). rewrite bind_eq, E4. cbn [res_bind]. clear E4.
  assert (length (ofile q3) = 16%nat /\ ticketCount q3 = 10 /\ pid q3 = nid) as (Hq3 & Et & Ep) by (unfold q3, q, embryo; by destruct (nid =? 1)).
  apply (launch k4 q3 _ P Q Hs4 Hq3 Et). intros cw k5 Hcw Hs5. rewrite Ep. apply (HQ (launched q3 cw) cw k5 Hcw); [|exact Hs5].
  unfold launched, q3, q, embryo. destruct (nid =? 1); split; rewrite ?Hcw; done.
Qed.

(** The slot and the kernel stack, up to locks. *)
Lemma fork_allocates k1 : holds k1 c 0 [] -> core k1 = core k0 ->
  runs allocproc k1 (fun r k' => exists ms, kmem_inv k' (tail fl) /\ ram ms = match fl with [] => ram (k_ms k0) | ks :: _ => new_stack (ram (k_ms k0)) ks end /\
    let e := embryo nid (ticks (k_ps k0)) f in
    match fl with
    | [] => r = None /\ stage c k0 0 [] k' (slot j (set_state UNUSED (set_kstack 0 e)) psn) ms (k_fs k0)
    | ks :: _ => r = Some j /\ stage c k0 0 [] k' (slot j (set_context (ks + 3996) (set_tf (ks + 4020) (set_kstack ks e))) psn) ms (k_fs k0)
    end).
Proof.
  intros Hk1 Hc1. destruct HF as [Hme Hi Hu Hfirst Hj Hn HU Hsz Hst Hfi Hcw]. pose proof (vi_kmem _ _ _ _ (us_vm _ _ _ _ _ HU)) as Hm. pose proof (core_ps _ _ Hc1) as Eps. pose proof (core_ms _ _ Hc1) as Ems.
  assert (kmem_inv k1 fl) as Hm1 by (by eapply kmem_same; [exact Hm|rewrite Ems..]).
  eapply runs_mono; [apply (allocproc_holds k1 c j f fl); rewrite ?Eps; try done; apply Hme|]. intros r k' (Hk' & -> & Hc').
  pose proof (alloc_state_kmem k1 j f fl Hm1) as Hm'. assert (kmem_inv k' (tail fl)) as Hm2 by (by eapply kmem_same; [exact Hm'|rewrite (core_ms _ _ Hc')..]).
  unfold alloc_state in Hc' |- *. rewrite Eps, Ems in Hc'. destruct fl as [|ks fl1]; eexists; (split; [exact Hm2|]).
  - split; [reflexivity|]. split; [done|]. split; [done|]. rewrite Hc'. cbn [snd]. rewrite core_set_ps, Hc1. by destruct k0.
  - split; [|split; [done|split; [done|]]].
    2:{ rewrite Hc'. cbn [snd]. rewrite core_set_ms, core_set_ps, Hc1. by destruct k0. }
    done.
Qed.

Local Notation P1 := (fun k1 => preempts c k0 = true /\ fork_done (preempted i) nid k1).

(** [k2] is the state after [allocproc] took the page [ks]. *)
Section Allocated.
Context (ks : Z) (fl1 : list Z) (Hfl : fl = ks :: fl1) (k2 : K) (Hm2 : ram (k_ms k2) = new_stack (ram (k_ms k0)) ks) (Hi2 : kmem_inv k2 fl1).
Local Notation q0 := (set_context (ks + 3996) (set_tf (ks + 4020) (set_kstack ks (embryo nid (ticks (k_ps k0)) f)))).

Lemma fork_copied (k3 k4 : K) d us' T' fl' : copied k2 k3 d us us' T' fl1 fl' -> stage c k0 0 [] k4 (slot j (set_pgdir d q0) psn) (k_ms k3) (k_fs k0) ->
  wp (handover i P1) ((q <- get_proc j ;; upd_proc j (set_first_pid (pid q)) ;; p <- get_proc i ;; upd_proc j (set_sz (sz p)) ;; upd_proc j (set_parent (Some i)) ;;
        copy_tf i j ;; inherit i j ;; q <- get_proc j ;; let pid := pid q in make_runnable j ;; preempt_check ;; ret pid) k4) (made c k0 nid fork_done fork_fails).
Proof.
  intros HC Hs4. destruct fork_slots as (Hij & _ & Hip). apply (fork_rest k4 ks d (k_ms k3) _ _ Hs4). intros q cw k5 Ecw Hch Hs5.
  set (ps5 := set_totalTicketCount _ _) in Hs5. set (ms5 := set_ram _ _) in Hs5. set (fs5 := dup_inode _ _) in Hs5.
  assert (forall tbl k', core k' = core (set_k_fs fs5 (set_k_ms ms5 (set_k_ps (tbl ps5) k0))) -> fork_done tbl nid k') as Hdone.
  { intros tbl k' Hc. split; [done|]. exists q, cw, ks, d, us', T', fl'. split; [done|]. split; [apply (core_fs _ _ Hc)|]. split; [apply (core_ps _ _ Hc)|]. split; [done|].
    apply (fork_memory_holds ks fl1 Hfl k2 Hm2 Hi2 k3 d us' T' fl' HC k'). apply (core_ms _ _ Hc). }
  apply (preempt_check_made c k0 i k5 ps5 ms5 fs5); [done|apply (me_on _ _ _ _ (fk_me _ _ _ _ _ _ _ _ _ HF))| |done].
  unfold ps5. cbn [procs set_totalTicketCount]. rewrite slot_other by done. by eexists.
Qed.

Lemma fork_uncopied (k3 k4 : K) fl' : same_outside fl1 (ram (k_ms k2)) (ram (k_ms k3)) -> kmem_inv k3 fl' -> fl' ≡ₚ fl1 ->
  stage c k0 0 [] k4 (slot j (set_pgdir 0 q0) psn) (k_ms k3) (k_fs k0) -> wp (handover i P1) ((abandon j ;; ret (-1)) k4) (made c k0 nid fork_done fork_fails).
Proof.
  intros Hout Hm3 Hp3 Hs4. destruct fork_slots as (_ & Hjl & _). destruct (kstack_page ks fl1 Hfl) as (Pks & Hnks & _). rewrite bind_eq. apply wp_bind.
  assert (kmem_inv k4 fl') as Hm4 by (eapply kmem_same; [exact Hm3|rewrite (stage_ms _ _ _ _ _ _ _ _ Hs4); done..]).
  eapply wp_mono; [|apply wp_runs, (abandon_stage c k0 k4 j _ psn _ (k_fs k0) fl' Hs4 Hjl Hm4)]; [|exact Pks|cbn; rewrite Hp3; set_solver].
  intros [] k5 (ms5 & Hs5 & Hm5 & Hout5). rewrite ret_eq. cbn [wp]. apply made_fails; [apply Hs5|]. split; [done|]. split; [apply (stage_fs _ _ _ _ _ _ _ _ Hs5)|].
  split; [rewrite (stage_ps _ _ _ _ _ _ _ _ Hs5); eexists; split; done|]. split; [eexists; split; [exact Hm5|]; cbn; by rewrite Hfl, Hp3|].
  intros va w Hva. apply fork_view; [|done]. rewrite (stage_ms _ _ _ _ _ _ _ _ Hs5). intros x Hx.
  rewrite Hout5 by (intros y ->%list_elem_of_singleton; apply Hx; rewrite Hfl; left).
  rewrite Hout by (intros y Hy; apply Hx; rewrite Hfl; by right). apply (kstack_frame ks fl1 Hfl k2 Hm2). intros y ->%list_elem_of_singleton. apply Hx. rewrite Hfl. left.
Qed.
End Allocated.


End Forks.

(** ** A fork on the small machine *)

(** The process in slot 1 has an empty address space and its kernel stack in a page
    next to two free ones. *)
Definition forking : proc :=
  set_cwd (Some 0%nat) (set_sz 0 (set_tf 0x80123FB4 (set_kstack 0x80123000 (proc_in RUNNING 2 3 10)))).

Definition kernel_fork : K :=
  set_k_ps (set_procs (<[1%nat := forking]> table_running) (k_ps kernel_page)) (set_k_ms (k_ms kernel_um) kernel_page).

Lemma kernel_fork_forkable : forkable kernel_fork 0 1 forking 3 proc0 [] [] [0x80121000; 0x80122000].
Proof.
  split; try done.
  - split; try done; [|by eexists]. destruct kernel_page_holds. by split.
  - split; [by exists proc0|]. intros i q Hi Hq. destruct i as [|[|[|i]]]; [by injection Hq as <-..|lia].
  - apply (uspace_ms kernel_um); [done|exact kernel_um_space].
  - split; [|done]. vm_compute. split; [done|by left].
  - split; [|split; [set_solver|done]]. pose proof demo_pages_ok as Hok. rewrite list.Forall_forall in Hok. apply Hok. set_solver.
  - split; [done|]. split; [done|]. apply Forall_replicate. done.
  - exists 0%nat. split; [done|]. by eexists.
Qed.

