(* ===== verification/ThreadCreate.v ===== *)
(** * Making a thread (proc.c: thread_create)

    [thread_create] on every branch: the thread gets a slot of the same process, a
    trap frame that starts the function on top of the given stack, the address
    space of [linkuvm] and the files of the caller. *)

From S2P Require Import Prelude Params State Mem Spinlock Seg Str Cprintf Kalloc Vm VmSpec AddrSpace UserMem ThreadMem GrowMem Proc ProcSpec ProcRefine SleepWake FsState Sleeplock.
From S2P Require Import SleeplockSpec BlockDev Ide Bio Log Inode Console Fs Pipe File ProcLife ProcOps Fork Demo DemoFs.

(** The trap frame at [dst] is that at [src] but for [eax], [eip] and [esp]. *)
Definition thread_tf (m : gmap Z Z) (src dst esp eip : Z) : gmap Z Z :=
  st32 (st32 (st32 (copied_tf m src dst) (V2P (dst + 68)) esp) (V2P (dst + 56)) eip) (V2P (dst + 68)) (u32 (esp + 4)).

Section ThreadCreate.
Context {LK : Linker} {LKO : LinkerOk} {FU : Fuel} {BD : BlockDev}.

Lemma thread_tf_spec m src ks esp eip : page_ok ks -> bytes_ok m -> 0 <= eip < 2 ^ 32 ->
  bytes_ok (thread_tf m src (ks + 4020) esp eip) /\
  (forall o, 0 <= o < 76 -> ~ 56 <= o < 60 -> ~ 68 <= o < 72 ->
     ld8 (thread_tf m src (ks + 4020) esp eip) (V2P (ks + 4020) + o) = if decide (28 <= o < 32) then 0 else ld8 m (V2P src + o)) /\
  ld32 (thread_tf m src (ks + 4020) esp eip) (V2P (ks + 4020) + 56) = eip /\
  ld32 (thread_tf m src (ks + 4020) esp eip) (V2P (ks + 4020) + 68) = u32 (esp + 4) /\
  forall x, x < V2P ks + 4020 \/ V2P ks + PGSIZE <= x -> ld8 (thread_tf m src (ks + 4020) esp eip) x = ld8 m x.
Proof.
  intros Hk Hb He. destruct (copied_tf_spec m src ks Hk Hb) as (Hb' & Ho & Hout). unfold thread_tf.
  replace (ks + 4020 + 68) with (ks + 4088) by lia. replace (ks + 4020 + 56) with (ks + 4076) by lia.
  rewrite !(V2P_off ks) in * by (done || (unfold PGSIZE; lia)). split; [do 3 apply bytes_ok_st32; exact Hb'|]. split; [|split; [|split]].
  - intros o Hr H1 H2. rewrite !ld8_st32_out by lia. by apply Ho.
  - rewrite ld32_st32_out by lia. replace (V2P ks + 4020 + 56) with (V2P ks + 4076) by lia. rewrite ld32_st32_same. by apply u32_small.
  - replace (V2P ks + 4020 + 68) with (V2P ks + 4088) by lia. rewrite ld32_st32_same. apply u32_idemp.
  - intros x Hx. unfold PGSIZE in Hx. rewrite !ld8_st32_out by lia. apply Hout. unfold PGSIZE. lia.
Qed.

End ThreadCreate.

(** The caller [p] runs in its address space with its stack in page [S s], which is
    the page [q], and hands over the page [pg], which it cannot use any more, with
    the stack pointer [stack]. *)
Record thread_ready {LK : Linker} (k : K) (p : proc) (us : list (Z * Z)) (T fl : list Z) (pg q fq stack : Z) (s : nat) : Prop := {
  tr_cr3 : cr3 (k_hw k) = V2P (pgdir p);
  tr_esp : PGROUNDDOWN (ld32 (ram (k_ms k)) (V2P (tf p + 68))) = Z.of_nat (S s) * PGSIZE;
  tr_page : page_ok pg /\ pg ∉ us.*1 ++ pgdir p :: T ++ fl /\ pg <> kstack p;
  tr_sees : sees (ram (k_ms k)) (pgdir p) pg;
  tr_old : us !! S s = Some (q, fq) /\ nz (Z.land fq PTE_W) = true;
  tr_stack : pg <= stack < pg + PGSIZE /\ (stack - pg) `mod` 4 = 0;
  tr_cons : console_ok k
}.

(** The memory the thread finds: the address space of [linkuvm], a trap frame that
    starts the function whose address is on top of the moved stack, with the stack
    behind it, and a kernel stack that starts in [forkret]. *)
Record thread_memory {LK : Linker} (k k' : K) (p : proc) (ks d g pg q stack : Z) (s : nat) (us : list (Z * Z)) (T T' fl fl' : list Z) : Prop := {
  tm_space : uspace k' d (take s us ++ [(g, 3); (pg, 7)]) T' fl';
  tm_kernel : kernel_part k' d;
  tm_process : uspace k' (pgdir p) us T fl';
  tm_pages : ks :: d :: T' ++ g :: fl' ≡ₚ fl;
  tm_stack : forall j, j ∈ words_from (stack - pg) ->
    ld32 (ram (k_ms k')) (V2P pg + j) = moved_word (sz p) (Z.of_nat (S s) * PGSIZE) (ld32 (ram (k_ms k)) (V2P pg + j)) /\
    ld32 (ram (k_ms k')) (V2P q + j) = ld32 (ram (k_ms k')) (V2P pg + j);
  tm_eip : ld32 (ram (k_ms k')) (V2P (ks + 4020) + 56) = ld32 (ram (k_ms k')) (V2P pg + (stack - pg));
  tm_esp : ld32 (ram (k_ms k')) (V2P (ks + 4020) + 68) = Z.of_nat (S s) * PGSIZE + (stack - pg) + 4;
  tm_tf : forall o, 0 <= o < 76 -> ~ 56 <= o < 60 -> ~ 68 <= o < 72 ->
    ld8 (ram (k_ms k')) (V2P (ks + 4020) + o) = if decide (28 <= o < 32) then 0 else ld8 (ram (k_ms k)) (V2P (tf p) + o);
  tm_start : ld32 (ram (k_ms k')) (V2P (ks + 4012)) = u32 sym_forkret /\ ld32 (ram (k_ms k')) (V2P (ks + 4016)) = u32 sym_trapret
}.

Section Threads.
Context {LK : Linker} {LKO : LinkerOk} {FU : Fuel} {BD : BlockDev}.
Context (k0 : K) (c i : nat) (p : proc) (j : nat) (f : proc) (us : list (Z * Z)) (T fl : list Z) (HF : forkable k0 c i p j f us T fl).
Context (pg q fq stack : Z) (s : nat) (HT : thread_ready k0 p us T fl pg q fq stack s).

Local Notation orig := (Z.of_nat (S s) * PGSIZE).

Local Notation off := (stack - pg).

(** The stack of the caller lies below 2 GB, and the words are within the page. *)
Lemma thread_room : 0 <= orig /\ orig + PGSIZE <= KERNBASE /\ 0 <= off /\ off + 4 <= PGSIZE /\ off ∈ words_from off /\ page_ok q.
Proof.
  destruct (tr_stack _ _ _ _ _ _ _ _ _ _ HT) as [Hst Hal]. destruct (tr_old _ _ _ _ _ _ _ _ _ _ HT) as [Eq _]. destruct (fk_size _ _ _ _ _ _ _ _ _ HF) as (_ & _ & Hl).
  apply lookup_lt_Some in Eq as Hlt. pose proof (word_fits off ltac:(lia) Hal). unfold PGSIZE, KERNBASE in *. do 4 (split; [lia|]). split.
  - unfold words_from, PGSIZE. apply list_elem_of_fmap. exists 0. split; [lia|]. apply elem_of_zseq.
    assert (1 <= (4096 - off + 3) / 4) by (apply Z.div_le_lower_bound; lia). lia.
  - destruct (Forall_lookup_1 _ _ _ _ (us_pages _ _ _ _ _ (fk_space _ _ _ _ _ _ _ _ _ HF)) Eq) as (Pq & _). exact Pq.
Qed.

Section Memory.
Context (ks : Z) (fl1 : list Z) (Hfl : fl = ks :: fl1).

(** The pages in play are different. *)
Lemma thread_pages x : x ∈ [pg; q; kstack p] -> page_ok x /\ x ∉ fl /\ x <> ks.
Proof.
  intros Hx. assert (ks ∈ fl) as Hks by (rewrite Hfl; left). assert (page_ok x /\ x ∉ fl) as [Px Hn]; [|split; [done|split; [done|by intros ->]]].
  destruct (tr_page _ _ _ _ _ _ _ _ _ _ HT) as (Ppg & Hpg & _). destruct thread_room as (_ & _ & _ & _ & _ & Pq). destruct (fk_stack _ _ _ _ _ _ _ _ _ HF) as (Pk & Hk & _).
  revert Hx. rewrite !elem_of_cons, elem_of_nil. intros [->|[->|[->|[]]]]; (split; [done|]); [set_solver| |set_solver].
  intros Hin. apply (uspace_free k0 _ _ _ _ q (fk_space _ _ _ _ _ _ _ _ _ HF) Hin), elem_of_app. left. apply list_elem_of_fmap.
  destruct (tr_old _ _ _ _ _ _ _ _ _ _ HT) as [Eq _]. exists (q, fq). split; [done|by eapply list_elem_of_lookup_2].
Qed.

Context (k2 : K) (Hm2 : ram (k_ms k2) = new_stack (ram (k_ms k0)) ks) (Hi2 : kmem_inv k2 fl1).

(** Only the kernel stack has been written so far. *)
Lemma thread_same x y : x ∈ [pg; q; kstack p] -> in_page x y -> ld8 (ram (k_ms k2)) y = ld8 (ram (k_ms k0)) y.
Proof.
  intros Hx Hy. destruct (thread_pages x Hx) as (Px & _ & Hne). destruct (kstack_page k0 c i p j f us T fl HF ks fl1 Hfl) as (Pk & _ & _).
  apply (kstack_frame k0 c i p j f us T fl HF ks fl1 Hfl k2 Hm2). intros t ->%list_elem_of_singleton. by apply (pages_apart x ks).
Qed.

Lemma thread_links : holds k2 c 0 [] -> cr3 (k_hw k2) = V2P (pgdir p) ->
  runs (linkuvm (pgdir p) (sz p) orig stack) k2 (fun d k' =>
    (exists g T' fl', thread_space k2 (pgdir p) us T fl1 c 0 [] pg q (sz p) stack s k' d g T' fl') \/
    d = 0 /\ holds k' c 0 [] /\ ms_only k2 k' /\ exists m fl', (m <= s)%nat /\ kmem_inv k' fl' /\ fl' ≡ₚ (take m us).*1 ++ fl1).
Proof.
  intros Hk Hc. destruct (fk_size _ _ _ _ _ _ _ _ _ HF) as (Hsz & H0 & Hl). destruct (tr_page _ _ _ _ _ _ _ _ _ _ HT) as (Ppg & Hpg & _).
  destruct (tr_old _ _ _ _ _ _ _ _ _ _ HT) as [Eq Hw]. destruct (tr_stack _ _ _ _ _ _ _ _ _ _ HT) as [Hst Hal].
  destruct (kstack_page k0 c i p j f us T fl HF ks fl1 Hfl) as (Pk & Hnk & _).
  pose proof (kstack_space k0 c i p j f us T fl HF ks fl1 Hfl k2 Hm2 Hi2) as HU2.
  apply (linkuvm_holds k2 (pgdir p) us T fl1 HU2 Hc c 0 [] (not_elem_of_nil _) ltac:(lia) pg q fq (sz p) stack s Ppg); try done.
  - apply (sees_frame k0 _ (pgdir p) T fl [ks]); [apply HF|exact (kstack_frame k0 c i p j f us T fl HF ks fl1 Hfl k2 Hm2)|by apply Forall_singleton|set_solver|done|apply HT].
  - rewrite Hfl in Hpg. set_solver.
Qed.

Section Linked.
Context (k3 : K) (d g : Z) (T' fl' : list Z) (HS : thread_space k2 (pgdir p) us T fl1 c 0 [] pg q (sz p) stack s k3 d g T' fl').

Lemma linked_stack : ks ∉ d :: T' ++ fl' /\ ks ∉ pgdir p :: T ++ fl'.
Proof.
  destruct (kstack_page k0 c i p j f us T fl HF ks fl1 Hfl) as (Pk & Hnk & _).
  assert (forall x, x ∈ d :: T' ++ g :: fl' -> x ∈ fl1) as Hin by (intros x Hx; by rewrite <-(ts_pages _ _ _ _ _ _ _ _ _ _ _ _ _ _ _ _ _ _ HS)).
  split; intros Hx; apply Hnk; [assert (ks ∈ fl1) by (apply Hin; set_solver); set_solver|].
  apply elem_of_cons in Hx as [->|[Hx|Hx]%elem_of_app]; [set_solver..|]. assert (ks ∈ fl1) by (apply Hin; set_solver). set_solver.
Qed.

(** Writes to the kernel stack leave both address spaces. *)
Lemma linked_spaces (k4 : K) m : k_ms k4 = set_ram m (k_ms k3) -> same_outside [ks] (ram (k_ms k3)) m -> bytes_ok m ->
  uspace k4 d (take s us ++ [(g, 3); (pg, 7)]) T' fl' /\ uspace k4 (pgdir p) us T fl'.
Proof.
  intros Em Ho Hb. destruct (kstack_page k0 c i p j f us T fl HF ks fl1 Hfl) as (Pk & _ & _). destruct linked_stack as [Hd Hp].
  assert (Forall page_ok [ks]) as Hok by (by apply Forall_singleton).
  split; apply (uspace_ms (with_ram m k3)); try (by rewrite Em).
  - apply (with_ram_space k3 m d _ T' fl' [ks]); [apply HS|done|done| |done]. by intros x ->%list_elem_of_singleton.
  - apply (with_ram_space k3 m (pgdir p) _ T fl' [ks]); [apply HS|done|done| |done]. by intros x ->%list_elem_of_singleton.
Qed.

(** The word on top of the stack, read through the address space of the caller. *)
Lemma linked_word (k4 : K) m : k_ms k4 = set_ram m (k_ms k3) -> same_outside [ks] (ram (k_ms k3)) m -> bytes_ok m -> cr3 (k_hw k4) = V2P (pgdir p) ->
  uload32 (orig + off) k4 = Done (ld32 (ram (k_ms k3)) (V2P pg + off)) k4.
Proof.
  intros Em Ho Hb Hc. destruct (linked_spaces k4 m Em Ho Hb) as [_ HU]. destruct thread_room as (Ho0 & Ho1 & Hf0 & Hf1 & Hw & Pq).
  destruct (tr_old _ _ _ _ _ _ _ _ _ _ HT) as [Eq _]. destruct (thread_pages q ltac:(set_solver)) as (_ & _ & Hqk).
  destruct (kstack_page k0 c i p j f us T fl HF ks fl1 Hfl) as (Pk & _ & _).
  rewrite (uload32_phys k4 (orig + off) (V2P q + off)).
  - f_equal. rewrite <-(ts_caller _ _ _ _ _ _ _ _ _ _ _ _ _ _ _ _ _ _ HS off Hw), Em. cbn [ram set_ram]. apply ld32_ext. intros x Hx.
    apply Ho. intros t ->%list_elem_of_singleton. apply (pages_apart q ks); [done|done|done|]. unfold in_page. lia.
  - intros b Hb4. rewrite Hc, u32_small by (unfold KERNBASE in *; lia).
    rewrite (uspace_translate k4 (pgdir p) us T fl' _ false HU) by (unfold KERNBASE in *; lia).
    rewrite (div_of_page (S s)), Eq by (unfold PGSIZE in *; lia). cbn [negb orb]. f_equal.
    replace ((orig + off + b) `mod` PGSIZE) with (off + b); [lia|]. replace (orig + off + b) with (off + b + orig) by lia. rewrite Z.mod_add by done. symmetry. apply Z.mod_small. lia.
Qed.

(** Other pages than the tables and the two stacks are as before. *)
Lemma linked_other r x : page_ok r -> r ∉ d :: T' -> r <> pg -> r <> q -> in_page r x -> ld8 (ram (k_ms k3)) x = ld8 (ram (k_ms k2)) x.
Proof.
  intros Pr Hd Hpg Hq Hx. destruct (tr_page _ _ _ _ _ _ _ _ _ _ HT) as (Ppg & _). destruct thread_room as (_ & _ & _ & _ & _ & Pq). destruct (tr_stack _ _ _ _ _ _ _ _ _ _ HT) as [Hst Hal].
  pose proof (us_vm _ _ _ _ _ (ts_space _ _ _ _ _ _ _ _ _ _ _ _ _ _ _ _ _ _ HS)) as HI.
  apply (ts_frame _ _ _ _ _ _ _ _ _ _ _ _ _ _ _ _ _ _ HS).
  - intros t Ht. apply (pages_apart r t); [done| |congruence|done]. apply elem_of_cons in Ht as [->|Ht]; [apply HI|by apply (Forall_elem _ _ _ (vi_tables _ _ _ _ HI))].
  - intros n Hn. destruct (Forall_elem _ _ _ (proj2 (words_from_ok off ltac:(lia) Hal)) Hn) as [Hr Hm]. pose proof (word_fits n Hr Hm).
    pose proof (pages_apart r pg x Pr Ppg Hpg Hx). pose proof (pages_apart r q x Pr Pq Hq Hx). unfold in_page in *. lia.
Qed.

(** The caller's trap frame and the new kernel stack. *)
Lemma linked_frames : (forall o, 0 <= o < 76 -> ld8 (ram (k_ms k3)) (V2P (tf p) + o) = ld8 (ram (k_ms k0)) (V2P (tf p) + o)) /\
  (forall x, in_page ks x -> ld8 (ram (k_ms k3)) x = ld8 (new_stack (ram (k_ms k0)) ks) x).
Proof.
  destruct (kstack_page k0 c i p j f us T fl HF ks fl1 Hfl) as (Pk & Hnk & _). destruct linked_stack as [Hd _].
  pose proof (thread_pages pg ltac:(set_solver)) as (_ & _ & Hpgk). pose proof (thread_pages q ltac:(set_solver)) as (_ & _ & Hqk).
  destruct (tr_page _ _ _ _ _ _ _ _ _ _ HT) as (_ & _ & Hpk). destruct (fk_stack _ _ _ _ _ _ _ _ _ HF) as (Pks & Hks & Hr).
  assert (kstack p <> q) as Hkq.
  { intros E. apply Hks, elem_of_app. left. apply list_elem_of_fmap. destruct (tr_old _ _ _ _ _ _ _ _ _ _ HT) as [Eq _].
    exists (q, fq). split; [done|by eapply list_elem_of_lookup_2]. }
  split.
  - intros o Ho. assert (in_page (kstack p) (V2P (tf p) + o)) as Hin.
    { unfold in_page, PGSIZE in *. replace (tf p) with (kstack p + (tf p - kstack p)) by lia. rewrite V2P_off by (done || unfold PGSIZE; lia). lia. }
    rewrite (linked_other (kstack p)) by (done || congruence || (intros Hx; apply Hks; assert (kstack p ∈ fl1) by (rewrite <-(ts_pages _ _ _ _ _ _ _ _ _ _ _ _ _ _ _ _ _ _ HS); set_solver); rewrite Hfl; set_solver)).
    apply (thread_same (kstack p)); [set_solver|done].
  - intros x Hx. rewrite (linked_other ks) by (done || congruence || set_solver). by rewrite Hm2.
Qed.

Lemma thread_memory_holds (k5 : K) :
  k_ms k5 = set_ram (thread_tf (ram (k_ms k3)) (tf p) (ks + 4020) (orig + off) (ld32 (ram (k_ms k3)) (V2P pg + off))) (k_ms k3) ->
  thread_memory k0 k5 p ks d g pg q stack s us T T' fl fl'.
Proof.
  intros Em. destruct (kstack_page k0 c i p j f us T fl HF ks fl1 Hfl) as (Pk & Hnk & _). destruct thread_room as (Ho0 & Ho1 & Hf0 & Hf1 & Hw & Pq).
  pose proof (us_vm _ _ _ _ _ (ts_space _ _ _ _ _ _ _ _ _ _ _ _ _ _ _ _ _ _ HS)) as HI. destruct (tr_stack _ _ _ _ _ _ _ _ _ _ HT) as [Hst Hal].
  set (eip := ld32 _ _) in Em. assert (0 <= eip < 2 ^ 32) as He by (apply ld32_range, HI).
  destruct (thread_tf_spec (ram (k_ms k3)) (tf p) ks (orig + off) eip Pk (vi_bytes _ _ _ _ HI) He) as (Hb & Htf & Heip & Hesp & Hout).
  set (m5 := thread_tf _ _ _ _ _) in *. assert (ram (k_ms k5) = m5) as Er by (by rewrite Em).
  assert (same_outside [ks] (ram (k_ms k3)) m5) as Ho by (intros x Hx; apply Hout; specialize (Hx ks ltac:(left)); lia).
  destruct (linked_spaces k5 m5 Em Ho Hb) as [HU5 HP5]. destruct linked_stack as [Hd Hp]. pose proof (thread_pages pg ltac:(set_solver)) as (Ppg & Hpgf & Hpgk).
  pose proof (thread_pages q ltac:(set_solver)) as (_ & Hqf & Hqk). pose proof (thread_pages (kstack p) ltac:(set_solver)) as (Pks & Hksf & Hksk).
  assert (forall r n, r ∈ [pg; q] -> n ∈ words_from off -> ld32 m5 (V2P r + n) = ld32 (ram (k_ms k3)) (V2P r + n)) as Hword.
  { intros r n Hr Hn. destruct (Forall_elem _ _ _ (proj2 (words_from_ok off ltac:(lia) Hal)) Hn) as [Hnr Hnm]. pose proof (word_fits n Hnr Hnm).
    destruct (thread_pages r ltac:(set_solver)) as (Pr & _ & Hrk). apply ld32_in_page; [|lia|lia]. intros x Hx. apply Ho. intros t ->%list_elem_of_singleton. by apply (pages_apart r ks). }
  split; rewrite ?Er; try done.
  - intros va Hva. rewrite <-(ts_kernel _ _ _ _ _ _ _ _ _ _ _ _ _ _ _ _ _ _ HS va Hva), Er.
    apply (pte0_outside k3 d T' fl' [ks]); [done|done|by apply Forall_singleton|intros x ->%list_elem_of_singleton; set_solver|unfold KERNBASE in *; lia].
  - rewrite Hfl. by rewrite (ts_pages _ _ _ _ _ _ _ _ _ _ _ _ _ _ _ _ _ _ HS).
  - intros n Hn. rewrite !Hword by (done || set_solver). split; [|by apply (ts_caller _ _ _ _ _ _ _ _ _ _ _ _ _ _ _ _ _ _ HS)].
    rewrite (ts_stack _ _ _ _ _ _ _ _ _ _ _ _ _ _ _ _ _ _ HS n Hn). f_equal.
    destruct (Forall_elem _ _ _ (proj2 (words_from_ok off ltac:(lia) Hal)) Hn) as [Hnr Hnm]. pose proof (word_fits n Hnr Hnm).
    apply ld32_in_page; [|lia|lia]. intros x. apply thread_same. set_solver.
  - rewrite Heip. symmetry. by apply Hword; [left|].
  - rewrite Hesp. apply u32_small. unfold KERNBASE, PGSIZE in *. lia.
  - intros o Hr H1 H2. rewrite (Htf o Hr H1 H2). destruct (decide (28 <= o < 32)); [done|]. by apply linked_frames.
  - destruct (new_stack_spec (ram (k_ms k0)) ks Pk) as (<- & <- & _). rewrite !(V2P_off ks) by (done || (unfold PGSIZE; lia)).
    split; apply ld32_ext; intros x Hx; rewrite Hout by lia; apply linked_frames; unfold in_page, PGSIZE; lia.
Qed.

End Linked.

End Memory.

Local Notation nid := (nextpid (k_ps k0)).

Local Notation psn := (set_nextpid (nextpid (k_ps k0) + 1) (k_ps k0)).

Definition thread_fails (r : Z) (k' : K) : Prop :=
  r = -1 /\ k_fs k' = k_fs k0 /\ (exists q1, k_ps k' = slot j q1 psn /\ state q1 = UNUSED) /\
  exists m fl', (m <= s)%nat /\ kmem_inv k' fl' /\ fl' ≡ₚ (take m us).*1 ++ fl.

Definition thread_done (tbl : pstate -> pstate) (r : Z) (k' : K) : Prop :=
  r = nid /\ exists q1 cw ks d g T' fl', cwd p = Some cw /\ k_fs k' = dup_inode cw (dup_files (ofile p) (k_fs k0)) /\
    k_ps k' = tbl (set_totalTicketCount (s32 (totalTicketCount (k_ps k0) + 10)) (slot j q1 psn)) /\
    child_of p f q1 i nid (first_pid p) (orig + PGSIZE) ks d /\ thread_memory k0 k' p ks d g pg q stack s us T T' fl fl'.

Lemma stage_cr3 n H k ps ms fs : stage c k0 n H k ps ms fs -> cr3 (k_hw k) = V2P (pgdir p).
Proof. intros Hs. rewrite <-(tr_cr3 _ _ _ _ _ _ _ _ _ _ HT). exact (f_equal (fun k => cr3 (k_hw k)) (sg_core _ _ _ _ _ _ _ _ Hs)). Qed.

(** A message does not touch the free pages. *)
Lemma complaint k ps ms fs msg out l (P : K -> Prop) (Q : Z -> K -> Prop) : stage c k0 0 [] k ps ms fs -> rendered (bytes_of msg) [] = Some out -> kmem_inv k l ->
  (forall k', holds k' c 0 [] -> k_ps k' = ps -> k_fs k' = fs -> kmem_inv k' l -> Q (-1) k') -> wp (handover i P) ((cprintf msg [] ;; ret (-1)) k) Q.
Proof.
  intros Hs Hr Hm HQ. assert (console_ok k) as Hc.
  { unfold console_ok. pose proof (core_cons _ _ (sg_core _ _ _ _ _ _ _ _ Hs)) as ->. apply (tr_cons _ _ _ _ _ _ _ _ _ _ HT). }
  wp_run (cprintf_prints k c 0 [] msg [] out (sg_holds _ _ _ _ _ _ _ _ Hs) (not_elem_of_nil _)); [|lia|done|done]. intros [] k' [Hk' HP].
  rewrite ret_eq. apply HQ; [done|by rewrite (pd_ps _ _ _ HP), (stage_ps _ _ _ _ _ _ _ _ Hs)|by rewrite (pd_fs _ _ _ HP), (stage_fs _ _ _ _ _ _ _ _ Hs)|].
  destruct (pd_mem _ _ _ HP) as (_ & Ef & _). apply (kmem_same k); [done|done|]. intros r x Hr' Hx. apply (pd_ram _ _ _ HP).
  pose proof (Forall_elem _ _ _ (km_pages _ _ Hm) Hr') as Pr. destruct (page_ok_V2P r Pr) as [Ep _]. destruct Pr as (_ & [He _] & _).
  pose proof data_high. pose proof data_end. unfold in_page, crt, KERNLINK, EXTMEM, KERNBASE in *. lia.
Qed.

Local Notation P1 := (fun k1 => preempts c k0 = true /\ thread_done (preempted i) nid k1).

(** [k2] is the state after [allocproc] took the page [ks]. *)
Section Allocated.
Context (ks : Z) (fl1 : list Z) (Hfl : fl = ks :: fl1) (k2 : K) (Hm2 : ram (k_ms k2) = new_stack (ram (k_ms k0)) ks) (Hi2 : kmem_inv k2 fl1).

Local Notation q0 := (set_context (ks + 3996) (set_tf (ks + 4020) (set_kstack ks (embryo nid (ticks (k_ps k0)) f)))).

(** The trap frame of the thread. *)
Lemma thread_frame k3 k5 d g T' fl' q1 : thread_space k2 (pgdir p) us T fl1 c 0 [] pg q (sz p) stack s k3 d g T' fl' ->
  stage c k0 0 [] k5 (slot j q1 psn) (set_ram (copied_tf (ram (k_ms k3)) (tf p) (ks + 4020)) (k_ms k3)) (k_fs k0) -> tf q1 = ks + 4020 ->
  exists k8, (forall rest : M K Z, (kstore32 (tf q1 + tf_esp) (orig + off) ;; eip <- uload32 (orig + off) ;; kstore32 (tf q1 + tf_eip) eip ;;
       kstore32 (tf q1 + tf_esp) (u32 (orig + off + 4)) ;; rest) k5 = rest k8) /\
    stage c k0 0 [] k8 (slot j q1 psn) (set_ram (thread_tf (ram (k_ms k3)) (tf p) (ks + 4020) (orig + off) (ld32 (ram (k_ms k3)) (V2P pg + off))) (k_ms k3)) (k_fs k0).
Proof.
  intros HS Hs5 Etf. unfold kstore32. rewrite Etf. destruct (kstack_page k0 c i p j f us T fl HF ks fl1 Hfl) as (Pk & _ & _).
  destruct (stage_on_ms _ _ _ _ _ _ _ _ Hs5 (fun m => set_ram (st32 (ram m) (V2P (ks + 4020 + tf_esp)) (orig + off)) m)) as (k6 & E6 & Hs6).
  pose proof (us_vm _ _ _ _ _ (ts_space _ _ _ _ _ _ _ _ _ _ _ _ _ _ _ _ _ _ HS)) as HI. cbn [ram set_ram] in Hs6.
  destruct (copied_tf_spec (ram (k_ms k3)) (tf p) ks Pk (vi_bytes _ _ _ _ HI)) as (Hb & _ & Hout).
  assert (uload32 (orig + off) k6 = Done (ld32 (ram (k_ms k3)) (V2P pg + off)) k6) as El.
  { apply (linked_word ks fl1 Hfl k2 Hm2 Hi2 k3 d g T' fl' HS k6 (st32 (copied_tf (ram (k_ms k3)) (tf p) (ks + 4020)) (V2P (ks + 4020 + tf_esp)) (orig + off)));
      [by rewrite (stage_ms _ _ _ _ _ _ _ _ Hs6)| |by apply bytes_ok_st32|by eapply stage_cr3].
    intros x Hx. specialize (Hx ks ltac:(left)). replace (ks + 4020 + tf_esp) with (ks + 4088) by (unfold tf_esp; lia). rewrite V2P_off by (done || (unfold PGSIZE; lia)).
    rewrite ld8_st32_out by (unfold PGSIZE in *; lia). apply Hout. lia. }
  set (eip := ld32 _ _) in *.
  destruct (stage_on_ms _ _ _ _ _ _ _ _ Hs6 (fun m => set_ram (st32 (ram m) (V2P (ks + 4020 + tf_eip)) eip) m)) as (k7 & E7 & Hs7).
  destruct (stage_on_ms _ _ _ _ _ _ _ _ Hs7 (fun m => set_ram (st32 (ram m) (V2P (ks + 4020 + tf_esp)) (u32 (orig + off + 4))) m)) as (k8 & E8 & Hs8).
  exists k8. split; [|exact Hs8]. intros rest. rewrite bind_eq, E6. cbn [res_bind]. rewrite bind_eq, El. cbn [res_bind].
  rewrite bind_eq, E7. cbn [res_bind]. rewrite bind_eq, E8. done.
Qed.

Lemma thread_linked k3 k4 d g T' fl' : thread_space k2 (pgdir p) us T fl1 c 0 [] pg q (sz p) stack s k3 d g T' fl' ->
  stage c k0 0 [] k4 (slot j (set_pgdir d q0) psn) (k_ms k3) (k_fs k0) ->
  wp (handover i P1) ((p <- get_proc i ;; upd_proc j (set_first_pid (first_pid p)) ;; upd_proc j (set_sz (u32 (orig + PGSIZE))) ;; upd_proc j (set_parent (Some i)) ;;
        copy_tf i j ;; q <- get_proc j ;; let esp := u32 (orig + off) in kstore32 (tf q + tf_esp) esp ;; eip <- uload32 esp ;; kstore32 (tf q + tf_eip) eip ;;
        kstore32 (tf q + tf_esp) (u32 (esp + 4)) ;; inherit i j ;; q <- get_proc j ;; let pid := pid q in make_runnable j ;; preempt_check ;; ret pid) k4)
     (made c k0 nid thread_done thread_fails).
Proof.
  intros HS Hs. destruct (fork_slots k0 c i p j f us T fl HF) as (Hij & Hj & Hi). destruct thread_room as (Ho0 & Ho1 & Hf0 & Hf1 & _). destruct (fk_files _ _ _ _ _ _ _ _ _ HF) as (_ & Hf & _).
  rewrite bind_eq, (stage_get _ _ _ _ _ _ _ _ Hs i p) by (by rewrite slot_other). cbn [res_bind].
  destruct (stage_child _ _ _ _ _ _ _ _ _ _ (set_first_pid (first_pid p)) Hs Hj) as (k5 & E5 & Hs5). rewrite bind_eq, E5. cbn [res_bind]. clear E5.
  rewrite (u32_small (orig + PGSIZE)), (u32_small (orig + off)) by (unfold KERNBASE, PGSIZE in *; lia).
  destruct (stage_child _ _ _ _ _ _ _ _ _ _ (set_sz (orig + PGSIZE)) Hs5 Hj) as (k6 & E6 & Hs6). rewrite bind_eq, E6. cbn [res_bind]. clear E6.
  destruct (stage_child _ _ _ _ _ _ _ _ _ _ (set_parent (Some i)) Hs6 Hj) as (k7 & E7 & Hs7). rewrite bind_eq, E7. cbn [res_bind]. clear E7. set (q3 := set_parent _ _) in Hs7.
  destruct (copy_tf_stage _ _ _ i j p q3 _ _ _ Hs7 Hi Hij Hj) as (k8 & E8 & Hs8). rewrite bind_eq, E8. cbn [res_bind]. clear E8.
  rewrite bind_eq, (stage_get _ _ _ _ _ _ _ _ Hs8 j q3) by (by apply slot_at). cbn [res_bind]. cbv zeta.
  destruct (thread_frame k3 k8 d g T' fl' q3 HS Hs8 ltac:(unfold q3, embryo; by destruct (nid =? 1))) as (k9 & E9 & Hs9).  rewrite E9.
  assert (length (ofile q3) = 16%nat /\ ticketCount q3 = 10 /\ pid q3 = nid) as (Hq3 & Et & Ep) by (unfold q3, embryo; by destruct (nid =? 1)).
  apply (launch k0 c i p j f us T fl HF k9 q3 _ _ _ Hs9 Hq3 Et). intros cw ka Hcw Hsa. rewrite Ep.
  apply (preempt_check_made c k0 i ka _ _ _ _ _ _ Hsa); [apply (me_on _ _ _ _ (fk_me _ _ _ _ _ _ _ _ _ HF))|cbn [procs set_totalTicketCount]; rewrite slot_other by done; by eexists|].
  intros tbl k' Hc. split; [done|]. exists (launched k0 p q3 cw), cw, ks, d, g, T', fl'. split; [done|]. split; [apply (core_fs _ _ Hc)|]. split; [apply (core_ps _ _ Hc)|].
  split; [unfold launched, q3, embryo; destruct (nid =? 1); split; rewrite ?Hcw; done|].
  apply (thread_memory_holds ks fl1 Hfl k2 Hm2 Hi2 k3 d g T' fl' HS k'). apply (core_ms _ _ Hc).
Qed.

Lemma thread_unlinked (k3 k4 : K) m fl' : kmem_inv k3 fl' -> (m <= s)%nat -> fl' ≡ₚ (take m us).*1 ++ fl1 ->
  stage c k0 0 [] k4 (slot j (set_pgdir 0 q0) psn) (k_ms k3) (k_fs k0) ->
  wp (handover i P1) ((abandon j ;; cprintf ("linkuvm failed" ++ nl) [] ;; ret (-1)) k4) (made c k0 nid thread_done thread_fails).
Proof.
  intros Hm3 Hms Hp3 Hs4. destruct (fork_slots k0 c i p j f us T fl HF) as (_ & Hjl & _). destruct (kstack_page k0 c i p j f us T fl HF ks fl1 Hfl) as (Pks & Hnks & _). rewrite bind_eq. apply wp_bind.
  assert (kmem_inv k4 fl') as Hm4 by (eapply kmem_same; [exact Hm3|rewrite (stage_ms _ _ _ _ _ _ _ _ Hs4); done..]).
  eapply wp_mono; [|apply wp_runs, (abandon_stage c k0 k4 j _ psn _ (k_fs k0) fl' Hs4 Hjl Hm4)]; [|exact Pks|].
  2:{ cbn. rewrite Hp3. intros [Hin|Hin]%elem_of_app; apply Hnks; [|set_solver]. apply elem_of_app. left. rewrite <-(take_drop m us), fmap_app. set_solver. }
  intros [] k5 (ms5 & Hs5 & Hm5 & _). eapply complaint; [exact Hs5|vm_compute; reflexivity|exact Hm5|]. intros k' Hk' Ep Ef Hm'.
  apply made_fails; [done|]. split; [done|]. split; [done|]. split; [rewrite Ep; eexists; split; done|]. exists m. eexists. split; [done|]. split; [exact Hm'|].
  cbn. rewrite Hfl, Hp3. solve_Permutation.
Qed.

End Allocated.


End Threads.

(** ** A thread on the small machine *)

(** The process of [kernel_tm] in slot 1, its stack pointer at 0x1FF0. *)
Definition ram_spawn : gmap Z Z := st32 ram_tm (V2P 0x80126FF8) 0x1FF0.

Definition spawning : proc :=
  set_cwd (Some 0%nat) (set_sz 8192 (set_tf 0x80126FB4 (set_kstack 0x80126000 (proc_in RUNNING 2 3 10)))).

Definition kernel_spawn : K :=
  set_k_ps (set_procs (<[1%nat := spawning]> table_running) (k_ps kernel_page))
    (set_k_ms (set_ram ram_spawn (k_ms kernel_tm)) (set_k_hw (set_cr3 0x120000 (k_hw kernel_page)) kernel_page)).

Lemma spawn_page : page_ok 0x80126000.
Proof. vm_compute. repeat split; congruence. Qed.

Lemma spawn_outside : same_outside [0x80126000] ram_tm ram_spawn.
Proof.
  intros x Hx. specialize (Hx 0x80126000 ltac:(left)). unfold ram_spawn. apply ld8_st32_out.
  change (V2P 0x80126000) with 0x126000 in Hx. change (V2P 0x80126FF8) with 0x126FF8. unfold PGSIZE in Hx. lia.
Qed.

Lemma kernel_spawn_space : uspace kernel_spawn 0x80120000 [(0x80125000, 3); (0x80123000, 7)] [0x80121000; 0x80122000] [].
Proof.
  apply (uspace_ms (with_ram ram_spawn kernel_tm)); [done|].
  apply (with_ram_space kernel_tm ram_spawn _ _ _ _ [0x80126000] kernel_tm_space spawn_outside); [apply Forall_singleton, spawn_page|set_solver|].
  apply bytes_ok_st32, (us_vm _ _ _ _ _ kernel_tm_space).
Qed.

Lemma kernel_spawn_forkable : forkable kernel_spawn 0 1 spawning 3 proc0 [(0x80125000, 3); (0x80123000, 7)] [0x80121000; 0x80122000] [].
Proof.
  split; try done.
  - split; try done; [|by eexists]. destruct kernel_page_holds. by split.
  - split; [by exists proc0|]. intros i q Hi Hq. destruct i as [|[|[|i]]]; [by injection Hq as <-..|lia].
  - exact kernel_spawn_space.
  - split; [|done]. unfold pages_to, PGSIZE. simpl. lia.
  - split; [exact spawn_page|split; [set_solver|done]].
  - split; [done|]. split; [done|]. apply Forall_replicate. done.
  - exists 0%nat. split; [done|]. by eexists.
Qed.

Lemma kernel_spawn_ready : thread_ready kernel_spawn spawning [(0x80125000, 3); (0x80123000, 7)] [0x80121000; 0x80122000] [] 0x80124000 0x80123000 7 0x80124FF0 0.
Proof.
  split; try done.
  - split; [apply (Forall_elem _ _ _ demo_pages_ok); set_solver|]. split; [set_solver|done].
  - apply (sees_frame kernel_tm ram_spawn 0x80120000 _ _ [0x80126000] _ kernel_tm_inv spawn_outside); [apply Forall_singleton, spawn_page|set_solver| |exact kernel_tm_sees].
    apply (Forall_elem _ _ _ demo_pages_ok). set_solver.
Qed.

