(* ===== verification/Reap.v ===== *)
(** * Collecting a child (proc.c: wait)

    [wait] frees the slot, the kernel stack and the address space of a child that
    has ended, or finds that there is no child. *)

From S2P Require Import Prelude Params State Mem Spinlock Seg Str Cprintf Kalloc Vm VmSpec AddrSpace UserMem Proc ProcSpec ProcRefine SleepWake FsState Sleeplock.
From S2P Require Import SleeplockSpec BlockDev Ide Bio Log Inode Console Fs Pipe File ProcLife ProcOps Fork Demo DemoFs.

(** A child of the process in slot [i], not a thread, and one that has ended. *)
Definition child (i : nat) (p : proc) : bool := (pid p =? first_pid p) && bool_decide (parent p = Some i).

Definition ended (i : nat) (p : proc) : bool := child i p && bool_decide (state p = ZOMBIE).

Section Reap.
Context {LK : Linker} {LKO : LinkerOk} {FU : Fuel} {BD : BlockDev}.
Implicit Types (k : K).

(** Children that have not ended are passed over. *)
Lemma scan_children_skip k i arg l1 l2 b : (forall x, x ∈ l1 -> exists p, procs (k_ps k) !! x = Some p /\ ended i p = false) ->
  exists b', scan_children (l1 ++ l2) i arg b k = scan_children l2 i arg b' k.
Proof.
  revert b. induction l1 as [|x l1 IH]; intros b Hl; [by exists b|]. destruct (Hl x) as (p & Hp & He); [left|].
  cbn [app scan_children]. rewrite bind_eq, (get_proc_at _ _ _ Hp). cbn [res_bind]. unfold ended, child in He.
  assert (forall b, exists b', scan_children (l1 ++ l2) i arg b k = scan_children l2 i arg b' k) as IH' by (intros b0; apply IH; intros y Hy; apply Hl; by right).
  destruct (pid p =? first_pid p); cbn [negb orb andb] in *; [|apply IH'].
  destruct (bool_decide (parent p = Some i)); cbn [negb andb] in *; [|apply IH']. rewrite He. apply IH'.
Qed.

(** The end of a child in slot [j]. *)
Lemma scan_children_reaps k0 c i j q l b us T fl : holds k0 c 1 [LKptable] -> procs (k_ps k0) !! j = Some q -> ended i q = true ->
  uspace k0 (pgdir q) us T fl -> Z.of_nat (length us) * PGSIZE <= KERNBASE -> page_ok (kstack q) -> kstack q ∉ us.*1 ++ pgdir q :: T ++ fl ->
  runs (scan_children (j :: l) i 0 b) k0 (fun r k' => r = inl (pid q) /\ exists ms fl', stage c k0 0 [] k' (slot j (cleared (set_kstack 0 q)) (k_ps k0)) ms (k_fs k0) /\
    kmem_inv k' fl' /\ fl' ≡ₚ kstack q :: pgdir q :: T ++ us.*1 ++ fl /\ same_outside (kstack q :: pgdir q :: T ++ us.*1) (ram (k_ms k0)) (ram ms)).
Proof.
  intros Hk Hq He HU Hl Pk Hn. unfold runs. cbn [scan_children]. rewrite bind_eq, (get_proc_at _ _ _ Hq). cbn [res_bind].
  unfold ended, child in He. apply andb_prop in He as [[E1 E2]%andb_prop E3]. rewrite E1, E2, E3. cbn [negb orb]. cbv zeta. change (nz 0) with false. cbn [when].
  rewrite bind_eq, ret_eq. cbn [res_bind]. wp_call (kfree_user k0 c 1 [LKptable] (pgdir q) us T fl (kstack q) Hk); [|set_solver|lia|done|done|done].
  intros [] k1 (Hk1 & Ho1 & HU1 & Hout1).
  assert (stage c k0 1 [LKptable] k0 (k_ps k0) (k_ms k0) (k_fs k0)) as Hs0 by (split; [done|by destruct k0]).
  pose proof (stage_ms_only _ _ _ _ _ _ _ _ _ _ _ Hs0 Hk1 Ho1) as Hs1.
  destruct (stage_upd _ _ _ _ _ _ _ _ Hs1 j q (set_kstack 0) Hq) as (k2 & E2' & Hs2). rewrite bind_eq, E2'. cbn [res_bind].
  assert (uspace k2 (pgdir q) us T (kstack q :: fl)) as HU2 by (apply (uspace_ms k1); [by rewrite (stage_ms _ _ _ _ _ _ _ _ Hs2)|done]).
  destruct (uspace_length k2 _ _ _ _ HU2) as [Eu Hfr]; [pose proof (page_count_whole KERNBASE ltac:(done) eq_refl); unfold PGSIZE in *; lia|].
  wp_call (freevm_holds k2 c 1 [LKptable] (pgdir q) T (kstack q :: fl) (sg_holds _ _ _ _ _ _ _ _ Hs2)); [|set_solver|lia|apply HU2|done].
  rewrite Eu. intros [] k3 (Hk3 & Ho3 & Hout3 & fl' & Hm3 & Hp3). pose proof (stage_ms_only _ _ _ _ _ _ _ _ _ _ _ Hs2 Hk3 Ho3) as Hs3.
  apply lookup_lt_Some in Hq as Hj. destruct (stage_child _ _ _ _ _ _ _ _ _ _ cleared Hs3 Hj) as (k4 & E4 & Hs4). rewrite bind_eq, E4. cbn [res_bind].
  wp_call (stage_release c k0 0 [] k4 _ _ _ LKptable Hs4); [|set_solver|lia]. intros [] k5 Hs5. rewrite ret_eq. cbn [wp]. split; [done|].
  exists (k_ms k3), fl'. split; [exact Hs5|]. split; [by eapply kmem_same; [exact Hm3|rewrite (stage_ms _ _ _ _ _ _ _ _ Hs5)..]|].
  split; [rewrite Hp3; solve_Permutation|]. intros x Hx. rewrite Hout3 by (intros y Hy; apply Hx; by right). rewrite (stage_ms _ _ _ _ _ _ _ _ Hs2).
  apply Hout1. intros y ->%list_elem_of_singleton. apply Hx. left.
Qed.

(** C16. A process whose child has ended collects it: [wait] returns the id of the
    first one in the table, its slot is free and cleared, and its kernel stack, its
    pages, its page tables and its directory are on the free list, each once; no
    other memory has been written, and files are untouched. *)
Theorem wait_reaps k c i j q us T fl
    (Hme : exists n, me k c i n) (Hfirst : first_slot (ended i) (procs (k_ps k)) j) (Hq : procs (k_ps k) !! j = Some q)
    (HU : uspace k (pgdir q) us T fl) (Hl : Z.of_nat (length us) * PGSIZE <= KERNBASE)
    (Pk : page_ok (kstack q)) (Hk : kstack q ∉ us.*1 ++ pgdir q :: T ++ fl) :
  runs wait k (fun r k' => r = pid q /\ holds k' c 0 [] /\ procs (k_ps k') = <[j := cleared (set_kstack 0 q)]> (procs (k_ps k)) /\ k_fs k' = k_fs k /\
    (exists fl', kmem_inv k' fl' /\ fl' ≡ₚ kstack q :: pgdir q :: T ++ us.*1 ++ fl) /\
    same_outside (kstack q :: pgdir q :: T ++ us.*1) (ram (k_ms k)) (ram (k_ms k'))).
Proof.
  destruct Hme as [n Hme]. destruct Hfirst as [(q' & Hq' & He) Hb]. rewrite Hq in Hq'. injection Hq' as <-. apply lookup_lt_Some in Hq as Hj. rewrite (me_len _ _ _ _ Hme) in Hj.
  unfold runs, wait, diagwait, curproc. rewrite bind_eq, wp_bind, bind_eq, wp_bind.
  eapply wp_mono; [|apply (myproc_holds k c 0 [] (me_holds _ _ _ _ Hme)); lia]. intros o k1 (-> & Hk1 & Hc1).
  rewrite (me_on _ _ _ _ Hme). cbn [deref]. rewrite ret_eq. cbn [wp].
  wp_call (acquire_holds k1 c 0 [] LKptable Hk1 (not_elem_of_nil _)); [|lia]. intros [] k2 [Hk2 Hc2].
  assert (core k2 = core k) as Hc by congruence. pose proof (core_ps _ _ Hc) as Eps. pose proof (core_ms _ _ Hc) as Ems.
  assert (forall x, x ∈ seq 0 j -> exists p, procs (k_ps k2) !! x = Some p /\ ended i p = false) as Hskip.
  { intros x [_ Hx]%elem_of_seq. destruct (lookup_lt_is_Some_2 (procs (k_ps k)) x) as [px Hpx]; [rewrite (me_len _ _ _ _ Hme); lia|].
    exists px. rewrite Eps. split; [done|]. apply (Hb x px); [lia|done]. }
  destruct (scan_children_skip k2 i 0 (seq 0 j) (j :: seq (S j) (63 - j)) false Hskip) as [b' Eb].
  pose proof (scan_children_reaps k2 c i j q (seq (S j) (63 - j)) b' us T fl Hk2) as Hr. rewrite Eps in Hr.
  specialize (Hr Hq He ltac:(by apply (uspace_ms k)) Hl Pk Hk). apply runs_Done in Hr as (r & k3 & Er & -> & ms & fl' & Hs & Hm & Hp & Hout).
  unfold fuel. erewrite loop_done; [|rewrite bind_eq, (slots_split j), Eb, Er by done; done].
  cbn [wp]. split; [done|]. split; [apply Hs|]. rewrite (stage_ps _ _ _ _ _ _ _ _ Hs), (stage_fs _ _ _ _ _ _ _ _ Hs), (stage_ms _ _ _ _ _ _ _ _ Hs), (core_fs _ _ Hc).
  split; [done|]. split; [done|]. split; [by exists fl'|]. by rewrite <-Ems.
Qed.

End Reap.

(** ** A child to collect *)

(** The child in slot 2 has ended; it has an empty address space. *)
Definition zombie : proc := set_parent (Some 1%nat) (set_kstack 0x80123000 (proc_in ZOMBIE 3 2 30)).

Definition kernel_reap : K :=
  set_k_ps (set_procs (<[2%nat := zombie]> table_running) (k_ps kernel_page)) (set_k_ms (k_ms kernel_um) kernel_page).

Lemma wait_reaps_witness : runs wait kernel_reap (fun r k' => r = 3 /\ procs (k_ps k') = <[2%nat := cleared (set_kstack 0 zombie)]> (procs (k_ps kernel_reap)) /\
  exists fl', kmem_inv k' fl' /\ fl' ≡ₚ [0x80123000; 0x80120000; 0x80121000; 0x80122000]).
Proof.
  eapply runs_mono; [apply (wait_reaps kernel_reap 0 1 2 zombie [] [] [0x80121000; 0x80122000])|].
  - exists 2. split; try done; [|by eexists]. destruct kernel_page_holds. by split.
  - split; [by exists zombie|]. intros i q Hi Hq. destruct i as [|[|i]]; [by injection Hq as <-..|lia].
  - done.
  - apply (uspace_ms kernel_um); [done|exact kernel_um_space].
  - done.
  - apply (Forall_elem _ _ _ demo_pages_ok). set_solver.
  - set_solver.
  - intros r k' (-> & _ & Ep & _ & Hm & _). split; [done|]. split; [exact Ep|]. exact Hm.
Defined.
