(* ===== verification/Exec.v ===== *)
(** * Running a program (exec.c) *)

From S2P Require Import Prelude Params State Mem Spinlock Seg Str Cprintf Kalloc Vm Proc FsState Sleeplock.
From S2P Require Import BlockDev Ide Bio Log Inode Console Fs Pipe File ProcLife.

(** ** Executable files *)

(* elf.h 6-22: elfhdr *)
Record elfhdr : Type := mkElf {
  e_magic : Z;
  e_entry : Z;
  e_phoff : Z;
  e_phnum : Z
}.

Definition sizeof_elfhdr : Z := 52.

(* elf.h 6-22: elfhdr *)
Definition get_elfhdr (bs : list Z) : elfhdr :=
  mkElf (word_at bs 0) (word_at bs 24) (word_at bs 28) (half_at bs 44).

(* elf.h 25-34: proghdr *)
Record proghdr : Type := mkPh {
  ph_type : Z;
  ph_off : Z;
  ph_vaddr : Z;
  ph_filesz : Z;
  ph_memsz : Z
}.

Definition sizeof_proghdr : Z := 32.

(* elf.h 25-34: proghdr *)
Definition get_proghdr (bs : list Z) : proghdr :=
  mkPh (word_at bs 0) (word_at bs 4) (word_at bs 8) (word_at bs 16) (word_at bs 20).

(** The part of the path after the last slash. *)
(* exec.c 91-93: exec *)
Fixpoint last_elem (last s : list Z) : list Z :=
  match s with
  | [] => last
  | c :: s' => if nz c then last_elem (if c =? slash then s' else last) s' else last
  end.

Section Exec.
  Context {LK : Linker} {FU : Fuel} {BD : BlockDev}.

(** The program headers from number [i] on; the new size, or [None] for
    [goto bad]. *)
(* exec.c 43-58: exec *)
Fixpoint load_segments (l : list Z) (pgdir : Z) (ip : nat) (phoff sz : Z) : M K (option Z) :=
  match l with
  | [] => ret (Some sz)
  | i :: l' =>
      r <- readi ip DLocal (u32 (phoff + i * sizeof_proghdr)) sizeof_proghdr ;;
      if negb (r.1 =? sizeof_proghdr) then ret None else
      let ph := get_proghdr r.2 in
      if negb (ph_type ph =? ELF_PROG_LOAD) then load_segments l' pgdir ip phoff sz else
      if ph_memsz ph <? ph_filesz ph then ret None else
      if u32 (ph_vaddr ph + ph_memsz ph) <? ph_vaddr ph then ret None else
      sz <- allocuvm pgdir sz (u32 (ph_vaddr ph + ph_memsz ph)) ;;
      if sz =? 0 then ret None else
      if negb (ph_vaddr ph `mod` PGSIZE =? 0) then ret None else
      r <- loaduvm pgdir (ph_vaddr ph) ip (ph_off ph) (ph_filesz ph) ;;
      if r <? 0 then ret None else
      load_segments l' pgdir ip phoff (u32 sz)
  end.

(** The argument strings are copied to the new stack; the stack pointer and the
    addresses of the strings. *)
(* exec.c 72-79: exec *)
Fixpoint push_args (argv : list (list Z)) (pgdir sp argc : Z) (ustack : list Z) :
    M K (option (Z * list Z)) :=
  match argv with
  | [] => ret (Some (sp, ustack))
  | s :: argv' =>
      if argc >=? MAXARG then ret None else
      let sp := Z.land (u32 (sp - (strlen s + 1))) (Z.lnot 3) in
      r <- copyout pgdir sp (take (Z.to_nat (strlen s)) s ++ [0]) ;;
      if r <? 0 then ret None else
      push_args argv' pgdir sp (argc + 1) (ustack ++ [sp])
  end.

(** [goto bad] with [ip] still locked, or null. *)
(* exec.c 106-113: exec *)
Definition exec_bad (pgdir : Z) (ip : option nat) : M K Z :=
  when (nz pgdir) (freevm pgdir) ;;
  match ip with
  | Some i => iunlockput i ;; end_op
  | None => ret tt
  end ;;
  ret (-1).

(** From the allocation of the stack on. *)
(* exec.c 63-104: exec *)
Definition exec_image (i : nat) (path : list Z) (argv : list (list Z)) (pgdir' sz' entry : Z) : M K Z :=
  let sz' := PGROUNDUP sz' in
  sz' <- allocuvm pgdir' sz' (u32 (sz' + 2 * PGSIZE)) ;;
  if sz' =? 0 then exec_bad pgdir' None else
  let sz' := u32 sz' in
  clearpteu pgdir' (u32 (sz' - 2 * PGSIZE)) ;;
  o <- push_args argv pgdir' sz' 0 [] ;;
  match o with
  | None => exec_bad pgdir' None
  | Some (sp, strs) =>
      let argc := Z.of_nat (length strs) in
      let ustack := [0xffffffff; argc; u32 (sp - (argc + 1) * 4)] ++ strs ++ [0] in
      let sp := u32 (sp - (3 + argc + 1) * 4) in
      r <- copyout pgdir' sp (concat (le_bytes 4 <$> ustack)) ;;
      if r <? 0 then exec_bad pgdir' None else
      upd_proc i (fun p => set_name (safestrcpy (name p) (last_elem path path) 16) p) ;;
      p <- get_proc i ;;
      let oldpgdir := pgdir p in
      upd_proc i (set_pgdir pgdir') ;;
      upd_proc i (set_sz sz') ;;
      kstore32 (tf p + tf_eip) entry ;;
      kstore32 (tf p + tf_esp) sp ;;
      switchuvm (Some i) ;;
      freevm oldpgdir ;;
      ret 0
  end.

(* exec.c 10-114: exec *)
Definition exec (path : list Z) (argv : list (list Z)) : M K Z :=
  i <- curproc ;;
  begin_op ;;
  o <- namei path ;;
  match o with
  | None => end_op ;; cprintf ("exec: fail" ++ nl) [] ;; ret (-1)
  | Some ip =>
      ilock (Some ip) ;;
      r <- readi ip DLocal 0 sizeof_elfhdr ;;
      if negb (r.1 =? sizeof_elfhdr) then exec_bad 0 (Some ip) else
      let elf := get_elfhdr r.2 in
      if negb (e_magic elf =? ELF_MAGIC) then exec_bad 0 (Some ip) else
      pgdir <- setupkvm ;;
      if pgdir =? 0 then exec_bad 0 (Some ip) else
      o <- load_segments (zseq (Z.to_nat (e_phnum elf))) pgdir ip (e_phoff elf) 0 ;;
      match o with
      | None => exec_bad pgdir (Some ip)
      | Some sz =>
          iunlockput ip ;;
          end_op ;;
          exec_image i path argv pgdir sz (e_entry elf)
      end
  end.

End Exec.
