(* ===== verification/Syscall.v ===== *)
(** * System call arguments (syscall.c) and the calls on processes (sysproc.c)

    Arguments are fetched from the user stack and checked against the size of
    the process.  A string argument is read when it is checked, and passed on by
    its characters; the code keeps a pointer to it. *)

From S2P Require Import Prelude Params State Mem Spinlock Seg Str Cprintf Kalloc Vm Proc FsState Sleeplock.
From S2P Require Import BlockDev Ide Bio Log Inode Console Fs Pipe File ProcLife.

(** [sizeof(struct procTimes)] *)
Definition sizeof_procTimes : Z := 12.

Section Syscall.
  Context {LK : Linker} {FU : Fuel} {BD : BlockDev}.

(** ** Fetching arguments *)

(** [None] is the result -1; the variable is not assigned then. *)
(* syscall.c 17-26: fetchint *)
Definition fetchint (addr : Z) : M K (option Z) :=
  i <- curproc ;;
  p <- get_proc i ;;
  if (addr >=? sz p) || (u32 (addr + 4) >? sz p) then ret None else
  v <- uload32 addr ;;
  ret (Some (s32 v)).

(** The characters from [s] on up to the null before [s + n]. *)
(* syscall.c 41-45: fetchstr *)
Fixpoint scan_str (n : nat) (s : Z) (acc : list Z) : M K (option (list Z)) :=
  match n with
  | O => ret None
  | S n' =>
      c <- uload8 s ;;
      if c =? 0 then ret (Some acc) else scan_str n' (s + 1) (acc ++ [c])
  end.

(* syscall.c 31-46: fetchstr *)
Definition fetchstr (addr : Z) : M K (option (list Z)) :=
  i <- curproc ;;
  p <- get_proc i ;;
  if addr >=? sz p then ret None else
  scan_str (Z.to_nat (sz p - addr)) addr [].

(* syscall.c 49-53: argint *)
Definition argint (n : Z) : M K (option Z) :=
  i <- curproc ;;
  p <- get_proc i ;;
  esp <- kload32 (tf p + tf_esp) ;;
  fetchint (u32 (esp + 4 + 4 * n)).

(* syscall.c 58-70: argptr *)
Definition argptr (n size : Z) : M K (option Z) :=
  i <- curproc ;;
  o <- argint n ;;
  match o with
  | None => ret None
  | Some v =>
      p <- get_proc i ;;
      if (size <? 0) || (u32 v >=? sz p) || (u32 (u32 v + size) >? sz p) then ret None
      else ret (Some (u32 v))
  end.

(* syscall.c 76-83: argstr *)
Definition argstr (n : Z) : M K (option (list Z)) :=
  o <- argint n ;;
  match o with
  | None => ret None
  | Some addr => fetchstr (u32 addr)
  end.

(** [if(arg...(...) < 0) return -1;] *)
Definition or_fail {A} (m : M K (option A)) (f : A -> M K Z) : M K Z :=
  o <- m ;;
  match o with
  | None => ret (-1)
  | Some a => f a
  end.

(** ** Calls on processes *)

(* sysproc.c 10-14: sys_fork *)
Definition sys_fork : M K Z := fork.

(* sysproc.c 16-21: sys_exit *)
Definition sys_exit : M K Z := exit ;; ret 0.

(** The pointer is used although the check can have failed: it is not
    initialised then. *)
(* sysproc.c 23-29: sys_diagwait *)
Definition sys_diagwait : M K Z :=
  o <- argptr 0 sizeof_procTimes ;;
  arg <- match o with Some a => ret a | None => undef "arg" end ;;
  diagwait arg.

(* sysproc.c 31-35: sys_wait *)
Definition sys_wait : M K Z := wait.

(* sysproc.c 37-45: sys_kill *)
Definition sys_kill : M K Z := or_fail (argint 0) kill.

(* sysproc.c 47-51: sys_getpid *)
Definition sys_getpid : M K Z :=
  i <- curproc ;; p <- get_proc i ;; ret (pid p).

(* sysproc.c 53-65: sys_sbrk *)
Definition sys_sbrk : M K Z :=
  or_fail (argint 0) (fun n =>
    i <- curproc ;;
    p <- get_proc i ;;
    let addr := s32 (sz p) in
    r <- growproc n ;;
    ret (if r <? 0 then -1 else addr)).

(** [ticks - ticks0 < n] is a comparison of unsigned numbers. *)
(* sysproc.c 67-86: sys_sleep *)
Definition sys_sleep : M K Z :=
  or_fail (argint 0) (fun n =>
    acquire LKtick ;;
    ticks0 <- get_ticks ;;
    loop fuel (
      t <- get_ticks ;;
      if negb (u32 (t - ticks0) <? u32 n) then release LKtick ;; ret (Some 0) else
      dead <- my_killed ;;
      if (dead : bool) then release LKtick ;; ret (Some (-1)) else
      sleep ChTicks LKtick ;;
      ret None)).

(* sysproc.c 90-99: sys_uptime *)
Definition sys_uptime : M K Z :=
  acquire LKtick ;;
  xticks <- get_ticks ;;
  release LKtick ;;
  ret (s32 xticks).

(* sysproc.c 103-107: sys_getpage *)
Definition sys_getpage : M K Z := v <- getpage ;; ret (s32 v).

(* sysproc.c 109-116: sys_detachpage *)
Definition sys_detachpage : M K Z :=
  or_fail (argint 0) (fun loc => v <- detachpage (u32 loc) ;; ret (s32 v)).

(* sysproc.c 118-125: sys_thread_create *)
Definition sys_thread_create : M K Z := or_fail (argint 0) (fun stack => thread_create (u32 stack)).

(* sysproc.c 127-131: sys_thread_id *)
Definition sys_thread_id : M K Z :=
  i <- curproc ;; p <- get_proc i ;; ret (pid p).

(* sysproc.c 133-140: sys_thread_join *)
Definition sys_thread_join : M K Z := or_fail (argint 0) thread_join.

(* sysproc.c 142-149: sys_change_policy *)
Definition sys_change_policy : M K Z := or_fail (argint 0) change_policy.

(* sysproc.c 151-155: sys_get_policy *)
Definition sys_get_policy : M K Z := get_policy.

(* sysproc.c 157-166: sys_set_priority *)
Definition sys_set_priority : M K Z :=
  or_fail (argint 0) (fun prio => set_priority prio ;; ret 1).

(** The function has no result: what its caller reads as one is [garbage]. *)
(* sysproc.c 168-174: sys_get_proc_times *)
Definition sys_get_proc_times (garbage : Z) : M K Z :=
  o <- argptr 0 sizeof_procTimes ;;
  arg <- match o with Some a => ret a | None => undef "arg" end ;;
  get_proc_times arg ;;
  ret garbage.

(* sysproc.c 176-179: sys_get_ticketCount *)
Definition sys_get_ticketCount : M K Z := get_ticketCount.

(* sysproc.c 181-191: sys_set_ticketCount *)
Definition sys_set_ticketCount : M K Z :=
  or_fail (argint 0) (fun n =>
    if n >? 0 then set_ticketCount n ;; ret 0 else ret (-1)).

End Syscall.
