(* ===== verification/ArgSpec.v ===== *)
(** * The checks on system call arguments (syscall.c)

    [argptr] and [fetchstr] compute with unsigned 32-bit numbers that wrap
    around; the theorems show that what they let through is what the plain
    arithmetic says, so that the kernel reads and writes only user memory. *)

From S2P Require Import Prelude Params State Mem Spinlock Seg Str Cprintf Kalloc Vm Proc ProcSpec ProcRefine SleepWake FsState Sleeplock.
From S2P Require Import SleeplockSpec BlockDev Ide Bio Log Inode Console Fs Pipe File ProcLife Syscall Demo DemoFs.

(** The byte the current process has at [va]. *)
Definition ubyte (k : K) (va : Z) : Z :=
  from_option (ld8 (ram (k_ms k))) 0 (translate (ram (k_ms k)) (cr3 (k_hw k)) va false).

Definition ubytes (k : K) (va : Z) (n : nat) : list Z := (fun j => ubyte k (va + Z.of_nat j)) <$> seq 0 n.

Definition uword (k : K) (va : Z) : Z := le_val (ubytes k va 4).

(** All of the process's memory is mapped and holds bytes. *)
Definition resident (k : K) (p : proc) : Prop :=
  forall va, 0 <= va < sz p ->
    is_Some (translate (ram (k_ms k)) (cr3 (k_hw k)) va false) /\ 0 <= ubyte k va < 256.

(** The place of argument [n] on the user stack. *)
Definition arg_slot (k : K) (p : proc) (n : Z) : Z := u32 (ld32 (ram (k_ms k)) (V2P (tf p + tf_esp)) + 4 + 4 * n).

(** The characters before the first null. *)
Fixpoint upto_nul (bs : list Z) : option (list Z) :=
  match bs with
  | [] => None
  | b :: bs' => if b =? 0 then Some [] else cons b <$> upto_nul bs'
  end.

Section ArgSpec.
Context {LK : Linker} {FU : Fuel} {BD : BlockDev}.
Context (k : K) (c pi : nat) (q : Z) (p : proc).
Hypothesis (Hm : me k c pi q) (Hp : procs (k_ps k) !! pi = Some p).
Hypothesis (Hsz : 0 <= sz p <= KERNBASE) (Hres : resident k p).

(** The states reached differ from [k] in the lock bookkeeping only. *)
Definition like (k' : K) : Prop := holds k' c 0 [] /\ core k' = core k.

Lemma like_hw k' : like k' -> k_ms k' = k_ms k /\ k_ps k' = k_ps k /\ cr3 (k_hw k') = cr3 (k_hw k).
Proof.
  intros [_ Hc]. split; [by rewrite (core_ms _ _ Hc)|]. split; [by rewrite (core_ps _ _ Hc)|].
  apply (f_equal (fun k => cr3 (k_hw k))) in Hc. exact Hc.
Qed.

Lemma like_refl : like k.
Proof. split; [apply Hm|done]. Qed.

Lemma get_proc_like k' : like k' -> get_proc pi k' = Done p k'.
Proof. intros Hk. destruct (like_hw k' Hk) as (_ & E & _). unfold get_proc. kred. by rewrite E, Hp. Qed.

Lemma curproc_like k' : like k' -> runs curproc k' (fun i k'' => i = pi /\ like k'').
Proof.
  intros [Hk Hc]. unfold runs, curproc. wp_call (myproc_holds k' c 0 [] Hk); [|lia]. intros o k1 (-> & Hk1 & Hc1).
  rewrite (core_proc_on c _ _ Hc), (me_on _ _ _ _ Hm). kred. split; [done|]. split; [done|congruence].
Qed.

(** Loads of the process's memory. *)
Lemma uload_like k' va n :
  like k' -> 0 <= va -> va + Z.of_nat n <= sz p -> uload va n k' = Done (ubytes k va n) k'.
Proof.
  intros Hk. destruct (like_hw k' Hk) as (Em & _ & Er). revert va.
  induction n as [|n IH]; intros va Hva Hle; [done|]. cbn [uload].
  destruct (Hres va ltac:(lia)) as [[pa Hpa] _].
  unfold uload8, phys. kred. rewrite Em, Er, u32_small, Hpa by (unfold KERNBASE in *; lia). kred.
  rewrite IH by lia. kred. f_equal. unfold ubytes. cbn [seq fmap list_fmap].
  f_equal; [unfold ubyte; by rewrite Z.add_0_r, Em, Hpa|]. rewrite <- fmap_S_seq, <- list_fmap_compose.
  apply list_fmap_ext. intros j x _. simpl. f_equal. lia.
Qed.

Lemma uword_range va : 0 <= va -> va + 4 <= sz p -> 0 <= uword k va < 2 ^ 32.
Proof.
  intros H1 H2. unfold uword, ubytes. cbn [seq fmap list_fmap le_val].
  pose proof (proj2 (Hres (va + Z.of_nat 0) ltac:(lia))). pose proof (proj2 (Hres (va + Z.of_nat 1) ltac:(lia))).
  pose proof (proj2 (Hres (va + Z.of_nat 2) ltac:(lia))). pose proof (proj2 (Hres (va + Z.of_nat 3) ltac:(lia))). lia.
Qed.

Lemma fetchint_like k' va :
  like k' -> 0 <= va < 2 ^ 32 ->
  runs (fetchint va) k' (fun r k'' => like k'' /\ r = if va + 4 <=? sz p then Some (s32 (uword k va)) else None).
Proof.
  intros Hk Hva. unfold runs, fetchint. wp_call (curproc_like k' Hk). intros i k1 (-> & Hk1).
  rewrite bind_eq, (get_proc_like _ Hk1). cbn [res_bind]. unfold KERNBASE in Hsz.
  destruct (va >=? sz p) eqn:E1; cbn [orb].
  { kred. split; [done|]. by replace (va + 4 <=? sz p) with false by lia. }
  rewrite u32_small by lia. destruct (va + 4 >? sz p) eqn:E2.
  { kred. split; [done|]. by replace (va + 4 <=? sz p) with false by lia. }
  unfold uload32. rewrite !bind_eq, (uload_like k1 va 4 Hk1) by lia. cbn [res_bind]. kred.
  split; [done|]. by replace (va + 4 <=? sz p) with true by lia.
Qed.

Lemma argint_like k' n :
  like k' ->
  runs (argint n) k' (fun r k'' => like k'' /\
    r = if arg_slot k p n + 4 <=? sz p then Some (s32 (uword k (arg_slot k p n))) else None).
Proof.
  intros Hk. unfold runs, argint. wp_call (curproc_like k' Hk). intros i k1 (-> & Hk1).
  rewrite bind_eq, (get_proc_like _ Hk1). cbn [res_bind]. unfold kload32. kred.
  destruct (like_hw k1 Hk1) as (-> & _). apply (fetchint_like k1 (arg_slot k p n) Hk1). apply u32_range.
Qed.

(** C29. [argptr] lets an argument through exactly when the block of [size]
    bytes it points to lies within the process, by plain arithmetic, for every
    value on the user stack and every size: the wrap-around of the unsigned
    sums in the code is never met. *)
Theorem argptr_checks n size (Hs : - 2 ^ 31 <= size < 2 ^ 31) :
  let a := arg_slot k p n in let v := uword k a in
  runs (argptr n size) k (fun r k' => core k' = core k /\
    r = if (a + 4 <=? sz p) && (0 <=? size) && (v <? sz p) && (v + size <=? sz p) then Some v else None).
Proof.
  cbv zeta. set (a := arg_slot k p n). unfold runs, argptr. wp_call (curproc_like k like_refl). intros i k1 (-> & Hk1).
  wp_call (argint_like k1 n Hk1). intros o k2 (Hk2 & ->). fold a.
  destruct (a + 4 <=? sz p) eqn:Ea; [|kred; split; [apply Hk2|done]].
  rewrite bind_eq, (get_proc_like _ Hk2). cbn [res_bind].
  assert (0 <= a) as Ha0 by apply u32_range. pose proof (uword_range a Ha0 ltac:(lia)) as Hv.
  rewrite u32_s32, (u32_small (uword k a)) by lia. set (v := uword k a) in *. unfold KERNBASE in Hsz.
  destruct (0 <=? size) eqn:E1; [replace (size <? 0) with false by lia|replace (size <? 0) with true by lia; kred; split; [apply Hk2|done]].
  cbn [orb andb]. destruct (v <? sz p) eqn:E2; [replace (v >=? sz p) with false by lia|replace (v >=? sz p) with true by lia; kred; split; [apply Hk2|done]].
  cbn [orb andb]. rewrite u32_small by lia.
  destruct (v + size <=? sz p) eqn:E3; [replace (v + size >? sz p) with false by lia|replace (v + size >? sz p) with true by lia];
    kred; (split; [apply Hk2|done]).
Qed.

(** ** Strings *)

Lemma scan_str_like k' n s acc :
  like k' -> 0 <= s -> s + Z.of_nat n <= sz p ->
  scan_str n s acc k' = Done (app acc <$> upto_nul (ubytes k s n)) k'.
Proof.
  intros Hk. revert s acc. induction n as [|n IH]; intros s acc Hs Hle; [done|]. cbn [scan_str].
  pose proof (uload_like k' s 1 Hk Hs ltac:(lia)) as E. cbn [uload] in E. rewrite !bind_eq in E.
  rewrite bind_eq. destruct (uload8 s k') as [b kb|? ?|?|? ?|?|? ? ?]; try done. cbn [res_bind] in E. rewrite bind_eq, !ret_eq in E.
  cbn [res_bind] in E. injection E as -> ->. cbn [res_bind].
  unfold ubytes. cbn [seq fmap list_fmap upto_nul]. rewrite Z.add_0_r. destruct (ubyte k s =? 0) eqn:Eb.
  - rewrite ret_eq. cbn. by rewrite app_nil_r.
  - rewrite IH by lia. f_equal. unfold ubytes. rewrite <- fmap_S_seq, <- list_fmap_compose.
    rewrite (list_fmap_ext (fun j => ubyte k (s + 1 + Z.of_nat j)) ((fun j => ubyte k (s + Z.of_nat j)) ∘ S)).
    2:{ intros j x _. simpl. f_equal. lia. }
    destruct (upto_nul _); cbn; [|done]. by rewrite <- app_assoc.
Qed.

(** C30. [argstr] returns the characters up to the first null of the string the
    argument points to, and fails exactly when the argument or the string is not
    within the process. *)
Theorem argstr_fetches n :
  let a := arg_slot k p n in let v := uword k a in
  runs (argstr n) k (fun r k' => core k' = core k /\
    r = if a + 4 <=? sz p then upto_nul (ubytes k v (Z.to_nat (sz p - v))) else None).
Proof.
  cbv zeta. set (a := arg_slot k p n). unfold runs, argstr. wp_call (argint_like k n like_refl). intros o k1 (Hk1 & ->). fold a.
  destruct (a + 4 <=? sz p) eqn:Ea; [|kred; split; [apply Hk1|done]].
  assert (0 <= a) as Ha0 by apply u32_range. pose proof (uword_range a Ha0 ltac:(lia)) as Hv.
  rewrite u32_s32, (u32_small (uword k a)) by lia. set (v := uword k a) in *.
  unfold fetchstr. wp_call (curproc_like k1 Hk1). intros i k2 (-> & Hk2).
  rewrite bind_eq, (get_proc_like _ Hk2). cbn [res_bind]. destruct (v >=? sz p) eqn:E.
  - kred. split; [apply Hk2|]. by replace (Z.to_nat (sz p - v)) with 0%nat by lia.
  - rewrite (scan_str_like k2) by (done || lia). cbn [wp]. split; [apply Hk2|]. by destruct (upto_nul _).
Qed.

End ArgSpec.

(** ** A process with one page

    Its directory, page table and page are at 0x1000, 0x2000 and 0x3000; the
    trap frame is at 0x4000.  The stack has 0x100 as argument 0, where the
    characters of [ab] are, and 0xff0 as argument 1. *)
Definition ram_args : gmap Z Z :=
  st32 (st32 (st32 (st32 (st32 (st32 ∅ 0x1000 0x2007) 0x2000 0x3007) (0x4000 + tf_esp) 0xf00)
    0x3f04 0x100) 0x3f08 0xff0) 0x3100 0x6261.

Definition proc_args : proc := set_tf 0x80004000 (proc_in RUNNING 2 3 10).

Definition kernel_args : K :=
  mkK (mkHw [mkCpu 0 (replicate 6 (SEG 0 0 0 0)) (mkTs 0 0 0) 1 0 0 (Some 1%nat) 0 1 0] 1 0 false 0x1000 0
         None false 0xfee00000 ∅ 0 ∅)
    ∅ ∅ (mkPs (<[1%nat := proc_args]> table_running) (Some 0%nat) 40 7 4 100 0) (mkMs ram_args 1 0 0x80130000) cons0 fs0.

Lemma kernel_args_me : me kernel_args 0 1 2.
Proof.
  split; try done; [|by eexists]. destruct kernel_running_holds. by split.
Qed.

Lemma ram_args_bytes a : 0 <= ld8 ram_args a < 256.
Proof.
  assert (map_Forall (fun _ b => 0 <= b < 256) ram_args) as H by (apply (bool_decide_unpack _); by vm_compute).
  unfold ld8. destruct (ram_args !! a) as [b|] eqn:E; simpl; [by apply (H a)|lia].
Qed.

Lemma kernel_args_resident : resident kernel_args proc_args.
Proof.
  intros va Hva. change (sz proc_args) with 4096 in Hva.
  assert (translate ram_args 0x1000 va false = Some (0x3000 + va `mod` PGSIZE)) as E.
  { assert (PDX va = 0) as E1.
    { unfold PDX. rewrite u32_small, Z.shiftr_div_pow2, Z.div_small by (unfold PDXSHIFT; lia). done. }
    assert (PTX va = 0) as E2.
    { unfold PTX. rewrite u32_small, Z.shiftr_div_pow2, Z.div_small by (unfold PTXSHIFT; lia). done. }
    unfold translate, pte_of. rewrite E1, E2. done. }
  unfold ubyte. cbn [kernel_args k_ms k_hw ram cr3]. rewrite E. split; [by eexists|]. apply ram_args_bytes.
Qed.

Lemma argptr_checks_witness :
  runs (argptr 0 16) kernel_args (fun r _ => r = Some 0x100) /\ runs (argptr 1 32) kernel_args (fun r _ => r = None).
Proof.
  pose proof (argptr_checks kernel_args 0 1 2 proc_args kernel_args_me eq_refl
    ltac:(unfold KERNBASE; simpl; lia) kernel_args_resident) as H.
  pose proof (H 0 16 ltac:(lia)) as H0. pose proof (H 1 32 ltac:(lia)) as H1. cbv zeta in H0, H1.
  split; [eapply runs_mono; [exact H0|]|eapply runs_mono; [exact H1|]]; intros r k' [_ ->]; by vm_compute.
Defined.

Lemma argstr_fetches_witness : runs (argstr 0) kernel_args (fun r _ => r = Some [97; 98]).
Proof.
  pose proof (argstr_fetches kernel_args 0 1 2 proc_args kernel_args_me eq_refl
    ltac:(unfold KERNBASE; simpl; lia) kernel_args_resident 0) as H. cbv zeta in H.
  eapply runs_mono; [exact H|]. intros r k' [_ ->]. by vm_compute.
Defined.
