(* ===== verification/PipeSpec.v ===== *)
(** * Pipes are queues (pipe.c)

    The counters [nread] and [nwrite] run on for ever and wrap around at
    [2 ^ 32]; their difference is the number of bytes in the pipe.  Reads and
    writes are those of a queue of at most [PIPESIZE] bytes. *)

From S2P Require Import Prelude Params State Mem Spinlock Seg Str Cprintf Kalloc Vm Proc ProcSpec ProcRefine SleepWake FsState Sleeplock.
From S2P Require Import SleeplockSpec BlockDev Ide Bio Log Inode Console Fs Pipe File ProcLife Syscall ArgSpec Demo DemoFs.

(** The number of bytes in the pipe, and the bytes. *)
Definition count (pp : pipe) : Z := u32 (p_nwrite pp - p_nread pp).

Definition queue (pp : pipe) : list Z :=
  (fun j => p_data pp !!! Z.to_nat ((p_nread pp + Z.of_nat j) `mod` PIPESIZE)) <$> seq 0 (Z.to_nat (count pp)).

Record pipe_ok (pp : pipe) : Prop := {
  po_len : length (p_data pp) = 512%nat;
  po_read : 0 <= p_nread pp < 2 ^ 32;
  po_write : 0 <= p_nwrite pp < 2 ^ 32;
  po_count : count pp <= 512
}.

Lemma u32_sub_l a b : u32 (u32 a - b) = u32 (a - b).
Proof. unfold u32. apply Zminus_mod_idemp_l. Qed.

Lemma u32_sub_r a b : u32 (a - u32 b) = u32 (a - b).
Proof. unfold u32. apply Zminus_mod_idemp_r. Qed.

(** The size of the ring divides the range of the counters. *)
Lemma slot_wrap a j : (u32 a + j) `mod` 512 = (a + j) `mod` 512.
Proof.
  unfold u32. rewrite (Z.mod_eq a (2 ^ 32)) by lia.
  replace (a - 2 ^ 32 * (a `div` 2 ^ 32) + j) with (a + j + (- (2 ^ 23) * (a `div` 2 ^ 32)) * 512) by lia.
  apply Z.mod_add. lia.
Qed.

Lemma slot_apart a i j : 0 <= i < j -> j < i + 512 -> (a + i) `mod` 512 <> (a + j) `mod` 512.
Proof.
  intros Hij Hj E.
  assert ((j - i) `mod` 512 = 0) as E0.
  { replace (j - i) with (a + j - (a + i)) by lia. rewrite Zminus_mod, E, Z.sub_diag. done. }
  rewrite Z.mod_small in E0 by lia. lia.
Qed.

Lemma length_queue pp : length (queue pp) = Z.to_nat (count pp).
Proof. unfold queue. by rewrite length_fmap, length_seq. Qed.

Lemma count_range pp : 0 <= count pp < 2 ^ 32.
Proof. apply u32_range. Qed.

(** The writer waits exactly when the pipe is full. *)
Lemma full_count pp : pipe_ok pp -> (p_nwrite pp =? u32 (p_nread pp + PIPESIZE)) = (count pp =? 512).
Proof.
  intros [_ Hr Hw _]. unfold PIPESIZE, count. apply eq_iff_eq_true. rewrite !Z.eqb_eq. split; intros E.
  - rewrite E, u32_sub_l. replace (p_nread pp + 512 - p_nread pp) with 512 by lia. done.
  - rewrite <- E. unfold u32. rewrite Zplus_mod_idemp_r. replace (p_nread pp + (p_nwrite pp - p_nread pp)) with (p_nwrite pp) by lia.
    by rewrite Z.mod_small.
Qed.

(** The reader waits or stops exactly when it is empty. *)
Lemma empty_count pp : pipe_ok pp -> (p_nread pp =? p_nwrite pp) = (count pp =? 0).
Proof.
  intros [_ Hr Hw _]. unfold count. apply eq_iff_eq_true. rewrite !Z.eqb_eq. split; intros E.
  - by rewrite E, Z.sub_diag.
  - unfold u32 in E. apply Z.mod_divide in E as [m Hm]; [|lia]. assert (m = 0) by lia. lia.
Qed.

Lemma count_push c pp : pipe_ok pp -> count pp < 512 -> count (pipe_push c pp) = count pp + 1.
Proof.
  intros H Hc. pose proof (count_range pp). unfold count. simpl. rewrite u32_sub_l.
  replace (p_nwrite pp + 1 - p_nread pp) with (p_nwrite pp - p_nread pp + 1) by lia.
  unfold u32. rewrite <- Zplus_mod_idemp_l. fold (u32 (p_nwrite pp - p_nread pp)). fold (count pp). apply Z.mod_small. lia.
Qed.

Lemma push_ok c pp : pipe_ok pp -> count pp < 512 -> pipe_ok (pipe_push c pp).
Proof.
  intros H Hc. pose proof (count_push c pp H Hc) as E. destruct H as [H1 H2 H3 H4]. split.
  - simpl. by rewrite length_insert.
  - done.
  - apply u32_range.
  - lia.
Qed.

Lemma queue_push c pp : pipe_ok pp -> count pp < 512 -> queue (pipe_push c pp) = queue pp ++ [c].
Proof.
  intros H Hc. pose proof (count_range pp) as Hr. unfold queue. rewrite (count_push c pp H Hc).
  replace (Z.to_nat (count pp + 1)) with (Z.to_nat (count pp) + 1)%nat by lia. rewrite seq_app, fmap_app. simpl. unfold PIPESIZE.
  assert (p_nwrite pp `mod` 512 = (p_nread pp + count pp) `mod` 512) as Ew.
  { unfold count. rewrite Z.add_comm, slot_wrap. f_equal. lia. }
  rewrite Z2Nat.id by lia. rewrite Ew. set (t := (p_nread pp + count pp) `mod` 512).
  assert (0 <= t < 512) as Ht by (apply Z.mod_pos_bound; lia). destruct H as [H1 H2 H3 H4]. f_equal.
  - apply list_fmap_ext. intros i j Hj. apply lookup_seq in Hj as [-> Hj]. rewrite list_lookup_total_insert_ne; [done|].
    intros E. apply Z2Nat.inj in E; [|lia|apply Z.mod_pos_bound; lia].
    unfold t in E. symmetry in E. apply slot_apart in E; lia.
  - f_equal. rewrite list_lookup_total_insert_eq; [done|]. rewrite H1. lia.
Qed.

Lemma count_pop pp : pipe_ok pp -> 0 < count pp -> count (pipe_pop pp) = count pp - 1.
Proof.
  intros H Hc. pose proof (count_range pp). unfold count. simpl. rewrite u32_sub_r.
  replace (p_nwrite pp - (p_nread pp + 1)) with (p_nwrite pp - p_nread pp - 1) by lia.
  unfold u32. rewrite <- Zminus_mod_idemp_l. fold (u32 (p_nwrite pp - p_nread pp)). fold (count pp). apply Z.mod_small. lia.
Qed.

Lemma pop_ok pp : pipe_ok pp -> 0 < count pp -> pipe_ok (pipe_pop pp).
Proof.
  intros H Hc. pose proof (count_pop pp H Hc) as E. destruct H as [H1 H2 H3 H4]. split; [done|apply u32_range|done|lia].
Qed.

Lemma queue_pop pp : pipe_ok pp -> 0 < count pp -> queue pp = pipe_front pp :: queue (pipe_pop pp).
Proof.
  intros H Hc. unfold queue. rewrite (count_pop pp H Hc).
  replace (Z.to_nat (count pp)) with (S (Z.to_nat (count pp - 1))) by lia. cbn [seq fmap list_fmap]. f_equal.
  - unfold pipe_front. by rewrite Z.add_0_r.
  - rewrite <- fmap_S_seq, <- list_fmap_compose. apply list_fmap_ext. intros i j _. simpl. unfold PIPESIZE.
    rewrite slot_wrap. do 3 f_equal. lia.
Qed.

Section PipeSpec.
Context {LK : Linker} {FU : Fuel} {BD : BlockDev}.
Implicit Types (k : K).

Definition with_pipe (p : Z) (pp : pipe) (k : K) : K := set_k_fs (set_pipes (<[p := pp]> (pipes (k_fs k))) (k_fs k)) k.

Lemma get_pipe_eq k p pp : pipes (k_fs k) !! p = Some pp -> get_pipe p k = Done pp k.
Proof. intros H. unfold get_pipe, get_fs. kred. by rewrite H. Qed.

Lemma upd_pipe_eq k p pp f : pipes (k_fs k) !! p = Some pp -> upd_pipe p f k = Done tt (with_pipe p (f pp) k).
Proof.
  intros H. unfold upd_pipe. rewrite bind_eq, (get_pipe_eq _ _ _ H). cbn [res_bind]. unfold on_fs. rewrite modify_eq.
  unfold with_pipe. do 3 f_equal. apply map_eq. intros i. rewrite lookup_alter, lookup_insert.
  case_decide as E; [|done]. subst. by rewrite H.
Qed.

Lemma with_pipe_twice p a b k : with_pipe p a (with_pipe p b k) = with_pipe p a k.
Proof. unfold with_pipe. simpl. by rewrite insert_insert_eq. Qed.

Lemma with_pipe_at p pp k : pipes (k_fs (with_pipe p pp k)) !! p = Some pp.
Proof. apply lookup_insert_eq. Qed.

Lemma with_pipe_id p pp k : pipes (k_fs k) !! p = Some pp -> with_pipe p pp k = k.
Proof. intros H. unfold with_pipe. rewrite insert_id by done. by destruct k as [? ? ? ? ? ? []]. Qed.

(** Bytes of user memory. *)
Definition readable (k : K) (addr : Z) (n : nat) : Prop :=
  0 <= addr /\ addr + Z.of_nat n < 2 ^ 32 /\
  forall j, (j < n)%nat -> is_Some (translate (ram (k_ms k)) (cr3 (k_hw k)) (addr + Z.of_nat j) false).

Lemma uload8_eq k k1 va :
  k_ms k1 = k_ms k -> cr3 (k_hw k1) = cr3 (k_hw k) -> 0 <= va < 2 ^ 32 ->
  is_Some (translate (ram (k_ms k)) (cr3 (k_hw k)) va false) -> uload8 va k1 = Done (ubyte k va) k1.
Proof.
  intros Em Er Hva [pa Hpa]. unfold uload8, phys. kred. rewrite Em, Er, u32_small, Hpa by done. kred.
  unfold ubyte. by rewrite Em, Hpa.
Qed.

(** ** Writing *)

Lemma wait_room_eq k p pp : pipes (k_fs k) !! p = Some pp -> pipe_ok pp -> count pp < 512 -> wait_room p k = Done false k.
Proof.
  intros H Hok Hc. unfold wait_room, fuel. apply loop_done. rewrite bind_eq, (get_pipe_eq _ _ _ H). cbn [res_bind].
  rewrite (full_count pp Hok). replace (count pp =? 512) with false by lia. cbn [negb]. by rewrite ret_eq.
Qed.

(** The bytes from [addr + s] on are appended one by one. *)
Lemma write_loop k k1 p pp addr n s :
  k_ms k1 = k_ms k -> cr3 (k_hw k1) = cr3 (k_hw k) -> readable k addr (s + n) ->
  pipes (k_fs k1) !! p = Some pp -> pipe_ok pp -> (length (queue pp) + n <= 512)%nat ->
  exists pp', pipe_ok pp' /\ queue pp' = queue pp ++ ubytes k (addr + Z.of_nat s) n /\
    for_each (Z.of_nat <$> seq s n) (fun i =>
      dead <- wait_room p ;;
      if (dead : bool) then release (LKpipe p) ;; ret (Some (-1)) else
      c <- uload8 (addr + i) ;;
      upd_pipe p (pipe_push c) ;;
      ret None) k1 = Done None (with_pipe p pp' k1).
Proof.
  intros Em Er (Ha & Hlt & Hmap). revert pp k1 s Em Er Hlt Hmap.
  induction n as [|n IH]; intros pp k1 s Em Er Hlt Hmap Hp Hok Hroom.
  - exists pp. split; [done|]. split; [by rewrite app_nil_r|]. cbn [seq fmap list_fmap]. by rewrite for_each_nil, with_pipe_id.
  - rewrite length_queue in Hroom. pose proof (count_range pp).
    set (b := ubyte k (addr + Z.of_nat s)). assert (count pp < 512) as Hc by lia.
    destruct (IH (pipe_push b pp) (with_pipe p (pipe_push b pp) k1) (S s)) as (pp' & Hok' & Hq & E); try done.
    + lia.
    + intros j Hj. apply Hmap. lia.
    + apply with_pipe_at.
    + by apply push_ok.
    + rewrite length_queue, (count_push b pp Hok Hc). lia.
    + exists pp'. split; [done|]. split.
      * rewrite Hq, (queue_push b pp Hok Hc), <- app_assoc. f_equal. unfold ubytes. cbn [seq fmap list_fmap app].
        rewrite Z.add_0_r. f_equal. rewrite <- fmap_S_seq, <- list_fmap_compose. apply list_fmap_ext.
        intros i x _. simpl. f_equal. lia.
      * cbn [seq fmap list_fmap]. rewrite for_each_cons, bind_eq, (wait_room_eq _ _ _ Hp Hok Hc). cbn [res_bind].
        rewrite bind_eq, (uload8_eq k k1 _ Em Er); [|lia|apply Hmap; lia]. cbn [res_bind].
        rewrite bind_eq, (upd_pipe_eq _ _ _ _ Hp). cbn [res_bind]. rewrite ret_eq. cbn [res_bind].
        etrans; [exact E|]. by rewrite with_pipe_twice.
Qed.


(** ** Reading *)

(** Storing user bytes changes memory only, and depends on nothing else. *)
Lemma ustore8_eq k k1 va b k' :
  ustore8 va b k = Done tt k' -> k_ms k1 = k_ms k -> cr3 (k_hw k1) = cr3 (k_hw k) ->
  k' = set_k_ms (k_ms k') k /\ ustore8 va b k1 = Done tt (set_k_ms (k_ms k') k1).
Proof.
  unfold ustore8, phys. kred. intros H Em Er. rewrite Em, Er.
  destruct (translate _ _ _ _) as [pa|]; [|done]. revert H. unfold on_ms. kred. intros [= <-]. simpl. by rewrite modify_eq, Em.
Qed.

(** [n] bytes are taken out. *)
Definition pipe_drop (n : nat) (pp : pipe) : pipe := Nat.iter n pipe_pop pp.

Lemma pipe_drop_spec n pp :
  pipe_ok pp -> (n <= length (queue pp))%nat -> pipe_ok (pipe_drop n pp) /\ queue (pipe_drop n pp) = drop n (queue pp).
Proof.
  intros Hok. unfold pipe_drop. induction n as [|n IH]; intros Hn; [done|]. destruct IH as [IH1 IH2]; [lia|]. cbn [Nat.iter].
  assert (0 < count (Nat.iter n pipe_pop pp)) as Hc.
  { pose proof (length_queue (Nat.iter n pipe_pop pp)) as E. rewrite IH2, length_drop in E. lia. }
  split; [by apply pop_ok|]. rewrite (queue_pop _ IH1 Hc) in IH2.
  transitivity (drop 1 (drop n (queue pp))); [by rewrite <- IH2|]. rewrite drop_drop. f_equal. lia.
Qed.

(** The loop that copies out. *)
Lemma pipe_copy_eq k k1 p pp addr n i ks :
  pipes (k_fs k1) !! p = Some pp -> pipe_ok pp -> k_ms k1 = k_ms k -> cr3 (k_hw k1) = cr3 (k_hw k) ->
  ustore (addr + i) (take n (queue pp)) k = Done tt ks ->
  let m := Nat.min n (length (queue pp)) in
  pipe_copy n p addr i k1 = Done (i + Z.of_nat m) (set_k_ms (k_ms ks) (with_pipe p (pipe_drop m pp) k1)).
Proof.
  cbv zeta. revert k k1 pp i. induction n as [|n IH]; intros k k1 pp i Hp Hok Em Er Hst.
  - injection Hst as <-. change (pipe_drop _ pp) with pp. rewrite with_pipe_id, Z.add_0_r, <- Em by done. by destruct k1.
  - cbn [pipe_copy]. rewrite bind_eq, (get_pipe_eq _ _ _ Hp). cbn [res_bind]. rewrite (empty_count pp Hok).
    pose proof (count_range pp) as Hc. destruct (count pp =? 0) eqn:E0.
    + assert (queue pp = []) as Eq by (apply nil_length_inv; rewrite length_queue; lia). rewrite Eq in *.
      injection Hst as <-. change (pipe_drop _ pp) with pp.
      rewrite ret_eq, with_pipe_id, Z.add_0_r, <- Em by done. by destruct k1.
    + rewrite (queue_pop pp Hok) in Hst |- * by lia. cbn [take ustore length Nat.min] in Hst |- *.
      rewrite bind_eq in Hst. destruct (ustore8 (addr + i) (pipe_front pp) k) as [[] ka|? ?|?|? ?|?|? ? ?] eqn:Ea; try done.
      cbn [res_bind] in Hst. rewrite bind_eq, (upd_pipe_eq _ _ _ _ Hp). cbn [res_bind].
      destruct (ustore8_eq k (with_pipe p (pipe_pop pp) k1) _ _ _ Ea Em Er) as [Ek Es].
      rewrite bind_eq, Es. cbn [res_bind].
      rewrite (IH ka _ (pipe_pop pp) (i + 1)); [|exact (with_pipe_at p (pipe_pop pp) k1)|apply pop_ok; [done|lia]|done|by rewrite Ek|by rewrite Z.add_assoc].
      f_equal; [lia|]. unfold with_pipe, pipe_drop. simpl. by rewrite insert_insert_eq, <- Nat.iter_succ_r.
Qed.

(** C28. [piperead] of a pipe with bytes in it, or with its write end closed,
    does not wait: it stores the first bytes of the queue, at most [n], at
    [addr], takes them out and returns their number, and wakes the processes
    waiting to write.  ([ks]: the state after those stores alone.) *)
Theorem piperead_takes k c pi q p pp addr n ks
    (Hm : me k c pi q) (Hp : pipes (k_fs k) !! p = Some pp) (Hok : pipe_ok pp)
    (Hdata : queue pp <> [] \/ p_writeopen pp = 0) (Hst : ustore addr (take n (queue pp)) k = Done tt ks) :
  let m := Nat.min n (length (queue pp)) in
  runs (piperead p addr (Z.of_nat n)) k (fun r k' => r = Z.of_nat m /\ me k' c pi q /\ k_ms k' = k_ms ks /\
    (exists pp', pipe_ok pp' /\ queue pp' = drop m (queue pp) /\
       k_fs k' = set_pipes (<[p := pp']> (pipes (k_fs k))) (k_fs k)) /\
    procs (k_ps k') = woken (Some (ChPipeWrite p)) (ticks (k_ps k)) <$> procs (k_ps k)).
Proof.
  cbv zeta. unfold runs, piperead.
  wp_call (acquire_holds k c 0 [] (LKpipe p) (me_holds _ _ _ _ Hm) (not_elem_of_nil _)); [|lia]. intros _ k1 [Hk1 Hc1].
  assert (pipes (k_fs k1) !! p = Some pp) as Hp1 by (by rewrite (core_fs _ _ Hc1)).
  assert (wait_data p k1 = Done false k1) as Hw.
  { unfold wait_data, fuel. apply loop_done. rewrite bind_eq, (get_pipe_eq _ _ _ Hp1). cbn [res_bind].
    rewrite (empty_count pp Hok). replace ((count pp =? 0) && nz (p_writeopen pp)) with false; [cbn [negb]; by rewrite ret_eq|].
    destruct Hdata as [Hne| ->]; [|by rewrite andb_false_r]. destruct (count pp =? 0) eqn:E; [|done].
    destruct Hne. apply nil_length_inv. rewrite length_queue. lia. }
  rewrite bind_eq, Hw. cbn [res_bind]. rewrite Nat2Z.id.
  rewrite bind_eq, (pipe_copy_eq k k1 p pp addr n 0 ks Hp1 Hok);
    [|by rewrite (core_ms _ _ Hc1)|by apply (f_equal (fun k => cr3 (k_hw k))) in Hc1|by rewrite Z.add_0_r].
  cbn [res_bind]. set (m := Nat.min n _). destruct (pipe_drop_spec m pp Hok ltac:(lia)) as [Hok' Hq'].
  unfold with_pipe. rewrite (core_fs _ _ Hc1). set (g := set_pipes _ _).
  apply wp_assoc. eapply wp_mono; [|apply (wake_release (set_k_ms (k_ms ks) (set_k_fs g k1)) (set_k_ms (k_ms ks) (set_k_fs g k)) c pi q (LKpipe p) (ChPipeWrite p))].
  - intros _ k2 ((Hm2 & Ems & _) & Ef & Es & Ep). kred. split; [done|]. split; [done|]. split; [exact Ems|]. split; [|exact Ep].
    exists (pipe_drop m pp). split; [done|]. split; [done|]. by rewrite Ef.
  - by eapply holds_ext; [..|exact Hk1].
  - by rewrite !core_set_ms, !core_set_fs, Hc1.
  - destruct Hm as [H1 H2 H3 H4]. split; [by eapply holds_ext; [..|exact H1]|done..].
  - done.
Qed.

End PipeSpec.

(** The process of [kernel_args] with a pipe whose counters are about to wrap
    around. *)
Definition kernel_pipe (pp : pipe) : K := set_k_fs (set_pipes {[0x80005000 := pp]} fs0) kernel_args.

Definition pipe_empty : pipe := mkPipe (replicate 512 0) 0xffffffff 0xffffffff 1 1.

Definition pipe_two : pipe := pipe_push 6 (pipe_push 5 pipe_empty).

Lemma pipe_empty_ok : pipe_ok pipe_empty.
Proof. split; simpl; try done. Qed.

Lemma pipe_two_ok : pipe_ok pipe_two.
Proof. unfold pipe_two. apply push_ok; [apply push_ok; [apply pipe_empty_ok|]|]; by vm_compute. Qed.

Lemma kernel_pipe_readable pp : readable (kernel_pipe pp) 0x100 2.
Proof.
  split; [done|]. split; [done|]. intros j Hj. apply (kernel_args_resident (0x100 + Z.of_nat j)). simpl. lia.
Qed.


Lemma piperead_takes_witness :
  exists ks, ustore 0x200 [5] (kernel_pipe pipe_two) = Done tt ks /\
  runs (piperead 0x80005000 0x200 1) (kernel_pipe pipe_two) (fun r k' => r = 1 /\ k_ms k' = k_ms ks /\
    exists pp', pipes (k_fs k') !! 0x80005000 = Some pp' /\ queue pp' = [6]).
Proof.
  eexists. split; [vm_compute; reflexivity|]. set (ks := mkK _ _ _ _ _ _ _).
  assert (ustore 0x200 (take 1 (queue pipe_two)) (kernel_pipe pipe_two) = Done tt ks) as Hst by (by vm_compute).
  pose proof (piperead_takes (kernel_pipe pipe_two) 0 1 2 0x80005000 pipe_two 0x200 1 ks
    (me_fs _ _ _ _ _ kernel_args_me) eq_refl pipe_two_ok ltac:(left; by vm_compute) Hst) as H. cbv zeta in H.
  eapply runs_mono; [exact H|]. intros r k' (-> & _ & Em & (pp' & _ & Hq & Ef) & _).
  split; [by vm_compute|]. split; [done|]. exists pp'. rewrite Ef, Hq. split; [apply lookup_insert_eq|by vm_compute].
Defined.
