(* ===== verification/Sysfile.v ===== *)
(** * File-system calls (sysfile.c) and the dispatch of system calls (syscall.c) *)

From S2P Require Import Prelude Params State Mem Spinlock Seg Str Cprintf Kalloc Vm Proc FsState Sleeplock.
From S2P Require Import BlockDev Ide Bio Log Inode Console Fs Pipe File ProcLife Exec Syscall.

Section Sysfile.
  Context {LK : Linker} {FU : Fuel} {BD : BlockDev}.

(** ** File descriptors *)

(** The descriptor and the file. *)
(* sysfile.c 21-36: argfd *)
Definition argfd (n : Z) : M K (option (nat * nat)) :=
  o <- argint n ;;
  match o with
  | None => ret None
  | Some fd =>
      if (fd <? 0) || (fd >=? NOFILE) then ret None else
      i <- curproc ;;
      p <- get_proc i ;;
      ret ((fun f => (Z.to_nat fd, f)) <$> (ofile p !!! Z.to_nat fd))
  end.

(* sysfile.c 40-53: fdalloc *)
Definition fdalloc (f : nat) : M K Z :=
  i <- curproc ;;
  o <- for_each (seq 0 (Z.to_nat NOFILE)) (fun fd =>
    p <- get_proc i ;;
    match ofile p !!! fd with
    | None => upd_proc i (fun p => set_ofile (<[fd := Some f]> (ofile p)) p) ;; ret (Some (Z.of_nat fd))
    | Some _ => ret None
    end) ;;
  ret (default (-1) o).

(* sysfile.c 55-67: sys_dup *)
Definition sys_dup : M K Z :=
  or_fail (argfd 0) (fun fdf =>
    let f := fdf.2 in
    fd <- fdalloc f ;;
    if fd <? 0 then ret (-1) else
    filedup f ;;
    ret fd).

(* sysfile.c 69-79: sys_read *)
Definition sys_read : M K Z :=
  or_fail (argfd 0) (fun fdf =>
  or_fail (argint 2) (fun n =>
  or_fail (argptr 1 n) (fun p => fileread fdf.2 p n))).

(* sysfile.c 81-91: sys_write *)
Definition sys_write : M K Z :=
  or_fail (argfd 0) (fun fdf =>
  or_fail (argint 2) (fun n =>
  or_fail (argptr 1 n) (fun p => filewrite fdf.2 p n))).

(* sysfile.c 93-104: sys_close *)
Definition sys_close : M K Z :=
  or_fail (argfd 0) (fun fdf =>
    i <- curproc ;;
    upd_proc i (fun p => set_ofile (<[fdf.1 := None]> (ofile p)) p) ;;
    fileclose fdf.2 ;;
    ret 0).

(** [sizeof(struct stat)] *)
Definition sizeof_stat : Z := 20.

(* sysfile.c 106-115: sys_fstat *)
Definition sys_fstat : M K Z :=
  or_fail (argfd 0) (fun fdf =>
  or_fail (argptr 1 sizeof_stat) (fun st => filestat fdf.2 st)).

(** ** Links *)

(** [ip->nlink += d], a short. *)
Definition add_nlink (i : nat) (d : Z) : M K unit :=
  upd_inode i (fun ip => set_i_nlink (s16 (i_nlink ip + d)) ip).

(* sysfile.c 158-164: sys_link *)
Definition link_bad (i : nat) : M K Z :=
  ilock (Some i) ;;
  add_nlink i (-1) ;;
  iupdate i ;;
  iunlockput i ;;
  end_op ;;
  ret (-1).

(* sysfile.c 118-165: sys_link *)
Definition sys_link : M K Z :=
  or_fail (argstr 0) (fun old =>
  or_fail (argstr 1) (fun new =>
    begin_op ;;
    o <- namei old ;;
    match o with
    | None => end_op ;; ret (-1)
    | Some i =>
        ilock (Some i) ;;
        ip <- get_inode i ;;
        if i_type ip =? T_DIR then iunlockput i ;; end_op ;; ret (-1) else
        add_nlink i 1 ;;
        iupdate i ;;
        iunlock (Some i) ;;
        o <- nameiparent new ;;
        match o with
        | None => link_bad i
        | Some (d, name) =>
            ilock (Some d) ;;
            dp <- get_inode d ;;
            ip <- get_inode i ;;
            r <- (if negb (i_dev dp =? i_dev ip) then ret (-1) else dirlink d name (i_inum ip)) ;;
            if r <? 0 then iunlockput d ;; link_bad i else
            iunlockput d ;;
            iput i ;;
            end_op ;;
            ret 0
        end
    end)).

(* sysfile.c 168-181: isdirempty *)
Definition isdirempty (d : nat) : M K bool :=
  dp <- get_inode d ;;
  r <- dir_scan (dir_fuel dp) d "isdirempty: readi" (fun de => nz (de_inum de))
         (2 * sizeof_dirent) no_dirent ;;
  let '(found, _, _) := r in
  ret (negb found).

(* sysfile.c 235-238: sys_unlink *)
Definition unlink_bad (d : nat) : M K Z :=
  iunlockput d ;;
  end_op ;;
  ret (-1).

(* sysfile.c 184-239: sys_unlink *)
Definition sys_unlink : M K Z :=
  or_fail (argstr 0) (fun path =>
    begin_op ;;
    o <- nameiparent path ;;
    match o with
    | None => end_op ;; ret (-1)
    | Some (d, name) =>
        ilock (Some d) ;;
        if (namecmp name (bytes_of ".") =? 0) || (namecmp name (bytes_of "..") =? 0)
        then unlink_bad d else
        o <- dirlookup d name ;;
        match o with
        | None => unlink_bad d
        | Some (i, off) =>
            ilock (Some i) ;;
            ip <- get_inode i ;;
            if i_nlink ip <? 1 then panic "unlink: nlink < 1" else
            full <- (if i_type ip =? T_DIR then e <- isdirempty i ;; ret (negb e) else ret false) ;;
            if (full : bool) then iunlockput i ;; unlink_bad d else
            r <- writei d (SLocal (replicate (Z.to_nat sizeof_dirent) 0)) off sizeof_dirent ;;
            if negb (r =? sizeof_dirent) then panic "unlink: writei" else
            ip <- get_inode i ;;
            when (i_type ip =? T_DIR) (add_nlink d (-1) ;; iupdate d) ;;
            iunlockput d ;;
            add_nlink i (-1) ;;
            iupdate i ;;
            iunlockput i ;;
            end_op ;;
            ret 0
        end
    end).

(** ** Creating and opening *)

(** The new or existing inode, locked. *)
(* sysfile.c 241-283: create *)
Definition create (path : list Z) (type major minor : Z) : M K (option nat) :=
  o <- nameiparent path ;;
  match o with
  | None => ret None
  | Some (d, name) =>
      ilock (Some d) ;;
      o <- dirlookup d name ;;
      match o with
      | Some (i, _) =>
          iunlockput d ;;
          ilock (Some i) ;;
          ip <- get_inode i ;;
          if (type =? T_FILE) && (i_type ip =? T_FILE) then ret (Some i) else
          iunlockput i ;;
          ret None
      | None =>
          dp <- get_inode d ;;
          i <- ialloc (i_dev dp) type ;;
          ilock (Some i) ;;
          upd_inode i (set_i_major major) ;;
          upd_inode i (set_i_minor minor) ;;
          upd_inode i (set_i_nlink 1) ;;
          iupdate i ;;
          when (type =? T_DIR)
            (add_nlink d 1 ;;
             iupdate d ;;
             ip <- get_inode i ;;
             r <- dirlink i (bytes_of ".") (i_inum ip) ;;
             if r <? 0 then panic "create dots" else
             dp <- get_inode d ;;
             r <- dirlink i (bytes_of "..") (i_inum dp) ;;
             if r <? 0 then panic "create dots" else ret tt) ;;
          ip <- get_inode i ;;
          r <- dirlink d name (i_inum ip) ;;
          if r <? 0 then panic "create: dirlink" else
          iunlockput d ;;
          ret (Some i)
      end
  end.

(** The inode to open, locked; in a transaction. *)
(* sysfile.c 298-315: sys_open *)
Definition open_inode (path : list Z) (omode : Z) : M K (option nat) :=
  if nz (Z.land omode O_CREATE) then create path T_FILE 0 0 else
  o <- namei path ;;
  match o with
  | None => ret None
  | Some i =>
      ilock (Some i) ;;
      ip <- get_inode i ;;
      if (i_type ip =? T_DIR) && negb (omode =? O_RDONLY) then iunlockput i ;; ret None
      else ret (Some i)
  end.

(* sysfile.c 285-333: sys_open *)
Definition sys_open : M K Z :=
  or_fail (argstr 0) (fun path =>
  or_fail (argint 1) (fun omode =>
    begin_op ;;
    o <- open_inode path omode ;;
    match o with
    | None => end_op ;; ret (-1)
    | Some i =>
        o <- filealloc ;;
        match o with
        | None => iunlockput i ;; end_op ;; ret (-1)
        | Some f =>
            fd <- fdalloc f ;;
            if fd <? 0 then fileclose f ;; iunlockput i ;; end_op ;; ret (-1) else
            iunlock (Some i) ;;
            end_op ;;
            upd_file f (set_f_type FD_INODE) ;;
            upd_file f (set_f_ip (Some i)) ;;
            upd_file f (set_f_off 0) ;;
            upd_file f (set_f_readable (b2z (negb (nz (Z.land omode O_WRONLY))))) ;;
            upd_file f (set_f_writable (b2z (nz (Z.land omode O_WRONLY) || nz (Z.land omode O_RDWR)))) ;;
            ret fd
        end
    end)).

(** [begin_op(); if(... || (ip = create(...)) == 0){ end_op(); return -1; }
    iunlockput(ip); end_op(); return 0;] *)
(* sysfile.c 341-348: sys_mkdir *)
Definition make_node (m : M K (option nat)) : M K Z :=
  begin_op ;;
  o <- m ;;
  match o with
  | None => end_op ;; ret (-1)
  | Some i => iunlockput i ;; end_op ;; ret 0
  end.

(* sysfile.c 335-349: sys_mkdir *)
Definition sys_mkdir : M K Z :=
  make_node (
    o <- argstr 0 ;;
    match o with
    | None => ret None
    | Some path => create path T_DIR 0 0
    end).

(* sysfile.c 351-369: sys_mknod *)
Definition sys_mknod : M K Z :=
  make_node (
    o <- argstr 0 ;;
    match o with
    | None => ret None
    | Some path =>
        o <- argint 1 ;;
        match o with
        | None => ret None
        | Some major =>
            o <- argint 2 ;;
            match o with
            | None => ret None
            | Some minor => create path T_DEV (s16 major) (s16 minor)
            end
        end
    end).

(* sysfile.c 371-394: sys_chdir *)
Definition sys_chdir : M K Z :=
  c <- curproc ;;
  begin_op ;;
  o <- argstr 0 ;;
  o <- match o with None => ret None | Some path => namei path end ;;
  match o with
  | None => end_op ;; ret (-1)
  | Some i =>
      ilock (Some i) ;;
      ip <- get_inode i ;;
      if negb (i_type ip =? T_DIR) then iunlockput i ;; end_op ;; ret (-1) else
      iunlock (Some i) ;;
      p <- get_proc c ;;
      old <- deref "cwd" (cwd p) ;;
      iput old ;;
      end_op ;;
      upd_proc c (set_cwd (Some i)) ;;
      ret 0
  end.

(** The argument strings of [exec], at most [n]. *)
(* sysfile.c 407-418: sys_exec *)
Fixpoint fetch_argv (n : nat) (uargv : Z) (acc : list (list Z)) : M K (option (list (list Z))) :=
  match n with
  | O => ret None
  | S n' =>
      o <- fetchint (u32 (uargv + 4 * Z.of_nat (length acc))) ;;
      match o with
      | None => ret None
      | Some uarg =>
          if uarg =? 0 then ret (Some acc) else
          o <- fetchstr (u32 uarg) ;;
          match o with
          | None => ret None
          | Some s => fetch_argv n' uargv (acc ++ [s])
          end
      end
  end.

(* sysfile.c 396-420: sys_exec *)
Definition sys_exec : M K Z :=
  or_fail (argstr 0) (fun path =>
  or_fail (argint 1) (fun uargv =>
  or_fail (fetch_argv (Z.to_nat MAXARG) (u32 uargv) []) (fun argv => exec path argv))).

(* sysfile.c 422-444: sys_pipe *)
Definition sys_pipe : M K Z :=
  or_fail (argptr 0 8) (fun fd =>
  or_fail pipealloc (fun rw =>
    let '(rf, wf) := rw in
    fd0 <- fdalloc rf ;;
    fd1 <- (if fd0 <? 0 then ret (-1) else fdalloc wf) ;;
    if (fd0 <? 0) || (fd1 <? 0) then
      when (fd0 >=? 0)
        (i <- curproc ;;
         upd_proc i (fun p => set_ofile (<[Z.to_nat fd0 := None]> (ofile p)) p)) ;;
      fileclose rf ;;
      fileclose wf ;;
      ret (-1)
    else
      ustore32 fd fd0 ;;
      ustore32 (fd + 4) fd1 ;;
      ret 0)).

(** ** Dispatch *)

(* syscall.c 119-153: syscalls *)
Definition syscalls (garbage num : Z) : option (M K Z) :=
  match num with
  | 1 => Some sys_fork
  | 2 => Some sys_exit
  | 3 => Some sys_diagwait
  | 4 => Some sys_wait
  | 5 => Some sys_pipe
  | 6 => Some sys_read
  | 7 => Some sys_kill
  | 8 => Some sys_exec
  | 9 => Some sys_fstat
  | 10 => Some sys_chdir
  | 11 => Some sys_dup
  | 12 => Some sys_getpid
  | 13 => Some sys_sbrk
  | 14 => Some sys_sleep
  | 15 => Some sys_uptime
  | 16 => Some sys_open
  | 17 => Some sys_write
  | 18 => Some sys_mknod
  | 19 => Some sys_unlink
  | 20 => Some sys_link
  | 21 => Some sys_mkdir
  | 22 => Some sys_close
  | 23 => Some sys_getpage
  | 24 => Some sys_detachpage
  | 25 => Some sys_thread_create
  | 26 => Some sys_thread_id
  | 27 => Some sys_thread_join
  | 28 => Some sys_get_policy
  | 29 => Some sys_change_policy
  | 30 => Some sys_set_priority
  | 31 => Some (sys_get_proc_times garbage)
  | 32 => Some sys_get_ticketCount
  | 33 => Some sys_set_ticketCount
  | _ => None
  end.

(* syscall.c 155-169: syscall *)
Definition syscall (garbage : Z) : M K unit :=
  i <- curproc ;;
  p <- get_proc i ;;
  num <- kload32 (tf p + tf_eax) ;;
  let num := s32 num in
  match syscalls garbage num with
  | Some f =>
      r <- f ;;
      p <- get_proc i ;;
      kstore32 (tf p + tf_eax) (u32 r)
  | None =>
      cprintf ("%d %s: unknown sys call %d" ++ nl)
        [CInt (pid p); CStr (Some (cstr 16 (name p))); CInt num] ;;
      p <- get_proc i ;;
      kstore32 (tf p + tf_eax) (u32 (-1))
  end.

End Sysfile.
