(* ===== verification/Trap.v ===== *)
(** * Traps (trap.c) and the start of the kernel (main.c)

    What the hardware supplies is an argument: the bytes the interrupting
    device has ready, the faulting address, the vectors of vectors.S and the
    image of entryother.S. *)

From S2P Require Import Prelude Params State Mem Spinlock Seg Str Cprintf Apic Kalloc Vm Proc FsState.
From S2P Require Import Sleeplock BlockDev Ide Bio Log Inode Console Fs Pipe File ProcLife Exec Syscall.
From S2P Require Import Sysfile.

(** The interrupt descriptor table [tvinit] builds. *)
(* trap.c 22-24: tvinit *)
Definition idt (vectors : Z -> Z) : list gatedesc :=
  <[Z.to_nat T_SYSCALL := SETGATE true (Z.shiftl SEG_KCODE 3) (vectors T_SYSCALL) DPL_USER]>
    ((fun i => SETGATE false (Z.shiftl SEG_KCODE 3) (vectors i) 0) <$> zseq 256).

(* main.c 103-108: entrypgdir *)
Definition entrypgdir : list Z :=
  <[Z.to_nat (Z.shiftr KERNBASE PDXSHIFT) := Z.lor (Z.lor PTE_P PTE_W) PTE_PS]>
    (<[0%nat := Z.lor (Z.lor PTE_P PTE_W) PTE_PS]> (replicate (Z.to_nat NPDENTRIES) 0)).

Section Trap.
  Context {LK : Linker} {FU : Fuel} {BD : BlockDev}.

(** The table is a constant of the model. *)
(* trap.c 17-27: tvinit *)
Definition tvinit : M K unit := initlock LKtick "time".

(* trap.c 29-33: idtinit *)
Definition idtinit : M K unit := on_hw (set_idtr true).

(* proc.c 46-50: cpuid *)
Definition cpuid : M K Z := c <- mycpu ;; ret (Z.of_nat c).

(** [myproc() && test(myproc())] *)
Definition my_test (test : proc -> bool) : M K bool :=
  op <- myproc ;;
  match op with
  | None => ret false
  | Some i => p <- get_proc i ;; ret (test p)
  end.

(** [if(myproc() && myproc()->killed && (tf->cs&3) == DPL_USER) exit();] *)
(* trap.c 100-101: trap *)
Definition exit_if_killed (cs : Z) : M K unit :=
  dead <- my_test (fun p => nz (killed p)) ;;
  when (dead && (Z.land cs 3 =? DPL_USER)) exit.

(* trap.c 39-47: trap *)
Definition trap_syscall (tf : Z) (garbage : Z) : M K unit :=
  dead <- my_killed ;;
  when dead exit ;;
  i <- curproc ;;
  upd_proc i (set_tf tf) ;;
  syscall garbage ;;
  dead <- my_killed ;;
  when dead exit.

(* trap.c 50-58: trap *)
Definition trap_timer : M K unit :=
  c <- cpuid ;;
  when (c =? 0)
    (acquire LKtick ;;
     on_ps (fun ps => set_ticks (u32 (ticks ps + 1)) ps) ;;
     wakeup ChTicks ;;
     release LKtick) ;;
  lapiceoi.

(** A trap that is no interrupt: a fault of the kernel or of a process. *)
(* trap.c 82-95: trap *)
Definition trap_fault (trapno err eip cs cr2 : Z) : M K unit :=
  op <- myproc ;;
  match op with
  | Some i =>
      if Z.land cs 3 =? 0 then
        c <- cpuid ;;
        cprintf ("unexpected trap %d from cpu %d eip %x (cr2=0x%x)" ++ nl)
          [CInt (s32 trapno); CInt c; CInt eip; CInt cr2] ;;
        panic "trap"
      else
        p <- get_proc i ;;
        c <- cpuid ;;
        cprintf ("pid %d %s: trap %d err %d on cpu %d eip 0x%x addr 0x%x--kill proc" ++ nl)
          [CInt (pid p); CStr (Some (cstr 16 (name p))); CInt (s32 trapno); CInt (s32 err); CInt c; CInt eip;
           CInt cr2] ;;
        i <- curproc ;;
        upd_proc i (set_killed 1)
  | None =>
      c <- cpuid ;;
      cprintf ("unexpected trap %d from cpu %d eip %x (cr2=0x%x)" ++ nl)
        [CInt (s32 trapno); CInt c; CInt eip; CInt cr2] ;;
      panic "trap"
  end.

(** The process gives up the CPU when its time slice is used up; [ctr] is
    unsigned. *)
(* trap.c 105-112: trap *)
Definition tick_yield (trapno : Z) : M K unit :=
  run <- my_test (fun p => bool_decide (state p = RUNNING)) ;;
  when (run && (trapno =? T_IRQ0 + IRQ_TIMER))
    (c <- mycpu ;;
     upd_cpu c (fun cc => set_ctr (u32 (ctr cc - 1)) cc) ;;
     cc <- get_cpu c ;;
     when (ctr cc <=? 0) yield).

(* trap.c 36-117: trap *)
Definition trap (tf : Z) (ready : list Z) (cr2 garbage : Z) : M K unit :=
  trapno <- kload32 (tf + tf_trapno) ;;
  if trapno =? T_SYSCALL then trap_syscall tf garbage else
  err <- kload32 (tf + tf_err) ;;
  eip <- kload32 (tf + tf_eip) ;;
  csb <- kload (tf + tf_cs) 2 ;;
  let cs := le_val csb in
  (if trapno =? T_IRQ0 + IRQ_TIMER then trap_timer
   else if trapno =? T_IRQ0 + IRQ_IDE then ideintr ;; lapiceoi
   else if trapno =? T_IRQ0 + IRQ_IDE + 1 then ret tt
   else if trapno =? T_IRQ0 + IRQ_KBD then kbdintr ready ;; lapiceoi
   else if trapno =? T_IRQ0 + IRQ_COM1 then uartintr ready ;; lapiceoi
   else if (trapno =? T_IRQ0 + 7) || (trapno =? T_IRQ0 + IRQ_SPURIOUS) then
     c <- cpuid ;;
     cprintf ("cpu%d: spurious interrupt at %x:%x" ++ nl) [CInt c; CInt cs; CInt eip] ;;
     lapiceoi
   else trap_fault trapno err eip cs cr2) ;;
  exit_if_killed cs ;;
  tick_yield trapno ;;
  exit_if_killed cs.

(** ** Start *)

(** [n] bounds the number of rounds of the scheduler. *)
(* main.c 51-58: mpmain *)
Definition mpmain (n : nat) : M K unit :=
  c <- cpuid ;;
  cprintf ("cpu%d: starting %d" ++ nl) [CInt c; CInt c] ;;
  idtinit ;;
  c <- mycpu ;;
  upd_cpu c (set_started 1) ;;
  scheduler n.

(* main.c 41-48: mpenter *)
Definition mpenter (n : nat) : M K unit :=
  switchkvm ;;
  seginit ;;
  lapicinit ;;
  mpmain n.

(** The image of entryother.S and the addresses it is told; the busy wait ends
    only when the other CPU has set [started]. *)
(* main.c 63-95: startothers *)
Definition startothers (entryother : list Z) (mpenter_addr entrypgdir_addr : Z) : M K unit :=
  let code := P2V 0x7000 in
  kstore code entryother ;;
  n <- gets (fun k => ncpu (k_hw k)) ;;
  for_all (seq 0 (Z.to_nat n)) (fun c =>
    me <- mycpu ;;
    if Nat.eqb c me then ret tt else
    stack <- kalloc ;;
    kstore32 (code - 4) (u32 (stack + KSTACKSIZE)) ;;
    kstore32 (code - 8) mpenter_addr ;;
    kstore32 (code - 12) (V2P entrypgdir_addr) ;;
    cc <- get_cpu c ;;
    lapicstartap (apicid cc) (V2P code) ;;
    cc <- get_cpu c ;;
    if started cc =? 0 then (fun k => Spin k) else ret tt).

(** [uart_present] and [disk1]: what the probes of the devices find. *)
(* main.c 17-38: main *)
Definition main (uart_present disk1 : bool) (entryother : list Z) (mpenter_addr entrypgdir_addr : Z)
    (n : nat) : M K unit :=
  kinit1 sym_end (P2V (4 * 1024 * 1024)) ;;
  kvmalloc ;;
  mpinit ;;
  lapicinit ;;
  seginit ;;
  ioapicinit ;;
  consoleinit ;;
  uartinit uart_present ;;
  pinit ;;
  tvinit ;;
  binit ;;
  fileinit ;;
  Ide.ideinit disk1 ;;
  startothers entryother mpenter_addr entrypgdir_addr ;;
  kinit2 (P2V (4 * 1024 * 1024)) (P2V PHYSTOP) ;;
  userinit ;;
  mpmain n.

End Trap.
