(* ===== verification/FsFollows.v ===== *)
(** * The file system follows the life of processes

    Every routine of the sleep locks, the disk drivers, the buffer cache, the
    log, the inodes, the files, the pipes and the console changes the process
    table only by sleeping and waking: the [follows] lemmas, layer by layer.
    The layers above the drivers rely on [FollowingDev], which both drivers
    satisfy. *)

From S2P Require Import Prelude Params State Mem Spinlock Seg Str Cprintf Apic Kalloc Vm Proc ProcSpec.
From S2P Require Import ProcRefine Quiet FsState Sleeplock BlockDev Ide Memide Bio Log Inode Console Fs Pipe.
From S2P Require Import File.

(** ** State of the file system *)

Section Access.
  Context {LK : Linker} {FU : Fuel}.

Lemma keeps_who_on_fs f : keeps who (on_fs f).
Proof. by intros k. Qed.

Lemma keeps_who_get_fs {A} (f : fstate -> A) : keeps who (get_fs f).
Proof. by intros k. Qed.

#[local] Hint Resolve keeps_who_on_fs keeps_who_get_fs : keeps.

Lemma keeps_who_get_buf b : keeps who (get_buf b).
Proof. unfold get_buf. keeps_tac. Qed.

Lemma keeps_who_get_inode b : keeps who (get_inode b).
Proof. unfold get_inode. keeps_tac. Qed.

Lemma keeps_who_get_file b : keeps who (get_file b).
Proof. unfold get_file. keeps_tac. Qed.

Lemma keeps_who_get_pipe b : keeps who (get_pipe b).
Proof. unfold get_pipe. keeps_tac. Qed.

#[local] Hint Resolve keeps_who_get_buf keeps_who_get_inode keeps_who_get_file keeps_who_get_pipe : keeps.

Lemma keeps_who_upd_buf b f : keeps who (upd_buf b f).
Proof. unfold upd_buf. keeps_tac. Qed.

Lemma keeps_who_upd_inode b f : keeps who (upd_inode b f).
Proof. unfold upd_inode. keeps_tac. Qed.

Lemma keeps_who_upd_file b f : keeps who (upd_file b f).
Proof. unfold upd_file. keeps_tac. Qed.

Lemma keeps_who_upd_pipe b f : keeps who (upd_pipe b f).
Proof. unfold upd_pipe. keeps_tac. Qed.

Lemma keeps_who_get_log : keeps who get_log.
Proof. unfold get_log. keeps_tac. Qed.

Lemma keeps_who_upd_log f : keeps who (upd_log f).
Proof. unfold upd_log. keeps_tac. Qed.

(** ** Sleep locks *)

Lemma keeps_who_my_pid : keeps who my_pid.
Proof. unfold my_pid. keeps_tac. Qed.

#[local] Hint Resolve keeps_who_my_pid : keeps.

Lemma follows_acquiresleep i l : follows i (acquiresleep l).
Proof. unfold acquiresleep. follows_tac. Qed.

Lemma follows_releasesleep i l : follows i (releasesleep l).
Proof. unfold releasesleep. follows_tac. Qed.

Lemma keeps_who_holdingsleep l : keeps who (holdingsleep l).
Proof. unfold holdingsleep. keeps_tac. Qed.

Lemma keeps_who_initsleeplock l nm : keeps who (initsleeplock l nm).
Proof. unfold initsleeplock. keeps_tac. Qed.

End Access.

#[export] Hint Resolve keeps_who_on_fs keeps_who_get_fs keeps_who_get_buf keeps_who_get_inode
  keeps_who_get_file keeps_who_get_pipe keeps_who_upd_buf keeps_who_upd_inode keeps_who_upd_file
  keeps_who_upd_pipe keeps_who_get_log keeps_who_upd_log keeps_who_my_pid keeps_who_holdingsleep
  keeps_who_initsleeplock : keeps.
#[export] Hint Resolve follows_acquiresleep follows_releasesleep : follows.

(** ** Disk drivers *)

(** What the layers above need of a driver here. *)
Class FollowingDev {BD : BlockDev} : Prop := {
  follows_iderw i b : follows i (iderw b);
  follows_ideintr i : follows i ideintr
}.

#[export] Hint Extern 1 (follows _ (iderw _)) => apply follows_iderw : follows.
#[export] Hint Extern 1 (follows _ ideintr) => apply follows_ideintr : follows.

Section Drivers.
  Context {LK : Linker} {FU : Fuel}.

Lemma keeps_who_idewait b : keeps who (Ide.idewait b).
Proof. unfold Ide.idewait. keeps_tac. Qed.

#[local] Hint Resolve keeps_who_idewait : keeps.

Lemma keeps_who_idestart o : keeps who (Ide.idestart o).
Proof. unfold Ide.idestart. keeps_tac. Qed.

Lemma keeps_who_enqueue n : forall l b, keeps who (Ide.enqueue n l b).
Proof. induction n as [|n IH]; intros; cbn [Ide.enqueue]; keeps_tac; apply IH. Qed.

#[local] Hint Resolve keeps_who_idestart keeps_who_enqueue : keeps.

#[export] Instance ide_following : @FollowingDev ide_dev.
Proof.
  split; intros.
  - unfold iderw, ide_dev, Ide.iderw. follows_tac.
  - unfold ideintr, ide_dev, Ide.ideintr. follows_tac.
Qed.

Lemma memide_following : @FollowingDev memide_dev.
Proof.
  split; intros.
  - unfold iderw, memide_dev, Memide.iderw. follows_tac.
  - apply follows_ret.
Qed.

End Drivers.

Section Layers.
  Context {LK : Linker} {FU : Fuel} {BD : BlockDev} {FD : FollowingDev}.

(** ** Buffers and the log *)

Lemma keeps_who_find_buf n link test : forall b, keeps who (find_buf n link test b).
Proof. induction n as [|n IH]; intros; cbn [find_buf]; keeps_tac; apply IH. Qed.

Lemma keeps_who_push_front b : keeps who (push_front b).
Proof. unfold push_front. keeps_tac. Qed.

#[local] Hint Resolve keeps_who_find_buf keeps_who_push_front : keeps.

Lemma follows_bget i d b : follows i (bget d b).
Proof. unfold bget. follows_tac. Qed.

#[local] Hint Resolve follows_bget : follows.

Lemma follows_bread i d b : follows i (bread d b).
Proof. unfold bread. follows_tac. Qed.

Lemma follows_bwrite i b : follows i (bwrite b).
Proof. unfold bwrite. follows_tac. Qed.

Lemma follows_brelse i b : follows i (brelse b).
Proof. unfold brelse. follows_tac. Qed.

#[local] Hint Resolve follows_bread follows_bwrite follows_brelse : follows.

Lemma keeps_who_get_lh_block b : keeps who (get_lh_block b).
Proof. unfold get_lh_block. keeps_tac. Qed.

#[local] Hint Resolve keeps_who_get_lh_block : keeps.

Lemma keeps_who_put_lh_block b v : keeps who (put_lh_block b v).
Proof. unfold put_lh_block. keeps_tac. Qed.

Lemma keeps_who_set_n n : keeps who (set_n n).
Proof. unfold set_n. keeps_tac. Qed.

#[local] Hint Resolve keeps_who_put_lh_block keeps_who_set_n : keeps.

Lemma follows_for_logged i n body :
  (forall t, follows i (body t)) -> forall t, follows i (for_logged n t body).
Proof. intros Hb. induction n as [|n IH]; intros; cbn [for_logged]; follows_tac; auto. Qed.

Lemma follows_install_trans i : follows i install_trans.
Proof. unfold install_trans. apply follows_for_logged. intros. follows_tac. Qed.

Lemma follows_read_head i : follows i read_head.
Proof. unfold read_head. follows_tac. apply follows_for_logged. intros. follows_tac. Qed.

Lemma follows_write_head i : follows i write_head.
Proof. unfold write_head. follows_tac. apply follows_for_logged. intros. follows_tac. Qed.

Lemma follows_write_log i : follows i write_log.
Proof. unfold write_log. apply follows_for_logged. intros. follows_tac. Qed.

#[local] Hint Resolve follows_install_trans follows_read_head follows_write_head follows_write_log : follows.

Lemma follows_recover i : follows i recover_from_log.
Proof. unfold recover_from_log. follows_tac. Qed.

Lemma follows_begin_op i : follows i begin_op.
Proof. unfold begin_op, begin_op_pass. follows_tac. Qed.

Lemma follows_commit i : follows i commit.
Proof. unfold commit. follows_tac. Qed.

#[local] Hint Resolve follows_recover follows_commit : follows.

Lemma follows_end_op i : follows i end_op.
Proof. unfold end_op. follows_tac. Qed.

Lemma keeps_who_find_logged n : forall t b, keeps who (find_logged n t b).
Proof. induction n as [|n IH]; intros; cbn [find_logged]; keeps_tac; apply IH. Qed.

#[local] Hint Resolve keeps_who_find_logged : keeps.

Lemma keeps_who_log_write b : keeps who (log_write b).
Proof. unfold log_write. keeps_tac. Qed.

Lemma follows_readsb i d : follows i (readsb d).
Proof. unfold readsb. follows_tac. Qed.

#[local] Hint Resolve keeps_who_log_write : keeps.
#[local] Hint Resolve follows_begin_op follows_end_op follows_readsb : follows.

Lemma follows_initlog i d : follows i (initlog d).
Proof. unfold initlog. follows_tac. Qed.

(** ** Blocks and inodes *)

Lemma follows_bzero i d b : follows i (bzero d b).
Proof. unfold bzero. follows_tac. Qed.

#[local] Hint Resolve follows_bzero : follows.

Lemma follows_scan_bitmap i d bp b s : follows i (scan_bitmap d bp b s).
Proof. unfold scan_bitmap. follows_tac. Qed.

#[local] Hint Resolve follows_scan_bitmap : follows.

Lemma keeps_who_get_sb : keeps who get_sb.
Proof. unfold get_sb. keeps_tac. Qed.

#[local] Hint Resolve keeps_who_get_sb : keeps.

Lemma follows_balloc i d : follows i (balloc d).
Proof. unfold balloc. follows_tac. Qed.

Lemma follows_bfree i d b : follows i (bfree d b).
Proof. unfold bfree. follows_tac. Qed.

Lemma follows_iinit i d : follows i (iinit d).
Proof. unfold iinit. follows_tac. Qed.

Lemma keeps_who_iget_scan l d n : forall e, keeps who (iget_scan l d n e).
Proof. induction l as [|x l IH]; intros; cbn [iget_scan]; keeps_tac; apply IH. Qed.

#[local] Hint Resolve keeps_who_iget_scan : keeps.

Lemma keeps_who_iget d n : keeps who (iget d n).
Proof. unfold iget. keeps_tac. Qed.

#[local] Hint Resolve keeps_who_iget : keeps.
#[local] Hint Resolve follows_balloc follows_bfree : follows.

Lemma follows_ialloc i d t : follows i (ialloc d t).
Proof. unfold ialloc. follows_tac. Qed.

Lemma follows_iupdate i n : follows i (iupdate n).
Proof. unfold iupdate. follows_tac. Qed.

Lemma keeps_who_idup n : keeps who (idup n).
Proof. unfold idup. keeps_tac. Qed.

Lemma follows_ilock i o : follows i (ilock o).
Proof. unfold ilock. follows_tac. Qed.

Lemma follows_iunlock i o : follows i (iunlock o).
Proof. unfold iunlock. follows_tac. Qed.

Lemma follows_addr_or_alloc i n b : follows i (addr_or_alloc n b).
Proof. unfold addr_or_alloc. follows_tac. Qed.

#[local] Hint Resolve keeps_who_idup : keeps.
#[local] Hint Resolve follows_ialloc follows_iupdate follows_ilock follows_iunlock
  follows_addr_or_alloc : follows.

Lemma follows_bmap i n b : follows i (bmap n b).
Proof. unfold bmap. follows_tac. Qed.

Lemma follows_itrunc i n : follows i (itrunc n).
Proof. unfold itrunc. follows_tac. Qed.

#[local] Hint Resolve follows_bmap follows_itrunc : follows.

Lemma follows_iput i n : follows i (iput n).
Proof. unfold iput. follows_tac. Qed.

#[local] Hint Resolve follows_iput : follows.

Lemma follows_iunlockput i n : follows i (iunlockput n).
Proof. unfold iunlockput. follows_tac. Qed.

Lemma keeps_who_stati n s : keeps who (stati n s).
Proof. unfold stati. keeps_tac. Qed.

#[local] Hint Resolve keeps_who_stati : keeps.
#[local] Hint Resolve follows_iunlockput : follows.

(** ** The console *)

Lemma keeps_who_frames n : forall e, keeps who (frames n e).
Proof. induction n as [|n IH]; intros; cbn [frames]; keeps_tac; apply IH. Qed.

Lemma keeps_who_getcallerpcs v : keeps who (getcallerpcs v).
Proof. apply keeps_who_frames. Qed.

#[local] Hint Resolve keeps_who_getcallerpcs : keeps.

Lemma keeps_who_procdump : keeps who procdump.
Proof. unfold procdump. keeps_tac. Qed.

Lemma keeps_who_get_in : keeps who get_in.
Proof. unfold get_in. keeps_tac. Qed.

#[local] Hint Resolve keeps_who_procdump keeps_who_get_in : keeps.

Lemma keeps_who_kill_line n : keeps who (kill_line n).
Proof. induction n as [|n IH]; cbn [kill_line]; keeps_tac. Qed.

#[local] Hint Resolve keeps_who_kill_line : keeps.

Lemma follows_console_char i c : follows i (console_char c).
Proof. unfold console_char. follows_tac. Qed.

#[local] Hint Resolve follows_console_char : follows.

Lemma follows_console_chars i getc ready :
  (forall c, keeps who (getc c)) -> forall b, follows i (console_chars getc ready b).
Proof.
  intros Hg. induction ready as [|c ready IH]; intros b; cbn [console_chars]; follows_tac; auto.
Qed.

Lemma follows_consoleintr i getc ready :
  (forall c, keeps who (getc c)) -> follows i (consoleintr getc ready).
Proof. intros Hg. unfold consoleintr. follows_tac. by apply follows_console_chars. Qed.

Lemma follows_kbdintr i ready : follows i (kbdintr ready).
Proof. apply follows_consoleintr. intros c. unfold kbdgetc. keeps_tac. Qed.

Lemma follows_uartintr i ready : follows i (uartintr ready).
Proof. apply follows_consoleintr. intros c. unfold uartgetc. keeps_tac. Qed.

Lemma keeps_who_put_dest d o bs : keeps who (put_dest d o bs).
Proof. unfold put_dest. keeps_tac. Qed.

Lemma keeps_who_get_source s o n : keeps who (get_source s o n).
Proof. unfold get_source. keeps_tac. Qed.

#[local] Hint Resolve keeps_who_put_dest keeps_who_get_source : keeps.

Lemma follows_wait_input i : follows i wait_input.
Proof. unfold wait_input. follows_tac. Qed.

#[local] Hint Resolve follows_wait_input : follows.

Lemma follows_read_chars i n d : forall got, follows i (read_chars n d got).
Proof. induction n as [|n IH]; intros; cbn [read_chars]; follows_tac; apply IH. Qed.

#[local] Hint Resolve follows_read_chars : follows.

Lemma follows_consoleread i ip d n : follows i (consoleread ip d n).
Proof. unfold consoleread. follows_tac. Qed.

Lemma follows_consolewrite i ip s n : follows i (consolewrite ip s n).
Proof. unfold consolewrite. follows_tac. Qed.

#[local] Hint Resolve follows_consoleread follows_consolewrite : follows.

(** ** Contents, directories, paths *)

Lemma follows_read_blocks i f n d : forall off m t got, follows i (read_blocks f n d off m t got).
Proof. induction f as [|f IH]; intros; cbn [read_blocks]; follows_tac; apply IH. Qed.

Lemma follows_write_blocks i f n s : forall off m t, follows i (write_blocks f n s off m t).
Proof. induction f as [|f IH]; intros; cbn [write_blocks]; follows_tac; apply IH. Qed.

Lemma keeps_who_dev_fn {A} (sel : _ -> option A) m : keeps who (dev_fn sel m).
Proof. unfold dev_fn. keeps_tac. Qed.

#[local] Hint Resolve keeps_who_dev_fn : keeps.
#[local] Hint Resolve follows_read_blocks follows_write_blocks : follows.

Lemma follows_readi i n d o m : follows i (readi n d o m).
Proof. unfold readi. follows_tac. Qed.

Lemma follows_writei i n s o m : follows i (writei n s o m).
Proof. unfold writei. follows_tac. Qed.

#[local] Hint Resolve follows_readi follows_writei : follows.

Lemma follows_dir_scan i f n msg t : forall off last, follows i (dir_scan f n msg t off last).
Proof. induction f as [|f IH]; intros; cbn [dir_scan]; follows_tac; apply IH. Qed.

#[local] Hint Resolve follows_dir_scan : follows.

Lemma follows_dirlookup i n nm : follows i (dirlookup n nm).
Proof. unfold dirlookup. follows_tac. Qed.

#[local] Hint Resolve follows_dirlookup : follows.

Lemma follows_dirlink i n nm m : follows i (dirlink n nm m).
Proof. unfold dirlink. follows_tac. Qed.

Lemma follows_namex_loop i f : forall n path b nm, follows i (namex_loop f n path b nm).
Proof. induction f as [|f IH]; intros; cbn [namex_loop]; follows_tac; apply IH. Qed.

#[local] Hint Resolve follows_namex_loop : follows.

Lemma follows_namex i path b nm : follows i (namex path b nm).
Proof. unfold namex. follows_tac. Qed.

#[local] Hint Resolve follows_namex : follows.

Lemma follows_namei i path : follows i (namei path).
Proof. unfold namei. follows_tac. Qed.

Lemma follows_nameiparent i path : follows i (nameiparent path).
Proof. unfold nameiparent. follows_tac. Qed.

(** ** Pipes and files *)

Lemma keeps_who_my_killed : keeps who my_killed.
Proof. unfold my_killed. keeps_tac. Qed.

#[local] Hint Resolve keeps_who_my_killed : keeps.

Lemma follows_pipeclose i p w : follows i (pipeclose p w).
Proof. unfold pipeclose. follows_tac. Qed.

Lemma follows_wait_room i p : follows i (wait_room p).
Proof. unfold wait_room. follows_tac. Qed.

Lemma follows_wait_data i p : follows i (wait_data p).
Proof. unfold wait_data. follows_tac. Qed.

#[local] Hint Resolve follows_pipeclose follows_wait_room follows_wait_data : follows.

Lemma follows_pipewrite i p a n : follows i (pipewrite p a n).
Proof. unfold pipewrite. follows_tac. Qed.

Lemma keeps_who_pipe_copy n p a : forall j, keeps who (pipe_copy n p a j).
Proof. induction n as [|n IH]; intros; cbn [pipe_copy]; keeps_tac; apply IH. Qed.

#[local] Hint Resolve keeps_who_pipe_copy : keeps.

Lemma follows_piperead i p a n : follows i (piperead p a n).
Proof. unfold piperead. follows_tac. Qed.

Lemma keeps_who_filealloc : keeps who filealloc.
Proof. unfold filealloc. keeps_tac. Qed.

Lemma keeps_who_filedup f : keeps who (filedup f).
Proof. unfold filedup. keeps_tac. Qed.

Lemma follows_fileclose i f : follows i (fileclose f).
Proof. unfold fileclose. follows_tac. Qed.

Lemma follows_filestat i f s : follows i (filestat f s).
Proof. unfold filestat. follows_tac. Qed.

#[local] Hint Resolve keeps_who_filealloc : keeps.
#[local] Hint Resolve follows_pipewrite follows_piperead follows_fileclose : follows.

Lemma follows_fileread i f a n : follows i (fileread f a n).
Proof. unfold fileread. follows_tac. Qed.

Lemma follows_write_chunks i n f a m : forall j, follows i (write_chunks n f a m j).
Proof. induction n as [|n IH]; intros; cbn [write_chunks]; follows_tac; apply IH. Qed.

#[local] Hint Resolve follows_write_chunks : follows.

Lemma follows_filewrite i f a n : follows i (filewrite f a n).
Proof. unfold filewrite. follows_tac. Qed.

Lemma follows_pipealloc i : follows i pipealloc.
Proof. unfold pipealloc. follows_tac. Qed.

End Layers.

#[export] Hint Resolve keeps_who_log_write keeps_who_iget keeps_who_idup keeps_who_my_killed
  keeps_who_filealloc keeps_who_filedup keeps_who_stati keeps_who_procdump : keeps.
#[export] Hint Resolve follows_bread follows_bwrite follows_brelse follows_begin_op follows_end_op
  follows_initlog follows_iinit follows_ialloc follows_iupdate follows_ilock follows_iunlock
  follows_iput follows_iunlockput follows_kbdintr follows_uartintr follows_readi follows_writei
  follows_dir_scan follows_dirlookup follows_dirlink follows_namei follows_nameiparent
  follows_fileclose follows_filestat follows_fileread follows_filewrite follows_pipealloc : follows.
