(* ===== verification/KernelFollows.v ===== *)
(** * Every trap follows the life of processes

    The routines of proc.c that create, end and reap processes, the system
    calls and the trap handler: whatever a process asks the kernel for, and
    whatever interrupt arrives while it runs, the process table changes only by
    the transitions of ProcSpec.v, so that the invariant [pinv] holds whenever
    the CPU is given away and when the handler returns. *)

From S2P Require Import Prelude Params State Mem Spinlock Seg Str Cprintf Apic Kalloc Vm Proc ProcSpec.
From S2P Require Import ProcRefine Quiet Demo DemoFs FsState Sleeplock BlockDev Ide Bio Log Inode Console Fs.
From S2P Require Import Pipe File ProcLife Exec Syscall Sysfile Trap FsFollows.

(** ** Keeping an eye on the table *)

Section Forward.
  Context {LK : Linker} {FU : Fuel}.
  Implicit Types (k : K).

(** [follows] with a precondition and a postcondition on the table. *)
Definition forward {A} (i : nat) (P : pstate -> Prop) (m : M K A) (Q : A -> pstate -> Prop) : Prop :=
  forall k0 k, psteps (k_ps k0) (k_ps k) -> cur i k -> P (k_ps k) ->
    wp (as_proc i k0) (m k)
      (fun a k' => psteps (k_ps k0) (k_ps k') /\ cur i k' /\ Q a (k_ps k')).

Lemma follows_forward {A} i (m : M K A) : forward i (fun _ => True) m (fun _ _ => True) -> follows i m.
Proof. intros H k0 k Hs Hc. eapply wp_mono; [|by apply H]. naive_solver. Qed.

Lemma forward_follows {A} i P (m : M K A) : follows i m -> forward i P m (fun _ _ => True).
Proof. intros H k0 k Hs Hc _. eapply wp_mono; [|by apply H]. naive_solver. Qed.

Lemma forward_keeps {A} i P (m : M K A) : keeps who m -> forward i P m (fun _ => P).
Proof.
  intros Hm k0 k Hs Hc HP. eapply wp_mono; [|apply wp_calm; [exact I|apply Hm]].
  intros a k' Hw. cbv beta in *. rewrite (who_ps _ _ Hw). split; [done|]. split; [by eapply cur_who|done].
Qed.

Lemma forward_bind {A B} i P R Q (m : M K A) (f : A -> M K B) :
  forward i P m R -> (forall a, forward i (R a) (f a) Q) -> forward i P (bind m f) Q.
Proof.
  intros Hm Hf k0 k Hs Hc HP. unfold bind. apply wp_bind.
  eapply wp_mono; [|by apply Hm]. intros a k' (? & ? & ?). by apply Hf.
Qed.

Lemma forward_for_all {X} i P (l : list X) (body : X -> M K unit) :
  (forall x, forward i P (body x) (fun _ => P)) -> forward i P (for_all l body) (fun _ => P).
Proof.
  intros Hb. induction l as [|x l IH]; [apply forward_keeps, keeps_ret|].
  eapply forward_bind; [apply Hb|done].
Qed.

(** Fields outside the accounts can change at any time. *)
Lemma follows_fill i j f : (forall p, account (f p) = account p) -> follows i (@upd_proc fstate j f).
Proof.
  intros Hf k0 k Hs Hc. unfold upd_proc, get_proc, on_ps. kred.
  destruct (procs (k_ps k) !! j) as [q|] eqn:E; kred; [|exact I]. split.
  - eapply psteps_step; [done|]. by apply ps_fill.
  - destruct Hc as [Ho (p & Hp & Hst)]. split; [exact Ho|]. destruct (decide (i = j)) as [->|Hne].
    + eapply (in_state_upd _ _ _ _ p); [done|]. injection (Hf p). congruence.
    + apply in_state_upd_ne; [done|]. by exists p.
Qed.

(** ** A process in the making *)

Definition making (np : nat) (ps : pstate) : Prop := in_state ps np EMBRYO.

(** Steps that leave it in the making. *)
Definition steady {A} (i np : nat) (m : M K A) : Prop := forward i (making np) m (fun _ => making np).

Lemma steady_keeps {A} i np (m : M K A) : keeps who m -> steady i np m.
Proof. apply forward_keeps. Qed.

Lemma steady_bind {A B} i np (m : M K A) (f : A -> M K B) :
  steady i np m -> (forall a, steady i np (f a)) -> steady i np (bind m f).
Proof. intros Hm Hf. eapply forward_bind; [exact Hm|exact Hf]. Qed.

Lemma steady_fill i np j f :
  (forall p, account (f p) = account p) -> steady i np (@upd_proc fstate j f).
Proof.
  intros Hf k0 k Hs Hc Hm. unfold upd_proc, get_proc, on_ps.
  pose proof (follows_fill i j f Hf k0 k Hs Hc) as H. unfold upd_proc, get_proc, on_ps in H.
  autorewrite with kred in *. cbn [res_bind deref when] in *.
  destruct (procs (k_ps k) !! j) as [q|] eqn:E; [|exact I]. destruct H as [H1 H2].
  split; [exact H1|]. split; [exact H2|]. cbn [k_ps set_k_ps].
  destruct Hm as (p & Hp & Hst). destruct (decide (np = j)) as [->|Hne].
  - eapply (in_state_upd _ _ _ _ p); [done|]. injection (Hf p). congruence.
  - apply in_state_upd_ne; [done|]. by exists p.
Qed.

(** The rest of a routine, from a point with a process in the making. *)
Definition until {A} (i np : nat) (m : M K A) : Prop := forward i (making np) m (fun _ _ => True).

Lemma until_bind {A B} i np (m : M K A) (f : A -> M K B) :
  steady i np m -> (forall a, until i np (f a)) -> until i np (bind m f).
Proof. intros Hm Hf. eapply forward_bind; [exact Hm|exact Hf]. Qed.

Lemma until_then {A B} i np (m : M K A) (f : A -> M K B) :
  until i np m -> (forall a, follows i (f a)) -> until i np (bind m f).
Proof. intros Hm Hf. eapply forward_bind; [exact Hm|]. intros a. by apply forward_follows. Qed.

End Forward.

#[export] Hint Extern 1 (follows _ (upd_proc _ _)) => apply follows_fill; intros []; reflexivity : follows.

Ltac steady_step :=
  match goal with
  | |- steady _ _ (let _ := _ in _) => cbv zeta
  | |- steady _ _ (bind _ _) => apply steady_bind; [|intros ?]
  | |- steady _ _ (for_all _ _) => apply forward_for_all; intros ?
  | |- forward ?i (making ?np) ?m (fun _ => making ?np) => change (steady i np m)
  | |- steady _ _ (if ?b then _ else _) => destruct b
  | |- steady _ _ (match ?x with _ => _ end) => destruct x
  | |- steady _ _ (upd_proc _ _) => apply steady_fill; intros []; reflexivity
  | |- steady _ _ _ => apply steady_keeps; solve [keeps_tac]
  end.

Ltac steady_tac := repeat steady_step.

(** A step that only looks elsewhere. *)
Ltac forward_quiet := eapply forward_bind; [apply forward_keeps; solve [keeps_tac]|]; intros ?; cbv beta.

Section Life.
  Context {LK : Linker} {FU : Fuel} {BD : BlockDev} {FD : FollowingDev}.
  Implicit Types (k : K).

(** ** Creation *)

Lemma keeps_who_curproc : keeps who curproc.
Proof. unfold curproc. keeps_tac. Qed.

#[local] Hint Resolve keeps_who_curproc keeps_who_switchuvm : keeps.

(** [curproc] returns the current process. *)
Lemma follows_curproc {B} i (f : nat -> M K B) : follows i (f i) -> follows i (bind curproc f).
Proof.
  intros Hf k0 k Hs Hc. unfold curproc. rewrite bind_eq, wp_bind.
  apply (wp_myproc _ i); [done|apply Hc|]. intros k2 H2%core_who. cbn [deref]. kred.
  apply Hf; [by rewrite (who_ps _ _ H2)|by eapply cur_who].
Qed.

Lemma cur_set_ps i k ps :
  on_cpu i k -> in_state ps i RUNNING -> cur i (set_k_ps ps k).
Proof. done. Qed.

(** Sequences of updates of one slot are one update. *)
Lemma wp_upd_slot {B} (e : env K) j g (f : unit -> M K B) k ps h Q :
  e_fail e -> wp e (f tt (set_k_ps (upd j (fun p => g (h p)) ps) k)) Q ->
  wp e (bind (upd_proc j g) f (set_k_ps (upd j h ps) k)) Q.
Proof.
  intros He Hf. apply wp_upd_proc; [done|]. intros _. rewrite set_ps_twice. cbn [k_ps set_k_ps].
  by rewrite upd_upd.
Qed.

Lemma upd_proc_ext j f g ps : (forall p, f p = g p) -> upd j f ps = upd j g ps.
Proof.
  intros Hfg. unfold upd. f_equal. apply list_eq. intros n. destruct (decide (n = j)) as [->|].
  - rewrite !list_lookup_alter_eq. destruct (procs ps !! j); simpl; congruence.
  - by rewrite !list_lookup_alter_ne.
Qed.

Lemma bind_ret_r {A} (m : M K A) k e Q : wp e (bind m ret k) Q -> wp e (m k) Q.
Proof. rewrite bind_eq, wp_bind. apply wp_mono. done. Qed.

(** A free slot becomes a process in the making. *)
Lemma forward_init_slot i j :
  forward i (fun ps => in_state ps j UNUSED) (init_slot j) (fun _ => making j).
Proof.
  intros k0 k Hs [Ho (q & Hq & Hrun)] (p & Hp & Hu). unfold init_slot.
  apply wp_upd_proc; [done|]. intros _. do 2 (apply wp_upd_slot; [done|]).
  rewrite bind_eq, gets_eq. cbn [res_bind k_ps set_k_ps]. simpl (nextpid _).
  destruct (nextpid (k_ps k) <? 2 ^ 31 - 1) eqn:En; [|exact I]. cbn [negb].
  apply wp_upd_slot; [done|]. unfold on_ps. rewrite bind_eq, modify_eq. cbn [res_bind].
  rewrite set_ps_twice. cbn [k_ps set_k_ps].
  match goal with |- wp _ (_ (set_k_ps (set_nextpid ?n (upd j ?h ?ps)) _)) _ =>
    change (set_nextpid n (upd j h ps)) with (upd j h (set_nextpid n ps)) end.
  assert (forall h, (forall r, set_totalCBT 0 (set_totalWaitTime 0 (set_lastChangeTime (ticks (k_ps k))
      (set_creationTime (ticks (k_ps k)) (h r)))) = embryo (nextpid (k_ps k)) (ticks (k_ps k)) r) ->
    wp (as_proc i k0) ((t <- get_ticks ;; upd_proc j (set_creationTime t) ;;
        upd_proc j (set_lastChangeTime t) ;; upd_proc j (set_totalWaitTime 0) ;;
        upd_proc j (set_totalCBT 0))
      (set_k_ps (upd j h (set_nextpid (nextpid (k_ps k) + 1) (k_ps k))) k))
    (fun _ k' => psteps (k_ps k0) (k_ps k') /\ cur i k' /\ making j (k_ps k'))) as Hrest.
  { intros h Hh. apply wp_get_ticks. simpl (ticks _). do 3 (apply wp_upd_slot; [done|]).
    apply bind_ret_r, wp_upd_slot; [done|]. rewrite (upd_proc_ext _ _ _ _ Hh), ret_eq. cbn [wp].
    split; [|split].
    - eapply psteps_step; [done|]. apply (ps_alloc (k_ps k) j); [by exists p|lia].
    - split; [exact Ho|]. apply (in_state_upd_ne (set_nextpid _ _)); [congruence|]. by exists q.
    - by apply (in_state_upd _ _ _ _ p). }
  destruct (nextpid (k_ps k) =? 1) eqn:E1; cbn [when].
  - apply wp_upd_slot; [done|]. apply Hrest. intros r. unfold embryo. rewrite E1. by destruct r.
  - rewrite bind_eq, ret_eq. cbn [res_bind]. apply Hrest. intros r. unfold embryo. rewrite E1. by destruct r.
Qed.

(** A process in the making that comes to nothing. *)
Lemma until_unused i np : until i np (upd_proc np (set_state UNUSED)).
Proof.
  intros k0 k Hs [Ho (q & Hq & Hrun)] (p & Hp & Hst). apply bind_ret_r, wp_upd_proc; [done|]. intros _.
  rewrite ret_eq. cbn [wp k_ps set_k_ps]. split; [|split]; [|split; [exact Ho|]|done].
  - eapply rtc_r; [exact Hs|]. apply ps_abort. by exists p.
  - apply in_state_upd_ne; [congruence|]. by exists q.
Qed.

Lemma forward_find_unused i :
  forward i (fun _ => True)
    (for_each slots (fun i => p <- get_proc i ;;
       ret (if bool_decide (state p = UNUSED) then Some i else None)))
    (fun o ps => forall j, o = Some j -> in_state ps j UNUSED).
Proof.
  intros k0 k Hs Hc _.
  eapply wp_mono; [|apply (wp_for_each _ _ _ (fun k' => k' = k)
    (fun j k' => k' = k /\ in_state (k_ps k) j UNUSED)); [|done]].
  - intros [j|] k' H; [destruct H as [-> H]|subst]; naive_solver.
  - intros j k' _ ->. apply wp_get_proc; [done|]. intros p Hp. rewrite ret_eq. cbn [wp].
    destruct (decide (state p = UNUSED)); [rewrite bool_decide_eq_true_2 by done|by rewrite bool_decide_eq_false_2].
    split; [done|]. by exists p.
Qed.

Lemma forward_allocproc i :
  forward i (fun _ => True) allocproc (fun o ps => forall np, o = Some np -> making np ps).
Proof.
  unfold allocproc. forward_quiet. eapply forward_bind; [apply forward_find_unused|]. intros [j|]; cbv beta.
  - apply (forward_bind _ _ (fun _ => making j)).
    { intros k0 k Hs Hc Hj. apply forward_init_slot; auto. }
    intros _. forward_quiet. forward_quiet.
    eapply forward_bind; [apply steady_fill; intros []; reflexivity|]. intros ?. cbv beta.
    match goal with |- context [?ks =? 0] => destruct (ks =? 0) end.
    + eapply forward_bind; [apply until_unused|]. intros ?. by intros k0 k Hs Hc _.
    + cbv zeta.
      eapply forward_bind; [apply steady_fill; intros []; reflexivity|]. intros ?. cbv beta. forward_quiet.
      eapply forward_bind; [apply steady_fill; intros []; reflexivity|]. intros ?. cbv beta. forward_quiet.
      forward_quiet. intros k0 k Hs Hc Hm. rewrite ret_eq. split; [done|]. split; [done|]. by intros np [= <-].
  - forward_quiet. by intros k0 k Hs Hc _.
Qed.

Lemma follows_preempt_check i : follows i preempt_check.
Proof. unfold preempt_check. follows_tac. Qed.

#[local] Hint Resolve follows_preempt_check : follows.

Lemma until_make_runnable i np : until i np (make_runnable np).
Proof.
  unfold make_runnable. apply until_bind; [apply steady_keeps; keeps_tac|]. intros _.
  intros k0 k Hs [Ho (q & Hq & Hrun)] (p & Hp & Hst).
  apply wp_upd_proc; [done|]. intros _. apply wp_get_ticks. simpl (ticks _). apply wp_upd_slot; [done|].
  apply wp_get_proc; [done|]. intros p' Hp'. apply wp_add_tickets.
  assert (ticketCount p' = ticketCount p) as ->.
  { cbn in Hp'. rewrite list_lookup_alter_eq, Hp in Hp'. by injection Hp' as <-. }
  pose proof (ps_ready (k_ps k) np p Hp Hst) as Hstep.
  eapply wp_mono; [|apply wp_calm; [exact I|apply keeps_who_release]].
  intros ? k' Hw. cbv beta in Hw. rewrite (who_ps _ _ Hw). cbn [k_ps set_k_ps]. split; [|split; [|done]].
  - eapply rtc_r; [exact Hs|exact Hstep].
  - eapply cur_who; [exact Hw|]. split; [exact Ho|]. apply (in_state_upd_ne (k_ps k)); [congruence|]. by exists q.
Qed.

Lemma until_abandon i np : until i np (abandon np).
Proof.
  unfold abandon. apply until_bind; [steady_tac|]. intros q. apply until_bind; [steady_tac|]. intros _.
  apply until_bind; [steady_tac|]. intros _. apply until_unused.
Qed.

Lemma steady_inherit i np j : steady i np (inherit j np).
Proof. unfold inherit. steady_tac. Qed.

Lemma keeps_who_copy_tf j np : keeps who (copy_tf j np).
Proof. unfold copy_tf. keeps_tac. Qed.

#[local] Hint Resolve keeps_who_copy_tf : keeps.

(** A routine that allocates a process and goes on with it. *)
Lemma follows_alloc {B} i (f : option nat -> M K B) :
  follows i (f None) -> (forall np, until i np (f (Some np))) -> follows i (bind allocproc f).
Proof.
  intros HN HS. apply follows_forward. eapply forward_bind; [apply forward_allocproc|].
  intros [np|]; [|by apply forward_follows]. intros k0 k Hs Hc Hm. apply HS; auto.
Qed.

Ltac until_step :=
  match goal with
  | |- until _ _ (let _ := _ in _) => cbv zeta
  | |- until _ _ (bind (abandon _) _) => apply until_then; [apply until_abandon|]; intros ?; follows_tac
  | |- until _ _ (bind (make_runnable _) _) => apply until_then; [apply until_make_runnable|]; intros ?; follows_tac
  | |- until _ _ (bind (inherit _ _) _) => apply until_bind; [apply steady_inherit|intros ?]
  | |- until _ _ (bind _ _) => apply until_bind; [solve [steady_tac]|intros ?]
  | |- until _ _ (if ?b then _ else _) => destruct b
  end.

Lemma follows_fork i : follows i fork.
Proof.
  unfold fork. apply follows_bind; [apply follows_keeps; keeps_tac|]. intros j.
  apply follows_alloc; [apply follows_ret|]. intros np. repeat until_step.
Qed.

Lemma follows_thread_create i s : follows i (thread_create s).
Proof.
  unfold thread_create. apply follows_bind; [apply follows_keeps; keeps_tac|]. intros j. cbv zeta.
  apply follows_bind; [apply follows_keeps; keeps_tac|]. intros p.
  apply follows_bind; [apply follows_keeps; keeps_tac|]. intros esp. cbv zeta.
  apply follows_alloc; [follows_tac|]. intros np. repeat until_step.
Qed.

Lemma follows_forkret i : follows i forkret.
Proof.
  unfold forkret. follows_tac. intros k0 k Hs Hc. split; [|exact Hc].
  eapply psteps_step; [exact Hs|]. by apply ps_global.
Qed.

(** ** Growing *)

Lemma follows_growproc i n : follows i (growproc n).
Proof. unfold growproc. follows_tac. Qed.

Lemma follows_getpage i : follows i getpage.
Proof. unfold getpage. follows_tac. Qed.

Lemma follows_detachpage i l : follows i (detachpage l).
Proof. unfold detachpage. follows_tac. Qed.

Lemma follows_loaduvm i d a ip o s : follows i (loaduvm d a ip o s).
Proof. unfold loaduvm. follows_tac. Qed.

#[local] Hint Resolve follows_loaduvm : follows.

(** ** Ending *)

Lemma follows_close_files i j : follows i (close_files j).
Proof. unfold close_files. follows_tac. Qed.

Lemma follows_leave_family i j : follows i (leave_family j).
Proof. unfold leave_family. follows_tac. Qed.

#[local] Hint Resolve follows_close_files follows_leave_family : follows.

Lemma follows_exit i : follows i exit.
Proof.
  unfold exit. apply follows_curproc. apply follows_bind; [follows_tac|]. intros ini.
  destruct (bool_decide _); [apply follows_panic|]. do 3 (apply follows_bind; [follows_tac|]; intros ?).
  intros k0 k Hs [Ho (q & Hq & Hrun)]. apply wp_upd_proc; [exact I|]. intros _.
  apply wp_get_proc; [exact I|]. intros p Hp. apply wp_add_tickets.
  assert (ticketCount p = ticketCount q) as ->.
  { cbn in Hp. rewrite list_lookup_alter_eq, Hq in Hp. by injection Hp as <-. }
  apply (follows_sched_then _ _ _ _ (k_ps k)); [exact Ho|exact Hs| |apply follows_panic].
  cbn [k_ps set_k_ps]. pose proof (ps_exit (k_ps k) i q Hq Hrun) as Hb.
  unfold tickets_by, upd in *. simpl in *. rewrite alter_alter_eq. exact Hb.
Qed.

(** The slot of a zombie is cleared. *)
Definition zombie (j : nat) (ps : pstate) : Prop := in_state ps j ZOMBIE.

Lemma forward_clear i j : forward i (zombie j) (upd_proc j cleared) (fun _ _ => True).
Proof.
  intros k0 k Hs [Ho (q & Hq & Hrun)] (p & Hp & Hst). apply bind_ret_r, wp_upd_proc; [exact I|]. intros _.
  rewrite ret_eq. cbn [wp k_ps set_k_ps]. split; [|split; [split; [exact Ho|]|done]].
  - eapply rtc_r; [exact Hs|]. apply (ps_reap (k_ps k) j). by exists p.
  - apply in_state_upd_ne; [congruence|]. by exists q.
Qed.

Lemma forward_zombie_fill i j f :
  (forall p, account (f p) = account p) -> forward i (zombie j) (@upd_proc fstate j f) (fun _ => zombie j).
Proof.
  intros Hf k0 k Hs Hc (p & Hp & Hst). pose proof (follows_fill i j f Hf k0 k Hs Hc) as H.
  unfold upd_proc, get_proc, on_ps in *. autorewrite with kred in *. cbn [res_bind deref when] in *.
  rewrite Hp in *. cbn [deref] in *. autorewrite with kred in *. destruct H as [H1 H2].
  split; [exact H1|]. split; [exact H2|]. cbn [k_ps set_k_ps].
  eapply (in_state_upd _ _ _ _ p); [done|]. injection (Hf p). congruence.
Qed.

Ltac forward_reap :=
  repeat (forward_quiet || (eapply forward_bind; [apply forward_zombie_fill; intros []; reflexivity|];
    intros ?; cbv beta) || (eapply forward_bind; [apply forward_clear|]; intros ?; cbv beta));
  apply forward_follows; follows_tac.

Lemma follows_scan_children i l j a : forall hk, follows i (scan_children l j a hk).
Proof.
  induction l as [|x l IH]; intros hk; cbn [scan_children]; [apply follows_ret|].
  intros k0 k Hs Hc. apply wp_get_proc; [exact I|]. intros p Hp.
  destruct (negb _ || negb _); [by apply IH|].
  destruct (decide (state p = ZOMBIE)) as [E|E].
  - rewrite bool_decide_eq_true_2 by done. cbv zeta.
    match goal with |- wp _ (?m k) _ => assert (forward i (zombie x) m (fun _ _ => True)) as Hm end.
    { forward_reap. }
    eapply wp_mono; [|apply (Hm k0 k Hs Hc); by exists p]. cbv beta. tauto.
  - rewrite bool_decide_eq_false_2 by done. by apply IH.
Qed.

Lemma follows_scan_threads i l j t : forall te, follows i (scan_threads l j t te).
Proof.
  induction l as [|x l IH]; intros te; cbn [scan_threads]; [apply follows_ret|].
  intros k0 k Hs Hc. apply wp_get_proc; [exact I|]. intros p Hp.
  apply wp_get_proc; [exact I|]. intros cp Hcp.
  destruct (Nat.eqb _ _ || negb _ || negb _); [by apply IH|].
  destruct (_ =? _); [by rewrite ret_eq|].
  destruct (decide (state p = ZOMBIE)) as [E|E].
  - rewrite bool_decide_eq_true_2 by done. cbv zeta.
    match goal with |- wp _ (?m k) _ => assert (forward i (zombie x) m (fun _ _ => True)) as Hm end.
    { forward_reap. }
    eapply wp_mono; [|apply (Hm k0 k Hs Hc); by exists p]. cbv beta. tauto.
  - rewrite bool_decide_eq_false_2 by done. by apply IH.
Qed.

#[local] Hint Resolve follows_scan_children follows_scan_threads : follows.

Lemma follows_diagwait i a : follows i (diagwait a).
Proof. unfold diagwait. follows_tac. Qed.

Lemma follows_thread_join i t : follows i (thread_join t).
Proof. unfold thread_join. follows_tac. Qed.

(** A process is marked killed, and woken if it sleeps. *)
Lemma follows_mark_killed {B} i j (f : bool -> M K B) :
  (forall b, follows i (f b)) ->
  follows i (p <- get_proc j ;;
    upd_proc j (set_killed 1) ;;
    woken <- (if bool_decide (state p = SLEEPING) then
                upd_proc j (set_state RUNNABLE) ;;
                t <- get_ticks ;;
                upd_proc j (set_lastChangeTime t) ;;
                add_tickets (ticketCount p) ;;
                ret true
              else ret false) ;;
    f woken).
Proof.
  intros Hf k0 k Hs Hc. apply wp_get_proc; [exact I|]. intros p Hp.
  destruct (decide (state p = SLEEPING)) as [E|E].
  - rewrite bool_decide_eq_true_2 by done. destruct Hc as [Ho (q & Hq & Hrun)].
    apply wp_upd_proc; [exact I|]. intros _. rewrite bind_eq, wp_bind.
    apply wp_upd_slot; [exact I|]. apply wp_get_ticks. simpl (ticks _).
    apply wp_upd_slot; [exact I|]. apply wp_add_tickets. rewrite ret_eq. cbn [wp].
    apply Hf; cbn [k_ps set_k_ps].
    + set (ps1 := upd j (set_killed 1) (k_ps k)).
      assert (pstep (k_ps k) ps1) as H1 by (by apply ps_fill).
      pose proof (ps_wake ps1 j (set_killed 1 p)) as H2. cbn in H2.
      rewrite list_lookup_alter_eq, Hp in H2. specialize (H2 eq_refl E).
      change (ticks ps1) with (ticks (k_ps k)) in H2. unfold ps1 in H2 at 2. rewrite upd_upd in H2.
      eapply rtc_r; [eapply rtc_r; [exact Hs|exact H1]|exact H2].
    + split; [exact Ho|]. apply (in_state_upd_ne (k_ps k)); [congruence|]. by exists q.
  - rewrite bool_decide_eq_false_2 by done.
    match goal with |- wp _ (?m k) _ => assert (follows i m) as Hm end; [|by apply Hm].
    follows_tac.
Qed.

Lemma follows_kill i n : follows i (kill n).
Proof.
  unfold kill. apply follows_bind; [follows_tac|]. intros _. apply follows_bind; [|intros ?; follows_tac].
  apply follows_for_each. intros j k0 k Hs Hc.
  destruct (procs (k_ps k) !! j) as [p|] eqn:Hp; [|unfold get_proc; kred; by rewrite Hp].
  rewrite bind_eq. unfold get_proc at 1. kred. rewrite Hp. kred.
  destruct (negb _); [by rewrite ret_eq|].
  pose proof (follows_mark_killed i j (fun woken => release LKptable ;; when woken preempt_check ;; ret (Some tt)))
    as H.
  specialize (H ltac:(intros; cbv beta; follows_tac) k0 k Hs Hc). unfold get_proc at 1 in H.
  rewrite bind_eq in H. rewrite !bind_eq, gets_eq in H. cbn [res_bind] in H. rewrite Hp in H. exact H.
Qed.

End Life.

#[export] Hint Resolve keeps_who_curproc : keeps.
#[export] Hint Resolve follows_fork follows_exit follows_diagwait follows_thread_join follows_kill
  follows_growproc follows_getpage follows_detachpage follows_thread_create follows_loaduvm
  follows_forkret : follows.

(** ** System calls *)

Section Calls.
  Context {LK : Linker} {FU : Fuel} {BD : BlockDev} {FD : FollowingDev}.
  Implicit Types (k : K).

#[local] Hint Resolve keeps_who_switchuvm : keeps.

Lemma follows_load_segments i l d ip o : forall s, follows i (load_segments l d ip o s).
Proof. induction l as [|x l IH]; intros; cbn [load_segments]; follows_tac; apply IH. Qed.

Lemma keeps_who_push_args argv d : forall sp n us, keeps who (push_args argv d sp n us).
Proof. induction argv as [|a argv IH]; intros; cbn [push_args]; keeps_tac; apply IH. Qed.

#[local] Hint Resolve keeps_who_push_args : keeps.
#[local] Hint Resolve follows_load_segments : follows.

Lemma follows_exec_bad i d o : follows i (exec_bad d o).
Proof. unfold exec_bad. follows_tac. Qed.

#[local] Hint Resolve follows_exec_bad : follows.

Lemma follows_exec_image i j path argv d s e : follows i (exec_image j path argv d s e).
Proof. unfold exec_image. follows_tac. Qed.

#[local] Hint Resolve follows_exec_image : follows.

Lemma follows_exec i path argv : follows i (exec path argv).
Proof. unfold exec. follows_tac. Qed.

Lemma keeps_who_fetchint a : keeps who (fetchint a).
Proof. unfold fetchint. keeps_tac. Qed.

Lemma keeps_who_scan_str n : forall s acc, keeps who (scan_str n s acc).
Proof. induction n as [|n IH]; intros; cbn [scan_str]; keeps_tac; apply IH. Qed.

#[local] Hint Resolve keeps_who_fetchint keeps_who_scan_str : keeps.

Lemma keeps_who_fetchstr a : keeps who (fetchstr a).
Proof. unfold fetchstr. keeps_tac. Qed.

Lemma keeps_who_argint n : keeps who (argint n).
Proof. unfold argint. keeps_tac. Qed.

#[local] Hint Resolve keeps_who_fetchstr keeps_who_argint : keeps.

Lemma keeps_who_argptr n s : keeps who (argptr n s).
Proof. unfold argptr. keeps_tac. Qed.

Lemma keeps_who_argstr n : keeps who (argstr n).
Proof. unfold argstr. keeps_tac. Qed.

Lemma keeps_who_argfd n : keeps who (argfd n).
Proof. unfold argfd. keeps_tac. Qed.

Lemma keeps_who_fetch_argv n u : forall acc, keeps who (fetch_argv n u acc).
Proof. induction n as [|n IH]; intros; cbn [fetch_argv]; keeps_tac; apply IH. Qed.

#[local] Hint Resolve keeps_who_argptr keeps_who_argstr keeps_who_argfd keeps_who_fetch_argv : keeps.
#[local] Hint Resolve follows_exec : follows.

Lemma follows_fdalloc i f : follows i (fdalloc f).
Proof. unfold fdalloc. follows_tac. Qed.

Lemma follows_link_bad i n : follows i (link_bad n).
Proof. unfold link_bad, add_nlink. follows_tac. Qed.

Lemma follows_isdirempty i n : follows i (isdirempty n).
Proof. unfold isdirempty. follows_tac. Qed.

Lemma follows_unlink_bad i n : follows i (unlink_bad n).
Proof. unfold unlink_bad. follows_tac. Qed.

Lemma keeps_who_add_nlink n d : keeps who (add_nlink n d).
Proof. unfold add_nlink. keeps_tac. Qed.

#[local] Hint Resolve keeps_who_add_nlink : keeps.

Lemma follows_create i p t mj mn : follows i (create p t mj mn).
Proof. unfold create. follows_tac. Qed.

#[local] Hint Resolve follows_fdalloc follows_link_bad follows_isdirempty follows_unlink_bad
  follows_create : follows.

Lemma follows_open_inode i p m : follows i (open_inode p m).
Proof. unfold open_inode. follows_tac. Qed.

#[local] Hint Resolve follows_open_inode : follows.

(** The ticket count a process asks for is an int. *)
Lemma follows_sys_set_ticketCount i : follows i sys_set_ticketCount.
Proof.
  unfold sys_set_ticketCount, or_fail. intros k0 k Hs Hc.
  assert (wp (calm K) (argint 0 k) (fun o _ => forall n, o = Some n -> n < 2 ^ 31)) as Ha.
  { unfold argint, fetchint. repeat match goal with
    | |- wp _ (bind ?m ?f ?k) _ => apply (wp_keeps who); [exact I|keeps_tac|intros ? ? _]
    | |- wp _ ((if ?b then _ else _) _) _ => destruct b
    | |- _ => rewrite ret_eq; cbn [wp]; intros n [= <-]
    end. apply s32_range. }
  rewrite bind_eq, wp_bind.
  eapply wp_mono; [|apply wp_calm; [exact I|apply wp_conj; [apply Ha|apply keeps_who_argint]]].
  cbv beta. intros [n|] k' [Hn Hw].
  - assert (follows (F := fstate) i (if n >? 0 then set_ticketCount n ;; ret 0 else ret (-1))) as H.
    { specialize (Hn n eq_refl). pose proof (@follows_set_ticketCount fstate i n Hn). follows_tac. }
    apply H; [by rewrite (who_ps _ _ Hw)|by eapply cur_who].
  - rewrite ret_eq. split; [by rewrite (who_ps _ _ Hw)|by eapply cur_who].
Qed.

#[local] Hint Resolve follows_sys_set_ticketCount follows_get_ticks : follows.
#[local] Hint Resolve keeps_who_get_sb : keeps.

Lemma follows_syscalls i g num f : syscalls g num = Some f -> follows i f.
Proof.
  unfold syscalls, sys_fork, sys_exit, sys_diagwait, sys_wait, sys_pipe, sys_read, sys_kill, sys_exec,
    sys_fstat, sys_chdir, sys_dup, sys_getpid, sys_sbrk, sys_sleep, sys_uptime, sys_open, sys_write,
    sys_mknod, sys_unlink, sys_link, sys_mkdir, sys_close, sys_getpage, sys_detachpage, sys_thread_create,
    sys_thread_id, sys_thread_join, sys_get_policy, sys_change_policy, sys_set_priority,
    sys_get_proc_times, sys_get_ticketCount, wait, make_node, or_fail.
  intros H. repeat (match type of H with match ?x with _ => _ end = _ => destruct x end; try done);
    injection H as <-; follows_tac.
Qed.

Lemma follows_syscall i g : follows i (syscall g).
Proof.
  unfold syscall. apply follows_curproc. apply follows_bind; [follows_tac|]. intros p.
  apply follows_bind; [follows_tac|]. intros num. cbv zeta.
  destruct (syscalls g (s32 num)) as [f|] eqn:E; [|follows_tac].
  apply follows_bind; [by eapply follows_syscalls|]. intros r. follows_tac.
Qed.

End Calls.

(** ** Traps *)

Section Traps.
  Context {LK : Linker} {FU : Fuel} {BD : BlockDev} {FD : FollowingDev}.
  Implicit Types (k : K).

Lemma keeps_who_cpuid : keeps who cpuid.
Proof. unfold cpuid. keeps_tac. Qed.

Lemma keeps_who_my_test t : keeps who (my_test t).
Proof. unfold my_test. keeps_tac. Qed.

#[local] Hint Resolve keeps_who_cpuid keeps_who_my_test : keeps.
#[local] Hint Resolve follows_syscall : follows.

Lemma follows_exit_if_killed i cs : follows i (exit_if_killed cs).
Proof. unfold exit_if_killed. follows_tac. Qed.

Lemma follows_trap_syscall i tf g : follows i (trap_syscall tf g).
Proof. unfold trap_syscall. follows_tac. Qed.

Lemma follows_trap_fault i a b c d e : follows i (trap_fault a b c d e).
Proof. unfold trap_fault. follows_tac. Qed.

Lemma follows_tick_yield i t : follows i (tick_yield t).
Proof. unfold tick_yield. follows_tac. Qed.

#[local] Hint Resolve follows_exit_if_killed follows_trap_syscall follows_trap_fault
  follows_tick_yield : follows.

(** The clock has not reached the end of its range. *)
Definition clock_ok (ps : pstate) : Prop := 0 <= ticks ps < 2 ^ 32 - 1.

Lemma forward_trap_timer i : forward i clock_ok trap_timer (fun _ _ => True).
Proof.
  unfold trap_timer. forward_quiet. eapply forward_bind; [|intros ?; apply forward_follows; follows_tac].
  destruct (_ =? 0); [|apply forward_follows, follows_ret]. cbn [when]. forward_quiet.
  eapply (forward_bind _ _ (fun _ _ => True)); [|intros ?; apply forward_follows; follows_tac].
  intros k0 k Hs Hc Hk. unfold on_ps. rewrite modify_eq. cbn [wp k_ps set_k_ps].
  unfold clock_ok in Hk. rewrite u32_small by lia.
  split; [|by split]. eapply rtc_r; [exact Hs|]. apply (ps_tick (k_ps k)). lia.
Qed.

Lemma forward_trap i tf ready cr2 g : forward i clock_ok (trap tf ready cr2 g) (fun _ _ => True).
Proof.
  unfold trap. forward_quiet. destruct (_ =? T_SYSCALL); [apply forward_follows; follows_tac|].
  do 3 forward_quiet. cbv zeta. eapply forward_bind; [|intros ?; apply forward_follows; follows_tac].
  destruct (_ =? T_IRQ0 + IRQ_TIMER); [apply forward_trap_timer|]. apply forward_follows. follows_tac.
Qed.


End Traps.

(** ** Instances *)

Lemma pinv_running : pinv (k_ps (kernel_fs (kernel_running 0 ∅) fs0)).
Proof.
  split; simpl; try done; try lia.
  - repeat (apply Forall_cons_2; [split; simpl; try done; try lia; intros ?; try done; lia|]).
    apply Forall_nil_2.
  - repeat (apply Forall_cons_2; [simpl; lia|]). apply Forall_nil_2.
  - intros i j p q Hp Hq Hpq Hnz.
    assert (forall n r, table_running !! n = Some r -> pid r <> 0 -> pid r = Z.of_nat n + 1) as H.
    { intros [|[|[|n]]] r; [by intros [= <-]..|].
      change (table_running !! S (S (S n))) with (replicate 61 proc0 !! n).
      by intros (-> & _)%lookup_replicate. }
    pose proof (H i p Hp Hnz). pose proof (H j q Hq ltac:(congruence)). lia.
Qed.

Lemma cur_running : cur 1 (kernel_fs (kernel_running 0 ∅) fs0).
Proof. split; [|by eexists]. split; [simpl; lia|]. exists 0%nat. by eexists. Qed.

