(* ===== verification/Ulib.v ===== *)
(** * The user library (ulib.c, printf.c)

    Strings are the characters from a pointer to the end of their array, as in
    Str.v; arrays that are changed are lists with indices.  A user process sees
    the kernel through [read] and [write]: a read returns some of the bytes that
    have arrived, at most as many as asked for and none at the end of the file;
    writes are recorded with their descriptor. *)

From S2P Require Import Prelude.

(** ** Input and output *)

Record uio : Type := mkUio {
  arrived : list (list Z);
  written : list (Z * list Z)
}.

Definition set_arrived (v : list (list Z)) (u : uio) : uio := mkUio v (written u).

Definition set_written (v : list (Z * list Z)) (u : uio) : uio := mkUio (arrived u) v.

(** One [read] of at most [n] bytes from what arrives. *)
Definition take_arrived (n : nat) (cs : list (list Z)) : list Z * list (list Z) :=
  match cs with
  | [] => ([], [])
  | c :: cs' => (take n c, match drop n c with [] => cs' | r => r :: cs' end)
  end.

Definition read (n : nat) : M uio (list Z) :=
  cs <- gets arrived ;;
  modify (set_arrived (snd (take_arrived n cs))) ;;
  ret (fst (take_arrived n cs)).

Definition write (fd : Z) (bs : list Z) : M uio unit :=
  modify (fun u => set_written (written u ++ [(fd, bs)]) u).

(** All bytes written to [fd]. *)
Definition out_of (fd : Z) (u : uio) : list Z :=
  concat ((fun w => if fst w =? fd then snd w else []) <$> written u).

(** ** Strings *)

Definition ch (p : list Z) : Z := hd 0 p.

(** The array at [s] after the call; [None] when the string does not fit. *)
(* ulib.c 7-16: strcpy *)
Fixpoint strcpy (s t : list Z) : option (list Z) :=
  match s with
  | [] => None
  | _ :: s' => if nz (ch t) then cons (ch t) <$> strcpy s' (tail t) else Some (0 :: s')
  end.

(* ulib.c 18-24: strcmp *)
Fixpoint strcmp (p q : list Z) : Z :=
  match p with
  | [] => 0 - u8 (ch q)
  | c :: p' => if nz c && (c =? ch q) then strcmp p' (tail q) else u8 c - u8 (ch q)
  end.

(* ulib.c 26-34: strlen *)
Fixpoint strlen (s : list Z) : nat :=
  match s with
  | [] => 0
  | c :: s' => if nz c then S (strlen s') else 0
  end.

(** The distance from [s] to the character found. *)
(* ulib.c 43-50: strchr *)
Fixpoint strchr (s : list Z) (c : Z) : option nat :=
  match s with
  | [] => None
  | x :: s' => if negb (nz x) then None else if x =? c then Some 0%nat else S <$> strchr s' c
  end.

(* ulib.c 36-41: memset *)
Definition memset (a : list Z) (c : Z) (n : nat) : list Z := replicate (Nat.min n (length a)) (u8 c) ++ drop n a.

(** [None]: the signed sum overflows. *)
(* ulib.c 90-93: atoi *)
Fixpoint atoi_loop (n : Z) (s : list Z) : option Z :=
  match s with
  | [] => Some n
  | c :: s' =>
      if (48 <=? c) && (c <=? 57) then
        if n * 10 + c <? 2 ^ 31 then atoi_loop (n * 10 + c - 48) s' else None
      else Some n
  end.

(* ulib.c 85-94: atoi *)
Definition atoi (s : list Z) : option Z := atoi_loop 0 s.

(** The copy goes upwards whatever the two places are. *)
(* ulib.c 96-106: memmove *)
Fixpoint memmove (a : list Z) (dst src n : nat) : list Z :=
  match n with
  | O => a
  | S n' => memmove (<[dst := a !!! src]> a) (S dst) (S src) n'
  end.

(** [acc] is what has been stored so far. *)
(* ulib.c 58-65: gets *)
Fixpoint gets_loop (room : nat) (acc : list Z) : M uio (list Z) :=
  match room with
  | O => ret acc
  | S room' =>
      cc <- read 1 ;;
      match cc with
      | [] => ret acc
      | c :: _ => if (c =? 10) || (c =? 13) then ret (acc ++ [c]) else gets_loop room' (acc ++ [c])
      end
  end.

(** The string in [buf] after the call. *)
(* ulib.c 52-68: gets *)
Definition gets_line (max : Z) : M uio (list Z) := gets_loop (Z.to_nat (max - 1)) [].

(** ** printf *)

(* printf.c 5-9: putc *)
Definition putc (fd c : Z) : M uio unit := write fd [u8 c].

Definition hexdigit (d : Z) : Z := if d <? 10 then 48 + d else 55 + d.

(* printf.c 28-30: printint *)
Fixpoint digit_loop (fuel : nat) (x base : Z) : list Z :=
  match fuel with
  | O => []
  | S n => hexdigit (x `mod` base) :: (if x `div` base =? 0 then [] else digit_loop n (x `div` base) base)
  end.

(** The contents of [buf], least significant digit first; 15 of its 16
    characters are enough for the digits in the bases used. *)
(* printf.c 14-32: printint *)
Definition digit_buf (xx base : Z) (sgn : bool) : list Z :=
  let neg := sgn && (xx <? 0) in
  let x := if neg then u32 (- xx) else u32 xx in
  digit_loop 15 x base ++ (if neg then [45] else []).

(* printf.c 11-36: printint *)
Definition printint (fd xx base : Z) (sgn : bool) : M uio unit :=
  for_all (rev (digit_buf xx base sgn)) (putc fd).

(** Arguments: a word, or a pointer to a string, null included. *)
Inductive uarg : Type :=
| UInt (v : Z)
| UStr (s : option (list Z)).

(** [%] is the state ['%'] of the loop; a missing argument would be read from
    the stack. *)
(* printf.c 48-84: printf *)
Fixpoint printf_loop (fd : Z) (pct : bool) (fmt : list Z) (args : list uarg) : M uio unit :=
  match fmt with
  | [] => ret tt
  | c :: fmt' =>
      if pct then
        if c =? 100 then
          match args with
          | UInt v :: args' => printint fd (s32 v) 10 true ;; printf_loop fd false fmt' args'
          | _ => undef "printf"
          end
        else if (c =? 120) || (c =? 112) then
          match args with
          | UInt v :: args' => printint fd (s32 v) 16 false ;; printf_loop fd false fmt' args'
          | _ => undef "printf"
          end
        else if c =? 115 then
          match args with
          | UStr s :: args' => for_all (default (bytes_of "(null)") s) (putc fd) ;; printf_loop fd false fmt' args'
          | _ => undef "printf"
          end
        else if c =? 99 then
          match args with
          | UInt v :: args' => putc fd v ;; printf_loop fd false fmt' args'
          | _ => undef "printf"
          end
        else if c =? 37 then putc fd c ;; printf_loop fd false fmt' args
        else putc fd 37 ;; putc fd c ;; printf_loop fd false fmt' args
      else if c =? 37 then printf_loop fd true fmt' args
      else putc fd c ;; printf_loop fd false fmt' args
  end.

(* printf.c 38-85: printf *)
Definition printf (fd : Z) (fmt : string) (args : list uarg) : M uio unit := printf_loop fd false (bytes_of fmt) args.

(** ** Facts *)

(** A string ends at its null. *)
Definition text (s : list Z) : list Z := take (strlen s) s.

Lemma text_nonzero s : Forall (fun c => c <> 0) (text s).
Proof.
  unfold text. induction s as [|c s IH]; simpl; [constructor|]. destruct (nz c) eqn:E; simpl; [|constructor].
  constructor; [|done]. by apply nz_true in E || (unfold nz in E; lia).
Qed.

Lemma text_full s : Forall (fun c => c <> 0) s -> text s = s.
Proof.
  unfold text. induction 1 as [|c s Hc _ IH]; simpl; [done|]. replace (nz c) with true by (unfold nz; lia). simpl. by rewrite IH.
Qed.

Lemma strchr_Some s c j : strchr s c = Some j -> s !! j = Some c /\ (c ∉ take j s) /\ Forall (fun x => x <> 0) (take j s).
Proof.
  revert j. induction s as [|x s IH]; intros j H; simpl in H; [done|]. destruct (nz x) eqn:Ex; simpl in H; [|done].
  destruct (x =? c) eqn:E.
  - injection H as <-. simpl. split; [f_equal; lia|]. split; [set_solver|constructor].
  - destruct (strchr s c) as [i|]; [|done]. injection H as <-. destruct (IH i eq_refl) as (H1 & H2 & H3). simpl.
    split; [done|]. split; [|constructor; [unfold nz in Ex; lia|done]]. intros [->|?]%elem_of_cons; [lia|done].
Qed.

Lemma strchr_None s c : Forall (fun x => x <> 0) s -> strchr s c = None <-> c ∉ s.
Proof.
  induction 1 as [|x s Hx _ IH]; simpl; [set_solver|]. replace (nz x) with true by (unfold nz; lia). simpl.
  destruct (x =? c) eqn:E; [apply Z.eqb_eq in E; subst; split; [done|]; set_solver|].
  rewrite not_elem_of_cons. destruct (strchr s c); simpl; [|split; [intros _|done]; split; [lia|by apply IH]].
  split; [done|]. intros [_ H]. by apply IH in H.
Qed.

(** [strcmp] is 0 for equal strings only. *)
Lemma strcmp_zero p q :
  Forall (fun c => 0 <= c < 256) p -> Forall (fun c => 0 <= c < 256) q -> strcmp p q = 0 <-> text p = text q.
Proof.
  assert (forall c, 0 <= c < 256 -> u8 c = c) as Hu by (intros c Hc; unfold u8; by apply Z.mod_small).
  intros Hp. revert q. induction Hp as [|c p Hc Hp IH]; intros q Hq.
  - unfold text. destruct q as [|d q]; simpl; [done|]. inversion_clear Hq as [|? ? Hd Hq']. rewrite Hu by done.
    destruct (nz d) eqn:E; simpl; unfold nz in E; split; try done; lia.
  - destruct q as [|d q]; cbn [strcmp ch hd tail].
    + unfold text. simpl. destruct (nz c) eqn:E; simpl; unfold nz in E.
      * replace (c =? 0) with false by lia. rewrite Hu by done. change (u8 0) with 0. split; [lia|done].
      * rewrite Hu by done. change (u8 0) with 0. split; [done|lia].
    + inversion_clear Hq as [|? ? Hd Hq']. unfold text. simpl. destruct (nz c) eqn:E; cbn [andb].
      * destruct (c =? d) eqn:E2.
        -- apply Z.eqb_eq in E2 as ->. rewrite E. simpl. rewrite (IH q Hq'). unfold text. split; [congruence|]. intros [=]. done.
        -- rewrite !Hu by done. split; [lia|]. destruct (nz d); simpl; [intros [=]; lia|done].
      * rewrite !Hu by done. destruct (nz d) eqn:E2; simpl; unfold nz in *; split; try done; lia.
Qed.

(** Forward copies to a lower place are right also when the places overlap. *)
Lemma length_memmove a dst src n : length (memmove a dst src n) = length a.
Proof. revert a dst src. induction n as [|n IH]; intros a dst src; cbn [memmove]; [done|]. by rewrite IH, length_insert. Qed.

Lemma memmove_lookup a dst src n j :
  (dst <= src)%nat -> (src + n <= length a)%nat ->
  memmove a dst src n !! j = if decide (dst <= j < dst + n)%nat then a !! (j - dst + src)%nat else a !! j.
Proof.
  revert a dst src. induction n as [|n IH]; intros a dst src Hle Hlen; cbn [memmove].
  - by rewrite decide_False by lia.
  - rewrite IH by (rewrite ?length_insert; lia). destruct (lookup_lt_is_Some_2 a src) as [x Hx]; [lia|].
    rewrite (list_lookup_total_correct _ _ _ Hx). repeat case_decide; try lia.
    + rewrite list_lookup_insert_ne by lia. f_equal. lia.
    + assert (j = dst) as -> by lia. rewrite list_lookup_insert_eq by lia. by replace (dst - dst + src)%nat with src by lia.
    + by rewrite list_lookup_insert_ne by lia.
Qed.

Lemma memmove_front a src n : (src + n <= length a)%nat -> take n (memmove a 0 src n) = take n (drop src a).
Proof.
  intros H. apply list_eq. intros j. destruct (decide (j < n)%nat) as [Hj|Hj].
  - rewrite !lookup_take_lt, memmove_lookup, decide_True, lookup_drop by lia. f_equal. lia.
  - by rewrite !lookup_take_ge by lia.
Qed.

(** ** Reads and writes *)

Lemma take_arrived_spec n cs : concat cs = fst (take_arrived n cs) ++ concat (snd (take_arrived n cs)).
Proof.
  destruct cs as [|c cs]; [done|]. simpl. destruct (drop n c) as [|x r] eqn:E.
  - by rewrite <- (take_drop n c) at 1; rewrite E, app_nil_r.
  - simpl. rewrite <- (take_drop n c) at 1. by rewrite E, <- app_assoc.
Qed.

Lemma out_of_write fd bs u : out_of fd (set_written (written u ++ [(fd, bs)]) u) = out_of fd u ++ bs.
Proof. unfold out_of. simpl. rewrite fmap_app, concat_app. simpl. by rewrite Z.eqb_refl, app_nil_r. Qed.

Lemma puts_eq fd l u :
  exists u', for_all l (putc fd) u = Done tt u' /\ out_of fd u' = out_of fd u ++ (u8 <$> l) /\ arrived u' = arrived u.
Proof.
  revert u. induction l as [|c l IH]; intros u.
  - exists u. rewrite for_all_nil, app_nil_r. done.
  - destruct (IH (set_written (written u ++ [(fd, [u8 c])]) u)) as (u' & E & Ho & Ha).
    exists u'. rewrite for_all_cons. unfold putc at 1, write. rewrite modify_eq. cbn [res_bind]. split; [done|].
    by rewrite Ho, out_of_write, <- app_assoc, Ha.
Qed.

(** ** Numbers *)

Definition is_digit (c : Z) : Prop := 48 <= c <= 57.

Lemma atoi_loop_app n a b :
  Forall is_digit a -> atoi_loop n (a ++ b) = match atoi_loop n a with Some m => atoi_loop m b | None => None end.
Proof.
  intros Ha. revert n. induction Ha as [|c a Hc _ IH]; intros n; [done|]. cbn [app atoi_loop]. unfold is_digit in Hc.
  replace ((48 <=? c) && (c <=? 57)) with true by lia. destruct (n * 10 + c <? 2 ^ 31); [apply IH|done].
Qed.

Lemma digit_loop_digits f x : 0 <= x -> Forall is_digit (digit_loop f x 10).
Proof.
  revert x. induction f as [|f IH]; intros x Hx; cbn [digit_loop]; [constructor|].
  pose proof (Z.mod_pos_bound x 10). constructor.
  - unfold is_digit, hexdigit. replace (x `mod` 10 <? 10) with true by lia. lia.
  - destruct (x `div` 10 =? 0); [constructor|]. apply IH. apply Z.div_pos; lia.
Qed.

(** The digits, most significant first, are read back while the sum with the
    last character fits an [int]. *)
Lemma atoi_digits f x :
  0 <= x < 2 ^ 31 -> x < 10 ^ Z.of_nat f -> (0 < f)%nat ->
  atoi (rev (digit_loop f x 10)) = if x + 48 <? 2 ^ 31 then Some x else None.
Proof.
  unfold atoi. revert x. induction f as [|f IH]; intros x Hx Hf Hpos; [lia|]. cbn [digit_loop rev].
  pose proof (Z.div_mod x 10). pose proof (Z.mod_pos_bound x 10). pose proof (Z.div_pos x 10).
  rewrite atoi_loop_app.
  2:{ apply Forall_rev. destruct (x `div` 10 =? 0); [constructor|]. apply digit_loop_digits. lia. }
  assert (atoi_loop 0 (rev (if x `div` 10 =? 0 then [] else digit_loop f (x `div` 10) 10)) = Some (x `div` 10)) as ->.
  { destruct (x `div` 10 =? 0) eqn:E; [simpl; f_equal; lia|]. rewrite IH.
    - by replace (x `div` 10 + 48 <? 2 ^ 31) with true by lia.
    - lia.
    - apply Z.div_lt_upper_bound; [lia|]. replace (10 * 10 ^ Z.of_nat f) with (10 ^ Z.of_nat (S f)); [done|].
      rewrite Nat2Z.inj_succ, Z.pow_succ_r by lia. done.
    - destruct f; [|lia]. simpl in Hf. change (10 ^ Z.of_nat 1) with 10 in Hf. lia. }
  cbn [atoi_loop]. unfold hexdigit. replace (x `mod` 10 <? 10) with true by lia.
  replace ((48 <=? 48 + x `mod` 10) && (48 + x `mod` 10 <=? 57)) with true by lia.
  replace (x `div` 10 * 10 + (48 + x `mod` 10)) with (x + 48) by lia.
  destruct (x + 48 <? 2 ^ 31); [|done]. f_equal. lia.
Qed.

(** [atoi] reads back what [printint] prints for a number that is not
    negative, except for the last 48 numbers of [int]: there the sum
    [n*10 + *s] overflows before ['0'] is subtracted. *)
Theorem atoi_printint n u (Hn : 0 <= n < 2 ^ 31) :
  exists u' out, printint 1 n 10 true u = Done tt u' /\ out_of 1 u' = out_of 1 u ++ out /\
    atoi out = if n + 48 <? 2 ^ 31 then Some n else None.
Proof.
  unfold printint, digit_buf. replace (n <? 0) with false by lia. cbn [andb]. rewrite app_nil_r, u32_small by lia.
  set (l := rev (digit_loop 15 n 10)). destruct (puts_eq 1 l u) as (u' & E & Ho & _). exists u', l. split; [done|].
  split; [|apply atoi_digits; [done| |lia]].
  - rewrite Ho. f_equal. assert (Forall is_digit l) as Hl by (apply Forall_rev, digit_loop_digits; lia).
    clear -Hl. induction Hl as [|c l Hc _ IH]; [done|]. cbn [fmap list_fmap]. rewrite IH. f_equal. unfold is_digit in Hc. unfold u8.
    apply Z.mod_small. lia.
  - change (10 ^ Z.of_nat 15) with 1000000000000000. lia.
Qed.

Lemma atoi_printint_witness :
  0 <= 2147483599 < 2 ^ 31 /\
  exists u' out, printint 1 2147483599 10 true (mkUio [] []) = Done tt u' /\ out_of 1 u' = [] ++ out /\ atoi out = Some 2147483599.
Proof. split; [lia|]. exact (atoi_printint 2147483599 (mkUio [] []) ltac:(lia)). Defined.
