(* ===== verification/Umalloc.v ===== *)
(** * The user memory allocator (umalloc.c)

    Blocks of memory begin with a header: the address of the next free block
    and the size of this one, in units of the size of a header.  The free
    blocks form a ring through their headers, in the order of their addresses;
    the static header [base] closes it.  Memory is seen by its headers, by
    address; what the program keeps in its blocks is not represented.

    The invariant [heap_inv s L U] says that the free blocks are [L], sorted and
    with neighbours joined, and the blocks in use [U], all apart from each
    other; the theorems describe [malloc] and [free] by the memory they move
    between the two. *)

From S2P Require Import Prelude Params.

(* umalloc.c 11-19: header *)
Record header : Type := mkHeader {
  h_ptr : Z;
  h_size : Z
}.

(** The size of the process in memory is [brk]; [answers] tells whether the
    kernel will have memory for the next requests. *)
(* umalloc.c 21-22: freep *)
Record heap : Type := mkHeap {
  cells : gmap Z header;
  freep : Z;
  brk : Z;
  answers : list bool
}.

Definition set_cells (v : gmap Z header) (s : heap) : heap :=
  mkHeap v (freep s) (brk s) (answers s).

Definition set_freep (v : Z) (s : heap) : heap :=
  mkHeap (cells s) v (brk s) (answers s).

Definition set_brk (v : Z) (s : heap) : heap :=
  mkHeap (cells s) (freep s) v (answers s).

Definition sizeof_header : Z := 8.

(** Pointer arithmetic on [Header *]. *)
Definition units (p n : Z) : Z := u32 (p + sizeof_header * n).

Definition load (p : Z) : M heap header :=
  s <- gets (fun s => s) ;;
  deref "header" (cells s !! p).

(** A header is written within the memory of the process. *)
Definition store (p : Z) (f : header -> header) : M heap unit :=
  s <- gets (fun s => s) ;;
  if (p <? 0) || (brk s <? p + sizeof_header) then undef "outside of the memory of the process" else
  modify (set_cells (<[p := f (default (mkHeader 0 0) (cells s !! p))]> (cells s))).

Definition put_ptr (p v : Z) : M heap unit := store p (fun h => mkHeader v (h_size h)).

Definition put_size (p v : Z) : M heap unit := store p (fun h => mkHeader (h_ptr h) v).

(** The system call, as sys_sbrk and growproc carry it out: memory grows if it
    stays below the kernel and there are pages left; it shrinks to any size but
    0; the result is the old size. *)
Definition sbrk (n : Z) : M heap Z := fun s =>
  let new := u32 (brk s + n) in
  if n >? 0 then
    match answers s with
    | true :: l =>
        if new >=? KERNBASE then Done (-1) s
        else Done (brk s) (mkHeap (cells s) (freep s) new l)
    | false :: l => Done (-1) (mkHeap (cells s) (freep s) (brk s) l)
    | [] => Done (-1) s
    end
  else if n <? 0 then
    if new >=? brk s then Done (brk s) s
    else if new =? 0 then Done (-1) s
    else Done (brk s) (set_brk new s)
  else Done (brk s) s.

Section Umalloc.

(** The address of the static header. *)
Variable base : Z.

(** Every step goes on to another header of the ring, so that one more step
    than there are headers is enough. *)
(* umalloc.c 30-32: free *)
Fixpoint free_place (fuel : nat) (bp p : Z) : M heap Z :=
  match fuel with
  | O => fun s => NoFuel s
  | S fuel' =>
      h <- load p ;;
      if (p <? bp) && (bp <? h_ptr h) then ret p
      else if (h_ptr h <=? p) && ((p <? bp) || (bp <? h_ptr h)) then ret p
      else free_place fuel' bp (h_ptr h)
  end.

(** Linking the block [bp] in after [p], joined with its neighbours. *)
(* umalloc.c 33-42: free *)
Definition free_link (bp p : Z) : M heap unit :=
  b <- load bp ;;
  h <- load p ;;
  (if units bp (h_size b) =? h_ptr h then
     n <- load (h_ptr h) ;;
     put_size bp (u32 (h_size b + h_size n)) ;;
     h <- load p ;;
     n <- load (h_ptr h) ;;
     put_ptr bp (h_ptr n)
   else put_ptr bp (h_ptr h)) ;;
  h <- load p ;;
  if units p (h_size h) =? bp then
    b <- load bp ;;
    put_size p (u32 (h_size h + h_size b)) ;;
    b <- load bp ;;
    put_ptr p (h_ptr b)
  else put_ptr p bp.

(* umalloc.c 24-44: free *)
Definition free (ap : Z) : M heap unit :=
  let bp := units ap (-1) in
  s <- gets (fun s => s) ;;
  p <- free_place (S (size (cells s))) bp (freep s) ;;
  free_link bp p ;;
  modify (set_freep p).

(* umalloc.c 46-61: morecore *)
Definition morecore (nu : Z) : M heap Z :=
  let nu := if nu <? 4096 then 4096 else nu in
  p <- sbrk (s32 (u32 (nu * sizeof_header))) ;;
  if p =? -1 then ret 0 else
  put_size p nu ;;
  free (units p 1) ;;
  gets freep.

(** A block [p] that is large enough, with [prevp] before it in the ring. *)
(* umalloc.c 76-84: malloc *)
Definition malloc_take (nunits prevp p : Z) : M heap Z :=
  h <- load p ;;
  p <- (if h_size h =? nunits then put_ptr prevp (h_ptr h) ;; ret p
        else put_size p (u32 (h_size h - nunits)) ;;
             let p := units p (u32 (h_size h - nunits)) in
             put_size p nunits ;; ret p) ;;
  modify (set_freep prevp) ;;
  ret (units p 1).

(** At most one lap of the ring is made before [morecore] and one after. *)
(* umalloc.c 74-89: malloc *)
Fixpoint malloc_loop (fuel : nat) (nunits prevp p : Z) : M heap Z :=
  match fuel with
  | O => fun s => NoFuel s
  | S fuel' =>
      h <- load p ;;
      if h_size h >=? nunits then malloc_take nunits prevp p else
      fp <- gets freep ;;
      if p =? fp then
        p <- morecore nunits ;;
        if p =? 0 then ret 0 else
        h <- load p ;;
        malloc_loop fuel' nunits p (h_ptr h)
      else malloc_loop fuel' nunits p (h_ptr h)
  end.

(* umalloc.c 63-90: malloc *)
Definition malloc (nbytes : Z) : M heap Z :=
  let nunits := u32 (u32 (nbytes + sizeof_header - 1) / sizeof_header + 1) in
  s <- gets (fun s => s) ;;
  (if freep s =? 0 then
     put_ptr base base ;;
     modify (set_freep base) ;;
     put_size base 0
   else ret tt) ;;
  prevp <- gets freep ;;
  h <- load prevp ;;
  s <- gets (fun s => s) ;;
  malloc_loop (S (S (2 * size (cells s)))) nunits prevp (h_ptr h).

End Umalloc.

(** ** The ring of free blocks *)

(** From the header [x], of size [sz], one meets the headers of [L] and then
    [y]. *)
Fixpoint links (C : gmap Z header) (x sz : Z) (L : list (Z * Z)) (y : Z) : Prop :=
  match L with
  | [] => C !! x = Some (mkHeader y sz)
  | (a, n) :: L' => C !! x = Some (mkHeader a sz) /\ links C a n L' y
  end.

(** Blocks in ascending order, none beginning where the one before it ends. *)
Fixpoint ascending (lo : Z) (L : list (Z * Z)) : Prop :=
  match L with
  | [] => True
  | (a, n) :: L' => lo < a /\ 1 <= n /\ ascending (a + 8 * n) L'
  end.

Definition block_end (b : Z * Z) : Z := b.1 + 8 * b.2.

Definition apart (b b' : Z * Z) : Prop := block_end b <= b'.1 \/ block_end b' <= b.1.

(** The address [x] lies in the block [b]. *)
Definition within (b : Z * Z) (x : Z) : Prop := b.1 <= x < block_end b.

Definition free_at (L : list (Z * Z)) (x : Z) : Prop := Exists (fun b => within b x) L.

Record used_ok (base : Z) (s : heap) (L : list (Z * Z)) (a n : Z) : Prop := {
  uo_pos : 1 <= n;
  uo_low : base + 8 <= a;
  uo_high : a + 8 * n <= brk s;
  uo_cell : h_size <$> cells s !! a = Some n;
  uo_free : Forall (apart (a, n)) L
}.

Record heap_ok (base : Z) (s : heap) (L : list (Z * Z)) (U : gmap Z Z) : Prop := {
  ho_ring : links (cells s) base 0 L base;
  ho_asc : ascending (base + 7) L;
  ho_end : Forall (fun b => block_end b <= brk s) L;
  ho_freep : freep s ∈ base :: L.*1;
  ho_used : map_Forall (used_ok base s L) U;
  ho_apart : forall a n a' n', U !! a = Some n -> U !! a' = Some n' -> a <> a' -> apart (a, n) (a', n')
}.

(** Before the first [malloc] the ring does not exist. *)
Definition heap_inv (base : Z) (s : heap) (L : list (Z * Z)) (U : gmap Z Z) : Prop :=
  0 < base /\ base + 8 <= brk s < KERNBASE /\
  (freep s = 0 /\ L = [] /\ U = ∅ \/ heap_ok base s L U).

(** *** Following links *)

Lemma links_app C x sz L1 a n L2 y :
  links C x sz (L1 ++ (a, n) :: L2) y <-> links C x sz L1 a /\ links C a n L2 y.
Proof.
  revert x sz. induction L1 as [|[b m] L1 IH]; intros x sz; cbn; [done|].
  rewrite IH. naive_solver.
Qed.

Definition next_of (L : list (Z * Z)) (y : Z) : Z := hd y L.*1.

Lemma links_head C x sz L y : links C x sz L y -> C !! x = Some (mkHeader (next_of L y) sz).
Proof. destruct L as [|[a n] L]; cbn; naive_solver. Qed.

Lemma links_ext C C' x sz L y :
  (forall z, z ∈ x :: L.*1 -> C' !! z = C !! z) -> links C x sz L y -> links C' x sz L y.
Proof.
  revert x sz. induction L as [|[a n] L IH]; cbn; intros x sz H HL.
  - rewrite H; [done|]. set_solver.
  - rewrite H by set_solver. split; [naive_solver|]. apply IH; [|naive_solver]. set_solver.
Qed.

Lemma links_lookup C x sz L y i q :
  links C x sz L y -> (x :: L.*1) !! i = Some q ->
  exists h, C !! q = Some h /\ (L.*1 ++ [y]) !! i = Some (h_ptr h).
Proof.
  revert x sz i. induction L as [|[a n] L IH]; intros x sz [|i]; cbn; intros H E; simplify_eq.
  - by eexists.
  - destruct H as [H _]. by eexists.
  - destruct H as [_ H]. by eapply IH.
Qed.

Lemma links_mem C x sz L y q :
  links C x sz L y -> q ∈ x :: L.*1 -> exists h, C !! q = Some h.
Proof.
  intros H [i Hi]%list_elem_of_lookup. destruct (links_lookup _ _ _ _ _ _ _ H Hi) as (h & ? & _). eauto.
Qed.

Lemma links_size C x sz L y a n : links C x sz L y -> (a, n) ∈ L -> h_size <$> C !! a = Some n.
Proof.
  intros H (L1 & L2 & ->)%list_elem_of_split. apply links_app in H as [_ H%links_head].
  by rewrite H.
Qed.

(** The headers of the ring are all in the map. *)
Lemma links_count C x sz L y :
  links C x sz L y -> NoDup (x :: L.*1) -> (S (length L) <= size C)%nat.
Proof.
  intros H Hn. rewrite <-size_dom, <-(length_fmap fst L).
  change (S (length L.*1)) with (length (x :: L.*1)).
  rewrite <-(size_list_to_set (C := gset Z)) by done. apply subseteq_size.
  intros q [h Hq]%elem_of_list_to_set%(links_mem _ _ _ _ _ _ H). apply elem_of_dom. by exists h.
Qed.

(** *** Ascending blocks *)

Definition end_of (lo : Z) (L : list (Z * Z)) : Z := foldl (fun _ b => block_end b) lo L.

Lemma ascending_app lo L1 L2 :
  ascending lo (L1 ++ L2) <-> ascending lo L1 /\ ascending (end_of lo L1) L2.
Proof.
  revert lo. induction L1 as [|[a n] L1 IH]; intros lo; cbn; [naive_solver|].
  rewrite IH. unfold end_of, block_end. cbn. naive_solver.
Qed.

Lemma end_of_above lo L : ascending lo L -> lo <= end_of lo L.
Proof.
  revert lo. induction L as [|[a n] L IH]; intros lo; cbn; [done|]. intros (? & ? & H).
  specialize (IH _ H). unfold end_of, block_end in *. cbn. lia.
Qed.

Lemma ends_below lo L : ascending lo L -> Forall (fun b => block_end b <= end_of lo L) L.
Proof.
  revert lo. induction L as [|[a n] L IH]; intros lo; [constructor|]. intros (? & ? & H).
  change (end_of lo ((a, n) :: L)) with (end_of (a + 8 * n) L). constructor; [|by apply IH].
  apply (end_of_above _ _ H).
Qed.

Lemma ascending_above lo L : ascending lo L -> Forall (fun b => lo < b.1 /\ 1 <= b.2) L.
Proof.
  revert lo. induction L as [|[a n] L IH]; intros lo; cbn; [constructor|].
  intros (? & ? & ?). constructor; [done|]. eapply list.Forall_impl; [by apply IH|]. cbn. lia.
Qed.

Lemma ascending_weaken lo lo' L : lo' <= lo -> ascending lo L -> ascending lo' L.
Proof. destruct L as [|[a n] L]; cbn; [done|]. intros ? (?&?&?). repeat split; [lia|done..]. Qed.

Lemma nodes_below x lo L z : x <= lo -> ascending lo L -> z ∈ x :: L.*1 -> z <= end_of lo L.
Proof.
  revert x lo. induction L as [|[a n] L IH]; intros x lo Hx.
  - intros _ ->%list_elem_of_singleton. exact Hx.
  - intros (? & ? & H) Hz. change (z <= end_of (a + 8 * n) L). pose proof (end_of_above _ _ H).
    apply elem_of_cons in Hz as [->|Hz]; [lia|]. apply (IH a); [lia|done..].
Qed.

Lemma ascending_nodup x lo L : x <= lo -> ascending lo L -> NoDup (x :: L.*1).
Proof.
  revert x lo. induction L as [|[a n] L IH]; intros x lo Hx H; [apply NoDup_singleton|].
  apply list.NoDup_cons. split.
  - intros (b & -> & Hb)%list_elem_of_fmap.
    pose proof (proj1 (list.Forall_forall _ _) (ascending_above _ _ H) _ Hb) as Hlo. cbn in Hlo. lia.
  - destruct H as (? & ? & H). apply (IH a (a + 8 * n)); [lia|done].
Qed.

(** A block apart from all free ones has its place among them. *)
Lemma split_at lo L bp n :
  ascending lo L -> 1 <= n -> Forall (apart (bp, n)) L ->
  exists L1 L2, L = L1 ++ L2 /\ Forall (fun b => block_end b <= bp) L1 /\ Forall (fun b => bp + 8 * n <= b.1) L2.
Proof.
  revert lo. induction L as [|[a m] L IH]; intros lo; cbn; intros H Hn Ha.
  - exists [], []. by repeat constructor.
  - destruct H as (Hlo & Hm & H). apply list.Forall_cons in Ha as [Ha HL]. unfold apart, block_end in Ha. cbn in Ha.
    destruct (decide (bp + 8 * n <= a)).
    + exists [], ((a, m) :: L). split; [done|]. split; [constructor|]. constructor; [done|].
      eapply list.Forall_impl; [apply (ascending_above _ _ H)|]. cbn. lia.
    + destruct (IH _ H Hn HL) as (L1 & L2 & -> & H1 & H2). exists ((a, m) :: L1), L2.
      split; [done|]. split; [|done]. constructor; [unfold block_end; cbn; lia|done].
Qed.

(** ** [free] *)

(** The last header of [x :: L]. *)
Definition node_of (x : Z) (L : list (Z * Z)) : Z := foldl (fun _ b => b.1) x L.

Lemma node_of_app x L1 a n L2 : node_of x (L1 ++ (a, n) :: L2) = node_of a L2.
Proof. unfold node_of. by rewrite foldl_app. Qed.

Lemma load_eq p s h : cells s !! p = Some h -> load p s = Done h s.
Proof. intros E. unfold load. kred. by rewrite E. Qed.

Lemma store_eq p f s :
  0 <= p -> p + 8 <= brk s ->
  store p f s = Done tt (set_cells (<[p := f (default (mkHeader 0 0) (cells s !! p))]> (cells s)) s).
Proof.
  intros H0 H1. unfold store, sizeof_header. kred.
  rewrite (proj2 (Z.ltb_ge p 0)), (proj2 (Z.ltb_ge (brk s) _)) by lia. by kred.
Qed.

Lemma free_place_S fuel bp p s nx sz :
  cells s !! p = Some (mkHeader nx sz) ->
  free_place (S fuel) bp p s =
  if (p <? bp) && (bp <? nx) then Done p s
  else if (nx <=? p) && ((p <? bp) || (bp <? nx)) then Done p s
  else free_place fuel bp nx s.
Proof.
  intros E. cbn [free_place]. rewrite bind_eq, (load_eq _ _ _ E). cbn [res_bind h_ptr]. do 2 (destruct (_ && _); [done|]). done.
Qed.

Lemma place_forward f s base bp x sz L1 L2 lo :
  links (cells s) x sz (L1 ++ L2) base -> ascending lo (L1 ++ L2) -> base <= x <= lo -> x < bp ->
  Forall (fun b => block_end b <= bp) L1 -> Forall (fun b => bp < b.1) L2 ->
  free_place (S (length L1) + f) bp x s = Done (node_of x L1) s.
Proof.
  revert x sz lo. induction L1 as [|[a n] L1 IH]; intros x sz lo Hl Ha Hx Hbp H1 H2; cbn [length plus];
    rewrite (free_place_S _ _ _ _ _ _ (links_head _ _ _ _ _ Hl)), (proj2 (Z.ltb_lt x bp)) by lia; cbn [andb orb app] in *.
  - destruct L2 as [|[a n] L2]; cbn.
    + by rewrite (proj2 (Z.ltb_ge bp base)), (proj2 (Z.leb_le base x)) by lia.
    + apply list.Forall_cons in H2 as [H2 _]. cbn in H2. by rewrite (proj2 (Z.ltb_lt bp a)) by lia.
  - destruct Hl as [_ Hl]. destruct Ha as (Hlo & Hn & Ha). apply list.Forall_cons in H1 as [H1 H1'].
    unfold block_end in H1. cbn in H1. cbn [next_of fmap list_fmap hd fst].
    rewrite (proj2 (Z.ltb_ge bp a)), (proj2 (Z.leb_gt a x)) by lia. cbn [andb].
    change (S (length L1 + f)) with (S (length L1) + f)%nat. eapply (IH a n (a + 8 * n)); eauto; lia.
Qed.

Lemma place_above f s base bp x sz L lo :
  links (cells s) x sz L base -> ascending lo L -> x <= lo -> base < bp < x ->
  free_place (S (length L) + f) bp x s = free_place f bp base s.
Proof.
  revert x sz lo. induction L as [|[a n] L IH]; intros x sz lo Hl Ha Hx Hbp; cbn [length plus];
    rewrite (free_place_S _ _ _ _ _ _ (links_head _ _ _ _ _ Hl)), (proj2 (Z.ltb_ge x bp)) by lia; cbn [andb orb].
  - cbn. by rewrite (proj2 (Z.ltb_ge bp base)), andb_false_r by lia.
  - destruct Hl as [_ Hl]. destruct Ha as (Hlo & Hn & Ha). cbn [next_of fmap list_fmap hd fst].
    rewrite (proj2 (Z.leb_gt a x)) by lia. cbn [andb].
    change (S (length L + f)) with (S (length L) + f)%nat. eapply (IH a n (a + 8 * n)); eauto; lia.
Qed.

(** The ring seen from any of its headers. *)
Lemma links_from base C L f :
  links C base 0 L base -> f ∈ base :: L.*1 ->
  f = base \/ exists L1 n L2, L = L1 ++ (f, n) :: L2 /\ links C base 0 L1 f /\ links C f n L2 base.
Proof.
  intros H [->|([a n] & -> & (L1 & L2 & ->)%list_elem_of_split)%list_elem_of_fmap]%elem_of_cons; [by left|].
  right. exists L1, n, L2. split; [done|]. by apply links_app.
Qed.

Lemma free_place_spec base s L L1 L2 bp :
  links (cells s) base 0 L base -> ascending base L -> freep s ∈ base :: L.*1 -> base < bp ->
  L = L1 ++ L2 -> Forall (fun b => block_end b <= bp) L1 -> Forall (fun b => bp < b.1) L2 ->
  free_place (S (size (cells s))) bp (freep s) s = Done (node_of base L1) s.
Proof.
  intros Hr Ha Hf Hbp -> H1 H2.
  pose proof (links_count _ _ _ _ _ Hr (ascending_nodup _ _ _ (Z.le_refl _) Ha)) as Hc. rewrite length_app in Hc.
  rewrite fmap_app, app_comm_cons in Hf. apply elem_of_app in Hf as [[->|Hf]%elem_of_cons|Hf].
  - replace (S (size (cells s))) with (S (length L1) + (size (cells s) - length L1))%nat by lia.
    eapply place_forward; eauto; lia.
  - apply list_elem_of_fmap in Hf as ([f n] & -> & (A & B & ->)%list_elem_of_split). cbn [fst].
    rewrite <-app_assoc in *. cbn [app] in *. rewrite length_app in Hc. cbn [length] in Hc.
    apply links_app in Hr as [_ Hr]. apply ascending_app in Ha as [HA Ha]. cbn in Ha.
    apply list.Forall_app in H1 as [_ [H1 H1']%list.Forall_cons]. rewrite node_of_app.
    replace (S (size (cells s))) with (S (length B) + (size (cells s) - length B))%nat by lia.
    unfold block_end in H1. cbn in H1. destruct Ha as (Ha0 & Ha1 & Ha).
    pose proof (end_of_above _ _ HA).
    eapply place_forward; eauto; lia.
  - apply list_elem_of_fmap in Hf as ([f n] & -> & (A & B & ->)%list_elem_of_split). cbn [fst].
    rewrite length_app in Hc. cbn [length] in Hc. pose proof Hr as Hr'. pose proof Ha as Ha'.
    rewrite app_assoc in Hr', Ha'. apply links_app in Hr' as [_ Hr']. apply ascending_app in Ha' as [HA Ha'].
    destruct Ha' as (Ha0 & Ha1 & Ha').
    apply list.Forall_app in H2 as [H2 H2'']. pose proof (Forall_inv H2'') as H2'. cbn in H2'.
    replace (S (size (cells s))) with (S (length B) + (S (length L1) + (size (cells s) - length B - S (length L1))))%nat by lia.
    rewrite (place_above _ s base bp f n B (f + 8 * n)) by (done || lia).
    eapply place_forward; eauto; [lia|]. by apply list.Forall_app.
Qed.

Lemma put_size_eq p v s h :
  0 <= p -> p + 8 <= brk s -> cells s !! p = Some h ->
  put_size p v s = Done tt (set_cells (<[p := mkHeader (h_ptr h) v]> (cells s)) s).
Proof. intros H0 H1 E. unfold put_size. by rewrite store_eq, E by done. Qed.

Lemma put_ptr_eq p v s h :
  0 <= p -> p + 8 <= brk s -> cells s !! p = Some h ->
  put_ptr p v s = Done tt (set_cells (<[p := mkHeader v (h_size h)]> (cells s)) s).
Proof. intros H0 H1 E. unfold put_ptr. by rewrite store_eq, E by done. Qed.

Lemma units_eq p n : 0 <= p + 8 * n < 2 ^ 32 -> units p n = p + 8 * n.
Proof. intros H. unfold units, sizeof_header. by apply u32_small. Qed.

(** Runs the loads and stores of headers whose cells are known. *)
Ltac cells_run :=
  kred; cbn [h_ptr h_size cells brk freep set_cells];
  repeat (
    first [ erewrite load_eq by (cbn; simplify_map_eq; reflexivity)
          | erewrite put_size_eq by first [cbn; lia | cbn; simplify_map_eq; reflexivity]
          | erewrite put_ptr_eq by first [cbn; lia | cbn; simplify_map_eq; reflexivity] ];
    cbn [res_bind]; kred; cbn [h_ptr h_size cells brk freep set_cells]).

(** The block of size [n] at [bp] joined with the first of the blocks above. *)
Definition join_next (bp n : Z) (L : list (Z * Z)) : Z * list (Z * Z) :=
  match L with
  | (a, m) :: L' => if bp + 8 * n =? a then (n + m, L') else (n, L)
  | [] => (n, [])
  end.

Lemma links_insert C x sz x' sz' L y :
  links C x sz L y -> (x' ∉ L.*1) -> links (<[x' := mkHeader (next_of L y) sz']> C) x' sz' L y.
Proof.
  intros H Hx. destruct L as [|[a n] L]; cbn; [by rewrite lookup_insert_eq|].
  split; [by rewrite lookup_insert_eq|]. eapply links_ext; [|apply H].
  intros z Hz. rewrite lookup_insert_ne; [done|]. set_solver.
Qed.

(** The second half of [free_link]: [bp] leads on, and [p] is linked to it. *)
Lemma free_link_prev base t p o ps bp n L :
  links (cells t) bp n L base -> cells t !! p = Some (mkHeader o ps) ->
  0 <= p -> p + 8 <= bp -> 0 <= ps -> 0 <= n -> p + 8 * ps <= bp -> bp + 8 * n <= brk t < KERNBASE ->
  Forall (fun b => p < b.1 /\ bp < b.1) L ->
  wp (alone heap)
    ((if units p ps =? bp then
        b <- load bp ;; put_size p (u32 (ps + h_size b)) ;; b <- load bp ;; put_ptr p (h_ptr b)
      else put_ptr p bp) t)
    (fun _ s' => exists C', s' = set_cells C' t /\ (forall z, z <> p -> C' !! z = cells t !! z) /\
      if p + 8 * ps =? bp then links C' p (ps + n) L base else links C' p ps ((bp, n) :: L) base).
Proof.
  intros Hl Ep H0 H1 H2 H3 H4 H5 Hout. unfold KERNBASE in *.
  assert ((p ∉ L.*1) /\ (p ∉ bp :: L.*1)) as [Hp Hp'].
  { assert (p ∉ L.*1).
    { intros (b & -> & Hb)%list_elem_of_fmap. pose proof (proj1 (list.Forall_forall _ _) Hout _ Hb) as Hlo. cbn in Hlo. lia. }
    split; [done|]. apply not_elem_of_cons. split; [lia|done]. }
  pose proof (links_head _ _ _ _ _ Hl) as Eb. assert (p <> bp) by lia.
  rewrite units_eq by lia. destruct (Z.eqb_spec (p + 8 * ps) bp) as [Ej|Ej].
  - cells_run. rewrite u32_small by lia. eexists. split; [reflexivity|]. split.
    + intros z Hz. by rewrite !lookup_insert_ne by done.
    + rewrite insert_insert_eq. by eapply links_insert.
  - cells_run. eexists. split; [reflexivity|]. split.
    + intros z Hz. by rewrite !lookup_insert_ne by done.
    + cbn [links]. split; [by rewrite lookup_insert_eq|]. eapply links_ext; [|exact Hl].
      intros z Hz. rewrite lookup_insert_ne; [done|]. by intros ->.
Qed.

Section FreeLink.

Context (base : Z) (s : heap) (p ps bp n : Z) (L : list (Z * Z)).
Hypothesis Hbase : 0 < base <= p.
Hypothesis Hp : p + 8 <= bp /\ p + 8 * ps <= bp /\ 0 <= ps.
Hypothesis Hn : 1 <= n /\ bp + 8 * n <= brk s < KERNBASE.
Hypothesis Hasc : ascending (bp + 8 * n - 1) L.
Hypothesis Hend : Forall (fun b => block_end b <= brk s) L.
Hypothesis Hlinks : links (cells s) p ps L base.
Hypothesis Hbp : h_size <$> cells s !! bp = Some n.

Lemma free_link_rest n' L' h o :
  cells s !! p = Some (mkHeader o ps) -> links (<[bp := h]> (cells s)) bp n' L' base ->
  0 <= n' -> bp + 8 * n' <= brk s -> Forall (fun b => p < b.1 /\ bp < b.1) L' ->
  wp (alone heap)
    ((if units p ps =? bp then
        b <- load bp ;; put_size p (u32 (ps + h_size b)) ;; b <- load bp ;; put_ptr p (h_ptr b)
      else put_ptr p bp) (set_cells (<[bp := h]> (cells s)) s))
    (fun _ s' => exists C', s' = set_cells C' s /\ (forall z, z <> p -> z <> bp -> C' !! z = cells s !! z) /\
      if p + 8 * ps =? bp then links C' p (ps + n') L' base else links C' p ps ((bp, n') :: L') base).
Proof.
  intros Ep Hl H1 H2 Hout. eapply wp_mono; [|eapply free_link_prev; [exact Hl| |lia..| |exact Hout]].
  - intros ? s' (C' & -> & Ho & HC). exists C'. split; [done|]. split; [|done].
    intros z Hz Hz'. rewrite Ho by done. by apply lookup_insert_ne.
  - cbn. rewrite lookup_insert_ne by lia. exact Ep.
  - cbn. lia.
Qed.

Lemma free_link_spec :
  runs (free_link bp p) s (fun _ s' => exists C', s' = set_cells C' s /\
    (forall z, z <> p -> z <> bp -> C' !! z = cells s !! z) /\
    let '(n', L') := join_next bp n L in
    if p + 8 * ps =? bp then links C' p (ps + n') L' base else links C' p ps ((bp, n') :: L') base).
Proof.
  destruct (cells s !! bp) as [[o n0]|] eqn:Eb; [|done]. cbn in Hbp. injection Hbp as ->.
  pose proof (links_head _ _ _ _ _ Hlinks) as Ep. unfold KERNBASE in *.
  assert (p <> bp) by lia. unfold runs, free_link. cells_run. rewrite (units_eq bp) by lia.
  assert (Forall (fun b => p < b.1 /\ bp < b.1) L) as Hout.
  { eapply list.Forall_impl; [apply (ascending_above _ _ Hasc)|]. cbn. lia. }
  assert (bp ∉ L.*1) as Hbn.
  { intros (b & Eb' & Hb)%list_elem_of_fmap. pose proof (proj1 (list.Forall_forall _ _) Hout _ Hb) as Hlo. cbn in Hlo. lia. }
  destruct (decide (next_of L base = bp + 8 * n /\ L <> [])) as [[Ea Hne]|Hno].
  - destruct L as [|[a m] L3]; [done|]. cbn [next_of fmap list_fmap hd fst] in *. subst a.
    destruct Hlinks as [_ Hl]. pose proof (links_head _ _ _ _ _ Hl) as Ea. destruct Hasc as (_ & Hm & _).
    apply list.Forall_cons in Hend as [Hend' _]. unfold block_end in Hend'. cbn in Hend'.
    rewrite Z.eqb_refl. assert (bp + 8 * n <> bp) by lia. cells_run.
    cbn [join_next]. rewrite Z.eqb_refl, insert_insert_eq, u32_small by lia.
    eapply free_link_rest; [exact Ep|..|by apply list.Forall_cons in Hout as [_ ?]]; [|lia..].
    eapply links_insert; [exact Hl|]. set_solver.
  - assert (join_next bp n L = (n, L)) as ->.
    { destruct L as [|[a m] L3]; [done|]. cbn in *. rewrite (proj2 (Z.eqb_neq _ a)); [done|]. naive_solver. }
    assert (bp + 8 * n <> next_of L base) as Hne.
    { intros E. apply Hno. split; [done|]. intros ->. cbn in E. lia. }
    rewrite (proj2 (Z.eqb_neq _ _)) by done. cells_run.
    eapply free_link_rest; [exact Ep|..|exact Hout]; [|lia..]. by eapply links_insert.
Qed.

End FreeLink.

Lemma join_next_spec lo bp n L n' L' :
  lo < bp -> 1 <= n -> ascending (bp + 8 * n - 1) L -> join_next bp n L = (n', L') ->
  ascending lo ((bp, n') :: L') /\ 1 <= n' /\ (length L' <= length L)%nat /\
  forall x, free_at ((bp, n') :: L') x <-> within (bp, n) x \/ free_at L x.
Proof.
  intros Hlo Hn Ha E. destruct L as [|[a m] L]; cbn in E.
  - simplify_eq. repeat split; try done; unfold free_at; rewrite !Exists_cons; naive_solver.
  - destruct Ha as (H0 & Hm & Ha). destruct (Z.eqb_spec (bp + 8 * n) a) as [<-|Ha'] in E; simplify_eq; cbn.
    + replace (bp + 8 * (n + m)) with (bp + 8 * n + 8 * m) by lia. split; [repeat split; (done || lia)|].
      split; [lia|]. split; [lia|]. intros x. unfold free_at. rewrite !Exists_cons. unfold within, block_end. cbn.
      split; [intros [?|?]|intros [?|[?|?]]]; auto; try (left; lia).
      destruct (decide (x < bp + 8 * n)); [by left; lia|right; left; lia].
    + split; [repeat split; (done || lia)|]. split; [lia|]. split; [lia|].
      intros x. unfold free_at. rewrite !Exists_cons. naive_solver.
Qed.

Lemma apart_cover a n L :
  1 <= n -> Forall (fun b => 1 <= b.2) L -> (forall x, free_at L x -> ~ within (a, n) x) -> Forall (apart (a, n)) L.
Proof.
  intros Hn Hp H. apply list.Forall_forall. intros [b m] Hb.
  pose proof (proj1 (list.Forall_forall _ _) Hp _ Hb) as Hm. unfold apart, block_end. cbn in *.
  assert (forall x, b <= x < b + 8 * m -> ~ (a <= x < a + 8 * n)) as Hx.
  { intros x Hx. apply H. apply list.Exists_exists. exists (b, m). done. }
  pose proof (Hx (Z.max a b)). lia.
Qed.

Lemma cover_apart a n L x : Forall (apart (a, n)) L -> free_at L x -> ~ within (a, n) x.
Proof.
  intros H (b & Hb & Hx)%list.Exists_exists. pose proof (proj1 (list.Forall_forall _ _) H _ Hb) as Ha.
  unfold apart, within, block_end in *. cbn in *. lia.
Qed.

Lemma free_at_app L1 L2 x : free_at (L1 ++ L2) x <-> free_at L1 x \/ free_at L2 x.
Proof. apply Exists_app. Qed.

Lemma free_at_cons b L x : free_at (b :: L) x <-> within b x \/ free_at L x.
Proof. apply Exists_cons. Qed.

Lemma ends_cover hi L :
  Forall (fun b => 1 <= b.2) L -> (forall x, free_at L x -> x < hi) -> Forall (fun b => block_end b <= hi) L.
Proof.
  intros Hp H. apply list.Forall_forall. intros [b m] Hb.
  pose proof (proj1 (list.Forall_forall _ _) Hp _ Hb) as Hm. cbn in Hm.
  assert (b + 8 * m - 1 < hi); [|unfold block_end; cbn; lia].
  apply H. apply list.Exists_exists. exists (b, m). split; [done|]. unfold within, block_end. cbn. lia.
Qed.

Lemma cover_ends hi L x : Forall (fun b => block_end b <= hi) L -> free_at L x -> x < hi.
Proof.
  intros H (b & Hb & Hx)%list.Exists_exists. pose proof (proj1 (list.Forall_forall _ _) H _ Hb) as Ha.
  cbn in Ha. unfold within in Hx. lia.
Qed.

Lemma ascending_sizes lo L : ascending lo L -> Forall (fun b => 1 <= b.2) L.
Proof. intros H. eapply list.Forall_impl; [apply (ascending_above _ _ H)|]. by intros ? []. Qed.

(** The free list with the block [bp] in its place. *)
Lemma link_in base C C' L1 L2 bp n :
  links C base 0 (L1 ++ L2) base -> ascending (base + 7) (L1 ++ L2) -> base + 8 <= bp -> 1 <= n ->
  Forall (fun b => block_end b <= bp) L1 -> Forall (fun b => bp + 8 * n <= b.1) L2 ->
  (forall z, z <> node_of base L1 -> z <> bp -> C' !! z = C !! z) ->
  (forall ps, links C (node_of base L1) ps L2 base ->
    let '(n', L') := join_next bp n L2 in
    if node_of base L1 + 8 * ps =? bp then links C' (node_of base L1) (ps + n') L' base
    else links C' (node_of base L1) ps ((bp, n') :: L') base) ->
  exists L', links C' base 0 L' base /\ ascending (base + 7) L' /\ node_of base L1 ∈ base :: L'.*1 /\
    (length L' <= S (length (L1 ++ L2)))%nat /\
    forall x, free_at L' x <-> free_at (L1 ++ L2) x \/ within (bp, n) x.
Proof.
  intros Hl Ha Hb Hn H1 H2 Hoff Hnew. destruct (join_next bp n L2) as [n' L'] eqn:Ej.
  apply ascending_app in Ha as [Ha1 Ha2].
  assert (ascending (bp + 8 * n - 1) L2) as Ha2'.
  { destruct L2 as [|[a m] L2]; [done|]. apply list.Forall_cons in H2 as [H2 _]. cbn in *. intuition lia. }
  destruct L1 as [|[p ps] A _] using rev_ind.
  - specialize (Hnew 0 Hl). cbn in Hnew. rewrite (proj2 (Z.eqb_neq _ bp)) in Hnew by lia.
    destruct (join_next_spec (base + 7) bp n L2 n' L' ltac:(lia) Hn Ha2' Ej) as (Ha' & _ & Hlen & Hx).
    exists ((bp, n') :: L'). split; [done|]. split; [done|]. split; [set_solver|]. split; [cbn; lia|].
    intros x. rewrite Hx. cbn. tauto.
  - rewrite <-app_assoc in Hl. apply links_app in Hl as [HlA Hl]. rewrite node_of_app in *. cbn [node_of foldl fst] in *.
    specialize (Hnew ps Hl). apply ascending_app in Ha1 as [HaA (HpA & Hps & _)].
    apply list.Forall_app in H1 as [_ H1%Forall_inv]. unfold block_end in H1. cbn in H1.
    assert (links C' base 0 A p) as HlA'.
    { eapply links_ext; [|exact HlA]. intros z Hz.
      pose proof (nodes_below base (base + 7) A z ltac:(lia) HaA Hz). apply Hoff; lia. }
    rewrite !length_app. cbn [length].
    destruct (Z.eqb_spec (p + 8 * ps) bp) as [Ep|Ep].
    + destruct (join_next_spec (bp - 1) bp n L2 n' L' ltac:(lia) Hn Ha2' Ej) as ((_ & _ & Ha') & Hn' & Hlen & Hx).
      exists (A ++ (p, ps + n') :: L'). split; [by apply links_app|]. split.
      { apply ascending_app. split; [done|]. split; [done|]. split; [lia|].
        by replace (p + 8 * (ps + n')) with (bp + 8 * n') by lia. }
      split; [rewrite fmap_app; set_solver|]. split; [rewrite length_app; cbn; lia|]. intros x. specialize (Hx x).
      assert (within (p, ps + n') x <-> within (p, ps) x \/ within (bp, n') x) as Hw.
      { unfold within, block_end. cbn. lia. }
      rewrite !free_at_app, !free_at_cons, Hw in *. unfold free_at at 4. rewrite Exists_nil. tauto.
    + destruct (join_next_spec (p + 8 * ps) bp n L2 n' L' ltac:(lia) Hn Ha2' Ej) as (Ha' & Hn' & Hlen & Hx).
      exists (A ++ (p, ps) :: (bp, n') :: L'). split; [by apply links_app|]. split.
      { apply ascending_app. split; [done|]. split; [done|]. split; [lia|done]. }
      split; [rewrite fmap_app; set_solver|]. split; [rewrite length_app; cbn; lia|]. intros x. specialize (Hx x).
      rewrite !free_at_app, free_at_cons, Hx, free_at_cons. unfold free_at at 4. rewrite Exists_nil. tauto.
Qed.

(** The header before the place of a block at [a]. *)
Lemma node_links base C L1 L2 a :
  links C base 0 (L1 ++ L2) base -> ascending (base + 7) L1 -> base + 8 <= a -> Forall (fun b => block_end b <= a) L1 ->
  node_of base L1 ∈ base :: (L1 ++ L2).*1 /\
  exists ps, links C (node_of base L1) ps L2 base /\ 0 <= ps /\
    node_of base L1 + 8 <= a /\ node_of base L1 + 8 * ps <= a.
Proof.
  intros Hl Ha Hb H1. destruct L1 as [|[p ps] A _] using rev_ind.
  - split; [set_solver|]. exists 0. cbn. split; [done|]. lia.
  - rewrite node_of_app. cbn. split; [rewrite !fmap_app; set_solver|]. exists ps.
    rewrite <-app_assoc in Hl. apply links_app in Hl as [_ Hl]. apply ascending_app in Ha as [_ (_ & Hps & _)].
    apply list.Forall_app in H1 as [_ H1%Forall_inv]. unfold block_end in H1. cbn in H1. split; [done|]. lia.
Qed.

(** Blocks in use stay apart when the free memory does not grow into them. *)
Lemma used_ok_cover base s s' L L' a n :
  used_ok base s L a n -> brk s <= brk s' -> h_size <$> cells s' !! a = h_size <$> cells s !! a ->
  Forall (fun b => 1 <= b.2) L' -> (forall x, free_at L' x -> within (a, n) x -> free_at L x) ->
  used_ok base s' L' a n.
Proof.
  intros [H1 H2 H3 H4 H5] Hb Hc Hp Hx. split; [done|done|lia|by rewrite Hc|].
  apply apart_cover; [done..|]. intros x Hf Hw. eapply cover_apart; eauto.
Qed.

Lemma heap_node base s L U p : heap_ok base s L U -> p ∈ base :: L.*1 -> base <= p /\ p + 8 <= Z.max (base + 8) (brk s).
Proof.
  intros H [->|([a n] & -> & Hin)%list_elem_of_fmap]%elem_of_cons; [lia|].
  pose proof (proj1 (list.Forall_forall _ _) (ascending_above _ _ (ho_asc _ _ _ _ H)) _ Hin) as Ha.
  pose proof (proj1 (list.Forall_forall _ _) (ho_end _ _ _ _ H) _ Hin) as He.
  unfold block_end in *. cbn in *. lia.
Qed.

(** No header of the ring is the header of a block in use. *)
Lemma used_node base s L U a n p : heap_ok base s L U -> U !! a = Some n -> p ∈ base :: L.*1 -> a <> p.
Proof.
  intros H Ha Hp ->. pose proof (ho_used _ _ _ _ H _ _ Ha) as Hu.
  apply elem_of_cons in Hp as [->|([p' m] & -> & Hin)%list_elem_of_fmap]; [destruct Hu; lia|].
  pose proof (proj1 (list.Forall_forall _ _) (ascending_sizes _ _ (ho_asc _ _ _ _ H)) _ Hin) as Hm.
  pose proof (proj1 (list.Forall_forall _ _) (uo_free _ _ _ _ _ Hu) _ Hin) as Hd.
  destruct Hu. unfold apart, block_end in Hd. cbn in *. lia.
Qed.

(** The heap after the block [a] has become free. *)
Lemma heap_ok_freed base s L U a n p C' L' :
  heap_ok base s L U -> U !! a = Some n -> p ∈ base :: L.*1 ->
  (forall z, z <> p -> z <> a -> C' !! z = cells s !! z) ->
  links C' base 0 L' base -> ascending (base + 7) L' -> p ∈ base :: L'.*1 ->
  (forall x, free_at L' x <-> free_at L x \/ within (a, n) x) ->
  heap_ok base (set_freep p (set_cells C' s)) L' (delete a U).
Proof.
  intros H Ha Hp Hoff Hl Hasc Hp' Hx. pose proof (ascending_sizes _ _ Hasc) as Hsz. pose proof H as [_ _ He _ HU Hd].
  pose proof (HU _ _ Ha) as Hu. split; [done|done| |done|..].
  - apply ends_cover; [done|]. intros x [Hf|Hw]%Hx; [by eapply cover_ends|].
    destruct Hu. unfold within, block_end in Hw. cbn in *. lia.
  - intros b m [Hne Hb]%lookup_delete_Some. eapply used_ok_cover; [by apply HU|done|..|done|].
    + cbn. rewrite Hoff; [done| |done]. eapply used_node; eauto.
    + intros x [Hf|Hw]%Hx Hb'; [done|]. destruct (Hd _ _ _ _ Ha Hb Hne); unfold within, block_end in *; cbn in *; lia.
  - intros b m b' m' [_ Hb]%lookup_delete_Some [_ Hb']%lookup_delete_Some. by apply Hd.
Qed.

Lemma free_ok base s L U a n :
  heap_ok base s L U -> 0 < base -> brk s < KERNBASE -> U !! a = Some n ->
  runs (free (a + 8)) s (fun _ s' => exists L', heap_ok base s' L' (delete a U) /\
    brk s' = brk s /\ answers s' = answers s /\ (length L' <= S (length L))%nat /\
    forall x, free_at L' x <-> free_at L x \/ within (a, n) x).
Proof.
  intros H Hb Hk Ha. pose proof (ho_used _ _ _ _ H _ _ Ha) as Hu. pose proof H as [Hr Hasc He Hf HU Hd].
  destruct (split_at _ _ _ _ Hasc (uo_pos _ _ _ _ _ Hu) (uo_free _ _ _ _ _ Hu)) as (L1 & L2 & -> & H1 & H2).
  pose proof (proj1 (ascending_app _ _ _) Hasc) as [Hasc1 Hasc2]. destruct Hu as [Hn Hlo Hhi Hcell Hfree].
  destruct (node_links _ _ _ _ _ Hr Hasc1 Hlo H1) as (Hpn & ps & Hl & Hps & Hpa & Hpe).
  destruct (heap_node _ _ _ _ _ H Hpn) as [Hp1 Hp2]. 
  unfold free. unfold runs. kred. rewrite units_eq by (unfold KERNBASE in *; lia).
  replace (a + 8 + 8 * -1) with a by lia.
  erewrite free_place_spec; [|exact Hr|by eapply ascending_weaken; [|exact Hasc]; lia|exact Hf|lia|done|exact H1|].
  2:{ eapply list.Forall_impl; [exact H2|]. cbn. lia. }
  cbn [res_bind]. kred. rewrite wp_bind.
  eapply wp_mono; [|eapply (free_link_spec base s _ ps a n L2)].
  - intros ? t (C' & -> & Hoff & HC). rewrite modify_eq. cbn [wp].
    destruct (link_in base (cells s) C' L1 L2 a n) as (L' & Hl' & Ha' & Hp' & Hlen & Hx); try done.
    { intros ps' Hl'. apply links_head in Hl' as E'. rewrite (links_head _ _ _ _ _ Hl) in E'. by simplify_eq. }
    exists L'. split; [by eapply heap_ok_freed|]. done.
  - lia.
  - lia.
  - lia.
  - destruct L2 as [|[b m] L2]; [done|]. apply list.Forall_cons in H2 as [H2 _]. cbn in *. intuition lia.
  - by apply list.Forall_app in He as [_ ?].
  - done.
  - done.
Qed.

(** ** [malloc] *)

Lemma node_of_in x L : node_of x L ∈ x :: L.*1.
Proof.
  destruct L as [|[p n] A _] using rev_ind; [set_solver|]. rewrite node_of_app, fmap_app. set_solver.
Qed.

Lemma links_last C x sz L y : links C x sz L y -> exists z, C !! node_of x L = Some (mkHeader y z).
Proof.
  destruct L as [|[p n] A _] using rev_ind; intros H; [by eexists|].
  apply links_app in H as [_ H]. rewrite node_of_app. by eexists.
Qed.

(** Only one header of the ring leads to a given one. *)
Lemma ring_inj base C L q q' y z z' :
  links C base 0 L base -> NoDup (base :: L.*1) -> q ∈ base :: L.*1 -> q' ∈ base :: L.*1 ->
  C !! q = Some (mkHeader y z) -> C !! q' = Some (mkHeader y z') -> q = q'.
Proof.
  intros H Hn [i Hi]%list_elem_of_lookup [j Hj]%list_elem_of_lookup Eq Eq'.
  destruct (links_lookup _ _ _ _ _ _ _ H Hi) as (h & Eh & Hy), (links_lookup _ _ _ _ _ _ _ H Hj) as (h' & Eh' & Hy').
  simplify_eq. cbn in *. assert (i = j) as ->; [|by simplify_eq].
  eapply (NoDup_lookup (L.*1 ++ [base])); [|exact Hy|exact Hy'].
  apply list.NoDup_cons in Hn as [Hb Hn]. apply list.NoDup_app. split; [done|]. split; [set_solver|apply NoDup_singleton].
Qed.

(** The ring seen from the header [f]. *)
Lemma ring_from base C L f :
  links C base 0 L base -> f ∈ base :: L.*1 ->
  exists fs R, links C f fs R f /\ R ++ [(f, fs)] ≡ₚ (base, 0) :: L.
Proof.
  intros H Hf. destruct (links_from _ _ _ _ H Hf) as [->|(L1 & n & L2 & -> & H1 & H2)].
  - exists 0, L. split; [done|]. by rewrite Permutation_app_comm.
  - exists n, (L2 ++ (base, 0) :: L1). split; [by apply links_app|]. solve_Permutation.
Qed.

Lemma malloc_loop_S fuel n prevp p s nx sz :
  cells s !! p = Some (mkHeader nx sz) ->
  malloc_loop (S fuel) n prevp p s =
  if sz >=? n then malloc_take n prevp p s
  else if p =? freep s then
    (q <- morecore n ;; if q =? 0 then ret 0 else h <- load q ;; malloc_loop fuel n q (h_ptr h)) s
  else malloc_loop fuel n p nx s.
Proof.
  intros E. cbn [malloc_loop]. rewrite bind_eq, (load_eq _ _ _ E). cbn [res_bind h_ptr h_size].
  destruct (sz >=? n); [done|]. rewrite bind_eq, gets_eq. cbn [res_bind]. by destruct (p =? freep s).
Qed.

(** Blocks that are too small are passed. *)
Lemma malloc_walk fuel n s x sz R1 R2 f :
  links (cells s) x sz (R1 ++ R2) f -> Forall (fun b => b.2 < n /\ b.1 <> freep s) R1 ->
  malloc_loop (length R1 + fuel) n x (next_of (R1 ++ R2) f) s =
  malloc_loop fuel n (node_of x R1) (next_of R2 f) s.
Proof.
  revert x sz. induction R1 as [|[a m] R1 IH]; intros x sz Hl Hs; [done|].
  apply list.Forall_cons in Hs as [[Hm Ha] Hs]. cbn in Hm, Ha. destruct Hl as [_ Hl].
  change (length ((a, m) :: R1) + fuel)%nat with (S (length R1 + fuel)).
  change (next_of (((a, m) :: R1) ++ R2) f) with a.
  rewrite (malloc_loop_S _ _ _ _ _ _ _ (links_head _ _ _ _ _ Hl)).
  destruct (m >=? n) eqn:E; [lia|]. rewrite (proj2 (Z.eqb_neq _ _)) by done. by apply (IH a m).
Qed.

(** A header taken out of a chain. *)
Lemma links_unlink C x sz A a m B y qs :
  links C x sz A a -> C !! node_of x A = Some (mkHeader a qs) -> links C a m B y -> NoDup (x :: (A ++ B).*1) ->
  links (<[node_of x A := mkHeader (next_of B y) qs]> C) x sz (A ++ B) y.
Proof.
  revert x sz. induction A as [|[b k] A IH]; intros x sz HA Hq HB Hn.
  - cbn in *. simplify_eq. apply list.NoDup_cons in Hn as [Hx _]. by eapply links_insert.
  - destruct HA as [Hx HA]. apply list.NoDup_cons in Hn as [Hxn Hn].
    change (node_of x ((b, k) :: A)) with (node_of b A) in *. split; [|by apply IH].
    rewrite lookup_insert_ne; [done|]. intros Eq. apply Hxn. rewrite <-Eq.
    pose proof (node_of_in b A). cbn [app fmap list_fmap fst]. rewrite fmap_app. set_solver.
Qed.

Lemma cover_low lo L x : ascending lo L -> free_at L x -> lo < x.
Proof.
  intros H (b & Hb & Hx)%list.Exists_exists.
  pose proof (proj1 (list.Forall_forall _ _) (ascending_above _ _ H) _ Hb) as Ha. unfold within in Hx. cbn in *. lia.
Qed.

(** The heap after the memory of the block [a] has been taken from the free
    blocks. *)
Lemma heap_ok_taken base s L U a n q C' L' :
  heap_ok base s L U -> 1 <= n -> h_size <$> C' !! a = Some n ->
  (forall b m, U !! b = Some m -> C' !! b = cells s !! b) ->
  links C' base 0 L' base -> ascending (base + 7) L' -> q ∈ base :: L'.*1 ->
  Forall (apart (a, n)) L' -> (forall x, free_at L x <-> free_at L' x \/ within (a, n) x) ->
  heap_ok base (set_freep q (set_cells C' s)) L' (<[a := n]> U) /\ U !! a = None.
Proof.
  intros H Hn Hc HU Hl Hasc Hq Hap Hx. pose proof H as [_ Hasc0 He _ HU0 Hd].
  pose proof (ascending_sizes _ _ Hasc) as Hsz.
  assert (forall x, within (a, n) x -> free_at L x) as Hin by naive_solver.
  assert (within (a, n) a /\ within (a, n) (a + 8 * n - 1)) as [W1 W2] by (unfold within, block_end; cbn; lia).
  assert (forall b m, U !! b = Some m -> apart (a, n) (b, m)) as Hab.
  { intros b m Hb. pose proof (HU0 _ _ Hb) as Hu. assert (Forall (apart (b, m)) [(a, n)]) as HF%Forall_inv.
    { apply apart_cover; [apply Hu|by repeat constructor|]. intros x Hf. apply (cover_apart _ _ _ _ (uo_free _ _ _ _ _ Hu)).
      apply Hin. apply Exists_cons in Hf as [?|Hf%Exists_nil]; done. }
    unfold apart in *. tauto. }
  split; [split; [done|done| |done|..]|].
  - apply ends_cover; [done|]. intros x Hf. eapply cover_ends; [exact He|]. apply Hx. by left.
  - intros b m [[<- <-]|[Hne Hb]]%lookup_insert_Some.
    + pose proof (cover_low _ _ _ Hasc0 (Hin _ W1)). pose proof (cover_ends _ _ _ He (Hin _ W2)).
      split; [done|lia|cbn; lia|done|done].
    + eapply used_ok_cover; [by apply HU0|done|cbn; by erewrite HU|done|]. intros x Hf _. apply Hx. by left.
  - intros b m b' m' [[<- <-]|[Hne Hb]]%lookup_insert_Some [[<- <-]|[Hne' Hb']]%lookup_insert_Some Hbb; try done.
    + by apply Hab.
    + specialize (Hab _ _ Hb). unfold apart in *. tauto.
    + by apply Hd.
  - destruct (U !! a) as [m|] eqn:Ea; [|done]. pose proof (uo_pos _ _ _ _ _ (HU0 _ _ Ea)).
    specialize (Hab _ _ Ea). unfold apart, block_end in Hab. cbn in Hab. lia.
Qed.

(** [malloc] returned the contents of a block of [n] units, taken from the free
    blocks [L]. *)
Definition taken (base : Z) (s : heap) (L : list (Z * Z)) (U : gmap Z Z) (n r : Z) (s' : heap) : Prop :=
  exists a L', r = a + 8 /\ heap_ok base s' L' (<[a := n]> U) /\ U !! a = None /\ brk s' = brk s /\
    forall x, free_at L x <-> free_at L' x \/ within (a, n) x.

Section Take.

Context (base : Z) (s : heap) (U : gmap Z Z) (A B : list (Z * Z)) (a m n : Z).
Hypothesis Hok : heap_ok base s (A ++ (a, m) :: B) U.
Hypothesis Hbase : 0 < base /\ base + 8 <= brk s < KERNBASE.
Hypothesis Hn : 1 <= n <= m.

Lemma take_bounds : base + 8 <= a /\ a + 8 * m <= brk s.
Proof.
  destruct Hok as [_ Hasc He _ _ _]. apply ascending_app in Hasc as [Ha1 (Hlo & _)].
  pose proof (end_of_above _ _ Ha1). apply list.Forall_app in He as [_ He%Forall_inv]. unfold block_end in He.
  cbn in He. lia.
Qed.

Lemma used_inside b k x : U !! b = Some k -> a <= x < a + 8 * m -> b <> x.
Proof.
  intros Hb Hx <-. pose proof (ho_used _ _ _ _ Hok _ _ Hb) as Hu.
  pose proof (proj2 (proj1 (list.Forall_app _ _ _) (uo_free _ _ _ _ _ Hu))) as Hap%Forall_inv. destruct Hu.
  unfold apart, block_end in Hap. cbn in Hap. lia.
Qed.

Lemma ascending_mid lo : ascending lo (A ++ (a, m) :: B) ->
  ascending lo A /\ end_of lo A < a /\ ascending (a + 8 * m) B.
Proof. intros [HA (Ha & _ & HB)]%ascending_app. done. Qed.

Lemma taken_apart k : 0 <= k <= m -> end_of (base + 7) A <= a ->
  ascending (base + 7) A -> ascending (a + 8 * m) B -> Forall (apart (a + 8 * (m - k), k)) (A ++ B).
Proof.
  intros Hk He HA HB. apply list.Forall_app. split.
  - eapply list.Forall_impl; [apply (ends_below _ _ HA)|]. intros b Hb. right. cbn in *. lia.
  - eapply list.Forall_impl; [apply (ascending_above _ _ HB)|]. intros b Hb. left. unfold block_end. cbn in *. lia.
Qed.

(** The whole block is taken. *)
Lemma take_exact : n = m -> runs (malloc_take n (node_of base A) a) s (taken base s (A ++ (a, m) :: B) U n).
Proof.
  intros ->. unfold taken. pose proof Hok as [Hr Hasc _ _ _ _]. pose proof take_bounds as [Hlo Hhi].
  apply links_app in Hr as [HlA HlB]. destruct (links_last _ _ _ _ _ HlA) as (qs & Eq).
  destruct (ascending_mid _ Hasc) as (HaA & Hea & HaB). pose proof (links_head _ _ _ _ _ HlB) as Ea.
  assert (node_of base A ∈ base :: A.*1) as Hq by apply node_of_in.
  pose proof (nodes_below base (base + 7) A _ ltac:(lia) HaA Hq) as Hqb.
  destruct (heap_node _ _ _ _ (node_of base A) Hok) as [Hq1 Hq2]; [rewrite fmap_app; set_solver|].
  unfold runs, malloc_take, KERNBASE in *. cells_run. rewrite Z.eqb_refl. cells_run. kred. cbn [wp].
  rewrite units_eq by lia. exists a, (A ++ B). split; [lia|]. 
  assert (ascending (base + 7) (A ++ B)) as Hasc'.
  { apply ascending_app. split; [done|]. eapply ascending_weaken; [|exact HaB]. lia. }
  assert (forall x, free_at (A ++ (a, m) :: B) x <-> free_at (A ++ B) x \/ within (a, m) x) as Hx.
  { intros x. rewrite !free_at_app, free_at_cons. tauto. }
  apply and_assoc. split; [|done]. eapply heap_ok_taken; [exact Hok|lia|..|exact Hx].
  - rewrite lookup_insert_ne by lia. by rewrite Ea.
  - intros b k Hb. apply lookup_insert_ne. intros <-. eapply used_node; eauto. rewrite fmap_app. set_solver.
  - eapply links_unlink; eauto. eapply ascending_nodup; [|exact Hasc']. lia.
  - done.
  - rewrite fmap_app. set_solver.
  - pose proof (taken_apart m ltac:(lia) ltac:(lia) HaA HaB) as Hap. by rewrite Z.sub_diag, Z.mul_0_r, Z.add_0_r in Hap.
Qed.

(** The end of the block is taken. *)
Lemma take_split : n < m -> runs (malloc_take n (node_of base A) a) s (taken base s (A ++ (a, m) :: B) U n).
Proof.
  intros Hnm. unfold taken. pose proof Hok as [Hr Hasc _ _ _ _]. pose proof take_bounds as [Hlo Hhi].
  apply links_app in Hr as [HlA HlB]. 
  destruct (ascending_mid _ Hasc) as (HaA & Hea & HaB). pose proof (links_head _ _ _ _ _ HlB) as Ea.
  unfold runs, malloc_take, KERNBASE in *. cells_run. rewrite (proj2 (Z.eqb_neq _ _)) by lia.
  rewrite u32_small, (units_eq a) by lia. set (a' := a + 8 * (m - n)). cells_run.
  unfold put_size at 1. rewrite store_eq by (cbn; lia). cbn [res_bind cells set_cells]. kred. cbn [wp].
  rewrite units_eq by lia. exists a', (A ++ (a, m - n) :: B). split; [lia|].
  assert (forall x, free_at (A ++ (a, m) :: B) x <-> free_at (A ++ (a, m - n) :: B) x \/ within (a', n) x) as Hx.
  { intros x. rewrite !free_at_app, !free_at_cons.
    assert (within (a, m) x <-> within (a, m - n) x \/ within (a', n) x) as ->; [|tauto].
    unfold within, block_end. cbn. lia. }
  assert (ascending (base + 7) (A ++ (a, m - n) :: B)) as Hasc'.
  { apply ascending_app. split; [done|]. split; [done|]. split; [lia|]. eapply ascending_weaken; [|exact HaB]. lia. }
  assert (forall z, z <= a + 8 * m -> z ∉ B.*1) as HnB.
  { intros z Hz. pose proof (ascending_nodup z _ B Hz HaB) as Hnd. by apply list.NoDup_cons in Hnd as [? _]. }
  apply and_assoc. split; [|done]. eapply (heap_ok_taken base s); [exact Hok|lia|..|exact Hx].
  - by rewrite lookup_insert_eq.
  - intros b k Hb. rewrite !lookup_insert_ne; [done|..]; apply not_eq_sym; eapply used_inside; eauto; lia.
  - apply links_app. split.
    + eapply links_ext; [|exact HlA]. intros z Hz.
      pose proof (nodes_below base (base + 7) A _ ltac:(lia) HaA Hz) as Hzb.
      rewrite !lookup_insert_ne by lia. done.
    + eapply links_ext; [|eapply links_insert; [exact HlB|]].
      * intros z [->|Hz]%elem_of_cons; rewrite lookup_insert_ne; [done|lia|done|].
        intros <-. eapply HnB; [|exact Hz]. lia.
      * intros Hz. eapply HnB; [|exact Hz]. lia.
  - done.
  - pose proof (node_of_in base A). rewrite fmap_app. set_solver.
  - pose proof (taken_apart n ltac:(lia) ltac:(lia) HaA HaB) as Hap. apply list.Forall_app in Hap as [Hap1 Hap2].
    apply list.Forall_app. split; [done|]. constructor; [|done]. right. unfold block_end. cbn. lia.
Qed.

End Take.

(** The first block [b] with [P b], if there is one. *)
Lemma first_split {X} (P : X -> Prop) `{forall x, Decision (P x)} (l : list X) :
  Exists P l -> exists l1 x l2, l = l1 ++ x :: l2 /\ P x /\ Forall (fun y => ~ P y) l1.
Proof.
  induction 1 as [x l Hx|x l Hl IH].
  - exists [], x, l. by repeat constructor.
  - destruct (decide (P x)); [exists [], x, l; by repeat constructor|].
    destruct IH as (l1 & y & l2 & -> & Hy & Hl1). exists (x :: l1), y, l2. by repeat constructor.
Qed.

Section Lap.

Context (base : Z) (s : heap) (L : list (Z * Z)) (U : gmap Z Z) (n : Z) (h : header).
Hypothesis Hok : heap_ok base s L U.
Hypothesis Hbase : 0 < base /\ base + 8 <= brk s < KERNBASE.
Hypothesis Hn : 1 <= n.
Hypothesis Hh : cells s !! freep s = Some h.

Lemma ring_nodup : NoDup (base :: L.*1).
Proof. eapply ascending_nodup; [|apply (ho_asc _ _ _ _ Hok)]. lia. Qed.

(** The ring from [freep], with the blocks [malloc] meets in order. *)
Lemma lap_ring :
  exists fs R, links (cells s) (freep s) fs R (freep s) /\ R ++ [(freep s, fs)] ≡ₚ (base, 0) :: L /\
    h_ptr h = next_of R (freep s) /\ (freep s ∉ R.*1) /\ length R = length L.
Proof.
  destruct (ring_from _ _ _ _ (ho_ring _ _ _ _ Hok) (ho_freep _ _ _ _ Hok)) as (fs & R & Hl & Hp).
  exists fs, R. split; [done|]. split; [done|]. split; [|split].
  - apply links_head in Hl. rewrite Hh in Hl. by simplify_eq.
  - pose proof ring_nodup as Hnd. change (base :: L.*1) with (((base, 0) :: L).*1) in Hnd.
    rewrite <-Hp, fmap_app in Hnd. apply list.NoDup_app in Hnd as (_ & Hnd & _). intros Hf. apply (Hnd _ Hf). set_solver.
  - apply Permutation_length in Hp. rewrite length_app in Hp. cbn in Hp. lia.
Qed.

Lemma take_block a m q :
  (a, m) ∈ L -> n <= m -> q ∈ base :: L.*1 -> (exists z, cells s !! q = Some (mkHeader a z)) ->
  runs (malloc_take n q a) s (taken base s L U n).
Proof.
  intros Hin Hm Hq [z Ez]. apply list_elem_of_split in Hin as (A & B & E). pose proof Hok as Hok'. rewrite E in Hok'.
  pose proof (ho_ring _ _ _ _ Hok') as Hr. apply links_app in Hr as [HlA _].
  destruct (links_last _ _ _ _ _ HlA) as [z' Ez'].
  assert (node_of base A ∈ base :: L.*1) as HA.
  { pose proof (node_of_in base A). rewrite E, fmap_app. set_solver. }
  rewrite (ring_inj _ _ _ _ _ _ _ _ (ho_ring _ _ _ _ Hok) ring_nodup Hq HA Ez Ez'), E.
  destruct (decide (n = m)); [apply take_exact|apply take_split]; (done || lia).
Qed.

(** A block that is large enough is found. *)
Lemma malloc_fit fuel :
  Exists (fun b => n <= b.2) L -> (length L < fuel)%nat ->
  runs (malloc_loop fuel n (freep s) (h_ptr h)) s (taken base s L U n).
Proof.
  intros Hex Hfuel. destruct lap_ring as (fs & R & Hl & Hp & -> & Hfr & Hlen).
  destruct (first_split (fun b => n <= b.2) (R ++ [(freep s, fs)])) as (R1 & [a m] & R2 & E & Hm & HR1).
  { rewrite Hp. by right. }
  cbn in Hm. assert (exists R', R = R1 ++ R' /\ next_of R' (freep s) = a /\
            links (cells s) (freep s) fs R1 a) as (R' & -> & Ea & HlR).
  { destruct R2 as [|b R2 _] using rev_ind.
    - apply app_inj_tail in E as [-> E]. simplify_eq. exists []. by rewrite app_nil_r.
    - change (R1 ++ (a, m) :: R2 ++ [b]) with (R1 ++ ((a, m) :: R2) ++ [b]) in E. rewrite app_assoc in E.
      apply app_inj_tail in E as [-> _]. exists ((a, m) :: R2). split; [done|]. split; [done|].
      by apply links_app in Hl as [? _]. }
  assert ((a, m) ∈ (base, 0) :: L) as Hin by (rewrite <-Hp, E; set_solver).
  apply elem_of_cons in Hin as [?|Hin]; [simplify_eq; lia|].
  assert (node_of (freep s) R1 ∈ base :: L.*1) as Hq.
  { change (base :: L.*1) with (((base, 0) :: L).*1). rewrite <-Hp.
    pose proof (node_of_in (freep s) R1). rewrite !fmap_app. set_solver. }
  rewrite length_app in Hlen.
  replace fuel with (length R1 + S (fuel - length R1 - 1))%nat by lia. unfold runs.
  erewrite malloc_walk; [|exact Hl|].
  - rewrite Ea. pose proof (links_size _ _ _ _ _ _ _ (ho_ring _ _ _ _ Hok) Hin) as Hsz.
    destruct (cells s !! a) as [[nx m0]|] eqn:Ec; [|done]. cbn in Hsz. simplify_eq.
    rewrite (malloc_loop_S _ _ _ _ _ _ _ Ec). rewrite (proj2 (Z.geb_le _ _)) by lia.
    apply (take_block _ m); [done|lia|done|]. by eapply links_last.
  - apply list.Forall_forall. intros b Hb. split.
    + pose proof (proj1 (list.Forall_forall _ _) HR1 _ Hb) as Hs. cbn in Hs. lia.
    + intros Eb. apply Hfr. rewrite <-Eb, fmap_app. set_solver.
Qed.

(** When no block is large enough, the loop comes to [freep] and asks for
    more. *)
Lemma malloc_none fuel :
  Forall (fun b => b.2 < n) L ->
  malloc_loop (length L + S fuel) n (freep s) (h_ptr h) s =
  (q <- morecore n ;; if q =? 0 then ret 0 else h <- load q ;; malloc_loop fuel n q (h_ptr h)) s.
Proof.
  intros Hs. destruct lap_ring as (fs & R & Hl & Hp & -> & Hfr & <-).
  assert (Forall (fun b => b.2 < n) (R ++ [(freep s, fs)])) as [HR Hfs%Forall_inv]%list.Forall_app.
  { rewrite Hp. constructor; [cbn; lia|done]. }
  pose proof (malloc_walk (S fuel) n s (freep s) fs R [] (freep s)) as Hw. rewrite app_nil_r in Hw.
  rewrite Hw; [|done|].
  - cbn [next_of fmap list_fmap hd]. rewrite (malloc_loop_S _ _ _ _ _ _ _ (links_head _ _ _ _ _ Hl)).
    cbn in Hfs. destruct (fs >=? n) eqn:Eg; [lia|]. by rewrite Z.eqb_refl.
  - apply list.Forall_forall. intros b Hb. split.
    + by apply (proj1 (list.Forall_forall _ _) HR).
    + intros Eb. apply Hfr. rewrite <-Eb. set_solver.
Qed.

End Lap.

Lemma heap_ok_grow base s s' L U :
  heap_ok base s L U -> cells s' = cells s -> freep s' = freep s -> brk s <= brk s' -> heap_ok base s' L U.
Proof.
  intros [H1 H2 H3 H4 H5 H6] Ec Ef Eb. split; rewrite ?Ec, ?Ef; try done.
  - eapply list.Forall_impl; [exact H3|]. cbn. lia.
  - intros a n Ha. destruct (H5 _ _ Ha). split; rewrite ?Ec; try done. lia.
Qed.

(** Fresh memory above all blocks, with a header. *)
Lemma heap_ok_fresh base s L U n h :
  heap_ok base s L U -> 0 < base -> base + 8 <= brk s -> 1 <= n -> h_size h = n -> forall s',
  cells s' = <[brk s := h]> (cells s) -> freep s' = freep s -> brk s' = brk s + 8 * n ->
  heap_ok base s' L (<[brk s := n]> U) /\ U !! brk s = None.
Proof.
  intros H Hb0 Hb Hn Hh s' Ec Ef Eb. pose proof H as [H1 H2 H3 H4 H5 H6].
  assert (forall a m, U !! a = Some m -> a + 8 <= brk s) as HU.
  { intros a m Ha. destruct (H5 _ _ Ha). lia. }
  assert (forall p, p ∈ base :: L.*1 -> p <> brk s) as HL.
  { intros p Hp. pose proof (heap_node _ _ _ _ _ H Hp). lia. }
  split; [split; rewrite ?Ec, ?Ef; try done|].
  - eapply links_ext; [|exact H1]. intros z Hz. apply lookup_insert_ne. by apply not_eq_sym, HL.
  - eapply list.Forall_impl; [exact H3|]. cbn. lia.
  - intros a m [[<- <-]|[Hne Ha]]%lookup_insert_Some.
    + split; [done|done|lia|rewrite Ec, lookup_insert_eq; cbn; by f_equal|].
      eapply list.Forall_impl; [exact H3|]. intros b Hb'. right. exact Hb'.
    + destruct (H5 _ _ Ha). split; try done; [lia|]. by rewrite Ec, lookup_insert_ne.
  - intros a m a' m' [[<- <-]|[Hne Ha]]%lookup_insert_Some [[<- <-]|[Hne' Ha']]%lookup_insert_Some Haa; try done.
    + right. apply (uo_high _ _ _ _ _ (H5 _ _ Ha')).
    + left. apply (uo_high _ _ _ _ _ (H5 _ _ Ha)).
    + by apply H6.
  - destruct (U !! brk s) as [m|] eqn:E; [|done]. specialize (HU _ _ E). lia.
Qed.

Lemma morecore_ok base s L U n :
  heap_ok base s L U -> 0 < base -> base + 8 <= brk s < KERNBASE -> 1 <= n -> 8 * n < 2 ^ 31 ->
  runs (morecore n) s (fun r s' =>
    r = 0 /\ heap_ok base s' L U /\ brk s' = brk s \/
    r = freep s' /\ exists L', heap_ok base s' L' U /\ brk s + 8 * n <= brk s' < KERNBASE /\
      (length L' <= S (length L))%nat /\ forall x, free_at L' x <-> free_at L x \/ brk s <= x < brk s').
Proof.
  intros H Hb0 Hb Hn Hn8. unfold runs, morecore. set (nu := if n <? 4096 then 4096 else n).
  assert (n <= nu /\ 8 * nu < 2 ^ 31) as [Hnu Hnu8] by (unfold nu; destruct (Z.ltb_spec n 4096); lia).
  unfold sizeof_header. rewrite u32_small, s32_small by lia. kred. unfold sbrk, KERNBASE in *.
  rewrite (proj2 (Z.gtb_lt _ _)), u32_small by lia.
  destruct (answers s) as [|[] l]; cbn [res_bind]; kred.
  - left. done.
  - destruct (Z.geb_spec (brk s + nu * 8) 2147483648); cbn [res_bind]; kred; [by left|].
    rewrite (proj2 (Z.eqb_neq (brk s) (-1))) by lia. unfold put_size. kred.
    rewrite store_eq by (cbn; lia). cbn [res_bind cells freep brk]. 
    match goal with |- context [set_cells (<[_ := ?h]> _) ?t] =>
      destruct (heap_ok_fresh base s L U nu h H Hb0 ltac:(lia) ltac:(lia) eq_refl (set_cells (<[brk s := h]> (cells s)) t))
        as [Hf HU]; [done|done|cbn; lia|]; set (t' := set_cells _ t) in *
    end.
    rewrite units_eq by lia. kred. rewrite wp_bind. replace (brk s + 8 * 1) with (brk s + 8) by lia.
    eapply wp_mono; [|apply (free_ok _ _ _ _ _ nu Hf); [done|cbn; unfold KERNBASE; lia|apply lookup_insert_eq]].
    intros ? s' (L' & Hok & Eb & _ & Hlen & Hx). rewrite gets_eq. cbn [wp]. right. split; [done|].
    rewrite delete_insert_id in Hok by done. exists L'. rewrite Eb. cbn [brk t' set_cells].
    split; [done|]. split; [lia|]. split; [done|]. intros x. rewrite Hx. unfold within, block_end. cbn.
    split; (intros [?|?]; [by left|right; lia]).
  - left. split; [done|]. split; [|done]. by eapply heap_ok_grow.
Qed.

(** A stretch of free memory lies in one block. *)
Lemma contiguous lo L u v :
  ascending lo L -> u < v -> (forall x, u <= x < v -> free_at L x) ->
  Exists (fun b => b.1 <= u /\ v <= block_end b) L.
Proof.
  revert lo. induction L as [|[a n] L IH]; intros lo H Hu Hf.
  - specialize (Hf u ltac:(lia)). by apply Exists_nil in Hf.
  - destruct H as (Hlo & Hn & H). pose proof (fun x => cover_low _ _ x H) as Hl.
    destruct (decide (u < a + 8 * n)) as [Hua|Hua].
    + left. assert (a <= u) as Hau.
      { destruct (proj1 (free_at_cons _ _ _) (Hf u ltac:(lia))) as [Hw|Hw]; [unfold within in Hw; cbn in *; lia|].
        specialize (Hl _ Hw). lia. }
      split; [done|]. unfold block_end. cbn. destruct (decide (v <= a + 8 * n)) as [?|Hv]; [done|].
      destruct (proj1 (free_at_cons _ _ _) (Hf (a + 8 * n) ltac:(lia))) as [Hw|Hw].
      * unfold within, block_end in Hw. cbn in Hw. lia.
      * specialize (Hl _ Hw). lia.
    + right. apply (IH (a + 8 * n)); [done..|]. intros x Hx.
      destruct (proj1 (free_at_cons _ _ _) (Hf x Hx)) as [Hw|Hw]; [|done].
      unfold within, block_end in Hw. cbn in Hw. lia.
Qed.

(** The first call sets up an empty ring. *)
Lemma malloc_start base s (L : list (Z * Z)) U :
  heap_inv base s L U ->
  runs (s <- gets (fun s => s) ;;
        if freep s =? 0 then put_ptr base base ;; modify (set_freep base) ;; put_size base 0 else ret tt) s
    (fun _ s' => heap_ok base s' L U /\ brk s' = brk s).
Proof.
  intros (Hb0 & Hb & [(Hf & -> & ->)|H]); unfold runs; kred.
  - rewrite Hf, Z.eqb_refl. unfold put_ptr, put_size. kred. rewrite store_eq by lia. cbn [res_bind]. kred.
    rewrite store_eq by (cbn; lia). cbn. split; [|done].
    split; cbn; [by rewrite !lookup_insert_eq|done|done|set_solver|apply map_Forall_empty|].
    intros a n a' n' Ha. by rewrite lookup_empty in Ha.
  - rewrite (proj2 (Z.eqb_neq _ _)); [done|]. pose proof (heap_node _ _ _ _ _ H (ho_freep _ _ _ _ H)). lia.
Qed.

(** The outcome of [malloc]: nothing, because no free block is large enough and
    the kernel has no more memory; or the contents of a new block. *)
Definition allocated (base : Z) (s : heap) (L : list (Z * Z)) (U : gmap Z Z) (nbytes r : Z) (s' : heap) : Prop :=
  r = 0 /\ heap_inv base s' L U /\ Forall (fun b => 8 * b.2 < nbytes + 8) L \/
  exists a n L', r = a + 8 /\ nbytes + 8 <= 8 * n < nbytes + 16 /\ U !! a = None /\
    heap_inv base s' L' (<[a := n]> U) /\
    forall x, free_at L' x \/ within (a, n) x <-> free_at L x \/ brk s <= x < brk s'.

Lemma taken_allocated base s0 L0 s L U nbytes n r s' :
  nbytes + 8 <= 8 * n < nbytes + 16 -> 0 < base -> base + 8 <= brk s < KERNBASE ->
  (forall x, free_at L x <-> free_at L0 x \/ brk s0 <= x < brk s) ->
  taken base s L U n r s' -> allocated base s0 L0 U nbytes r s'.
Proof.
  intros Hn Hb0 Hb Hx (a & L' & -> & Hok & HU & Eb & Hx'). right. exists a, n, L'.
  split; [done|]. split; [done|]. split; [done|]. rewrite Eb. split.
  - split; [done|]. rewrite Eb. split; [done|]. by right.
  - intros x. by rewrite <-Hx', Hx.
Qed.

(** The loop, from an existing ring. *)
Lemma malloc_loop_ok base s L U nbytes n h fuel :
  heap_ok base s L U -> 0 < base -> base + 8 <= brk s < KERNBASE ->
  nbytes + 8 <= 8 * n < nbytes + 16 -> 1 <= n -> 8 * n < 2 ^ 31 ->
  cells s !! freep s = Some h -> (2 * length L + 3 < fuel)%nat ->
  runs (malloc_loop fuel n (freep s) (h_ptr h)) s (allocated base s L U nbytes).
Proof.
  intros H Hb0 Hb Hn Hn1 Hn8 Hh Hfuel.
  destruct (decide (Exists (fun b => n <= b.2) L)) as [Hex|Hno].
  { eapply runs_mono; [eapply malloc_fit; eauto; lia|]. intros r s'. apply taken_allocated; [done..|].
    intros x. split; [by left|]. intros [?|?]; [done|lia]. }
  assert (Forall (fun b => b.2 < n) L) as Hs.
  { apply list.Forall_forall. intros b Hb'. apply Z.nle_gt. intros Hle. apply Hno, list.Exists_exists. by exists b. }
  replace fuel with (length L + S (fuel - length L - 1))%nat by lia. unfold runs.
  erewrite malloc_none by eauto. kred. rewrite wp_bind.
  eapply wp_mono; [|eapply morecore_ok; eauto].
  intros r s' [(-> & Hok & Eb)|(-> & L' & Hok & Hb' & Hlen & Hx)].
  - left. split; [done|]. split; [|eapply list.Forall_impl; [exact Hs|]; cbn; lia].
    split; [done|]. rewrite Eb. split; [done|]. by right.
  - pose proof (heap_node _ _ _ _ _ Hok (ho_freep _ _ _ _ Hok)).
    rewrite (proj2 (Z.eqb_neq _ 0)) by lia.
    destruct (links_mem _ _ _ _ _ _ (ho_ring _ _ _ _ Hok) (ho_freep _ _ _ _ Hok)) as [h' Hh'].
    kred. rewrite (load_eq _ _ _ Hh'). cbn [res_bind].
    eapply wp_mono; [|eapply (malloc_fit base s' L' U n h'); eauto; try lia].
    + intros r s''. apply taken_allocated; [done|done|lia|done].
    + pose proof (contiguous _ _ (brk s) (brk s') (ho_asc _ _ _ _ Hok) ltac:(lia)) as Hc.
      eapply list.Exists_impl; [apply Hc; intros x Hxx; apply Hx; by right|].
      intros b [? ?]. unfold block_end in *. lia.
Qed.


(** A heap with one free block and one in use. *)
Definition heap_demo : heap :=
  mkHeap {[ 4096 := mkHeader 16384 0; 16384 := mkHeader 4096 10; 16464 := mkHeader 0 6 ]} 4096 16512 [true].

Lemma heap_demo_ok : heap_inv 4096 heap_demo [(16384, 10)] {[ 16464 := 6 ]}.
Proof.
  split; [lia|]. split; [cbn; unfold KERNBASE; lia|]. right. split.
  - vm_compute. done.
  - cbn. lia.
  - apply Forall_singleton. unfold block_end. cbn. lia.
  - cbn. set_solver.
  - intros a n [<- <-]%lookup_singleton_Some. split; [lia|lia|cbn; lia|vm_compute; done|].
    apply Forall_singleton. unfold apart, block_end. cbn. lia.
  - intros a n a' n' [<- <-]%lookup_singleton_Some [<- <-]%lookup_singleton_Some. done.
Qed.


(** C34. [free] of a block that [malloc] returned makes its memory free again
    and nothing else: the other blocks stay in use, and the free list stays
    sorted with neighbouring blocks joined. *)
Theorem free_releases base s L U a n
    (Hinv : heap_inv base s L U) (Ha : U !! a = Some n) :
  runs (free (a + 8)) s (fun _ s' => exists L', heap_inv base s' L' (delete a U) /\ brk s' = brk s /\
    forall x, free_at L' x <-> free_at L x \/ within (a, n) x).
Proof.
  destruct Hinv as (Hb0 & Hb & [(_ & _ & ->)|Hok]); [by rewrite lookup_empty in Ha|].
  eapply runs_mono; [eapply free_ok; eauto; lia|]. intros ? s' (L' & Hok' & Eb & _ & _ & Hx).
  exists L'. split; [|done]. split; [done|]. rewrite Eb. split; [done|]. by right.
Qed.

Lemma free_releases_witness :
  runs (free 16472) heap_demo (fun _ s' => exists L', heap_inv 4096 s' L' (delete 16464 {[ 16464 := 6 ]}) /\
    brk s' = brk heap_demo /\ forall x, free_at L' x <-> free_at [(16384, 10)] x \/ within (16464, 6) x).
Proof. apply (free_releases 4096 heap_demo [(16384, 10)] {[ 16464 := 6 ]} 16464 6). - exact heap_demo_ok. - done. Defined.

(** A request within 8 bytes of the end of the integers gets an empty block:
    the number of units wraps around to 1. *)
Lemma malloc_wraps base nbytes s : 2 ^ 32 - 7 <= nbytes < 2 ^ 32 -> malloc base nbytes s = malloc base 0 s.
Proof.
  intros H. unfold malloc, sizeof_header. assert (u32 (nbytes + 8 - 1) = nbytes + 7 - 2 ^ 32) as ->.
  { unfold u32. symmetry. apply (Z.mod_unique_pos _ _ 1); lia. }
  assert ((nbytes + 7 - 2 ^ 32) / 8 = 0) as -> by (apply Z.div_small; lia). done.
Qed.
