(* ===== verification/Uproc.v ===== *)
(** * User programs (cat.c, echo.c, init.c, kill.c, ln.c, ls.c, mkdir.c, rm.c, wc.c, zombie.c; stat of ulib.c)

    A program is a tree of system calls: it makes a call and goes on as the reply
    says.  What the kernel does is left open here, so that the same text can be
    run against a file system, or by [fork] as two processes.  Strings are the
    characters from a pointer to the end of their array; [argv] is a list of
    them. *)

From S2P Require Import Prelude Params Ulib.

(** ** System calls *)

(** The arguments as the kernel sees them; for a string its characters, for a
    buffer to be written its bytes.  [page] in [CDetachpage] is what the process
    has stored in the page. *)
(* user.h 5-37: fork *)
Inductive call : Type :=
| CFork
| CWait
| CPipe
| CWrite (fd : Z) (bs : list Z)
| CRead (fd n : Z)
| CClose (fd : Z)
| CKill (pid : Z)
| CExec (path : list Z) (argv : list (list Z))
| COpen (path : list Z) (mode : Z)
| CMknod (path : list Z) (major minor : Z)
| CUnlink (path : list Z)
| CFstat (fd : Z)
| CLink (old new : list Z)
| CMkdir (path : list Z)
| CChdir (path : list Z)
| CDup (fd : Z)
| CSleep (n : Z)
| CGetpage
| CDetachpage (loc : Z) (page : list Z)
| CThread_create (stack : Z)
| CThread_id.

(** The value returned and the bytes stored for the process: what was read, a
    [struct stat], the two descriptors of a pipe. *)
Record reply : Type := mkReply {
  r_val : Z;
  r_data : list Z
}.

(** [Undefined] is undefined behaviour of C; [Bound]: the number of rounds given
    to a loop is used up.  A successful [exec] does not come back. *)
Inductive prog (A : Type) : Type :=
| Ret (a : A)
| Exit
| Sys (c : call) (k : reply -> prog A)
| Undefined (what : string)
| Bound.

Arguments Ret {A} a.
Arguments Exit {A}.
Arguments Sys {A} c k.
Arguments Undefined {A} what.
Arguments Bound {A}.

#[export] Instance prog_ret : MRet prog := @Ret.

#[export] Instance prog_bind : MBind prog := fun A B f =>
  fix go (p : prog A) : prog B :=
    match p with
    | Ret a => f a
    | Exit => Exit
    | Sys c k => Sys c (fun r => go (k r))
    | Undefined w => Undefined w
    | Bound => Bound
    end.

Definition sys (c : call) : prog reply := Sys c Ret.

Definition val (c : call) : prog Z := Sys c (fun r => Ret (r_val r)).

(** ** Printing *)

(** The writes of [printf], one for each character; their results are not
    looked at. *)
Fixpoint puts (ws : list (Z * list Z)) : prog unit :=
  match ws with
  | [] => mret tt
  | (fd, bs) :: ws' => _ ← sys (CWrite fd bs); puts ws'
  end.

Definition say (fd : Z) (fmt : list Z) (args : list uarg) : prog unit :=
  match printf_loop fd false fmt args (mkUio [] []) with
  | Done _ u => puts (written u)
  | _ => Undefined "printf"
  end.

Definition line (s : string) : list Z := bytes_of s ++ [10].

(** ** ulib.c *)

(* stat.h 5-11: stat *)
Record ustat : Type := mkUstat {
  st_type : Z;
  st_dev : Z;
  st_ino : Z;
  st_nlink : Z;
  st_size : Z
}.

Definition get_ustat (bs : list Z) : ustat :=
  mkUstat (s16 (half_at bs 0)) (s32 (word_at bs 4)) (word_at bs 8) (s16 (half_at bs 12)) (word_at bs 16).

(** The result and what is in [*st]. *)
(* ulib.c 70-82: stat *)
Definition stat (n : list Z) : prog (Z * ustat) :=
  fd ← val (COpen n 0);
  if fd <? 0 then mret (-1, get_ustat []) else
  r ← sys (CFstat fd);
  _ ← sys (CClose fd);
  mret (r_val r, get_ustat (r_data r)).

(** ** cat.c *)

(** The first [n] bytes of [buf] are those just read. *)
(* cat.c 7-22: cat *)
Fixpoint cat (rounds : nat) (fd : Z) : prog unit :=
  r ← sys (CRead fd 512);
  let n := r_val r in
  if n >? 0 then
    w ← val (CWrite 1 (take (Z.to_nat n) (r_data r)));
    if negb (w =? n) then _ ← say 1 (line "cat: write error") []; Exit else
    match rounds with
    | O => Bound
    | S rounds' => cat rounds' fd
    end
  else if n <? 0 then _ ← say 1 (line "cat: read error") []; Exit
  else mret tt.

(* cat.c 34-41: main *)
Fixpoint cat_files (rounds : nat) (names : list (list Z)) : prog unit :=
  match names with
  | [] => mret tt
  | nm :: names' =>
      fd ← val (COpen nm 0);
      if fd <? 0 then _ ← say 1 (line "cat: cannot open %s") [UStr (Some (text nm))]; Exit else
      _ ← cat rounds fd;
      _ ← sys (CClose fd);
      cat_files rounds names'
  end.

(* cat.c 24-43: main *)
Definition cat_main (rounds : nat) (argv : list (list Z)) : prog unit :=
  match argv with
  | [] | [_] => _ ← cat rounds 0; Exit
  | _ :: names => _ ← cat_files rounds names; Exit
  end.

(** ** wc.c *)

Record counts : Type := mkCounts {
  n_lines : Z;
  n_words : Z;
  n_chars : Z;
  inword : bool
}.

(* wc.c 17-27: wc *)
Definition count_char (s : counts) (c : Z) : counts :=
  let l := if c =? 10 then n_lines s + 1 else n_lines s in
  match strchr [32; 13; 9; 10; 11] c with
  | Some _ => mkCounts l (n_words s) (n_chars s + 1) false
  | None => mkCounts l (if inword s then n_words s else n_words s + 1) (n_chars s + 1) true
  end.

(** The counters are of type [int]; that of the characters is the greatest. *)
(* wc.c 7-34: wc *)
Fixpoint wc (rounds : nat) (fd : Z) (name : list Z) (s : counts) : prog unit :=
  r ← sys (CRead fd 512);
  let n := r_val r in
  if n >? 0 then
    let s := foldl count_char s (take (Z.to_nat n) (r_data r)) in
    if n_chars s >=? 2 ^ 31 then Undefined "c++" else
    match rounds with
    | O => Bound
    | S rounds' => wc rounds' fd name s
    end
  else if n <? 0 then _ ← say 1 (line "wc: read error") []; Exit
  else say 1 (line "%d %d %d %s") [UInt (n_lines s); UInt (n_words s); UInt (n_chars s); UStr (Some (text name))].

Definition counts0 : counts := mkCounts 0 0 0 false.

(* wc.c 46-53: main *)
Fixpoint wc_files (rounds : nat) (names : list (list Z)) : prog unit :=
  match names with
  | [] => mret tt
  | nm :: names' =>
      fd ← val (COpen nm 0);
      if fd <? 0 then _ ← say 1 (line "wc: cannot open %s") [UStr (Some (text nm))]; Exit else
      _ ← wc rounds fd nm counts0;
      _ ← sys (CClose fd);
      wc_files rounds names'
  end.

(* wc.c 36-54: main *)
Definition wc_main (rounds : nat) (argv : list (list Z)) : prog unit :=
  match argv with
  | [] | [_] => _ ← wc rounds 0 [] counts0; Exit
  | _ :: names => _ ← wc_files rounds names; Exit
  end.

(** ** echo.c, kill.c, ln.c, mkdir.c, rm.c, zombie.c *)

(* echo.c 10-11: main *)
Fixpoint echo_args (args : list (list Z)) : prog unit :=
  match args with
  | [] => mret tt
  | a :: args' =>
      _ ← say 1 (bytes_of "%s%s") [UStr (Some (text a)); UStr (Some (match args' with [] => [10] | _ => [32] end))];
      echo_args args'
  end.

(* echo.c 5-13: main *)
Definition echo_main (argv : list (list Z)) : prog unit := _ ← echo_args (tail argv); Exit.

(* kill.c 14-15: main *)
Fixpoint kill_args (args : list (list Z)) : prog unit :=
  match args with
  | [] => mret tt
  | a :: args' =>
      match atoi a with
      | None => Undefined "atoi"
      | Some pid => _ ← sys (CKill pid); kill_args args'
      end
  end.

(* kill.c 5-17: main *)
Definition kill_main (argv : list (list Z)) : prog unit :=
  match argv with
  | [] | [_] => _ ← say 2 (line "usage: kill pid...") []; Exit
  | _ :: args => _ ← kill_args args; Exit
  end.

(* ln.c 5-15: main *)
Definition ln_main (argv : list (list Z)) : prog unit :=
  match argv with
  | [_; old; new] =>
      r ← val (CLink old new);
      if r <? 0 then _ ← say 2 (line "link %s %s: failed") [UStr (Some (text old)); UStr (Some (text new))]; Exit
      else Exit
  | _ => _ ← say 2 (line "Usage: ln old new") []; Exit
  end.

(* mkdir.c 15-20: main *)
Fixpoint mkdir_args (args : list (list Z)) : prog unit :=
  match args with
  | [] => mret tt
  | a :: args' =>
      r ← val (CMkdir a);
      if r <? 0 then say 2 (line "mkdir: %s failed to create") [UStr (Some (text a))] else mkdir_args args'
  end.

(* mkdir.c 5-23: main *)
Definition mkdir_main (argv : list (list Z)) : prog unit :=
  match argv with
  | [] | [_] => _ ← say 2 (line "Usage: mkdir files...") []; Exit
  | _ :: args => _ ← mkdir_args args; Exit
  end.

(* rm.c 15-20: main *)
Fixpoint rm_args (args : list (list Z)) : prog unit :=
  match args with
  | [] => mret tt
  | a :: args' =>
      r ← val (CUnlink a);
      if r <? 0 then say 2 (line "rm: %s failed to delete") [UStr (Some (text a))] else rm_args args'
  end.

(* rm.c 5-23: main *)
Definition rm_main (argv : list (list Z)) : prog unit :=
  match argv with
  | [] | [_] => _ ← say 2 (line "Usage: rm files...") []; Exit
  | _ :: args => _ ← rm_args args; Exit
  end.

(* zombie.c 8-14: main *)
Definition zombie_main : prog unit :=
  pid ← val CFork;
  if pid >? 0 then _ ← sys (CSleep 5); Exit else Exit.

(** ** ls.c *)

(** [for(p=path+strlen(path); p >= path && *p != '/'; p--); p++], from index [i]. *)
(* ls.c 12-15: fmtname *)
Fixpoint after_slash (path : list Z) (i : nat) : nat :=
  if default 0 (path !! i) =? 47 then S i else
  match i with
  | O => O
  | S j => after_slash path j
  end.

(** The string returned. *)
(* ls.c 6-23: fmtname *)
Definition fmtname (path : list Z) : list Z :=
  let p := drop (after_slash path (strlen path)) path in
  if (Z.to_nat DIRSIZ <=? strlen p)%nat then text p
  else text p ++ replicate (Z.to_nat DIRSIZ - strlen p) 32.

Definition say_stat (path : list Z) (st : ustat) : prog unit :=
  say 1 (line "%s %d %d %d") [UStr (Some (fmtname path)); UInt (st_type st); UInt (st_ino st); UInt (st_size st)].

(** [path] is in [buf] up to the slash. *)
(* ls.c 56-66: ls *)
Fixpoint ls_entries (rounds : nat) (fd : Z) (path : list Z) : prog unit :=
  r ← sys (CRead fd 16);
  if negb (r_val r =? 16) then mret tt else
  let next := match rounds with O => Bound | S rounds' => ls_entries rounds' fd path end in
  if half_at (r_data r) 0 =? 0 then next else
  let buf := text (path ++ slice (r_data r) 2 (Z.to_nat DIRSIZ)) in
  s ← stat buf;
  let '(v, st) := s in
  if v <? 0 then _ ← say 1 (line "ls: cannot stat %s") [UStr (Some buf)]; next
  else _ ← say_stat buf st; next.

(* ls.c 25-70: ls *)
Definition ls (rounds : nat) (path : list Z) : prog unit :=
  fd ← val (COpen path 0);
  if fd <? 0 then say 2 (line "ls: cannot open %s") [UStr (Some (text path))] else
  r ← sys (CFstat fd);
  if r_val r <? 0 then
    _ ← say 2 (line "ls: cannot stat %s") [UStr (Some (text path))];
    _ ← sys (CClose fd); mret tt
  else
  let st := get_ustat (r_data r) in
  _ ← (if st_type st =? T_FILE then say_stat path st
       else if st_type st =? T_DIR then
         if (512 <? strlen path + 1 + Z.to_nat DIRSIZ + 1)%nat then say 1 (line "ls: path too long") []
         else ls_entries rounds fd (text path ++ [47])
       else mret tt);
  _ ← sys (CClose fd);
  mret tt.

(* ls.c 81-82: main *)
Fixpoint ls_args (rounds : nat) (args : list (list Z)) : prog unit :=
  match args with
  | [] => mret tt
  | a :: args' => _ ← ls rounds a; ls_args rounds args'
  end.

(* ls.c 72-84: main *)
Definition ls_main (rounds : nat) (argv : list (list Z)) : prog unit :=
  match argv with
  | [] | [_] => _ ← ls rounds (bytes_of "."); Exit
  | _ :: args => _ ← ls_args rounds args; Exit
  end.

(** ** init.c *)

(* init.c 33-34: main *)
Fixpoint init_wait (rounds : nat) (pid : Z) : prog unit :=
  wpid ← val CWait;
  if (wpid >=? 0) && negb (wpid =? pid) then
    _ ← say 1 (line "zombie!") [];
    match rounds with
    | O => Bound
    | S rounds' => init_wait rounds' pid
    end
  else mret tt.

(* init.c 21-35: main *)
Fixpoint init_loop (rounds : nat) : prog unit :=
  match rounds with
  | O => Bound
  | S rounds' =>
      _ ← say 1 (line "init: starting sh") [];
      pid ← val CFork;
      if pid <? 0 then _ ← say 1 (line "init: fork failed") []; Exit else
      if pid =? 0 then
        _ ← sys (CExec (bytes_of "sh") [bytes_of "sh"]);
        _ ← say 1 (line "init: exec sh failed") [];
        Exit
      else
      _ ← init_wait rounds pid;
      init_loop rounds'
  end.

(* init.c 10-36: main *)
Definition init_main (rounds : nat) : prog unit :=
  fd ← val (COpen (bytes_of "console") O_RDWR);
  _ ← (if fd <? 0 then
         _ ← sys (CMknod (bytes_of "console") 1 1);
         _ ← sys (COpen (bytes_of "console") O_RDWR); mret tt
       else mret tt);
  _ ← sys (CDup 0);
  _ ← sys (CDup 0);
  init_loop rounds.
