(* ===== verification/Ufiles.v ===== *)
(** * User programs on files and streams (cat.c, wc.c, echo.c, rm.c, ls.c)

    A world in which a program reads and writes: files by name, and open
    descriptors with the bytes left to be read.  A read of a file returns as many
    bytes as there are, up to the number asked for, as [readi] does; a read of a
    stream (a pipe, the console) returns any number of them, at least one before
    the end.  The theorems hold for every such behaviour. *)

From S2P Require Import Prelude Params Ulib Uproc.

(** ** What printf prints *)

Definition decimal (n : Z) : list Z := rev (digit_buf (s32 n) 10 true).

Definition hexadecimal (n : Z) : list Z := rev (digit_buf (s32 n) 16 false).

(** The characters of a format with its arguments; [None]: an argument is
    missing or of the wrong kind. *)
Fixpoint render (pct : bool) (fmt : list Z) (args : list uarg) : option (list Z) :=
  match fmt with
  | [] => Some []
  | c :: fmt' =>
      if pct then
        if c =? 100 then
          match args with UInt v :: args' => app (decimal v) <$> render false fmt' args' | _ => None end
        else if (c =? 120) || (c =? 112) then
          match args with UInt v :: args' => app (hexadecimal v) <$> render false fmt' args' | _ => None end
        else if c =? 115 then
          match args with UStr s :: args' => app (default (bytes_of "(null)") s) <$> render false fmt' args' | _ => None end
        else if c =? 99 then
          match args with UInt v :: args' => cons v <$> render false fmt' args' | _ => None end
        else if c =? 37 then cons c <$> render false fmt' args
        else app [37; c] <$> render false fmt' args
      else if c =? 37 then render true fmt' args
      else cons c <$> render false fmt' args
  end.

(** Characters written one by one. *)
Definition each (fd : Z) (bs : list Z) : list (Z * list Z) := (fun b => (fd, [u8 b])) <$> bs.

Definition put (ws : list (Z * list Z)) (u : uio) : uio := set_written (written u ++ ws) u.

Lemma put_put a b u : put b (put a u) = put (a ++ b) u.
Proof. unfold put. destruct u. simpl. unfold set_written. simpl. by rewrite app_assoc. Qed.

Lemma put_nil u : put [] u = u.
Proof. destruct u. unfold put, set_written. simpl. by rewrite app_nil_r. Qed.

Lemma each_app fd a b : each fd (a ++ b) = each fd a ++ each fd b.
Proof. apply fmap_app. Qed.

Lemma putc_put fd c u : putc fd c u = Done tt (put (each fd [c]) u).
Proof. done. Qed.

Lemma putcs_put fd l u : for_all l (putc fd) u = Done tt (put (each fd l) u).
Proof.
  revert u. induction l as [|c l IH]; intros u; [by rewrite for_all_nil, put_nil|].
  rewrite for_all_cons, putc_put. cbn [res_bind]. rewrite IH, put_put. done.
Qed.

Lemma printf_render fd fmt : forall pct args bs u, render pct fmt args = Some bs ->
  printf_loop fd pct fmt args u = Done tt (put (each fd bs) u).
Proof.
  induction fmt as [|c fmt IH]; intros pct args bs u H; cbn [render printf_loop] in *; [injection H as <-; by rewrite put_nil|].
  repeat match type of H with
  | context [if ?b then _ else _] => destruct b
  | context [match ?a with UInt _ => _ | UStr _ => _ end] => destruct a
  | context [match ?a with [] => _ | _ :: _ => _ end] => destruct a
  end; try done; try (apply fmap_Some in H as (bs' & H & ->)); try (by apply IH);
  unfold printint; rewrite ?bind_eq, ?putcs_put, ?putc_put; cbn [res_bind];
  rewrite ?bind_eq, ?putc_put; cbn [res_bind]; rewrite (IH _ _ _ _ H), ?put_put, <-?each_app; done.
Qed.

Lemma say_render fd fmt args bs : render false fmt args = Some bs -> say fd fmt args = puts (each fd bs).
Proof. intros H. unfold say. by rewrite (printf_render fd fmt false args bs _ H). Qed.

(** ** Running a program *)

(** [act c s Q]: in state [s] the call [c] ends, and only with replies and states
    for which [Q] holds.  The result of a program is [None] when it called
    [exit]. *)
Section Run.
Context {S : Type} (act : call -> S -> (reply -> S -> Prop) -> Prop).

Fixpoint run {A} (p : prog A) (s : S) (Q : option A -> S -> Prop) : Prop :=
  match p with
  | Ret a => Q (Some a) s
  | Exit => Q None s
  | Sys c k => act c s (fun r s' => run (k r) s' Q)
  | Undefined _ | Bound => False
  end.

Hypothesis act_mono : forall c s (Q Q' : reply -> S -> Prop), (forall r s', Q r s' -> Q' r s') -> act c s Q -> act c s Q'.

Lemma run_mono {A} (p : prog A) s (Q Q' : option A -> S -> Prop) :
  (forall o s', Q o s' -> Q' o s') -> run p s Q -> run p s Q'.
Proof. intros HQ. revert s. induction p; intros s; simpl; auto. apply act_mono. auto. Qed.

Definition andthen {A B} (f : A -> prog B) (Q : option B -> S -> Prop) (o : option A) (s : S) : Prop :=
  match o with
  | Some a => run (f a) s Q
  | None => Q None s
  end.

Lemma run_bind {A B} (p : prog A) (f : A -> prog B) s Q : run p s (andthen f Q) -> run (p ≫= f) s Q.
Proof. revert s. induction p; intros s; simpl; auto. apply act_mono. auto. Qed.
End Run.

(** ** The world *)

(** A file or a stream. *)
Inductive source : Type :=
| File (path : list Z)
| Stream.

Record world : Type := mkWorld {
  w_fds : gmap Z (source * list Z);
  w_files : gmap (list Z) (list Z);
  w_stat : list Z -> list Z;
  w_out : list (Z * list Z)
}.

Definition set_fds (v : gmap Z (source * list Z)) (w : world) : world := mkWorld v (w_files w) (w_stat w) (w_out w).

Definition set_files (v : gmap (list Z) (list Z)) (w : world) : world := mkWorld (w_fds w) v (w_stat w) (w_out w).

Definition set_out (v : list (Z * list Z)) (w : world) : world := mkWorld (w_fds w) (w_files w) (w_stat w) v.

(** All bytes written to a descriptor. *)
Definition output (fd : Z) (w : world) : list Z := concat ((fun o => if fst o =? fd then snd o else []) <$> w_out w).

(** How many of the [m] bytes left a read of [n] may return. *)
Definition may_read (src : source) (n m j : nat) : Prop :=
  match src with
  | File _ => j = Nat.min n m
  | Stream => (j <= Nat.min n m)%nat /\ (j = 0 -> Nat.min n m = 0)%nat
  end.

Definition act (c : call) (w : world) (Q : reply -> world -> Prop) : Prop :=
  match c with
  | CRead fd n =>
      match w_fds w !! fd with
      | None => Q (mkReply (-1) []) w
      | Some (src, bs) => forall j, may_read src (Z.to_nat n) (length bs) j ->
          Q (mkReply (Z.of_nat j) (take j bs)) (set_fds (<[fd := (src, drop j bs)]> (w_fds w)) w)
      end
  | CWrite fd bs => Q (mkReply (Z.of_nat (length bs)) []) (set_out (w_out w ++ [(fd, bs)]) w)
  | COpen path _ =>
      match w_files w !! text path with
      | None => Q (mkReply (-1) []) w
      | Some bs => forall fd, 0 <= fd -> w_fds w !! fd = None ->
          Q (mkReply fd []) (set_fds (<[fd := (File (text path), bs)]> (w_fds w)) w)
      end
  | CClose fd => Q (mkReply 0 []) (set_fds (delete fd (w_fds w)) w)
  | CFstat fd =>
      match w_fds w !! fd with
      | Some (File path, _) => Q (mkReply 0 (w_stat w path)) w
      | _ => Q (mkReply (-1) []) w
      end
  | CUnlink path =>
      match w_files w !! text path with
      | None => Q (mkReply (-1) []) w
      | Some _ => Q (mkReply 0 []) (set_files (delete (text path) (w_files w)) w)
      end
  | _ => False
  end.

Lemma act_mono c w (Q Q' : reply -> world -> Prop) : (forall r w', Q r w' -> Q' r w') -> act c w Q -> act c w Q'.
Proof.
  intros HQ. destruct c; simpl; auto.
  - destruct (w_fds w !! fd) as [[src bs]|]; auto.
  - destruct (w_files w !! text path); auto.
  - destruct (w_files w !! text path); auto.
  - destruct (w_fds w !! fd) as [[[] bs]|]; auto.
Qed.

Lemma wrun_bind {A B} (p : prog A) (f : A -> prog B) w Q : run act p w (andthen act f Q) -> run act (p ≫= f) w Q.
Proof. apply run_bind, act_mono. Qed.

Lemma wrun_mono {A} (p : prog A) w (Q Q' : option A -> world -> Prop) :
  (forall o w', Q o w' -> Q' o w') -> run act p w Q -> run act p w Q'.
Proof. apply run_mono, act_mono. Qed.

(** ** Output *)

Definition printed (ws : list (Z * list Z)) (w : world) : world := set_out (w_out w ++ ws) w.

Lemma printed_nil w : printed [] w = w.
Proof. destruct w. unfold printed, set_out. simpl. by rewrite app_nil_r. Qed.

Lemma printed_printed a b w : printed b (printed a w) = printed (a ++ b) w.
Proof. destruct w. unfold printed, set_out. simpl. by rewrite app_assoc. Qed.

Lemma wrun_puts ws w (Q : option unit -> world -> Prop) : Q (Some tt) (printed ws w) -> run act (puts ws) w Q.
Proof.
  revert w. induction ws as [|[fd bs] ws IH]; intros w H; [by rewrite printed_nil in H|].
  cbn. apply IH. fold (printed [(fd, bs)] w). by rewrite printed_printed.
Qed.

Lemma wrun_say fd fmt args bs w (Q : option unit -> world -> Prop) :
  render false fmt args = Some bs -> Q (Some tt) (printed (each fd bs) w) -> run act (say fd fmt args) w Q.
Proof. intros E H. rewrite (say_render _ _ _ _ E). by apply wrun_puts. Qed.

Lemma output_printed fd ws w :
  output fd (printed ws w) = output fd w ++ concat ((fun o => if fst o =? fd then snd o else []) <$> ws).
Proof. unfold output, printed. simpl. by rewrite fmap_app, concat_app. Qed.

Lemma output_each fd fd' bs w : output fd' (printed (each fd bs) w) = output fd' w ++ (if fd =? fd' then u8 <$> bs else []).
Proof.
  rewrite output_printed. f_equal. induction bs as [|b bs IH]; [by destruct (fd =? fd')|].
  unfold each in *. cbn [fmap list_fmap concat fst snd]. rewrite IH. by destruct (fd =? fd').
Qed.

(** What the writes [ws] put on descriptor [fd]. *)
Definition outs (fd : Z) (ws : list (Z * list Z)) : list Z := concat ((fun o => if fst o =? fd then snd o else []) <$> ws).

Lemma outs_app fd a b : outs fd (a ++ b) = outs fd a ++ outs fd b.
Proof. unfold outs. by rewrite fmap_app, concat_app. Qed.

Lemma outs_one fd bs : outs fd [(fd, bs)] = bs.
Proof. unfold outs. cbn. by rewrite Z.eqb_refl, app_nil_r. Qed.

Lemma outs_each fd bs : outs fd (each fd bs) = u8 <$> bs.
Proof.
  induction bs as [|b bs IH]; [done|]. unfold outs, each in *. cbn [fmap list_fmap concat fst snd]. by rewrite IH, Z.eqb_refl.
Qed.

Lemma may_read_bound src n m j : may_read src n m j -> (j <= n)%nat /\ (j <= m)%nat /\ (j = 0 -> Nat.min n m = 0)%nat.
Proof. destruct src; simpl; lia. Qed.

(** ** cat *)

(** After everything has been read from [fd]. *)
Definition drained (fd : Z) (w : world) : world :=
  match w_fds w !! fd with
  | Some (src, _) => set_fds (<[fd := (src, [])]> (w_fds w)) w
  | None => w
  end.

Lemma drained_step fd src bs j ws w : w_fds w !! fd = Some (src, bs) ->
  drained fd (printed ws (set_fds (<[fd := (src, drop j bs)]> (w_fds w)) w)) = printed ws (drained fd w).
Proof.
  intros E. unfold drained. cbn [printed set_out w_fds set_fds]. rewrite lookup_insert_eq, E. destruct w. unfold printed, set_out, set_fds. simpl. by rewrite insert_insert_eq.
Qed.

Lemma drained_done fd src w : w_fds w !! fd = Some (src, []) -> drained fd w = w.
Proof. intros E. unfold drained. rewrite E. destruct w. unfold set_fds. simpl in *. by rewrite insert_id. Qed.

Lemma cat_reads fd src : forall rounds bs w (Q : option unit -> world -> Prop),
  w_fds w !! fd = Some (src, bs) -> (length bs <= rounds)%nat ->
  (forall ws, outs 1 ws = bs -> Q (Some tt) (printed ws (drained fd w))) -> run act (cat rounds fd) w Q.
Proof.
  induction rounds as [|rounds IH]; intros bs w Q Hfd Hlen HQ; cbn; rewrite Hfd; intros j [Hj1 [Hj2 Hj3]]%may_read_bound.
  all: destruct (Z.gtb_spec (Z.of_nat j) 0) as [Hpos|Hz].
  - lia.
  - destruct (Z.ltb_spec (Z.of_nat j) 0); [lia|]. destruct bs; [|simpl in Hlen; lia]. rewrite drop_nil, insert_id by done.
    specialize (HQ [] eq_refl). rewrite printed_nil, (drained_done fd src) in HQ by done. by destruct w.
  - cbn. rewrite Nat2Z.id, take_take, Nat.min_id, length_take, Nat.min_l, Z.eqb_refl by lia. cbn [negb].
    set (w1 := set_fds (<[fd := (src, drop j bs)]> (w_fds w)) w). change (set_out (w_out w ++ [(1, take j bs)]) w1) with (printed [(1, take j bs)] w1).
    apply (IH (drop j bs)); [by cbn; rewrite lookup_insert_eq|rewrite length_drop; lia|].
    intros ws Hws. unfold w1. rewrite (drained_step fd src bs j), printed_printed by done. apply HQ. rewrite outs_app, Hws, outs_one. apply take_drop.
  - destruct (Z.ltb_spec (Z.of_nat j) 0); [lia|]. assert (length bs = 0)%nat as H0 by lia. destruct bs; [|done]. rewrite drop_nil, insert_id by done.
    specialize (HQ [] eq_refl). rewrite printed_nil, (drained_done fd src) in HQ by done. by destruct w.
Qed.

(** Opening a file, using it up and closing it leaves the descriptors as they were. *)
Lemma open_used fd path bs ws w : w_fds w !! fd = None ->
  set_fds (delete fd (w_fds (printed ws (drained fd (set_fds (<[fd := (File path, bs)]> (w_fds w)) w)))))
    (printed ws (drained fd (set_fds (<[fd := (File path, bs)]> (w_fds w)) w))) = printed ws w.
Proof.
  intros E. unfold drained. cbn [w_fds set_fds]. rewrite lookup_insert_eq. destruct w. unfold printed, set_out, set_fds. simpl in *.
  by rewrite insert_insert_eq, delete_insert_id.
Qed.

(** What [cat] writes for its arguments. *)
Fixpoint cat_text (files : gmap (list Z) (list Z)) (names : list (list Z)) : list Z :=
  match names with
  | [] => []
  | nm :: names' =>
      match files !! text nm with
      | None => u8 <$> bytes_of "cat: cannot open " ++ text nm ++ [10]
      | Some bs => bs ++ cat_text files names'
      end
  end.

Lemma cat_files_copy rounds names : forall w (Q : option unit -> world -> Prop),
  map_Forall (fun _ bs => length bs <= rounds)%nat (w_files w) ->
  (forall o ws, outs 1 ws = cat_text (w_files w) names -> Q o (printed ws w)) -> run act (cat_files rounds names) w Q.
Proof.
  induction names as [|nm names IH]; intros w Q Hr HQ; cbn; [rewrite <-(printed_nil w); by apply HQ|].
  cbn [cat_text] in HQ. destruct (w_files w !! text nm) as [bs|] eqn:E.
  - intros fd Hfd Hnew. destruct (Z.ltb_spec fd 0); [lia|]. apply wrun_bind.
    apply (cat_reads fd (File (text nm)) rounds bs); [by cbn; rewrite lookup_insert_eq|by eapply Hr|].
    intros ws Hws. cbn [andthen mbind prog_bind sys run act]. rewrite open_used by done. apply IH; [done|].
    intros o ws' Hws'. rewrite printed_printed. apply HQ. by rewrite outs_app, Hws, Hws'.
  - apply wrun_bind. eapply wrun_say; [reflexivity|]. cbn [andthen run]. apply HQ. by rewrite outs_each.
Qed.

(** What [cat] writes: what it was given on descriptor 0 when it has no
    arguments. *)
Definition cat_output (w : world) (names : list (list Z)) : list Z :=
  match names with
  | [] => match w_fds w !! 0 with Some (_, bs) => bs | None => bytes_of "cat: read error" ++ [10] end
  | _ => cat_text (w_files w) names
  end.

(** cat copies.  Run with names of files, it writes their contents to its
    standard output one after the other and ends; at a name that cannot be
    opened it stops with a message.  Without arguments it copies its standard
    input, however the input is cut into reads.  Files and descriptors
    are as before except that the standard input is used up. *)
Theorem cat_copies rounds prog_name names w
    (Hf : map_Forall (fun _ bs => length bs <= rounds)%nat (w_files w))
    (Hi : map_Forall (fun _ o => length (snd o) <= rounds)%nat (w_fds w)) :
  run act (cat_main rounds (prog_name :: names)) w (fun o w' => o = None /\ output 1 w' = output 1 w ++ cat_output w names /\
    w_files w' = w_files w /\ w_fds w' = match names with [] => w_fds (drained 0 w) | _ => w_fds w end).
Proof.
  unfold cat_main, cat_output. destruct names as [|nm names]; apply wrun_bind.
  - destruct (w_fds w !! 0) as [[src bs]|] eqn:E.
    + apply (cat_reads 0 src rounds bs); [done|by eapply (Hi 0 (src, bs))|]. intros ws Hws. cbn [andthen run]. split; [done|].
      split; [rewrite output_printed; unfold drained; rewrite E; fold (outs 1 ws); by rewrite Hws|]. unfold drained. by rewrite E.
    + destruct rounds; cbn [cat mbind prog_bind sys run act]; rewrite E; cbn [r_val]; change (-1 >? 0) with false; change (-1 <? 0) with true; cbv iota;
        cbn [mbind prog_bind]; (apply wrun_bind; eapply wrun_say; [reflexivity|]; cbn [andthen run]; split; [done|]; split; [by rewrite output_each|]; unfold drained; by rewrite E).
  - apply cat_files_copy; [done|]. intros o ws Hws. destruct o; cbn [andthen run]; (split; [done|]); (split; [rewrite output_printed; fold (outs 1 ws); by rewrite Hws|done]).
Qed.

(** ** wc *)

Definition space (c : Z) : bool := bool_decide (c ∈ [32; 13; 9; 10; 11]).

(** A word starts at [i]: there is no space here, and before it there is one or
    nothing. *)
Definition word_starts (bs : list Z) (i : nat) : bool :=
  negb (space (default 0 (bs !! i))) && match i with O => true | S j => space (default 0 (bs !! j)) end.

Definition words_in (bs : list Z) : Z := Z.of_nat (length (List.filter (word_starts bs) (seq 0 (length bs)))).

Definition lines_in (bs : list Z) : Z := Z.of_nat (length (List.filter (Z.eqb 10) bs)).

Lemma strchr_space c : (if strchr [32; 13; 9; 10; 11] c is Some _ then true else false) = space c.
Proof.
  unfold space. destruct (strchr [32; 13; 9; 10; 11] c) eqn:E.
  - symmetry. apply bool_decide_eq_true_2. apply strchr_Some in E as [E _]. by eapply list_elem_of_lookup_2.
  - symmetry. apply bool_decide_eq_false_2. apply strchr_None in E; [done|]. by repeat constructor.
Qed.

Lemma word_starts_app bs c i : (i < length bs)%nat -> word_starts (bs ++ [c]) i = word_starts bs i.
Proof. intros Hi. unfold word_starts. rewrite lookup_app_l by lia. destruct i; [done|]. by rewrite lookup_app_l by lia. Qed.

(** The character before the end, if there is one, is in a word. *)
Definition ends_in_word (bs : list Z) : bool := match list.last bs with Some c => negb (space c) | None => false end.

Lemma words_in_snoc bs c : words_in (bs ++ [c]) = words_in bs + (if space c then 0 else if ends_in_word bs then 0 else 1).
Proof.
  unfold words_in. rewrite length_app. cbn [length]. rewrite seq_app, List.filter_app, length_app.
  rewrite (List.filter_ext_in (word_starts (bs ++ [c])) (word_starts bs) (seq 0 (length bs))).
  2:{ intros i Hi%in_seq. apply word_starts_app. lia. }
  cbn [List.filter seq]. unfold word_starts at 2. rewrite list_lookup_middle by lia. cbn [default from_option id].
  assert (match (0 + length bs)%nat with O => true | S j => space (default 0 ((bs ++ [c]) !! j)) end = negb (ends_in_word bs)) as ->.
  { unfold ends_in_word. rewrite last_lookup. destruct bs as [|x bs]; [done|]. cbn [length Nat.add Nat.pred].
    destruct (lookup_lt_is_Some_2 (x :: bs) (length bs)) as [y Hy]; [simpl; lia|]. rewrite lookup_app_l by (simpl; lia). rewrite Hy. cbn. by destruct (space y). }
  destruct (space c), (ends_in_word bs); cbn; lia.
Qed.

Lemma lines_in_snoc bs c : lines_in (bs ++ [c]) = lines_in bs + (if c =? 10 then 1 else 0).
Proof. unfold lines_in. rewrite List.filter_app, length_app, Nat2Z.inj_add. cbn [List.filter]. rewrite Z.eqb_sym. by destruct (c =? 10). Qed.

(** The loop counts what there is to count. *)
Lemma count_all bs : foldl count_char counts0 bs = mkCounts (lines_in bs) (words_in bs) (Z.of_nat (length bs)) (ends_in_word bs).
Proof.
  induction bs as [|c bs IH] using rev_ind; [done|]. rewrite foldl_snoc, IH. unfold count_char. cbn [n_lines n_words n_chars inword].
  pose proof (strchr_space c) as Hs. rewrite lines_in_snoc, words_in_snoc, length_app, Nat2Z.inj_add. replace (ends_in_word (bs ++ [c])) with (negb (space c)) by (unfold ends_in_word; by rewrite last_snoc). rewrite <-Hs.
  destruct (strchr [32; 13; 9; 10; 11] c); cbn [negb]; f_equal; try (destruct (c =? 10); lia); try lia; destruct (ends_in_word bs); lia.
Qed.

(** The line that [wc] writes for a file. *)
Definition wc_line (bs name : list Z) : list Z :=
  decimal (lines_in bs) ++ [32] ++ decimal (words_in bs) ++ [32] ++ decimal (Z.of_nat (length bs)) ++ [32] ++ text name ++ [10].

Lemma wc_counted fd src name : forall rounds bs pre w (Q : option unit -> world -> Prop),
  w_fds w !! fd = Some (src, bs) -> (length bs <= rounds)%nat -> Z.of_nat (length (pre ++ bs)) < 2 ^ 31 ->
  Q (Some tt) (printed (each 1 (wc_line (pre ++ bs) name)) (drained fd w)) ->
  run act (wc rounds fd name (foldl count_char counts0 pre)) w Q.
Proof.
  assert (forall pre w (Q : option unit -> world -> Prop), Q (Some tt) (printed (each 1 (wc_line pre name)) w) ->
    run act (say 1 (line "%d %d %d %s") [UInt (n_lines (foldl count_char counts0 pre)); UInt (n_words (foldl count_char counts0 pre));
      UInt (n_chars (foldl count_char counts0 pre)); UStr (Some (text name))]) w Q) as Hsay.
  { intros pre w Q HQ. rewrite count_all. cbn [n_lines n_words n_chars]. eapply wrun_say; [reflexivity|]. exact HQ. }
  induction rounds as [|rounds IH]; intros bs pre w Q Hfd Hlen Hmax HQ; cbn [wc mbind prog_bind sys run act]; rewrite Hfd; intros j [Hj1 [Hj2 Hj3]]%may_read_bound;
    cbn [mbind prog_bind r_val r_data]; destruct (Z.gtb_spec (Z.of_nat j) 0) as [Hpos|Hz].
  - lia.
  - destruct (Z.ltb_spec (Z.of_nat j) 0); [lia|]. destruct bs; [|simpl in Hlen; lia]. rewrite app_nil_r in HQ. rewrite drop_nil.
    apply Hsay. unfold drained in HQ. by rewrite Hfd in HQ.
  - rewrite Nat2Z.id, take_take, Nat.min_id, <-foldl_app.
    assert (n_chars (foldl count_char counts0 (pre ++ take j bs)) = Z.of_nat (length (pre ++ take j bs))) as -> by (by rewrite count_all).
    rewrite !length_app, length_take in *. destruct (Z.geb_spec (Z.of_nat (length pre + Nat.min j (length bs))) (2 ^ 31)); [lia|].
    apply (IH (drop j bs)); [by cbn; rewrite lookup_insert_eq|rewrite length_drop; lia|rewrite !length_app, length_take, length_drop; lia|].
    rewrite <-app_assoc, take_drop. pose proof (drained_step fd src bs j [] w Hfd) as Hd. rewrite !printed_nil in Hd. by rewrite Hd.
  - destruct (Z.ltb_spec (Z.of_nat j) 0); [lia|]. assert (length bs = 0)%nat as H0 by lia. destruct bs; [|done]. rewrite app_nil_r in HQ. rewrite drop_nil.
    apply Hsay. unfold drained in HQ. by rewrite Hfd in HQ.
Qed.

Fixpoint wc_text (files : gmap (list Z) (list Z)) (names : list (list Z)) : list Z :=
  match names with
  | [] => []
  | nm :: names' =>
      match files !! text nm with
      | None => bytes_of "wc: cannot open " ++ text nm ++ [10]
      | Some bs => wc_line bs nm ++ wc_text files names'
      end
  end.

(** No more than [rounds] bytes, and their number is an [int]. *)
Definition countable_ (rounds : nat) (bs : list Z) : Prop := (length bs <= rounds)%nat /\ Z.of_nat (length bs) < 2 ^ 31.

Lemma wc_files_count rounds names : forall w (Q : option unit -> world -> Prop),
  map_Forall (fun _ bs => countable_ rounds bs) (w_files w) ->
  (forall o, Q o (printed (each 1 (wc_text (w_files w) names)) w)) -> run act (wc_files rounds names) w Q.
Proof.
  induction names as [|nm names IH]; intros w Q Hr HQ; cbn [wc_files wc_text] in *; [specialize (HQ (Some tt)); by rewrite printed_nil in HQ|].
  cbn [mbind prog_bind val run act]. destruct (w_files w !! text nm) as [bs|] eqn:E.
  - intros fd Hfd Hnew. cbn [mbind prog_bind r_val]. destruct (Z.ltb_spec fd 0); [lia|]. apply wrun_bind. destruct (Hr _ _ E) as [H1 H2].
    apply (wc_counted fd (File (text nm)) nm rounds bs []); [by cbn; rewrite lookup_insert_eq|done|done|].
    cbn [andthen mbind prog_bind sys run act]. rewrite open_used by done. apply IH; [done|].
    intros o. rewrite printed_printed, <-each_app. apply HQ.
  - apply wrun_bind. eapply wrun_say; [reflexivity|]. cbn [andthen run]. apply HQ.
Qed.

(** C21. wc counts.  For every file it is given [wc] writes a line with the number
    of newlines, the number of words (places where a character that is not white
    space follows white space or nothing) and the number of bytes, whatever the
    buffer boundaries and the cutting of its standard input into reads. *)
Theorem wc_counts rounds prog_name names w bs
    (Hf : map_Forall (fun _ bs => countable_ rounds bs) (w_files w)) (Hb : countable_ rounds bs)
    (Hi : names = [] -> exists src, w_fds w !! 0 = Some (src, bs)) :
  run act (wc_main rounds (prog_name :: names)) w (fun o w' => o = None /\ w_files w' = w_files w /\
    output 1 w' = output 1 w ++ (u8 <$> match names with [] => wc_line bs [] | _ => wc_text (w_files w) names end)).
Proof.
  unfold wc_main. destruct names as [|nm names]; apply wrun_bind.
  - destruct (Hi eq_refl) as [src E]. apply (wc_counted 0 src [] rounds bs []); [done|apply Hb|apply Hb|].
    cbn [andthen run app]. rewrite output_each. unfold drained. by rewrite E.
  - apply wc_files_count; [done|]. intros o. destruct o; cbn [andthen run]; by rewrite output_each.
Qed.

(** ** echo *)

Fixpoint echo_text (args : list (list Z)) : list Z :=
  match args with
  | [] => []
  | [a] => text a ++ [10]
  | a :: args' => text a ++ [32] ++ echo_text args'
  end.

Lemma echo_prints args w (Q : option unit -> world -> Prop) :
  Q (Some tt) (printed (each 1 (echo_text args)) w) -> run act (echo_args args) w Q.
Proof.
  revert w. induction args as [|a args IH]; intros w H; cbn [echo_args echo_text] in *; [by rewrite printed_nil in H|].
  apply wrun_bind. destruct args as [|b args]; (eapply wrun_say; [reflexivity|]); cbn [andthen]; apply IH; rewrite printed_printed, <-each_app, <-?app_assoc.
  - cbn [echo_text] in *. by rewrite !app_nil_r.
  - exact H.
Qed.

(** ** ls *)

(** A name in a column of fourteen characters. *)
Definition pad (nm : list Z) : list Z := nm ++ replicate (14 - length nm) 32.

Lemma strlen_text s : strlen s = length (text s).
Proof. unfold text. rewrite length_take. assert (strlen s <= length s)%nat; [|lia]. induction s as [|c s IH]; simpl; [lia|]. destruct (nz c); lia. Qed.

Lemma text_app a b : Forall (fun c => c <> 0) a -> text (a ++ b) = a ++ text b.
Proof.
  unfold text. induction 1 as [|c a Hc _ IH]; [done|]. cbn [app strlen]. replace (nz c) with true by (unfold nz; lia). cbn [take]. by rewrite IH.
Qed.

Lemma text_text s : text (text s) = text s.
Proof. apply text_full, text_nonzero. Qed.

Lemma after_slash_found path k : forall i, (k <= i)%nat -> path !! k = Some 47 ->
  (forall j, (k < j <= i)%nat -> path !! j <> Some 47) -> after_slash path i = S k.
Proof.
  induction i as [|i IH]; intros Hk H47 Hno.
  - assert (k = 0%nat) as -> by lia. cbn [after_slash]. by rewrite H47.
  - cbn [after_slash]. destruct (decide (k = S i)) as [->|Hne]; [by rewrite H47|].
    assert ((default 0 (path !! S i) =? 47) = false) as ->.
    { apply Z.eqb_neq. intros E. apply (Hno (S i)); [lia|]. destruct (path !! S i); simpl in E; [by subst|done]. }
    apply IH; [lia|done|]. intros j Hj. apply Hno. lia.
Qed.

(** Of a path only the part behind the last slash is shown. *)
Lemma fmtname_last dir nm : 47 ∉ nm -> Forall (fun c => c <> 0) dir -> Forall (fun c => c <> 0) nm ->
  fmtname (dir ++ 47 :: nm) = pad nm.
Proof.
  intros Hs Hd Hn. assert (Forall (fun c => c <> 0) (dir ++ 47 :: nm)) as Hall by (apply Forall_app_2; [done|by constructor]).
  unfold fmtname. cbv zeta. rewrite (strlen_text (dir ++ 47 :: nm)), (text_full _ Hall). rewrite (after_slash_found _ (length dir)).
  - replace (drop (S (length dir)) (dir ++ 47 :: nm)) with nm by (rewrite drop_app_ge, Nat.sub_succ_l, Nat.sub_diag by lia; done).
    rewrite (strlen_text nm), (text_full _ Hn). unfold pad. change (Z.to_nat DIRSIZ) with 14%nat.
    destruct (Nat.leb_spec 14 (length nm)); [|done]. by replace (14 - length nm)%nat with 0%nat by lia; rewrite app_nil_r.
  - rewrite length_app. simpl. lia.
  - by apply list_lookup_middle.
  - intros j Hj E. rewrite lookup_app_r in E by lia. destruct (j - length dir)%nat as [|m] eqn:Em; [lia|].
    apply Hs. by eapply list_elem_of_lookup_2.
Qed.

Definition entry_bytes (e : Z * list Z) : list Z := le_bytes 2 (fst e) ++ snd e.

(** The line for an entry of the directory [dir]. *)
Definition ls_line (w : world) (dir : list Z) (e : Z * list Z) : list Z :=
  let nm := text (snd e) in
  let path := dir ++ 47 :: nm in
  if fst e =? 0 then [] else
  match w_files w !! path with
  | None => bytes_of "ls: cannot stat " ++ path ++ [10]
  | Some _ => let st := get_ustat (w_stat w path) in
      pad nm ++ [32] ++ decimal (st_type st) ++ [32] ++ decimal (st_ino st) ++ [32] ++ decimal (st_size st) ++ [10]
  end.

Definition entry_ok (e : Z * list Z) : Prop := 0 <= fst e < 2 ^ 16 /\ length (snd e) = 14%nat /\ 47 ∉ text (snd e).

(** [stat] of a path. *)
Lemma stat_path path w (Q : option (Z * ustat) -> world -> Prop) : text path = path ->
  match w_files w !! path with
  | None => Q (Some (-1, get_ustat [])) w
  | Some _ => Q (Some (0, get_ustat (w_stat w path))) w
  end -> run act (stat path) w Q.
Proof.
  intros Ht HQ. cbn [stat val mbind prog_bind run act]. rewrite Ht. destruct (w_files w !! path) as [bs|].
  - intros fd Hfd Hnew. cbn [mbind prog_bind r_val]. destruct (Z.ltb_spec fd 0); [lia|]. cbn [sys mbind prog_bind run act w_fds set_fds].
    rewrite lookup_insert_eq. cbn [run act mbind prog_bind w_fds set_fds r_val r_data mret prog_ret]. rewrite delete_insert_id by done. by destruct w.
  - exact HQ.
Qed.

Lemma take_first e es : length (entry_bytes e) = 16%nat -> take 16 (concat (entry_bytes <$> e :: es)) = entry_bytes e /\
  drop 16 (concat (entry_bytes <$> e :: es)) = concat (entry_bytes <$> es).
Proof.
  intros H. cbn [fmap list_fmap concat]. rewrite <-H. by rewrite take_app_length, drop_app_length.
Qed.

Lemma ls_entries_list dir fd : Forall (fun c => c <> 0) dir -> forall es rounds w (Q : option unit -> world -> Prop),
  Forall entry_ok es -> (length es <= rounds)%nat -> w_fds w !! fd = Some (File dir, concat (entry_bytes <$> es)) ->
  Q (Some tt) (printed (each 1 (concat (ls_line w dir <$> es))) (drained fd w)) ->
  run act (ls_entries rounds fd (dir ++ [47])) w Q.
Proof.
  intros Hdir. induction es as [|e es IH]; intros rounds w Q Hok Hr Hfd HQ.
  - assert (run act (ls_entries rounds fd (dir ++ [47])) w Q) as Hd; [|done].
    destruct rounds; cbn [ls_entries sys mbind prog_bind run act]; rewrite Hfd; intros j ->; cbn [mbind prog_bind r_val]; change (Z.of_nat _ =? 16) with false; cbn [negb mret prog_ret run];
      rewrite printed_nil in HQ; unfold drained in HQ; rewrite Hfd in HQ; exact HQ.
  - apply list.Forall_cons in Hok as [(Hn & Hl & Hs) Hok]. assert (length (entry_bytes e) = 16%nat) as H16 by (unfold entry_bytes; by rewrite length_app, length_le_bytes, Hl).
    destruct (take_first e es H16) as [Et Ed]. destruct rounds as [|rounds]; [simpl in Hr; lia|]. cbn [ls_entries sys mbind prog_bind run act]. rewrite Hfd. intros j Hj.
    assert (j = 16%nat) as -> by (cbn [may_read fmap list_fmap concat] in Hj; rewrite length_app, H16 in Hj; lia). cbn [mbind prog_bind r_val r_data]. change (negb (Z.of_nat 16 =? 16)) with false. cbv iota.
    rewrite Et, Ed. set (w1 := set_fds (<[fd := (File dir, concat (entry_bytes <$> es))]> (w_fds w)) w).
    assert (half_at (entry_bytes e) 0 = fst e) as ->.
    { unfold half_at, entry_bytes. change (slice (le_bytes 2 e.1 ++ e.2) 0 2) with (le_bytes 2 e.1). rewrite le_val_bytes. by apply Z.mod_small. }
    assert (forall ws, Q (Some tt) (printed (each 1 (concat (ls_line w dir <$> es))) (drained fd (printed ws w1))) ->
      run act (ls_entries rounds fd (dir ++ [47])) (printed ws w1) Q) as Hnext.
    { intros ws HQ'. apply IH; [done|simpl in Hr; lia|by cbn; rewrite lookup_insert_eq|exact HQ']. }
    assert (forall ws, drained fd (printed ws w1) = printed ws (drained fd w)) as Edr.
    { intros ws. unfold w1. rewrite <-Ed. by apply drained_step. }
    cbn [fmap list_fmap concat] in HQ. unfold ls_line at 1 in HQ. destruct (Z.eqb_spec (fst e) 0) as [E0|E0].
    + specialize (Hnext []). rewrite printed_nil in Hnext. apply Hnext. specialize (Edr []). rewrite !printed_nil in Edr. by rewrite Edr.
    + replace (slice (entry_bytes e) 2 (Z.to_nat DIRSIZ)) with (snd e).
      2:{ unfold slice, entry_bytes. rewrite drop_app_ge by (by rewrite length_le_bytes). rewrite length_le_bytes, Nat.sub_diag, drop_0. symmetry. apply take_ge. by rewrite Hl. }
      rewrite text_app by (apply Forall_app_2; [done|by constructor]). rewrite <-app_assoc. cbn [app].
      set (nm := text (snd e)) in *. assert (Forall (fun c => c <> 0) nm) as Hnm by apply text_nonzero.
      assert (text (dir ++ 47 :: nm) = dir ++ 47 :: nm) as Htp by (apply text_full, Forall_app_2; [done|by constructor]).
      apply wrun_bind, stat_path; [done|]. change (w_files w1) with (w_files w). change (w_stat w1) with (w_stat w).
      destruct (w_files w !! (dir ++ 47 :: nm)); cbn [andthen].
      * change (0 <? 0) with false. cbv iota. apply wrun_bind. unfold say_stat. eapply wrun_say; [reflexivity|]. cbn [andthen]. apply Hnext.
        rewrite Edr, printed_printed, <-each_app. rewrite fmtname_last by done. exact HQ.
      * change (-1 <? 0) with true. cbv iota. apply wrun_bind. eapply wrun_say; [reflexivity|]. cbn [andthen]. apply Hnext.
        rewrite Edr, printed_printed, <-each_app. exact HQ.
Qed.

(** C22. ls of a directory.  For every entry in use it writes a line with the name
    in a column of fourteen characters and the type, inode number and size that
    [stat] reports for it, or a message when it cannot be opened; the descriptors
    are as before. *)
Theorem ls_lists rounds path es w
    (Hd : w_files w !! text path = Some (concat (entry_bytes <$> es))) (Ht : st_type (get_ustat (w_stat w (text path))) = T_DIR)
    (Hl : (length (text path) + 16 <= 512)%nat) (Hok : Forall entry_ok es) (Hr : (length es <= rounds)%nat) :
  run act (ls rounds path) w (fun o w' => o = Some tt /\ w_fds w' = w_fds w /\
    output 1 w' = output 1 w ++ (u8 <$> concat (ls_line w (text path) <$> es))).
Proof.
  cbn [ls val mbind prog_bind run act]. rewrite Hd. intros fd Hfd Hnew. cbn [mbind prog_bind r_val]. destruct (Z.ltb_spec fd 0); [lia|].
  cbn [sys mbind prog_bind run act w_fds set_fds]. rewrite lookup_insert_eq. cbn [mbind prog_bind r_val r_data w_stat set_fds]. change (0 <? 0) with false. cbv iota.
  rewrite Ht. change (T_DIR =? T_FILE) with false. change (T_DIR =? T_DIR) with true. cbv iota. apply wrun_bind.
  rewrite strlen_text. change (Z.to_nat DIRSIZ) with 14%nat. destruct (Nat.ltb_spec 512 (length (text path) + 1 + 14 + 1)); [lia|].
  set (w1 := set_fds _ w). apply (ls_entries_list _ _ (text_nonzero path) es); [done|done|by cbn; rewrite lookup_insert_eq|].
  cbn [andthen sys mbind prog_bind run act mret prog_ret]. unfold w1. rewrite open_used by done. split; [done|]. split; [done|].
  by rewrite output_each.
Qed.

(** ** Small worlds *)

Definition world_ab : world :=
  mkWorld {[ 0 := (Stream, bytes_of "to be") ]} {[ bytes_of "a" := bytes_of "one two"; bytes_of "b" := [10] ]} (fun _ => []) [].

Lemma cat_copies_witness :
  run act (cat_main 10 [bytes_of "cat"; bytes_of "a"; bytes_of "b"]) world_ab (fun o w' => o = None /\ output 1 w' = bytes_of "one two" ++ [10]).
Proof.
  eapply wrun_mono; [|apply (cat_copies 10 (bytes_of "cat") [bytes_of "a"; bytes_of "b"] world_ab)].
  - intros o w' (-> & E & _). split; [done|]. rewrite E. by vm_compute.
  - apply map_Forall_to_list. vm_compute. repeat constructor.
  - apply map_Forall_to_list. vm_compute. repeat constructor.
Defined.

Lemma wc_counts_witness :
  run act (wc_main 10 [bytes_of "wc"]) world_ab (fun o w' => o = None /\ output 1 w' = bytes_of "0 2 5 " ++ [10]).
Proof.
  eapply wrun_mono; [|apply (wc_counts 10 (bytes_of "wc") [] world_ab (bytes_of "to be"))].
  - intros o w' (-> & _ & E). split; [done|]. rewrite E. by vm_compute.
  - apply map_Forall_insert_2; [|apply map_Forall_singleton]; (split; [simpl; lia|done]).
  - split; [simpl; lia|done].
  - intros _. by exists Stream.
Defined.

(** A directory with an entry not in use, a file and a name that is gone. *)
Definition entries_ls : list (Z * list Z) :=
  [(0, replicate 14 0); (7, bytes_of "x" ++ replicate 13 0); (8, bytes_of "y" ++ replicate 13 0)].

Definition world_ls : world :=
  mkWorld ∅ {[ bytes_of "d" := concat (entry_bytes <$> entries_ls); bytes_of "d/x" := [] ]}
    (fun p => if decide (p = bytes_of "d") then le_bytes 2 1 ++ replicate 18 0 else le_bytes 2 2 ++ replicate 6 0 ++ le_bytes 4 7 ++ replicate 4 0 ++ le_bytes 4 30) [].

Lemma ls_lists_witness :
  run act (ls 3 (bytes_of "d")) world_ls (fun o w' => o = Some tt /\
    output 1 w' = bytes_of "x              2 7 30" ++ [10] ++ bytes_of "ls: cannot stat d/y" ++ [10]).
Proof.
  eapply wrun_mono; [|apply (ls_lists 3 (bytes_of "d") entries_ls world_ls)].
  - intros o w' (-> & _ & E). split; [done|]. rewrite E. by vm_compute.
  - by vm_compute.
  - by vm_compute.
  - vm_compute. lia.
  - repeat constructor; try (vm_compute; congruence); vm_compute; set_solver.
  - simpl. lia.
Defined.
