(* ===== verification/Grep.v ===== *)
(** * grep (grep.c)

    The matcher works on strings without nulls, [[]] standing for the pointer
    to the terminating null.  The main loop keeps the buffer of 1024 bytes, the
    number [m] of bytes in it, and the descriptors of Ulib.v. *)

From S2P Require Import Prelude Ulib.

(** ** The matcher *)

(** [matchstar(c, re, text)], with [here] for [matchhere(re, .)]. *)
(* grep.c 99-106: matchstar *)
Fixpoint matchstar (c : Z) (here : list Z -> bool) (text : list Z) : bool :=
  if here text then true else
  match text with
  | [] => false
  | t :: text' => if (t =? c) || (c =? 46) then matchstar c here text' else false
  end.

(* grep.c 84-96: matchhere *)
Fixpoint matchhere (re text : list Z) : bool :=
  match re with
  | [] => true
  | c :: re1 =>
      match re1 with
      | 42 :: re2 => matchstar c (matchhere re2) text
      | _ =>
          if (c =? 36) && match re1 with [] => true | _ => false end
          then match text with [] => true | _ => false end
          else match text with
               | [] => false
               | t :: text' => if (c =? 46) || (c =? t) then matchhere re1 text' else false
               end
      end
  end.

(** The loop over the places of the text, its end included. *)
(* grep.c 76-79: match *)
Fixpoint match_from (re text : list Z) : bool :=
  if matchhere re text then true else
  match text with
  | [] => false
  | _ :: text' => match_from re text'
  end.

(* grep.c 71-81: match *)
Definition match_ (re text : list Z) : bool :=
  match re with
  | 94 :: re' => matchhere re' text
  | _ => match_from re text
  end.

(** ** The main loop *)

Record gstate : Type := mkG {
  g_buf : list Z;
  g_m : nat;
  g_io : uio
}.

(** The lines of the buffer from [p] on: matching ones are written.  The result
    is the buffer and [p] after the last newline. *)
(* grep.c 21-28: grep *)
Fixpoint grep_lines (fuel : nat) (pattern buf : list Z) (p : nat) : M uio (list Z * nat) :=
  match strchr (drop p buf) 10 with
  | None => ret (buf, p)
  | Some d =>
      match fuel with
      | O => fun u => NoFuel u
      | S fuel' =>
          let q := (p + d)%nat in
          let buf0 := <[q := 0]> buf in
          if match_ pattern (text (drop p buf0)) then
            let buf1 := <[q := 10]> buf0 in
            write 1 (take (q + 1 - p) (drop p buf1)) ;;
            grep_lines fuel' pattern buf1 (q + 1)
          else grep_lines fuel' pattern buf0 (q + 1)
      end
  end.

(** [read(fd, buf + m, ...)] stores what it returns. *)
Definition store_at (buf : list Z) (m : nat) (bs : list Z) : list Z := take m buf ++ bs ++ drop (m + length bs) buf.

(** One pass of the outer loop; [false] when the input is at its end. *)
(* grep.c 17-34: grep *)
Definition grep_pass (pattern : list Z) : M gstate bool := fun s =>
  match read (1024 - g_m s - 1) (g_io s) with
  | Done bs u =>
      match bs with
      | [] => Done false (mkG (g_buf s) (g_m s) u)
      | _ =>
          let m := (g_m s + length bs)%nat in
          let buf := <[m := 0]> (store_at (g_buf s) (g_m s) bs) in
          match grep_lines (S (length buf)) pattern buf 0 u with
          | Done (buf, p) u =>
              let m := if Nat.eqb p 0 then 0%nat else m in
              if Nat.ltb 0 m
              then Done true (mkG (memmove buf 0 p (m - p)) (m - p) u)
              else Done true (mkG buf m u)
          | NoFuel u => NoFuel (mkG buf m u)
          | _ => Undef "grep_lines" s
          end
      end
  | _ => Undef "read" s
  end.

(* grep.c 10-35: grep *)
Fixpoint grep_loop (fuel : nat) (pattern : list Z) : M gstate unit :=
  match fuel with
  | O => fun s => NoFuel s
  | S n => more <- grep_pass pattern ;; if (more : bool) then grep_loop n pattern else ret tt
  end.

(** [input] is what arrives on the descriptor; [m] starts at 0 and the buffer is
    as the last call left it.  Every pass but the last takes at least one of the
    bytes that arrive. *)
(* grep.c 10-35: grep *)
Definition grep (pattern : list Z) (input : list (list Z)) : M gstate unit :=
  modify (fun s => mkG (g_buf s) 0 (set_arrived input (g_io s))) ;;
  grep_loop (S (length (concat input) + length input)) pattern.

(** The library's routines see the descriptors only. *)
Definition on_io {A} (m : M uio A) : M gstate A := fun s =>
  match m (g_io s) with
  | Done a u => Done a (mkG (g_buf s) (g_m s) u)
  | Undef w u => Undef w (mkG (g_buf s) (g_m s) u)
  | _ => Undef "on_io" s
  end.

(** [files]: what a file that can be opened contains; a call of [exit] returns. *)
(* grep.c 53-61: main *)
Fixpoint grep_files (pattern : list Z) (files : list Z -> option (list (list Z))) (names : list (list Z)) : M gstate unit :=
  match names with
  | [] => ret tt
  | nm :: names' =>
      match files nm with
      | None => on_io (printf 1 "grep: cannot open %s" [UStr (Some nm)] ;; putc 1 10)
      | Some input => grep pattern input ;; grep_files pattern files names'
      end
  end.

(** The newline of a message is written by [putc]; the format strings have no
    escapes. *)
(* grep.c 37-62: main *)
Definition main (argv : list (list Z)) (stdin : list (list Z)) (files : list Z -> option (list (list Z))) : M gstate unit :=
  match argv with
  | [] | [_] => on_io (printf 2 "usage: grep pattern [file ...]" [] ;; putc 2 10)
  | [_; pattern] => grep pattern stdin
  | _ :: pattern :: names => grep_files pattern files names
  end.

(** The buffer is [static]: it starts with zeros. *)
Definition g_start : gstate := mkG (replicate 1024 0) 0 (mkUio [] []).

(** ** What patterns mean *)

(** An element of a pattern: one character, or any number of one. *)
Inductive atom : Type :=
| One (c : Z)
| Star (c : Z).

(** The elements, and whether the pattern ends in [$]. *)
Fixpoint parse (re : list Z) : list atom * bool :=
  match re with
  | [] => ([], false)
  | c :: re1 =>
      match re1 with
      | 42 :: re2 => let (l, e) := parse re2 in (Star c :: l, e)
      | [] => if c =? 36 then ([], true) else ([One c], false)
      | _ => let (l, e) := parse re1 in (One c :: l, e)
      end
  end.

(** The dot stands for every character. *)
Definition like_char (c t : Z) : Prop := c = 46 \/ c = t.

Definition atom_lang (a : atom) (w : list Z) : Prop :=
  match a with
  | One c => exists t, w = [t] /\ like_char c t
  | Star c => Forall (like_char c) w
  end.

Fixpoint lang (l : list atom) (w : list Z) : Prop :=
  match l with
  | [] => w = []
  | a :: l' => exists w1 w2, w = w1 ++ w2 /\ atom_lang a w1 /\ lang l' w2
  end.

(** The text starts with a word of the pattern, or is one when it ends in [$]. *)
Definition starts (re text : list Z) : Prop :=
  exists w rest, text = w ++ rest /\ lang (fst (parse re)) w /\ (snd (parse re) = true -> rest = []).

(** A match anywhere, or at the start of the line after [^]. *)
Definition matches (re text : list Z) : Prop :=
  match re with
  | 94 :: re' => starts re' text
  | _ => exists before after, text = before ++ after /\ starts re after
  end.

(** ** The matcher is right *)

Lemma matchstar_spec c here text :
  matchstar c here text = true <-> exists w rest, text = w ++ rest /\ Forall (like_char c) w /\ here rest = true.
Proof.
  induction text as [|t text IH]; cbn [matchstar]; destruct (here _) eqn:E.
  - split; [|done]. intros _. by exists [], [].
  - split; [done|]. intros (w & rest & Ht & _ & H). symmetry in Ht. apply app_nil in Ht as [-> ->]. congruence.
  - split; [|done]. intros _. by exists [], (t :: text).
  - destruct ((t =? c) || (c =? 46)) eqn:El.
    + rewrite IH. split.
      * intros (w & rest & -> & Hw & H). exists (t :: w), rest. split; [done|]. split; [|done]. constructor; [|done]. unfold like_char. lia.
      * intros (w & rest & Ht & Hw & H). destruct w as [|x w]; [simpl in Ht; congruence|]. injection Ht as <- ->.
        inversion_clear Hw. by exists w, rest.
    + split; [done|]. intros (w & rest & Ht & Hw & H). destruct w as [|x w]; [simpl in Ht; congruence|]. injection Ht as <- ->.
      inversion_clear Hw as [|? ? Hx _]. unfold like_char in Hx. lia.
Qed.

(** One step of the pattern. *)
Lemma starts_star c re text :
  starts (c :: 42 :: re) text <-> exists w rest, text = w ++ rest /\ Forall (like_char c) w /\ starts re rest.
Proof.
  unfold starts. cbn [parse]. destruct (parse re) as [l e]. cbn [fst snd lang atom_lang]. split.
  - intros (w & rest & -> & (w1 & w2 & -> & H1 & H2) & He). exists w1, (w2 ++ rest). rewrite app_assoc. split; [done|]. split; [done|].
    by exists w2, rest.
  - intros (w1 & r1 & -> & H1 & (w2 & rest & -> & H2 & He)). exists (w1 ++ w2), rest. rewrite app_assoc. split; [done|].
    split; [|done]. by exists w1, w2.
Qed.

Lemma starts_one c re text :
  hd 0 re <> 42 -> (c = 36 -> re <> []) ->
  starts (c :: re) text <-> exists t text', text = t :: text' /\ like_char c t /\ starts re text'.
Proof.
  intros Hre Hc.
  assert (parse (c :: re) = let (l, e) := parse re in (One c :: l, e)) as E.
  { destruct re as [|x re]; cbn [parse].
    - destruct (c =? 36) eqn:E; [apply Z.eqb_eq in E; by destruct (Hc E)|done].
    - simpl in Hre. destruct x as [|p|p]; try done. do 6 (destruct p as [p|p|]; try done). }
  unfold starts. rewrite E. destruct (parse re) as [l e]. cbn [fst snd lang atom_lang]. split.
  - intros (w & rest & -> & (w1 & w2 & -> & (t & -> & Ht) & H2) & He). exists t, (w2 ++ rest). split; [done|]. split; [done|].
    by exists w2, rest.
  - intros (t & ? & -> & Ht & (w2 & rest & -> & H2 & He)). exists (t :: w2), rest. split; [done|]. split; [|done].
    exists [t], w2. split; [done|]. split; [by exists t|done].
Qed.

Lemma matchhere_one c re text :
  hd 0 re <> 42 -> (c = 36 -> re <> []) ->
  matchhere (c :: re) text =
  match text with [] => false | t :: text' => if (c =? 46) || (c =? t) then matchhere re text' else false end.
Proof.
  intros Hre Hc. destruct re as [|x re].
  - cbn [matchhere]. destruct (c =? 36) eqn:E; [apply Z.eqb_eq in E; by destruct (Hc E)|done].
  - assert (forall b, (c =? 36) && false = b -> b = false) as Hb by (intros b <-; apply andb_false_r).
    simpl in Hre. cbn [matchhere]. rewrite andb_false_r.
    destruct x as [|p|p]; try done. do 6 (destruct p as [p|p|]; try done).
Qed.

Lemma matchhere_spec re text : matchhere re text = true <-> starts re text.
Proof.
  remember (length re) as n eqn:Hn. assert (length re <= n)%nat as Hle by lia. clear Hn. revert re text Hle.
  induction n as [|n IH]; intros re text Hle; (destruct re as [|c re]; [split; [intros _; by exists [], text|done]|]); [simpl in Hle; lia|].
  simpl in Hle. destruct (decide (hd 0 re = 42)) as [E42|N42].
  - destruct re as [|x re]; [done|]. simpl in E42. subst x. rewrite starts_star.
    change (matchhere (c :: 42 :: re) text) with (matchstar c (matchhere re) text). rewrite matchstar_spec.
    split; intros (w & rest & -> & Hw & H); exists w, rest; (split; [done|]; split; [done|]); apply IH; simpl in Hle; (lia || done).
  - destruct (decide (c = 36 /\ re = [])) as [[-> ->]|Hnd].
    + destruct text as [|t text]; [split; [intros _; by exists [], []|done]|]. split; [done|].
      intros (w & rest & Ht & Hw & He). simpl in Hw, He. subst w. simpl in Ht. rewrite He in Ht by done. done.
    + assert (c = 36 -> re <> []) as Hc by (intros -> ->; by apply Hnd). rewrite matchhere_one, starts_one by done. split.
      * destruct text as [|t text]; [done|]. destruct ((c =? 46) || (c =? t)) eqn:E; [|done]. intros H. exists t, text.
        split; [done|]. split; [unfold like_char; lia|]. apply IH; [lia|done].
      * intros (t & text' & -> & Ht & H). unfold like_char in Ht. replace ((c =? 46) || (c =? t)) with true by lia. apply IH; [lia|done].
Qed.

Lemma match_from_spec re text :
  match_from re text = true <-> exists before after, text = before ++ after /\ starts re after.
Proof.
  induction text as [|t text IH]; cbn [match_from]; destruct (matchhere re _) eqn:E.
  - split; [|done]. intros _. exists [], []. split; [done|]. by apply matchhere_spec.
  - split; [done|]. intros (b & a & Ht & H). symmetry in Ht. apply app_nil in Ht as [-> ->]. apply matchhere_spec in H. congruence.
  - split; [|done]. intros _. exists [], (t :: text). split; [done|]. by apply matchhere_spec.
  - rewrite IH. split.
    + intros (b & a & -> & H). by exists (t :: b), a.
    + intros (b & a & Ht & H). destruct b as [|x b]; [simpl in Ht; subst a; apply matchhere_spec in H; congruence|].
      injection Ht as <- ->. by exists b, a.
Qed.

(** C35. The matcher of grep accepts exactly the lines that contain a word of the
    pattern: its recursion over pattern and text, with the loops for [*] and for
    the start of the match, computes the language of the pattern. *)
Theorem match_language re text : match_ re text = true <-> matches re text.
Proof.
  unfold match_, matches. destruct re as [|x re]; [apply match_from_spec|].
  destruct (decide (x = 94)) as [->|Hx]; [apply matchhere_spec|].
  destruct x as [|p|p]; try apply match_from_spec. do 7 (destruct p as [p|p|]; try apply match_from_spec). done.
Qed.

(** ** The loop over the input *)

(** The complete lines of a text, and what follows the last newline. *)
Fixpoint split_lines (s : list Z) : list (list Z) * list Z :=
  match s with
  | [] => ([], [])
  | c :: s' =>
      let (ls, r) := split_lines s' in
      if c =? 10 then ([] :: ls, r)
      else match ls with [] => ([], c :: r) | l :: ls' => ((c :: l) :: ls', r) end
  end.

(** What grep should write for a text. *)
Definition selected (pattern s : list Z) : list Z :=
  concat ((fun l => if match_ pattern l then l ++ [10] else []) <$> fst (split_lines s)).

Lemma split_lines_none s : 10 ∉ s -> split_lines s = ([], s).
Proof.
  induction s as [|c s IH]; intros H; simpl; [done|]. rewrite IH by set_solver.
  destruct (c =? 10) eqn:E; [|done]. apply Z.eqb_eq in E. set_solver.
Qed.

Lemma split_lines_app a b : 10 ∉ a -> split_lines (a ++ 10 :: b) = (a :: fst (split_lines b), snd (split_lines b)).
Proof.
  induction a as [|c a IH]; intros H; simpl.
  - by destruct (split_lines b).
  - rewrite IH by set_solver. destruct (c =? 10) eqn:E; [apply Z.eqb_eq in E; set_solver|done].
Qed.

(** The rest of a text is the start of what comes next. *)
Lemma split_lines_cat a b :
  split_lines (a ++ b) = (fst (split_lines a) ++ fst (split_lines (snd (split_lines a) ++ b)), snd (split_lines (snd (split_lines a) ++ b))).
Proof.
  induction a as [|c a IH]; simpl; [by destruct (split_lines b)|]. rewrite IH. destruct (split_lines a) as [ls r]. cbn [fst snd].
  destruct (split_lines (r ++ b)) as [ls2 r2] eqn:E. cbn [fst snd]. destruct (c =? 10) eqn:Ec; cbn [fst snd].
  - by rewrite E.
  - destruct ls as [|l ls]; cbn [fst snd app].
    + simpl. rewrite E, Ec. by destruct ls2.
    + by rewrite E.
Qed.

Lemma selected_cat pattern a b :
  selected pattern (a ++ b) = selected pattern a ++ selected pattern (snd (split_lines a) ++ b).
Proof. unfold selected. rewrite split_lines_cat. cbn [fst]. by rewrite fmap_app, concat_app. Qed.

(** The text is its lines up to the last newline, and the rest. *)
Lemma split_lines_rest s :
  (length (snd (split_lines s)) <= length s)%nat /\ drop (length s - length (snd (split_lines s))) s = snd (split_lines s) /\
  (10 ∈ s <-> (length (snd (split_lines s)) < length s)%nat).
Proof.
  induction s as [|c s (IH1 & IH2 & IH3)]; simpl; [set_solver by lia|]. rewrite elem_of_cons.
  destruct (split_lines s) as [ls r] eqn:Es. cbn [snd] in *.
  destruct (c =? 10) eqn:E; [|destruct ls as [|l ls]]; cbn [snd length].
  - apply Z.eqb_eq in E as ->. split; [lia|]. split; [|split; [lia|by left]].
    by replace (S (length s) - length r)%nat with (S (length s - length r)) by lia.
  - assert (10 ∉ s) as Hn.
    { intros Hin. apply list_elem_of_split in Hin as (a & b & ->).
      destruct (decide (10 ∈ a)) as [Ha|Ha].
      - revert Es. clear. revert r. induction a as [|x a IH]; intros r Es; simpl in Es.
        + destruct (split_lines b). done.
        + destruct (split_lines (a ++ 10 :: b)) as [ls' r'] eqn:E'. destruct (x =? 10); [done|].
          destruct ls'; [by apply (IH r')|done].
      - rewrite split_lines_app in Es by done. done. }
    rewrite split_lines_none in Es by done. injection Es as <-. split; [lia|].
    replace (S (length s) - S (length s))%nat with 0%nat by lia. split; [done|]. split; [|lia]. intros [?|?]; [lia|done].
  - split; [lia|]. replace (S (length s) - length r)%nat with (S (length s - length r)) by lia. split; [done|].
    split; [lia|]. intros _. right. apply IH3. destruct (decide (10 ∈ s)) as [Hin|Hn]; [by apply IH3|].
    rewrite split_lines_none in Es by done. done.
Qed.

(** ** One buffer *)

Lemma strchr_stop s j : 0 ∉ s -> strchr (s ++ 0 :: j) 10 = strchr s 10.
Proof.
  induction s as [|c s IH]; intros H; simpl; [done|]. rewrite IH by set_solver. done.
Qed.

Lemma strchr_first a b : 0 ∉ a -> 10 ∉ a -> strchr (a ++ 10 :: b) 10 = Some (length a).
Proof.
  induction a as [|c a IH]; intros H0 H10; simpl; [done|]. rewrite IH by set_solver.
  replace (nz c) with true by (unfold nz; destruct (c =? 0) eqn:E; [apply Z.eqb_eq in E; set_solver|done]).
  destruct (c =? 10) eqn:E; [apply Z.eqb_eq in E; set_solver|done].
Qed.

Lemma text_cut a b : 0 ∉ a -> text (a ++ 0 :: b) = a.
Proof.
  intros H. unfold text. induction a as [|c a IH]; simpl; [done|].
  replace (nz c) with true by (unfold nz; destruct (c =? 0) eqn:E; [apply Z.eqb_eq in E; set_solver|done]).
  simpl. rewrite IH by set_solver. done.
Qed.

Lemma insert_mid {A} (pre : list A) x y b : <[length pre := y]> (pre ++ x :: b) = pre ++ y :: b.
Proof. rewrite insert_app_r_alt by lia. by rewrite Nat.sub_diag. Qed.

(** The first newline. *)
Lemma first_newline s : 10 ∈ s -> exists a b, s = a ++ 10 :: b /\ 10 ∉ a.
Proof.
  induction s as [|c s IH]; intros H; [set_solver|]. destruct (decide (c = 10)) as [->|Hc]; [exists [], s; set_solver|].
  destruct IH as (a & b & -> & Ha); [set_solver|]. exists (c :: a), b. set_solver.
Qed.

(** A line is written or not, and the search goes on after it. *)
Lemma grep_line_step fuel pattern pre a rest u :
  0 ∉ a -> 10 ∉ a ->
  grep_lines (S fuel) pattern (pre ++ a ++ 10 :: rest) (length pre) u =
  if match_ pattern a
  then grep_lines fuel pattern ((pre ++ a ++ [10]) ++ rest) (length (pre ++ a ++ [10])) (set_written (written u ++ [(1, a ++ [10])]) u)
  else grep_lines fuel pattern ((pre ++ a ++ [0]) ++ rest) (length (pre ++ a ++ [10])) u.
Proof.
  intros H0 H10. cbn [grep_lines]. rewrite drop_app_length, strchr_first by done. cbv zeta.
  assert (forall x y, <[(length pre + length a)%nat := y]> (pre ++ a ++ x :: rest) = pre ++ a ++ y :: rest) as Hins.
  { intros x y. rewrite <- length_app, !(app_assoc pre a). apply insert_mid. }
  rewrite !Hins, drop_app_length, text_cut by done.
  assert (forall x, (pre ++ a ++ [x]) ++ rest = pre ++ a ++ x :: rest) as Hx by (intros x; by rewrite <- !app_assoc).
  assert (length (pre ++ a ++ [10]) = (length pre + length a + 1)%nat) as El by (rewrite !length_app; simpl; lia).
  rewrite !Hx, El. destruct (match_ pattern a); [|done]. unfold write. rewrite bind_eq, modify_eq. cbn [res_bind].
  do 4 f_equal. rewrite drop_app_length. replace (length pre + length a + 1 - length pre)%nat with (length (a ++ [10])) by (rewrite length_app; simpl; lia).
  replace (a ++ 10 :: rest) with ((a ++ [10]) ++ rest) by (by rewrite <- app_assoc). by rewrite take_app_length.
Qed.

(** The lines of the buffer are looked at, and the rest is what follows them. *)
Lemma grep_lines_spec fuel pattern pre s junk u :
  0 ∉ s -> (length s <= fuel)%nat ->
  exists buf p u', grep_lines fuel pattern (pre ++ s ++ 0 :: junk) (length pre) u = Done (buf, p) u' /\
    p = (length pre + (length s - length (snd (split_lines s))))%nat /\
    length buf = length (pre ++ s ++ 0 :: junk) /\ drop p buf = snd (split_lines s) ++ 0 :: junk /\
    out_of 1 u' = out_of 1 u ++ selected pattern s /\ arrived u' = arrived u.
Proof.
  revert pre s u. induction fuel as [|fuel IH]; intros pre s u H0 Hf; destruct (decide (10 ∈ s)) as [Hin|Hn].
  - destruct s; [set_solver|simpl in Hf; lia].
  - destruct s as [|c s]; [|simpl in Hf; lia]. exists (pre ++ 0 :: junk), (length pre), u. cbn [grep_lines app].
    rewrite drop_app_length. simpl. split; [done|]. split; [lia|]. split; [done|]. split; [done|]. split; [by rewrite app_nil_r|done].
  - destruct (first_newline s Hin) as (a & b & -> & Ha). rewrite length_app in Hf. simpl in Hf.
    rewrite <- (app_assoc a). cbn [app]. rewrite grep_line_step by set_solver. rewrite split_lines_app by done. cbn [snd].
    pose proof (split_lines_rest b) as (Hr & _ & _).
    assert (forall x u1, exists buf p u', grep_lines fuel pattern ((pre ++ a ++ [x]) ++ b ++ 0 :: junk) (length (pre ++ a ++ [10])) u1 = Done (buf, p) u' /\
      p = (length pre + (length (a ++ 10%Z :: b) - length (snd (split_lines b))))%nat /\
      length buf = length (pre ++ a ++ 10 :: b ++ 0 :: junk) /\ drop p buf = snd (split_lines b) ++ 0 :: junk /\
      out_of 1 u' = out_of 1 u1 ++ selected pattern b /\ arrived u' = arrived u1) as Hrec.
    { intros x u1. destruct (IH (pre ++ a ++ [x]) b u1) as (buf & p & u' & E & Ep & Elen & Ed & Eo & Ear); [set_solver|lia|].
      exists buf, p, u'. split; [rewrite !length_app in E |- *; exact E|].
      split; [rewrite Ep, !length_app; simpl; lia|]. split; [rewrite Elen, !length_app; simpl; rewrite !length_app; simpl; lia|]. done. }
    assert (selected pattern (a ++ 10 :: b) = (if match_ pattern a then a ++ [10] else []) ++ selected pattern b) as ->
      by (unfold selected; by rewrite split_lines_app).
    destruct (match_ pattern a).
    + destruct (Hrec 10 (set_written (written u ++ [(1, a ++ [10])]) u)) as (buf & p & u' & E & Ep & Elen & Ed & Eo & Ear).
      exists buf, p, u'. rewrite out_of_write, <- app_assoc in Eo. done.
    + destruct (Hrec 0 u) as (buf & p & u' & H). by exists buf, p, u'.
  - rewrite (split_lines_none s Hn). cbn [grep_lines]. rewrite drop_app_length, strchr_stop by done. replace (strchr s 10) with (@None nat).
    2:{ symmetry. apply strchr_None; [|done]. apply list.Forall_forall. intros x Hx ->. done. }
    exists (pre ++ s ++ 0 :: junk), (length pre), u. cbn [snd]. rewrite drop_app_length, Nat.sub_diag, Nat.add_0_r.
    unfold selected. rewrite (split_lines_none s Hn). cbn. rewrite app_nil_r. done.
Qed.

(** ** The whole input *)

(** [r] is kept in the buffer, [cs] is to be read, [out] has been written. *)
Record ready (r : list Z) (cs : list (list Z)) (out : list Z) (s : gstate) : Prop := {
  re_len : length (g_buf s) = 1024%nat;
  re_m : g_m s = length r;
  re_rest : take (length r) (g_buf s) = r;
  re_arrived : arrived (g_io s) = cs;
  re_out : out_of 1 (g_io s) = out
}.

(** What is kept: a buffer without a newline is dropped. *)
Definition kept (s : list Z) : list Z := if decide (10 ∈ s) then snd (split_lines s) else [].

Lemma read_buffer r c junk :
  length (r ++ junk) = 1024%nat -> (length r + length c <= 1023)%nat ->
  exists junk', <[(length r + length c)%nat := 0]> (store_at (r ++ junk) (length r) c) = r ++ c ++ 0 :: junk' /\
    length (r ++ c ++ 0 :: junk') = 1024%nat.
Proof.
  intros Hl Hc. unfold store_at. rewrite take_app_length. rewrite length_app in Hl.
  assert (drop (length r + length c) (r ++ junk) = drop (length c) junk) as Ed by (by rewrite <- drop_drop, drop_app_length).
  rewrite Ed. destruct (drop (length c) junk) as [|x j] eqn:E.
  { apply (f_equal length) in E. rewrite length_drop in E. simpl in E. lia. }
  exists j. rewrite (app_assoc r c), <- (length_app r c), insert_mid, <- app_assoc. split; [done|].
  apply (f_equal length) in E. rewrite length_drop in E. rewrite !length_app. simpl in *. lia.
Qed.

Lemma grep_pass_spec pattern r c cs out s :
  ready r (c :: cs) out s -> c <> [] -> 0 ∉ r -> 0 ∉ c -> (length r + length c <= 1023)%nat ->
  exists s', grep_pass pattern s = Done true s' /\ ready (kept (r ++ c)) cs (out ++ selected pattern (r ++ c)) s'.
Proof.
  intros [R1 R2 R3 R4 R5] Hne H0r H0c Hle. unfold grep_pass, read. rewrite bind_eq, gets_eq. cbn [res_bind].
  rewrite bind_eq, modify_eq. cbn [res_bind]. rewrite ret_eq, R4, R2. cbn [take_arrived fst snd].
  rewrite (take_ge c), (drop_ge c) by lia. cbv iota. destruct c as [|c0 c']; [done|]. set (c := c0 :: c') in *.
  set (u1 := set_arrived cs (g_io s)). rewrite <- (take_drop (length r) (g_buf s)), R3 in R1 |- *.
  destruct (read_buffer r c (drop (length r) (g_buf s)) R1 Hle) as (junk & -> & Hlen). cbv zeta.
  rewrite (app_assoc r c). set (t := r ++ c) in *. rewrite (app_assoc r c) in Hlen. fold t in Hlen.
  assert (length t = (length r + length c)%nat) as Ht by apply length_app. rewrite <- Ht.
  destruct (grep_lines_spec (S (length (t ++ 0 :: junk))) pattern [] t junk u1) as (buf & p & u' & E & Ep & Elen & Ed & Eo & Ear).
  { unfold t. set_solver. }
  { rewrite length_app. lia. }
  cbn [app length] in E, Ep, Elen. rewrite E. destruct (split_lines_rest t) as (Hr & Hd & Hin).
  assert (0 < length t)%nat as Hpos by (rewrite Ht; unfold c; simpl; lia). unfold kept. destruct (decide (10 ∈ t)) as [Hnl|Hnl].
  - apply Hin in Hnl. replace (p =? 0)%nat with false by (symmetry; apply Nat.eqb_neq; lia).
    replace (0 <? length t)%nat with true by (symmetry; apply Nat.ltb_lt; lia). eexists. split; [done|].
    assert (length t - p = length (snd (split_lines t)))%nat as El by lia.
    split; cbn [g_buf g_m g_io]; [by rewrite length_memmove, Elen|done| |done|rewrite Eo; unfold u1; by rewrite <- R5].
    rewrite El, memmove_front.
    + by rewrite Ed, take_app_length.
    + rewrite Elen, length_app. simpl. lia.
  - assert (p = 0%nat) as ->.
    { destruct (decide (length (snd (split_lines t)) < length t)%nat) as [Hlt|Hge]; [by apply Hin in Hlt|lia]. }
    cbn [Nat.eqb]. cbn [Nat.ltb Nat.leb]. eexists. split; [done|]. split; cbn [g_buf g_m g_io]; [by rewrite Elen|done|done|done|].
    rewrite Eo. unfold u1. by rewrite <- R5.
Qed.

(** The input as it arrives: each part has no null, contains a newline, and
    fits the buffer together with what is kept. *)
Fixpoint fits (r : list Z) (cs : list (list Z)) : Prop :=
  match cs with
  | [] => True
  | c :: cs' => 10 ∈ c /\ (0 ∉ c) /\ (length r + length c <= 1023)%nat /\ fits (snd (split_lines (r ++ c))) cs'
  end.

Lemma rest_nonzero s : 0 ∉ s -> 0 ∉ snd (split_lines s).
Proof.
  intros H. destruct (split_lines_rest s) as (_ & <- & _). set (n := (_ - _)%nat).
  rewrite <- (take_drop n s) in H. set_solver.
Qed.

Lemma rest_no_newline s : 10 ∉ snd (split_lines s).
Proof.
  induction s as [|c s IH]; simpl; [set_solver|]. destruct (split_lines s) as [ls r]. cbn [snd] in *.
  destruct (c =? 10) eqn:E; [done|]. destruct ls; [|done]. cbn [snd]. apply Z.eqb_neq in E. set_solver.
Qed.

Lemma grep_loop_spec pattern fuel cs r out s :
  fits r cs -> 0 ∉ r -> 10 ∉ r -> ready r cs out s -> (length cs < fuel)%nat ->
  exists s', grep_loop fuel pattern s = Done tt s' /\ out_of 1 (g_io s') = out ++ selected pattern (r ++ concat cs).
Proof.
  revert fuel r out s. induction cs as [|c cs IH]; intros fuel r out s Hf H0 H10 Hr Hfuel;
    (destruct fuel as [|fuel]; [simpl in Hfuel; lia|]); cbn [grep_loop]; rewrite bind_eq.
  - destruct Hr as [R1 R2 R3 R4 R5]. unfold grep_pass, read. rewrite bind_eq, gets_eq. cbn [res_bind].
    rewrite bind_eq, modify_eq. cbn [res_bind]. rewrite ret_eq, R4. cbn [take_arrived fst snd]. cbn [res_bind].
    eexists. split; [done|]. cbn [g_io concat]. unfold selected. rewrite app_nil_r, split_lines_none by done. cbn.
    by rewrite app_nil_r.
  - destruct Hf as (Hnl & Hz & Hle & Hf). cbn [concat].
    destruct (grep_pass_spec pattern r c cs out s Hr) as (s1 & E & Hr1); [by intros ->; apply elem_of_nil in Hnl|done|done|done|].
    rewrite E. cbn [res_bind]. unfold kept in Hr1. rewrite decide_True in Hr1 by set_solver.
    destruct (IH fuel _ (out ++ selected pattern (r ++ c)) s1 Hf) as (s' & E' & Ho); [apply rest_nonzero; set_solver|apply rest_no_newline|done|simpl in Hfuel; lia|].
    exists s'. split; [done|]. rewrite Ho, <- app_assoc, (app_assoc r c), (selected_cat pattern (r ++ c)). done.
Qed.

Lemma ready_start s cs : length (g_buf s) = 1024%nat -> ready [] cs (out_of 1 (g_io s)) (mkG (g_buf s) 0 (set_arrived cs (g_io s))).
Proof. by split. Qed.

(** C36. grep writes exactly the matching lines of its input, in order, however
    the input is cut into reads, as long as every read has a newline, there are
    no nulls and no line is longer than the buffer; it stops at the end of the
    input. *)
Theorem grep_selects pattern input s (Hs : length (g_buf s) = 1024%nat) (Hf : fits [] input) :
  exists s', grep pattern input s = Done tt s' /\ out_of 1 (g_io s') = out_of 1 (g_io s) ++ selected pattern (concat input).
Proof.
  unfold grep. rewrite bind_eq, modify_eq. cbn [res_bind].
  apply (grep_loop_spec pattern _ input []); [done|set_solver|set_solver|by apply ready_start|lia].
Qed.

(** A read without a newline is dropped: the line it begins is matched
    without it. *)
Theorem grep_drops_partial pattern c input s (Hs : length (g_buf s) = 1024%nat)
    (Hc : c <> []) (Hnl : 10 ∉ c) (Hz : 0 ∉ c) (Hlen : (length c <= 1023)%nat) (Hf : fits [] input) :
  exists s', grep pattern (c :: input) s = Done tt s' /\ out_of 1 (g_io s') = out_of 1 (g_io s) ++ selected pattern (concat input).
Proof.
  unfold grep. rewrite bind_eq, modify_eq. cbn [res_bind grep_loop]. rewrite bind_eq.
  destruct (grep_pass_spec pattern [] c input _ _ (ready_start s (c :: input) Hs) Hc) as (s1 & E & Hr1); [set_solver|done|simpl; lia|].
  rewrite E. cbn [res_bind]. unfold kept in Hr1. cbn [app] in Hr1. rewrite decide_False in Hr1 by done.
  unfold selected in Hr1. rewrite split_lines_none in Hr1 by done. cbn in Hr1. rewrite app_nil_r in Hr1.
  apply (grep_loop_spec pattern _ input []); [done|set_solver|set_solver|exact Hr1|]. cbn [concat length]. rewrite length_app. lia.
Qed.

(** Lines [ab] and [b] in two reads, cut inside the second line. *)
Definition input_ab : list (list Z) := [[97; 98; 10; 98]; [10; 99; 10]].

Lemma input_ab_fits : fits [] input_ab.
Proof. repeat split; simpl; try lia; set_solver. Qed.

Lemma grep_selects_witness :
  exists s, grep [94; 98] input_ab g_start = Done tt s /\ out_of 1 (g_io s) = [] ++ [98; 10].
Proof. exact (grep_selects [94; 98] input_ab g_start eq_refl input_ab_fits). Defined.

Lemma grep_drops_partial_witness :
  (exists s, grep [94; 99] [[97; 98]; [99; 10]] g_start = Done tt s /\ out_of 1 (g_io s) = [] ++ [99; 10]) /\
  selected [94; 99] (concat [[97; 98]; [99; 10]]) = [].
Proof.
  split; [|by vm_compute].
  exact (grep_drops_partial [94; 99] [97; 98] [[99; 10]] g_start eq_refl ltac:(done) ltac:(set_solver) ltac:(set_solver)
    ltac:(simpl; lia) ltac:(repeat split; simpl; try lia; set_solver)).
Defined.
