(* ===== verification/Sh.v ===== *)
(** * The shell's parser (sh.c)

    The parser works on the line as an array that ends in a null: tokens are
    pairs of indices, [*ps] is the field [p_pos].  Commands are nodes allocated
    one after the other; a pointer to a command is its index.  The node of a
    simple command is filled in while it may already be below redirections, so
    nodes are shared and changed in place.  [malloc] always succeeds here: the
    code does not look at its result.  [panic] prints its message and exits. *)

From S2P Require Import Prelude Ulib.

(** ** Commands *)

(* sh.c 13-13: MAXARGS *)
Definition MAXARGS : nat := 10.

(** [argv] and [eargv] of a simple command up to the first null. *)
(* sh.c 15-47: cmd *)
Inductive node : Type :=
| EXEC (args : list (nat * nat))
| REDIR (cmd file efile : nat) (mode fd : Z)
| PIPE (left right : nat)
| LIST (left right : nat)
| BACK (cmd : nat).

Record pst : Type := mkP {
  p_pos : nat;
  p_heap : list node
}.

(** The constructors [execcmd], [redircmd], [pipecmd], [listcmd], [backcmd]. *)
(* sh.c 195-258: execcmd *)
Definition new (n : node) : M pst nat := fun s =>
  Done (length (p_heap s)) (mkP (p_pos s) (p_heap s ++ [n])).

(** [cmd->argv[argc] = q; cmd->eargv[argc] = eq] *)
(* sh.c 441-442: parseexec *)
Definition set_arg (cmd q eq : nat) : M pst unit := fun s =>
  match p_heap s !! cmd with
  | Some (EXEC args) => Done tt (mkP (p_pos s) (<[cmd := EXEC (args ++ [(q, eq)])]> (p_heap s)))
  | _ => Undef "cmd" s
  end.

(** ** Tokens *)

(* sh.c 262-262: whitespace *)
Definition whitespace : list Z := [32; 9; 13; 10; 11].

(* sh.c 263-263: symbols *)
Definition symbols : list Z := [60; 124; 62; 38; 59; 40; 41].

Definition has (s : list Z) (c : Z) : bool := if strchr s c is Some _ then true else false.

(* fcntl.h 1-4: O_CREATE *)
Definition O_RDONLY : Z := 0.
Definition O_WRONLY_CREATE : Z := Z.lor 1 0x200.

Section Parser.
Context (buf : list Z) (es : nat).

Definition at_ (s : nat) : Z := default 0 (buf !! s).

(** [while(s < es && strchr(whitespace, c)) s++], [n] being [es - s]. *)
(* sh.c 272-273: gettoken *)
Fixpoint skip (n s : nat) : nat :=
  match n with
  | O => s
  | S n' => if has whitespace (at_ s) then skip n' (S s) else s
  end.

Definition skip_ws (s : nat) : nat := skip (es - s) s.

(* sh.c 297-298: gettoken *)
Fixpoint word_end (n s : nat) : nat :=
  match n with
  | O => s
  | S n' => if negb (has whitespace (at_ s)) && negb (has symbols (at_ s)) then word_end n' (S s) else s
  end.

(** The token at [s]: what is returned and where it ends. *)
(* sh.c 276-300: gettoken *)
Definition token_at (s : nat) : Z * nat :=
  let c := at_ s in
  if c =? 0 then (0, s)
  else if has [124; 40; 41; 59; 38; 60] c then (c, S s)
  else if c =? 62 then (if at_ (S s) =? 62 then (43, S (S s)) else (62, S s))
  else (97, word_end (es - s) s).

(* sh.c 265-308: gettoken *)
Definition gettoken : M pst (Z * nat * nat) := fun st =>
  let q := skip_ws (p_pos st) in
  let (ret, eq) := token_at q in
  Done (ret, q, eq) (mkP (skip_ws eq) (p_heap st)).

(* sh.c 310-320: peek *)
Definition peek (toks : list Z) : M pst bool := fun st =>
  let s := skip_ws (p_pos st) in
  Done (nz (at_ s) && has toks (at_ s)) (mkP s (p_heap st)).

(** ** The grammar *)

(* sh.c 379-403: parseredirs *)
Fixpoint parseredirs (fuel : nat) (cmd : nat) : M pst nat :=
  b <- peek [60; 62] ;;
  if negb b then ret cmd else
  match fuel with
  | O => fun s => NoFuel s
  | S fuel' =>
      t <- gettoken ;;
      t2 <- gettoken ;;
      let '(ret2, q, eq) := t2 in
      if negb (ret2 =? 97) then panic "missing file for redirection" else
      let '(tok, _, _) := t in
      cmd <- (if tok =? 60 then new (REDIR cmd q eq O_RDONLY 0)
              else if tok =? 62 then new (REDIR cmd q eq O_WRONLY_CREATE 1)
              else if tok =? 43 then new (REDIR cmd q eq O_WRONLY_CREATE 1)
              else ret cmd) ;;
      parseredirs fuel' cmd
  end.

(** The loop over the arguments: [cmd] is the simple command, [r] the command
    with the redirections so far. *)
(* sh.c 436-447: parseexec *)
Fixpoint parseargs (fuel : nat) (cmd r argc : nat) : M pst nat :=
  b <- peek [124; 41; 38; 59] ;;
  if (b : bool) then ret r else
  match fuel with
  | O => fun s => NoFuel s
  | S fuel' =>
      t <- gettoken ;;
      let '(tok, q, eq) := t in
      if tok =? 0 then ret r else
      if negb (tok =? 97) then panic "syntax" else
      set_arg cmd q eq ;;
      if (MAXARGS <=? S argc)%nat then panic "too many args" else
      r <- parseredirs (S es) r ;;
      parseargs fuel' cmd r (S argc)
  end.

(* sh.c 350-353: parseline *)
Fixpoint parseback (fuel : nat) (cmd : nat) : M pst nat :=
  b <- peek [38] ;;
  if negb b then ret cmd else
  match fuel with
  | O => fun s => NoFuel s
  | S fuel' => gettoken ;; cmd <- new (BACK cmd) ;; parseback fuel' cmd
  end.

(** The nesting of the calls is bounded by [fuel]. *)
(* sh.c 344-461: parseline *)
Fixpoint parseline (fuel : nat) : M pst nat :=
  match fuel with
  | O => fun s => NoFuel s
  | S n =>
      cmd <- parsepipe n ;;
      cmd <- parseback (S es) cmd ;;
      b <- peek [59] ;;
      if (b : bool) then gettoken ;; r <- parseline n ;; new (LIST cmd r) else ret cmd
  end
with parsepipe (fuel : nat) : M pst nat :=
  match fuel with
  | O => fun s => NoFuel s
  | S n =>
      cmd <- parseexec n ;;
      b <- peek [124] ;;
      if (b : bool) then gettoken ;; r <- parsepipe n ;; new (PIPE cmd r) else ret cmd
  end
with parseexec (fuel : nat) : M pst nat :=
  match fuel with
  | O => fun s => NoFuel s
  | S n =>
      b <- peek [40] ;;
      if (b : bool) then parseblock n else
      cmd <- new (EXEC []) ;;
      r <- parseredirs (S es) cmd ;;
      parseargs (S es) cmd r 0
  end
with parseblock (fuel : nat) : M pst nat :=
  match fuel with
  | O => fun s => NoFuel s
  | S n =>
      b <- peek [40] ;;
      if negb b then panic "parseblock" else
      gettoken ;;
      cmd <- parseline n ;;
      b <- peek [41] ;;
      if negb b then panic "syntax - missing )" else
      gettoken ;;
      parseredirs (S es) cmd
  end.

End Parser.

(** [cmd] and what is below it: the characters after the words become nulls.
    A command is allocated after those below it, so [fuel] = the index of the
    command and one more is enough. *)
(* sh.c 464-493: nulterminate *)
Fixpoint nulterminate (fuel : nat) (heap : list node) (cmd : nat) (buf : list Z) : option (list Z) :=
  match fuel with
  | O => None
  | S n =>
      match heap !! cmd with
      | None => None
      | Some (EXEC args) => Some (foldl (fun b qe => <[snd qe := 0]> b) buf args)
      | Some (REDIR c _ efile _ _) => (fun b => <[efile := 0]> b) <$> nulterminate n heap c buf
      | Some (PIPE l r) | Some (LIST l r) =>
          match nulterminate n heap l buf with Some b => nulterminate n heap r b | None => None end
      | Some (BACK c) => nulterminate n heap c buf
      end
  end.

(** The command and the line it points into. *)
(* sh.c 327-342: parsecmd *)
Definition parsecmd (line : list Z) : res pst (nat * list Z) :=
  let es := strlen line in
  match parseline line es (4 * es + 4) (mkP 0 []) with
  | Done cmd s =>
      match peek line es [] s with
      | Done _ s =>
          if negb (p_pos s =? es)%nat then Panic "syntax" s else
          match nulterminate (S cmd) (p_heap s) cmd line with
          | Some line' => Done (cmd, line') s
          | None => Undef "nulterminate" s
          end
      | _ => Undef "peek" s
      end
  | Panic m s => Panic m s
  | Spin s => Spin s
  | Undef w s => Undef w s
  | NoFuel s => NoFuel s
  | Swtch _ s _ => Undef "switch" s
  end.

(** ** The parser always ends *)

(** The routine returns in [Q], or complains. *)
Definition returns {A} (r : res pst A) (Q : A -> pst -> Prop) : Prop :=
  match r with
  | Done a s => Q a s
  | Panic _ _ => True
  | _ => False
  end.

Lemma returns_bind {A B} (m : M pst A) (f : A -> M pst B) s Q :
  returns (m s) (fun a s' => returns (f a s') Q) -> returns ((x <- m ;; f x) s) Q.
Proof. rewrite bind_eq. by destruct (m s). Qed.

Lemma returns_mono {A} (r : res pst A) (P Q : A -> pst -> Prop) : (forall a s, P a s -> Q a s) -> returns r P -> returns r Q.
Proof. destruct r; simpl; auto. Qed.

(** Commands below a command were allocated before it. *)
Definition below (a : nat) (n : node) : Prop :=
  match n with
  | EXEC _ => True
  | REDIR c _ _ _ _ | BACK c => (c < a)%nat
  | PIPE l r | LIST l r => (l < a /\ r < a)%nat
  end.

Definition heap_ok (h : list node) : Prop := forall a n, h !! a = Some n -> below a n.

Lemma heap_ok_new h n : heap_ok h -> below (length h) n -> heap_ok (h ++ [n]).
Proof.
  intros H Hn a m Ha. apply lookup_app_Some in Ha as [Ha|[Hl Ha]]; [by apply H|].
  apply list_lookup_singleton_Some in Ha as [Ha <-]. by replace a with (length h) by lia.
Qed.

Section Total.
Context (buf : list Z) (es : nat).
Hypothesis (Hes : at_ buf es = 0).

Lemma has_zero l : has l 0 = false.
Proof. unfold has. induction l as [|x l IH]; simpl; [done|]. destruct (nz x) eqn:E; simpl; [|done]. unfold nz in E.
  replace (x =? 0) with false by lia. by destruct (strchr l 0). Qed.

Lemma skip_spec n s :
  (s + n = es)%nat -> (s <= skip buf n s <= es)%nat /\ (skip buf n s = es \/ has whitespace (at_ buf (skip buf n s)) = false).
Proof.
  revert s. induction n as [|n IH]; intros s Hs; cbn [skip]; [lia|]. destruct (has whitespace (at_ buf s)) eqn:E; [|split; [lia|by right]].
  destruct (IH (S s)) as [H1 H2]; [lia|]. split; [lia|done].
Qed.

Lemma skip_ws_spec s :
  (s <= es)%nat -> (s <= skip_ws buf es s <= es)%nat /\ has whitespace (at_ buf (skip_ws buf es s)) = false.
Proof.
  intros Hs. destruct (skip_spec (es - s) s) as [H1 [H2|H2]]; [lia|..]; (split; [exact H1|]); [|exact H2].
  unfold skip_ws. rewrite H2, Hes. apply has_zero.
Qed.

Lemma skip_ws_id s : has whitespace (at_ buf s) = false -> skip_ws buf es s = s.
Proof. unfold skip_ws. intros H. destruct (es - s)%nat; cbn [skip]; [done|]. by rewrite H. Qed.

Lemma word_end_spec n s : (s + n = es)%nat -> (s <= word_end buf n s <= es)%nat.
Proof.
  revert s. induction n as [|n IH]; intros s Hs; cbn [word_end]; [lia|]. destruct (_ && _); [|lia].
  specialize (IH (S s) ltac:(lia)). lia.
Qed.

Lemma not_end s : (s <= es)%nat -> at_ buf s <> 0 -> (s < es)%nat.
Proof. intros H1 H2. destruct (decide (s = es)) as [->|]; [done|lia]. Qed.

Lemma has_in l c : Forall (fun x => x <> 0) l -> has l c = true -> c ∈ l.
Proof.
  intros Hl H. unfold has in H. destruct (strchr l c) eqn:E; [|done]. apply strchr_Some in E as (E & _). by eapply list_elem_of_lookup_2.
Qed.

(** A token is not empty before the end of the line. *)
Lemma token_at_spec s :
  (s <= es)%nat -> has whitespace (at_ buf s) = false ->
  (s <= snd (token_at buf es s) <= es)%nat /\ (at_ buf s <> 0 -> (s < snd (token_at buf es s))%nat) /\
  (fst (token_at buf es s) = 0 <-> at_ buf s = 0).
Proof.
  intros Hs Hw. unfold token_at. destruct (at_ buf s =? 0) eqn:E0; [simpl; lia|]. pose proof (not_end s Hs ltac:(lia)) as Hlt.
  destruct (has [124; 40; 41; 59; 38; 60] (at_ buf s)) eqn:E1; [simpl; lia|].
  destruct (at_ buf s =? 62) eqn:E2.
  - destruct (at_ buf (S s) =? 62) eqn:E3; simpl; [|lia]. pose proof (not_end (S s) ltac:(lia) ltac:(lia)). lia.
  - cbn [fst snd]. pose proof (word_end_spec (es - s) s ltac:(lia)) as Hr. split; [lia|]. split; [|lia]. intros _.
    replace (es - s)%nat with (S (es - S s)) by lia. cbn [word_end]. rewrite Hw. cbn [negb andb].
    assert (has symbols (at_ buf s) = false) as ->.
    { destruct (has symbols (at_ buf s)) eqn:E; [|done]. apply has_in in E; [|repeat constructor; lia].
      unfold symbols in E. repeat (apply elem_of_cons in E as [E|E]; [rewrite E in E1, E2; done|]). by apply elem_of_nil in E. }
    cbn [negb]. pose proof (word_end_spec (es - S s) (S s) ltac:(lia)). lia.
Qed.

(** *** Progress of the parts *)

(** From [p] the position goes on, the heap stays sound and grows, and the
    result is a command. *)
Definition forth (p : nat) (h : list node) (a : nat) (s : pst) : Prop :=
  (p <= p_pos s <= es)%nat /\ heap_ok (p_heap s) /\ (a < length (p_heap s))%nat /\ (length h <= length (p_heap s))%nat /\
  forall b args, h !! b = Some (EXEC args) -> exists args', p_heap s !! b = Some (EXEC args').

Lemma peek_returns toks s (Q : bool -> pst -> Prop) :
  (p_pos s <= es)%nat ->
  (forall b s', (p_pos s <= p_pos s' <= es)%nat -> p_heap s' = p_heap s -> skip_ws buf es (p_pos s') = p_pos s' ->
     (b = true -> at_ buf (p_pos s') <> 0) -> Q b s') ->
  returns (peek buf es toks s) Q.
Proof.
  intros Hp HQ. unfold peek. cbn [returns]. destruct (skip_ws_spec (p_pos s) Hp) as [H1 H2].
  apply HQ; cbn [p_pos p_heap]; [done|done|by apply skip_ws_id|]. intros Hb. apply andb_prop in Hb as [Hb _]. unfold nz in Hb. lia.
Qed.

Lemma gettoken_returns s (Q : Z * nat * nat -> pst -> Prop) :
  (p_pos s <= es)%nat ->
  (forall t q eq s', (p_pos s <= p_pos s' <= es)%nat -> p_heap s' = p_heap s ->
     (t <> 0 -> (p_pos s < p_pos s')%nat) ->
     (skip_ws buf es (p_pos s) = p_pos s -> at_ buf (p_pos s) <> 0 -> (p_pos s < p_pos s')%nat) -> Q (t, q, eq) s') ->
  returns (gettoken buf es s) Q.
Proof.
  intros Hp HQ. unfold gettoken. destruct (skip_ws_spec (p_pos s) Hp) as [H1 H2]. set (q := skip_ws buf es (p_pos s)) in *.
  destruct (token_at_spec q ltac:(lia) H2) as (T1 & T2 & T3). destruct (token_at buf es q) as [t eq]. cbn [fst snd] in *. cbn [returns].
  destruct (skip_ws_spec eq ltac:(lia)) as [H3 _]. apply HQ; cbn [p_pos p_heap]; [lia|done|..].
  - intros Ht. assert (at_ buf q <> 0) as Hq by (rewrite <- T3; done). specialize (T2 Hq). lia.
  - intros Hid Hat. rewrite Hid in T2. specialize (T2 Hat). lia.
Qed.

Lemma new_forth p h n s :
  (p <= p_pos s <= es)%nat -> heap_ok (p_heap s) -> (length h <= length (p_heap s))%nat ->
  (forall b args, h !! b = Some (EXEC args) -> exists args', p_heap s !! b = Some (EXEC args')) ->
  below (length (p_heap s)) n -> returns (new n s) (forth p h).
Proof.
  intros H1 H2 H3 H4 H5. cbn [new returns]. split; [done|]. cbn [p_heap]. split; [by apply heap_ok_new|]. rewrite length_app. simpl.
  split; [lia|]. split; [lia|]. intros b args Hb. destruct (H4 b args Hb) as [args' Hb']. exists args'.
  rewrite lookup_app_l; [done|]. by eapply lookup_lt_Some.
Qed.

Lemma forth_trans p p' h h' a a' s s' :
  forth p h a s -> (p_pos s <= p')%nat -> p_heap s = h' -> forth p' h' a' s' -> forth p h a' s'.
Proof.
  intros (A1 & A2 & A3 & A4 & A5) Hp <- (B1 & B2 & B3 & B4 & B5). split; [lia|]. split; [done|]. split; [lia|]. split; [lia|].
  intros b args Hb. destruct (A5 b args Hb) as [args' Hb']. by apply (B5 b args').
Qed.

Lemma forth_weaken p p' h a s : (p <= p')%nat -> forth p' h a s -> forth p h a s.
Proof. intros Hp (A1 & A2 & A3 & A4 & A5). split; [lia|]. done. Qed.

Lemma forth_here h a s :
  (p_pos s <= es)%nat -> heap_ok h -> (a < length h)%nat -> p_heap s = h -> forth (p_pos s) h a s.
Proof. intros H1 H2 H3 H4. unfold forth. rewrite H4. split; [lia|]. split; [done|]. split; [done|]. split; [done|]. eauto. Qed.

Lemma parseredirs_returns fuel cmd s :
  (p_pos s <= es)%nat -> (es - p_pos s < fuel)%nat -> heap_ok (p_heap s) -> (cmd < length (p_heap s))%nat ->
  returns (parseredirs buf es fuel cmd s) (forth (p_pos s) (p_heap s)).
Proof.
  revert cmd s. induction fuel as [|fuel IH]; intros cmd s Hp Hf Hh Hc; [lia|]. cbn [parseredirs].
  apply returns_bind, peek_returns; [done|]. intros b s1 Hp1 Eh1 Hid1 Hb. destruct b; cbn [negb].
  2:{ rewrite ret_eq. cbn [returns]. rewrite <- Eh1 in *. apply (forth_weaken _ (p_pos s1)); [lia|]. by apply forth_here; [lia|..]. }
  apply returns_bind, gettoken_returns; [lia|]. intros t q eq s2 Hp2 Eh2 _ Hlt2. specialize (Hlt2 Hid1 (Hb eq_refl)).
  apply returns_bind, gettoken_returns; [lia|]. intros t' q' eq' s3 Hp3 Eh3 _ _.
  assert (p_heap s3 = p_heap s) as Eh by congruence.
  destruct (t' =? 97); cbn [negb]; [|done].
  assert (forall n, below (length (p_heap s3)) n -> returns ((cmd0 <- new n ;; parseredirs buf es fuel cmd0) s3) (forth (p_pos s) (p_heap s))) as Hnew.
  { intros n Hn. apply returns_bind. eapply returns_mono; [|apply (new_forth (p_pos s3) (p_heap s) n s3); [lia|rewrite ?Eh; by eauto..|exact Hn]].
    intros a s4 Hf4. pose proof Hf4 as ((F1 & F1') & F2 & F3 & F4 & F5). eapply returns_mono; [|apply IH; [lia|lia|done|done]].
    intros a' s5 Hf5. apply (forth_trans _ (p_pos s4) _ (p_heap s4) a _ s4); [|done..]. by apply (forth_weaken _ (p_pos s3)); [lia|]. }
  assert (forall m f, below (length (p_heap s3)) (REDIR cmd q' eq' m f)) as Hbel by (intros; simpl; rewrite Eh; lia).
  destruct (t =? 60); [by apply Hnew|]. destruct (t =? 62); [by apply Hnew|]. destruct (t =? 43); [by apply Hnew|].
  apply returns_bind. rewrite ret_eq. cbn [returns]. eapply returns_mono; [|apply IH; [lia|lia|by rewrite Eh|by rewrite Eh]].
  intros a s4 Hf4. rewrite Eh in Hf4. by eapply (forth_weaken _ (p_pos s3)); [lia|].
Qed.
Lemma parseargs_returns fuel cmd r argc args s :
  (p_pos s <= es)%nat -> (es - p_pos s < fuel)%nat -> heap_ok (p_heap s) -> (r < length (p_heap s))%nat ->
  p_heap s !! cmd = Some (EXEC args) ->
  returns (parseargs buf es fuel cmd r argc s) (forth (p_pos s) (p_heap s)).
Proof.
  revert r argc args s. induction fuel as [|fuel IH]; intros r argc args s Hp Hf Hh Hr Hc; [lia|]. cbn [parseargs].
  apply returns_bind, peek_returns; [done|]. intros b s1 Hp1 Eh1 Hid1 Hb. rewrite <- Eh1 in *. destruct b.
  { rewrite ret_eq. apply (forth_weaken _ (p_pos s1)); [lia|]. by apply forth_here; [lia|..]. }
  apply returns_bind, gettoken_returns; [lia|]. intros t q eq s2 Hp2 Eh2 Hlt2 _. rewrite <- Eh2 in *.
  destruct (t =? 0) eqn:E0.
  { rewrite ret_eq. apply (forth_weaken _ (p_pos s2)); [lia|]. by apply forth_here; [lia|..]. }
  destruct (t =? 97); cbn [negb]; [|done]. specialize (Hlt2 ltac:(lia)).
  apply returns_bind. unfold set_arg. rewrite Hc. cbn [returns]. set (h3 := <[cmd := _]> (p_heap s2)).
  destruct (MAXARGS <=? S argc)%nat; [done|].
  assert (length h3 = length (p_heap s2)) as El by apply length_insert.
  assert (heap_ok h3) as Hh3.
  { intros a n Ha. unfold h3 in Ha. apply list_lookup_insert_Some in Ha as [(-> & <- & _)|[_ Ha]]; [done|by apply Hh]. }
  assert (h3 !! cmd = Some (EXEC (args ++ [(q, eq)]))) as Hc3 by (apply list_lookup_insert_eq; by eapply lookup_lt_Some).
  assert (forall b bs, p_heap s2 !! b = Some (EXEC bs) -> exists bs', h3 !! b = Some (EXEC bs')) as Hex.
  { intros b bs Hb'. destruct (decide (b = cmd)) as [->|Hne]; [by eauto|]. exists bs. unfold h3. by rewrite list_lookup_insert_ne. }
  apply returns_bind. set (s3 := mkP (p_pos s2) h3).
  eapply returns_mono; [|apply (parseredirs_returns (S es) r s3); cbn [s3 p_pos p_heap]; [lia|lia|done|lia]].
  intros r4 s4 Hf4. pose proof Hf4 as ((F1 & F1') & F2 & F3 & F4 & F5). cbn [s3 p_pos p_heap] in *.
  destruct (F5 cmd _ Hc3) as [args4 Hc4]. eapply returns_mono; [|apply (IH r4 (S argc) args4 s4); [lia|lia|done|done|done]].
  intros a s5 Hf5. apply (forth_trans _ (p_pos s4) _ (p_heap s4) r4 _ s4); [|done..].
  split; [lia|]. split; [done|]. split; [done|]. split; [lia|]. intros b bs Hb'. destruct (Hex b bs Hb') as [bs' Hb3]. by apply (F5 b bs').
Qed.

Lemma parseback_returns fuel cmd s :
  (p_pos s <= es)%nat -> (es - p_pos s < fuel)%nat -> heap_ok (p_heap s) -> (cmd < length (p_heap s))%nat ->
  returns (parseback buf es fuel cmd s) (forth (p_pos s) (p_heap s)).
Proof.
  revert cmd s. induction fuel as [|fuel IH]; intros cmd s Hp Hf Hh Hc; [lia|]. cbn [parseback].
  apply returns_bind, peek_returns; [done|]. intros b s1 Hp1 Eh1 Hid1 Hb. rewrite <- Eh1 in *. destruct b; cbn [negb].
  2:{ rewrite ret_eq. apply (forth_weaken _ (p_pos s1)); [lia|]. by apply forth_here; [lia|..]. }
  apply returns_bind, gettoken_returns; [lia|]. intros t q eq s2 Hp2 Eh2 _ Hlt2. specialize (Hlt2 Hid1 (Hb eq_refl)). rewrite <- Eh2 in *.
  apply returns_bind. eapply returns_mono; [|apply (new_forth (p_pos s2) (p_heap s2) (BACK cmd) s2); [lia|by eauto..]].
  intros a s3 Hf3. pose proof Hf3 as ((F1 & F1') & F2 & F3 & F4 & F5). eapply returns_mono; [|apply IH; [lia|lia|done|done]].
  intros a' s4 Hf4. apply (forth_trans _ (p_pos s3) _ (p_heap s3) a _ s3); [|done..]. by apply (forth_weaken _ (p_pos s2)); [lia|].
Qed.

(** *** The recursion *)

(** A command made of two. *)
Lemma then_new p h (m : M pst nat) mk a s :
  forth p h a s -> returns (m s) (forth (p_pos s) (p_heap s)) ->
  (forall r k, (a < k)%nat -> (r < k)%nat -> below k (mk a r)) ->
  returns ((r <- m ;; new (mk a r)) s) (forth p h).
Proof.
  intros (A1 & A2 & A3 & A4 & A5) Hm Hmk. apply returns_bind. eapply returns_mono; [|exact Hm].
  intros r s1 (B1 & B2 & B3 & B4 & B5). apply new_forth; [lia|done|lia| |apply Hmk; lia].
  intros b args Hb. destruct (A5 b args Hb) as [args' Hb']. by apply (B5 b args').
Qed.

Lemma forth_same p h a s s' :
  forth p h a s -> (p_pos s <= p_pos s' <= es)%nat -> p_heap s' = p_heap s -> forth p h a s'.
Proof. intros (A1 & A2 & A3 & A4 & A5) Hp Eh. unfold forth. rewrite Eh. split; [lia|]. done. Qed.

(** The rest of [parseline] and of [parsepipe]: [c], and then another one. *)
Lemma tail_returns p h c mk (m : M pst nat) a s :
  forth p h a s ->
  (forall s', (p_pos s < p_pos s' <= es)%nat -> heap_ok (p_heap s') -> returns (m s') (forth (p_pos s') (p_heap s'))) ->
  (forall r k, (a < k)%nat -> (r < k)%nat -> below k (mk a r)) ->
  returns ((b <- peek buf es [c] ;; if (b : bool) then gettoken buf es ;; r <- m ;; new (mk a r) else ret a) s) (forth p h).
Proof.
  intros Hs Hm Hmk. pose proof Hs as ((A1 & A1') & A2 & _). apply returns_bind, peek_returns; [done|].
  intros b s1 Hp1 Eh1 Hid1 Hb. pose proof (forth_same _ _ _ _ s1 Hs ltac:(lia) Eh1) as Hs1.
  destruct b; [|by rewrite ret_eq]. apply returns_bind, gettoken_returns; [lia|].
  intros t q eq s2 Hp2 Eh2 _ Hlt2. specialize (Hlt2 Hid1 (Hb eq_refl)).
  pose proof (forth_same _ _ _ _ s2 Hs1 ltac:(lia) Eh2) as Hs2.
  apply (then_new _ _ _ mk a); [done| |done]. apply Hm; [lia|]. by rewrite Eh2, Eh1.
Qed.

Lemma parser_returns n :
  (forall s, (p_pos s <= es)%nat -> heap_ok (p_heap s) -> (4 * (es - p_pos s) + 4 <= n)%nat ->
     returns (parseline buf es n s) (forth (p_pos s) (p_heap s))) /\
  (forall s, (p_pos s <= es)%nat -> heap_ok (p_heap s) -> (4 * (es - p_pos s) + 3 <= n)%nat ->
     returns (parsepipe buf es n s) (forth (p_pos s) (p_heap s))) /\
  (forall s, (p_pos s <= es)%nat -> heap_ok (p_heap s) -> (4 * (es - p_pos s) + 2 <= n)%nat ->
     returns (parseexec buf es n s) (forth (p_pos s) (p_heap s))) /\
  (forall s, (p_pos s <= es)%nat -> heap_ok (p_heap s) -> (4 * (es - p_pos s) + 1 <= n)%nat ->
     returns (parseblock buf es n s) (forth (p_pos s) (p_heap s))).
Proof.
  induction n as [|n (IHl & IHp & IHe & IHb)]; [repeat split; intros; lia|]. split; [|split; [|split]]; intros s Hp Hh Hn.
  - cbn [parseline]. apply returns_bind. eapply returns_mono; [|apply IHp; [done|done|lia]]. intros a s1 Hf1.
    pose proof Hf1 as ((F1 & F1') & F2 & F3 & F4 & F5). apply returns_bind.
    eapply returns_mono; [|apply (parseback_returns (S es)); [lia|lia|done|done]]. intros a2 s2 Hf2.
    pose proof (forth_trans _ (p_pos s1) _ (p_heap s1) a a2 s1 s2 Hf1 ltac:(lia) eq_refl Hf2) as Hf12.
    pose proof Hf2 as ((G1 & G1') & _). apply tail_returns; [done| |by simpl]. intros s' Hp' Hh'. apply IHl; [lia|done|lia].
  - cbn [parsepipe]. apply returns_bind. eapply returns_mono; [|apply IHe; [done|done|lia]]. intros a s1 Hf1.
    pose proof Hf1 as ((F1 & F1') & _). apply tail_returns; [done| |by simpl]. intros s' Hp' Hh'. apply IHp; [lia|done|lia].
  - cbn [parseexec]. apply returns_bind, peek_returns; [done|]. intros b s1 Hp1 Eh1 Hid1 Hb. rewrite <- Eh1 in *. destruct b.
    + eapply returns_mono; [|apply IHb; [lia|done|lia]]. intros a s2 Hf2. by apply (forth_weaken _ (p_pos s1)); [lia|].
    + apply returns_bind. cbn [new returns]. set (s2 := mkP (p_pos s1) (p_heap s1 ++ [EXEC []])).
      assert (heap_ok (p_heap s2)) as Hh2 by (by apply heap_ok_new).
      assert (p_heap s2 !! length (p_heap s1) = Some (EXEC [])) as Hc2 by (unfold s2; cbn [p_heap]; rewrite lookup_app_r, Nat.sub_diag by lia; done).
      assert (forth (p_pos s) (p_heap s1) (length (p_heap s1)) s2) as Hf2.
      { split; [simpl; lia|]. split; [done|]. unfold s2; cbn [p_heap]. rewrite length_app; simpl. split; [lia|]. split; [lia|].
        intros b args Hb'. exists args. rewrite lookup_app_l; [done|]. by eapply lookup_lt_Some. }
      apply returns_bind. eapply returns_mono; [|apply (parseredirs_returns (S es) _ s2); [simpl; lia|lia|done|by eapply lookup_lt_Some]].
      intros r s3 Hf3. pose proof Hf3 as ((F1 & F1') & F2 & F3 & F4 & F5). destruct (F5 _ _ Hc2) as [args Hc3].
      eapply returns_mono; [|apply (parseargs_returns (S es) _ r 0 args s3); [lia|lia|done|done|done]]. intros a s4 Hf4.
      apply (forth_trans _ (p_pos s3) _ (p_heap s3) r _ s3); [|done..]. by apply (forth_trans _ (p_pos s2) _ (p_heap s2) (length (p_heap s1)) _ s2).
  - cbn [parseblock]. apply returns_bind, peek_returns; [done|]. intros b s1 Hp1 Eh1 Hid1 Hb. rewrite <- Eh1 in *. destruct b; cbn [negb]; [|done].
    apply returns_bind, gettoken_returns; [lia|]. intros t q eq s2 Hp2 Eh2 _ Hlt2. specialize (Hlt2 Hid1 (Hb eq_refl)). rewrite <- Eh2 in *.
    apply returns_bind. eapply returns_mono; [|apply IHl; [lia|done|lia]]. intros a s3 Hf3. pose proof Hf3 as ((F1 & F1') & F2 & F3 & F4 & F5).
    apply returns_bind, peek_returns; [lia|]. intros b s4 Hp4 Eh4 _ _. destruct b; cbn [negb]; [|done].
    apply returns_bind, gettoken_returns; [lia|]. intros t' q' eq' s5 Hp5 Eh5 _ _.
    assert (p_heap s5 = p_heap s3) as E5 by congruence.
    eapply returns_mono; [|apply (parseredirs_returns (S es) a s5); [lia|lia|by rewrite E5|by rewrite E5]]. intros a' s6 Hf6.
    apply (forth_trans _ (p_pos s5) _ (p_heap s5) a _ s5); [|lia|done|done].
    eapply forth_same; [apply (forth_weaken _ (p_pos s2)); [lia|exact Hf3]|lia|done].
Qed.

End Total.

(** Nulls can be stored below every command of a sound heap. *)
Lemma nulterminate_total fuel h a buf :
  heap_ok h -> (a < length h)%nat -> (a < fuel)%nat -> exists buf', nulterminate fuel h a buf = Some buf'.
Proof.
  intros Hh. revert a buf. induction fuel as [|fuel IH]; intros a buf Ha Hf; [lia|]. cbn [nulterminate].
  destruct (lookup_lt_is_Some_2 h a Ha) as [n Hn]. rewrite Hn. pose proof (Hh a n Hn) as Hb.
  destruct n as [args|c q eq m fd|l r|l r|c]; cbn [below] in Hb.
  - by eexists.
  - destruct (IH c buf) as [b ->]; [lia..|]. by eexists.
  - destruct (IH l buf) as [b ->]; [lia..|]. apply IH; lia.
  - destruct (IH l buf) as [b ->]; [lia..|]. apply IH; lia.
  - apply IH; lia.
Qed.

Lemma strlen_spec s : (forall j, (j < strlen s)%nat -> at_ s j <> 0) /\ at_ s (strlen s) = 0.
Proof.
  induction s as [|c s [IH1 IH2]]; simpl; [split; [lia|done]|]. destruct (nz c) eqn:E; unfold nz in E.
  - split; [|exact IH2]. intros [|j] Hj; [unfold at_; simpl; lia|]. apply (IH1 j). lia.
  - split; [lia|]. unfold at_. simpl. lia.
Qed.

(** C26. [parsecmd] ends for every line: it returns a command or complains about
    the syntax.  The recursion of the grammar and its loops need no more than
    the fuel they are given, which is linear in the length of the line. *)
Theorem parsecmd_total line :
  match parsecmd line with
  | Done (cmd, _) s => heap_ok (p_heap s) /\ (cmd < length (p_heap s))%nat /\ p_pos s = strlen line
  | Panic _ _ => True
  | _ => False
  end.
Proof.
  destruct (strlen_spec line) as [Hin Hes]. unfold parsecmd. set (es := strlen line) in *.
  pose proof (proj1 (parser_returns line es Hes (4 * es + 4)) (mkP 0 []) ltac:(simpl; lia) ltac:(done) ltac:(simpl; lia)) as H.
  destruct (parseline line es (4 * es + 4) (mkP 0 [])) as [cmd s| | | | |]; try done. destruct H as ((H1 & H1') & H2 & H3 & _).
  unfold peek. cbn [p_pos p_heap]. destruct (skip_ws line es (p_pos s) =? es)%nat eqn:E; cbn [negb]; [|done].
  destruct (nulterminate_total (S cmd) (p_heap s) cmd line H2 H3) as [line' ->]; [lia|]. simpl.
  split; [done|]. split; [done|]. by apply Nat.eqb_eq.
Qed.
