(* ===== verification/ShSpec.v ===== *)
(** * What the shell's parser understands (sh.c)

    A command is a tree; [show] writes it as a line, with parentheses where the
    grammar needs them.  Parsing the line gives the tree back, as nodes whose
    words are null-terminated strings in the line. *)

From S2P Require Import Prelude Ulib Sh.

(** ** Commands and lines *)

Inductive rkind : Type := RIn | ROut.

Inductive tree : Type :=
| TExec (words : list (list Z))
| TRedir (t : tree) (k : rkind) (file : list Z)
| TPipe (l r : tree)
| TList (l r : tree)
| TBack (t : tree).

Inductive token : Type :=
| Sym (c : Z)
| Word (w : list Z).

Definition paren (ts : list token) : list token := Sym 40 :: ts ++ [Sym 41].

Definition rsym (k : rkind) : Z := match k with RIn => 60 | ROut => 62 end.

(** The levels of the grammar: 0 for [parseexec], 1 for [parsepipe], 2 for the
    part of [parseline] before a semicolon, 3 for [parseline]. *)
Fixpoint toks (lvl : nat) (t : tree) : list token :=
  match t with
  | TExec ws => Word <$> ws
  | TRedir t k f => toks 0 t ++ [Sym (rsym k); Word f]
  | TPipe l r =>
      let b := toks 0 l ++ Sym 124 :: toks 1 r in if (1 <=? lvl)%nat then b else paren b
  | TBack t =>
      let b := toks 2 t ++ [Sym 38] in if (2 <=? lvl)%nat then b else paren b
  | TList l r =>
      let b := toks 2 l ++ Sym 59 :: toks 3 r in if (3 <=? lvl)%nat then b else paren b
  end.

Definition chars (t : token) : list Z := match t with Sym c => [c] | Word w => w end.

(** Every token is followed by a space. *)
Definition flat (ts : list token) : list Z := concat ((fun t => chars t ++ [32]) <$> ts).

Definition show (t : tree) : list Z := flat (toks 3 t).

Definition wordchar (c : Z) : Prop := c <> 0 /\ has whitespace c = false /\ has symbols c = false.

Definition word_ok (w : list Z) : Prop := w <> [] /\ Forall wordchar w.

(** Words that can be written, and no more of them than a command can have. *)
Fixpoint tree_ok (t : tree) : Prop :=
  match t with
  | TExec ws => (length ws < MAXARGS)%nat /\ Forall word_ok ws
  | TRedir t _ f => tree_ok t /\ word_ok f
  | TPipe l r | TList l r => tree_ok l /\ tree_ok r
  | TBack t => tree_ok t
  end.

Definition rmode (k : rkind) : Z * Z := match k with RIn => (O_RDONLY, 0) | ROut => (O_WRONLY_CREATE, 1) end.

(** The nodes from [a] on are the tree; [P] relates the indices of words to the
    words. *)
Inductive reps (P : nat * nat -> list Z -> Prop) (h : list node) : nat -> tree -> Prop :=
| reps_exec a args ws : h !! a = Some (EXEC args) -> Forall2 P args ws -> reps P h a (TExec ws)
| reps_redir a c q e k f t :
    h !! a = Some (REDIR c q e (fst (rmode k)) (snd (rmode k))) -> P (q, e) f -> reps P h c t -> reps P h a (TRedir t k f)
| reps_pipe a l r t1 t2 : h !! a = Some (PIPE l r) -> reps P h l t1 -> reps P h r t2 -> reps P h a (TPipe t1 t2)
| reps_list a l r t1 t2 : h !! a = Some (LIST l r) -> reps P h l t1 -> reps P h r t2 -> reps P h a (TList t1 t2)
| reps_back a c t : h !! a = Some (BACK c) -> reps P h c t -> reps P h a (TBack t).

Lemma reps_prefix P h h' a t : reps P h a t -> h `prefix_of` h' -> reps P h' a t.
Proof.
  intros H [h2 ->]. assert (forall b n, h !! b = Some n -> (h ++ h2) !! b = Some n) as Hl.
  { intros b n Hb. rewrite lookup_app_l; [done|]. by eapply lookup_lt_Some. }
  induction H; econstructor; eauto.
Qed.

Lemma reps_impl (P Q : nat * nat -> list Z -> Prop) h a t : (forall qe w, P qe w -> Q qe w) -> reps P h a t -> reps Q h a t.
Proof.
  intros HPQ H. assert (forall l1 l2, Forall2 P l1 l2 -> Forall2 Q l1 l2) as H2 by (induction 1; constructor; auto).
  induction H; [eapply reps_exec|eapply reps_redir|eapply reps_pipe|eapply reps_list|eapply reps_back]; eauto.
Qed.

(** The equations of the four routines. *)
Lemma parseline_S b e n :
  parseline b e (S n) =
  (cmd <- parsepipe b e n ;;
   cmd <- parseback b e (S e) cmd ;;
   c <- peek b e [59] ;;
   if (c : bool) then gettoken b e ;; r <- parseline b e n ;; new (LIST cmd r) else ret cmd).
Proof. done. Qed.

Lemma parsepipe_S b e n :
  parsepipe b e (S n) =
  (cmd <- parseexec b e n ;;
   c <- peek b e [124] ;;
   if (c : bool) then gettoken b e ;; r <- parsepipe b e n ;; new (PIPE cmd r) else ret cmd).
Proof. done. Qed.

Lemma parseexec_S b e n :
  parseexec b e (S n) =
  (c <- peek b e [40] ;;
   if (c : bool) then parseblock b e n else
   cmd <- new (EXEC []) ;;
   r <- parseredirs b e (S e) cmd ;;
   parseargs b e (S e) cmd r 0).
Proof. done. Qed.

Lemma parseblock_S b e n :
  parseblock b e (S n) =
  (c <- peek b e [40] ;;
   if negb c then panic "parseblock" else
   gettoken b e ;;
   cmd <- parseline b e n ;;
   c <- peek b e [41] ;;
   if negb c then panic "syntax - missing )" else
   gettoken b e ;;
   parseredirs b e (S e) cmd).
Proof. done. Qed.

Lemma flat_app a b : flat (a ++ b) = flat a ++ flat b.
Proof. unfold flat. by rewrite fmap_app, concat_app. Qed.

Lemma flat_cons t ts : flat (t :: ts) = chars t ++ 32 :: flat ts.
Proof. unfold flat. cbn. by rewrite <- app_assoc. Qed.

(** ** The line and its tokens *)

Definition token_ok (t : token) : Prop :=
  match t with
  | Sym c => c ∈ symbols
  | Word w => word_ok w
  end.

Section Line.
Context (ts0 : list token) (junk : list Z).
Hypothesis (Hok : Forall token_ok ts0).

Definition buf : list Z := flat ts0 ++ 0 :: junk.
Definition es : nat := length (flat ts0).

(** At [p] the tokens [ts] are still to come. *)
Definition here (ts : list token) (p : nat) : Prop := exists pre, ts0 = pre ++ ts /\ p = length (flat pre).

Lemma here_next t ts p : here (t :: ts) p -> here ts (p + length (chars t) + 1).
Proof.
  intros (pre & E & ->). exists (pre ++ [t]). rewrite <- app_assoc. split; [done|]. rewrite flat_app, length_app, (flat_cons t []), length_app.
  simpl. lia.
Qed.

Lemma here_es ts p : here ts p -> (p + length (flat ts) = es)%nat.
Proof. intros (pre & E & ->). unfold es. rewrite E, flat_app, length_app. done. Qed.

Lemma here_at ts p j : here ts p -> at_ buf (p + j) = default 0 ((flat ts ++ 0 :: junk) !! j).
Proof.
  intros (pre & E & ->). unfold at_, buf. rewrite E, flat_app, <- app_assoc, lookup_app_r by lia. do 2 f_equal. lia.
Qed.

Lemma here_ok ts p : here ts p -> Forall token_ok ts.
Proof. intros (pre & E & _). rewrite E in Hok. by apply Forall_app in Hok as [_ ?]. Qed.

(** The first character of a token, or the null at the end. *)
Definition first_char (ts : list token) : Z := match ts with [] => 0 | t :: _ => hd 0 (chars t) end.

Lemma here_first ts p : here ts p -> at_ buf p = first_char ts.
Proof.
  intros H. rewrite <- (Nat.add_0_r p), (here_at ts p 0 H). pose proof (here_ok _ _ H) as Ht. destruct ts as [|t ts]; [done|].
  inversion_clear Ht as [|? ? Ht' _]. rewrite flat_cons. destruct t as [c|w]; [done|]. destruct Ht' as [Hne _]. by destruct w.
Qed.

Lemma first_char_cases ts p :
  here ts p ->
  (ts = [] /\ first_char ts = 0) \/
  (exists c ts', ts = Sym c :: ts' /\ first_char ts = c /\ c ∈ symbols) \/
  (exists w ts', ts = Word w :: ts' /\ word_ok w /\ wordchar (first_char ts)).
Proof.
  intros H. pose proof (here_ok _ _ H) as Ht. destruct ts as [|[c|w] ts]; [by left|right; left|right; right]; inversion_clear Ht as [|? ? Hc _].
  - by exists c, ts.
  - exists w, ts. split; [done|]. split; [done|]. destruct Hc as [Hne Hw]. destruct w; [done|]. by inversion_clear Hw.
Qed.

Lemma first_not_ws ts p : here ts p -> has whitespace (at_ buf p) = false.
Proof.
  intros H. rewrite (here_first ts p H). destruct (first_char_cases ts p H) as [[_ ->]|[(c & ts' & _ & -> & Hc)|(w & ts' & _ & _ & Hw)]].
  - done.
  - unfold symbols in Hc. repeat (apply elem_of_cons in Hc as [->|Hc]; [done|]). by apply elem_of_nil in Hc.
  - apply Hw.
Qed.

(** After a token: one space, and then the next one. *)
Lemma skip_space t ts p : here (t :: ts) p -> skip_ws buf es (p + length (chars t)) = (p + length (chars t) + 1)%nat.
Proof.
  intros H. pose proof (here_es _ _ H) as He. rewrite flat_cons, length_app in He. simpl in He. pose proof (here_next _ _ _ H) as Hn.
  unfold skip_ws. destruct (es - (p + length (chars t)))%nat as [|n] eqn:E; [lia|]. cbn [skip].
  assert (at_ buf (p + length (chars t)) = 32) as ->.
  { rewrite (here_at (t :: ts) p _ H), flat_cons, <- app_assoc, lookup_app_r, Nat.sub_diag by lia. done. }
  change (has whitespace 32) with true. cbv iota. pose proof (first_not_ws ts _ Hn) as Hw.
  replace (S (p + length (chars t))) with (p + length (chars t) + 1)%nat by lia. destruct n; cbn [skip]; [done|]. by rewrite Hw.
Qed.

Lemma skip_here ts p : here ts p -> skip_ws buf es p = p.
Proof. intros H. by apply skip_ws_id, (first_not_ws ts). Qed.

Lemma peek_here cs ts p h :
  here ts p -> (forall c, has cs c = true -> c ∈ symbols) ->
  peek buf es cs (mkP p h) = Done (match ts with Sym c :: _ => has cs c | _ => false end) (mkP p h).
Proof.
  intros H Hcs. unfold peek. cbn [p_pos p_heap]. rewrite (skip_here ts p H), (here_first ts p H). f_equal.
  destruct (first_char_cases ts p H) as [[-> ->]|[(c & ts' & -> & -> & Hc)|(w & ts' & -> & _ & Hw)]]; [done|..].
  - replace (nz c) with true; [done|]. unfold symbols in Hc. repeat (apply elem_of_cons in Hc as [->|Hc]; [done|]). by apply elem_of_nil in Hc.
  - set (c := first_char _) in *. destruct Hw as (_ & _ & Hs). apply andb_false_intro2. destruct (has cs c) eqn:E; [|done].
    apply Hcs in E. exfalso. unfold symbols in E. repeat (apply elem_of_cons in E as [E|E]; [rewrite E in Hs; done|]). by apply elem_of_nil in E.
Qed.

Lemma gettoken_sym c ts p h :
  here (Sym c :: ts) p -> exists q e, gettoken buf es (mkP p h) = Done (c, q, e) (mkP (p + 2) h) /\ here ts (p + 2).
Proof.
  intros H. pose proof (here_next _ _ _ H) as Hn. pose proof (skip_space _ _ _ H) as Hs. cbn [chars length] in Hn, Hs.
  replace (p + 1 + 1)%nat with (p + 2)%nat in Hn, Hs by lia.
  unfold gettoken. cbn [p_pos p_heap]. rewrite (skip_here _ p H). unfold token_at. rewrite (here_first _ p H). cbn [first_char chars hd].
  assert (at_ buf (S p) = 32) as E32 by (replace (S p) with (p + 1)%nat by lia; by rewrite (here_at _ p 1 H)).
  pose proof (here_ok _ _ H) as Ht. inversion_clear Ht as [|? ? Hc _]. cbn [token_ok] in Hc.
  replace (S p) with (p + 1)%nat in * by lia. rewrite E32.
  unfold symbols in Hc. repeat (apply elem_of_cons in Hc as [->|Hc]; [exists p, (p + 1)%nat; simpl; rewrite ?Hs; split; [done|exact Hn]|]).
  by apply elem_of_nil in Hc.
Qed.

Lemma word_end_here w : forall n s,
  Forall wordchar w -> (length w < n)%nat -> (forall j c, w !! j = Some c -> at_ buf (s + j) = c) -> at_ buf (s + length w) = 32 ->
  word_end buf n s = (s + length w)%nat.
Proof.
  induction w as [|c w IH]; intros n s Hw Hn Hc Hsp; simpl in *; (destruct n as [|n]; [lia|]); cbn [word_end].
  - rewrite Nat.add_0_r in Hsp |- *. by rewrite Hsp.
  - inversion_clear Hw as [|? ? (_ & H1 & H2) Hw']. pose proof (Hc 0%nat c eq_refl) as E0. rewrite Nat.add_0_r in E0. rewrite E0, H1, H2.
    cbn [negb andb]. rewrite (IH n (S s)); [lia|done|lia| |by replace (S s + length w)%nat with (s + S (length w))%nat by lia].
    intros j y Hj. replace (S s + j)%nat with (s + S j)%nat by lia. by apply Hc.
Qed.

Lemma gettoken_word w ts p h :
  here (Word w :: ts) p ->
  gettoken buf es (mkP p h) = Done (97, p, (p + length w)%nat) (mkP (p + length w + 1) h) /\ here ts (p + length w + 1).
Proof.
  intros H. pose proof (here_next _ _ _ H) as Hn. pose proof (skip_space _ _ _ H) as Hs. cbn [chars] in Hn, Hs. split; [|done].
  pose proof (here_es _ _ H) as He. rewrite flat_cons, length_app in He. cbn [chars length] in He.
  pose proof (here_ok _ _ H) as Ht. inversion_clear Ht as [|? ? Hw _]. destruct Hw as [Hne Hw].
  unfold gettoken. cbn [p_pos p_heap]. rewrite (skip_here _ p H). unfold token_at. rewrite (here_first _ p H). cbn [first_char chars].
  destruct w as [|c w]; [done|]. set (w' := c :: w) in *. change (hd 0 w') with c. pose proof Hw as Hw0. inversion_clear Hw0 as [|? ? (H0 & H1 & H2) _].
  replace (c =? 0) with false by lia.
  assert (has [124; 40; 41; 59; 38; 60] c = false) as ->.
  { destruct (has [124; 40; 41; 59; 38; 60] c) eqn:E; [|done]. apply has_in in E; [|repeat constructor; lia]. exfalso.
    repeat (apply elem_of_cons in E as [E|E]; [rewrite E in H2; done|]). by apply elem_of_nil in E. }
  destruct (c =? 62) eqn:E62; [apply Z.eqb_eq in E62; subst c; done|].
  rewrite (word_end_here w'); [by rewrite Hs|done|lia| |].
  - intros j y Hj. rewrite (here_at _ p j H), flat_cons, <- app_assoc, lookup_app_l by (cbn [chars]; by eapply lookup_lt_Some). cbn [chars]. by rewrite Hj.
  - rewrite (here_at _ p _ H), flat_cons, <- app_assoc, lookup_app_r, Nat.sub_diag by (cbn [chars]; lia). done.
Qed.

Lemma gettoken_end p h : here [] p -> gettoken buf es (mkP p h) = Done (0, p, p) (mkP p h).
Proof.
  intros H. unfold gettoken. cbn [p_pos p_heap]. rewrite (skip_here _ p H). unfold token_at. rewrite (here_first _ p H). cbn [first_char Z.eqb].
  by rewrite (skip_here _ p H).
Qed.

(** ** The parts of the grammar *)

(** The indices of a word of the line. *)
Definition span (qe : nat * nat) (w : list Z) : Prop := exists ts, here (Word w :: ts) (fst qe) /\ snd qe = (fst qe + length w)%nat.

(** From [p], the routine reads up to [ts] and makes the tree [t]. *)
Definition parsed (r : res pst nat) (h : list node) (ts : list token) (t : tree) : Prop :=
  exists a h' p', r = Done a (mkP p' h') /\ here ts p' /\ h `prefix_of` h' /\ reps span h' a t.

(** What may come next. *)
Definition next_in (cs : list Z) (ts : list token) : Prop :=
  match ts with
  | [] => True
  | Sym c :: _ => c ∈ cs
  | Word _ :: _ => False
  end.

Lemma next_in_mono cs cs' ts : cs ⊆ cs' -> next_in cs ts -> next_in cs' ts.
Proof. destruct ts as [|[c|w] ts]; simpl; auto. Qed.

Lemma peek_next cs cs' ts p h :
  here ts p -> (forall c, has cs c = true -> c ∈ symbols) -> next_in cs' ts -> (forall c, c ∈ cs' -> has cs c = false) ->
  peek buf es cs (mkP p h) = Done false (mkP p h).
Proof.
  intros H Hcs Hn Hno. rewrite (peek_here cs ts p h H Hcs). destruct ts as [|[c|w] ts]; [done| |done]. by rewrite (Hno c).
Qed.

Lemma has_symbols cs c : cs ⊆ symbols -> has cs c = true -> c ∈ symbols.
Proof.
  intros Hs H. apply Hs. unfold has in H. destruct (strchr cs c) eqn:E; [|done]. apply strchr_Some in E as (E & _). by eapply list_elem_of_lookup_2.
Qed.

Definition rtoks (rs : list (rkind * list Z)) : list token := concat ((fun r => [Sym (rsym (fst r)); Word (snd r)]) <$> rs).

Definition wrap (t : tree) (rs : list (rkind * list Z)) : tree := foldl (fun t r => TRedir t (fst r) (snd r)) t rs.

Lemma lookup_new {A} (l : list A) x : (l ++ [x]) !! length l = Some x.
Proof. rewrite lookup_app_r, Nat.sub_diag by lia. done. Qed.

Lemma parseredirs_parsed rs : forall fuel a p h t ts,
  here (rtoks rs ++ ts) p -> match ts with Sym c :: _ => has [60; 62] c = false | _ => True end ->
  (length rs < fuel)%nat -> reps span h a t -> parsed (parseredirs buf es fuel a (mkP p h)) h ts (wrap t rs).
Proof.
  induction rs as [|[k f] rs IH]; intros fuel a p h t ts Hh Hn Hf Hr; (destruct fuel as [|fuel]; [simpl in Hf; lia|]); cbn [parseredirs];
    rewrite bind_eq, (peek_here [60; 62] _ p h Hh) by (intros c; apply has_symbols; set_solver); cbn [res_bind].
  - cbn [rtoks concat fmap list_fmap app] in Hh |- *. replace (match ts with Sym c :: _ => _ | _ => _ end) with false by (by destruct ts as [|[]]).
    cbn [negb]. rewrite ret_eq. exists a, h, p. split; [done|]. split; [done|]. split; [done|done].
  - change (rtoks ((k, f) :: rs) ++ ts) with (Sym (rsym k) :: Word f :: rtoks rs ++ ts) in Hh |- *. cbv iota.
    replace (has [60; 62] (rsym k)) with true by (by destruct k). cbn [negb].
    destruct (gettoken_sym _ _ p h Hh) as (q0 & e0 & E1 & Hh1). rewrite bind_eq, E1. cbn [res_bind].
    destruct (gettoken_word _ _ _ h Hh1) as [E2 Hh2]. rewrite bind_eq, E2. cbn [res_bind]. change (97 =? 97) with true. cbn [negb].
    set (nd := REDIR a (p + 2) (p + 2 + length f) (fst (rmode k)) (snd (rmode k))).
    assert (forall s, (if rsym k =? 60 then new (REDIR a (p + 2) (p + 2 + length f) O_RDONLY 0)
              else if rsym k =? 62 then new (REDIR a (p + 2) (p + 2 + length f) O_WRONLY_CREATE 1)
              else if rsym k =? 43 then new (REDIR a (p + 2) (p + 2 + length f) O_WRONLY_CREATE 1)
              else ret a) s = new nd s) as En by (by destruct k).
    rewrite bind_eq, En. cbn [new res_bind p_pos p_heap].
    destruct (IH fuel (length h) (p + 2 + length f + 1)%nat (h ++ [nd]) (TRedir t k f) ts Hh2 Hn) as (a' & h' & p' & E & Hh' & Hpre & Hreps);
      [simpl in Hf; lia| |].
    + eapply reps_redir; [apply lookup_new| |eapply reps_prefix; [exact Hr|by apply prefix_app_r]]. by exists (rtoks rs ++ ts).
    + exists a', h', p'. split; [exact E|]. split; [done|]. split; [|done]. etrans; [by apply prefix_app_r|exact Hpre].
Qed.

(** After the last argument. *)
Lemma parseargs_end fuel cmd r argc ts p h :
  here ts p -> next_in [124; 41; 38; 59] ts -> (0 < fuel)%nat ->
  parseargs buf es fuel cmd r argc (mkP p h) = Done r (mkP p h).
Proof.
  intros Hh Hn Hf. destruct fuel as [|fuel]; [lia|]. cbn [parseargs].
  rewrite bind_eq, (peek_here _ _ p h Hh) by (intros c; apply has_symbols; set_solver). cbn [res_bind].
  destruct ts as [|[c|w] ts]; cbn [next_in] in Hn; [|replace (has _ c) with true; [done|]|done].
  - rewrite bind_eq, (gettoken_end p h Hh). cbn [res_bind]. done.
  - repeat (apply elem_of_cons in Hn as [->|Hn]; [done|]). by apply elem_of_nil in Hn.
Qed.

(** No redirections here. *)
Lemma no_redirs fuel a p h ts :
  here ts p -> match ts with Sym c :: _ => has [60; 62] c = false | _ => True end -> (0 < fuel)%nat ->
  parseredirs buf es fuel a (mkP p h) = Done a (mkP p h).
Proof.
  intros Hh Hn Hf. destruct fuel as [|fuel]; [lia|]. cbn [parseredirs].
  rewrite bind_eq, (peek_here [60; 62] _ p h Hh) by (intros c; apply has_symbols; set_solver). cbn [res_bind].
  by replace (match ts with Sym c :: _ => _ | _ => _ end) with false by (by destruct ts as [|[]]).
Qed.

Lemma next_no_redir ts : next_in [124; 41; 38; 59] ts -> match ts with Sym c :: _ => has [60; 62] c = false | _ => True end.
Proof.
  destruct ts as [|[c|w] ts]; simpl; try done. intros H. repeat (apply elem_of_cons in H as [->|H]; [done|]). by apply elem_of_nil in H.
Qed.

Lemma length_rtoks rs : (length rs <= length (flat (rtoks rs)))%nat.
Proof.
  induction rs as [|[k f] rs IH]; [done|]. change (rtoks ((k, f) :: rs)) with (Sym (rsym k) :: Word f :: rtoks rs).
  rewrite !flat_cons, !length_app. simpl. rewrite length_app. simpl. lia.
Qed.

(** The arguments of a simple command, and its redirections. *)
Lemma parseargs_parsed ws : forall fuel args done p h0 rs ts,
  ws <> [] -> here ((Word <$> ws) ++ rtoks rs ++ ts) p -> next_in [124; 41; 38; 59] ts -> (length ws < fuel)%nat ->
  (length args + length ws < MAXARGS)%nat -> Forall2 span args done ->
  parsed (parseargs buf es fuel (length h0) (length h0) (length args) (mkP p (h0 ++ [EXEC args]))) h0 ts (wrap (TExec (done ++ ws)) rs).
Proof.
  induction ws as [|w ws IH]; intros fuel args dn p h0 rs ts Hne Hh Hn Hf Hmax Hargs; [done|]. destruct fuel as [|fuel]; [simpl in Hf; lia|].
  cbn [fmap list_fmap app] in Hh. cbn [parseargs].
  rewrite bind_eq, (peek_here _ _ p _ Hh) by (intros c; apply has_symbols; set_solver). cbn [res_bind]. cbv iota.
  destruct (gettoken_word _ _ _ (h0 ++ [EXEC args]) Hh) as [E2 Hh2]. rewrite bind_eq, E2. cbn [res_bind].
  change (97 =? 0) with false. change (97 =? 97) with true. cbn [negb].
  rewrite bind_eq. unfold set_arg at 1. cbn [p_heap p_pos]. rewrite lookup_new. cbn [res_bind].
  rewrite insert_app_r_alt, Nat.sub_diag by lia. cbn [insert list_insert]. set (args' := args ++ [(p, (p + length w)%nat)]).
  simpl in Hmax. replace (MAXARGS <=? S (length args))%nat with false by (symmetry; apply Nat.leb_gt; lia). cbv iota.
  assert (length args' = S (length args)) as El by (unfold args'; rewrite length_app; simpl; lia). rewrite <- El.
  assert (Forall2 span args' (dn ++ [w])) as Hargs'.
  { apply Forall2_app; [done|]. constructor; [|constructor]. by exists ((Word <$> ws) ++ rtoks rs ++ ts). }
  pose proof (here_es _ _ Hh2) as He. rewrite bind_eq. destruct ws as [|w2 ws].
  - cbn [fmap list_fmap app] in Hh2, He. rewrite flat_app, length_app in He. pose proof (length_rtoks rs).
    destruct (parseredirs_parsed rs (S es) (length h0) (p + length w + 1) (h0 ++ [EXEC args']) (TExec (dn ++ [w])) ts Hh2 (next_no_redir ts Hn))
      as (a & h' & p' & E & Hh' & Hpre & Hreps); [lia|eapply reps_exec; [apply lookup_new|done]|].
    rewrite E. cbn [res_bind]. rewrite (parseargs_end _ _ _ _ ts p' h' Hh' Hn) by (simpl in Hf; lia).
    exists a, h', p'. split; [done|]. split; [done|]. split; [|done]. etrans; [by apply prefix_app_r|exact Hpre].
  - rewrite (no_redirs _ _ _ _ _ Hh2) by (done || lia). cbn [res_bind].
    destruct (IH fuel args' (dn ++ [w]) _ h0 rs ts ltac:(done) Hh2 Hn) as (a & h' & p' & E & Hh' & Hpre & Hreps); [simpl in Hf |- *; lia|simpl in *; lia|done|].
    exists a, h', p'. split; [exact E|]. split; [done|]. split; [done|]. by rewrite <- app_assoc in Hreps.
Qed.

(** ** The levels *)

Definition Espec (t : tree) : Prop := forall n ts p h,
  here (toks 0 t ++ ts) p -> next_in [124; 41; 38; 59] ts -> (4 * length (flat (toks 0 t ++ ts)) + 2 <= n)%nat ->
  parsed (parseexec buf es n (mkP p h)) h ts t.

Definition Pspec (t : tree) : Prop := forall n ts p h,
  here (toks 1 t ++ ts) p -> next_in [41; 38; 59] ts -> (4 * length (flat (toks 1 t ++ ts)) + 3 <= n)%nat ->
  parsed (parsepipe buf es n (mkP p h)) h ts t.

Definition Bspec (t : tree) : Prop := forall n ts p h,
  here (toks 2 t ++ ts) p -> next_in [41; 59] ts -> (4 * length (flat (toks 2 t ++ ts)) + 3 <= n)%nat ->
  parsed ((cmd <- parsepipe buf es n ;; parseback buf es (S es) cmd) (mkP p h)) h ts t.

Definition Lspec (t : tree) : Prop := forall n ts p h,
  here (toks 3 t ++ ts) p -> next_in [41] ts -> (4 * length (flat (toks 3 t ++ ts)) + 4 <= n)%nat ->
  parsed (parseline buf es n (mkP p h)) h ts t.

Lemma peek_no_paren ts p h c :
  here ts p -> match ts with Sym d :: _ => has [c] d = false | _ => True end -> c ∈ symbols ->
  peek buf es [c] (mkP p h) = Done false (mkP p h).
Proof.
  intros Hh Hn Hc. rewrite (peek_here [c] ts p h Hh) by (intros d; apply has_symbols; set_solver). by destruct ts as [|[d|w] ts]; [|rewrite Hn|].
Qed.

Lemma next_not cs c ts : next_in cs ts -> has cs c = false -> Forall (fun x => x <> 0) cs -> match ts with Sym d :: _ => has [c] d = false | _ => True end.
Proof.
  destruct ts as [|[d|w] ts]; simpl; try done. intros Hd Hc Hz. unfold has. simpl. destruct (nz c) eqn:Ec; simpl; [|done].
  destruct (c =? d) eqn:E; [|done]. apply Z.eqb_eq in E. subst d. exfalso. unfold has in Hc. destruct (strchr cs c) eqn:Es; [done|].
  by apply strchr_None in Es.
Qed.

Lemma E_exec ws rs : tree_ok (TExec ws) -> toks 0 (wrap (TExec ws) rs) = (Word <$> ws) ++ rtoks rs -> Espec (wrap (TExec ws) rs).
Proof.
  intros [Hmax Hws] Et n ts p h Hh Hn Hf. rewrite Et, <- app_assoc in Hh. destruct n as [|n]; [lia|]. rewrite parseexec_S.
  rewrite bind_eq, (peek_no_paren _ p h 40 Hh).
  2:{ destruct ws; [|done]. cbn [fmap list_fmap app]. destruct rs as [|[[] f] rs]; [|done..]. cbn [rtoks concat fmap list_fmap app].
      apply (next_not [124; 41; 38; 59]); [done|done|repeat constructor; lia]. }
  2:{ unfold symbols. set_solver. }
  cbn [res_bind]. rewrite bind_eq. cbn [new res_bind p_pos p_heap]. rewrite bind_eq. pose proof (here_es _ _ Hh) as He. rewrite !flat_app, !length_app in He.
  destruct ws as [|w ws].
  - cbn [fmap list_fmap app] in Hh. pose proof (length_rtoks rs).
    destruct (parseredirs_parsed rs (S es) (length h) p (h ++ [EXEC []]) (TExec []) ts Hh (next_no_redir ts Hn)) as (a & h' & p' & E & Hh' & Hpre & Hreps);
      [lia|eapply reps_exec; [apply lookup_new|constructor]|].
    rewrite E. cbn [res_bind]. rewrite (parseargs_end _ _ _ _ ts p' h' Hh' Hn) by lia. exists a, h', p'. split; [done|]. split; [done|].
    split; [|done]. etrans; [by apply prefix_app_r|exact Hpre].
  - rewrite (no_redirs _ _ _ _ _ Hh) by (done || lia). cbn [res_bind].
    apply (parseargs_parsed (w :: ws) (S es) [] [] p h rs ts); try done.
    assert (length (w :: ws) <= length (flat (Word <$> (w :: ws))))%nat as Hl.
    { clear. generalize (w :: ws). intros l. induction l as [|x l IH]; [done|]. cbn [fmap list_fmap length]. rewrite flat_cons, length_app. simpl. lia. }
    lia.
Qed.

Lemma E_block base rs :
  toks 0 (wrap base rs) = paren (toks 3 base) ++ rtoks rs -> Lspec base -> Espec (wrap base rs).
Proof.
  intros Et Hl n ts p h Hh Hn Hf. rewrite Et in Hh, Hf. unfold paren in Hh, Hf. cbn [app] in Hh, Hf. rewrite <- !app_assoc in Hh, Hf. cbn [app] in Hh, Hf.
  rewrite flat_cons in Hf. cbn [chars app length] in Hf. destruct n as [|n]; [lia|]. rewrite parseexec_S.
  assert (forall d, has [40] d = true -> d ∈ symbols) as Hs40 by (intros d; apply has_symbols; unfold symbols; set_solver).
  assert (forall d, has [41] d = true -> d ∈ symbols) as Hs41 by (intros d; apply has_symbols; unfold symbols; set_solver).
  rewrite bind_eq, (peek_here [40] _ p h Hh) by done. cbn [res_bind]. change (has [40] 40) with true. cbv iota.
  destruct n as [|n]; [lia|]. rewrite parseblock_S. rewrite bind_eq, (peek_here [40] _ p h Hh) by done. cbn [res_bind].
  change (has [40] 40) with true. cbn [negb]. destruct (gettoken_sym _ _ p h Hh) as (q0 & e0 & E1 & Hh1). rewrite bind_eq, E1. cbn [res_bind].
  destruct (Hl n (Sym 41 :: rtoks rs ++ ts) _ h Hh1) as (a & h' & p' & E & Hh' & Hpre & Hreps); [simpl; set_solver|lia|].
  rewrite bind_eq, E. cbn [res_bind]. rewrite bind_eq, (peek_here [41] _ p' h' Hh') by done. cbn [res_bind]. change (has [41] 41) with true. cbn [negb].
  destruct (gettoken_sym _ _ p' h' Hh') as (q1 & e1 & E2 & Hh2). rewrite bind_eq, E2. cbn [res_bind].
  pose proof (here_es _ _ Hh2) as He. rewrite flat_app, length_app in He. pose proof (length_rtoks rs).
  destruct (parseredirs_parsed rs (S es) a _ h' base ts Hh2 (next_no_redir ts Hn)) as (a3 & h3 & p3 & E3 & Hh3 & Hpre3 & Hreps3); [lia|done|].
  exists a3, h3, p3. split; [exact E3|]. split; [done|]. split; [by etrans|done].
Qed.

Lemma P_of_E t : toks 1 t = toks 0 t -> Espec t -> Pspec t.
Proof.
  intros Et He n ts p h Hh Hn Hf. rewrite Et in Hh, Hf. destruct n as [|n]; [lia|]. rewrite parsepipe_S.
  destruct (He n ts p h Hh) as (a & h' & p' & E & Hh' & Hpre & Hreps); [eapply next_in_mono; [|exact Hn]; set_solver|lia|].
  rewrite bind_eq, E. cbn [res_bind]. rewrite bind_eq, (peek_no_paren ts p' h' 124 Hh').
  - cbn [res_bind]. rewrite ret_eq. by exists a, h', p'.
  - apply (next_not [41; 38; 59]); [done|done|repeat constructor; lia].
  - unfold symbols. set_solver.
Qed.

Lemma P_pipe l r : Espec l -> Pspec r -> Pspec (TPipe l r).
Proof.
  intros Hl Hr n ts p h Hh Hn Hf. cbn [toks Nat.leb] in Hh, Hf. rewrite <- app_assoc in Hh, Hf. cbn [app] in Hh, Hf.
  rewrite flat_app, length_app in Hf. destruct n as [|n]; [lia|]. rewrite parsepipe_S.
  destruct (Hl n _ p h Hh) as (a & h' & p' & E & Hh' & Hpre & Hreps); [simpl; set_solver|rewrite flat_app, length_app; lia|].
  rewrite bind_eq, E. cbn [res_bind]. rewrite bind_eq, (peek_here [124] _ p' h' Hh') by (intros d; apply has_symbols; unfold symbols; set_solver).
  cbn [res_bind]. change (has [124] 124) with true. cbv iota.
  destruct (gettoken_sym _ _ p' h' Hh') as (q1 & e1 & E2 & Hh2). rewrite bind_eq, E2. cbn [res_bind].
  rewrite flat_cons, length_app in Hf. cbn [chars length] in Hf.
  destruct (Hr n ts _ h' Hh2 Hn) as (a3 & h3 & p3 & E3 & Hh3 & Hpre3 & Hreps3); [lia|]. rewrite bind_eq, E3. cbn [res_bind new p_pos p_heap].
  exists (length h3), (h3 ++ [PIPE a a3]), p3. split; [done|]. split; [done|]. split; [etrans; [exact Hpre|]; etrans; [exact Hpre3|by apply prefix_app_r]|].
  eapply reps_pipe; [apply lookup_new|..]; eapply reps_prefix; [exact Hreps|etrans; [exact Hpre3|by apply prefix_app_r]|exact Hreps3|by apply prefix_app_r].
Qed.

Definition backs (k : nat) (t : tree) : tree := Nat.iter k TBack t.

Lemma parseback_parsed k : forall fuel a p h t ts,
  here (replicate k (Sym 38) ++ ts) p -> match ts with Sym d :: _ => has [38] d = false | _ => True end -> (k < fuel)%nat ->
  reps span h a t -> parsed (parseback buf es fuel a (mkP p h)) h ts (backs k t).
Proof.
  induction k as [|k IH]; intros fuel a p h t ts Hh Hn Hf Hr; (destruct fuel as [|fuel]; [lia|]); cbn [parseback].
  - cbn [replicate app] in Hh. rewrite bind_eq, (peek_no_paren ts p h 38 Hh Hn) by (unfold symbols; set_solver). cbn [res_bind negb].
    exists a, h, p. done.
  - cbn [replicate app] in Hh. rewrite bind_eq, (peek_here [38] _ p h Hh) by (intros d; apply has_symbols; unfold symbols; set_solver).
    cbn [res_bind]. change (has [38] 38) with true. cbn [negb].
    destruct (gettoken_sym _ _ p h Hh) as (q1 & e1 & E2 & Hh2). rewrite bind_eq, E2. cbn [res_bind].
    rewrite bind_eq. cbn [new res_bind p_pos p_heap].
    destruct (IH fuel (length h) _ (h ++ [BACK a]) (TBack t) ts Hh2 Hn) as (a3 & h3 & p3 & E3 & Hh3 & Hpre3 & Hreps3);
      [lia|eapply reps_back; [apply lookup_new|eapply reps_prefix; [exact Hr|by apply prefix_app_r]]|].
    exists a3, h3, p3. split; [exact E3|]. split; [done|]. split; [etrans; [by apply prefix_app_r|exact Hpre3]|].
    unfold backs in *. by rewrite <- Nat.iter_succ_r in Hreps3.
Qed.

Lemma B_backs k c : toks 2 (backs k c) = toks 1 c ++ replicate k (Sym 38) -> Pspec c -> Bspec (backs k c).
Proof.
  intros Et Hp n ts p h Hh Hn Hf. rewrite Et, <- app_assoc in Hh, Hf.
  destruct (Hp n _ p h Hh) as (a & h' & p' & E & Hh' & Hpre & Hreps); [|lia|].
  { destruct k; [eapply next_in_mono; [|exact Hn]; set_solver|simpl; set_solver]. }
  rewrite bind_eq, E. cbn [res_bind]. pose proof (here_es _ _ Hh') as He. rewrite flat_app, length_app in He.
  assert (k <= length (flat (replicate k (Sym 38))))%nat as Hk.
  { clear. induction k as [|k IH]; [done|]. cbn [replicate]. rewrite flat_cons, length_app. simpl. lia. }
  destruct (parseback_parsed k (S es) a p' h' c ts Hh') as (a3 & h3 & p3 & E3 & Hh3 & Hpre3 & Hreps3);
    [apply (next_not [41; 59]); [done|done|repeat constructor; lia]|lia|done|].
  exists a3, h3, p3. split; [exact E3|]. split; [done|]. split; [by etrans|done].
Qed.

Lemma L_of_B t : toks 3 t = toks 2 t -> Bspec t -> Lspec t.
Proof.
  intros Et Hb n ts p h Hh Hn Hf. rewrite Et in Hh, Hf. destruct n as [|n]; [lia|]. rewrite parseline_S.
  destruct (Hb n ts p h Hh) as (a & h' & p' & E & Hh' & Hpre & Hreps); [eapply next_in_mono; [|exact Hn]; set_solver|lia|].
  rewrite bind_eq in E |- *. destruct (parsepipe buf es n (mkP p h)) as [a0 s0| | | | |]; try done. cbn [res_bind] in E |- *.
  rewrite bind_eq, E. cbn [res_bind]. rewrite bind_eq, (peek_no_paren ts p' h' 59 Hh').
  - cbn [res_bind]. rewrite ret_eq. by exists a, h', p'.
  - apply (next_not [41]); [done|done|repeat constructor; lia].
  - unfold symbols. set_solver.
Qed.

Lemma L_list l r : Bspec l -> Lspec r -> Lspec (TList l r).
Proof.
  intros Hl Hr n ts p h Hh Hn Hf. cbn [toks Nat.leb] in Hh, Hf. rewrite <- app_assoc in Hh, Hf. cbn [app] in Hh, Hf.
  rewrite flat_app, length_app in Hf. destruct n as [|n]; [lia|]. rewrite parseline_S.
  destruct (Hl n _ p h Hh) as (a & h' & p' & E & Hh' & Hpre & Hreps); [simpl; set_solver|rewrite flat_app, length_app; lia|].
  rewrite bind_eq in E |- *. destruct (parsepipe buf es n (mkP p h)) as [a0 s0| | | | |]; try done. cbn [res_bind] in E |- *.
  rewrite bind_eq, E. cbn [res_bind]. rewrite bind_eq, (peek_here [59] _ p' h' Hh') by (intros d; apply has_symbols; unfold symbols; set_solver).
  cbn [res_bind]. change (has [59] 59) with true. cbv iota.
  destruct (gettoken_sym _ _ p' h' Hh') as (q1 & e1 & E2 & Hh2). rewrite bind_eq, E2. cbn [res_bind].
  rewrite flat_cons, length_app in Hf. cbn [chars length] in Hf.
  destruct (Hr n ts _ h' Hh2 Hn) as (a3 & h3 & p3 & E3 & Hh3 & Hpre3 & Hreps3); [lia|]. rewrite bind_eq, E3. cbn [res_bind new p_pos p_heap].
  exists (length h3), (h3 ++ [LIST a a3]), p3. split; [done|]. split; [done|]. split; [etrans; [exact Hpre|]; etrans; [exact Hpre3|by apply prefix_app_r]|].
  eapply reps_list; [apply lookup_new|..]; eapply reps_prefix; [exact Hreps|etrans; [exact Hpre3|by apply prefix_app_r]|exact Hreps3|by apply prefix_app_r].
Qed.

(** *** All levels of a tree *)

Fixpoint size (t : tree) : nat :=
  match t with
  | TExec _ => 1
  | TRedir t _ _ | TBack t => S (size t)
  | TPipe l r | TList l r => S (size l + size r)
  end.

(** The command below the redirections. *)
Lemma spine t :
  tree_ok t -> exists base rs, t = wrap base rs /\ tree_ok base /\ toks 0 t = toks 0 base ++ rtoks rs /\
    match base with TRedir _ _ _ => False | _ => True end /\ (size base <= size t)%nat /\ (rs <> [] -> (size base < size t)%nat).
Proof.
  induction t as [ws|t IH k f|l _ r _|l _ r _|t _]; intros Htree;
    try (match goal with |- exists base rs, ?t = _ /\ _ => exists t, [] end; change (rtoks []) with (@nil token); rewrite app_nil_r;
      do 4 (split; [done|]); split; [lia|done]).
  destruct Htree as [Ht Hf]. destruct (IH Ht) as (base & rs & E & Hb & Et & Hm & Hs & _). exists base, (rs ++ [(k, f)]).
  assert (wrap base (rs ++ [(k, f)]) = TRedir (wrap base rs) k f) as -> by (unfold wrap; by rewrite foldl_app).
  cbn [toks size]. rewrite Et. unfold rtoks. rewrite fmap_app, concat_app, <- app_assoc, <- E. repeat split; done || lia.
Qed.

Lemma back_spine t :
  tree_ok t -> exists k c, t = backs k c /\ tree_ok c /\ toks 2 t = toks 2 c ++ replicate k (Sym 38) /\
    match c with TBack _ => False | _ => True end /\ (0 < k -> (size c < size t)%nat)%nat.
Proof.
  induction t as [ws|t _ k f|l _ r _|l _ r _|t IH]; intros Htree;
    try (match goal with |- exists k c, ?t = _ /\ _ => exists 0%nat, t end; change (replicate 0 (Sym 38)) with (@nil token);
      rewrite app_nil_r; do 4 (split; [done|]); lia).
  destruct (IH Htree) as (k & c & E & Hc & Et & Hm & Hs). exists (S k), c. cbn [toks Nat.leb size]. rewrite Et, <- app_assoc.
  assert (replicate k (Sym 38) ++ [Sym 38] = replicate (S k) (Sym 38)) as -> by (by rewrite <- replicate_S_end).
  split; [by rewrite E at 1|]. split; [done|]. split; [done|]. split; [done|]. intros _. destruct k; [|lia]. simpl in E. subst. lia.
Qed.

Lemma E_spine t :
  tree_ok t -> (forall base, (size base < size t)%nat -> tree_ok base -> Lspec base) ->
  match t with TExec _ | TRedir _ _ _ => True | _ => Lspec t end -> Espec t.
Proof.
  intros Htree IH Ht. destruct (spine t Htree) as (base & rs & -> & Hb & Et & Hm & Hs & Hlt).
  assert (match base with TExec _ | TRedir _ _ _ => True | _ => Lspec base end) as Hl.
  { destruct rs as [|r rs]; [exact Ht|]. pose proof (IH base (Hlt ltac:(done)) Hb). by destruct base. }
  destruct base as [ws|t k f|l r|l r|t]; [by apply E_exec|done|..]; apply E_block; done.
Qed.

Lemma levels t : tree_ok t -> Espec t /\ Pspec t /\ Bspec t /\ Lspec t.
Proof.
  remember (size t) as n eqn:En. assert (size t <= n)%nat as Hn by lia. clear En. revert t Hn.
  induction n as [|n IH]; intros t Hn Htree; [destruct t; simpl in Hn; lia|].
  assert (forall u, (size u < size t)%nat -> tree_ok u -> Espec u /\ Pspec u /\ Bspec u /\ Lspec u) as IHt by (intros u Hu; apply IH; lia).
  assert (match t with TExec _ | TRedir _ _ _ => True | _ => Lspec t end -> Espec t) as HE.
  { apply E_spine; [done|]. intros u Hu Hok'. by apply IHt. }
  assert (match t with TBack _ => True | _ => Pspec t end -> toks 2 t = toks 1 t \/ (exists u, t = TBack u) -> Bspec t) as HB.
  { intros Hp Hcase. destruct (back_spine t Htree) as (k & c & E & Hc & Et & Hm & Hs).
    destruct k as [|k].
    - simpl in E. subst c. replace t with (backs 0 t) by done. destruct Hcase as [E21|[u ->]]; [|done].
      apply B_backs; [by rewrite app_nil_r|]. by destruct t.
    - rewrite E in Et |- *. apply B_backs; [|apply IHt; [rewrite E; rewrite E in Hs; apply Hs; lia|done]].
      rewrite Et. f_equal. by destruct c. }
  destruct t as [ws|u k f|l r|l r|u].
  - assert (Espec (TExec ws)) as He by (by apply HE). assert (Pspec (TExec ws)) as Hp by (by apply P_of_E).
    assert (Bspec (TExec ws)) as Hb by (apply HB; [done|by left]). repeat split; try done. by apply L_of_B.
  - assert (Espec (TRedir u k f)) as He by (by apply HE). assert (Pspec (TRedir u k f)) as Hp by (by apply P_of_E).
    assert (Bspec (TRedir u k f)) as Hb by (apply HB; [done|by left]). repeat split; try done. by apply L_of_B.
  - destruct Htree as [Hl Hr]. simpl in IHt. assert (Pspec (TPipe l r)) as Hp by (apply P_pipe; apply IHt; done || lia).
    assert (Bspec (TPipe l r)) as Hb by (apply HB; [done|by left]). assert (Lspec (TPipe l r)) as HL by (by apply L_of_B).
    repeat split; try done. by apply HE.
  - destruct Htree as [Hl Hr]. simpl in IHt. assert (Lspec (TList l r)) as HL by (apply L_list; apply IHt; done || lia).
    assert (Espec (TList l r)) as He by (by apply HE). assert (Pspec (TList l r)) as Hp by (by apply P_of_E).
    repeat split; try done. apply HB; [done|by left].
  - assert (Bspec (TBack u)) as Hb by (apply HB; [done|right; by exists u]). assert (Lspec (TBack u)) as HL by (by apply L_of_B).
    assert (Espec (TBack u)) as He by (by apply HE). repeat split; try done. by apply P_of_E.
Qed.

(** ** The strings *)

(** Only spaces after words become nulls. *)
Definition nulled (b b' : list Z) : Prop :=
  forall j, b' !! j = b !! j \/ (b' !! j = Some 0 /\ buf !! j = Some 32).

Lemma span_space qe w : span qe w -> buf !! snd qe = Some 32.
Proof.
  intros (ts & (pre & E & Ep) & ->). unfold buf. rewrite E, flat_app, flat_cons, <- !app_assoc, Ep. cbn [chars].
  rewrite lookup_app_r by lia. replace (length (flat pre) + length w - length (flat pre))%nat with (length w) by lia.
  rewrite lookup_app_r, Nat.sub_diag by lia. done.
Qed.

Lemma null_spaces args ws : forall b, Forall2 span args ws -> length b = length buf ->
  let b' := foldl (fun b qe => <[snd qe := 0]> b) b args in
  length b' = length buf /\ (forall j, b' !! j = b !! j \/ (b' !! j = Some 0 /\ buf !! j = Some 32)) /\
  (forall j, b !! j = Some 0 -> b' !! j = Some 0) /\ Forall2 (fun qe w => span qe w /\ b' !! snd qe = Some 0) args ws.
Proof.
  intros b H. revert b. induction H as [|qe w args ws Hs H IH]; intros b Hl; cbv zeta; cbn [foldl]; [by repeat split; auto|].
  pose proof (span_space qe w Hs) as Hsp. pose proof (lookup_lt_Some _ _ _ Hsp) as Hlt.
  destruct (IH (<[snd qe := 0]> b)) as (L & C & Z0 & F); [by rewrite length_insert|]. cbv zeta in *. set (b' := foldl _ _ args) in *.
  assert (<[snd qe := 0]> b !! snd qe = Some 0) as H0 by (apply list_lookup_insert_eq; lia).
  split; [done|]. split; [|split].
  - intros j. destruct (C j) as [E|E]; [|by right]. destruct (decide (j = snd qe)) as [->|Hne].
    + right. by rewrite (Z0 _ H0).
    + left. by rewrite E, list_lookup_insert_ne.
  - intros j Hj. apply Z0. destruct (decide (j = snd qe)) as [->|Hne]; [done|]. by rewrite list_lookup_insert_ne.
  - constructor; [split; [done|by apply Z0]|]. done.
Qed.

(** [nulterminate] ends every word of the command. *)
Lemma nulterminate_words h a t : reps span h a t -> forall fuel b,
  (a < fuel)%nat -> heap_ok h -> length b = length buf -> exists b', nulterminate fuel h a b = Some b' /\ length b' = length buf /\
    nulled b b' /\ (forall j, b !! j = Some 0 -> b' !! j = Some 0) /\
    reps (fun qe w => span qe w /\ b' !! snd qe = Some 0) h a t.
Proof.
  induction 1 as [a args ws Ha Hw|a c q e k f t Ha Hf Ht IH|a l r t1 t2 Ha H1 IH1 H2 IH2|a l r t1 t2 Ha H1 IH1 H2 IH2|a c t Ha Ht IH];
    intros fuel b Hfuel Hh Hl; (destruct fuel as [|fuel]; [lia|]); cbn [nulterminate]; rewrite Ha; pose proof (Hh a _ Ha) as Hb; cbn [below] in Hb.
  - destruct (null_spaces args ws b Hw Hl) as (L & C & Z0 & F). eexists. split; [done|]. split; [done|]. split; [exact C|]. split; [done|].
    by eapply reps_exec.
  - destruct (IH fuel b ltac:(lia) Hh Hl) as (b' & -> & L & C & Z0 & R). cbn [fmap option_fmap option_map]. eexists. split; [done|].
    pose proof (span_space _ _ Hf) as Hsp. cbn [snd] in Hsp. pose proof (lookup_lt_Some _ _ _ Hsp) as Hlt.
    assert (forall j, b' !! j = Some 0 -> <[e := 0]> b' !! j = Some 0) as Hz.
    { intros j Hj. destruct (decide (j = e)) as [->|Hne]; [apply list_lookup_insert_eq; lia|by rewrite list_lookup_insert_ne]. }
    split; [by rewrite length_insert|]. split; [|split; [auto|]].
    + intros j. destruct (decide (j = e)) as [->|Hne]; [right; split; [apply list_lookup_insert_eq; lia|done]|]. rewrite list_lookup_insert_ne by done. apply C.
    + eapply reps_redir; [done|split; [done|cbn [snd]; apply list_lookup_insert_eq; lia]|]. eapply reps_impl; [|exact R]. cbv beta. intros qe w [Hs Hz']. auto.
  - destruct (IH1 fuel b ltac:(lia) Hh Hl) as (b1 & -> & L1 & C1 & Z1 & R1). destruct (IH2 fuel b1 ltac:(lia) Hh L1) as (b2 & -> & L2 & C2 & Z2 & R2).
    exists b2. split; [done|]. split; [done|]. split; [|split; [auto|]].
    + intros j. destruct (C2 j) as [E|E]; [rewrite E; apply C1|by right].
    + eapply reps_pipe; [done| |done]. eapply reps_impl; [|exact R1]. cbv beta. intros qe w [Hs Hz']. auto.
  - destruct (IH1 fuel b ltac:(lia) Hh Hl) as (b1 & -> & L1 & C1 & Z1 & R1). destruct (IH2 fuel b1 ltac:(lia) Hh L1) as (b2 & -> & L2 & C2 & Z2 & R2).
    exists b2. split; [done|]. split; [done|]. split; [|split; [auto|]].
    + intros j. destruct (C2 j) as [E|E]; [rewrite E; apply C1|by right].
    + eapply reps_list; [done| |done]. eapply reps_impl; [|exact R1]. cbv beta. intros qe w [Hs Hz']. auto.
  - destruct (IH fuel b ltac:(lia) Hh Hl) as (b' & -> & L & C & Z0 & R). exists b'. split; [done|]. split; [done|]. split; [done|]. split; [done|].
    by eapply reps_back.
Qed.

(** A word in the line with a null after it is a string. *)
Lemma word_string b qe w : word_ok w -> nulled buf b -> span qe w -> b !! snd qe = Some 0 -> text (drop (fst qe) b) = w.
Proof.
  intros [_ Hw] Hnl (ts & (pre & E & Ep) & Es) Hz. rewrite Es in Hz.
  assert (forall j c, w !! j = Some c -> b !! (fst qe + j)%nat = Some c) as Hc.
  { intros j c Hj. assert (buf !! (fst qe + j)%nat = Some c) as Hb.
    { unfold buf. rewrite E, flat_app, flat_cons, <- !app_assoc, Ep. cbn [chars]. rewrite lookup_app_r by lia.
      replace (length (flat pre) + j - length (flat pre))%nat with j by lia. rewrite lookup_app_l by (by eapply lookup_lt_Some). done. }
    destruct (Hnl (fst qe + j)%nat) as [->|[_ H32]]; [done|]. rewrite Hb in H32. injection H32 as ->.
    rewrite list.Forall_forall in Hw. destruct (Hw 32 (list_elem_of_lookup_2 _ _ _ Hj)) as (_ & Hs & _). done. }
  revert Hc Hz. generalize (fst qe) as p. clear E Ep Es qe. induction Hw as [|c w (Hc0 & _) _ IH]; intros p Hc Hz; simpl in Hz.
  - rewrite Nat.add_0_r in Hz. rewrite (drop_S _ _ _ Hz). done.
  - pose proof (Hc 0%nat c eq_refl) as H0. rewrite Nat.add_0_r in H0. rewrite (drop_S _ _ _ H0). unfold text. simpl.
    replace (nz c) with true by (unfold nz; lia). simpl. f_equal. apply (IH (S p)).
    + intros j x Hj. replace (S p + j)%nat with (p + S j)%nat by lia. by apply Hc.
    + by replace (S p + length w)%nat with (p + S (length w))%nat by lia.
Qed.

End Line.

(** ** The whole line *)

Lemma toks_ok t lvl : tree_ok t -> Forall token_ok (toks lvl t).
Proof.
  assert (forall c ts, c ∈ symbols -> Forall token_ok ts -> Forall token_ok (Sym c :: ts)) as Hs by (intros; by constructor).
  assert (forall c, c ∈ [40; 41; 124; 38; 59; 60; 62] -> c ∈ symbols) as Hin by (unfold symbols; set_solver).
  assert (forall ts, Forall token_ok ts -> Forall token_ok (paren ts)) as Hp.
  { intros ts H. unfold paren. apply Hs; [apply Hin; set_solver|]. apply Forall_app. split; [done|]. apply Hs; [apply Hin; set_solver|constructor]. }
  revert lvl. induction t as [ws|t IH k f|l IHl r IHr|l IHl r IHr|t IH]; intros lvl Ht; cbn [toks].
  - destruct Ht as [_ Hw]. induction Hw; constructor; auto.
  - destruct Ht as [Ht Hf]. apply Forall_app. split; [auto|]. apply Hs; [apply Hin; destruct k; set_solver|]. constructor; [done|constructor].
  - destruct Ht as [Hl Hr]. assert (Forall token_ok (toks 0 l ++ Sym 124 :: toks 1 r)) as H.
    { apply Forall_app. split; [auto|]. apply Hs; [apply Hin; set_solver|auto]. }
    destruct (1 <=? lvl)%nat; auto.
  - destruct Ht as [Hl Hr]. assert (Forall token_ok (toks 2 l ++ Sym 59 :: toks 3 r)) as H.
    { apply Forall_app. split; [auto|]. apply Hs; [apply Hin; set_solver|auto]. }
    destruct (3 <=? lvl)%nat; auto.
  - assert (Forall token_ok (toks 2 t ++ [Sym 38])) as H.
    { apply Forall_app. split; [auto|]. apply Hs; [apply Hin; set_solver|constructor]. }
    destruct (2 <=? lvl)%nat; auto.
Qed.

Lemma flat_nonzero ts : Forall token_ok ts -> Forall (fun c => c <> 0) (flat ts).
Proof.
  induction 1 as [|t ts Ht _ IH]; [constructor|]. rewrite flat_cons. apply Forall_app. split; [|constructor; [lia|done]].
  destruct t as [c|w]; cbn [token_ok chars] in *.
  - constructor; [|constructor]. intros ->. unfold symbols in Ht. set_solver by lia.
  - destruct Ht as [_ Hw]. induction Hw as [|c w (Hc & _) _ IHw]; constructor; done.
Qed.

Lemma strlen_flat s junk : Forall (fun c => c <> 0) s -> strlen (s ++ 0 :: junk) = length s.
Proof. induction 1 as [|c s Hc _ IH]; simpl; [done|]. replace (nz c) with true by (unfold nz; lia). by rewrite IH. Qed.

Lemma parsecmd_spec t junk : tree_ok t ->
  exists cmd line' s, parsecmd (show t ++ 0 :: junk) = Done (cmd, line') s /\ heap_ok (p_heap s) /\
    reps (fun qe w => text (drop (fst qe) line') = w) (p_heap s) cmd t.
Proof.
  intros Ht. set (ts0 := toks 3 t). pose proof (toks_ok t 3 Ht) as Hok. fold ts0 in Hok.
  unfold parsecmd, show. fold ts0. rewrite strlen_flat by (by apply flat_nonzero). fold (es ts0). fold (buf ts0 junk).
  destruct (levels ts0 junk Hok t Ht) as (_ & _ & _ & HL).
  destruct (HL (4 * es ts0 + 4)%nat [] 0%nat []) as (a & h' & p' & E & Hh & _ & Hreps).
  { exists []. rewrite app_nil_r. done. }
  { done. }
  { rewrite app_nil_r. unfold es. fold ts0. lia. }
  rewrite E. assert (at_ (buf ts0 junk) (es ts0) = 0) as Hes.
  { unfold at_, buf, es. rewrite lookup_app_r, Nat.sub_diag by lia. done. }
  pose proof (proj1 (parser_returns (buf ts0 junk) (es ts0) Hes (4 * es ts0 + 4)) (mkP 0 []) ltac:(simpl; lia) ltac:(done) ltac:(simpl; lia)) as Hret.
  rewrite E in Hret. destruct Hret as (_ & Hheap & _). cbn [p_heap] in Hheap.
  unfold peek. cbn [p_pos p_heap]. rewrite (skip_here ts0 junk Hok [] p' Hh). pose proof (here_es ts0 [] p' Hh) as He. cbn in He.
  rewrite Nat.add_0_r in He. rewrite He, Nat.eqb_refl. cbn [negb].
  destruct (nulterminate_words ts0 junk h' a t Hreps (S a) (buf ts0 junk) ltac:(lia) Hheap eq_refl) as (b' & -> & _ & Hnl & _ & R).
  exists a, b'. eexists. split; [done|]. cbn [p_heap]. split; [done|]. eapply reps_impl; [|exact R]. cbv beta. intros qe w [Hs Hz].
  apply (word_string ts0 junk b' qe w); try done. destruct Hs as (ts & Hw & _). pose proof (here_ok ts0 Hok _ _ Hw) as Hf. by inversion_clear Hf.
Qed.

(** C25. The shell's parser gives back every command: a tree of simple commands,
    redirections, pipes, lists and background commands, written as a line with
    parentheses where the grammar needs them, is parsed to nodes that form that
    tree; after [nulterminate] its words are strings in the line. *)
Theorem parsecmd_roundtrip t junk (Ht : tree_ok t) :
  exists cmd line' s, parsecmd (show t ++ 0 :: junk) = Done (cmd, line') s /\
    reps (fun qe w => text (drop (fst qe) line') = w) (p_heap s) cmd t.
Proof. destruct (parsecmd_spec t junk Ht) as (cmd & line' & s & E & _ & R). by exists cmd, line', s. Qed.

(** [ls -l | wc > f] *)
Definition tree_ls : tree := TPipe (TExec [[108; 115]; [45; 108]]) (TRedir (TExec [[119; 99]]) ROut [102]).

Lemma tree_ls_ok : tree_ok tree_ls.
Proof. repeat split; try (simpl; lia); try done; repeat constructor; done. Qed.

Lemma parsecmd_roundtrip_witness :
  show tree_ls = bytes_of "ls -l | wc > f " /\
  exists cmd line' s, parsecmd (show tree_ls ++ 0 :: [0]) = Done (cmd, line') s /\
    reps (fun qe w => text (drop (fst qe) line') = w) (p_heap s) cmd tree_ls.
Proof. split; [by vm_compute|]. exact (parsecmd_roundtrip tree_ls [0] tree_ls_ok). Defined.
