(* ===== verification/ShLine.v ===== *)
(** * Lines as they are typed (sh.c: gettoken, peek, nulterminate)

    White space is all the same to the parser: two lines that differ only in
    which white space they have are parsed to the same command.  So a command
    that ends in a newline is parsed like one that ends in a space. *)

From Stdlib Require Import FunctionalExtensionality.
From S2P Require Import Prelude Ulib Sh ShSpec.

Definition white (c : Z) : Prop := has whitespace c = true.

Lemma white_in c : white c -> c ∈ whitespace.
Proof.
  unfold white, has. destruct (strchr whitespace c) as [j|] eqn:E; [|done]. intros _. apply strchr_Some in E as [E _]. by eapply list_elem_of_lookup_2.
Qed.

(** A test that fails for all white space. *)
Definition blind (f : Z -> bool) : Prop := Forall (fun c => f c = false) whitespace.

Lemma blind_white f c : blind f -> white c -> f c = false.
Proof. intros Hf Hc%white_in. unfold blind in Hf. rewrite list.Forall_forall in Hf. auto. Qed.

(** The same characters, or white space in both. *)
Definition alike : list Z -> list Z -> Prop := Forall2 (fun c c' => c = c' \/ (white c /\ white c')).

Section Alike.
Context (b b' : list Z) (Hab : alike b b').

Lemma alike_at s : at_ b s = at_ b' s \/ (white (at_ b s) /\ white (at_ b' s)).
Proof.
  unfold at_. destruct (b !! s) as [c|] eqn:E.
  - destruct (Forall2_lookup_l _ _ _ _ _ Hab E) as (c' & E' & H). by rewrite E'.
  - apply lookup_ge_None in E. rewrite (Forall2_length Hab) in E. rewrite lookup_ge_None_2 by done. by left.
Qed.

Lemma alike_test f s : blind f -> f (at_ b s) = f (at_ b' s).
Proof. intros Hf. destruct (alike_at s) as [->|[H1 H2]]; [done|]. by rewrite !(blind_white f) by done. Qed.

Lemma alike_white s : has whitespace (at_ b s) = has whitespace (at_ b' s).
Proof. destruct (alike_at s) as [->|[-> ->]]; done. Qed.

Lemma skip_alike n s : skip b n s = skip b' n s.
Proof. revert s. induction n as [|n IH]; intros s; cbn [skip]; [done|]. by rewrite alike_white, IH. Qed.

Lemma skip_ws_alike es s : skip_ws b es s = skip_ws b' es s.
Proof. apply skip_alike. Qed.

Lemma word_end_alike n s : word_end b n s = word_end b' n s.
Proof.
  revert s. induction n as [|n IH]; intros s; cbn [word_end]; [done|]. rewrite alike_white, IH.
  by rewrite (alike_test (has symbols)) by (by repeat constructor).
Qed.

(** White space where a token should be is the beginning of a word. *)
Lemma token_at_alike es s : token_at b es s = token_at b' es s.
Proof.
  unfold token_at. rewrite (word_end_alike _ s), (alike_test (fun c => c =? 62) (S s)) by (by repeat constructor).
  destruct (alike_at s) as [->|[H1 H2]]; [done|]. rewrite !(blind_white (fun c => c =? 0)), !(blind_white (has [124; 40; 41; 59; 38; 60])), !(blind_white (fun c => c =? 62)) by (done || by repeat constructor).
  done.
Qed.

Lemma gettoken_alike es : gettoken b es = gettoken b' es.
Proof. apply functional_extensionality. intros st. unfold gettoken. rewrite skip_ws_alike, token_at_alike. destruct (token_at b' es _). by rewrite skip_ws_alike. Qed.

Lemma peek_alike es toks : blind (has toks) -> peek b es toks = peek b' es toks.
Proof.
  intros Ht. apply functional_extensionality. intros st. unfold peek. rewrite skip_ws_alike. f_equal.
  apply (alike_test (fun c => nz c && has toks c)). unfold blind in *. eapply list.Forall_impl; [exact Ht|]. cbv beta. intros c ->. apply andb_false_r.
Qed.

Ltac alike_step := rewrite ?gettoken_alike, ?peek_alike by (by repeat constructor).

Lemma parseredirs_alike es n : parseredirs b es n = parseredirs b' es n.
Proof. induction n as [|n IH]; apply functional_extensionality; intros c; cbn [parseredirs]; alike_step; [done|]. by rewrite IH. Qed.

Lemma parseargs_alike es n : parseargs b es n = parseargs b' es n.
Proof.
  induction n as [|n IH]; do 3 (apply functional_extensionality; intros ?); cbn [parseargs]; alike_step; [done|]. by rewrite IH, parseredirs_alike.
Qed.

Lemma parseback_alike es n : parseback b es n = parseback b' es n.
Proof. induction n as [|n IH]; apply functional_extensionality; intros c; cbn [parseback]; alike_step; [done|]. by rewrite IH. Qed.

Lemma parse_alike es n : parseline b es n = parseline b' es n /\ parsepipe b es n = parsepipe b' es n /\
  parseexec b es n = parseexec b' es n /\ parseblock b es n = parseblock b' es n.
Proof.
  induction n as [|n (IH1 & IH2 & IH3 & IH4)]; [done|].
  rewrite !parseline_S, !parsepipe_S, !parseexec_S, !parseblock_S. alike_step. by rewrite IH1, IH2, IH3, IH4, parseback_alike, parseredirs_alike, parseargs_alike.
Qed.

Lemma alike_insert x y i : alike x y -> alike (<[i := 0]> x) (<[i := 0]> y).
Proof. intros H. apply Forall2_insert; [done|by left]. Qed.

Lemma nulterminate_alike fuel h : forall cmd x y, alike x y ->
  match nulterminate fuel h cmd x, nulterminate fuel h cmd y with
  | Some x', Some y' => alike x' y'
  | None, None => True
  | _, _ => False
  end.
Proof.
  induction fuel as [|fuel IH]; intros cmd x y Hxy; cbn [nulterminate]; [done|]. destruct (h !! cmd) as [[args|c q e m fd|l r|l r|c]|]; [|..|by apply IH|done].
  - revert x y Hxy. induction args as [|a args IHa]; intros x y Hxy; cbn [foldl]; [done|]. apply IHa. by apply alike_insert.
  - specialize (IH c x y Hxy). destruct (nulterminate fuel h c x), (nulterminate fuel h c y); cbn; try done. by apply alike_insert.
  - pose proof (IH l x y Hxy) as Hl. destruct (nulterminate fuel h l x), (nulterminate fuel h l y); try done. by apply IH.
  - pose proof (IH l x y Hxy) as Hl. destruct (nulterminate fuel h l x), (nulterminate fuel h l y); try done. by apply IH.
Qed.
End Alike.

Lemma white_nonzero c : white c -> nz c = true.
Proof. intros H. pose proof (blind_white (fun c => negb (nz c)) c ltac:(by repeat constructor) H) as E. cbv beta in E. by destruct (nz c). Qed.

Lemma strlen_alike x y : alike x y -> strlen x = strlen y.
Proof.
  induction 1 as [|c c' x y Hc _ IH]; [done|]. cbn [strlen]. rewrite IH. destruct Hc as [->|[H1 H2]]; [done|]. by rewrite !white_nonzero.
Qed.

(** A word is found in both. *)
Lemma text_alike x y w : alike x y -> text x = w -> Forall wordchar w -> text y = w.
Proof.
  intros H. revert w. unfold text. induction H as [|c c' x y Hc _ IH]; intros w E Hw; cbn [strlen] in *; [done|].
  destruct Hc as [<-|[H1 H2]].
  - destruct (nz c); cbn [take] in *; [|done]. subst w. inversion_clear Hw. f_equal. by apply IH.
  - rewrite (white_nonzero c H1) in E. cbn [take] in E. subst w. inversion_clear Hw as [|? ? (_ & Hn & _) _]. unfold white in H1. congruence.
Qed.

Lemma reps_words (P Q : nat * nat -> list Z -> Prop) h a t : tree_ok t -> (forall qe w, word_ok w -> P qe w -> Q qe w) -> reps P h a t -> reps Q h a t.
Proof.
  intros Hok HPQ H. induction H as [a args ws Ha Hw|a c q e k f t Ha Hf Ht IH|a l r t1 t2 Ha H1 IH1 H2 IH2|a l r t1 t2 Ha H1 IH1 H2 IH2|a c t Ha Ht IH]; cbn [tree_ok] in Hok.
  - eapply reps_exec; [done|]. destruct Hok as [_ Hok]. clear -Hw Hok HPQ. induction Hw as [|qe w args ws H _ IH]; [done|].
    apply list.Forall_cons in Hok as [H1 H2]. constructor; auto.
  - destruct Hok. eapply reps_redir; eauto.
  - destruct Hok. eapply reps_pipe; eauto.
  - destruct Hok. eapply reps_list; eauto.
  - eapply reps_back; eauto.
Qed.

(** A line like the one written for a tree is parsed to the tree. *)
Lemma parsecmd_alike t junk ln : tree_ok t -> alike (show t ++ 0 :: junk) ln ->
  exists cmd line' s, parsecmd ln = Done (cmd, line') s /\ heap_ok (p_heap s) /\ reps (fun qe w => text (drop (fst qe) line') = w) (p_heap s) cmd t.
Proof.
  intros Ht Hl. destruct (parsecmd_spec t junk Ht) as (cmd & line' & s & E & Hh & R). unfold parsecmd in *. rewrite <-(strlen_alike _ _ Hl).
  set (es := strlen (show t ++ 0 :: junk)) in *. destruct (parse_alike _ _ Hl es (4 * es + 4)) as (<- & _). destruct (parseline _ _ _ _) as [c s1| | | | |]; try done.
  rewrite <-(peek_alike _ _ Hl) by (by repeat constructor). destruct (peek _ _ _ s1) as [? s2| | | | |]; try done. destruct (negb _); [done|].
  pose proof (nulterminate_alike (S c) (p_heap s2) c _ _ Hl) as Hn. destruct (nulterminate (S c) (p_heap s2) c (show t ++ 0 :: junk)) as [x|]; [|done].
  injection E as -> -> ->. destruct (nulterminate (S cmd) (p_heap s) cmd ln) as [y|]; [|done]. exists cmd, y, s. split; [done|]. split; [done|].
  eapply reps_words; [done| |exact R]. cbv beta. intros qe w [_ Hw] Hx. eapply text_alike; [|exact Hx|done]. by apply Forall2_drop.
Qed.
