(* ===== verification/ShRun.v ===== *)
(** * The shell's execution of commands (sh.c: runcmd, getcmd, main, panic, fork1)

    The commands are the nodes the parser has allocated ([heap]), whose words are
    strings in the line ([buf]).  A pointer to a command is never null here: the
    parser allocates every node it returns. *)

From S2P Require Import Prelude Params Ulib Uproc Sh.

(* sh.c 174-179: panic *)
Definition sh_panic {A} (s : string) : prog A := _ ← say 2 (line "%s") [UStr (Some (bytes_of s))]; Exit.

(* sh.c 181-190: fork1 *)
Definition fork1 : prog Z :=
  pid ← val CFork;
  if pid =? -1 then sh_panic "fork" else mret pid.

Section Runcmd.
Context (heap : list node) (buf : list Z).

(** The string at a pointer into the line. *)
Definition str (q : nat) : list Z := text (drop q buf).

(** A command never returns; one below it was allocated before it, so that
    [fuel] = the index of the command and one more is enough. *)
(* sh.c 57-131: runcmd *)
Fixpoint runcmd (fuel : nat) (cmd : nat) : prog unit :=
  match fuel with
  | O => Bound
  | S fuel' =>
      match heap !! cmd with
      | None => Undefined "cmd"
      | Some (EXEC []) => Exit
      | Some (EXEC ((q, _) :: args)) =>
          let argv := (fun qe => str (fst qe)) <$> ((q, 0%nat) :: args) in
          _ ← sys (CExec (str q) argv);
          _ ← say 2 (line "exec %s failed") [UStr (Some (str q))];
          Exit
      | Some (REDIR c file _ mode fd) =>
          _ ← sys (CClose fd);
          r ← val (COpen (str file) mode);
          if r <? 0 then
            _ ← say 2 (line "open %s failed") [UStr (Some (str file))];
            Exit
          else
          _ ← runcmd fuel' c;
          Exit
      | Some (LIST l r) =>
          pid ← fork1;
          _ ← (if pid =? 0 then runcmd fuel' l else mret tt);
          _ ← sys CWait;
          _ ← runcmd fuel' r;
          Exit
      | Some (PIPE l r) =>
          p ← sys CPipe;
          if r_val p <? 0 then sh_panic "pipe" else
          let p0 := s32 (word_at (r_data p) 0) in
          let p1 := s32 (word_at (r_data p) 4) in
          pid ← fork1;
          _ ← (if pid =? 0 then
                 _ ← sys (CClose 1);
                 _ ← sys (CDup p1);
                 _ ← sys (CClose p0);
                 _ ← sys (CClose p1);
                 runcmd fuel' l
               else mret tt);
          pid ← fork1;
          _ ← (if pid =? 0 then
                 _ ← sys (CClose 0);
                 _ ← sys (CDup p0);
                 _ ← sys (CClose p0);
                 _ ← sys (CClose p1);
                 runcmd fuel' r
               else mret tt);
          _ ← sys (CClose p0);
          _ ← sys (CClose p1);
          _ ← sys CWait;
          _ ← sys CWait;
          Exit
      | Some (BACK c) =>
          pid ← fork1;
          _ ← (if pid =? 0 then runcmd fuel' c else mret tt);
          Exit
      end
  end.
End Runcmd.

(** What is left of the line after a command. *)
(* sh.c 335-339: parsecmd *)
Definition leftovers (ln : list Z) : option (list Z) :=
  let es := strlen ln in
  match parseline ln es (4 * es + 4) (mkP 0 []) with
  | Done _ s => Some (text (drop (skip_ws ln es (p_pos s)) ln))
  | _ => None
  end.

(** [runcmd(parsecmd(buf))], with the messages of the parser. *)
(* sh.c 168-168: main *)
Definition run_line (ln : list Z) : prog unit :=
  match parsecmd ln with
  | Done (cmd, buf) s => runcmd (p_heap s) buf (S cmd) cmd
  | Panic m _ =>
      _ ← match leftovers ln with
          | Some rest => say 2 (line "leftovers: %s") [UStr (Some rest)]
          | None => mret tt
          end;
      sh_panic m
  | _ => Undefined "parsecmd"
  end.

(** The characters stored in [buf]. *)
(* ulib.c 52-68: gets *)
Fixpoint gets_chars (room : nat) (acc : list Z) : prog (list Z) :=
  match room with
  | O => mret acc
  | S room' =>
      r ← sys (CRead 0 1);
      if r_val r <? 1 then mret acc else
      let c := hd 0 (r_data r) in
      if (c =? 10) || (c =? 13) then mret (acc ++ [c]) else gets_chars room' (acc ++ [c])
  end.

(** [buf] after the call, and the result. *)
(* sh.c 133-142: getcmd *)
Definition getcmd (nbuf : nat) : prog (list Z * Z) :=
  _ ← say 2 (bytes_of "$ ") [];
  cs ← gets_chars (nbuf - 1) [];
  let buf := splice (replicate nbuf 0) 0 (cs ++ [0]) in
  mret (buf, if hd 0 buf =? 0 then -1 else 0).

(* sh.c 150-156: main *)
Fixpoint open_console (rounds : nat) : prog unit :=
  fd ← val (COpen (bytes_of "console") O_RDWR);
  if fd >=? 0 then
    if fd >=? 3 then _ ← sys (CClose fd); mret tt else
    match rounds with
    | O => Bound
    | S rounds' => open_console rounds'
    end
  else mret tt.

(** At the least ['c'], ['d'] and [' '] are in the line when its end is cut off. *)
(* sh.c 158-170: main *)
Fixpoint read_commands (rounds : nat) : prog unit :=
  r ← getcmd 100;
  let '(buf, v) := r in
  if negb (v >=? 0) then mret tt else
  match rounds with
  | O => Bound
  | S rounds' =>
      if (buf !!! 0%nat =? 99) && (buf !!! 1%nat =? 100) && (buf !!! 2%nat =? 32) then
        let buf := <[(strlen buf - 1)%nat := 0]> buf in
        r ← val (CChdir (text (drop 3 buf)));
        _ ← (if r <? 0 then say 2 (line "cannot cd %s") [UStr (Some (text (drop 3 buf)))] else mret tt);
        read_commands rounds'
      else
        pid ← fork1;
        _ ← (if pid =? 0 then run_line buf else mret tt);
        _ ← sys CWait;
        read_commands rounds'
  end.

(** Three descriptors at most are opened before one is not below 3. *)
(* sh.c 144-172: main *)
Definition sh_main (rounds : nat) : prog unit :=
  _ ← open_console 3;
  _ ← read_commands rounds;
  Exit.
