(* ===== verification/ShMeaning.v ===== *)
(** * What a command of the shell means (sh.c: runcmd, main)

    A process is followed through its system calls with its table of descriptors;
    [fork] gives two processes with the same table.  What there is to see is
    which programs are started, with which arguments and descriptors, what is
    complained about, and with which descriptors a process waits for its
    children.  [meaning] says this of a command without mentioning system calls;
    the theorems show that the shell does it, from the line that is typed. *)

From S2P Require Import Prelude Params Ulib Uproc Ufiles Sh ShSpec ShRun.

(** ** Processes and their descriptors *)

(** The pipes are numbered. *)
Inductive desc : Type :=
| Console
| Opened (path : list Z) (mode : Z)
| ReadEnd (n : nat)
| WriteEnd (n : nat).

#[export] Instance desc_eq_dec : EqDecision desc.
Proof. solve_decision. Defined.

(** The least descriptor that is free. *)
Definition free_fd (t : list (option desc)) : option nat := fst <$> list_find (fun o => o = None) t.

(** The descriptor's entry. *)
Definition at_fd (t : list (option desc)) (fd : Z) : option desc := if 0 <=? fd then mjoin (t !! Z.to_nat fd) else None.

Inductive event : Type :=
| Launch (argv : list (list Z)) (t : list (option desc))
| Says (d : option desc) (bs : list Z)
| Waits (t : list (option desc))
| Enters (path : list Z)
| Fails.

Section Proc.
(** Which files can be opened, which programs can be started, which directories
    can be entered; the number of a child. *)
Context (opens : list Z -> Z -> bool) (loads dirs : list Z -> bool) (pid : Z).

(** The number of pipes so far and what is still to be typed on the console are
    common to all processes.  A child is followed to its end before its parent:
    what they do does not depend on the order. *)
Fixpoint proc {A} (p : prog A) (t : list (option desc)) (g : nat * list Z) : list event * (nat * list Z) :=
  match p with
  | Ret _ | Exit => ([], g)
  | Undefined _ | Bound => ([Fails], g)
  | Sys c k =>
      match c with
      | CFork =>
          let '(e1, g1) := proc (k (mkReply 0 [])) t g in
          let '(e2, g2) := proc (k (mkReply pid [])) t g1 in
          (e1 ++ e2, g2)
      | CExec path argv => if loads path then ([Launch argv t], g) else proc (k (mkReply (-1) [])) t g
      | COpen path mode =>
          match free_fd t with
          | Some fd => if opens path mode then proc (k (mkReply (Z.of_nat fd) [])) (<[fd := Some (Opened path mode)]> t) g
                       else proc (k (mkReply (-1) [])) t g
          | None => proc (k (mkReply (-1) [])) t g
          end
      | CClose fd =>
          match at_fd t fd with
          | Some _ => proc (k (mkReply 0 [])) (<[Z.to_nat fd := None]> t) g
          | None => proc (k (mkReply (-1) [])) t g
          end
      | CDup fd =>
          match at_fd t fd, free_fd t with
          | Some d, Some fd' => proc (k (mkReply (Z.of_nat fd') [])) (<[fd' := Some d]> t) g
          | _, _ => proc (k (mkReply (-1) [])) t g
          end
      | CPipe =>
          match free_fd t with
          | Some a =>
              let t1 := <[a := Some (ReadEnd (fst g))]> t in
              match free_fd t1 with
              | Some b => proc (k (mkReply 0 (le_bytes 4 (Z.of_nat a) ++ le_bytes 4 (Z.of_nat b))))
                            (<[b := Some (WriteEnd (fst g))]> t1) (S (fst g), snd g)
              | None => proc (k (mkReply (-1) [])) t g
              end
          | None => proc (k (mkReply (-1) [])) t g
          end
      | CRead fd n =>
          match at_fd t fd with
          | Some Console =>
              let bs := take (Z.to_nat n) (snd g) in
              proc (k (mkReply (Z.of_nat (length bs)) bs)) t (fst g, drop (Z.to_nat n) (snd g))
          | _ => proc (k (mkReply (-1) [])) t g
          end
      | CWrite fd bs =>
          let '(e, g1) := proc (k (mkReply (Z.of_nat (length bs)) [])) t g in (Says (at_fd t fd) bs :: e, g1)
      | CWait => let '(e, g1) := proc (k (mkReply pid [])) t g in (Waits t :: e, g1)
      | CChdir path =>
          if dirs path then let '(e, g1) := proc (k (mkReply 0 [])) t g in (Enters path :: e, g1)
          else proc (k (mkReply (-1) [])) t g
      | _ => ([Fails], g)
      end
  end.

(** ** Commands *)

(** A message to the standard error. *)
Definition complain (t : list (option desc)) (bs : list Z) : list event := (fun b => Says (at_fd t 2) [u8 b]) <$> bs.

(** There are two free descriptors. *)
Definition room (t : list (option desc)) : bool :=
  match free_fd t with
  | Some a => if free_fd (<[a := Some Console]> t) is Some _ then true else false
  | None => false
  end.

(** With descriptors [t] and [n] pipes so far. *)
Fixpoint meaning (c : tree) (t : list (option desc)) (n : nat) : list event * nat :=
  match c with
  | TExec [] => ([], n)
  | TExec (w :: ws) =>
      (if loads w then [Launch (w :: ws) t] else complain t (bytes_of "exec " ++ w ++ bytes_of " failed" ++ [10]), n)
  | TRedir c k file =>
      let fd := Z.to_nat (snd (rmode k)) in
      if opens file (fst (rmode k)) then meaning c (<[fd := Some (Opened file (fst (rmode k)))]> t) n
      else (complain (<[fd := None]> t) (bytes_of "open " ++ file ++ bytes_of " failed" ++ [10]), n)
  | TPipe l r =>
      if room t then
        let '(el, n1) := meaning l (<[1%nat := Some (WriteEnd n)]> t) (S n) in
        let '(er, n2) := meaning r (<[0%nat := Some (ReadEnd n)]> t) n1 in
        (el ++ er ++ [Waits t; Waits t], n2)
      else (complain t (bytes_of "pipe" ++ [10]), n)
  | TList l r =>
      let '(el, n1) := meaning l t n in
      let '(er, n2) := meaning r t n1 in
      (el ++ Waits t :: er, n2)
  | TBack c => meaning c t n
  end.

(** ** Following a process *)

Definition pre (es : list event) (r : list event * (nat * list Z)) : list event * (nat * list Z) := (es ++ fst r, snd r).

Lemma proc_puts {B} ws (f : unit -> prog B) t g :
  proc (puts ws ≫= f) t g = pre ((fun w => Says (at_fd t (fst w)) (snd w)) <$> ws) (proc (f tt) t g).
Proof.
  induction ws as [|[fd bs] ws IH]; cbn; [unfold pre; cbn; by destruct (proc (f tt) t g)|].
  change (mbind f (puts ws)) with (puts ws ≫= f) in *. rewrite IH. unfold pre. cbn. done.
Qed.

Lemma proc_say {B} fmt args bs (f : unit -> prog B) t g : render false fmt args = Some bs ->
  proc (say 2 fmt args ≫= f) t g = pre (complain t bs) (proc (f tt) t g).
Proof.
  intros H. rewrite (say_render _ _ _ _ H), proc_puts. unfold complain, each. by rewrite <-list_fmap_compose.
Qed.

(** A program that does not return. *)
Fixpoint never {A} (p : prog A) : Prop :=
  match p with
  | Ret _ => False
  | Sys _ k => forall r, never (k r)
  | _ => True
  end.

Lemma never_bind {A B} (p : prog A) (f : A -> prog B) : (forall a, never (f a)) -> never (p ≫= f).
Proof. intros H. induction p as [| |c k IH| |]; cbn; auto; done. Qed.

Lemma proc_sys {A B} c (k : reply -> prog A) (k' : reply -> prog B) :
  (forall r t g, proc (k r) t g = proc (k' r) t g) -> forall t g, proc (Sys c k) t g = proc (Sys c k') t g.
Proof. intros E t g. destruct c; cbn; rewrite ?E; repeat case_match; rewrite ?E in *; congruence. Qed.

Lemma proc_never {A B} (p : prog A) (f : A -> prog B) : never p -> forall t g, proc (p ≫= f) t g = proc p t g.
Proof.
  induction p as [a| |c k IH| |]; intros Hn; try done.
  intros t g. change (Sys c k ≫= f) with (Sys c (fun r => k r ≫= f)). apply proc_sys. auto.
Qed.

Lemma proc_assoc {A B C} (p : prog A) (f : A -> prog B) (h : B -> prog C) : forall t g,
  proc ((p ≫= f) ≫= h) t g = proc (p ≫= (fun a => f a ≫= h)) t g.
Proof.
  induction p as [a| |c k IH| |]; try done.
  intros t g. change ((Sys c k ≫= f) ≫= h) with (Sys c (fun r => (k r ≫= f) ≫= h)).
  change (Sys c k ≫= (fun a => f a ≫= h)) with (Sys c (fun r => k r ≫= (fun a => f a ≫= h))). by apply proc_sys.
Qed.

(** ** Descriptors *)

Lemma free_fd_some t fd : free_fd t = Some fd -> t !! fd = Some None /\ forall j, (j < fd)%nat -> t !! j <> Some None.
Proof.
  unfold free_fd. destruct (list_find _ t) as [[i o]|] eqn:E; [|done]. intros [= <-]. apply list_find_Some in E as (Hi & -> & Hlt).
  split; [done|]. intros j Hj H. by apply (Hlt j None).
Qed.

Lemma free_fd_first t fd : t !! fd = Some None -> (forall j, (j < fd)%nat -> t !! j <> Some None) -> free_fd t = Some fd.
Proof.
  intros H Hlt. unfold free_fd. rewrite (proj2 (list_find_Some _ t fd None)); [done|]. split; [done|]. split; [done|].
  intros j y Hj Hy ->. by apply (Hlt j).
Qed.

(** Which one is free does not depend on what the others are. *)
Lemma free_fd_ext t t' : (forall j, t !! j = Some None <-> t' !! j = Some None) -> free_fd t = free_fd t'.
Proof.
  intros H. destruct (free_fd t) as [i|] eqn:E.
  - apply free_fd_some in E as [E Hlt]. symmetry. apply free_fd_first; [by apply H|]. intros j Hj. rewrite <-H. auto.
  - destruct (free_fd t') as [i|] eqn:E'; [|done]. apply free_fd_some in E' as [E' _]. apply H in E'.
    unfold free_fd in E. destruct (list_find _ t) as [|] eqn:El; [done|]. apply list_find_None in El. rewrite list.Forall_forall in El.
    exfalso. by eapply El; [eapply list_elem_of_lookup_2|].
Qed.

Lemma free_fd_insert t fd d d' : free_fd (<[fd := Some d]> t) = free_fd (<[fd := Some d']> t).
Proof.
  apply free_fd_ext. intros j. destruct (decide (fd = j)) as [->|Hne]; [|by rewrite !list_lookup_insert_ne].
  destruct (decide (j < length t)%nat); [by rewrite !list_lookup_insert_eq|]. by rewrite !list_insert_ge by lia.
Qed.

(** The standard input and output are open. *)
Definition usable (t : list (option desc)) : Prop := length t = 16%nat /\ (exists d, t !! 0%nat = Some (Some d)) /\ (exists d, t !! 1%nat = Some (Some d)).

Lemma usable_insert t fd d : usable t -> usable (<[fd := Some d]> t).
Proof.
  intros (Hl & [d0 H0] & [d1 H1]). split; [by rewrite length_insert|].
  split; [destruct (decide (fd = 0%nat)) as [->|]; [exists d|exists d0]|destruct (decide (fd = 1%nat)) as [->|]; [exists d|exists d1]];
    rewrite ?list_lookup_insert_eq, ?list_lookup_insert_ne by (done || lia); done.
Qed.

Lemma usable_free t a : usable t -> free_fd t = Some a -> (2 <= a < 16)%nat.
Proof.
  intros (Hl & [d0 H0] & [d1 H1]) [Ha _]%free_fd_some. pose proof (lookup_lt_Some _ _ _ Ha).
  destruct a as [|[|a]]; [congruence..|lia].
Qed.

(** A descriptor that is closed is the next one given out, when those below it
    are open. *)
Lemma free_closed t fd : usable t -> (fd < 2)%nat -> free_fd (<[fd := None]> t) = Some fd.
Proof.
  intros (Hl & [d0 H0] & _) Hfd. apply free_fd_first; [apply list_lookup_insert_eq; lia|].
  intros j Hj. rewrite list_lookup_insert_ne by lia. destruct j; [congruence|lia].
Qed.

Lemma at_fd_nat t fd d : t !! fd = Some (Some d) -> at_fd t (Z.of_nat fd) = Some d.
Proof. intros H. unfold at_fd. rewrite (proj2 (Z.leb_le 0 _)) by lia. by rewrite Nat2Z.id, H. Qed.

(** The two descriptors of a pipe. *)
Record piped (t : list (option desc)) (n : nat) (a b : nat) (t' : list (option desc)) : Prop := {
  pd_table : t' = <[b := Some (WriteEnd n)]> (<[a := Some (ReadEnd n)]> t);
  pd_range : (2 <= a < 16)%nat /\ (2 <= b < 16)%nat /\ a <> b;
  pd_free : t !! a = Some None /\ t !! b = Some None;
  pd_usable : usable t
}.

Lemma room_piped t n : usable t -> room t = true -> exists a b, free_fd t = Some a /\
  free_fd (<[a := Some (ReadEnd n)]> t) = Some b /\ piped t n a b (<[b := Some (WriteEnd n)]> (<[a := Some (ReadEnd n)]> t)).
Proof.
  intros Hu Hr. unfold room in Hr. destruct (free_fd t) as [a|] eqn:Ea; [|done]. pose proof (usable_free t a Hu Ea) as Hra.
  rewrite (free_fd_insert t a Console (ReadEnd n)) in Hr. destruct (free_fd (<[a := _]> t)) as [b|] eqn:Eb; [|done].
  pose proof (usable_free _ b (usable_insert t a (ReadEnd n) Hu) Eb) as Hrb. pose proof (free_fd_some _ _ Ea) as [Ha _]. pose proof (free_fd_some _ _ Eb) as [Hb _].
  pose proof (proj1 Hu) as Hl. exists a, b. split; [done|]. split; [done|]. destruct (decide (a = b)) as [->|Hne]; [rewrite list_lookup_insert_eq in Hb by lia; done|].
  rewrite list_lookup_insert_ne in Hb by done. by split.
Qed.

(** One of the standard descriptors is replaced by an end of the pipe, and both
    ends are closed. *)
Lemma piped_child t n a b t' fd x d : piped t n a b t' -> (fd < 2)%nat -> (x = a \/ x = b) -> t' !! x = Some (Some d) ->
  at_fd t' (Z.of_nat fd) <> None /\ at_fd (<[fd := None]> t') (Z.of_nat x) = Some d /\ free_fd (<[fd := None]> t') = Some fd /\
  let t1 := <[fd := Some d]> (<[fd := None]> t') in
  at_fd t1 (Z.of_nat a) <> None /\ at_fd (<[a := None]> t1) (Z.of_nat b) <> None /\ <[b := None]> (<[a := None]> t1) = <[fd := Some d]> t.
Proof.
  intros [-> (Ha & Hb & Hne) [Ea Eb] Hu] Hfd Hx Hd. pose proof (proj1 Hu) as Hl. set (t' := <[b := _]> _) in *.
  assert (usable t') as Hu' by (by do 2 apply usable_insert). assert (fd <> a /\ fd <> b) as [Hfa Hfb] by lia. assert (length t' = 16%nat) as Hl' by apply Hu'.
  assert (exists d0, t' !! fd = Some (Some d0)) as [d0 H0].
  { destruct Hu' as (_ & [d0 H0] & [d1 H1]). destruct fd as [|[|fd]]; [by exists d0|by exists d1|lia]. }
  split; [by rewrite (at_fd_nat _ _ d0)|]. split; [apply at_fd_nat; rewrite list_lookup_insert_ne by lia; done|]. split; [by apply free_closed|].
  cbv zeta. rewrite list_insert_insert_eq. split; [|split].
  - rewrite (at_fd_nat _ _ (ReadEnd n)); [done|]. unfold t'. by rewrite !list_lookup_insert_ne, list_lookup_insert_eq by lia.
  - rewrite (at_fd_nat _ _ (WriteEnd n)); [done|]. unfold t'. by rewrite !list_lookup_insert_ne, list_lookup_insert_eq by (rewrite ?length_insert; lia).
  - apply list_eq. intros j. unfold t'. destruct (decide (j = b)) as [->|]; [rewrite list_lookup_insert_eq by (rewrite !length_insert; lia); by rewrite list_lookup_insert_ne by lia|].
    rewrite list_lookup_insert_ne by lia. destruct (decide (j = a)) as [->|]; [rewrite list_lookup_insert_eq by (rewrite !length_insert; lia); by rewrite list_lookup_insert_ne by lia|].
    rewrite list_lookup_insert_ne by lia. destruct (decide (j = fd)) as [->|]; [rewrite !list_lookup_insert_eq by (rewrite ?length_insert; lia); done|].
    by rewrite !list_lookup_insert_ne by lia.
Qed.

(** ** runcmd *)

Hypothesis (Hpid : 0 < pid).

Lemma proc_fork1 {B} (f : Z -> prog B) t g :
  proc (fork1 ≫= f) t g = let '(e1, g1) := proc (f 0) t g in let '(e2, g2) := proc (f pid) t g1 in (e1 ++ e2, g2).
Proof. cbn. rewrite (proj2 (Z.eqb_neq pid (-1))) by lia. done. Qed.

Lemma panic_never {A} s : never (sh_panic (A := A) s).
Proof. by apply never_bind. Qed.

Lemma runcmd_never h buf fuel : forall cmd, never (runcmd h buf fuel cmd).
Proof.
  induction fuel as [|fuel IH]; intros cmd; [done|]. cbn [runcmd]. destruct (h !! cmd) as [[[|[q e] args]|c file e mode fd|l r|l r|c]|]; try done.
  all: repeat (apply never_bind; intros ?); try done.
  - destruct (_ <? 0); repeat (apply never_bind; intros ?); done.
  - destruct (_ <? 0); [apply panic_never|]. repeat (apply never_bind; intros ?). done.
Qed.

Lemma proc_close {B} (p : prog B) t fd g : at_fd t (Z.of_nat fd) <> None ->
  proc (_ ← sys (CClose (Z.of_nat fd)); p) t g = proc p (<[fd := None]> t) g.
Proof. intros H. cbn. destruct (at_fd t (Z.of_nat fd)); [|done]. by rewrite Nat2Z.id. Qed.

Lemma proc_dup {B} (p : prog B) t fd fd' d g : at_fd t (Z.of_nat fd) = Some d -> free_fd t = Some fd' ->
  proc (_ ← sys (CDup (Z.of_nat fd)); p) t g = proc p (<[fd' := Some d]> t) g.
Proof. intros H1 H2. cbn. by rewrite H1, H2. Qed.

Lemma proc_pipe {B} (f : reply -> prog B) t n inp : proc (sys CPipe ≫= f) t (n, inp) =
  match free_fd t with
  | Some a => match free_fd (<[a := Some (ReadEnd n)]> t) with
              | Some b => proc (f (mkReply 0 (le_bytes 4 (Z.of_nat a) ++ le_bytes 4 (Z.of_nat b))))
                            (<[b := Some (WriteEnd n)]> (<[a := Some (ReadEnd n)]> t)) (S n, inp)
              | None => proc (f (mkReply (-1) [])) t (n, inp)
              end
  | None => proc (f (mkReply (-1) [])) t (n, inp)
  end.
Proof. done. Qed.

(** What a child of a pipe does before its command. *)
Lemma proc_child {B} (p : prog B) t n a b t' fd x d g :
  piped t n a b t' -> (fd < 2)%nat -> (x = a \/ x = b) -> t' !! x = Some (Some d) ->
  proc (_ ← sys (CClose (Z.of_nat fd)); _ ← sys (CDup (Z.of_nat x)); _ ← sys (CClose (Z.of_nat a)); _ ← sys (CClose (Z.of_nat b)); p) t' g =
  proc p (<[fd := Some d]> t) g.
Proof.
  intros Hp Hfd Hx Hd. destruct (piped_child t n a b t' fd x d Hp Hfd Hx Hd) as (H1 & H2 & H3 & H4 & H5 & H6). cbv zeta in *.
  rewrite proc_close by done. rewrite (proc_dup _ _ x fd d) by done. rewrite !proc_close by done. by rewrite H6.
Qed.

(** The parent closes both ends. *)
Lemma proc_parent {B} (p : prog B) t n a b t' g : piped t n a b t' ->
  proc (_ ← sys (CClose (Z.of_nat a)); _ ← sys (CClose (Z.of_nat b)); p) t' g = proc p t g.
Proof.
  intros [-> (Ha & Hb & Hne) [Ea Eb] [Hl _]]. rewrite !proc_close.
  - rewrite (list_insert_insert_ne _ a b), !list_insert_insert_eq by done.
    rewrite (list_insert_id t a), (list_insert_id t b); done.
  - rewrite (at_fd_nat _ _ (WriteEnd n)); [done|]. rewrite list_lookup_insert_ne, list_lookup_insert_eq by (rewrite ?length_insert; lia). done.
  - rewrite (at_fd_nat _ _ (ReadEnd n)); [done|]. rewrite list_lookup_insert_ne, list_lookup_insert_eq by lia. done.
Qed.

(** The tail of a forked process that runs a command. *)
Lemma proc_fork_run {B} (p : prog unit) (f : prog B) t g : never p ->
  proc (i ← fork1; _ ← (if i =? 0 then p else mret tt); f) t g =
  let '(e1, g1) := proc p t g in let '(e2, g2) := proc f t g1 in (e1 ++ e2, g2).
Proof.
  intros Hn. rewrite proc_fork1. change (0 =? 0) with true. cbv iota. rewrite (proc_never p) by done.
  by rewrite (proj2 (Z.eqb_neq pid 0)) by lia.
Qed.

Lemma small_word a b : (a < 16)%nat -> (b < 16)%nat ->
  s32 (word_at (le_bytes 4 (Z.of_nat a) ++ le_bytes 4 (Z.of_nat b)) 0) = Z.of_nat a /\
  s32 (word_at (le_bytes 4 (Z.of_nat a) ++ le_bytes 4 (Z.of_nat b)) 4) = Z.of_nat b.
Proof.
  intros Ha Hb. unfold word_at. change (slice (le_bytes 4 (Z.of_nat a) ++ le_bytes 4 (Z.of_nat b)) 0 4) with (le_bytes 4 (Z.of_nat a)).
  change (slice (le_bytes 4 (Z.of_nat a) ++ le_bytes 4 (Z.of_nat b)) 4 4) with (le_bytes 4 (Z.of_nat b)).
  rewrite !le_val_bytes, !Z.mod_small by lia. split; apply s32_small; lia.
Qed.

(** What is followed of [c] with descriptors [t] is what it means. *)
Definition does (p : prog unit) (c : tree) (t : list (option desc)) : Prop :=
  forall n inp, proc p t (n, inp) = (fst (meaning c t n), (snd (meaning c t n), inp)).

Section Does.
Context (h : list node) (buf : list Z).

Lemma exec_does fuel cmd args ws t : h !! cmd = Some (EXEC args) -> Forall2 (fun qe w => text (drop (fst qe) buf) = w) args ws ->
  does (runcmd h buf (S fuel) cmd) (TExec ws) t.
Proof.
  intros Hc Hw n inp. cbn [runcmd]. rewrite Hc. destruct Hw as [|[q e] w args ws Hq Hw]; [done|]. cbn [meaning fst snd] in *. unfold str. rewrite Hq.
  assert ((fun qe => text (drop (fst qe) buf)) <$> ((q, 0%nat) :: args) = w :: ws) as E.
  { cbn [fmap list_fmap fst]. rewrite Hq. f_equal. clear -Hw. induction Hw as [|[] ? ? ? H _ IH]; [done|]. cbn [fmap list_fmap fst] in *. by rewrite H, IH. }
  rewrite E. cbn [mbind prog_bind sys proc]. destruct (loads w); [done|]. cbn [mbind prog_bind].
  erewrite proc_say by reflexivity. unfold pre. cbn. by rewrite app_nil_r.
Qed.

Lemma redir_does fuel cmd c q e k f tr t : h !! cmd = Some (REDIR c q e (fst (rmode k)) (snd (rmode k))) -> text (drop q buf) = f -> usable t ->
  (forall t, usable t -> does (runcmd h buf fuel c) tr t) -> does (runcmd h buf (S fuel) cmd) (TRedir tr k f) t.
Proof.
  intros Hc Hq Hu IH n inp. cbn [runcmd meaning]. rewrite Hc. unfold str. rewrite Hq. set (mode := fst (rmode k)). 
  assert (exists fd, snd (rmode k) = Z.of_nat fd /\ (fd < 2)%nat) as (fd & Efd & Hfd) by (destruct k; [by exists 0%nat; split; [|lia]|by exists 1%nat; split; [|lia]]).
  rewrite Efd, Nat2Z.id. rewrite proc_close.
  2:{ destruct Hu as (_ & [d0 H0] & [d1 H1]). destruct fd as [|[|fd]]; [by rewrite (at_fd_nat _ _ d0)|by rewrite (at_fd_nat _ _ d1)|lia]. }
  cbn [mbind prog_bind val proc]. rewrite (free_closed t fd Hu Hfd). destruct (opens f mode); cbn [mbind prog_bind r_val].
  - rewrite (proj2 (Z.ltb_ge (Z.of_nat fd) 0)) by lia. rewrite list_insert_insert_eq, proc_never by apply runcmd_never. apply IH. by apply usable_insert.
  - change (-1 <? 0) with true. cbv iota. erewrite proc_say by reflexivity. unfold pre. cbn. by rewrite app_nil_r.
Qed.

Lemma list_does fuel cmd l r tl tr t : h !! cmd = Some (LIST l r) -> does (runcmd h buf fuel l) tl t -> does (runcmd h buf fuel r) tr t ->
  does (runcmd h buf (S fuel) cmd) (TList tl tr) t.
Proof.
  intros Hc Hl Hr n inp. cbn [runcmd meaning]. rewrite Hc, proc_fork_run by apply runcmd_never. rewrite Hl.
  destruct (meaning tl t n) as [el n1]. cbn [fst snd mbind prog_bind sys proc].
  change (fun _ => Exit) with (fun _ : unit => @Exit unit). rewrite proc_never by apply runcmd_never. rewrite Hr. by destruct (meaning tr t n1).
Qed.

Lemma back_does fuel cmd c tr t : h !! cmd = Some (BACK c) -> does (runcmd h buf fuel c) tr t -> does (runcmd h buf (S fuel) cmd) (TBack tr) t.
Proof.
  intros Hc IH n inp. cbn [runcmd meaning]. rewrite Hc, proc_fork_run by apply runcmd_never. rewrite IH. cbn. by rewrite app_nil_r.
Qed.

Lemma pipe_does fuel cmd l r tl tr t : h !! cmd = Some (PIPE l r) -> usable t -> (forall t, usable t -> does (runcmd h buf fuel l) tl t) ->
  (forall t, usable t -> does (runcmd h buf fuel r) tr t) -> does (runcmd h buf (S fuel) cmd) (TPipe tl tr) t.
Proof.
  intros Hc Hu Hl Hr n inp. cbn [runcmd meaning]. rewrite Hc, proc_pipe. destruct (room t) eqn:Er.
  - destruct (room_piped t n Hu Er) as (a & b & Ea & Eb & Hp). rewrite Ea, Eb. cbn [r_val r_data]. change (0 <? 0) with false. cbv iota.
    set (t' := <[b := _]> _) in *. pose proof Hp as [_ (Ha & Hb & Hne) _ _]. destruct (small_word a b) as [-> ->]; [lia..|].
    assert (length t = 16%nat) as Hlt by apply Hu.
    rewrite proc_fork_run by (repeat (apply never_bind; intros ?); apply runcmd_never).
    change (CClose 1) with (CClose (Z.of_nat 1)). rewrite (proc_child _ t n a b t' 1 b (WriteEnd n)); [|done|lia|by right|apply list_lookup_insert_eq; rewrite length_insert; lia].
    rewrite Hl by (by apply usable_insert). destruct (meaning tl _ (S n)) as [el n1]. cbn [fst snd].
    rewrite proc_fork_run by (repeat (apply never_bind; intros ?); apply runcmd_never).
    change (CClose 0) with (CClose (Z.of_nat 0)). rewrite (proc_child _ t n a b t' 0 a (ReadEnd n)); [|done|lia|by left|unfold t'; rewrite list_lookup_insert_ne, list_lookup_insert_eq by lia; done].
    rewrite Hr by (by apply usable_insert). destruct (meaning tr _ n1) as [er n2]. cbn [fst snd]. rewrite (proc_parent _ t n a b t') by done. cbn. done.
  - unfold room in Er. destruct (free_fd t) as [a|].
    + rewrite (free_fd_insert t a (ReadEnd n) Console). destruct (free_fd (<[a := Some Console]> t)); [done|]. cbn [r_val]. change (-1 <? 0) with true. cbv iota.
      unfold sh_panic. erewrite proc_say by reflexivity. unfold pre. cbn. done.
    + cbn [r_val]. change (-1 <? 0) with true. cbv iota. unfold sh_panic. erewrite proc_say by reflexivity. unfold pre. cbn. done.
Qed.

Lemma runcmd_does cmd tr : reps (fun qe w => text (drop (fst qe) buf) = w) h cmd tr -> heap_ok h ->
  forall fuel t, (cmd < fuel)%nat -> usable t -> does (runcmd h buf fuel cmd) tr t.
Proof.
  intros Hreps Hh. induction Hreps as [a args ws Ha Hw|a c q e k f t' Ha Hf Ht IH|a l r t1 t2 Ha H1 IH1 H2 IH2|a l r t1 t2 Ha H1 IH1 H2 IH2|a c t' Ha Ht IH];
    intros fuel t Hfuel Hu; (destruct fuel as [|fuel]; [lia|]); pose proof (Hh a _ Ha) as Hb; cbn [below] in Hb.
  - by eapply exec_does.
  - eapply redir_does; [done|done|done|]. intros u Hu'. apply IH; [lia|done].
  - eapply pipe_does; [done|done|intros u Hu'; apply IH1; [lia|done]|intros u Hu'; apply IH2; [lia|done]].
  - eapply list_does; [done|apply IH1; [lia|done]|apply IH2; [lia|done]].
  - eapply back_does; [done|apply IH; [lia|done]].
Qed.
End Does.
End Proc.
