(* ===== verification/ShSession.v ===== *)
(** * A session of the shell (sh.c: main, getcmd)

    What is typed line by line is what is done, one line after the other. *)

From S2P Require Import Prelude Params Ulib Uproc Ufiles Sh ShSpec ShLine ShRun ShMeaning.

(** A command, or a change of directory. *)
Inductive item : Type :=
| Cmd (c : tree)
| Cd (path : list Z).

(** The line, with the newline in place of the last space of a command. *)
Definition typed (i : item) : list Z :=
  match i with
  | Cmd c => take (length (show c) - 1) (show c) ++ [10]
  | Cd path => bytes_of "cd " ++ path ++ [10]
  end.

Definition plain (c : Z) : Prop := c <> 0 /\ c <> 10 /\ c <> 13.

(** Lines that fit the buffer; a command does not look like a change of directory. *)
Definition item_ok (i : item) : Prop :=
  match i with
  | Cmd c => tree_ok c /\ show c <> [] /\ (length (show c) <= 99)%nat /\ take 3 (show c) <> bytes_of "cd "
  | Cd path => Forall plain path /\ (length path + 4 <= 99)%nat
  end.

(** ** The line in the buffer *)

Definition buf_of (ln : list Z) : list Z := ln ++ replicate (100 - length ln) 0.

Lemma getcmd_buf ln : (length ln <= 99)%nat -> splice (replicate 100 0) 0 (ln ++ [0]) = buf_of ln.
Proof.
  intros H. unfold splice, buf_of. rewrite take_0, drop_replicate, length_app. change (length [0]) with 1%nat. rewrite app_nil_l, <-app_assoc. f_equal.
  replace (100 - length ln)%nat with (S (100 - (0 + (length ln + 1))))%nat by lia. done.
Qed.

Lemma token_plain ts : Forall token_ok ts -> Forall plain (flat ts).
Proof.
  induction 1 as [|t ts Ht _ IH]; [constructor|]. rewrite flat_cons. apply Forall_app_2; [|constructor; [split; [|split]; lia|done]].
  destruct t as [c|w]; cbn [token_ok chars] in *.
  - constructor; [|done]. unfold symbols in Ht. rewrite !elem_of_cons in Ht. unfold plain. set_solver by lia.
  - destruct Ht as [_ Hw]. eapply list.Forall_impl; [exact Hw|]. cbv beta. intros c (H0 & Hs & _). split; [done|]. split; intros ->; done.
Qed.

(** Every line that is written for a command ends in a space. *)
Lemma show_last c : show c <> [] -> exists body, show c = body ++ [32].
Proof.
  unfold show. generalize (toks 3 c) as ts. intros ts. destruct ts as [|t ts _] using rev_ind; [done|]. intros _.
  rewrite flat_app, flat_cons. exists (flat ts ++ chars t). by rewrite <-app_assoc.
Qed.

Lemma alike_refl x : alike x x.
Proof. induction x; constructor; [by left|done]. Qed.

(** The typed line is like the written one. *)
Lemma typed_alike c : show c <> [] -> (length (show c) <= 99)%nat ->
  exists junk, alike (show c ++ 0 :: junk) (buf_of (typed (Cmd c))).
Proof.
  intros Hne Hl. destruct (show_last c Hne) as [body E]. exists (replicate (99 - length (show c)) 0). unfold buf_of, typed. rewrite E in *.
  rewrite length_app in *. cbn [length] in *. replace (length body + 1 - 1)%nat with (length body) by lia. rewrite take_app_length, length_app. cbn [length].
  replace (100 - (length body + 1))%nat with (S (99 - (length body + 1))) by lia. cbn [replicate]. rewrite <-!app_assoc.
  apply Forall2_app; [apply alike_refl|]. constructor; [by right|]. apply alike_refl.
Qed.

(** ** The session *)

Section Session.
Context (opens : list Z -> Z -> bool) (loads dirs : list Z -> bool) (pid : Z) (Hpid : 0 < pid).
Context (t : list (option desc)) (Hu : usable t) (Hin : at_fd t 0 = Some Console) (Herr : at_fd t 2 <> None).

#[local] Notation proc := (proc opens loads dirs pid).

Definition prompt : list event := complain t (bytes_of "$ ").

Definition item_meaning (i : item) (n : nat) : list event * nat :=
  match i with
  | Cmd c => let '(e, n1) := meaning opens loads c t n in (e ++ [Waits t], n1)
  | Cd path => (if dirs path then [Enters path] else complain t (bytes_of "cannot cd " ++ path ++ [10]), n)
  end.

(** A prompt before every line and at the end of the input. *)
Fixpoint session (l : list item) (n : nat) : list event * nat :=
  match l with
  | [] => (prompt, n)
  | i :: l' =>
      let '(e1, n1) := item_meaning i n in
      let '(e2, n2) := session l' n1 in
      (prompt ++ e1 ++ e2, n2)
  end.

Lemma gets_line_read {B} (f : list Z -> prog B) n rest cs : forall room acc, Forall plain cs -> (length cs < room)%nat ->
  proc (gets_chars room acc ≫= f) t (n, cs ++ 10 :: rest) = proc (f (acc ++ cs ++ [10])) t (n, rest).
Proof.
  induction cs as [|c cs IH]; intros room acc Hp Hr; (destruct room as [|room]; [simpl in Hr; lia|]);
    cbn [gets_chars mbind prog_bind sys ShMeaning.proc]; rewrite Hin; change (Z.to_nat 1) with 1%nat; cbn [fst snd app take drop length r_val r_data hd]; change (Z.of_nat 1 <? 1) with false; cbv iota.
  - change ((10 =? 10) || (10 =? 13)) with true. cbv iota. done.
  - apply list.Forall_cons in Hp as [(H1 & H2 & H3) Hp]. rewrite (proj2 (Z.eqb_neq c 10)), (proj2 (Z.eqb_neq c 13)) by done.
    cbn [orb]. etrans; [apply (IH room (acc ++ [c])); [done|simpl in Hr; lia]|]. by rewrite <-app_assoc.
Qed.

Lemma getcmd_read {B} (f : list Z * Z -> prog B) n rest cs : Forall plain cs -> (length cs < 99)%nat ->
  proc (getcmd 100 ≫= f) t (n, cs ++ 10 :: rest) = pre prompt (proc (f (buf_of (cs ++ [10]), 0)) t (n, rest)).
Proof.
  intros Hp Hl. unfold getcmd. rewrite proc_assoc. erewrite proc_say by reflexivity. unfold prompt. f_equal.
  rewrite proc_assoc, gets_line_read by done. cbn [app]. rewrite getcmd_buf by (rewrite length_app; simpl; lia). cbv zeta.
  replace (hd 0 (buf_of (cs ++ [10])) =? 0) with false; [done|]. symmetry. apply Z.eqb_neq. destruct Hp as [|c cs' [Hc _] _]; done.
Qed.

(** At the end of the input. *)
Lemma getcmd_end {B} (f : list Z * Z -> prog B) n :
  proc (getcmd 100 ≫= f) t (n, []) = pre prompt (proc (f (replicate 100 0, -1)) t (n, [])).
Proof.
  unfold getcmd. rewrite proc_assoc. erewrite proc_say by reflexivity. unfold prompt. f_equal. rewrite proc_assoc.
  change (100 - 1)%nat with (S 98). cbn [gets_chars mbind prog_bind sys ShMeaning.proc]. by rewrite Hin.
Qed.

(** ** One line *)

Lemma buf_of_zero ln : (length ln <= 99)%nat -> buf_of ln = ln ++ 0 :: replicate (99 - length ln) 0.
Proof. intros H. unfold buf_of. by replace (100 - length ln)%nat with (S (99 - length ln)) by lia. Qed.

Lemma not_cd c : show c <> [] -> take 3 (show c) <> bytes_of "cd " -> (length (show c) <= 99)%nat ->
  let b := buf_of (typed (Cmd c)) in (b !!! 0%nat =? 99) && (b !!! 1%nat =? 100) && (b !!! 2%nat =? 32) = false.
Proof.
  intros Hne Hcd Hl. destruct (show_last c Hne) as [body E]. cbv zeta. unfold typed. rewrite E in *. rewrite length_app in *. cbn [length] in *.
  replace (length body + 1 - 1)%nat with (length body) by lia. rewrite take_app_length.
  destruct body as [|c0 [|c1 [|c2 body]]]; cbn in *; try (rewrite !andb_false_r || idtac; by rewrite ?andb_false_r).
  destruct (Z.eqb_spec c0 99) as [->|]; [|done]. destruct (Z.eqb_spec c1 100) as [->|]; [|done]. destruct (Z.eqb_spec c2 32) as [->|]; [|done]. done.
Qed.

Lemma typed_plain i : item_ok i -> exists cs, typed i = cs ++ [10] /\ Forall plain cs /\ (length cs < 99)%nat.
Proof.
  destruct i as [c|path]; cbn [item_ok typed].
  - intros (Hok & Hne & Hl & _). destruct (show_last c Hne) as [body E]. exists body. assert (Forall plain (show c)) as Hp by (by apply token_plain, toks_ok).
    rewrite E in *. rewrite length_app in *. cbn [length] in *. replace (length body + 1 - 1)%nat with (length body) by lia. rewrite take_app_length.
    apply Forall_app in Hp as [Hp _]. split; [done|]. split; [done|lia].
  - intros [Hp Hl]. exists (bytes_of "cd " ++ path). split; [by rewrite <-app_assoc|]. split; [apply Forall_app_2; [by repeat constructor|done]|rewrite length_app; simpl; lia].
Qed.

Lemma item_read {B} (f : list Z * Z -> prog B) i n rest : item_ok i ->
  proc (getcmd 100 ≫= f) t (n, typed i ++ rest) = pre prompt (proc (f (buf_of (typed i), 0)) t (n, rest)).
Proof. intros (cs & -> & Hp & Hl)%typed_plain. rewrite <-app_assoc. by apply getcmd_read. Qed.

(** A child runs the command of the line. *)
Lemma cmd_does c : item_ok (Cmd c) -> does opens loads dirs pid (run_line (buf_of (typed (Cmd c)))) c t /\ never (run_line (buf_of (typed (Cmd c)))).
Proof.
  intros (Hok & Hne & Hl & _). destruct (typed_alike c Hne Hl) as [junk Ha]. destruct (parsecmd_alike c junk _ Hok Ha) as (cmd & line' & s & E & Hh & R).
  unfold run_line. rewrite E. split; [|apply runcmd_never]. apply runcmd_does; done || lia.
Qed.

(** The path of a change of directory. *)
Lemma cd_path path : item_ok (Cd path) -> let b := buf_of (typed (Cd path)) in
  (b !!! 0%nat =? 99) && (b !!! 1%nat =? 100) && (b !!! 2%nat =? 32) = true /\ text (drop 3 (<[(strlen b - 1)%nat := 0]> b)) = path.
Proof.
  intros [Hp Hl]. cbv zeta. split; [done|]. assert (Forall (fun c => c <> 0) path) as Hz by (eapply list.Forall_impl; [exact Hp|]; by intros c [? _]).
  unfold typed. rewrite buf_of_zero by (rewrite !length_app; simpl; lia). rewrite strlen_flat.
  2:{ apply Forall_app_2; [by repeat constructor|]. apply Forall_app_2; [done|by repeat constructor]. }
  rewrite !length_app. change (length (bytes_of "cd ")) with 3%nat. change (length [10]) with 1%nat. replace (3 + (length path + 1) - 1)%nat with (3 + length path)%nat by lia.
  generalize (replicate (99 - (3 + (length path + 1))) 0) as z. intros z. change (bytes_of "cd ") with [99; 100; 32]. rewrite <-!app_assoc. cbn [app Nat.add insert list_insert drop].
  change (text (<[length path := 0]> (path ++ 10 :: 0 :: z)) = path). rewrite <-(Nat.add_0_r (length path)) at 1. rewrite insert_app_r. cbn [insert list_insert].
  rewrite text_app by done. unfold text. cbn. apply app_nil_r.
Qed.

(** ** All lines *)

Lemma proc_ret {A B} (a : A) (f : A -> prog B) g : proc (mret a ≫= f) t g = proc (f a) t g.
Proof. done. Qed.

Lemma proc_wait {B} (p : prog B) g : proc (_ ← sys CWait; p) t g = pre [Waits t] (proc p t g).
Proof. unfold pre. cbn. by destruct (proc p t g). Qed.

Lemma proc_chdir {B} path (f : Z -> prog B) g : proc (r ← val (CChdir path); f r) t g =
  if dirs path then pre [Enters path] (proc (f 0) t g) else proc (f (-1)) t g.
Proof. unfold pre. cbn. destruct (dirs path); [|done]. by destruct (proc (f 0) t g). Qed.

Lemma pre_eq es r : pre es r = (es ++ fst r, snd r).
Proof. done. Qed.

Lemma commands_run : forall l rounds n, Forall item_ok l -> (length l <= rounds)%nat ->
  proc (read_commands rounds ≫= (fun _ => @Exit unit)) t (n, concat (typed <$> l)) = (fst (session l n), (snd (session l n), [])).
Proof.
  induction l as [|i l IH]; intros rounds n Hok Hr.
  - destruct rounds; cbn [read_commands fmap list_fmap concat]; rewrite proc_assoc, getcmd_end; change (negb (-1 >=? 0)) with true; cbv iota; unfold pre; cbn; done.
  - apply list.Forall_cons in Hok as [Hi Hok]. destruct rounds as [|rounds]; [simpl in Hr; lia|]. cbn [read_commands fmap list_fmap concat session].
    rewrite proc_assoc, item_read by done. change (negb (0 >=? 0)) with false. cbv iota. destruct i as [c|path]; cbn [item_meaning].
    + destruct (cmd_does c Hi) as [Hdo Hnv]. destruct Hi as (_ & Hne & Hl & Hcd). rewrite (not_cd c Hne Hcd Hl).
      rewrite proc_assoc, proc_fork1 by done. change (0 =? 0) with true. cbv iota. rewrite proc_assoc, proc_never by done. rewrite Hdo.
      destruct (meaning opens loads c t n) as [e n1]. cbn [fst snd]. rewrite (proj2 (Z.eqb_neq pid 0)) by lia.
      rewrite proc_assoc, proc_ret, proc_assoc, proc_wait, IH by (done || (simpl in Hr; lia)). destruct (session l n1) as [e2 n2]. rewrite !pre_eq. cbn [fst snd].
      by rewrite <-app_assoc.
    + destruct (cd_path path Hi) as [-> Hp]. rewrite Hp. rewrite proc_assoc, proc_chdir. destruct (dirs path).
      * change (0 <? 0) with false. cbv iota. rewrite proc_assoc, proc_ret, IH by (done || (simpl in Hr; lia)). by destruct (session l n).
      * change (-1 <? 0) with true. cbv iota. rewrite proc_assoc. erewrite proc_say by reflexivity. rewrite IH by (done || (simpl in Hr; lia)). by destruct (session l n).
Qed.

(** The descriptor that [main] opens to make sure of three is given back. *)
Lemma console_open {B} (p : prog B) g : proc (_ ← open_console 3; p) t g = proc p t g.
Proof.
  assert (forall fd, free_fd t = Some fd -> (3 <= fd)%nat) as H3.
  { intros fd Hfd. pose proof (usable_free t fd Hu Hfd). apply free_fd_some in Hfd as [Hfd _]. destruct (decide (fd = 2%nat)) as [->|]; [|lia].
    exfalso. apply Herr. change (at_fd t 2) with (mjoin (t !! 2%nat)). by rewrite Hfd. }
  cbn [open_console val mbind prog_bind ShMeaning.proc]. destruct (free_fd t) as [fd|] eqn:E; [|done]. specialize (H3 fd eq_refl).
  destruct (opens _ _); [|done]. cbn [r_val]. destruct (Z.geb_spec (Z.of_nat fd) 0); [|lia]. destruct (Z.geb_spec (Z.of_nat fd) 3); [|lia].
  apply free_fd_some in E as [E _]. pose proof (lookup_lt_Some _ _ _ E). rewrite proc_assoc, proc_close.
  - rewrite list_insert_insert_eq, list_insert_id by done. done.
  - rewrite (at_fd_nat _ _ (Opened (bytes_of "console") O_RDWR)); [done|]. by apply list_lookup_insert_eq.
Qed.

(** C20. A session of the shell.  When lines are typed, each of them a command
    written with parentheses where they are needed or a change of directory, the
    shell prompts, and for each line does what it says: a simple command starts
    the program with its words as arguments and the descriptors of the shell;
    a redirection replaces descriptor 0 or 1 by the file; the commands of a pipe
    have its two ends as descriptors 1 and 0 and no other process keeps an end;
    the second command of a list starts after a wait for the first one; the
    shell waits with exactly its own descriptors. *)
Theorem shell_runs_lines l rounds n (Hok : Forall item_ok l) (Hr : (length l <= rounds)%nat) :
  proc (sh_main rounds) t (n, concat (typed <$> l)) = (fst (session l n), (snd (session l n), [])).
Proof. unfold sh_main. rewrite console_open. by apply commands_run. Qed.
End Session.

(** ** A session *)

Definition console_fds : list (option desc) := replicate 3 (Some Console) ++ replicate 13 None.

Definition lines_ls : list item := [Cmd tree_ls; Cd (bytes_of "d")].

Lemma lines_ls_ok : Forall item_ok lines_ls.
Proof.
  constructor; [|constructor; [|done]].
  - split; [exact tree_ls_ok|]. split; [done|]. split; [vm_compute; lia|]. by vm_compute.
  - split; [|simpl; lia]. apply Forall_singleton. by vm_compute.
Qed.

(** The programs that are started, with descriptors 0 to 3. *)
Definition launches (es : list event) : list (list (list Z) * list (option desc)) :=
  concat ((fun e => match e with Launch argv t => [(argv, take 4 t)] | _ => [] end) <$> es).

Lemma shell_runs_lines_witness :
  concat (typed <$> lines_ls) = bytes_of "ls -l | wc > f" ++ [10] ++ bytes_of "cd d" ++ [10] /\
  launches (fst (proc (fun _ _ => true) (fun _ => true) (fun _ => true) 5 (sh_main 2) console_fds (0%nat, concat (typed <$> lines_ls)))) =
    [([bytes_of "ls"; bytes_of "-l"], [Some Console; Some (WriteEnd 0); Some Console; None]);
     ([bytes_of "wc"], [Some (ReadEnd 0); Some (Opened (bytes_of "f") 513); Some Console; None])].
Proof.
  split; [by vm_compute|]. rewrite (shell_runs_lines (fun _ _ => true) (fun _ => true) (fun _ => true) 5 ltac:(lia) console_fds).
  - by vm_compute.
  - split; [done|]. by split; exists Console.
  - done.
  - done.
  - exact lines_ls_ok.
  - simpl. lia.
Defined.
