(* ===== verification/Sthread.v ===== *)
(** * The thread library (sthread.c)

    A thread is created from a page the process gets from the kernel and fills
    with the first stack: the function, the address it returns to, its argument.
    The kernel moves the words that point into the page ([linkuvm]); the theorem
    joins the two. *)

From S2P Require Import Prelude Params State Mem Ulib Uproc Ufiles ThreadMem.

(* sthread.c 6-14: ttrap *)
Definition ttrap : prog unit :=
  tid ← val CThread_id;
  if nz tid then Exit else say 1 (line "Calling ttrap on a non-successful thread") [].

(** [memmove] to [sp] in the page at [stack]. *)
Definition store (stack sp : Z) (bs page : list Z) : prog (list Z) :=
  if (stack <=? sp) && (sp + Z.of_nat (length bs) <=? stack + PGSIZE)
  then mret (splice page (Z.to_nat (sp - stack)) bs)
  else Undefined "outside the page".

(** [trap] is the address of [ttrap].  The argument does not lie in the page, whose
    contents come with the reply of [getpage]. *)
(* sthread.c 16-40: thread_creator *)
Definition thread_creator (trap fn : Z) (arg : option (list Z)) : prog Z :=
  r ← sys CGetpage;
  let stack := r_val r in
  let sp := u32 (stack + PGSIZE) in
  x ← match arg with
      | Some a =>
          let sp := Z.land (u32 (sp - (Z.of_nat (strlen a) + 1))) (u32 (Z.lnot 3)) in
          page ← store stack sp (text a ++ [0]) (r_data r);
          mret (sp, page, [sp; 0], 1)
      | None => mret (sp, r_data r, [0], 0)
      end;
  let '(sp, page, ustack2, argc) := x in
  let sp := u32 (sp - (argc + 3) * 4) in
  page ← store stack sp (concat (le_bytes 4 <$> fn :: trap :: ustack2)) page;
  v ← val (CDetachpage stack page);
  val (CThread_create (u32 (v + (sp - stack)))).

(** ** The stack in the page *)

Lemma slice_splice_part {A} (l : list A) i new j n : (i <= length l)%nat -> (j + n <= length new)%nat -> slice (splice l i new) (i + j) n = slice new j n.
Proof.
  intros Hi Hj. unfold slice, splice. rewrite drop_app_ge by (rewrite length_take; lia). rewrite length_take.
  replace (i + j - i `min` length l)%nat with j by lia. rewrite drop_app_le by lia. rewrite take_app_le by (rewrite length_drop; lia). done.
Qed.

Lemma word_at_concat ws j w : ws !! j = Some w -> word_at (concat (le_bytes 4 <$> ws)) (4 * j) = u32 w.
Proof.
  revert j. induction ws as [|w' ws IH]; intros j E; [done|]. cbn [fmap list_fmap concat]. destruct j as [|j].
  - cbn in E. injection E as <-. unfold word_at, slice. rewrite drop_0, take_app_le, take_ge by (rewrite length_le_bytes; lia). apply le_val_bytes.
  - rewrite <-(IH j E). unfold word_at, slice. f_equal. rewrite drop_app_ge by (rewrite length_le_bytes; lia). rewrite length_le_bytes. do 2 f_equal. lia.
Qed.

Lemma length_words ws : length (concat (le_bytes 4 <$> ws)) = (4 * length ws)%nat.
Proof. induction ws as [|w ws IH]; [done|]. cbn [fmap list_fmap concat]. rewrite length_app, length_le_bytes, IH. simpl. lia. Qed.

(** A store inside the page. *)
Lemma store_inside {B} stack sp bs page (f : list Z -> prog B) : stack <= sp -> sp + Z.of_nat (length bs) <= stack + PGSIZE ->
  (store stack sp bs page ≫= f) = f (splice page (Z.to_nat (sp - stack)) bs).
Proof. intros H1 H2. unfold store. by rewrite (proj2 (Z.leb_le _ _) H1), (proj2 (Z.leb_le _ _) H2). Qed.

(** Rounding down to a word. *)
Lemma align_word x : 0 <= x < 2 ^ 32 -> Z.land x (u32 (Z.lnot 3)) = x - x `mod` 4.
Proof.
  intros Hx. change (u32 (Z.lnot 3)) with (Z.ldiff (Z.ones 32) (Z.ones 2)).
  assert (Z.land x (Z.ldiff (Z.ones 32) (Z.ones 2)) = Z.ldiff x (Z.ones 2)) as ->.
  { apply Z.bits_inj'. intros i Hi. rewrite Z.land_spec, !Z.ldiff_spec. destruct (decide (i < 32)).
    - by rewrite (Z.ones_spec_low 32) by lia.
    - rewrite (Z.bits_above_log2 x i), ?andb_false_l; [done|lia|]. destruct (decide (x = 0)) as [->|]; [simpl; lia|].
      apply Z.lt_le_trans with 32; [apply Z.log2_lt_pow2; lia|lia]. }
  rewrite Z.ldiff_ones_r, Z.shiftr_div_pow2, Z.shiftl_mul_pow2 by lia. change (2 ^ 2) with 4. pose proof (Z.div_mod x 4). lia.
Qed.

(** Where the argument is in the page. *)
Definition arg_off (a : list Z) : Z := let x := PGSIZE - (Z.of_nat (length (text a)) + 1) in x - x `mod` 4.

Definition first_off (arg : option (list Z)) : Z := match arg with Some a => arg_off a - 16 | None => PGSIZE - 12 end.

Definition first_words (stack fn trap : Z) (arg : option (list Z)) : list Z :=
  fn :: trap :: match arg with Some a => [stack + arg_off a; 0] | None => [0] end.

Definition first_stack (stack fn trap : Z) (arg : option (list Z)) (page : list Z) : list Z :=
  let page := match arg with Some a => splice page (Z.to_nat (arg_off a)) (text a ++ [0]) | None => page end in
  splice page (Z.to_nat (first_off arg)) (concat (le_bytes 4 <$> first_words stack fn trap arg)).

(** The argument leaves room for the four words. *)
Definition arg_fits (arg : option (list Z)) : Prop := match arg with Some a => Z.of_nat (length (text a)) + 20 <= PGSIZE | None => True end.

Lemma arg_off_range a : arg_fits (Some a) -> 16 <= arg_off a /\ arg_off a + Z.of_nat (length (text a)) + 1 <= PGSIZE /\ arg_off a `mod` 4 = 0.
Proof.
  unfold arg_fits, arg_off. intros Hf. set (x := PGSIZE - _). pose proof (Z.div_mod x 4). pose proof (Z.mod_pos_bound x 4).
  replace (x - x `mod` 4) with (0 + x / 4 * 4) by lia. rewrite Z.mod_add by done. unfold PGSIZE in *. split; [|split; [lia|done]].
  assert (16 <= x) by lia. assert (4 <= x / 4) by (apply Z.div_le_lower_bound; lia). lia.
Qed.

Lemma first_off_range arg : arg_fits arg -> 0 <= first_off arg /\ first_off arg `mod` 4 = 0 /\
  first_off arg + 4 * Z.of_nat (length (first_words 0 0 0 arg)) = match arg with Some a => arg_off a | None => PGSIZE end.
Proof.
  destruct arg as [a|]; intros Hf; cbn [first_off first_words length]; [|by vm_compute].
  destruct (arg_off_range a Hf) as (H1 & H2 & H3). split; [lia|]. split; [|lia]. rewrite Zminus_mod, H3. done.
Qed.

Lemma creator_builds trap fn arg : arg_fits arg -> exists k, thread_creator trap fn arg = Sys CGetpage k /\
  forall stack page, 0 <= stack -> stack `mod` PGSIZE = 0 -> stack + PGSIZE < 2 ^ 32 ->
    k (mkReply stack page) = (v ← val (CDetachpage stack (first_stack stack fn trap arg page)); val (CThread_create (u32 (v + first_off arg)))).
Proof.
  intros Hf. eexists. split; [reflexivity|]. intros stack page H0 Hm H1. pose proof (first_off_range arg Hf) as (Hr1 & Hr2 & Hr3).
  unfold sys, first_stack. cbn [r_val r_data]. rewrite (u32_small (stack + PGSIZE)) by (unfold PGSIZE in *; lia).
  assert (stack `mod` 4 = 0) as Hs4 by (unfold PGSIZE in Hm; pose proof (Z.div_mod stack 4096); replace stack with (0 + stack / 4096 * 1024 * 4) by lia; by rewrite Z.mod_add).
  destruct arg as [a|]; cbn [first_off first_words] in *.
  - destruct (arg_off_range a Hf) as (Ha1 & Ha2 & Ha3). rewrite strlen_text.
    assert (Z.land (u32 (stack + PGSIZE - (Z.of_nat (length (text a)) + 1))) (u32 (Z.lnot 3)) = stack + arg_off a) as ->.
    { unfold arg_fits in Hf. rewrite u32_small, align_word by (unfold PGSIZE in *; lia). unfold arg_off.
      set (x := PGSIZE - (Z.of_nat (length (text a)) + 1)). replace (stack + PGSIZE - (Z.of_nat (length (text a)) + 1)) with (stack + x) by (unfold x; lia).
      rewrite Zplus_mod, Hs4, Z.add_0_l, Zmod_mod. lia. }
    rewrite store_inside by (rewrite ?length_app; cbn [length]; lia). unfold mret, prog_ret. cbn [mbind prog_bind]. rewrite (u32_small (_ - _)) by (unfold PGSIZE in *; lia).
    change ((1 + 3) * 4) with 16. etrans; [apply store_inside; rewrite ?length_words; cbn [length]; lia|].
    replace (stack + arg_off a - 16 - stack) with (arg_off a - 16) by lia. replace (stack + arg_off a - stack) with (arg_off a) by lia. done.
  - unfold mret, prog_ret. cbn [mbind prog_bind]. change ((0 + 3) * 4) with 12. rewrite (u32_small (_ - _)) by (unfold PGSIZE in *; lia).
    etrans; [apply store_inside; rewrite ?length_words; cbn [length]; unfold PGSIZE in *; lia|].
    replace (stack + PGSIZE - 12 - stack) with (PGSIZE - 12) by lia. done.
Qed.

(** ** The thread's first steps *)

(** The page [pg] is in memory at [a]. *)
Definition page_at (m : gmap Z Z) (a : Z) (pg : list Z) : Prop := forall x b, pg !! x = Some b -> ld8 m (a + Z.of_nat x) = b.

Lemma page_word m a pg off : page_at m a pg -> (off + 4 <= length pg)%nat -> ld32 m (a + Z.of_nat off) = word_at pg off.
Proof.
  intros Hp Hl. unfold ld32, word_at, slice. f_equal. apply list_eq. intros i. destruct (decide (i < 4)%nat) as [Hi|Hi].
  - rewrite lookup_ld, lookup_take_lt, lookup_drop by done. destruct (lookup_lt_is_Some_2 pg (off + i)) as [b E]; [lia|]. rewrite E.
    rewrite <-Z.add_assoc, <-Nat2Z.inj_add. by rewrite (Hp _ _ E).
  - rewrite !lookup_ge_None_2; [done| |]; rewrite ?length_ld, ?length_take; lia.
Qed.

Lemma words_from_in off n : 0 <= n -> off + 4 * n + 4 <= PGSIZE -> off + 4 * n ∈ words_from off.
Proof.
  intros H0 Hn. unfold words_from. apply list_elem_of_fmap. exists n. split; [done|]. apply elem_of_zseq.
  assert (n + 1 <= (PGSIZE - off + 3) / 4) by (apply Z.div_le_lower_bound; lia). lia.
Qed.

Section First.
Context (stack fn trap : Z) (arg : option (list Z)) (page : list Z) (Hf : arg_fits arg) (Hl : length page = Z.to_nat PGSIZE).

#[local] Notation pg := (first_stack stack fn trap arg page).

Lemma length_first : length pg = Z.to_nat PGSIZE.
Proof.
  destruct (first_off_range arg Hf) as (H1 & _ & H3). unfold first_stack. rewrite length_splice.
  - destruct arg as [a|]; [|done]. destruct (arg_off_range a Hf) as (? & ? & _). rewrite length_splice; [done|]. rewrite length_app. cbn [length]. lia.
  - rewrite length_words. destruct arg as [a|]; cbn [first_off first_words length] in *; [|rewrite Hl; unfold PGSIZE; lia].
    destruct (arg_off_range a Hf) as (? & ? & _). rewrite length_splice; [lia|]. rewrite length_app. cbn [length]. lia.
Qed.

(** Its words, as the kernel finds them. *)
Lemma first_word m a j w : page_at m a pg -> first_words stack fn trap arg !! j = Some w -> 0 <= w < 2 ^ 32 -> ld32 m (a + (first_off arg + 4 * Z.of_nat j)) = w.
Proof.
  intros Hp E Hw. destruct (first_off_range arg Hf) as (H1 & _ & H3). pose proof (lookup_lt_Some _ _ _ E) as Hj.
  assert (length (first_words stack fn trap arg) = length (first_words 0 0 0 arg)) as El by (by destruct arg).
  assert (first_off arg + 4 * Z.of_nat (length (first_words 0 0 0 arg)) <= PGSIZE) as Hend.
  { rewrite H3. destruct arg as [b|]; [|lia]. destruct (arg_off_range b Hf) as (? & ? & _). lia. }
  replace (first_off arg + 4 * Z.of_nat j) with (Z.of_nat (Z.to_nat (first_off arg) + 4 * j)) by lia.
  rewrite (page_word m a pg) by (done || rewrite length_first; lia). unfold word_at. unfold first_stack. rewrite slice_splice_part.
  - fold (word_at (concat (le_bytes 4 <$> first_words stack fn trap arg)) (4 * j)). rewrite (word_at_concat _ _ w E). by apply u32_small.
  - destruct arg as [b|]; [|rewrite Hl; lia]. destruct (arg_off_range b Hf) as (? & ? & _). rewrite length_splice; [rewrite Hl; lia|]. rewrite length_app. cbn [length]. lia.
  - rewrite length_words. lia.
Qed.

(** The argument. *)
Lemma first_arg m a b : arg = Some b -> page_at m a pg -> forall x c, (text b ++ [0]) !! x = Some c -> ld8 m (a + (arg_off b + Z.of_nat x)) = c.
Proof.
  intros -> Hp x c E. destruct (arg_off_range b Hf) as (H1 & H2 & _). pose proof (lookup_lt_Some _ _ _ E) as Hx. rewrite length_app in Hx. cbn [length] in Hx.
  replace (arg_off b + Z.of_nat x) with (Z.of_nat (Z.to_nat (arg_off b) + x)) by lia. apply Hp. unfold first_stack. cbn [first_off].
  rewrite lookup_splice_out.
  - rewrite lookup_splice_in; [by replace (Z.to_nat (arg_off b) + x - Z.to_nat (arg_off b))%nat with x by lia| |]; rewrite ?length_app; cbn [length]; lia.
  - rewrite length_words, length_splice by (rewrite length_app; cbn [length]; lia). cbn [first_words length]. lia.
  - rewrite length_words. cbn [first_words length]. lia.
Qed.

End First.

(** Equal words have equal bytes. *)
Lemma word_bytes m m' a x : bytes_ok m -> bytes_ok m' -> ld32 m' a = ld32 m a -> a <= x < a + 4 -> ld8 m' x = ld8 m x.
Proof.
  intros Hb Hb' E Hx. unfold ld32 in E. apply (f_equal (le_bytes 4)) in E.
  pose proof (le_bytes_val (ld m a 4) (ld_bytes m a 4 Hb)) as E1. pose proof (le_bytes_val (ld m' a 4) (ld_bytes m' a 4 Hb')) as E2.
  rewrite length_ld in E1, E2. rewrite E1, E2 in E. apply (f_equal (lookup (Z.to_nat (x - a)))) in E. rewrite !lookup_ld in E by lia.
  injection E as E. by replace (a + Z.of_nat (Z.to_nat (x - a))) with x in E by lia.
Qed.

(** C19. A new thread.  [thread_creator] gets a page, fills it and hands it to the
    kernel with a stack pointer to its first word.  After the kernel has moved the
    words that point into the page ([linkuvm]; the page was at [sz] in the process
    and is at [i] in the thread), the first word, which becomes the program
    counter, is the function, the second, which the function returns to, is
    [ttrap], and the third is the argument: a null pointer, or a pointer to the
    place of the argument in the thread's stack, where the string is as it was
    given, provided that none of its words looks like a pointer into the page. *)
Theorem thread_starts trap fn arg sz page
    (Hf : arg_fits arg) (Hl : length page = Z.to_nat PGSIZE) (Hsz : sz `mod` PGSIZE = 0) (H1 : sz + PGSIZE < 2 ^ 31)
    (Hfn : 0 <= fn <= sz) (Htr : 0 <= trap <= sz) :
  exists k pg off, thread_creator trap fn arg = Sys CGetpage k /\
    k (mkReply sz page) = (v ← val (CDetachpage sz pg); val (CThread_create (u32 (v + off)))) /\
    0 <= off < PGSIZE /\ off `mod` 4 = 0 /\
    forall m m' a i, bytes_ok m -> bytes_ok m' -> 0 <= i -> i + PGSIZE <= 2 ^ 32 -> page_at m a pg ->
      (forall j, j ∈ words_from off -> ld32 m' (a + j) = moved_word sz i (ld32 m (a + j))) ->
      ld32 m' (a + off) = fn /\ ld32 m' (a + (off + 4)) = trap /\
      match arg with
      | None => ld32 m' (a + (off + 8)) = 0
      | Some s => exists o, off < o < PGSIZE /\ ld32 m' (a + (off + 8)) = i + o /\
          ((forall j, j ∈ words_from o -> moved_word sz i (ld32 m (a + j)) = ld32 m (a + j)) ->
           forall x c, (text s ++ [0]) !! x = Some c -> ld8 m' (a + (o + Z.of_nat x)) = c)
      end.
Proof.
  destruct (creator_builds trap fn arg Hf) as (k & Ek & Hk). destruct (first_off_range arg Hf) as (Ho1 & Ho2 & Ho3).
  exists k, (first_stack sz fn trap arg page), (first_off arg). split; [done|]. split; [apply Hk; lia|].
  assert (first_off arg + 12 <= PGSIZE) as Hend.
  { destruct arg as [s|]; cbn [first_words length] in Ho3; [|lia]. destruct (arg_off_range s Hf) as (? & ? & _). lia. }
  split; [unfold PGSIZE in *; lia|]. split; [done|]. intros m m' a i Hb Hb' Hi0 Hi Hp Hmv.
  assert (forall j w, first_words sz fn trap arg !! j = Some w -> (j < 3)%nat -> 0 <= w < 2 ^ 32 ->
    ld32 m' (a + (first_off arg + 4 * Z.of_nat j)) = moved_word sz i w) as Hw.
  { intros j w E Hj Hr. rewrite Hmv by (apply words_from_in; lia). by rewrite (first_word sz fn trap arg page Hf Hl m a j w Hp E Hr). }
  assert (forall w, 0 <= w <= sz -> moved_word sz i w = w) as Hsmall.
  { intros w Hr. unfold moved_word. by replace (w >? sz) with false by lia. }
  pose proof (Hw 0%nat fn eq_refl ltac:(lia) ltac:(unfold PGSIZE in *; lia)) as E0. pose proof (Hw 1%nat trap eq_refl ltac:(lia) ltac:(unfold PGSIZE in *; lia)) as E1.
  rewrite Z.add_0_r, Hsmall in E0 by done. rewrite Hsmall in E1 by done. split; [done|]. split; [done|]. destruct arg as [s|].
  - destruct (arg_off_range s Hf) as (Ha1 & Ha2 & Ha3). exists (arg_off s). cbn [first_off] in *. split; [lia|]. split.
    + etrans; [apply (Hw 2%nat (sz + arg_off s) eq_refl); [lia|unfold PGSIZE in *; lia]|]. unfold moved_word.
      rewrite (u32_small (sz + PGSIZE)) by (unfold PGSIZE in *; lia). replace (sz + arg_off s >? sz) with true by lia. replace (sz + arg_off s <? sz + PGSIZE) with true by lia.
      cbn [andb]. rewrite u32_small; lia.
    + intros Hno x c E. pose proof (lookup_lt_Some _ _ _ E) as Hx. rewrite length_app in Hx. cbn [length] in Hx.
      rewrite <-(first_arg sz fn trap (Some s) page Hf Hl m a s eq_refl Hp x c E). set (n := Z.of_nat x / 4).
      pose proof (Z.div_mod (Z.of_nat x) 4). pose proof (Z.mod_pos_bound (Z.of_nat x) 4). fold n in H.
      assert (arg_off s + 4 * n + 4 <= PGSIZE) as Hin by (pose proof (word_fits (arg_off s + 4 * n)); unfold PGSIZE in *; apply H2; [lia|];
        rewrite (Z.mul_comm 4 n), Z.mod_add by done; done).
      assert (0 <= n) by (apply Z.div_pos; lia).
      apply (word_bytes m m' (a + (arg_off s + 4 * n))); [done|done| |lia].
      rewrite <-(Hno (arg_off s + 4 * n)) by (by apply words_from_in). replace (arg_off s + 4 * n) with (arg_off s - 16 + 4 * (n + 4)) by lia.
      apply Hmv, words_from_in; lia.
  - etrans; [apply (Hw 2%nat 0 eq_refl); lia|]. apply Hsmall. unfold PGSIZE in *. lia.
Qed.

Lemma thread_starts_witness : exists k pg off, thread_creator 16 32 (Some (bytes_of "hi")) = Sys CGetpage k /\
  k (mkReply 4096 (replicate (Z.to_nat PGSIZE) 0)) = (v ← val (CDetachpage 4096 pg); val (CThread_create (u32 (v + off)))) /\ off `mod` 4 = 0.
Proof.
  destruct (thread_starts 16 32 (Some (bytes_of "hi")) 4096 (replicate (Z.to_nat PGSIZE) 0) ltac:(done) (length_replicate _ _) eq_refl ltac:(done) ltac:(done) ltac:(done))
    as (k & pg & off & H1 & H2 & _ & H3 & _). by exists k, pg, off.
Defined.
